(* ===== verification/_CoqProject ===== *)
-Q . S2P
Prelude.v
PyValue.v
PosixPath.v
PyFloat.v
Utf8.v
Sha256.v
Json.v
Protocol.v
Launcher.v
Policy.v
PyTime.v
Redaction.v
JobStore.v
Secrets.v
Traced.v
HostSystem.v
Recovery.v
JobRun.v
Agent.v
TaskEngine.v
Resources.v
SocketHost.v
KeyFile.v
Plans.v
OpsClient.v
Sse.v
PyText.v
PurePath.v
RuntimeSpec.v
RuntimeBase.v
RuntimeDisk.v
JsonBytes.v
RuntimeVllm.v
RuntimeSglang.v
RuntimeLlamaCpp.v
RuntimeOther.v
RuntimeChecks.v
RuntimeCommands.v
DeployHost.v
DeployContract.v
DeployTraces.v
DeployActions.v
DeployActionSafety.v
DeployActionFailures.v
DeployActionResults.v
DeploySim.v
ModelCapabilities.v
DeployPorts.v
DeployResolve.v
DeployAdapters.v
DeployChanges.v
DeployChangeSafety.v
DeployAccounting.v
DeployChangeSim.v
DeployTemplates.v
GatewayRouting.v
GatewayUpstream.v
PlanExecutor.v
PlanSafety.v
PlanOutput.v
PlanPolling.v
PlanFindings.v
Responses.v
ResponsesStream.v
ResponsesProtocol.v
ResponsesContent.v
