(* ===== verification/Prelude.v ===== *)
(** * DGX Spark Web Manager: verification development

    The program manages inference workloads on one DGX Spark machine.  Its
    parts are a web backend (src/backend/app: a task engine, deployments, a
    model gateway, an operations assistant) and a privileged host agent
    (src/host_agent/dgx_ops_agent) that the backend reaches over a Unix socket
    with signed messages.  This library models the host agent completely, from
    the bytes on the socket to the processes it runs, and of the backend its
    client of the agent, the plans that an administrator approves and their
    execution, the task engine, the deployments with the runtime adapters and
    the memory estimates that admit them, and of the gateway the routing, the
    upstream settings, the event streams and the bridge between the Responses
    and the chat protocol.

    ** How the parts interact

    A request reaches the agent as a frame (Protocol: read_frame), is verified
    (Protocol: verify_message, nonces) and dispatched (Agent: handle, dispatch).
    The policy turns its fields into an action (Policy: validate_action); the
    job runner turns the action into a command (JobStore: resolve_invocation)
    and runs it (JobRun: run) behind a launcher that waits for a gate
    (Launcher: run_launcher), with its output redacted (Redaction: feed, finish)
    and its metadata on disk (JobStore: metadata_text), from which a restarted
    agent loads jobs (JobStore: load_jobs) and recovers their processes
    (Recovery: recover_with_pidfds).  The socket and the key of the signatures
    are SocketHost and KeyFile.  The backend's end of the connection is OpsClient
    (call), whose last section runs it against the agent.

    A plan of the operations assistant is approved with the digest of its steps
    (Plans: approve_plan, operation_plan_digest), which creates a task.  Its
    handler (PlanExecutor: handler) claims the plan, compares the digest before
    every step, sends each shell step to the agent, polls its output, redacts
    and publishes it (consume_output), and records results in the plan.
    Secrets of the database are collected and hidden by Secrets.

    A deployment is created or updated by a task (DeployChanges: create_handler,
    update_handler): the port is prepared (DeployPorts: prepare_spec_port), the
    specification resolved and checked (DeployResolve: resolve_spec_with_capabilities, preflight)
    with the adapter of its runtime (RuntimeBase: Adapter; RuntimeVllm,
    RuntimeSglang, RuntimeLlamaCpp, RuntimeOther), the container run with the
    adapter's command and mounts (launch_options), the runtime waited for, and
    the row written; an update keeps the old container as a backup until then.
    Start, stop, restart and delete are DeployActions: action_handler, which
    claims the row by a conditional update, verifies the container, acts,
    waits, and writes the outcome by a conditional update.  When the application
    starts, DeployTemplates: reconcile_managed_chat_templates rewrites stored
    configurations.  Docker, the clock, the task and the other sessions are an
    environment (class Host); an object of the Docker client keeps what was
    loaded until it is loaded again, as in the Docker SDK.

    The gateway chooses a deployment for a model name in turns
    (GatewayRouting: select_routed_deployment), and prepares the body (media,
    reasoning effort, generation defaults).  A model that no local route has
    may be served by an upstream gateway (GatewayUpstream).

    A client of the gateway that speaks the Responses protocol has its request
    turned into a chat request (Responses: responses_to_chat_request); the chat
    stream of the runtime is cut into events (Sse: parse_chat_sse_frames),
    translated (ResponsesStream: feed, finish) and forwarded
    (ResponsesStream: translate_responses_stream), or the buffered reply is
    translated whole (Responses: from_chat_response).  A chat client has its
    stream relayed (Sse: stream_body).

    ** Files

    - Prelude: exceptions, results, tactics, lists, the closure star.
    - PyValue: Python's JSON-like values, strings as code points, insertion
      ordered dictionaries, decimal numerals.  PyFloat: decimal text of binary64
      numbers (SpecFloat of the Standard Library), float() and repr().
      PosixPath: posixpath.normpath.  Utf8: strict decoder and encoder.
      Sha256: SHA-256 and HMAC.  Json: json.dumps in the two styles the code
      uses, and json.loads with the hooks it passes.
    - Protocol: host_agent/dgx_ops_agent/protocol.py.
    - Policy: policy.py.  Launcher: launcher.py.  Redaction: redaction.py.
    - JobStore: the data of runner.py (invocations, output windows, snapshots,
      metadata files).
    - Traced: a state monad with exceptions and a record of what a program did;
      wp and emits reason about it.  HostSystem: the operating system as the
      runner uses it, an interface (class System).  Recovery and JobRun: the
      methods of runner.py that drive processes, as such programs.
    - Agent: AgentServer of server.py, over an interface to the job runner
      (class JobService, with the laws JobServiceSpec).
    - SocketHost: UnixSocketAgentServer of server.py, over an interface to the
      file system and sockets (class SocketSystem).  KeyFile: the key file.
    - OpsClient: backend/app/services/ops_agent.py.  Secrets: ops_secrets.py.
      PyTime: the dates of both.
    - Plans: the rows, the digest and the approval of plans.  PlanExecutor:
      operations/executor.py.  PlanSafety, PlanOutput, PlanPolling: its
      theorems.  PlanFindings: runs of interrupted and paused plans.
    - TaskEngine: backend/app/tasks/engine.py with the task table of models.py.
    - Resources: backend/app/services/resource_estimator.py.
    - PurePath, JsonBytes: pathlib and json.loads of bytes.  RuntimeSpec and
      RuntimeBase: runtime/base.py, over an interface to the file system (class
      ModelFiles; RuntimeDisk is an instance).  RuntimeVllm, RuntimeSglang,
      RuntimeLlamaCpp, RuntimeOther: the adapters.  RuntimeChecks and
      RuntimeCommands: theorems about them.
    - DeployHost, DeployContract, DeployActions: the actions of
      services/deployments.py; DeployTraces, DeployActionSafety,
      DeployActionFailures, DeployActionResults: their theorems; DeploySim: a
      host to run them on.
    - ModelCapabilities: services/model_capabilities.py.
    - DeployPorts, DeployResolve, DeployAdapters, DeployChanges: creation and
      update; DeployChangeSafety, DeployAccounting: their theorems;
      DeployChangeSim: runs.  DeployTemplates: the chat templates.
    - GatewayRouting: what api/gateway.py, gateway/proxy.py and
      gateway/adapters.py decide before a request is sent.  GatewayUpstream:
      services/upstream_gateway.py and api/upstream.py.
    - Sse: server-sent events of gateway/proxy.py and responses_stream.py.
      PyText: str(), repr() and int() of values, and an interface to the Unicode
      database (class UnicodeData).
    - Responses: gateway/responses.py.  ResponsesStream: the translator of
      gateway/responses_stream.py and its generator in api/gateway.py.
      ResponsesProtocol: the protocol as an abstract machine and the refinement.
      ResponsesContent: two equivalences about what a stream says.

    ** What the theorems show

    - Messages: exactly the signed, fresh, well-formed requests are accepted
      (verify_message_iff), none twice (no_replay); a signature binds the whole
      content (canonical_bytes_injective); frames round trip over any
      fragmentation (frame_roundtrip) and reading is safe on any stream.
    - Authorisation: what the policy returns is permitted
      (validate_action_permitted); the agent starts nothing that was not
      verified and validated (handle_starts_authorised) and answers every
      message with a signed response (handle_answers).
    - Processes: the launcher executes only behind its gate and runs exactly the
      request (launcher_executes_only_gated, launcher_runs_request); the gate
      opens after the job can be recovered (gate_opens_after_record); a job's
      end is reported as it happened (run_outcome) and comes once the clock
      passes its deadlines (run_ends); recovery signals only processes of the
      job (recovery_signals_only_members); metadata round trips
      (persisted_job_reloads) and polling output is exact (polling_is_exact).
    - Redaction: no exception on any bytes, and no configured value published
      when its marker was seen (continued_value_hidden).
    - Socket: accepted directories are exactly those no other user can swap
      (chain_secure_iff), binding removes only a stale socket (bind_safe), the
      number of connections is bounded in every interleaving (serve_bounded).
    - Tasks: a database invariant (engine_invariant), a refinement of the
      status machine (engine_step_refines_lifecycle), survival of the worker
      (run_turn_survives) and the case where it does not
      (resume_running_kills_worker).
    - Estimates: an admission never uses the reserve (estimate_sound), the search for
      a context length ends and finds one if there is one
      (clamp_context_fits).
    - Gateway: a request becomes a well-formed chat request or is refused for a
      known reason (request_translated), with one leading system message
      (one_leading_system_message) and JSON arguments (arguments_are_json); a
      stream keeps the Responses protocol (stream_keeps_protocol) whatever the
      chunks (stream_chunking_irrelevant) and ends in the response that the
      buffered translation gives (stream_agrees_with_buffered), when every piece of a tool call has its
      index; events round trip (events_roundtrip), a relayed stream loses
      nothing but an unterminated tail (stream_forwarded) and metering is exact
      (metering_exact).  Candidates share requests evenly
      (candidates_share_evenly); sampling options are the deployment's
      (sampling_decided_by_deployment); an upstream URL has one /v1
      (request_url_one_v1) and its exposure round trips (exposure_roundtrip).
    - Client: a call returns only what the agent signed for this request in
      time (call_faithful), raises only the declared errors and a timeout
      (call_errors), and agrees with the agent (remote_call_agrees).  Secrets:
      of a text only configured secrets are replaced, each of them where it
      stands (configured_secrets_hidden).
    - Plans: only approved commands are sent, in order and once
      (only_approved_commands); what the executor accepts the agent accepts
      (agent_accepts_approved_step), and the other way round for snapshots
      (agent_snapshots_accepted); stored output is redacted
      (output_is_redacted); the handler ends (handler_ends).
    - Runtimes: commands say every setting exactly once
      (vllm_settings_exact, sglang_settings_exact, llama_settings_exact); the
      model is below a configured root and at the same path in the container
      (container_path_contained); mounts are separate and read-only where they
      must be (launch_mounts).
    - Deployments: actions touch only verified containers
      (action_touches_verified), write only their row
      (action_writes_own_row), report what the table holds
      (action_result_recorded) and settle the row when they fail
      (failed_action_settles); creations and updates remove a container only
      with a reason (changes_remove_justly) and forget none that they make
      (started_containers_settled); ports are free and lowest
      (prepared_port_free); a rewritten configuration is settled
      (rewritten_config_settled).

    ** Fuel

    Loops that end are structural or take fuel that a theorem bounds: the JSON
    parser and the scanners take the length of their input, the context search
    eleven steps for at most 2^20 tokens, the frame cutter the length of its
    buffer, the key reader 67 reads, the search for a port one step more than
    there are reserved ports (lowest_port_free), the wait for health as many
    attempts as the code computes.  Loops that wait for the outside (await_loop,
    monitor, recover_loop, and poll of the executor) run out of fuel only after
    as many turns of the clock, or answers of the agent, as await_ends, run_ends
    and handler_ends say.

    ** Not modelled

    Thread start and stop, what the reader thread of a job does after its
    join timed out, RecursionError of the standard library's parser and file
    modes, fsync and rename of the metadata files; integers of more than 4300
    digits.  Libraries (SQLAlchemy, FastAPI, pydantic's coercions and dumps,
    httpx, Docker) are parameters or environments with the laws that are named
    where they are used.  The dispatch of the gateway over HTTP, its catalog of
    models, the measurement of a benchmark, the assistant's conversations and
    the recommendations for deployments are not modelled; the manifest lists
    every part that is left out with the reason. *)
From Stdlib Require Import ZArith Lia Bool String Ascii.
From stdpp Require Import prelude.

(** ** Exceptions

    The exception classes the modelled code raises or catches.  The message
    is kept where the program inspects it or shows it to a caller. *)
Inductive exn :=
  | ValueError (message : list Z)
  | TypeError (message : list Z)
  | KeyError (message : list Z)
  | RuntimeError (message : list Z)
  | OSError (message : list Z)
  | PermissionError (message : list Z)
  | TimeoutError (message : list Z)
  | UnicodeError (message : list Z)
  | RecursionError
  | OverflowError (message : list Z)
  | ProtocolError (message : list Z)
  | PolicyError (message : list Z)
  | UnknownAction
  | ApprovalRequired
  | OperationTimeout (job_id : list Z)
  | TaskPaused
  | TaskCancelled
  | IntegrityError
  | JSONDecodeError
  | ResponsesTranslationError (message : list Z)
  | MultimodalRequestError (message : list Z)
  | OpsAgentUnavailable
  | OpsAgentProtocolError
  | OpsAgentRemoteError (code : list Z)
  | SecretLoadError (message : list Z)
  | HTTPException (status_code : Z) (detail : list Z)
  | OtherException (message : list Z).

(** The classes derived from [ValueError] in Python's hierarchy or in the
    code ([class ProtocolError(ValueError)] and so on). *)
Definition is_ValueError (e : exn) : bool :=
  match e with
  | ValueError _ | UnicodeError _ | ProtocolError _ | PolicyError _
  | UnknownAction | ApprovalRequired | JSONDecodeError
  | ResponsesTranslationError _ | MultimodalRequestError _ => true
  | _ => false
  end.

Definition is_OSError (e : exn) : bool :=
  match e with OSError _ | PermissionError _ | TimeoutError _ => true | _ => false end.

(** ** Results: a value or a raised exception *)
Inductive result (A : Type) :=
  | Ok (a : A)
  | Raise (e : exn).
Arguments Ok {A} a.
Arguments Raise {A} e.

#[export] Instance result_ret : MRet result := fun A a => Ok a.
#[export] Instance result_bind : MBind result := fun A B f m =>
  match m with Ok a => f a | Raise e => Raise e end.
#[export] Instance result_fmap : FMap result := fun A B f m =>
  match m with Ok a => Ok (f a) | Raise e => Raise e end.

(** [guard_exn b e]: Python's [if not b: raise e]. *)
Definition guard_exn (b : bool) (e : exn) : result unit :=
  if b then Ok tt else Raise e.

Definition of_option {A} (o : option A) (e : exn) : result A :=
  match o with Some a => Ok a | None => Raise e end.

(** [except m h]: a [try] block whose handler covers every exception that
    [h] maps to a replacement. *)
Definition except {A} (m : result A) (h : exn -> option (result A)) : result A :=
  match m with
  | Ok a => Ok a
  | Raise e => match h e with Some r => r | None => Raise e end
  end.

Fixpoint mapM_result {A B} (f : A -> result B) (l : list A) : result (list B) :=
  match l with
  | [] => Ok []
  | x :: xs =>
      match f x with
      | Raise e => Raise e
      | Ok y => match mapM_result f xs with Raise e => Raise e | Ok ys => Ok (y :: ys) end
      end
  end.

Definition is_ok {A} (m : result A) : bool :=
  match m with Ok _ => true | Raise _ => false end.

Lemma bind_Ok {A B} (m : result A) (f : A -> result B) b :
  (m ≫= f) = Ok b <-> exists a, m = Ok a /\ f a = Ok b.
Proof.
  destruct m as [a|e]; cbn; split.
  - intros H. by exists a.
  - intros (a' & [= <-] & H). exact H.
  - discriminate.
  - intros (a' & H & _). discriminate.
Qed.

Lemma bind_Raise {A B} (m : result A) (f : A -> result B) e :
  (m ≫= f) = Raise e <-> m = Raise e \/ exists a, m = Ok a /\ f a = Raise e.
Proof.
  destruct m as [a|e']; cbn; split.
  - intros H. right. by exists a.
  - intros [H|(a' & [= <-] & H)]; [discriminate|exact H].
  - intros H. left. congruence.
  - intros [H|(a' & H & _)]; congruence.
Qed.

Lemma guard_exn_Ok b e u : guard_exn b e = Ok u <-> b = true.
Proof. destruct b, u; cbn; split; congruence. Qed.

Lemma guard_exn_Raise b e e' : guard_exn b e = Raise e' <-> b = false /\ e = e'.
Proof. destruct b; cbn; split; intros; naive_solver congruence. Qed.

Lemma of_option_Ok {A} (o : option A) e a : of_option o e = Ok a <-> o = Some a.
Proof. destruct o; cbn; split; congruence. Qed.

(** A bind that ends in [Ok]: split it into its parts; and likewise for a
    bind that raises. *)
Ltac inv_ok :=
  repeat match goal with
  | H : (_ ≫= _) = Ok _ |- _ =>
      let a := fresh "a" in let Ha := fresh "Ha" in
      apply bind_Ok in H as (a & Ha & H)
  | H : guard_exn _ _ = Ok _ |- _ => apply guard_exn_Ok in H
  | H : of_option _ _ = Ok _ |- _ => apply of_option_Ok in H
  | H : Ok _ = Ok _ |- _ => injection H; clear H; intros; subst
  | H : Raise _ = Ok _ |- _ => discriminate H
  | H : Ok _ = Raise _ |- _ => discriminate H
  end.

(** Split the boolean guards in the context. *)
Ltac split_bools :=
  repeat match goal with
  | H : (_ && _)%bool = true |- _ => apply andb_true_iff in H as [? ?]
  | H : (_ || _)%bool = false |- _ => apply orb_false_iff in H as [? ?]
  | H : negb _ = true |- _ => apply negb_true_iff in H
  | H : negb _ = false |- _ => apply negb_false_iff in H
  | H : (_ <=? _)%Z = true |- _ => apply Z.leb_le in H
  | H : (_ <=? _)%Z = false |- _ => apply Z.leb_gt in H
  | H : (_ <? _)%Z = true |- _ => apply Z.ltb_lt in H
  | H : (_ <? _)%Z = false |- _ => apply Z.ltb_ge in H
  | H : (_ =? _)%Z = true |- _ => apply Z.eqb_eq in H
  | H : (_ =? _)%Z = false |- _ => apply Z.eqb_neq in H
  end.

Create HintDb dgx discriminated.
Create Rewrite HintDb dgx.
#[export] Hint Resolve andb_true_intro : dgx.

(** ** Lists *)

Definition zlen {A} (l : list A) : Z := Z.of_nat (length l).

Lemma zlen_nil {A} : zlen (@nil A) = 0%Z.
Proof. reflexivity. Qed.
Lemma zlen_cons {A} (x : A) l : zlen (x :: l) = (1 + zlen l)%Z.
Proof. unfold zlen. cbn. lia. Qed.
Lemma zlen_app {A} (l k : list A) : zlen (l ++ k) = (zlen l + zlen k)%Z.
Proof. unfold zlen. rewrite length_app. lia. Qed.
Lemma zlen_nonneg {A} (l : list A) : (0 <= zlen l)%Z.
Proof. unfold zlen. lia. Qed.
#[export] Hint Rewrite @zlen_nil @zlen_cons @zlen_app : dgx.
#[export] Hint Resolve zlen_nonneg : dgx.

Lemma forallb_rev {A} (p : A -> bool) l : forallb p (rev l) = forallb p l.
Proof.
  induction l as [|x l IH]; cbn; [done|]. rewrite forallb_app, IH. cbn. by rewrite andb_true_r, andb_comm.
Qed.

Lemma forallb_app_iff {A} (p : A -> bool) l k :
  forallb p (l ++ k) = true <-> forallb p l = true /\ forallb p k = true.
Proof. by rewrite forallb_app, andb_true_iff. Qed.

Lemma forallb_Forall {A} (p : A -> bool) l :
  forallb p l = true <-> Forall (fun x => p x = true) l.
Proof. by rewrite forallb_forall, List.Forall_forall. Qed.

Lemma mapM_result_Ok {A B} (f : A -> result B) l k :
  mapM_result f l = Ok k <-> Forall2 (fun x y => f x = Ok y) l k.
Proof.
  revert k. induction l as [|x l IH]; intros k; cbn.
  - split; [intros [= <-]; constructor|inversion 1; reflexivity].
  - destruct (f x) as [y|e] eqn:Hx.
    + destruct (mapM_result f l) as [ys|e] eqn:Hl; split.
      * intros [= <-]. constructor; [done|]. by apply IH.
      * intros (y' & ys' & ? & Hys & ->)%Forall2_cons_inv_l.
        apply IH in Hys. congruence.
      * done.
      * intros (y' & ys' & ? & Hys & ->)%Forall2_cons_inv_l.
        apply IH in Hys. congruence.
    + split; [done|]. intros (y' & ys' & ? & _ & _)%Forall2_cons_inv_l. congruence.
Qed.

(** ** Transition sequences *)
Section Star.
Context {A : Type} (R : A -> A -> Prop).

Inductive star : A -> A -> Prop :=
  | star_refl a : star a a
  | star_step a b c : star a b -> R b c -> star a c.

(** Rule induction for an invariant of a transition system. *)
Lemma star_invariant (Inv : A -> Prop) :
  (forall a b, Inv a -> R a b -> Inv b) ->
  forall a b, star a b -> Inv a -> Inv b.
Proof. induction 2; eauto. Qed.

Lemma star_trans a b c : star a b -> star b c -> star a c.
Proof. intros H. induction 1; eauto using star. Qed.
End Star.
