(* ===== verification/PyValue.v ===== *)
(** * Python values

    The fragment of Python's data model that the modelled code handles:
    strings as lists of code points, byte strings as lists of integers,
    dictionaries as association lists in insertion order (which is what
    [dict] guarantees), and the tagged values that JSON decoding produces.
    A value is a finite tree with string keys: everything the code receives
    has been decoded from JSON or built by the code itself. *)
From Stdlib Require Import ZArith Lia Bool String Ascii.
From Stdlib Require Import SpecFloat.
From Stdlib Require Import DecimalFacts DecimalString DecimalZ.
From stdpp Require Import prelude.
From S2P Require Import Prelude.
Open Scope Z_scope.

(** ** Strings *)

Abbreviation pystr := (list Z) (only parsing).
Abbreviation bytes := (list Z) (only parsing).

(** An ASCII literal. *)
Definition str (x : string) : pystr :=
  map (fun a => Z.of_N (N_of_ascii a)) (list_ascii_of_string x).

Fixpoint str_eqb (a b : pystr) : bool :=
  match a, b with
  | [], [] => true
  | x :: a', y :: b' => (x =? y) && str_eqb a' b'
  | _, _ => false
  end.

(** Python's [<=] on strings: lexicographic on code points. *)
Fixpoint str_leb (a b : pystr) : bool :=
  match a, b with
  | [], _ => true
  | _ :: _, [] => false
  | x :: a', y :: b' => (x <? y) || ((x =? y) && str_leb a' b')
  end.

Definition str_in (x : pystr) (l : list pystr) : bool := existsb (str_eqb x) l.

Fixpoint startswith (p s : pystr) : bool :=
  match p, s with
  | [], _ => true
  | x :: p', y :: s' => (x =? y) && startswith p' s'
  | _ :: _, [] => false
  end.

Definition endswith (p s : pystr) : bool := startswith (rev p) (rev s).

(** [str.isspace] on one character (the Unicode white space characters). *)
Definition is_space (c : Z) : bool :=
  ((9 <=? c) && (c <=? 13)) || ((28 <=? c) && (c <=? 32)) || (c =? 133) || (c =? 160)
  || (c =? 5760) || ((8192 <=? c) && (c <=? 8202)) || (c =? 8232) || (c =? 8233)
  || (c =? 8239) || (c =? 8287) || (c =? 12288).

Fixpoint lstrip_with (p : Z -> bool) (s : pystr) : pystr :=
  match s with
  | [] => []
  | c :: r => if p c then lstrip_with p r else s
  end.
Definition rstrip_with (p : Z -> bool) (s : pystr) : pystr := rev (lstrip_with p (rev s)).
Definition strip_with (p : Z -> bool) (s : pystr) : pystr := rstrip_with p (lstrip_with p s).
Definition strip (s : pystr) : pystr := strip_with is_space s.

(** [s.split(sep)] for a one-character separator. *)
Fixpoint split_on (sep : Z) (s : pystr) : list pystr :=
  match s with
  | [] => [[]]
  | c :: r =>
      if c =? sep then [] :: split_on sep r
      else match split_on sep r with
           | [] => [[c]]
           | w :: ws => (c :: w) :: ws
           end
  end.

(** [sep.join(l)] *)
Fixpoint join (sep : pystr) (l : list pystr) : pystr :=
  match l with
  | [] => []
  | [x] => x
  | x :: xs => x ++ sep ++ join sep xs
  end.

(** [str(n)] for an integer. *)
Definition dec (n : Z) : pystr := str (NilZero.string_of_int (Z.to_int n)).

(** The value of a string of decimal digits. *)
Definition digits_value (l : list Z) : Z := fold_left (fun acc c => acc * 10 + (c - 48)) l 0.

Definition is_ascii (s : pystr) : bool := forallb (fun c => (0 <=? c) && (c <? 128)) s.
Definition is_digit (c : Z) : bool := (48 <=? c) && (c <=? 57).
Definition is_lower (c : Z) : bool := (97 <=? c) && (c <=? 122).
Definition is_upper (c : Z) : bool := (65 <=? c) && (c <=? 90).
Definition is_alpha (c : Z) : bool := is_lower c || is_upper c.
Definition is_alnum (c : Z) : bool := is_alpha c || is_digit c.

(** ** Values *)

Inductive pyval :=
  | PNone
  | PBool (b : bool)
  | PInt (n : Z)
  | PFloat (f : spec_float)
  | PStr (s : pystr)
  | PList (l : list pyval)
  | PDict (d : list (pystr * pyval)).

(** Induction with the hypothesis for every element of a container. *)
Lemma pyval_induction (P : pyval -> Prop) :
  P PNone -> (forall b, P (PBool b)) -> (forall n, P (PInt n)) -> (forall f, P (PFloat f)) ->
  (forall s, P (PStr s)) -> (forall l, Forall P l -> P (PList l)) ->
  (forall d, Forall (fun p => P (snd p)) d -> P (PDict d)) -> forall v, P v.
Proof.
  intros HN HB HI HF HS HL HD. fix rec 1. intros [|b|n|f|t|l|d].
  - exact HN.
  - apply HB.
  - apply HI.
  - apply HF.
  - apply HS.
  - apply HL. induction l as [|v l IH]; constructor; [apply rec|exact IH].
  - apply HD. induction d as [|[k w] d IH]; constructor; [apply rec|exact IH].
Qed.

Abbreviation pydict := (list (list Z * pyval)) (only parsing).

(** ** Dictionaries *)
Section Dict.
Context {V : Type}.
Implicit Types d : list (list Z * V).

Fixpoint dict_get (k : pystr) d : option V :=
  match d with
  | [] => None
  | (k', v) :: r => if str_eqb k k' then Some v else dict_get k r
  end.

Definition dict_mem (k : pystr) d : bool :=
  match dict_get k d with Some _ => true | None => false end.

(** [d[k] = v]: an existing key keeps its position. *)
Fixpoint dict_set (k : pystr) (v : V) d : list (list Z * V) :=
  match d with
  | [] => [(k, v)]
  | (k', v') :: r =>
      if str_eqb k k' then (k', v) :: r else (k', v') :: dict_set k v r
  end.

(** [d.pop(k, None)], and [del d[k]] for a key that is there. *)
Fixpoint dict_del (k : pystr) d : list (list Z * V) :=
  match d with
  | [] => []
  | (k', v') :: r => if str_eqb k k' then dict_del k r else (k', v') :: dict_del k r
  end.

Definition dict_update d (e : list (list Z * V)) : list (list Z * V) :=
  fold_left (fun acc '(k, v) => dict_set k v acc) e d.

Definition keys d : list pystr := map fst d.

(** [frozenset(d) == frozenset(expected)] and [frozenset(d) <= allowed]. *)
Definition keys_subset d (allowed : list pystr) : bool :=
  forallb (fun k => str_in k allowed) (keys d).
Definition keys_superset d (required : list pystr) : bool :=
  forallb (fun k => dict_mem k d) required.
Definition keys_equal d (expected : list pystr) : bool :=
  keys_subset d expected && keys_superset d expected.
End Dict.

(** [d.get(k)]: [None] for a missing key. *)
Definition get_or_none (k : pystr) (d : pydict) : pyval :=
  match dict_get k d with Some v => v | None => PNone end.

(** ** Type tests *)

Definition is_none (v : pyval) : bool := match v with PNone => true | _ => false end.
Definition as_str (v : pyval) : option pystr := match v with PStr s => Some s | _ => None end.
Definition as_list (v : pyval) : option (list pyval) :=
  match v with PList l => Some l | _ => None end.
Definition as_dict (v : pyval) : option pydict :=
  match v with PDict d => Some d | _ => None end.
(** [type(v) is int] *)
Definition as_int (v : pyval) : option Z := match v with PInt n => Some n | _ => None end.
(** [isinstance(v, int)]: [bool] is a subclass of [int]. *)
Definition isinstance_int (v : pyval) : option Z :=
  match v with PInt n => Some n | PBool b => Some (Z.b2z b) | _ => None end.
Definition is_bool (v : pyval) : bool := match v with PBool _ => true | _ => false end.

(** [bool(v)] *)
Definition truthy (v : pyval) : bool :=
  match v with
  | PNone => false
  | PBool b => b
  | PInt n => negb (n =? 0)
  | PFloat (S754_zero _) => false
  | PFloat _ => true
  | PStr s => match s with [] => false | _ => true end
  | PList l => match l with [] => false | _ => true end
  | PDict d => match d with [] => false | _ => true end
  end.

(** ** Numbers: [int] and [float] (IEEE 754 binary64) *)

Inductive num :=
  | NInt (n : Z)
  | NFloat (f : spec_float).

Definition float_prec : Z := 53.
Definition float_emax : Z := 1024.

(** [float(n)], correctly rounded *)
Definition float_of_Z (n : Z) : spec_float := binary_normalize float_prec float_emax n 0 false.

(** The value of a finite float as a fraction [n / 2^k], [k >= 0]. *)
Definition float_fraction (f : spec_float) : option (Z * Z) :=
  match f with
  | S754_zero _ => Some (0, 0)
  | S754_finite s m e =>
      let n := if s then Z.neg m else Z.pos m in
      if 0 <=? e then Some (n * 2 ^ e, 0) else Some (n, - e)
  | _ => None
  end.

(** [a < b] between an integer and a float is exact in Python. *)
Definition num_ltb (a b : num) : bool :=
  match a, b with
  | NInt x, NInt y => x <? y
  | NFloat x, NFloat y => SFltb x y
  | NInt x, NFloat y =>
      match float_fraction y with
      | Some (n, k) => x * 2 ^ k <? n
      | None => match y with S754_infinity false => true | _ => false end
      end
  | NFloat x, NInt y =>
      match float_fraction x with
      | Some (n, k) => n <? y * 2 ^ k
      | None => match x with S754_infinity true => true | _ => false end
      end
  end.

(** [min(a, b)] and [max(a, b)]: the first argument unless the second wins. *)
Definition num_min (a b : num) : num := if num_ltb b a then b else a.
Definition num_max (a b : num) : num := if num_ltb a b then b else a.

(** The number that a JSON value is, [bool] included. *)
Definition as_num (v : pyval) : option num :=
  match v with
  | PInt n => Some (NInt n)
  | PBool b => Some (NInt (Z.b2z b))
  | PFloat f => Some (NFloat f)
  | _ => None
  end.

(** ** Lemmas: strings *)

Lemma str_eqb_eq a b : str_eqb a b = true <-> a = b.
Proof.
  revert b. induction a as [|x a IH]; intros [|y b]; cbn; try (split; congruence).
  rewrite andb_true_iff, Z.eqb_eq, IH. split; [intros [-> ->]|intros [= -> ->]]; done.
Qed.

Lemma str_eqb_refl a : str_eqb a a = true.
Proof. by apply str_eqb_eq. Qed.

Lemma str_eqb_neq a b : str_eqb a b = false <-> a <> b.
Proof. rewrite <- str_eqb_eq. by destruct (str_eqb a b). Qed.

Lemma str_eqb_sym a b : str_eqb a b = str_eqb b a.
Proof.
  destruct (str_eqb b a) eqn:E.
  - apply str_eqb_eq in E as ->. apply str_eqb_refl.
  - apply str_eqb_neq. apply str_eqb_neq in E. congruence.
Qed.

Lemma str_eqb_spec a b : reflect (a = b) (str_eqb a b).
Proof. apply iff_reflect. symmetry. apply str_eqb_eq. Qed.

Lemma str_in_In x l : str_in x l = true <-> In x l.
Proof.
  unfold str_in. rewrite existsb_exists. split.
  - intros (y & Hy & E). apply str_eqb_eq in E as ->. done.
  - intros H. exists x. split; [done|]. apply str_eqb_refl.
Qed.

Lemma str_in_false x l : str_in x l = false <-> ~ In x l.
Proof. rewrite <- str_in_In. by destruct (str_in x l). Qed.

Lemma str_leb_refl a : str_leb a a = true.
Proof. induction a as [|x a IH]; cbn; [done|]. rewrite Z.eqb_refl, IH. apply orb_true_r. Qed.

Lemma str_leb_total a b : str_leb a b = true \/ str_leb b a = true.
Proof.
  revert b. induction a as [|x a IH]; intros [|y b]; cbn; auto.
  destruct (Z.ltb_spec x y), (Z.ltb_spec y x); cbn; auto.
  assert (x = y) as -> by lia. rewrite Z.eqb_refl. apply IH.
Qed.

Lemma str_leb_trans a b c : str_leb a b = true -> str_leb b c = true -> str_leb a c = true.
Proof.
  revert b c. induction a as [|x a IH]; intros [|y b] [|z c]; cbn; try done.
  rewrite !orb_true_iff, !andb_true_iff, !Z.ltb_lt, !Z.eqb_eq.
  intros [?|[? Hab]] [?|[? Hbc]]; try (left; lia).
  right. split; [lia|]. by eapply IH.
Qed.

Lemma str_leb_antisym a b : str_leb a b = true -> str_leb b a = true -> a = b.
Proof.
  revert b. induction a as [|x a IH]; intros [|y b]; cbn; try done.
  rewrite !orb_true_iff, !andb_true_iff, !Z.ltb_lt, !Z.eqb_eq.
  intros [?|[-> Hab]] [?|[? Hbc]]; try lia. f_equal. by apply IH.
Qed.

Lemma startswith_app p s : startswith p s = true <-> exists r, s = p ++ r.
Proof.
  revert s. induction p as [|x p IH]; intros s; cbn.
  - split; [by exists s|done].
  - destruct s as [|y s]; [split; [done|by intros (? & ?)]|].
    rewrite andb_true_iff, Z.eqb_eq, IH. split.
    + intros [-> (r & ->)]. by exists r.
    + intros (r & [= -> ->]). eauto.
Qed.

Lemma str_app (a b : string) : str (a ++ b) = str a ++ str b.
Proof.
  unfold str. induction a as [|c a IH]; cbn; [done|]. by rewrite IH.
Qed.

(** ** Lemmas: splitting and joining *)

Lemma split_on_nonempty sep s : split_on sep s <> [].
Proof.
  induction s as [|c s IH]; cbn; [done|].
  destruct (c =? sep); [done|]. by destruct (split_on sep s).
Qed.

Lemma join_cons sep x l : l <> [] -> join sep (x :: l) = x ++ sep ++ join sep l.
Proof. by destruct l. Qed.

Lemma join_split_on sep s : join [sep] (split_on sep s) = s.
Proof.
  induction s as [|c s IH]; [done|]. cbn [split_on].
  destruct (Z.eqb_spec c sep) as [->|Hc].
  - rewrite join_cons by apply split_on_nonempty. cbn. by rewrite IH.
  - destruct (split_on sep s) as [|w ws] eqn:E; [by destruct (split_on_nonempty sep s)|].
    destruct ws as [|w' ws].
    + cbn in IH |- *. by rewrite IH.
    + rewrite join_cons in IH |- * by done. cbn in IH |- *. by rewrite IH.
Qed.

Lemma split_on_no_sep sep s w : In w (split_on sep s) -> ~ In sep w.
Proof.
  revert w. induction s as [|c s IH]; intros w; cbn [split_on].
  - intros [<-|[]] [].
  - destruct (Z.eqb_spec c sep) as [->|Hc].
    + intros [<-|Hw]; [by intros []|by apply IH].
    + destruct (split_on sep s) as [|w0 ws] eqn:E.
      * intros [<-|[]] [H|[]]. congruence.
      * intros [<-|Hw].
        { intros [H|H]; [congruence|]. apply (IH w0); [by left|done]. }
        { apply IH. by right. }
Qed.

Lemma split_on_app_sep sep a b : ~ In sep a -> split_on sep (a ++ sep :: b) = a :: split_on sep b.
Proof.
  induction a as [|c a IH]; intros Ha; cbn.
  - by rewrite Z.eqb_refl.
  - destruct (Z.eqb_spec c sep) as [->|Hc]; [destruct Ha; by left|].
    rewrite IH; [done|]. intros H. apply Ha. by right.
Qed.

Lemma split_on_none sep a : ~ In sep a -> split_on sep a = [a].
Proof.
  induction a as [|c a IH]; intros Ha; cbn; [done|].
  destruct (Z.eqb_spec c sep) as [->|Hc]; [destruct Ha; by left|].
  rewrite IH; [done|]. intros H. apply Ha. by right.
Qed.

(** ** Lemmas: dictionaries *)
Section DictLemmas.
Context {V : Type}.
Implicit Types (d : list (list Z * V)) (k : list Z) (v : V).

Lemma dict_get_set_eq k v d : dict_get k (dict_set k v d) = Some v.
Proof.
  induction d as [|[k' v'] d IH]; cbn; [by rewrite str_eqb_refl|].
  destruct (str_eqb k k') eqn:E; cbn; rewrite E; done.
Qed.

Lemma dict_get_set_ne k k' v d : k <> k' -> dict_get k (dict_set k' v d) = dict_get k d.
Proof.
  intros Hne. induction d as [|[k0 v0] d IH]; cbn.
  - by apply str_eqb_neq in Hne as ->.
  - destruct (str_eqb_spec k' k0) as [->|E]; cbn.
    + by apply str_eqb_neq in Hne as ->.
    + by rewrite IH.
Qed.

Lemma dict_get_set k k' v d :
  dict_get k (dict_set k' v d) = if str_eqb k k' then Some v else dict_get k d.
Proof.
  destruct (str_eqb_spec k k') as [->|H]; [apply dict_get_set_eq|by apply dict_get_set_ne].
Qed.

Lemma dict_get_del_eq k d : dict_get k (dict_del k d) = None.
Proof.
  induction d as [|[k' v'] d IH]; cbn; [done|].
  destruct (str_eqb k k') eqn:E; cbn; [done|by rewrite E].
Qed.

Lemma dict_get_del_ne k k' d : k <> k' -> dict_get k (dict_del k' d) = dict_get k d.
Proof.
  intros Hne. induction d as [|[k0 v0] d IH]; cbn; [done|].
  destruct (str_eqb_spec k' k0) as [->|E]; cbn.
  - by apply str_eqb_neq in Hne as ->.
  - by rewrite IH.
Qed.

Lemma dict_del_filter k d : dict_del k d = filter (fun p => str_eqb k (fst p) = false) d.
Proof.
  induction d as [|[k' v'] d IH]; [done|]. cbn [dict_del]. rewrite filter_cons. cbn.
  destruct (str_eqb k k') eqn:E; case_decide; cbn in *; congruence.
Qed.

Lemma dict_get_In k v d : dict_get k d = Some v -> In (k, v) d.
Proof.
  induction d as [|[k' v'] d IH]; cbn; [done|].
  destruct (str_eqb_spec k k') as [->|]; [intros [= ->]; by left|]. right. auto.
Qed.

Lemma dict_get_keys k d : dict_get k d <> None <-> In k (keys d).
Proof.
  induction d as [|[k' v'] d IH]; cbn; [by split|].
  destruct (str_eqb_spec k k') as [->|Hne].
  - split; [by left|done].
  - rewrite IH. split; [by right|intros [->|]; done].
Qed.

Lemma dict_mem_keys k d : dict_mem k d = true <-> In k (keys d).
Proof. rewrite <- dict_get_keys. unfold dict_mem. by destruct (dict_get k d). Qed.

Lemma dict_get_NoDup k v d : NoDup (keys d) -> In (k, v) d -> dict_get k d = Some v.
Proof.
  induction d as [|[k' v'] d IH]; cbn; [done|].
  intros [Hk Hd]%NoDup_cons [[= -> ->]|H]; [by rewrite str_eqb_refl|].
  destruct (str_eqb_spec k k') as [->|]; [|by apply IH].
  exfalso. apply Hk. apply list_elem_of_In. change k' with (fst (k', v)). by apply in_map.
Qed.

Lemma keys_dict_set k v d :
  keys (dict_set k v d) = if dict_mem k d then keys d else keys d ++ [k].
Proof.
  unfold dict_mem, keys. induction d as [|[k' v'] d IH]; cbn; [done|].
  destruct (str_eqb k k') eqn:E; cbn; [done|]. rewrite IH.
  by destruct (dict_get k d).
Qed.

Lemma NoDup_dict_set k v d : NoDup (keys d) -> NoDup (keys (dict_set k v d)).
Proof.
  intros H. rewrite keys_dict_set. destruct (dict_mem k d) eqn:E; [done|].
  apply NoDup_app. split_and!; [done| |apply NoDup_singleton].
  intros x Hx ->%list_elem_of_singleton. apply list_elem_of_In, dict_mem_keys in Hx. congruence.
Qed.

Lemma keys_dict_del k d : keys (dict_del k d) = filter (fun x => str_eqb k x = false) (keys d).
Proof.
  unfold keys. induction d as [|[k' v'] d IH]; [done|]. cbn [dict_del map fst]. rewrite filter_cons.
  destruct (str_eqb k k') eqn:E; case_decide; cbn in *; congruence.
Qed.

Lemma NoDup_dict_del k d : NoDup (keys d) -> NoDup (keys (dict_del k d)).
Proof. intros H. rewrite keys_dict_del. by apply NoDup_filter. Qed.

Lemma dict_set_absent k v d : dict_get k d = None -> dict_set k v d = d ++ [(k, v)].
Proof.
  induction d as [|[k' v'] d IH]; cbn; [done|].
  destruct (str_eqb k k'); [done|]. intros H. by rewrite IH.
Qed.

Lemma dict_del_absent k d : dict_get k d = None -> dict_del k d = d.
Proof.
  induction d as [|[k' v'] d IH]; cbn; [done|].
  destruct (str_eqb k k'); [done|]. intros H. by rewrite IH.
Qed.

Lemma keys_equal_spec d l :
  keys_equal d l = true <-> (forall k, In k (keys d) <-> In k l).
Proof.
  unfold keys_equal, keys_subset, keys_superset.
  rewrite andb_true_iff, !forallb_forall. split.
  - intros [H1 H2] k. split; intros H.
    + apply str_in_In. by apply H1.
    + apply dict_mem_keys. by apply H2.
  - intros H. split; intros k Hk.
    + apply str_in_In. by apply H.
    + apply dict_mem_keys. by apply H.
Qed.

Lemma keys_equal_get d l k :
  keys_equal d l = true -> In k l -> exists v, dict_get k d = Some v.
Proof.
  intros H Hk. assert (In k (keys d)) as Hin by by apply keys_equal_spec with (k := k) in H; apply H.
  apply dict_get_keys in Hin. destruct (dict_get k d); [eauto|done].
Qed.
End DictLemmas.

#[export] Hint Rewrite @dict_get_set_eq @dict_get_del_eq str_eqb_refl : dgx.
#[export] Hint Resolve str_eqb_refl NoDup_dict_set NoDup_dict_del : dgx.

(** ** Lemmas: decimal numerals *)

Lemma string_of_int_chars (i : Decimal.int) c :
  In c (str (NilZero.string_of_int i)) -> is_digit c = true \/ c = 45.
Proof.
  assert (Hu : forall u c, In c (str (NilEmpty.string_of_uint u)) -> is_digit c = true).
  { clear. intros u c. induction u; cbn; [done|intros [<-|H]; [reflexivity|by apply IHu]..]. }
  assert (Hz : forall u c, In c (str (NilZero.string_of_uint u)) -> is_digit c = true).
  { clear -Hu. intros [] c; try apply Hu. cbn. by intros [<-|[]]. }
  destruct i as [u|u]; cbn; [intros H; left; by apply (Hz u)|].
  intros [<-|H]; [by right|left; by apply (Hz u)].
Qed.

Lemma dec_chars n c : In c (dec n) -> is_digit c = true \/ c = 45.
Proof. apply string_of_int_chars. Qed.

Lemma str_inj (a b : string) : str a = str b -> a = b.
Proof.
  unfold str. revert b. induction a as [|c a IH]; intros [|c' b]; cbn; try done.
  intros [= Hc Hs]. f_equal; [|by apply IH].
  rewrite <- (ascii_N_embedding c), <- (ascii_N_embedding c'). f_equal. lia.
Qed.

Lemma to_int_not_nil n : Z.to_int n <> Decimal.Pos Decimal.Nil /\ Z.to_int n <> Decimal.Neg Decimal.Nil.
Proof.
  split; intros H; pose proof (of_to n) as E; rewrite H in E; cbn in E; subst n; discriminate H.
Qed.

Lemma dec_inj n m : dec n = dec m -> n = m.
Proof.
  intros H%str_inj. apply (f_equal NilZero.int_of_string) in H.
  destruct (to_int_not_nil n), (to_int_not_nil m).
  rewrite !NilZero.isi in H by done. injection H as H.
  rewrite <- (of_to n), <- (of_to m). by rewrite H.
Qed.

(** The numeral of a natural number is a non-empty string of digits. *)
Lemma dec_nonneg n : 0 <= n -> forallb is_digit (dec n) = true /\ dec n <> [].
Proof.
  intros Hn.
  assert (Hu : forall u, forallb is_digit (str (NilEmpty.string_of_uint u)) = true).
  { induction u; cbn; try done. }
  assert (exists u, Z.to_int n = Decimal.Pos u) as (u & Hz).
  { destruct n as [|p|p]; [eexists; reflexivity|eexists; reflexivity|lia]. }
  unfold dec. rewrite Hz. cbn [NilZero.string_of_int].
  destruct u; split; try done; apply (Hu (_ u)).
Qed.

Lemma digits_value_uint u : digits_value (str (NilEmpty.string_of_uint u)) = Z.of_uint u.
Proof.
  assert (Hacc : forall u p, fold_left (fun acc c => acc * 10 + (c - 48))
      (str (NilEmpty.string_of_uint u)) (Z.pos p) = Z.pos (Pos.of_uint_acc u p)).
  { clear. induction u; intros p; [done|..]; unfold str in *;
      cbn [NilEmpty.string_of_uint list_ascii_of_string map fold_left Pos.of_uint_acc];
      rewrite <- IHu; f_equal; cbn [Z.of_N N_of_ascii N_of_digits]; lia. }
  unfold digits_value, Z.of_uint.
  induction u; [done|exact IHu|..]; apply (Hacc u).
Qed.

(** The numeral of a natural number denotes it and has no leading zero. *)
Lemma dec_value n : 0 <= n -> digits_value (dec n) = n /\ (dec n = [48] \/ hd_error (dec n) <> Some 48).
Proof.
  intros Hn. pose proof (of_to n) as Ho. pose proof (to_of (Z.to_int n)) as Ht.
  rewrite Ho in Ht. destruct (to_int_not_nil n) as [Hp _].
  assert (exists u, Z.to_int n = Decimal.Pos u) as (u & Hz).
  { destruct n as [|p|p]; [eexists; reflexivity|eexists; reflexivity|lia]. }
  rewrite Hz in Ho, Ht, Hp. cbn [Decimal.norm] in Ht. injection Ht as Ht.
  unfold dec. rewrite Hz. cbn [NilZero.string_of_int]. split.
  - assert (NilZero.string_of_uint u = NilEmpty.string_of_uint u) as -> by by destruct u.
    by rewrite digits_value_uint.
  - destruct u as [|l|l|l|l|l|l|l|l|l|l]; try (right; discriminate). left.
    unfold Decimal.unorm in Ht. destruct (Decimal.nzhead (Decimal.D0 l)) eqn:E; try discriminate Ht.
    + by injection Ht as ->.
    + by destruct (DecimalFacts.nzhead_nonzero _ _ E).
Qed.

Lemma digits_fold_bound l acc : forallb is_digit l = true -> 0 <= acc ->
  acc * 10 ^ zlen l <= fold_left (fun acc c => acc * 10 + (c - 48)) l acc.
Proof.
  revert acc. induction l as [|c l IH]; intros acc Hd Ha; cbn [fold_left forallb] in *.
  - change (zlen (@nil Z)) with 0. lia.
  - apply andb_true_iff in Hd as [Hc Hl]. unfold is_digit in Hc. split_bools.
    rewrite zlen_cons, Z.pow_add_r by (lia || apply zlen_nonneg).
    specialize (IH (acc * 10 + (c - 48)) Hl ltac:(lia)).
    assert (0 < 10 ^ zlen l) by (apply Z.pow_pos_nonneg; [lia|apply zlen_nonneg]).
    etrans; [|exact IH]. nia.
Qed.

(** A numeral has no more digits than its value needs. *)
Lemma dec_length n k : 0 <= n < 10 ^ k -> 1 <= k -> zlen (dec n) <= k.
Proof.
  intros Hn Hk. destruct (dec_nonneg n ltac:(lia)) as [Hd Hne].
  destruct (dec_value n ltac:(lia)) as [Hv [E|Hh]].
  { rewrite E. unfold zlen. cbn. lia. }
  destruct (Z.le_gt_cases (zlen (dec n)) k) as [|Hgt]; [done|]. exfalso.
  destruct (dec n) as [|c l] eqn:E; [done|]. cbn [forallb] in Hd.
  apply andb_true_iff in Hd as [Hc Hl]. unfold is_digit in Hc. split_bools.
  assert (c <> 48) by (intros ->; by apply Hh).
  unfold digits_value in Hv. cbn [fold_left] in Hv.
  pose proof (digits_fold_bound l (0 * 10 + (c - 48)) Hl ltac:(lia)) as Hb. rewrite Hv in Hb.
  rewrite zlen_cons in Hgt.
  assert (10 ^ k <= 10 ^ zlen l) by (apply Z.pow_le_mono_r; lia).
  assert (0 < 10 ^ zlen l) by (apply Z.pow_pos_nonneg; [lia|apply zlen_nonneg]). nia.
Qed.

Lemma dec_neg n : n < 0 -> dec n = 45 :: dec (- n).
Proof. destruct n as [|p|p]; [lia|lia|]. reflexivity. Qed.

#[global] Arguments str _ : simpl never.
#[global] Arguments dec _ : simpl never.
