(* ===== verification/PosixPath.v ===== *)
(** * POSIX path strings

    [posixpath.normpath] of the standard library, as the approval policy and
    the plan executor use it, and what a path that is its own normal form
    looks like. *)
From Stdlib Require Import ZArith Lia Bool String.
From stdpp Require Import prelude.
From S2P Require Import Prelude PyValue.
Open Scope Z_scope.

Definition SLASH : Z := 47.
Definition DOT : pystr := str ".".
Definition DOTDOT : pystr := str "..".

(** The component loop: [acc] is [new_comps], last component first. *)
Definition normpath_step (initial_slashes : bool) (acc : list pystr) (comp : pystr) : list pystr :=
  if str_eqb comp [] || str_eqb comp DOT then acc
  else if negb (str_eqb comp DOTDOT)
          || (negb initial_slashes && match acc with [] => true | _ => false end)
          || match acc with top :: _ => str_eqb top DOTDOT | [] => false end
       then comp :: acc
       else match acc with [] => [] | _ :: r => r end.

Definition normpath_comps (initial_slashes : bool) (path : pystr) : list pystr :=
  rev (fold_left (normpath_step initial_slashes) (split_on SLASH path) []).

Definition normpath (path : pystr) : pystr :=
  match path with
  | [] => DOT
  | _ =>
      let slashes : nat :=
        if startswith (str "//") path && negb (startswith (str "///") path) then 2%nat
        else if startswith (str "/") path then 1%nat else 0%nat in
      let comps := normpath_comps (negb (Nat.eqb slashes 0)) path in
      let body := repeat SLASH slashes ++ join (str "/") comps in
      match body with [] => DOT | _ => body end
  end.

(** The components after the root of an absolute path: [""] alone for "/". *)
Definition components (path : pystr) : list pystr := tl (split_on SLASH path).

(** A path with no empty, "." or ".." component. *)
Definition clean_component (c : pystr) : Prop := c <> [] /\ c <> DOT /\ c <> DOTDOT.
Definition clean_absolute (path : pystr) : Prop :=
  path = str "/" \/
  (exists r, path = SLASH :: r) /\ Forall clean_component (components path).

(** ** Lemmas *)

Lemma normpath_step_clean acc comp :
  Forall clean_component acc -> Forall clean_component (normpath_step true acc comp).
Proof.
  intros Hacc. unfold normpath_step.
  destruct (str_eqb_spec comp []); [done|]. destruct (str_eqb_spec comp DOT); [done|]. cbn [orb].
  assert (Htop : match acc with top :: _ => str_eqb top DOTDOT | [] => false end = false).
  { destruct acc as [|top acc]; [done|]. apply str_eqb_neq. by inversion Hacc as [|? ? (?&?&?)]. }
  rewrite Htop. destruct (str_eqb_spec comp DOTDOT); cbn [negb andb orb].
  - destruct acc; [constructor|by inversion Hacc].
  - constructor; [done|exact Hacc].
Qed.

Lemma normpath_step_no_slash acc comp b :
  ~ In SLASH comp -> Forall (fun c => ~ In SLASH c) acc ->
  Forall (fun c => ~ In SLASH c) (normpath_step b acc comp).
Proof.
  intros Hc Hacc. unfold normpath_step. destruct (_ || _); [done|].
  destruct (_ || _); [by constructor|]. destruct acc; [done|by inversion Hacc].
Qed.

Lemma normpath_fold_clean l acc :
  Forall clean_component acc /\ Forall (fun c => ~ In SLASH c) acc ->
  Forall (fun c => ~ In SLASH c) l ->
  Forall clean_component (fold_left (normpath_step true) l acc) /\
  Forall (fun c => ~ In SLASH c) (fold_left (normpath_step true) l acc).
Proof.
  revert acc. induction l as [|c l IH]; intros acc [H1 H2] Hs; cbn; [done|].
  inversion Hs; subst. apply IH; [|done].
  split; [by apply normpath_step_clean|by apply normpath_step_no_slash].
Qed.

Lemma normpath_comps_clean path :
  Forall clean_component (normpath_comps true path) /\
  Forall (fun c => ~ In SLASH c) (normpath_comps true path).
Proof.
  unfold normpath_comps.
  destruct (normpath_fold_clean (split_on SLASH path) []) as [H1 H2]; [done| |].
  - apply Forall_forall. intros c Hc. apply split_on_no_sep with (s := path).
    by apply list_elem_of_In.
  - split; by apply Forall_rev.
Qed.

Lemma split_on_join_comps l :
  l <> [] -> Forall (fun c => ~ In SLASH c) l -> split_on SLASH (join (str "/") l) = l.
Proof.
  induction l as [|c l IH]; intros Hne Hl; [done|]. inversion Hl; subst.
  destruct l as [|c' l]; [by apply split_on_none|].
  rewrite join_cons by done. change (str "/") with [SLASH]. cbn [app].
  rewrite split_on_app_sep by done. f_equal. by apply IH.
Qed.

(** A rooted path that is its own normal form is clean. *)
Lemma normpath_fixed_clean path :
  startswith (str "/") path = true -> startswith (str "//") path = false ->
  normpath path = path -> clean_absolute path.
Proof.
  intros H1 H2. destruct path as [|c path]; [discriminate H1|].
  assert (c = SLASH) as ->.
  { apply startswith_app in H1 as (r & [= -> _]). reflexivity. }
  unfold normpath. rewrite H2. cbn [andb].
  change (startswith (str "/") (SLASH :: path)) with true. cbn [Nat.eqb negb repeat app].
  destruct (normpath_comps_clean (SLASH :: path)) as [Hc Hs].
  revert Hc Hs. generalize (normpath_comps true (SLASH :: path)). intros comps Hc Hs Heq.
  change (SLASH :: join (str "/") comps = SLASH :: path) in Heq.
  destruct comps as [|w comps]; [left; by symmetry|right].
  split; [by exists path|]. rewrite <- Heq. unfold components.
  cbn [split_on]. rewrite Z.eqb_refl. cbn [tl].
  by rewrite split_on_join_comps.
Qed.
