(* ===== verification/PyFloat.v ===== *)
(** * Decimal text of floating-point numbers

    [float(text)] and [repr(x)] for IEEE 754 binary64 numbers, as the JSON
    encoder and decoder use them: reading is the correctly rounded value of
    the decimal fraction, and writing is the shortest decimal that reads back
    (the closest one when several are equally short). *)
From Stdlib Require Import ZArith Lia Bool String.
From Stdlib Require Import SpecFloat.
From stdpp Require Import prelude.
From S2P Require Import Prelude PyValue.
Open Scope Z_scope.

Definition float_eqb (a b : spec_float) : bool :=
  match a, b with
  | S754_zero s, S754_zero t | S754_infinity s, S754_infinity t => Bool.eqb s t
  | S754_nan, S754_nan => true
  | S754_finite s m e, S754_finite t n f => Bool.eqb s t && (m =? n)%positive && (e =? f)
  | _, _ => false
  end.

(** [math.isfinite] *)
Definition isfinite (f : spec_float) : bool :=
  match f with S754_zero _ | S754_finite _ _ _ => true | _ => false end.

(** ** Reading *)

(** The binary64 number nearest to [(-1)^neg * m * 10^e]; the two early exits
    are beyond the range of finite and of non-zero numbers. *)
Definition round_decimal (neg : bool) (m e : Z) : spec_float :=
  let magnitude := e + zlen (dec m) in
  if m =? 0 then S754_zero neg
  else if 320 <? magnitude then S754_infinity neg
  else if magnitude <? -340 then S754_zero neg
  else if 0 <=? e
  then binary_normalize float_prec float_emax
         (if neg then - (m * 10 ^ e) else m * 10 ^ e) 0 neg
  else let '(q, f, loc) := SFdiv_core_binary float_prec float_emax m 0 (10 ^ (- e)) 0 in
       binary_round_aux float_prec float_emax neg q f loc.

Fixpoint span (p : Z -> bool) (s : pystr) : pystr * pystr :=
  match s with
  | c :: r => if p c then let '(a, b) := span p r in (c :: a, b) else ([], s)
  | [] => ([], [])
  end.

(** [float(text)] for the texts of JSON's number grammar. *)
Definition parse_float (text : pystr) : spec_float :=
  let '(neg, s) := match text with
                   | c :: r => if c =? 45 then (true, r) else (false, text)
                   | [] => (false, [])
                   end in
  let '(ip, s) := span is_digit s in
  let '(fp, s) := match s with
                  | c :: r => if c =? 46 then span is_digit r else ([], s)
                  | [] => ([], [])
                  end in
  let e := match s with
           | _ :: sign :: r =>
               if sign =? 45 then - digits_value r
               else if sign =? 43 then digits_value r
               else digits_value (sign :: r)
           | _ => 0
           end in
  round_decimal neg (digits_value (ip ++ fp)) (e - zlen fp).

(** ** Writing *)

(** The least [t] from [t0] on with [den <= num * 10^t]. *)
Fixpoint scale_up (fuel : nat) (num den t : Z) : Z :=
  match fuel with
  | O => t
  | S k => if den <=? num * 10 ^ t then t else scale_up k num den (t + 1)
  end.

(** [E] with [10^(E-1) <= num/den < 10^E] *)
Definition decimal_exponent (num den : Z) : Z :=
  if den <=? num then zlen (dec (num / den)) else 1 - scale_up 400 num den 0.

(** The [n]-digit decimal that reads back as [x], if there is one. *)
Definition candidate (x : spec_float) (num den E : Z) (n : Z) : option Z :=
  let scaled_num := if 0 <=? n - E then num * 10 ^ (n - E) else num in
  let scaled_den := if 0 <=? n - E then den else den * 10 ^ (E - n) in
  let lo := scaled_num / scaled_den in
  let hi := lo + 1 in
  let reads c := float_eqb (round_decimal false c (E - n)) x in
  let twice := 2 * (scaled_num - lo * scaled_den) in
  match reads lo, reads hi with
  | true, false => Some lo
  | false, true => Some hi
  | false, false => None
  | true, true =>
      if twice <? scaled_den then Some lo
      else if scaled_den <? twice then Some hi
      else if Z.even lo then Some lo else Some hi
  end.

Fixpoint shortest (fuel : nat) (x : spec_float) (num den E n : Z) : pystr * Z :=
  match candidate x num den E n with
  | Some c => (dec c, E + zlen (dec c) - n)
  | None =>
      match fuel with
      | O => ([], E)
      | S k => shortest k x num den E (n + 1)
      end
  end.

Definition zeros (n : Z) : pystr := repeat 48 (Z.to_nat n).

Definition two_digits (n : Z) : pystr := if n <? 10 then 48 :: dec n else dec n.

(** The layout of [repr]: fixed for exponents -4..15, scientific otherwise. *)
Definition layout (digits : pystr) (decpt : Z) : pystr :=
  let n := zlen digits in
  if (-4 <? decpt) && (decpt <=? 16) then
    if decpt <=? 0 then str "0." ++ zeros (- decpt) ++ digits
    else if n <=? decpt then digits ++ zeros (decpt - n) ++ str ".0"
    else take (Z.to_nat decpt) digits ++ str "." ++ drop (Z.to_nat decpt) digits
  else
    let e := decpt - 1 in
    let mantissa := match digits with
                    | d :: ((_ :: _) as r) => d :: 46 :: r
                    | _ => digits
                    end in
    mantissa ++ (if e <? 0 then str "e-" ++ two_digits (- e) else str "e+" ++ two_digits e).

(** [repr(x)] *)
Definition float_repr (x : spec_float) : pystr :=
  match x with
  | S754_nan => str "nan"
  | S754_infinity s => if s then str "-inf" else str "inf"
  | S754_zero s => if s then str "-0.0" else str "0.0"
  | S754_finite s m e =>
      let abs := S754_finite false m e in
      let num := if 0 <=? e then Z.pos m * 2 ^ e else Z.pos m in
      let den := if 0 <=? e then 1 else 2 ^ (- e) in
      let '(digits, decpt) := shortest 20 abs num den (decimal_exponent num den) 1 in
      let text := layout (rstrip_with (fun c => c =? 48) digits) decpt in
      if s then 45 :: text else text
  end.

Lemma float_eqb_eq a b : float_eqb a b = true <-> a = b.
Proof.
  destruct a as [s|s| |s m e], b as [t|t| |t n f]; cbn; try (split; congruence).
  - rewrite Bool.eqb_true_iff. split; congruence.
  - rewrite Bool.eqb_true_iff. split; congruence.
  - rewrite !andb_true_iff, Bool.eqb_true_iff, Pos.eqb_eq, Z.eqb_eq.
    split; [intros [[-> ->] ->]|intros [= -> -> ->]]; done.
Qed.

Lemma span_app p a b r : span p a = (b, []) -> (forall c, hd_error r = Some c -> p c = false) ->
  span p (a ++ r) = (b, r).
Proof.
  revert b. induction a as [|c a IH]; intros b; cbn.
  - intros [= <-] H. destruct r as [|c r]; [done|]. cbn. by rewrite (H c eq_refl).
  - destruct (p c) eqn:Hc; [|done]. destruct (span p a) as [x y] eqn:E.
    intros [= <- ->] H. by rewrite (IH x).
Qed.

Example float_text_tenth : parse_float (str "0.1") = S754_finite false 7205759403792794 (-56).
Proof. reflexivity. Qed.
Example float_repr_tenth : float_repr (parse_float (str "0.1")) = str "0.1".
Proof. vm_compute. reflexivity. Qed.
Example float_repr_large : float_repr (parse_float (str "1e23")) = str "1e+23".
Proof. vm_compute. reflexivity. Qed.
Example float_repr_small : float_repr (parse_float (str "4.9e-324")) = str "5e-324".
Proof. vm_compute. reflexivity. Qed.
Example float_repr_power : float_repr (parse_float (str "5.684341886080801486968994140625E-14"))
  = str "5.684341886080802e-14".
Proof. vm_compute. reflexivity. Qed.
Example float_repr_negative : float_repr (parse_float (str "-123456.789e3")) = str "-123456789.0".
Proof. vm_compute. reflexivity. Qed.
