(* ===== verification/Utf8.v ===== *)
(** * UTF-8

    Python's [bytes.decode("utf-8")], with the strict and the replacing error
    handlers, and [str.encode("utf-8")].  The decoder reads one character at
    a time; on a malformed sequence it consumes the longest prefix that could
    have started a character, which is what the replacing handler turns into
    one U+FFFD. *)
From Stdlib Require Import ZArith Lia Bool String.
From stdpp Require Import prelude.
From S2P Require Import Prelude PyValue.
Open Scope Z_scope.

Definition between (lo hi c : Z) : bool := (lo <=? c) && (c <=? hi).
Definition continuation (c : Z) : bool := between 128 191 c.

(** The byte after a lead byte: the ranges exclude overlong forms, surrogates
    and code points above U+10FFFF. *)
Definition second_ok (lead c : Z) : bool :=
  if lead =? 224 then between 160 191 c
  else if lead =? 237 then between 128 159 c
  else if lead =? 240 then between 144 191 c
  else if lead =? 244 then between 128 143 c
  else continuation c.

Definition nth_byte (n : nat) (s : bytes) : Z := nth n s (-1).

(** The first character and its length, or the length of a malformed prefix. *)
Definition utf8_step (s : bytes) : option Z * nat :=
  let b0 := nth_byte 0 s in let b1 := nth_byte 1 s in
  let b2 := nth_byte 2 s in let b3 := nth_byte 3 s in
  if between 0 127 b0 then (Some b0, 1%nat)
  else if between 194 223 b0 then
    if continuation b1 then (Some ((b0 - 192) * 64 + (b1 - 128)), 2%nat) else (None, 1%nat)
  else if between 224 239 b0 then
    if negb (second_ok b0 b1) then (None, 1%nat)
    else if negb (continuation b2) then (None, 2%nat)
    else (Some ((b0 - 224) * 4096 + (b1 - 128) * 64 + (b2 - 128)), 3%nat)
  else if between 240 244 b0 then
    if negb (second_ok b0 b1) then (None, 1%nat)
    else if negb (continuation b2) then (None, 2%nat)
    else if negb (continuation b3) then (None, 3%nat)
    else (Some ((b0 - 240) * 262144 + (b1 - 128) * 4096 + (b2 - 128) * 64 + (b3 - 128)), 4%nat)
  else (None, 1%nat).

Fixpoint decode_strict_fuel (fuel : nat) (s : bytes) : option pystr :=
  match s, fuel with
  | [], _ => Some []
  | _, O => None
  | _, S k =>
      match utf8_step s with
      | (Some c, n) =>
          match decode_strict_fuel k (drop n s) with Some r => Some (c :: r) | None => None end
      | (None, _) => None
      end
  end.

(** [s.decode("utf-8")]; [None] is [UnicodeDecodeError]. *)
Definition utf8_decode (s : bytes) : option pystr := decode_strict_fuel (length s) s.

Definition REPLACEMENT : Z := 65533.

Fixpoint decode_replace_fuel (fuel : nat) (s : bytes) : pystr :=
  match s, fuel with
  | [], _ => []
  | _, O => []
  | _, S k =>
      match utf8_step s with
      | (Some c, n) => c :: decode_replace_fuel k (drop n s)
      | (None, n) => REPLACEMENT :: decode_replace_fuel k (drop n s)
      end
  end.

(** [s.decode("utf-8", errors="replace")] *)
Definition utf8_decode_replace (s : bytes) : pystr := decode_replace_fuel (length s) s.

Definition is_surrogate (c : Z) : bool := between 55296 57343 c.
Definition is_code_point (c : Z) : bool := between 0 1114111 c.
Definition is_scalar (c : Z) : bool := is_code_point c && negb (is_surrogate c).

Definition encode_char (c : Z) : bytes :=
  if c <? 128 then [c]
  else if c <? 2048 then [192 + c / 64; 128 + c mod 64]
  else if c <? 65536 then [224 + c / 4096; 128 + c / 64 mod 64; 128 + c mod 64]
  else [240 + c / 262144; 128 + c / 4096 mod 64; 128 + c / 64 mod 64; 128 + c mod 64].

(** [s.encode("utf-8")]; [None] is [UnicodeEncodeError] (a lone surrogate). *)
Definition utf8_encode (s : pystr) : option bytes :=
  if forallb is_scalar s then Some (concat (map encode_char s)) else None.

Definition is_byte (b : Z) : bool := between 0 255 b.

(** ** Lemmas *)

Lemma between_spec lo hi c : between lo hi c = true <-> lo <= c <= hi.
Proof. unfold between. rewrite andb_true_iff, !Z.leb_le. lia. Qed.

Lemma between_reflect lo hi c : reflect (lo <= c <= hi) (between lo hi c).
Proof. apply iff_reflect. symmetry. apply between_spec. Qed.

Ltac byte_cases :=
  repeat (match goal with
  | |- context [between ?a ?b ?c] => destruct (between_reflect a b c); try lia
  | |- context [?a =? ?b] => destruct (Z.eqb_spec a b); try lia
  | |- context [?a <? ?b] => destruct (Z.ltb_spec a b); try lia
  end; cbn [andb orb negb]).

Lemma is_scalar_spec c : is_scalar c = true <-> (0 <= c <= 55295 \/ 57344 <= c <= 1114111).
Proof.
  unfold is_scalar, is_code_point, is_surrogate.
  rewrite andb_true_iff, negb_true_iff, between_spec.
  destruct (between_reflect 55296 57343 c); split; intros; lia || (split; [lia|done]) || (exfalso; lia) || naive_solver lia.
Qed.

(** One encoded character is decoded whatever follows it. *)
Lemma utf8_step_encode c r :
  is_scalar c = true -> utf8_step (encode_char c ++ r) = (Some c, length (encode_char c)).
Proof.
  intros Hc%is_scalar_spec. unfold encode_char.
  destruct (Z.ltb_spec c 128); [|destruct (Z.ltb_spec c 2048); [|destruct (Z.ltb_spec c 65536)]];
    unfold utf8_step, nth_byte; cbn [app nth length].
  - byte_cases. done.
  - assert (0 <= c mod 64 < 64) by (apply Z.mod_pos_bound; lia).
    assert (E : c = 64 * (c / 64) + c mod 64) by (apply Z.div_mod; lia).
    unfold continuation. byte_cases. f_equal. f_equal. lia.
  - assert (0 <= c mod 64 < 64) by (apply Z.mod_pos_bound; lia).
    assert (E : c = 64 * (c / 64) + c mod 64) by (apply Z.div_mod; lia).
    assert (0 <= c / 64 mod 64 < 64) by (apply Z.mod_pos_bound; lia).
    assert (E' : c / 64 = 64 * (c / 64 / 64) + c / 64 mod 64) by (apply Z.div_mod; lia).
    rewrite Z.div_div in E' by lia. change (64 * 64) with 4096 in E'.
    unfold continuation, second_ok, continuation. byte_cases; f_equal; f_equal; lia.
  - assert (0 <= c mod 64 < 64) by (apply Z.mod_pos_bound; lia).
    assert (E : c = 64 * (c / 64) + c mod 64) by (apply Z.div_mod; lia).
    assert (0 <= c / 64 mod 64 < 64) by (apply Z.mod_pos_bound; lia).
    assert (E' : c / 64 = 64 * (c / 64 / 64) + c / 64 mod 64) by (apply Z.div_mod; lia).
    rewrite Z.div_div in E' by lia. change (64 * 64) with 4096 in E'.
    assert (0 <= c / 4096 mod 64 < 64) by (apply Z.mod_pos_bound; lia).
    assert (E'' : c / 4096 = 64 * (c / 4096 / 64) + c / 4096 mod 64) by (apply Z.div_mod; lia).
    rewrite Z.div_div in E'' by lia. change (4096 * 64) with 262144 in E''.
    unfold continuation, second_ok, continuation. byte_cases; f_equal; f_equal; lia.
Qed.

Lemma encode_char_length c : (1 <= length (encode_char c) <= 4)%nat.
Proof. unfold encode_char. repeat (destruct (_ <? _)); cbn; lia. Qed.

Lemma decode_strict_valid k s c n :
  utf8_step s = (Some c, n) ->
  decode_strict_fuel (S k) s
  = match decode_strict_fuel k (drop n s) with Some r => Some (c :: r) | None => None end.
Proof. destruct s; [done|]. cbn [decode_strict_fuel]. by intros ->. Qed.

(** Decoding inverts encoding. *)
Lemma utf8_roundtrip s b : utf8_encode s = Some b -> utf8_decode b = Some s.
Proof.
  unfold utf8_encode. destruct (forallb is_scalar s) eqn:Hs; [|done]. intros [= <-].
  unfold utf8_decode. generalize (le_n (length (concat (map encode_char s)))).
  generalize (length (concat (map encode_char s))) at 2 3 as fuel.
  induction s as [|c s IH]; intros fuel Hf; [by destruct fuel|].
  cbn [forallb] in Hs. apply andb_true_iff in Hs as [Hc Hs].
  cbn [map concat] in *. pose proof (encode_char_length c) as Hl.
  rewrite length_app in Hf. destruct fuel as [|k]; [lia|].
  erewrite decode_strict_valid by by apply utf8_step_encode.
  rewrite drop_app_length, IH by (done || lia). done.
Qed.

Lemma utf8_decode_ascii s : is_ascii s = true -> utf8_decode s = Some s.
Proof.
  intros Hs. apply utf8_roundtrip. unfold utf8_encode.
  assert (Hc : forall c, In c s -> 0 <= c < 128).
  { unfold is_ascii in Hs. rewrite forallb_forall in Hs. intros c H%Hs. split_bools. lia. }
  clear Hs. assert (forallb is_scalar s = true) as ->.
  { apply forallb_forall. intros c H%Hc. apply is_scalar_spec. lia. }
  f_equal. induction s as [|c s IH]; [done|]. cbn [map concat].
  rewrite IH by (intros; apply Hc; by right).
  assert (c <? 128 = true) as E by (apply Z.ltb_lt; apply Hc; by left).
  unfold encode_char. by rewrite E.
Qed.

Example utf8_decode_replace_partial :
  utf8_decode_replace [226; 130; 65; 195; 169; 240; 159] = [65533; 65; 233; 65533].
Proof. reflexivity. Qed.
