(* ===== verification/Sha256.v ===== *)
(** * HMAC-SHA-256

    [hashlib.sha256] and [hmac.new(key, data, hashlib.sha256).hexdigest()],
    computed as FIPS 180-4 and RFC 2104 specify them, on byte strings. *)
From Stdlib Require Import ZArith Lia Bool String.
From stdpp Require Import prelude.
From S2P Require Import Prelude PyValue.
Open Scope Z_scope.

(** ** 32-bit words *)

Definition W32 : Z := 4294967296.
Definition add32 (a b : Z) : Z := (a + b) mod W32.
Definition rotr (n x : Z) : Z := Z.lor (Z.shiftr x n) (Z.shiftl x (32 - n) mod W32).
Definition not32 (x : Z) : Z := W32 - 1 - x.

Definition ch (x y z : Z) : Z := Z.lxor (Z.land x y) (Z.land (not32 x) z).
Definition maj (x y z : Z) : Z := Z.lxor (Z.lxor (Z.land x y) (Z.land x z)) (Z.land y z).
Definition big_sigma0 (x : Z) : Z := Z.lxor (Z.lxor (rotr 2 x) (rotr 13 x)) (rotr 22 x).
Definition big_sigma1 (x : Z) : Z := Z.lxor (Z.lxor (rotr 6 x) (rotr 11 x)) (rotr 25 x).
Definition small_sigma0 (x : Z) : Z := Z.lxor (Z.lxor (rotr 7 x) (rotr 18 x)) (Z.shiftr x 3).
Definition small_sigma1 (x : Z) : Z := Z.lxor (Z.lxor (rotr 17 x) (rotr 19 x)) (Z.shiftr x 10).

Definition round_constants : list Z := [
   1116352408; 1899447441; 3049323471; 3921009573; 961987163; 1508970993;
   2453635748; 2870763221; 3624381080; 310598401; 607225278; 1426881987;
   1925078388; 2162078206; 2614888103; 3248222580; 3835390401; 4022224774;
   264347078; 604807628; 770255983; 1249150122; 1555081692; 1996064986;
   2554220882; 2821834349; 2952996808; 3210313671; 3336571891; 3584528711;
   113926993; 338241895; 666307205; 773529912; 1294757372; 1396182291;
   1695183700; 1986661051; 2177026350; 2456956037; 2730485921; 2820302411;
   3259730800; 3345764771; 3516065817; 3600352804; 4094571909; 275423344;
   430227734; 506948616; 659060556; 883997877; 958139571; 1322822218;
   1537002063; 1747873779; 1955562222; 2024104815; 2227730452; 2361852424;
   2428436474; 2756734187; 3204031479; 3329325298].

Definition initial_hash : list Z := [
   1779033703; 3144134277; 1013904242; 2773480762; 1359893119; 2600822924;
   528734635; 1541459225].

(** ** Bytes and words *)

(** The [n] big-endian bytes of [x]. *)
Fixpoint be_bytes (n : nat) (x : Z) : bytes :=
  match n with
  | O => []
  | S k => Z.shiftr x (8 * Z.of_nat k) mod 256 :: be_bytes k x
  end.

(** The big-endian value of a byte string. *)
Definition be_value (s : bytes) : Z := fold_left (fun acc b => acc * 256 + b) s 0.

(** The message schedule, newest word first. *)
Definition schedule_step (w : list Z) : list Z :=
  add32 (add32 (small_sigma1 (nth 1 w 0)) (nth 6 w 0))
    (add32 (small_sigma0 (nth 14 w 0)) (nth 15 w 0)) :: w.

Fixpoint words (n : nat) (s : bytes) : list Z :=
  match n with
  | O => []
  | S k => be_value (take 4 s) :: words k (drop 4 s)
  end.

Definition schedule (block : bytes) : list Z :=
  rev (Nat.iter 48 schedule_step (rev (words 16 block))).

Definition round (st : list Z) (kw : Z * Z) : list Z :=
  match st with
  | [a; b; c; d; e; f; g; h] =>
      let t1 := add32 (add32 h (big_sigma1 e)) (add32 (ch e f g) (add32 (fst kw) (snd kw))) in
      let t2 := add32 (big_sigma0 a) (maj a b c) in
      [add32 t1 t2; a; b; c; add32 d t1; e; f; g]
  | _ => st
  end.

Definition compress (h : list Z) (block : bytes) : list Z :=
  zip_with add32 h (fold_left round (zip round_constants (schedule block)) h).

Definition padding (n : Z) : bytes :=
  128 :: repeat 0 (Z.to_nat ((55 - n) mod 64)) ++ be_bytes 8 (8 * n).

Fixpoint blocks (fuel : nat) (s : bytes) (h : list Z) : list Z :=
  match fuel with
  | O => h
  | S k => blocks k (drop 64 s) (compress h (take 64 s))
  end.

Definition sha256 (s : bytes) : bytes :=
  let padded := s ++ padding (zlen s) in
  concat (map (be_bytes 4) (blocks (Z.to_nat (zlen padded / 64)) padded initial_hash)).

(** ** HMAC *)

Definition hmac_sha256 (key s : bytes) : bytes :=
  let key := if 64 <? zlen key then sha256 key else key in
  let key := key ++ repeat 0 (64 - length key) in
  sha256 (map (Z.lxor 92) key ++ sha256 (map (Z.lxor 54) key ++ s)).

Definition hex_digit (n : Z) : Z := if n <? 10 then 48 + n else 87 + n.
Definition hex (s : bytes) : pystr := concat (map (fun b => [hex_digit (b / 16); hex_digit (b mod 16)]) s).

(** [hmac.new(key, s, hashlib.sha256).hexdigest()] *)
Definition hmac_hexdigest (key s : bytes) : pystr := hex (hmac_sha256 key s).

(** ** Lemmas *)

Lemma be_bytes_length n x : length (be_bytes n x) = n.
Proof. induction n; cbn; auto. Qed.

Lemma be_bytes_range n x : Forall (fun b => 0 <= b < 256) (be_bytes n x).
Proof. induction n; cbn; constructor; [apply Z.mod_pos_bound; lia|done]. Qed.

Lemma round_length st kw : length st = 8%nat -> length (round st kw) = 8%nat.
Proof. by do 9 (destruct st as [|? st]; try done). Qed.

Lemma compress_length h block : length h = 8%nat -> length (compress h block) = 8%nat.
Proof.
  intros Hh. unfold compress. rewrite length_zip_with.
  assert (forall l st, length st = 8%nat -> length (fold_left round l st) = 8%nat) as ->; [|lia|done].
  clear. induction l; intros st H; cbn; auto using round_length.
Qed.

Lemma blocks_length fuel s h : length h = 8%nat -> length (blocks fuel s h) = 8%nat.
Proof. revert s h. induction fuel; cbn; auto using compress_length. Qed.

Lemma sha256_shape s : length (sha256 s) = 32%nat /\ Forall (fun b => 0 <= b < 256) (sha256 s).
Proof.
  unfold sha256. match goal with |- context [blocks ?f ?s ?h] =>
    assert (H : length (blocks f s h) = 8%nat) by by apply blocks_length end.
  revert H. generalize (blocks (Z.to_nat (zlen (s ++ padding (zlen s)) / 64)) (s ++ padding (zlen s)) initial_hash).
  intros l Hl. split.
  - do 9 (destruct l as [|? l]; try done).
  - clear Hl. induction l as [|x l IH]; cbn [map concat]; [constructor|].
    apply Forall_app. split; [apply be_bytes_range|done].
Qed.

Definition is_lower_hex (c : Z) : bool := is_digit c || ((97 <=? c) && (c <=? 102)).

Lemma hex_digit_lower n : 0 <= n < 16 -> is_lower_hex (hex_digit n) = true.
Proof.
  intros H. unfold is_lower_hex, hex_digit, is_digit.
  destruct (Z.ltb_spec n 10); apply orb_true_iff; [left|right];
    apply andb_true_iff; split; apply Z.leb_le; lia.
Qed.

Lemma hex_shape s : Forall (fun b => 0 <= b < 256) s ->
  length (hex s) = (2 * length s)%nat /\ forallb is_lower_hex (hex s) = true.
Proof.
  unfold hex. induction 1 as [|b s Hb Hs [IH1 IH2]]; [done|]. cbn [map concat].
  split; [rewrite length_app, IH1; cbn; lia|].
  apply forallb_app_iff. split; [|done]. cbn [forallb].
  rewrite !hex_digit_lower; [done| |].
  - apply Z.mod_pos_bound. lia.
  - split; [apply Z.div_pos; lia|apply Z.div_lt_upper_bound; lia].
Qed.

(** A digest is 64 lower-case hexadecimal digits. *)
Lemma hmac_hexdigest_shape key s :
  length (hmac_hexdigest key s) = 64%nat /\ forallb is_lower_hex (hmac_hexdigest key s) = true.
Proof.
  unfold hmac_hexdigest, hmac_sha256.
  match goal with |- context [hex (sha256 ?x)] => destruct (sha256_shape x) as [Hl Hr] end.
  apply hex_shape in Hr as [H1 H2]. rewrite H1, Hl. done.
Qed.

Example sha256_abc : hex (sha256 (str "abc"))
  = str "ba7816bf8f01cfea414140de5dae2223b00361a396177a9cb410ff61f20015ad".
Proof. vm_compute. reflexivity. Qed.
Example hmac_fox : hmac_hexdigest (str "keykeykeykeykeykeykeykeykeykeykeykey") (str "The quick brown fox")
  = str "8f1e65a46e9f19c716372ca175e1d895dea39765e9da6460a1c132ff69e027ff".
Proof. vm_compute. reflexivity. Qed.
Example hmac_long_key : hmac_hexdigest (repeat 107 80) []
  = str "c5705ea69e0d95c858492c429618ada636d77e1ea583a2c641baadb78f5767c3".
Proof. vm_compute. reflexivity. Qed.

#[global] Opaque hmac_hexdigest.
