(* ===== verification/Json.v ===== *)
(** * JSON text

    Python's [json.dumps] and [json.loads], as far as the code uses them: the
    encoder's options ([separators], [ensure_ascii], [sort_keys],
    [allow_nan]), the decoder's hooks ([parse_float], [parse_constant],
    [object_pairs_hook]), the strict string syntax, surrogate pairs, and the
    limit of 4300 digits on conversions between integers and text. *)
From Stdlib Require Import ZArith Lia Bool String.
From Stdlib Require Import SpecFloat.
From stdpp Require Import prelude.
From S2P Require Import Prelude PyValue PyFloat Utf8 Sha256.
Open Scope Z_scope.

Definition MAX_STR_DIGITS : Z := 4300.

(** ** Encoding *)

Record dump_style := {
  item_separator : pystr;
  key_separator : pystr;
  ensure_ascii : bool;
  sort_keys : bool;
  allow_nan : bool;
}.

(** The compact style of the wire protocol and the default style. *)
Definition compact (sorted : bool) : dump_style :=
  {| item_separator := str ","; key_separator := str ":"; ensure_ascii := true;
     sort_keys := sorted; allow_nan := false |}.
Definition default_style (ascii : bool) : dump_style :=
  {| item_separator := str ", "; key_separator := str ": "; ensure_ascii := ascii;
     sort_keys := false; allow_nan := true |}.

Definition hex4_text (u : Z) : pystr :=
  [hex_digit (u / 4096 mod 16); hex_digit (u / 256 mod 16); hex_digit (u / 16 mod 16);
   hex_digit (u mod 16)].

Definition u_escape (u : Z) : pystr := 92 :: 117 :: hex4_text u.

(** The two-character escapes: the letter after the backslash. *)
Definition short_escape (c : Z) : option Z :=
  if c =? 34 then Some 34
  else if c =? 92 then Some 92
  else if c =? 10 then Some 110
  else if c =? 13 then Some 114
  else if c =? 9 then Some 116
  else if c =? 12 then Some 102
  else if c =? 8 then Some 98
  else None.

Definition escape_char (ascii : bool) (c : Z) : pystr :=
  match short_escape c with
  | Some l => [92; l]
  | None =>
      if (32 <=? c) && (c <? 127) then [c]
      else if (127 <=? c) && negb ascii then [c]
      else if c <? 65536 then u_escape c
      else u_escape (55296 + (c - 65536) / 1024) ++ u_escape (56320 + (c - 65536) mod 1024)
  end.

Definition quote (ascii : bool) (s : pystr) : pystr :=
  34 :: concat (map (escape_char ascii) s) ++ [34].

Fixpoint insert_item {V} (x : pystr * V) (l : list (pystr * V)) : list (pystr * V) :=
  match l with
  | [] => [x]
  | y :: r => if str_leb (fst x) (fst y) then x :: l else y :: insert_item x r
  end.

(** [sorted(d.items())]: the keys of a dictionary are distinct, so the values
    are never compared. *)
Definition sort_items {V} (l : list (pystr * V)) : list (pystr * V) :=
  fold_right insert_item [] l.

Fixpoint sort_value (v : pyval) : pyval :=
  match v with
  | PList l => PList (map sort_value l)
  | PDict d => PDict (sort_items (map (fun p => (fst p, sort_value (snd p))) d))
  | _ => v
  end.

Section Text.
Context (style : dump_style).

Fixpoint value_text (v : pyval) : pystr :=
  match v with
  | PNone => str "null"
  | PBool b => if b then str "true" else str "false"
  | PInt n => dec n
  | PFloat f =>
      match f with
      | S754_nan => str "NaN"
      | S754_infinity s => if s then str "-Infinity" else str "Infinity"
      | _ => float_repr f
      end
  | PStr s => quote (ensure_ascii style) s
  | PList l => 91 :: join (item_separator style) (map value_text l) ++ [93]
  | PDict d =>
      123 :: join (item_separator style)
               (map (fun p => quote (ensure_ascii style) (fst p) ++ key_separator style
                              ++ value_text (snd p)) d) ++ [125]
  end.

(** The encoder raises [ValueError] on a non-finite float when [allow_nan] is
    off, and on an integer with more than 4300 digits. *)
Fixpoint encodable (v : pyval) : bool :=
  match v with
  | PInt n => zlen (dec (Z.abs n)) <=? MAX_STR_DIGITS
  | PFloat f => isfinite f || allow_nan style
  | PList l => forallb encodable l
  | PDict d => forallb (fun p => encodable (snd p)) d
  | _ => true
  end.

Definition dumps (v : pyval) : result pystr :=
  if encodable v then Ok (value_text (if sort_keys style then sort_value v else v))
  else Raise (ValueError (str "not JSON serializable")).
End Text.

(** ** Decoding *)

Definition hex_value (c : Z) : option Z :=
  if is_digit c then Some (c - 48)
  else if (97 <=? c) && (c <=? 102) then Some (c - 87)
  else if (65 <=? c) && (c <=? 70) then Some (c - 55)
  else None.

Definition hex4_value (a b c d : Z) : option Z :=
  x ← hex_value a; y ← hex_value b; z ← hex_value c; w ← hex_value d;
  Some (x * 4096 + y * 256 + z * 16 + w).

Definition unescape (l : Z) : option Z :=
  if l =? 34 then Some 34
  else if l =? 92 then Some 92
  else if l =? 47 then Some 47
  else if l =? 98 then Some 8
  else if l =? 102 then Some 12
  else if l =? 110 then Some 10
  else if l =? 114 then Some 13
  else if l =? 116 then Some 9
  else None.

(** The code units of a string after its opening quote, each with whether a
    [\u] escape wrote it, and the text after the closing quote. *)
Fixpoint scan_units (s : pystr) : option (list (bool * Z) * pystr) :=
  match s with
  | [] => None
  | c :: r =>
      if c =? 34 then Some ([], r)
      else if c =? 92 then
        match r with
        | [] => None
        | e :: r1 =>
            if e =? 117 then
              match r1 with
              | x1 :: x2 :: x3 :: x4 :: r2 =>
                  match hex4_value x1 x2 x3 x4, scan_units r2 with
                  | Some u, Some (us, t) => Some ((true, u) :: us, t)
                  | _, _ => None
                  end
              | _ => None
              end
            else match unescape e, scan_units r1 with
                 | Some u, Some (us, t) => Some ((false, u) :: us, t)
                 | _, _ => None
                 end
        end
      else if c <? 32 then None
      else match scan_units r with
           | Some (us, t) => Some ((false, c) :: us, t)
           | None => None
           end
  end.

Definition is_high (u : Z) : bool := between 55296 56319 u.
Definition is_low (u : Z) : bool := between 56320 57343 u.

(** Two consecutive escapes that form a surrogate pair are one character. *)
Fixpoint join_units (l : list (bool * Z)) : pystr :=
  match l with
  | [] => []
  | (e1, h) :: r =>
      match r with
      | (e2, w) :: r' =>
          if e1 && e2 && is_high h && is_low w
          then 65536 + (h - 55296) * 1024 + (w - 56320) :: join_units r'
          else h :: join_units r
      | [] => [h]
      end
  end.

Definition scan_string (s : pystr) : option (pystr * pystr) :=
  '(us, r) ← scan_units s; Some (join_units us, r).

Fixpoint skip_ws (s : pystr) : pystr :=
  match s with
  | c :: r => if (c =? 32) || (c =? 9) || (c =? 10) || (c =? 13) then skip_ws r else s
  | [] => []
  end.

Definition eat (c : Z) (s : pystr) : option pystr :=
  match s with x :: r => if x =? c then Some r else None | [] => None end.

(** An optional character of a set. *)
Definition optional (p : Z -> bool) (s : pystr) : pystr * pystr :=
  match s with
  | c :: r => if p c then ([c], r) else ([], s)
  | [] => ([], [])
  end.

Definition match_fraction (s : pystr) : pystr * pystr :=
  match s with
  | c :: r =>
      if c =? 46 then
        match span is_digit r with
        | ([], _) => ([], s)
        | (ds, r') => (46 :: ds, r')
        end
      else ([], s)
  | [] => ([], [])
  end.

Definition match_exponent (s : pystr) : pystr * pystr :=
  match s with
  | c :: r =>
      if (c =? 101) || (c =? 69) then
        let '(sg, r1) := optional (fun x => (x =? 43) || (x =? 45)) r in
        match span is_digit r1 with
        | ([], _) => ([], s)
        | (ds, r2) => (c :: sg ++ ds, r2)
        end
      else ([], s)
  | [] => ([], [])
  end.

(** "0", or a digit from 1 to 9 and the digits that follow. *)
Definition match_integer (s : pystr) : option (pystr * pystr) :=
  match s with
  | c :: r => if c =? 48 then Some ([48], r)
              else if is_digit c then Some (span is_digit s) else None
  | [] => None
  end.

(** The number at the head of the text: its sign, its digits, and its
    fraction and exponent. *)
Definition match_number (s : pystr) : option (pystr * pystr * pystr * pystr) :=
  let '(sg, s1) := optional (fun x => x =? 45) s in
  '(ip, s2) ← match_integer s1;
  let '(fp, s3) := match_fraction s2 in
  let '(ep, s4) := match_exponent s3 in
  Some (sg, ip, fp ++ ep, s4).

Record load_hooks := {
  parse_constant : pystr -> option pyval;
  parse_number : pystr -> option pyval;
  object_pairs_hook : list (pystr * pyval) -> option pyval;
}.

Section Scan.
Context (hooks : load_hooks).

Definition scan_number (s : pystr) : option (pyval * pystr) :=
  '(sg, ip, tail, r) ← match_number s;
  match tail with
  | [] =>
      if zlen ip <=? MAX_STR_DIGITS then
        Some (PInt (match sg with [] => digits_value ip | _ => - digits_value ip end), r)
      else None
  | _ => v ← parse_number hooks (sg ++ ip ++ tail); Some (v, r)
  end.

Definition scan_literal (s : pystr) : option (pyval * pystr) :=
  if startswith (str "null") s then Some (PNone, drop 4 s)
  else if startswith (str "true") s then Some (PBool true, drop 4 s)
  else if startswith (str "false") s then Some (PBool false, drop 5 s)
  else if startswith (str "NaN") s then v ← parse_constant hooks (str "NaN"); Some (v, drop 3 s)
  else if startswith (str "Infinity") s
       then v ← parse_constant hooks (str "Infinity"); Some (v, drop 8 s)
  else if startswith (str "-Infinity") s
       then v ← parse_constant hooks (str "-Infinity"); Some (v, drop 9 s)
  else scan_number s.

Fixpoint scan_value (fuel : nat) (s : pystr) : option (pyval * pystr) :=
  match fuel, s with
  | S k, c :: r =>
      if c =? 34 then '(t, r') ← scan_string r; Some (PStr t, r')
      else if c =? 123 then
        let r := skip_ws r in
        match eat 125 r with
        | Some r' => v ← object_pairs_hook hooks []; Some (v, r')
        | None => '(ps, r') ← scan_members k r; v ← object_pairs_hook hooks ps; Some (v, r')
        end
      else if c =? 91 then
        let r := skip_ws r in
        match eat 93 r with
        | Some r' => Some (PList [], r')
        | None => '(vs, r') ← scan_elements k r; Some (PList vs, r')
        end
      else scan_literal s
  | _, _ => None
  end
with scan_elements (fuel : nat) (s : pystr) : option (list pyval * pystr) :=
  match fuel with
  | O => None
  | S k =>
      '(v, r) ← scan_value k s;
      let r := skip_ws r in
      match eat 93 r with
      | Some r' => Some ([v], r')
      | None =>
          r' ← eat 44 r;
          '(vs, r'') ← scan_elements k (skip_ws r');
          Some (v :: vs, r'')
      end
  end
with scan_members (fuel : nat) (s : pystr) : option (list (pystr * pyval) * pystr) :=
  match fuel with
  | O => None
  | S k =>
      r ← eat 34 s;
      '(key, r) ← scan_string r;
      r ← eat 58 (skip_ws r);
      '(v, r) ← scan_value k (skip_ws r);
      let r := skip_ws r in
      match eat 125 r with
      | Some r' => Some ([(key, v)], r')
      | None =>
          r' ← eat 44 r;
          '(ps, r'') ← scan_members k (skip_ws r');
          Some ((key, v) :: ps, r'')
      end
  end.

(** Enough fuel for any nesting that a text of this length can hold. *)
Definition scan_fuel (s : pystr) : nat := 2 * length s + 2.

(** [json.loads(s, ...)]; [None] is [ValueError]. *)
Definition loads (s : pystr) : option pyval :=
  if startswith [65279] s then None
  else
    let s := skip_ws s in
    '(v, r) ← scan_value (scan_fuel s) s;
    match skip_ws r with [] => Some v | _ => None end.
End Scan.

(** [dict(pairs)] *)
Definition dict_of_pairs {V} (ps : list (pystr * V)) : list (pystr * V) := dict_update [] ps.

(** [json.loads(s)] without hooks *)
Definition default_hooks : load_hooks :=
  {| parse_constant := fun t =>
       Some (PFloat (if str_eqb t (str "NaN") then S754_nan
                     else S754_infinity (str_eqb t (str "-Infinity"))));
     parse_number := fun t => Some (PFloat (parse_float t));
     object_pairs_hook := fun ps => Some (PDict (dict_of_pairs ps)) |}.

(** ** Which values survive a round trip

    A string must not hold an unpaired high surrogate directly followed by a
    low one (text decoded from UTF-8 or from JSON never does), an integer must
    have at most 4300 digits, a float must be finite and its decimal text must
    read back, and keys must be distinct. *)
Fixpoint no_split_pair (s : pystr) : bool :=
  match s with
  | c :: r => match r with d :: _ => negb (is_high c && is_low d) | [] => true end && no_split_pair r
  | [] => true
  end.

Definition text_ok (s : pystr) : bool := forallb is_code_point s && no_split_pair s.

Definition float_reads_back (f : spec_float) : bool :=
  isfinite f &&
  match match_number (float_repr f) with
  | Some (sg, ip, (_ :: _) as tail, []) =>
      str_eqb (sg ++ ip ++ tail) (float_repr f) && float_eqb (parse_float (float_repr f)) f
  | _ => false
  end.

Fixpoint distinct (l : list pystr) : bool :=
  match l with [] => true | k :: r => negb (str_in k r) && distinct r end.

Fixpoint json_value_ok (v : pyval) : bool :=
  match v with
  | PInt n => zlen (dec (Z.abs n)) <=? MAX_STR_DIGITS
  | PFloat f => float_reads_back f
  | PStr s => text_ok s
  | PList l => forallb json_value_ok l
  | PDict d => forallb (fun p => text_ok (fst p) && json_value_ok (snd p)) d && distinct (keys d)
  | _ => true
  end.

(** Hooks under which decoding rebuilds what was encoded. *)
Record rebuilding (hooks : load_hooks) : Prop := {
  rebuild_pairs : forall d, NoDup (keys d) -> object_pairs_hook hooks d = Some (PDict d);
  rebuild_float : forall f, float_reads_back f = true ->
    parse_number hooks (float_repr f) = Some (PFloat f);
}.

(** ** Lemmas: strings *)

Lemma hex_value_digit n : 0 <= n < 16 -> hex_value (hex_digit n) = Some n.
Proof.
  intros H. unfold hex_value, hex_digit, is_digit. destruct (Z.ltb_spec n 10).
  - replace ((48 <=? 48 + n) && (48 + n <=? 57)) with true
      by (symmetry; apply andb_true_iff; split; apply Z.leb_le; lia). f_equal. lia.
  - replace ((48 <=? 87 + n) && (87 + n <=? 57)) with false
      by (symmetry; apply andb_false_iff; right; apply Z.leb_gt; lia).
    replace ((97 <=? 87 + n) && (87 + n <=? 102)) with true
      by (symmetry; apply andb_true_iff; split; apply Z.leb_le; lia). f_equal. lia.
Qed.

Lemma hex4_roundtrip u : 0 <= u < 65536 ->
  hex4_value (hex_digit (u / 4096 mod 16)) (hex_digit (u / 256 mod 16))
    (hex_digit (u / 16 mod 16)) (hex_digit (u mod 16)) = Some u.
Proof.
  intros H. unfold hex4_value.
  rewrite !hex_value_digit by (apply Z.mod_pos_bound; lia). cbn [mbind option_bind]. f_equal.
  rewrite (Z.mod_small (u / 4096)) by (split; [apply Z.div_pos; lia|apply Z.div_lt_upper_bound; lia]).
  pose proof (Z.div_mod u 16 ltac:(lia)). pose proof (Z.div_mod (u / 16) 16 ltac:(lia)).
  pose proof (Z.div_mod (u / 16 / 16) 16 ltac:(lia)).
  rewrite !Z.div_div in * by lia. change (16 * 16) with 256 in *. change (16 * 256) with 4096 in *.
  change (256 * 16) with 4096 in *. lia.
Qed.

(** The code units that [escape_char] writes. *)
Definition char_units (ascii : bool) (c : Z) : list (bool * Z) :=
  match short_escape c with
  | Some _ => [(false, c)]
  | None =>
      if (32 <=? c) && (c <? 127) then [(false, c)]
      else if (127 <=? c) && negb ascii then [(false, c)]
      else if c <? 65536 then [(true, c)]
      else [(true, 55296 + (c - 65536) / 1024); (true, 56320 + (c - 65536) mod 1024)]
  end.

Lemma scan_units_short l c r us t :
  (l =? 117) = false -> unescape l = Some c -> scan_units r = Some (us, t) ->
  scan_units (92 :: l :: r) = Some ((false, c) :: us, t).
Proof. intros Hl Hc Hr. cbn. rewrite Hl, Hc. cbn in Hr. by rewrite Hr. Qed.

Lemma scan_units_hex u r us t : 0 <= u < 65536 ->
  scan_units r = Some (us, t) -> scan_units (u_escape u ++ r) = Some ((true, u) :: us, t).
Proof. intros Hu Hr. unfold u_escape, hex4_text. cbn. by rewrite hex4_roundtrip, Hr by done. Qed.

Lemma scan_units_raw c r us t : c <> 34 -> c <> 92 -> 32 <= c ->
  scan_units r = Some (us, t) -> scan_units (c :: r) = Some ((false, c) :: us, t).
Proof.
  intros H1 H2 H3 Hr. cbn. rewrite (proj2 (Z.eqb_neq c 34)), (proj2 (Z.eqb_neq c 92)) by done.
  rewrite (proj2 (Z.ltb_ge c 32)) by done. by rewrite Hr.
Qed.

Lemma short_escape_inv c : match short_escape c with
  | Some l => (l =? 117) = false /\ unescape l = Some c
  | None => c <> 34 /\ c <> 92
  end.
Proof.
  unfold short_escape.
  repeat match goal with |- context [c =? ?n] => destruct (Z.eqb_spec c n) as [->|?]; [done|] end.
  done.
Qed.

Lemma scan_units_escape ascii c r us t : is_code_point c = true ->
  scan_units r = Some (us, t) ->
  scan_units (escape_char ascii c ++ r) = Some (char_units ascii c ++ us, t).
Proof.
  intros Hc%between_spec Hr. pose proof (short_escape_inv c) as He.
  unfold escape_char, char_units. destruct (short_escape c) as [l|].
  - destruct He. by apply scan_units_short.
  - destruct He. destruct (Z.leb_spec 32 c), (Z.ltb_spec c 127); cbn [andb].
    1: by apply scan_units_raw.
    all: destruct (Z.leb_spec 127 c); try lia; cbn [andb].
    + destruct (negb ascii); [apply scan_units_raw; auto; lia|].
      destruct (Z.ltb_spec c 65536); [apply scan_units_hex; [lia|done]|].
      rewrite <- app_assoc. apply scan_units_hex; [|apply scan_units_hex; [|done]].
      * split; [apply Z.add_nonneg_nonneg; [lia|apply Z.div_pos; lia]|].
        assert ((c - 65536) / 1024 < 1024) by (apply Z.div_lt_upper_bound; lia). lia.
      * assert (0 <= (c - 65536) mod 1024 < 1024) by (apply Z.mod_pos_bound; lia). lia.
    + destruct (Z.ltb_spec c 65536); [|lia]. apply scan_units_hex; [lia|done].
Qed.

Lemma scan_units_quote ascii s r : forallb is_code_point s = true ->
  scan_units (concat (map (escape_char ascii) s) ++ 34 :: r)
  = Some (concat (map (char_units ascii) s), r).
Proof.
  induction s as [|c s IH]; cbn [map concat forallb]; [done|].
  intros [Hc Hs]%andb_true_iff. rewrite <- app_assoc. apply scan_units_escape; auto.
Qed.

Lemma join_units_cons e h us :
  (forall w r, us = (true, w) :: r -> e && is_high h && is_low w = false) ->
  join_units ((e, h) :: us) = h :: join_units us.
Proof.
  intros H. destruct us as [|[e' w] r]; cbn [join_units]; [done|].
  destruct e'; [|by rewrite !andb_false_r].
  rewrite andb_true_r. by rewrite (H w r eq_refl).
Qed.

Lemma char_units_head ascii c us w r : is_code_point c = true ->
  char_units ascii c ++ us = (true, w) :: r -> (w = c \/ is_low w = false).
Proof.
  intros Hc%between_spec. unfold char_units. destruct (short_escape c); [done|].
  repeat case_match; cbn [app]; intros [= <- <-]; auto. right.
  unfold is_low. destruct (between_reflect 56320 57343 (55296 + (c - 65536) / 1024)); [|done].
  assert ((c - 65536) / 1024 < 1024) by (apply Z.div_lt_upper_bound; lia). lia.
Qed.

Lemma char_units_high ascii c us e h r : is_code_point c = true ->
  c < 65536 -> char_units ascii c ++ us = (e, h) :: r -> h = c /\ r = us.
Proof.
  intros Hc Hlt. unfold char_units. destruct (short_escape c); [by intros [= <- <- <-]|].
  assert (c <? 65536 = true) as -> by by apply Z.ltb_lt.
  repeat case_match; by intros [= <- <- <-].
Qed.

Lemma char_units_single ascii c : c < 65536 -> exists e, char_units ascii c = [(e, c)].
Proof.
  intros Hlt. unfold char_units. destruct (short_escape c); [by eexists|].
  assert (c <? 65536 = true) as -> by by apply Z.ltb_lt.
  repeat case_match; by eexists.
Qed.

Lemma char_units_astral ascii c : 65536 <= c <= 1114111 ->
  char_units ascii c = [(false, c)] \/
  exists h w, char_units ascii c = [(true, h); (true, w)] /\ is_high h = true /\ is_low w = true /\
    65536 + (h - 55296) * 1024 + (w - 56320) = c.
Proof.
  intros Hc. unfold char_units. pose proof (short_escape_inv c) as He.
  destruct (short_escape c) eqn:E; [by left|].
  destruct ((32 <=? c) && (c <? 127)) eqn:E1; [by left|].
  destruct ((127 <=? c) && negb ascii) eqn:E2; [by left|].
  assert (c <? 65536 = false) as -> by (apply Z.ltb_ge; lia). right.
  assert ((c - 65536) / 1024 < 1024) by (apply Z.div_lt_upper_bound; lia).
  assert (0 <= (c - 65536) / 1024) by (apply Z.div_pos; lia).
  pose proof (Z.mod_pos_bound (c - 65536) 1024 ltac:(lia)).
  pose proof (Z.div_mod (c - 65536) 1024 ltac:(lia)).
  eexists _, _. split_and!; [reflexivity|apply between_spec; lia|apply between_spec; lia|lia].
Qed.

Lemma join_units_text ascii s : text_ok s = true ->
  join_units (concat (map (char_units ascii) s)) = s.
Proof.
  unfold text_ok. rewrite andb_true_iff.
  induction s as [|c s IH]; [done|]. cbn [forallb no_split_pair map concat].
  rewrite !andb_true_iff. intros [[Hc Hs] [Hp Hn]].
  assert (IH' : join_units (concat (map (char_units ascii) s)) = s) by by apply IH.
  pose proof Hc as Hc'. apply between_spec in Hc'.
  destruct (Z.lt_ge_cases c 65536) as [Hlt|Hge].
  - destruct (char_units_single ascii c Hlt) as [e ->]. cbn [app].
    rewrite join_units_cons; [by rewrite IH'|].
    intros w r Hw. destruct (is_high c) eqn:Hh; [|by rewrite andb_false_r].
    destruct s as [|d s]; [done|]. cbn [map concat forallb] in Hw, Hs.
    apply andb_true_iff in Hs as [Hd _].
    apply char_units_head in Hw as [->| ->]; [|by rewrite andb_false_r|done].
    cbn [andb] in Hp. apply negb_true_iff in Hp. rewrite Hp. by rewrite andb_false_r.
  - destruct (char_units_astral ascii c ltac:(lia)) as [->|(h & w & -> & Hh & Hw & E)]; cbn [app].
    + rewrite join_units_cons; [by rewrite IH'|]. done.
    + cbn [join_units]. rewrite Hh, Hw. cbn [andb]. by rewrite E, IH'.
Qed.

(** Scanning a quoted string gives the string back. *)
Lemma scan_string_quote ascii s r : text_ok s = true ->
  exists q, quote ascii s ++ r = 34 :: q /\ scan_string q = Some (s, r).
Proof.
  intros Hs. exists (concat (map (escape_char ascii) s) ++ 34 :: r).
  split; [unfold quote; by rewrite <- app_comm_cons, <- app_assoc|]. unfold scan_string.
  rewrite scan_units_quote by (unfold text_ok in Hs; by apply andb_true_iff in Hs as [? _]).
  cbn [mbind option_bind]. by rewrite join_units_text.
Qed.

(** ** Lemmas: numbers *)

(** What may follow a number without being taken for a part of it. *)
Definition number_char (c : Z) : bool :=
  is_digit c || (c =? 46) || (c =? 101) || (c =? 69) || (c =? 43) || (c =? 45).
Definition terminated (r : pystr) : Prop := forall c, hd_error r = Some c -> number_char c = false.

Lemma terminated_head r c : terminated r -> hd_error r = Some c ->
  is_digit c = false /\ c <> 46 /\ c <> 101 /\ c <> 69 /\ c <> 43 /\ c <> 45.
Proof. intros H Hc. specialize (H c Hc). unfold number_char in H. split_bools. done. Qed.

Lemma span_more p a b x r : span p a = (b, x) ->
  (x = [] -> forall c, hd_error r = Some c -> p c = false) -> span p (a ++ r) = (b, x ++ r).
Proof.
  revert b. induction a as [|c a IH]; intros b; cbn.
  - intros [= <- <-] H. destruct r as [|c r]; [done|]. cbn. by rewrite (H eq_refl c eq_refl).
  - destruct (p c) eqn:Hc; [|by intros [= <- <-] _].
    destruct (span p a) as [y z] eqn:E. intros [= <- ->] H. by rewrite (IH y).
Qed.

Lemma span_digit_more a b x r : span is_digit a = (b, x) -> terminated r ->
  span is_digit (a ++ r) = (b, x ++ r).
Proof. intros H Hr. apply span_more; [done|]. intros _ c Hc. by apply (terminated_head r). Qed.

Lemma span_head_false p c r : p c = false -> span p (c :: r) = ([], c :: r).
Proof. intros H. cbn. by rewrite H. Qed.

Lemma match_integer_more s ip x r : match_integer s = Some (ip, x) -> terminated r ->
  match_integer (s ++ r) = Some (ip, x ++ r).
Proof.
  intros H Hr. destruct s as [|c s]; [done|]. cbn [match_integer app] in *.
  destruct (c =? 48); [by injection H as <- <-|]. destruct (is_digit c); [|done].
  injection H as H. f_equal. by apply (span_digit_more (c :: s)).
Qed.

Lemma match_fraction_more s fp x r : match_fraction s = (fp, x) -> terminated r ->
  match_fraction (s ++ r) = (fp, x ++ r).
Proof.
  intros H Hr. destruct s as [|c s]; cbn [match_fraction app] in *.
  - injection H as <- <-. destruct r as [|c r]; [done|]. cbn [match_fraction app].
    destruct (terminated_head (c :: r) c Hr eq_refl) as (_ & Hc & _).
    by apply Z.eqb_neq in Hc as ->.
  - destruct (c =? 46); [|by injection H as <- <-].
    destruct (span is_digit s) as [ds y] eqn:E. rewrite (span_digit_more _ _ _ _ E Hr).
    by destruct ds; injection H as <- <-.
Qed.

Lemma match_exponent_more s ep x r : match_exponent s = (ep, x) -> terminated r ->
  match_exponent (s ++ r) = (ep, x ++ r).
Proof.
  intros H Hr. destruct s as [|c s]; cbn [match_exponent app] in *.
  - injection H as <- <-. destruct r as [|c r]; [done|]. cbn [match_exponent app].
    destruct (terminated_head (c :: r) c Hr eq_refl) as (_ & _ & H1 & H2 & _).
    apply Z.eqb_neq in H1 as ->, H2 as ->. done.
  - destruct ((c =? 101) || (c =? 69)); [|by injection H as <- <-].
    assert (Ho : optional (fun x => (x =? 43) || (x =? 45)) (s ++ r)
      = let '(a, b) := optional (fun x => (x =? 43) || (x =? 45)) s in (a, b ++ r)).
    { destruct s as [|d s]; cbn [optional app]; [|by destruct ((d =? 43) || (d =? 45))].
      destruct r as [|d r]; [done|]. cbn [optional].
      destruct (terminated_head (d :: r) d Hr eq_refl) as (_ & _ & _ & _ & H1 & H2).
      apply Z.eqb_neq in H1 as ->, H2 as ->. done. }
    rewrite Ho. destruct (optional _ s) as [sg r1].
    destruct (span is_digit r1) as [ds y] eqn:E. rewrite (span_digit_more _ _ _ _ E Hr).
    by destruct ds; injection H as <- <-.
Qed.

Lemma match_number_more t sg ip tail x r :
  match_number t = Some (sg, ip, tail, x) -> terminated r ->
  match_number (t ++ r) = Some (sg, ip, tail, x ++ r).
Proof.
  unfold match_number. intros H Hr.
  destruct (optional (fun x => x =? 45) t) as [sg' s1] eqn:Ho.
  assert (Ho' : match_integer s1 <> None ->
    optional (fun x => x =? 45) (t ++ r) = (sg', s1 ++ r)).
  { destruct t as [|c t]; cbn [optional app] in *; [by injection Ho as <- <-|].
    destruct (c =? 45); by injection Ho as <- <-. }
  destruct (match_integer s1) as [[ip' s2]|] eqn:Hi; [|done].
  rewrite (Ho' ltac:(done)). rewrite (match_integer_more _ _ _ _ Hi Hr). cbn [mbind option_bind] in *.
  destruct (match_fraction s2) as [fp s3] eqn:Hf. rewrite (match_fraction_more _ _ _ _ Hf Hr).
  destruct (match_exponent s3) as [ep s4] eqn:He. rewrite (match_exponent_more _ _ _ _ He Hr).
  by injection H as <- <- <- <-.
Qed.

Lemma span_all p s : forallb p s = true -> span p s = (s, []).
Proof. induction s as [|c s IH]; cbn; [done|]. intros [-> Hs]%andb_true_iff. by rewrite IH. Qed.

Lemma match_integer_dec n : 0 <= n -> match_integer (dec n) = Some (dec n, []).
Proof.
  intros Hn. destruct (dec_nonneg n Hn) as [Hd Hne]. destruct (dec_value n Hn) as [_ [E|H]].
  - by rewrite E.
  - destruct (dec n) as [|c s] eqn:E; [done|]. cbn [match_integer].
    destruct (Z.eqb_spec c 48) as [->|_]; [by destruct H|].
    pose proof Hd as Hd'. cbn [forallb] in Hd'. apply andb_true_iff in Hd' as [-> _].
    f_equal. by apply span_all.
Qed.

Lemma dec_first_digit n : 0 <= n -> exists c s, dec n = c :: s /\ is_digit c = true.
Proof.
  intros Hn. destruct (dec_nonneg n Hn) as [Hd Hne].
  destruct (dec n) as [|c s]; [done|]. exists c, s. cbn in Hd. by apply andb_true_iff in Hd as [? _].
Qed.

Lemma match_number_dec n : exists sg, match_number (dec n) = Some (sg, dec (Z.abs n), [], []) /\
  n = match sg with [] => digits_value (dec (Z.abs n)) | _ => - digits_value (dec (Z.abs n)) end.
Proof.
  destruct (dec_value (Z.abs n) ltac:(lia)) as [Hv _].
  destruct (Z.lt_ge_cases n 0) as [Hn|Hn].
  - exists [45]. rewrite dec_neg, Hv by done. split; [|lia]. rewrite Z.abs_neq by lia.
    unfold match_number. cbn [optional]. change (45 =? 45) with true. cbn iota.
    by rewrite match_integer_dec by lia.
  - exists []. rewrite Z.abs_eq in * by done. split; [|done].
    destruct (dec_first_digit n Hn) as (c & s & E & Hc).
    unfold match_number. pose proof (match_integer_dec n Hn) as Hm. rewrite E in Hm |- *. cbn [optional].
    unfold is_digit in Hc. split_bools. rewrite (proj2 (Z.eqb_neq c 45)) by lia. by rewrite Hm.
Qed.

(** A number's text starts with a digit, or with a minus sign and a digit. *)
Lemma match_number_head s sg ip tail r : match_number s = Some (sg, ip, tail, r) ->
  exists c t, s = c :: t /\ (is_digit c = true \/ c = 45 /\ exists d t', t = d :: t' /\ is_digit d = true).
Proof.
  assert (Hi : forall s, match_integer s <> None -> exists c t, s = c :: t /\ is_digit c = true).
  { intros [|c t] H; [done|]. exists c, t. split; [done|]. cbn in H.
    destruct (Z.eqb_spec c 48) as [->|]; [done|]. by destruct (is_digit c). }
  unfold match_number. destruct s as [|c t]; [done|]. cbn [optional].
  destruct (Z.eqb_spec c 45) as [->|Hc]; intros H; [exists 45, t|exists c, t]; (split; [reflexivity|]).
  - right. split; [done|]. apply Hi. by destruct (match_integer t).
  - left. destruct (Hi (c :: t)) as (c' & t' & [= <- <-] & Hd); [by destruct (match_integer (c :: t))|done].
Qed.

Lemma scan_literal_number hooks s : (exists x, match_number s = Some x) ->
  scan_literal hooks s = scan_number hooks s.
Proof.
  intros ([[[sg ip] tail] r] & H). apply match_number_head in H as (c & t & -> & Hc).
  assert (Hn : forall p, hd_error p = Some 110 \/ hd_error p = Some 116 \/ hd_error p = Some 102 \/
      hd_error p = Some 78 \/ hd_error p = Some 73 -> startswith p (c :: t) = false).
  { intros [|x p]; cbn [hd_error startswith]; [by intuition congruence|].
    intros Hp. apply andb_false_iff. left. apply Z.eqb_neq. intros ->.
    destruct Hc as [Hc|[-> _]]; [|intuition congruence].
    unfold is_digit in Hc. split_bools.
    destruct Hp as [E|[E|[E|[E|E]]]]; injection E as E; lia. }
  assert (Hm : startswith (str "-Infinity") (c :: t) = false).
  { destruct Hc as [Hc|(-> & d & t' & -> & Hd)].
    - change (str "-Infinity") with (45 :: str "Infinity"). cbn [startswith].
      apply andb_false_iff. left. apply Z.eqb_neq. intros <-. discriminate.
    - change (str "-Infinity") with (45 :: 73 :: str "nfinity"). cbn [startswith].
      apply andb_false_iff. right. apply andb_false_iff. left. apply Z.eqb_neq. intros <-. discriminate. }
  unfold scan_literal. rewrite Hm, !Hn; [done|..]; unfold str; cbn; tauto.
Qed.

(** ** The round trip *)

Definition is_ws (c : Z) : bool := (c =? 32) || (c =? 9) || (c =? 10) || (c =? 13).

Lemma skip_ws_nonspace c r : is_ws c = false -> skip_ws (c :: r) = c :: r.
Proof. intros H. cbn [skip_ws]. unfold is_ws in H. by rewrite H. Qed.

Lemma skip_ws_app w r : forallb is_ws w = true -> skip_ws (w ++ r) = skip_ws r.
Proof.
  induction w as [|c w IH]; [done|]. cbn [forallb app skip_ws].
  unfold is_ws at 1. intros [-> H]%andb_true_iff. auto.
Qed.

(** The separators are "," and ":" with spaces after them. *)
Record plain_style (style : dump_style) (wi wk : pystr) : Prop := {
  plain_item : item_separator style = 44 :: wi;
  plain_key : key_separator style = 58 :: wk;
  plain_wi : forallb is_ws wi = true;
  plain_wk : forallb is_ws wk = true;
}.

Lemma compact_plain sorted : plain_style (compact sorted) [] [].
Proof. done. Qed.
Lemma default_plain ascii : plain_style (default_style ascii) [32] [32].
Proof. done. Qed.

Section RoundTrip.
Context (style : dump_style) (wi wk : pystr) (Hstyle : plain_style style wi wk).
Context (hooks : load_hooks) (Hhooks : rebuilding hooks).

Lemma number_terminated c r : number_char c = false -> terminated (c :: r).
Proof. by intros H d [= <-]. Qed.

Lemma float_text f : float_reads_back f = true ->
  isfinite f = true /\ exists sg ip tail, match_number (float_repr f) = Some (sg, ip, tail, []) /\
    tail <> [] /\ sg ++ ip ++ tail = float_repr f.
Proof.
  unfold float_reads_back. destruct (isfinite f); [|done]. cbn [andb].
  destruct (match_number _) as [[[[sg ip] tail] r]|]; [|done].
  destruct tail; [done|]. destruct r; [|done].
  intros [H _]%andb_true_iff. apply str_eqb_eq in H. split; [done|]. by eexists sg, ip, _.
Qed.

Lemma float_value_text f : isfinite f = true -> value_text style (PFloat f) = float_repr f.
Proof. by destruct f. Qed.

(** The first character of an encoded value. *)
Lemma value_text_head v : json_value_ok v = true ->
  exists c t, value_text style v = c :: t /\ is_ws c = false /\ c <> 93 /\ c <> 125.
Proof.
  assert (Hnum : forall s sg ip tail r, match_number s = Some (sg, ip, tail, r) ->
    exists c t, s = c :: t /\ is_ws c = false /\ c <> 93 /\ c <> 125).
  { intros s sg ip tail r H. apply match_number_head in H as (c & t & -> & Hc).
    exists c, t. split; [done|]. unfold is_ws.
    destruct Hc as [Hc|[-> _]]; [|done]. unfold is_digit in Hc. split_bools.
    rewrite !(proj2 (Z.eqb_neq _ _)) by lia. split_and!; [done|lia..]. }
  destruct v as [|b|n|f|s|l|d]; cbn [json_value_ok]; intros H.
  - by eexists _, _.
  - destruct b; by eexists _, _.
  - destruct (match_number_dec n) as (sg & Hm & _). by apply Hnum in Hm.
  - destruct (float_text _ H) as (Hf & sg & ip & tail & Hm & _).
    rewrite float_value_text by done. by apply Hnum in Hm.
  - by eexists _, _.
  - by eexists _, _.
  - by eexists _, _.
Qed.

Lemma skip_ws_value v r : json_value_ok v = true ->
  skip_ws (value_text style v ++ r) = value_text style v ++ r.
Proof.
  intros H. destruct (value_text_head v H) as (c & t & -> & Hc & _). by apply skip_ws_nonspace.
Qed.

Lemma value_text_nonempty v : json_value_ok v = true -> (1 <= length (value_text style v))%nat.
Proof. intros H. destruct (value_text_head v H) as (c & t & -> & _). cbn. lia. Qed.

Definition scans (v : pyval) : Prop :=
  json_value_ok v = true -> forall fuel r, (2 * length (value_text style v) + 1 <= fuel)%nat ->
  terminated r -> scan_value hooks fuel (value_text style v ++ r) = Some (v, r).

Lemma eat_eq c r : eat c (c :: r) = Some r.
Proof. cbn. by rewrite Z.eqb_refl. Qed.
Lemma eat_ne c d r : d <> c -> eat c (d :: r) = None.
Proof. intros H. cbn. by apply Z.eqb_neq in H as ->. Qed.

Lemma join_cons2 (sep x y : pystr) l : join sep (x :: y :: l) = x ++ sep ++ join sep (y :: l).
Proof. reflexivity. Qed.

Lemma scan_elements_text l fuel r : l <> [] -> Forall scans l -> forallb json_value_ok l = true ->
  (2 * length (join (item_separator style) (map (value_text style) l)) + 2 <= fuel)%nat ->
  scan_elements hooks fuel (join (item_separator style) (map (value_text style) l) ++ 93 :: r)
  = Some (l, r).
Proof.
  destruct Hstyle as [Hi _ Hwi _]. rewrite Hi.
  revert fuel. induction l as [|v l IH]; intros fuel Hne Hl Hok Hf; [done|].
  apply Forall_cons in Hl as [Hv Hl]. cbn [forallb] in Hok. apply andb_true_iff in Hok as [Hvok Hlok].
  pose proof (value_text_nonempty v Hvok) as Hlen.
  destruct fuel as [|k]; [lia|]. cbn [scan_elements].
  destruct l as [|w l].
  - cbn [map join] in *. rewrite (Hv Hvok) by (lia || by apply number_terminated).
    cbn [mbind option_bind]. by rewrite skip_ws_nonspace, eat_eq by done.
  - cbn [map] in *. rewrite join_cons2 in *. rewrite <- !app_assoc. cbn [app].
    rewrite !length_app in Hf. cbn [length] in Hf.
    rewrite (Hv Hvok) by (lia || by apply number_terminated). cbn [mbind option_bind].
    rewrite skip_ws_nonspace, eat_ne, eat_eq by done. cbn [mbind option_bind].
    rewrite skip_ws_app by done.
    pose proof Hlok as Hlok'. cbn [forallb] in Hlok'. apply andb_true_iff in Hlok' as [Hw _].
    assert (Hs : forall t, skip_ws (join (44 :: wi) (value_text style w :: map (value_text style) l) ++ t)
       = join (44 :: wi) (value_text style w :: map (value_text style) l) ++ t).
    { intros t. destruct l as [|u l]; [by apply skip_ws_value|].
      cbn [map]. rewrite join_cons2, <- app_assoc. by apply skip_ws_value. }
    rewrite Hs, (IH k) by (done || lia). done.
Qed.

Definition member_text (p : pystr * pyval) : pystr :=
  quote (ensure_ascii style) (fst p) ++ key_separator style ++ value_text style (snd p).

Lemma scan_members_text d fuel r : d <> [] -> Forall (fun p => scans (snd p)) d ->
  forallb (fun p => text_ok (fst p) && json_value_ok (snd p)) d = true ->
  (2 * length (join (item_separator style) (map member_text d)) + 2 <= fuel)%nat ->
  scan_members hooks fuel (join (item_separator style) (map member_text d) ++ 125 :: r)
  = Some (d, r).
Proof.
  destruct Hstyle as [Hi Hk Hwi Hwk]. rewrite Hi.
  revert fuel. induction d as [|[key v] d IH]; intros fuel Hne Hl Hok Hf; [done|].
  apply Forall_cons in Hl as [Hv Hl]. cbn [forallb fst snd] in *.
  apply andb_true_iff in Hok as [[Hkey Hvok]%andb_true_iff Hlok].
  pose proof (value_text_nonempty v Hvok) as Hlen.
  assert (Hstep : forall t, exists q, member_text (key, v) ++ t = 34 :: q /\
     scan_string q = Some (key, 58 :: wk ++ value_text style v ++ t)).
  { intros t. unfold member_text. cbn [fst snd]. rewrite Hk, <- !app_assoc. by apply scan_string_quote. }
  assert (Hml : (2 + length (value_text style v) <= length (member_text (key, v)))%nat).
  { unfold member_text, quote. cbn [fst snd]. rewrite Hk, !length_app. cbn [length]. lia. }
  destruct fuel as [|k]; [lia|]. cbn [scan_members].
  destruct d as [|p d].
  - cbn [map join] in *. destruct (Hstep (125 :: r)) as (q & -> & Hq).
    rewrite eat_eq. cbn [mbind option_bind]. rewrite Hq. cbn [mbind option_bind].
    rewrite skip_ws_nonspace, eat_eq by done. cbn [mbind option_bind].
    rewrite skip_ws_app, skip_ws_value by done.
    rewrite (Hv Hvok) by (lia || by apply number_terminated). cbn [mbind option_bind].
    by rewrite skip_ws_nonspace, eat_eq by done.
  - cbn [map] in *. rewrite join_cons2 in *. rewrite <- !app_assoc.
    rewrite !length_app in Hf. cbn [length] in Hf.
    destruct (Hstep ((44 :: wi) ++ join (44 :: wi) (member_text p :: map member_text d) ++ 125 :: r))
      as (q & -> & Hq).
    rewrite eat_eq. cbn [mbind option_bind]. rewrite Hq. cbn [mbind option_bind].
    rewrite skip_ws_nonspace, eat_eq by done. cbn [mbind option_bind].
    rewrite skip_ws_app, skip_ws_value by done.
    rewrite (Hv Hvok) by (lia || by apply number_terminated). cbn [mbind option_bind app].
    rewrite skip_ws_nonspace, eat_ne, eat_eq by done. cbn [mbind option_bind].
    rewrite skip_ws_app by done.
    assert (Hs : forall t, skip_ws (join (44 :: wi) (member_text p :: map member_text d) ++ t)
       = join (44 :: wi) (member_text p :: map member_text d) ++ t).
    { intros t. destruct d as [|u d]; [by apply skip_ws_nonspace|by apply skip_ws_nonspace]. }
    rewrite Hs, (IH k) by (done || lia). done.
Qed.

Lemma distinct_NoDup l : distinct l = true -> NoDup l.
Proof.
  induction l as [|k l IH]; cbn; [constructor|]. intros [Hk Hl]%andb_true_iff.
  constructor; [|auto]. rewrite list_elem_of_In. by apply negb_true_iff, str_in_false in Hk.
Qed.

(** Decoding an encoded value gives the value back, whatever follows it. *)
Lemma scan_value_text v : scans v.
Proof.
  induction v as [|b|n|f|s|l Hl|d Hd] using pyval_induction; intros Hok fuel r Hf Hr;
    (destruct fuel as [|k]; [lia|]).
  - done.
  - by destruct b.
  - destruct (match_number_dec n) as (sg & Hm & Hn).
    pose proof (match_number_more _ _ _ _ _ _ Hm Hr) as Hm'.
    destruct (value_text_head (PInt n) Hok) as (c & t & Hc & _).
    assert (Hscan : scan_value hooks (S k) (value_text style (PInt n) ++ r)
      = scan_literal hooks (dec n ++ r)).
    { cbn [value_text] in *. apply match_number_head in Hm as (c' & t' & E & Hd).
      rewrite E. cbn [app scan_value].
      destruct Hd as [Hd|[-> _]]; [|done]. unfold is_digit in Hd. split_bools.
      by rewrite !(proj2 (Z.eqb_neq _ _)) by lia. }
    rewrite Hscan, scan_literal_number by eauto. unfold scan_number. rewrite Hm'.
    cbn [mbind option_bind app]. cbn [json_value_ok] in Hok. rewrite Hok. by rewrite <- Hn.
  - destruct (float_text f Hok) as (Hfin & sg & ip & tail & Hm & Hne & Htext).
    pose proof (match_number_more _ _ _ _ _ _ Hm Hr) as Hm'.
    rewrite float_value_text by done.
    assert (Hscan : scan_value hooks (S k) (float_repr f ++ r) = scan_literal hooks (float_repr f ++ r)).
    { apply match_number_head in Hm as (c' & t' & E & Hd).
      rewrite E. cbn [app scan_value].
      destruct Hd as [Hd|[-> _]]; [|done]. unfold is_digit in Hd. split_bools.
      by rewrite !(proj2 (Z.eqb_neq _ _)) by lia. }
    rewrite Hscan, scan_literal_number by eauto. unfold scan_number. rewrite Hm'.
    cbn [mbind option_bind app]. rewrite Htext.
    destruct tail; [done|]. by rewrite (rebuild_float _ Hhooks f Hok).
  - cbn [value_text]. destruct (scan_string_quote (ensure_ascii style) s r Hok) as (q & -> & Hq).
    cbn [scan_value]. change (34 =? 34) with true. cbn iota. by rewrite Hq.
  - cbn [value_text json_value_ok] in *. cbn [app scan_value].
    change (91 =? 34) with false. change (91 =? 123) with false. change (91 =? 91) with true. cbn iota.
    rewrite <- app_assoc. destruct l as [|w l]; [done|].
    assert (Hw : json_value_ok w = true) by (cbn in Hok; by apply andb_true_iff in Hok as [? _]).
    assert (Hhead : exists c t, join (item_separator style) (map (value_text style) (w :: l)) = c :: t
       /\ is_ws c = false /\ c <> 93).
    { destruct (value_text_head w Hw) as (c & t & E & Hc & H93 & _).
      destruct l as [|u l]; cbn [map]; [by exists c, t|].
      rewrite join_cons2, E. cbn [app]. by eexists c, _. }
    destruct Hhead as (c & t & E & Hc & H93). rewrite E. cbn [app].
    rewrite skip_ws_nonspace, eat_ne by done. rewrite app_comm_cons, <- E.
    rewrite scan_elements_text; [done..|]. cbn [length] in Hf. rewrite length_app in Hf. cbn in Hf |- *. lia.
  - cbn [value_text json_value_ok] in *. cbn [app scan_value].
    change (123 =? 34) with false. change (123 =? 123) with true. cbn iota.
    apply andb_true_iff in Hok as [Hok Hdis].
    rewrite <- app_assoc. change (map _ d) with (map member_text d). change (map _ d) with (map member_text d) in Hf.
    destruct d as [|p d]; [cbn; by rewrite (rebuild_pairs _ Hhooks) by constructor|].
    assert (Hhead : exists t, join (item_separator style) (map member_text (p :: d)) = 34 :: t).
    { destruct d as [|u d]; by eexists. }
    destruct Hhead as (t & E). rewrite E. cbn [app].
    rewrite skip_ws_nonspace, eat_ne by done. rewrite app_comm_cons, <- E.
    rewrite scan_members_text; [| done..|cbn [length] in Hf; rewrite length_app in Hf; cbn in Hf |- *; lia].
    cbn [mbind option_bind]. rewrite (rebuild_pairs _ Hhooks) by by apply distinct_NoDup. done.
Qed.

(** [loads] inverts the encoder's text. *)
Lemma loads_value_text v : json_value_ok v = true -> loads hooks (value_text style v) = Some v.
Proof.
  intros Hok. unfold loads. destruct (value_text_head v Hok) as (c & t & E & Hc & _).
  assert (Hs : skip_ws (value_text style v) = value_text style v).
  { rewrite E. by apply skip_ws_nonspace. }
  destruct (startswith [65279] (value_text style v)) eqn:Hbom.
  { exfalso. rewrite E in Hbom. cbn [startswith] in Hbom. apply andb_true_iff in Hbom as [Hb _].
    apply Z.eqb_eq in Hb as <-. revert E Hok. clear.
    destruct v as [|[]|n|f|s|l|d]; cbn [value_text]; try done.
    - intros E Hok. destruct (match_number_dec n) as (sg & Hm & _).
      apply match_number_head in Hm as (c & t' & E' & [Hd|[-> _]]); rewrite E in E'; [|done].
      by injection E' as <- <-.
    - intros E Hok. destruct (float_text f Hok) as (Hfin & sg & ip & tail & Hm & _).
      apply match_number_head in Hm as (c & t' & E' & Hc).
      rewrite <- (float_value_text f Hfin) in E'. cbn [value_text] in E'. rewrite E in E'.
      injection E' as <- <-. by destruct Hc as [Hd|[Hd _]]. }
  rewrite Hs. rewrite <- (app_nil_r (value_text style v)) at 2.
  rewrite scan_value_text; [done|done|unfold scan_fuel; lia|by intros ? [=]].
Qed.
End RoundTrip.

(** ** The fuel is enough

    The scanners answer the same for every fuel above twice the length of the
    text, so running out of fuel is never mistaken for a syntax error. *)

Lemma skip_ws_length s : (length (skip_ws s) <= length s)%nat.
Proof. induction s as [|c s IH]; cbn; [lia|]. repeat case_match; cbn; lia. Qed.

Lemma eat_length c s r : eat c s = Some r -> length s = S (length r).
Proof. destruct s as [|x s]; cbn; [done|]. destruct (x =? c); [|done]. by intros [= <-]. Qed.

Lemma scan_units_length s us r : scan_units s = Some (us, r) -> (length r < length s)%nat.
Proof.
  revert us r. induction s as [s IH] using (induction_ltof1 _ (@length Z)); unfold ltof in IH.
  intros us r. destruct s as [|c s]; [done|]. cbn [scan_units].
  destruct (c =? 34); [intros [= <- <-]; cbn; lia|].
  destruct (c =? 92).
  - destruct s as [|e s]; [done|]. destruct (e =? 117).
    + destruct s as [|x1 [|x2 [|x3 [|x4 s]]]]; try done.
      destruct (hex4_value _ _ _ _); [|done].
      destruct (scan_units s) as [[us' r']|] eqn:E; [|done]. intros [= <- <-].
      apply IH in E; cbn in *; lia.
    + destruct (unescape e); [|done].
      destruct (scan_units s) as [[us' r']|] eqn:E; [|done]. intros [= <- <-].
      apply IH in E; cbn in *; lia.
  - destruct (c <? 32); [done|]. destruct (scan_units s) as [[us' r']|] eqn:E; [|done].
    intros [= <- <-]. apply IH in E; cbn in *; lia.
Qed.

Lemma scan_string_length s t r : scan_string s = Some (t, r) -> (length r < length s)%nat.
Proof.
  unfold scan_string. destruct (scan_units s) as [[us r']|] eqn:E; [|done].
  intros [= <- <-]. by eapply scan_units_length.
Qed.

Lemma span_length p s a b : span p s = (a, b) -> length s = (length a + length b)%nat.
Proof.
  revert a b. induction s as [|c s IH]; intros a b; cbn; [by intros [= <- <-]|].
  destruct (p c); [|by intros [= <- <-]].
  destruct (span p s) as [x y] eqn:E. intros [= <- <-]. cbn. by rewrite (IH x y).
Qed.

Lemma match_number_length s sg ip tail r : match_number s = Some (sg, ip, tail, r) ->
  (length r < length s)%nat.
Proof.
  unfold match_number. destruct (optional _ s) as [sg' s1] eqn:Ho.
  assert (length s1 <= length s)%nat.
  { destruct s as [|c s]; cbn in Ho; [by injection Ho as <- <-|].
    destruct (c =? 45); injection Ho as <- <-; cbn; lia. }
  destruct (match_integer s1) as [[ip' s2]|] eqn:Hi; [|done]. cbn [mbind option_bind].
  assert (length s2 < length s1)%nat.
  { destruct s1 as [|c s1]; [done|]. cbn [match_integer] in Hi.
    destruct (c =? 48); [injection Hi as <- <-; cbn; lia|].
    destruct (is_digit c) eqn:Hc; [|done]. injection Hi as Hi.
    cbn in Hi. rewrite Hc in Hi. destruct (span is_digit s1) as [a b] eqn:E.
    injection Hi as <- <-. apply span_length in E. cbn. lia. }
  destruct (match_fraction s2) as [fp s3] eqn:Hf.
  assert (length s3 <= length s2)%nat.
  { destruct s2 as [|c s2]; cbn [match_fraction] in Hf; [by injection Hf as <- <-|].
    destruct (c =? 46); [|by injection Hf as <- <-].
    destruct (span is_digit s2) as [a b] eqn:E. apply span_length in E.
    destruct a; injection Hf as <- <-; cbn in *; lia. }
  destruct (match_exponent s3) as [ep s4] eqn:He.
  assert (length s4 <= length s3)%nat.
  { destruct s3 as [|c s3]; cbn [match_exponent] in He; [by injection He as <- <-|].
    destruct ((c =? 101) || (c =? 69)); [|by injection He as <- <-].
    destruct (optional _ s3) as [a b] eqn:Ho'.
    assert (length b <= length s3)%nat.
    { destruct s3 as [|d s3]; cbn in Ho'; [by injection Ho' as <- <-|].
      destruct ((d =? 43) || (d =? 45)); injection Ho' as <- <-; cbn; lia. }
    destruct (span is_digit b) as [x y] eqn:E. apply span_length in E.
    destruct x; injection He as <- <-; cbn in *; lia. }
  intros [= <- <- <- <-]. lia.
Qed.

Lemma startswith_drop p s : startswith p s = true -> p <> [] ->
  (length (drop (length p) s) < length s)%nat.
Proof.
  intros (r & ->)%startswith_app Hp. rewrite drop_app_length, length_app. destruct p; [done|]. cbn. lia.
Qed.

Section Fuel.
Context (hooks : load_hooks).

Lemma scan_literal_length s v r : scan_literal hooks s = Some (v, r) -> (length r < length s)%nat.
Proof.
  unfold scan_literal, scan_number.
  repeat match goal with
  | |- (if startswith ?p s then _ else _) = _ -> _ =>
      let E := fresh in destruct (startswith p s) eqn:E;
      [apply startswith_drop in E; [cbn [length] in E|done];
       try (destruct (parse_constant hooks _); [|done]); by intros [= <- <-]|clear E]
  end.
  destruct (match_number s) as [[[[sg ip] tail] r']|] eqn:E; [|done]. cbn [mbind option_bind].
  apply match_number_length in E. destruct tail.
  - destruct (_ <=? _); [|done]. by intros [= <- <-].
  - destruct (parse_number hooks _); [|done]. by intros [= <- <-].
Qed.

Lemma scan_shorter k :
  (forall s v r, scan_value hooks k s = Some (v, r) -> (length r < length s)%nat) /\
  (forall s l r, scan_elements hooks k s = Some (l, r) -> (length r < length s)%nat) /\
  (forall s d r, scan_members hooks k s = Some (d, r) -> (length r < length s)%nat).
Proof.
  induction k as [|k (IHv & IHe & IHm)]; [done|]. split_and!.
  - intros [|c s] v r; [done|]. cbn [scan_value length].
    pose proof (skip_ws_length s) as Hws.
    destruct (c =? 34); [|destruct (c =? 123); [|destruct (c =? 91); [|apply scan_literal_length]]].
    + destruct (scan_string s) as [[t r']|] eqn:E; [|done]. intros [= <- <-].
      apply scan_string_length in E. lia.
    + destruct (eat 125 _) eqn:E; [apply eat_length in E|].
      * destruct (object_pairs_hook hooks _); [|done]. intros [= <- <-]. lia.
      * destruct (scan_members _ _ _) as [[ps r']|] eqn:Em; [|done]. apply IHm in Em.
        cbn [mbind option_bind]. destruct (object_pairs_hook hooks _); [|done]. intros [= <- <-]. lia.
    + destruct (eat 93 _) eqn:E; [apply eat_length in E; intros [= <- <-]; lia|].
      destruct (scan_elements _ _ _) as [[ps r']|] eqn:Em; [|done]. apply IHe in Em.
      intros [= <- <-]. lia.
  - intros s l r. cbn [scan_elements]. destruct (scan_value hooks k s) as [[v r1]|] eqn:Ev; [|done].
    apply IHv in Ev. cbn [mbind option_bind]. pose proof (skip_ws_length r1).
    destruct (eat 93 _) eqn:E; [apply eat_length in E; intros [= <- <-]; lia|].
    destruct (eat 44 _) as [r2|] eqn:E'; [|done]. apply eat_length in E'. cbn [mbind option_bind].
    pose proof (skip_ws_length r2).
    destruct (scan_elements _ _ _) as [[ps r']|] eqn:Em; [|done]. apply IHe in Em.
    intros [= <- <-]. lia.
  - intros s l r. cbn [scan_members]. destruct (eat 34 s) as [r0|] eqn:E0; [|done].
    apply eat_length in E0. cbn [mbind option_bind].
    destruct (scan_string r0) as [[key r1]|] eqn:E1; [|done]. apply scan_string_length in E1.
    cbn [mbind option_bind]. pose proof (skip_ws_length r1).
    destruct (eat 58 _) as [r2|] eqn:E2; [|done]. apply eat_length in E2. cbn [mbind option_bind].
    pose proof (skip_ws_length r2).
    destruct (scan_value hooks k _) as [[v r3]|] eqn:Ev; [|done].
    apply IHv in Ev. cbn [mbind option_bind]. pose proof (skip_ws_length r3).
    destruct (eat 125 _) eqn:E; [apply eat_length in E; intros [= <- <-]; lia|].
    destruct (eat 44 _) as [r4|] eqn:E'; [|done]. apply eat_length in E'. cbn [mbind option_bind].
    pose proof (skip_ws_length r4).
    destruct (scan_members _ _ _) as [[ps r']|] eqn:Em; [|done]. apply IHm in Em.
    intros [= <- <-]. lia.
Qed.

Lemma scan_fuel_enough k :
  (forall f s, (2 * length s + 1 <= k)%nat -> (2 * length s + 1 <= f)%nat ->
     scan_value hooks k s = scan_value hooks f s) /\
  (forall f s, (2 * length s + 2 <= k)%nat -> (2 * length s + 2 <= f)%nat ->
     scan_elements hooks k s = scan_elements hooks f s) /\
  (forall f s, (2 * length s + 2 <= k)%nat -> (2 * length s + 2 <= f)%nat ->
     scan_members hooks k s = scan_members hooks f s).
Proof.
  induction k as [|k (IHv & IHe & IHm)]; [split_and!; intros; lia|]. split_and!.
  - intros [|f] s Hk Hf; [lia|]. destruct s as [|c s]; [done|]. cbn [scan_value length] in *.
    pose proof (skip_ws_length s).
    by rewrite (IHe f (skip_ws s)), (IHm f (skip_ws s)) by lia.
  - intros [|f] s Hk Hf; [lia|]. cbn [scan_elements]. rewrite (IHv f s) by lia.
    destruct (scan_value hooks f s) as [[v r1]|] eqn:Ev; [|done].
    apply scan_shorter in Ev. cbn [mbind option_bind]. pose proof (skip_ws_length r1).
    destruct (eat 93 _); [done|].
    destruct (eat 44 _) as [r2|] eqn:E'; [|done]. apply eat_length in E'. cbn [mbind option_bind].
    pose proof (skip_ws_length r2). by rewrite (IHe f (skip_ws r2)) by lia.
  - intros [|f] s Hk Hf; [lia|]. cbn [scan_members]. destruct (eat 34 s) as [r0|] eqn:E0; [|done].
    apply eat_length in E0. cbn [mbind option_bind].
    destruct (scan_string r0) as [[key r1]|] eqn:E1; [|done]. apply scan_string_length in E1.
    cbn [mbind option_bind]. pose proof (skip_ws_length r1).
    destruct (eat 58 _) as [r2|] eqn:E2; [|done]. apply eat_length in E2. cbn [mbind option_bind].
    pose proof (skip_ws_length r2). rewrite (IHv f (skip_ws r2)) by lia.
    destruct (scan_value hooks f _) as [[v r3]|] eqn:Ev; [|done].
    apply scan_shorter in Ev. cbn [mbind option_bind]. pose proof (skip_ws_length r3).
    destruct (eat 125 _); [done|].
    destruct (eat 44 _) as [r4|] eqn:E'; [|done]. apply eat_length in E'. cbn [mbind option_bind].
    pose proof (skip_ws_length r4). by rewrite (IHm f (skip_ws r4)) by lia.
Qed.
End Fuel.

(** ** Lemmas: default hooks and sorting *)

Lemma dict_update_fresh {V} (acc d : list (pystr * V)) : NoDup (keys (acc ++ d)) ->
  dict_update acc d = acc ++ d.
Proof.
  revert acc. induction d as [|[k v] d IH]; intros acc H; [by rewrite app_nil_r|].
  unfold dict_update in *. cbn [fold_left].
  assert (dict_get k acc = None) as Hk.
  { destruct (dict_get k acc) as [w|] eqn:E; [|done]. exfalso.
    unfold keys in H. rewrite map_app in H. cbn [map fst] in H.
    apply NoDup_app in H as (_ & Hd & _). apply (Hd k); [|by left].
    apply list_elem_of_In. apply dict_get_keys. by rewrite E. }
  rewrite dict_set_absent by done. rewrite IH; by rewrite <- app_assoc.
Qed.

Lemma default_rebuilding : rebuilding default_hooks.
Proof.
  constructor; cbn.
  - intros d Hd. unfold dict_of_pairs. by rewrite dict_update_fresh.
  - intros f. unfold float_reads_back. destruct (isfinite f); [|done]. cbn [andb].
    destruct (match_number _) as [[[[sg ip] [|]] []]|]; try done.
    intros [_ H]%andb_true_iff. apply float_eqb_eq in H. by rewrite H.
Qed.

Lemma insert_item_perm {V} (x : pystr * V) l : Permutation (insert_item x l) (x :: l).
Proof.
  induction l as [|y l IH]; cbn; [done|]. destruct (str_leb _ _); [done|].
  rewrite IH. apply perm_swap.
Qed.

Lemma sort_items_perm {V} (l : list (pystr * V)) : Permutation (sort_items l) l.
Proof. induction l as [|x l IH]; cbn; [done|]. by rewrite insert_item_perm, IH. Qed.

Lemma forallb_perm {A} (p : A -> bool) l k : Permutation l k -> forallb p l = forallb p k.
Proof.
  induction 1; cbn; try congruence. by rewrite !andb_assoc, (andb_comm (p y)).
Qed.

Lemma distinct_iff l : distinct l = true <-> NoDup l.
Proof.
  split; [apply distinct_NoDup|]. induction 1 as [|x l Hx Hl IH]; [done|]. cbn.
  rewrite IH, andb_true_r. apply negb_true_iff, str_in_false. by rewrite <- list_elem_of_In.
Qed.

Lemma keys_map_snd {V W} (f : V -> W) (d : list (pystr * V)) :
  keys (map (fun p => (fst p, f (snd p))) d) = keys d.
Proof. unfold keys. rewrite map_map. by apply map_ext. Qed.

Lemma sort_value_ok v : json_value_ok v = true -> json_value_ok (sort_value v) = true.
Proof.
  induction v as [| | | | |l Hl|d Hd] using pyval_induction; cbn [sort_value json_value_ok]; try done.
  - rewrite !forallb_forall. intros H x Hx. apply in_map_iff in Hx as (y & <- & Hy).
    rewrite List.Forall_forall in Hl. by apply Hl, H.
  - rewrite !andb_true_iff. intros [H Hk]. split.
    + erewrite forallb_perm by apply sort_items_perm. rewrite forallb_forall in H |- *.
      intros x Hx. apply in_map_iff in Hx as (y & <- & Hy). cbn [fst snd].
      specialize (H _ Hy). apply andb_true_iff in H as [H1 H2]. rewrite H1. cbn [andb].
      rewrite List.Forall_forall in Hd. by apply Hd.
    + apply distinct_iff. apply distinct_iff in Hk. unfold keys. rewrite sort_items_perm.
      change (map fst ?m) with (keys m). by rewrite keys_map_snd.
Qed.

(** ** Properties *)

Lemma json_value_encodable style v : json_value_ok v = true -> encodable style v = true.
Proof.
  induction v as [| | | | |l Hl|d Hd] using pyval_induction; intros Hv; try done.
  - cbn in *. unfold float_reads_back in Hv. apply andb_true_iff in Hv as [Hv _]. by rewrite Hv.
  - cbn in *. rewrite forallb_forall in *. rewrite List.Forall_forall in Hl. auto.
  - cbn in *. apply andb_true_iff in Hv as [Hv _].
    rewrite forallb_forall in *. rewrite List.Forall_forall in Hd. intros p Hp.
    apply Hd; [done|]. apply Hv in Hp. by apply andb_true_iff in Hp as [_ ?].
Qed.

(** Whatever the two separator styles used by the program write, the
    decoder reads back: for a value with distinct keys, well-formed strings,
    integers of at most 4300 digits and floats whose text reads back,
    [json.loads(json.dumps(v))] is [v]. *)
Theorem loads_dumps style v :
  In style [compact false; default_style true; default_style false] ->
  json_value_ok v = true ->
  exists text, dumps style v = Ok text /\ loads default_hooks text = Some v.
Proof.
  intros Hs Hv.
  assert (exists wi wk, plain_style style wi wk /\ sort_keys style = false) as (wi & wk & Hp & Hsort).
  { destruct Hs as [<-|[<-|[<-|[]]]]; [exists [], []|exists [32], [32]..]; (split; [constructor|]); done. }
  exists (value_text style v). split.
  - unfold dumps. by rewrite Hsort, json_value_encodable.
  - eapply loads_value_text; [done|apply default_rebuilding|done].
Qed.

Definition demo_value : pyval :=
  PDict [(str "text", PStr [233; 128512; 10; 34]); (str "n", PInt (-42));
         (str "x", PFloat (parse_float (str "0.1"))); (str "empty", PList []);
         (str "list", PList [PNone; PBool true; PDict []])].

Lemma loads_dumps_witness :
  exists text, dumps (default_style false) demo_value = Ok text /\
    loads default_hooks text = Some demo_value.
Proof. apply loads_dumps; [by right; right; left|vm_compute; reflexivity]. Defined.
