(* ===== verification/Protocol.v ===== *)
(** * Wire protocol

    [host_agent/dgx_ops_agent/protocol.py]: canonical JSON, request building,
    HMAC signatures, request verification with the nonce cache, and the framing
    of messages on a byte stream.  A stream is anything with a [recv]
    operation; the theorems about reading are proved against its contract, and
    [Chunked] is a stream that fragments its data arbitrarily. *)
From Stdlib Require Import ZArith Lia Bool String.
From stdpp Require Import prelude.
From S2P Require Import Prelude PyValue PyFloat Utf8 Sha256 Json.
Open Scope Z_scope.

(** ** Constants *)

Definition PROTOCOL_VERSION : Z := 1.
Definition MAX_FRAME_SIZE : Z := 1048576.
Definition MIN_SECRET_SIZE : Z := 32.
Definition MAX_ACTION_LENGTH : Z := 128.
Definition MAX_REQUEST_ID_LENGTH : Z := 128.
Definition MAX_NONCE_LENGTH : Z := 256.
Definition MAX_TIMESTAMP : Z := 9223372036854775807.
Definition MAX_AGE : Z := 86400.
Definition MAX_JSON_DEPTH : Z := 256.
Definition DEFAULT_NONCE_CAPACITY : Z := 4096.
Definition SIGNATURE_LENGTH : Z := 64.

Definition REQUIRED_REQUEST_FIELDS : list pystr :=
  [str "protocol_version"; str "request_id"; str "action"; str "parameters"; str "timestamp";
   str "nonce"; str "signature"].
Definition OPTIONAL_REQUEST_FIELDS : list pystr := [str "approval"].

Definition protocol_error (s : string) : exn := ProtocolError (str s).

(** ** Validators; each returns the value it accepted *)

Definition validate_secret (secret : bytes) : result unit :=
  guard_exn (MIN_SECRET_SIZE <=? zlen secret) (protocol_error "secret must be at least 32 bytes").

Definition validate_bounded_string (value : pyval) (name : string) (maximum : Z) : result pystr :=
  match as_str value with
  | Some s =>
      if negb (truthy (PStr (strip s))) || (maximum <? zlen s)
      then Raise (ProtocolError (str "invalid " ++ str name)) else Ok s
  | None => Raise (ProtocolError (str "invalid " ++ str name))
  end.

Definition bounded_int (value : pyval) (name : string) (maximum : Z) : result Z :=
  if is_bool value then Raise (ProtocolError (str "invalid " ++ str name))
  else match isinstance_int value with
       | Some n => if (0 <=? n) && (n <=? maximum) then Ok n
                   else Raise (ProtocolError (str "invalid " ++ str name))
       | None => Raise (ProtocolError (str "invalid " ++ str name))
       end.

Definition validate_timestamp (value : pyval) (name : string) : result Z :=
  bounded_int value name MAX_TIMESTAMP.

Definition validate_max_age (max_age : pyval) : result Z := bounded_int max_age "max_age" MAX_AGE.

(** ** JSON trees *)

Fixpoint json_size (v : pyval) : nat :=
  match v with
  | PList l => S (list_sum (map json_size l))
  | PDict d => S (list_sum (map (fun p => json_size (snd p)) d))
  | _ => 1
  end.

Definition out_of_fuel : exn := OtherException (str "fuel").

(** The explicit stack of [_validate_json_tree]: a value, whether it is being
    left, and its depth; the head of the list is the end of Python's list.
    Values are finite trees, so no container is its own ancestor. *)
Fixpoint json_tree_loop (fuel : nat) (stack : list (pyval * bool * Z)) : result unit :=
  match stack, fuel with
  | [], _ => Ok tt
  | _, O => Raise out_of_fuel
  | (current, leaving, depth) :: rest, S k =>
      if leaving then json_tree_loop k rest
      else if MAX_JSON_DEPTH <? depth
      then Raise (ValueError (str "JSON value is nested too deeply"))
      else match current with
           | PDict d =>
               json_tree_loop k
                 (rev (map (fun p => (snd p, false, depth + 1)) d) ++ (current, true, depth) :: rest)
           | PList l =>
               json_tree_loop k
                 (rev (map (fun v => (v, false, depth + 1)) l) ++ (current, true, depth) :: rest)
           | PFloat f =>
               if isfinite f then json_tree_loop k rest
               else Raise (ValueError (str "non-finite JSON number"))
           | _ => json_tree_loop k rest
           end
  end.

Definition validate_json_tree (value : pyval) : result unit :=
  json_tree_loop (2 * json_size value) [(value, false, 0)].

(** [except (TypeError, ValueError, RecursionError)] *)
Definition json_failure (e : exn) : bool :=
  is_ValueError e || match e with TypeError _ | RecursionError => true | _ => false end.

Definition except_json {A} (m : result A) (message : string) : result A :=
  except m (fun e => if json_failure e then Some (Raise (protocol_error message)) else None).

Definition SIGNATURE : pystr := str "signature".

(** The encoded text is ASCII, so its code points are its bytes. *)
Definition canonical_bytes (message : pyval) : result bytes :=
  match as_dict message with
  | None => Raise (protocol_error "message must be a JSON object")
  | Some d =>
      let unsigned := PDict (dict_del SIGNATURE d) in
      except_json (_ ← validate_json_tree unsigned; dumps (compact true) unsigned)
        "message is not valid JSON"
  end.

(** ** Requests *)

(** [new_request]; [clock], [token] and [uuid] are what [time.time],
    [secrets.token_hex] and [uuid.uuid4] answer. *)
Definition new_request (clock : Z) (token uuid : pystr) (action parameters : pyval)
    (approval now nonce request_id : option pyval) : result pydict :=
  let timestamp := default (PInt clock) now in
  let request_nonce := default (PStr token) nonce in
  let identifier := default (PStr uuid) request_id in
  _ ← validate_bounded_string action "action" MAX_ACTION_LENGTH;
  parameters ← of_option (as_dict parameters) (protocol_error "invalid parameters");
  _ ← validate_timestamp timestamp "timestamp";
  _ ← validate_bounded_string request_nonce "nonce" MAX_NONCE_LENGTH;
  _ ← validate_bounded_string identifier "request_id" MAX_REQUEST_ID_LENGTH;
  approval ← match approval with
             | None => Ok None
             | Some a => d ← of_option (as_dict a) (protocol_error "invalid approval"); Ok (Some d)
             end;
  let request := [(str "protocol_version", PInt PROTOCOL_VERSION);
                  (str "request_id", identifier);
                  (str "action", action);
                  (str "parameters", PDict parameters);
                  (str "timestamp", timestamp);
                  (str "nonce", request_nonce)] in
  Ok (match approval with
      | Some d => dict_set (str "approval") (PDict d) request
      | None => request
      end).

Definition sign_message (message : pyval) (secret : bytes) : result pydict :=
  _ ← validate_secret secret;
  d ← of_option (as_dict message) (protocol_error "message must be a JSON object");
  body ← canonical_bytes (PDict d);
  Ok (dict_set SIGNATURE (PStr (hmac_hexdigest secret body)) d).

Definition is_hex_digit (c : Z) : bool :=
  is_digit c || ((97 <=? c) && (c <=? 102)) || ((65 <=? c) && (c <=? 70)).

Definition is_valid_signature (signature : pyval) : option pystr :=
  s ← as_str signature;
  if (zlen s =? SIGNATURE_LENGTH) && is_ascii s && forallb is_hex_digit s then Some s else None.

Definition item (message : pydict) (key : string) : pyval := get_or_none (str key) message.

(** The checks inside the [try] of [_validate_request_schema]. *)
Definition validate_request_fields (message : pydict) : result unit :=
  _ ← validate_bounded_string (item message "request_id") "request_id" MAX_REQUEST_ID_LENGTH;
  _ ← validate_bounded_string (item message "action") "action" MAX_ACTION_LENGTH;
  _ ← of_option (as_dict (item message "parameters")) (protocol_error "invalid parameters");
  _ ← validate_timestamp (item message "timestamp") "timestamp";
  _ ← validate_bounded_string (item message "nonce") "nonce" MAX_NONCE_LENGTH;
  if dict_mem (str "approval") message then
    _ ← of_option (as_dict (item message "approval")) (protocol_error "invalid approval"); Ok tt
  else Ok tt.

Definition is_ProtocolError (e : exn) : bool :=
  match e with ProtocolError _ => true | _ => false end.

Definition validate_request_schema (message : pydict) : result unit :=
  let version := item message "protocol_version" in
  _ ← guard_exn (negb (is_bool version) && match isinstance_int version with
                                           | Some n => n =? PROTOCOL_VERSION | None => false end)
        (protocol_error "unsupported protocol version");
  _ ← guard_exn (keys_superset message REQUIRED_REQUEST_FIELDS
                 && keys_subset message (REQUIRED_REQUEST_FIELDS ++ OPTIONAL_REQUEST_FIELDS))
        (protocol_error "invalid request schema");
  except (validate_request_fields message)
    (fun e => if is_ProtocolError e then Some (Raise (protocol_error "invalid request schema"))
              else None).

(** ** Nonces *)

Record NonceCache := mkCache {
  max_entries : Z;
  entries : list (pystr * Z);
}.

Definition new_nonce_cache (capacity : pyval) : result NonceCache :=
  if is_bool capacity then Raise (protocol_error "invalid nonce cache capacity")
  else match isinstance_int capacity with
       | Some n => if n <=? 0 then Raise (protocol_error "invalid nonce cache capacity")
                   else Ok (mkCache n [])
       | None => Raise (protocol_error "invalid nonce cache capacity")
       end.

Definition drop_expired (now : Z) (c : NonceCache) : NonceCache :=
  mkCache (max_entries c) (List.filter (fun p => negb (snd p <? now)) (entries c)).

(** The locked section of [consume]: expired entries are removed whether or
    not the nonce is then accepted. *)
Definition consume_locked (nonce : pystr) (timestamp now max_age : Z) (c : NonceCache)
    : result unit * NonceCache :=
  let c := drop_expired now c in
  if dict_mem nonce (entries c) then (Raise (protocol_error "replayed nonce"), c)
  else if max_entries c <=? zlen (entries c)
  then (Raise (protocol_error "nonce cache capacity exceeded"), c)
  else (Ok tt, mkCache (max_entries c) (dict_set nonce (timestamp + max_age) (entries c))).

Definition consume (nonce timestamp now max_age : pyval) (c : NonceCache)
    : result unit * NonceCache :=
  match (n ← validate_bounded_string nonce "nonce" MAX_NONCE_LENGTH;
         t ← validate_timestamp timestamp "timestamp";
         w ← validate_timestamp now "current time";
         a ← validate_max_age max_age;
         Ok (n, t, w, a)) with
  | Raise e => (Raise e, c)
  | Ok (n, t, w, a) => consume_locked n t w a c
  end.

(** ** Verification *)

(** Everything [verify_message] checks before the nonce: the message's fields
    and its timestamp. *)
Definition authenticate (message : pyval) (secret : bytes) (now max_age : pyval)
    : result (pydict * Z) :=
  _ ← validate_secret secret;
  d ← of_option (as_dict message) (protocol_error "invalid signature");
  signature ← of_option (is_valid_signature (get_or_none SIGNATURE d))
                (protocol_error "invalid signature");
  body ← except (canonical_bytes (PDict d))
           (fun e => if is_ProtocolError e then Some (Raise (protocol_error "invalid signature"))
                     else None);
  _ ← guard_exn (str_eqb signature (hmac_hexdigest secret body))
        (protocol_error "invalid signature");
  _ ← validate_request_schema d;
  w ← validate_timestamp now "current time";
  a ← validate_max_age max_age;
  timestamp ← of_option (isinstance_int (item d "timestamp")) (protocol_error "invalid timestamp");
  if timestamp <? w - a then Raise (protocol_error "expired request")
  else if w + a <? timestamp
  then Raise (protocol_error "request timestamp is too far in the future")
  else Ok (d, timestamp).

Definition verify_message (message : pyval) (secret : bytes) (now max_age : pyval) (c : NonceCache)
    : result pydict * NonceCache :=
  match authenticate message secret now max_age with
  | Raise e => (Raise e, c)
  | Ok (d, timestamp) =>
      match consume (item d "nonce") (PInt timestamp) now max_age c with
      | (Raise e, c') => (Raise e, c')
      | (Ok _, c') => (Ok (dict_del SIGNATURE d), c')
      end
  end.

(** ** Frames *)

Definition json_payload (message : pyval) : result bytes :=
  match as_dict message with
  | None => Raise (protocol_error "frame must contain a JSON object")
  | Some d =>
      payload ← except_json (_ ← validate_json_tree (PDict d); dumps (compact false) (PDict d))
                  "invalid frame JSON";
      if MAX_FRAME_SIZE <? zlen payload then Raise (protocol_error "frame too large")
      else Ok payload
  end.

(** [struct.pack(">I", n)] and the whole frame *)
Definition encode_frame (message : pyval) : result bytes :=
  payload ← json_payload message;
  Ok (be_bytes 4 (zlen payload) ++ payload).

(** A byte stream: [recv n] answers a chunk or raises. *)
Class Reader (R : Type) := recv : Z -> R -> result bytes * R.

Section Reading.
Context {R : Type} `{Reader R}.

Definition read_chunk (size : Z) (reader : R) : result bytes * R :=
  let '(chunk, reader) := recv size reader in
  (except chunk (fun e => if is_OSError e || is_ValueError e
                          then Some (Raise (protocol_error "frame read failed")) else None), reader).

(** The loop of [_read_exact], with what is read so far. *)
Fixpoint read_loop (fuel : nat) (remaining : Z) (buffer : bytes) (reader : R)
    : result bytes * R :=
  if remaining <=? 0 then (Ok buffer, reader)
  else match fuel with
       | O => (Raise out_of_fuel, reader)
       | S k =>
           match read_chunk remaining reader with
           | (Raise e, reader) => (Raise e, reader)
           | (Ok chunk, reader) =>
               match chunk with
               | [] => (Raise (protocol_error "unexpected EOF while reading frame"), reader)
               | _ => if remaining <? zlen chunk
                      then (Raise (protocol_error "frame read failed"), reader)
                      else read_loop k (remaining - zlen chunk) (buffer ++ chunk) reader
               end
           end
       end.

Definition read_exact (size : Z) (reader : R) : result bytes * R :=
  read_loop (Z.to_nat size) size [] reader.

(** [_reject_duplicate_keys] *)
Fixpoint reject_duplicate_keys (result : pydict) (pairs : list (pystr * pyval)) : option pydict :=
  match pairs with
  | [] => Some result
  | (key, value) :: rest =>
      if dict_mem key result then None
      else reject_duplicate_keys (dict_set key value result) rest
  end.

Definition parse_finite_float (value : pystr) : option pyval :=
  let parsed := parse_float value in
  if isfinite parsed then Some (PFloat parsed) else None.

Definition strict_hooks : load_hooks :=
  {| parse_constant := fun _ => None;
     parse_number := parse_finite_float;
     object_pairs_hook := fun pairs => d ← reject_duplicate_keys [] pairs; Some (PDict d) |}.

(** The body of a frame. *)
Definition decode_payload (payload : bytes) : result pydict :=
  message ← except_json
    (text ← of_option (utf8_decode payload) (UnicodeError []);
     message ← of_option (loads strict_hooks text) (ValueError []);
     _ ← validate_json_tree message;
     Ok message) "invalid frame JSON";
  of_option (as_dict message) (protocol_error "frame must contain a JSON object").

Definition read_frame (reader : R) : result pydict * R :=
  match read_exact 4 reader with
  | (Raise e, reader) => (Raise e, reader)
  | (Ok header, reader) =>
      let length := be_value header in
      if length =? 0 then (Raise (protocol_error "invalid frame length"), reader)
      else if MAX_FRAME_SIZE <? length then (Raise (protocol_error "frame too large"), reader)
      else match read_exact length reader with
           | (Raise e, reader) => (Raise e, reader)
           | (Ok payload, reader) => (decode_payload payload, reader)
           end
  end.
End Reading.

(** What a stream promises: while it holds data, [recv n] answers a non-empty
    prefix of at most [n] bytes and keeps the rest; at the end, no bytes. *)
Class ReaderSpec (R : Type) `{Reader R} (holds : R -> bytes -> Prop) : Prop :=
  recv_spec : forall n reader data, holds reader data -> 0 < n ->
    exists chunk rest reader', recv n reader = (Ok chunk, reader') /\ data = chunk ++ rest /\
      zlen chunk <= n /\ (data <> [] -> chunk <> []) /\ holds reader' rest.

(** A stream that delivers at most so many bytes at a time, in turn. *)
Record Chunked := mkChunked { pending : bytes; pace : list nat }.

#[export] Instance chunked_reader : Reader Chunked := fun n r =>
  let size := match pace r with k :: _ => Nat.min (S k) (Z.to_nat n) | [] => Z.to_nat n end in
  (Ok (take size (pending r)), mkChunked (drop size (pending r)) (tl (pace r))).

(** ** Writers *)

(** A socket has [sendall]; another writer has [write], which may take only a
    part and answers how much ([None] for a value that is not an integer), and
    perhaps [flush]. *)
Record writer_ops (W : Type) := {
  sendall : option (bytes -> W -> result unit * W);
  write : option (bytes -> W -> result (option Z) * W);
  flush : option (W -> result unit * W);
}.
Arguments sendall {W}.
Arguments write {W}.
Arguments flush {W}.

Section Writing.
Context {W : Type} (ops : writer_ops W).

Definition write_failure (e : exn) : bool := is_OSError e || is_ValueError e.

Fixpoint write_loop (write : bytes -> W -> result (option Z) * W) (fuel : nat) (view : bytes) (w : W)
    : result unit * W :=
  match view, fuel with
  | [], _ => (Ok tt, w)
  | _, O => (Raise out_of_fuel, w)
  | _, S k =>
      match write view w with
      | (Raise e, w) => (Raise e, w)
      | (Ok None, w) => (Raise (protocol_error "frame write failed"), w)
      | (Ok (Some n), w) =>
          if n <=? 0 then (Raise (protocol_error "frame write failed"), w)
          else write_loop write k (drop (Z.to_nat n) view) w
      end
  end.

Definition except_write (failure : exn -> bool) (m : result unit * W) : result unit * W :=
  (except (fst m) (fun e => if failure e then Some (Raise (protocol_error "frame write failed"))
                            else None), snd m).

Definition write_frame (message : pyval) (w : W) : result unit * W :=
  match encode_frame message with
  | Raise e => (Raise e, w)
  | Ok frame =>
      match sendall ops, write ops with
      | Some sendall, _ => except_write is_OSError (sendall frame w)
      | None, None => (Raise (protocol_error "invalid frame writer"), w)
      | None, Some write =>
          except_write write_failure
            match write_loop write (length frame) frame w with
            | (Raise e, w) => (Raise e, w)
            | (Ok _, w) => match flush ops with Some flush => flush w | None => (Ok tt, w) end
            end
      end
  end.
End Writing.

(** ** Lemmas: JSON trees *)

(** The recursive reference for [_validate_json_tree]. *)
Fixpoint tree_ok (depth : Z) (v : pyval) : bool :=
  (depth <=? MAX_JSON_DEPTH) &&
  match v with
  | PList l => forallb (tree_ok (depth + 1)) l
  | PDict d => forallb (fun p => tree_ok (depth + 1) (snd p)) d
  | PFloat f => isfinite f
  | _ => true
  end.

Definition entry_cost (x : pyval * bool * Z) : nat :=
  let '(v, leaving, _) := x in if leaving then 1 else 2 * json_size v.
Definition entry_ok (x : pyval * bool * Z) : bool :=
  let '(v, leaving, depth) := x in leaving || tree_ok depth v.

Lemma list_sum_cost (l : list pyval) depth :
  list_sum (map entry_cost (map (fun v => (v, false, depth)) l)) = (2 * list_sum (map json_size l))%nat.
Proof. induction l as [|v l IH]; cbn [map list_sum foldr entry_cost] in *; [done|]. unfold list_sum in *. cbn in *. lia. Qed.

Lemma list_sum_rev (l : list nat) : list_sum (rev l) = list_sum l.
Proof. induction l as [|x l IH]; cbn [rev]; [done|]. rewrite list_sum_app, IH.
  unfold list_sum. cbn [foldr]. lia. Qed.

Lemma json_size_pos v : (1 <= json_size v)%nat.
Proof. destruct v; cbn; lia. Qed.

(** Pushing the children of a container. *)
Lemma push_children (vs : list pyval) depth c rest :
  list_sum (map entry_cost (rev (map (fun v => (v, false, depth)) vs) ++ (c, true, depth - 1) :: rest))
    = (2 * list_sum (map json_size vs) + 1 + list_sum (map entry_cost rest))%nat /\
  forallb entry_ok (rev (map (fun v => (v, false, depth)) vs) ++ (c, true, depth - 1) :: rest)
    = forallb (tree_ok depth) vs && forallb entry_ok rest.
Proof.
  split.
  - rewrite map_app, list_sum_app, map_rev, list_sum_rev, list_sum_cost. unfold list_sum. cbn [map foldr entry_cost]. lia.
  - rewrite forallb_app, forallb_rev. cbn [forallb entry_ok orb andb]. f_equal.
    clear. induction vs as [|v vs IH]; [done|]. cbn [map forallb entry_ok orb]. by rewrite IH.
Qed.

Lemma json_tree_loop_spec fuel stack :
  (list_sum (map entry_cost stack) <= fuel)%nat ->
  json_tree_loop fuel stack = Ok tt /\ forallb entry_ok stack = true \/
  exists m, json_tree_loop fuel stack = Raise (ValueError m) /\ forallb entry_ok stack = false.
Proof.
  revert stack. induction fuel as [|k IH]; intros stack Hf.
  { destruct stack as [|[[v []] d] rest]; [by left|cbn in Hf; lia|].
    cbn in Hf. pose proof (json_size_pos v). unfold list_sum in Hf. lia. }
  destruct stack as [|[[v leaving] depth] rest]; [by left|]. cbn [json_tree_loop].
  assert (Hcost : (entry_cost (v, leaving, depth) + list_sum (map entry_cost rest) <= S k)%nat) by exact Hf.
  destruct leaving; cbn [entry_cost] in Hcost.
  { destruct (IH rest ltac:(lia)) as [[-> H]|(m & -> & H)]; [left|right; exists m]; done. }
  cbn [forallb entry_ok orb]. destruct (Z.ltb_spec MAX_JSON_DEPTH depth) as [Hd|Hd].
  { right. eexists. split; [done|]. apply andb_false_iff. left.
    destruct v; cbn [tree_ok]; by rewrite (proj2 (Z.leb_gt _ _)). }
  assert (Hdepth : depth <=? MAX_JSON_DEPTH = true) by by apply Z.leb_le.
  pose proof (json_size_pos v).
  assert (Hleaf : forall b, tree_ok depth v = b -> b = true ->
    json_tree_loop k rest = Ok tt /\ tree_ok depth v && forallb entry_ok rest = true \/
    exists m, json_tree_loop k rest = Raise (ValueError m) /\
      tree_ok depth v && forallb entry_ok rest = false).
  { intros b -> ->. destruct (IH rest ltac:(lia)) as [[-> H']|(m & -> & H')];
      [left|right; exists m]; done. }
  destruct v as [|b|n|f|s|l|d]; try (eapply Hleaf; [cbn [tree_ok]; rewrite Hdepth|]; done).
  - destruct (isfinite f) eqn:Hf'; [eapply Hleaf; [cbn [tree_ok]; by rewrite Hdepth|done]|].
    right. eexists. split; [done|]. cbn [tree_ok]. by rewrite Hf', andb_false_r.
  - cbn [tree_ok]. rewrite Hdepth. cbn [andb].
    destruct (push_children l (depth + 1) (PList l) rest) as [Hc Ho].
    replace (depth + 1 - 1) with depth in * by lia.
    rewrite <- Ho. apply IH. rewrite Hc. cbn [json_size] in *. lia.
  - cbn [tree_ok]. rewrite Hdepth. cbn [andb].
    destruct (push_children (map snd d) (depth + 1) (PDict d) rest) as [Hc Ho].
    replace (depth + 1 - 1) with depth in * by lia.
    rewrite map_map in Hc, Ho.
    assert (E : forallb (tree_ok (depth + 1)) (map snd d) = forallb (fun p => tree_ok (depth + 1) (snd p)) d)
      by (clear; induction d as [|p d IH]; cbn [map forallb]; [done|by rewrite IH]).
    rewrite E in Ho. rewrite <- Ho. apply IH. rewrite Hc, map_map. cbn [json_size] in *. lia.
Qed.

(** [_validate_json_tree] accepts exactly the trees of depth at most 256 whose
    floats are finite, and otherwise raises [ValueError]. *)
Lemma validate_json_tree_spec v :
  validate_json_tree v = Ok tt /\ tree_ok 0 v = true \/
  exists m, validate_json_tree v = Raise (ValueError m) /\ tree_ok 0 v = false.
Proof.
  unfold validate_json_tree.
  destruct (json_tree_loop_spec (2 * json_size v) [(v, false, 0)]) as [[H1 H2]|(m & H1 & H2)].
  - cbn. lia.
  - left. cbn in H2. by rewrite andb_true_r in H2.
  - right. exists m. cbn in H2. by rewrite andb_true_r in H2.
Qed.

Lemma validate_json_tree_Ok v u : validate_json_tree v = Ok u <-> tree_ok 0 v = true.
Proof.
  destruct u. destruct (validate_json_tree_spec v) as [[H1 H2]|(m & H1 & H2)]; rewrite H1, H2; done.
Qed.

Lemma except_json_Ok {A} (m : result A) s a : except_json m s = Ok a <-> m = Ok a.
Proof. destruct m as [|e]; cbn; [done|]. by destruct (json_failure e). Qed.

(** The encoders raise nothing but [ProtocolError]. *)
Lemma tree_dumps_failure style v :
  match except_json (_ ← validate_json_tree v; dumps style v) "m" with
  | Ok _ => True | Raise e => e = protocol_error "m" end.
Proof.
  destruct (validate_json_tree_spec v) as [[-> _]|(m & -> & _)]; [|done].
  cbn [mbind result_bind]. unfold dumps. by destruct (encodable _ _).
Qed.

(** ** Lemmas: ASCII *)

Lemma is_ascii_app a b : is_ascii (a ++ b) = is_ascii a && is_ascii b.
Proof. unfold is_ascii. by rewrite forallb_app. Qed.

Lemma is_ascii_In s : is_ascii s = true <-> forall c, In c s -> 0 <= c < 128.
Proof.
  unfold is_ascii. rewrite forallb_forall. split; intros H c Hc; specialize (H c Hc).
  - split_bools. lia.
  - apply andb_true_iff. split; [apply Z.leb_le|apply Z.ltb_lt]; lia.
Qed.

Lemma is_ascii_dec n : is_ascii (dec n) = true.
Proof.
  apply is_ascii_In. intros c [H| ->]%dec_chars; [|lia]. unfold is_digit in H. split_bools. lia.
Qed.

Lemma is_ascii_sub (s t : pystr) : (forall c, In c t -> In c s) -> is_ascii s = true -> is_ascii t = true.
Proof. rewrite !is_ascii_In. auto. Qed.

Lemma lstrip_incl p s c : In c (lstrip_with p s) -> In c s.
Proof. induction s as [|x s IH]; cbn; [done|]. destruct (p x); [|done]. intros H. right. auto. Qed.

Lemma is_ascii_rstrip p s : is_ascii s = true -> is_ascii (rstrip_with p s) = true.
Proof.
  apply is_ascii_sub. intros c H. unfold rstrip_with in H.
  apply in_rev, lstrip_incl, in_rev in H. done.
Qed.

Lemma is_ascii_zeros n : is_ascii (zeros n) = true.
Proof. apply is_ascii_In. intros c H. unfold zeros in H. apply repeat_spec in H as ->. lia. Qed.

Lemma is_ascii_take n s : is_ascii s = true -> is_ascii (take n s) = true.
Proof.
  apply is_ascii_sub. intros c H. rewrite <- (take_drop n s). apply in_or_app. by left.
Qed.
Lemma is_ascii_drop n s : is_ascii s = true -> is_ascii (drop n s) = true.
Proof.
  apply is_ascii_sub. intros c H. rewrite <- (take_drop n s). apply in_or_app. by right.
Qed.

Lemma is_ascii_layout digits decpt : is_ascii digits = true -> is_ascii (layout digits decpt) = true.
Proof.
  intros H. assert (Ht : forall n, is_ascii (two_digits n) = true).
  { intros n. unfold two_digits. destruct (n <? 10); [|apply is_ascii_dec].
    apply (is_ascii_dec n). }
  unfold layout. repeat case_match; rewrite ?is_ascii_app, ?is_ascii_zeros, ?is_ascii_take, ?is_ascii_drop by done;
    repeat match goal with |- context [is_ascii (str ?x)] => change (is_ascii (str x)) with true end;
    rewrite ?H, ?Ht, ?andb_true_r; try done; cbn in H |- *; repeat (apply andb_true_iff in H as [? H]);
    by rewrite ?H, ?H0, ?H1, ?H2, ?H3, ?H4, ?andb_true_r.
Qed.

Lemma is_ascii_float f : is_ascii (float_repr f) = true.
Proof.
  assert (Hs : forall k x num den E n, is_ascii (fst (shortest k x num den E n)) = true).
  { induction k as [|k IH]; intros; cbn; destruct (candidate _ _ _ _ _); cbn; auto using is_ascii_dec. }
  destruct f as [[]|[]| |s m e]; try done. unfold float_repr.
  match goal with |- context [shortest ?k ?x ?a ?b ?c ?d] => specialize (Hs k x a b c d);
    destruct (shortest k x a b c d) as [digits decpt] end.
  cbn [fst] in Hs. pose proof (is_ascii_layout _ decpt (is_ascii_rstrip (fun c => c =? 48) _ Hs)) as Hl.
  destruct s; [|done]. exact Hl.
Qed.

Lemma hex_digit_ascii n : 0 <= n < 16 -> 0 <= hex_digit n < 128.
Proof. unfold hex_digit. destruct (Z.ltb_spec n 10); lia. Qed.

Lemma is_ascii_u_escape u : is_ascii (u_escape u) = true.
Proof.
  apply is_ascii_In. unfold u_escape, hex4_text. cbn [In].
  intros c [<-|[<-|[<-|[<-|[<-|[<-|[]]]]]]]; try lia; apply hex_digit_ascii, Z.mod_pos_bound; lia.
Qed.

Lemma is_ascii_quote s : is_ascii (quote true s) = true.
Proof.
  unfold quote. change (34 :: ?x) with ([34] ++ x). rewrite !is_ascii_app. cbn [andb].
  change (is_ascii [34]) with true. rewrite andb_true_r. cbn [andb].
  induction s as [|c s IH]; [done|]. cbn [map concat]. rewrite is_ascii_app, IH, andb_true_r.
  unfold escape_char, short_escape.
  repeat match goal with |- context [c =? ?n] => destruct (c =? n); [done|] end.
  cbn [andb]. rewrite andb_false_r. cbn [orb].
  destruct (Z.leb_spec 32 c), (Z.ltb_spec c 127); cbn [andb];
    [apply is_ascii_In; intros x [<-|[]]; lia|..];
    destruct (c <? 65536); rewrite ?is_ascii_app, ?is_ascii_u_escape; done.
Qed.

Lemma is_ascii_join sep l : is_ascii sep = true -> forallb is_ascii l = true ->
  is_ascii (join sep l) = true.
Proof.
  intros Hs. induction l as [|x [|y l] IH]; [done| |].
  - cbn. by rewrite andb_true_r.
  - rewrite join_cons2. cbn [forallb] in *. intros [Hx Hl]%andb_true_iff.
    by rewrite !is_ascii_app, Hx, Hs, IH.
Qed.

(** The compact style writes ASCII. *)
Lemma is_ascii_value sorted v : is_ascii (value_text (compact sorted) v) = true.
Proof.
  induction v as [|b|n|f|s|l Hl|d Hd] using pyval_induction; cbn [value_text].
  - done.
  - by destruct b.
  - apply is_ascii_dec.
  - destruct f as [|[]| |]; try done; apply is_ascii_float.
  - apply is_ascii_quote.
  - change (91 :: ?x) with ([91] ++ x). rewrite !is_ascii_app. change (is_ascii [91]) with true.
    change (is_ascii [93]) with true. rewrite andb_true_r. apply is_ascii_join; [done|].
    apply forallb_forall. intros x Hx. apply in_map_iff in Hx as (y & <- & Hy).
    rewrite List.Forall_forall in Hl. auto.
  - change (123 :: ?x) with ([123] ++ x). rewrite !is_ascii_app. change (is_ascii [123]) with true.
    change (is_ascii [125]) with true. rewrite andb_true_r. apply is_ascii_join; [done|].
    apply forallb_forall. intros x Hx. apply in_map_iff in Hx as (y & <- & Hy).
    rewrite !is_ascii_app, is_ascii_quote. rewrite List.Forall_forall in Hd. by rewrite (Hd y Hy).
Qed.

(** ** Lemmas: frames *)

Lemma be_value_app a b : be_value (a ++ b) = be_value a * 256 ^ zlen b + be_value b.
Proof.
  unfold be_value. rewrite fold_left_app. generalize (fold_left (fun acc b => acc * 256 + b) a 0) as x.
  revert a. induction b as [|y b IH] using rev_ind; intros _ x;
    [change (zlen (@nil Z)) with 0; cbn [fold_left]; lia|].
  rewrite !fold_left_app. cbn [fold_left]. rewrite (IH [] x), zlen_app. change (zlen [y]) with 1.
  rewrite Z.pow_add_r by (pose proof (zlen_nonneg b); lia). lia.
Qed.

Lemma be_value_bytes n x : 0 <= x < 256 ^ Z.of_nat n -> be_value (be_bytes n x) = x.
Proof.
  revert x. induction n as [|n IH]; intros x Hx; [cbn in *; lia|].
  cbn [be_bytes]. change (?a :: ?b) with ([a] ++ b). rewrite be_value_app.
  unfold zlen at 1. rewrite be_bytes_length.
  assert (Hp : 256 ^ Z.of_nat (S n) = 256 * 256 ^ Z.of_nat n).
  { rewrite Nat2Z.inj_succ, Z.pow_succ_r by lia. done. }
  assert (Hpos : 0 < 256 ^ Z.of_nat n) by (apply Z.pow_pos_nonneg; lia).
  assert (Hshift : Z.shiftr x (8 * Z.of_nat n) = x / 256 ^ Z.of_nat n).
  { rewrite Z.shiftr_div_pow2 by lia. by rewrite Z.pow_mul_r by lia. }
  assert (Hhead : be_value [Z.shiftr x (8 * Z.of_nat n) mod 256] = x / 256 ^ Z.of_nat n).
  { rewrite Hshift. unfold be_value. cbn [fold_left]. rewrite Z.mod_small; [lia|].
    split; [apply Z.div_pos; lia|apply Z.div_lt_upper_bound; lia]. }
  rewrite Hhead. clear Hhead.
  assert (Htail : be_bytes n x = be_bytes n (x mod 256 ^ Z.of_nat n)).
  { clear -Hpos. assert (G : forall m, (m <= n)%nat -> be_bytes m x = be_bytes m (x mod 256 ^ Z.of_nat n)).
    { induction m as [|m IHm]; intros Hm; [done|]. cbn [be_bytes]. f_equal; [|apply IHm; lia].
      change 256 with (2 ^ 8). rewrite <- !Z.pow_mul_r by lia.
      rewrite !Z.shiftr_div_pow2 by lia. rewrite <- !(Z.land_ones _ 8) by lia.
      rewrite <- !Z.shiftr_div_pow2 by lia. rewrite <- Z.land_ones by lia.
      apply Z.bits_inj'. intros i Hi. rewrite !Z.land_spec, !Z.shiftr_spec by lia.
      rewrite Z.land_spec. destruct (Z.testbit (Z.ones 8) i) eqn:E; [|by rewrite !andb_false_r].
      assert (i < 8). { destruct (Z.lt_ge_cases i 8); [done|]. rewrite Z.ones_spec_high in E by lia. done. }
      rewrite (Z.ones_spec_low (8 * Z.of_nat n)) by lia. by rewrite !andb_true_r. }
    apply G. lia. }
  rewrite Htail, IH by (apply Z.mod_pos_bound; lia).
  pose proof (Z.div_mod x (256 ^ Z.of_nat n) ltac:(lia)). lia.
Qed.

Lemma encode_frame_Ok message frame : encode_frame message = Ok frame ->
  exists d, message = PDict d /\ frame = be_bytes 4 (zlen (value_text (compact false) (PDict d)))
      ++ value_text (compact false) (PDict d) /\
    tree_ok 0 (PDict d) = true /\ zlen (value_text (compact false) (PDict d)) <= MAX_FRAME_SIZE.
Proof.
  unfold encode_frame, json_payload. destruct (as_dict message) as [d|] eqn:Hd; [|done].
  destruct message; try done. injection Hd as ->.
  intros (pl & Hp & Hf)%bind_Ok. apply bind_Ok in Hp as (payload & Hp & Ha).
  apply except_json_Ok, bind_Ok in Hp as (u & Ht & Hp).
  apply validate_json_tree_Ok in Ht. unfold dumps in Hp.
  change (sort_keys (compact false)) with false in Hp. cbn iota in Hp.
  destruct (encodable _ _); [|done].
  assert (value_text (compact false) (PDict d) = payload) as <- by congruence. clear Hp.
  exists d. revert Ha Hf. generalize (value_text (compact false) (PDict d)) as text. intros text Ha Hf.
  destruct (Z.ltb_spec MAX_FRAME_SIZE (zlen text)); [done|].
  assert (text = pl) as <- by congruence. split_and!; [done|congruence|done|done].
Qed.

Lemma encodable_ok style v : json_value_ok v = true -> encodable style v = true.
Proof.
  induction v as [| | | | |l Hl|d Hd] using pyval_induction; intros Hv; try done.
  - cbn in *. unfold float_reads_back in Hv. apply andb_true_iff in Hv as [Hv _]. by rewrite Hv.
  - cbn in *. rewrite forallb_forall in *. rewrite List.Forall_forall in Hl. auto.
  - cbn in *. apply andb_true_iff in Hv as [Hv _].
    rewrite forallb_forall in *. rewrite List.Forall_forall in Hd. intros p Hp.
    apply Hd; [done|]. apply Hv in Hp. by apply andb_true_iff in Hp as [_ ?].
Qed.

Lemma reject_duplicate_fresh acc d : NoDup (keys (acc ++ d)) ->
  reject_duplicate_keys acc d = Some (acc ++ d).
Proof.
  revert acc. induction d as [|[k v] d IH]; intros acc H; [by rewrite app_nil_r|].
  cbn [reject_duplicate_keys].
  assert (dict_mem k acc = false) as Hk.
  { apply not_true_is_false. intros Hm%dict_mem_keys%list_elem_of_In.
    unfold keys in H. rewrite map_app in H. cbn [map fst] in H.
    apply NoDup_app in H as (_ & Hd & _). apply (Hd k Hm). by left. }
  rewrite Hk, dict_set_absent by (unfold dict_mem in Hk; by destruct (dict_get k acc)).
  rewrite IH; by rewrite <- app_assoc.
Qed.

Lemma strict_rebuilding : rebuilding strict_hooks.
Proof.
  constructor; cbn.
  - intros d Hd. by rewrite reject_duplicate_fresh.
  - intros f. unfold float_reads_back, parse_finite_float. destruct (isfinite f) eqn:Hf; [|done].
    cbn [andb]. destruct (match_number _) as [[[[sg ip] [|]] []]|]; try done.
    intros [_ H]%andb_true_iff. apply float_eqb_eq in H. by rewrite H, Hf.
Qed.

Lemma decode_payload_text d : json_value_ok (PDict d) = true -> tree_ok 0 (PDict d) = true ->
  decode_payload (value_text (compact false) (PDict d)) = Ok d.
Proof.
  intros Hok Ht. unfold decode_payload.
  rewrite utf8_decode_ascii by apply is_ascii_value. cbn [of_option mbind result_bind].
  rewrite (loads_value_text (compact false) [] []) by (done || apply compact_plain || apply strict_rebuilding).
  cbn [of_option mbind result_bind].
  destruct (validate_json_tree_spec (PDict d)) as [[-> _]|(m & _ & H)]; [done|congruence].
Qed.

(** ** Lemmas: reading *)

Section ReadingLemmas.
Context {R : Type} {holds : R -> bytes -> Prop} `{HR : Reader R} `{!ReaderSpec R holds}.

Lemma read_chunk_holds n reader data : holds reader data -> 0 < n ->
  exists chunk rest reader', read_chunk n reader = (Ok chunk, reader') /\ data = chunk ++ rest /\
    zlen chunk <= n /\ (data <> [] -> chunk <> []) /\ holds reader' rest.
Proof.
  intros Hr Hn. destruct (recv_spec n reader data Hr Hn) as (chunk & rest & r' & E & H).
  exists chunk, rest, r'. unfold read_chunk. by rewrite E.
Qed.

Lemma read_loop_holds fuel n buffer reader data : holds reader data ->
  (Z.to_nat n <= fuel)%nat ->
  if n <=? zlen data
  then exists reader', read_loop fuel n buffer reader = (Ok (buffer ++ take (Z.to_nat n) data), reader')
         /\ holds reader' (drop (Z.to_nat n) data)
  else exists reader', read_loop fuel n buffer reader
         = (Raise (protocol_error "unexpected EOF while reading frame"), reader') /\ holds reader' [].
Proof.
  revert n buffer reader data. induction fuel as [|k IH]; intros n buffer reader data Hr Hf.
  - assert (n <= 0) by lia. pose proof (zlen_nonneg data).
    rewrite (proj2 (Z.leb_le n (zlen data))) by lia. cbn [read_loop].
    rewrite (proj2 (Z.leb_le n 0)) by done. replace (Z.to_nat n) with 0%nat by lia.
    exists reader. by rewrite app_nil_r.
  - cbn [read_loop]. destruct (Z.leb_spec n 0) as [Hn|Hn].
    { pose proof (zlen_nonneg data). rewrite (proj2 (Z.leb_le n (zlen data))) by lia.
      replace (Z.to_nat n) with 0%nat by lia. exists reader. by rewrite app_nil_r. }
    destruct (read_chunk_holds n reader data Hr Hn) as (chunk & rest & r' & -> & -> & Hle & Hne & Hr').
    destruct chunk as [|b chunk].
    { destruct rest as [|x rest]; [|by destruct Hne]. cbn [app].
      change (zlen (@nil Z)) with 0. rewrite (proj2 (Z.leb_gt n 0)) by done. by exists r'. }
    rewrite (proj2 (Z.ltb_ge n (zlen (b :: chunk)))) by done. clear Hne.
    remember (b :: chunk) as c eqn:Ec. assert (0 < zlen c) by (rewrite Ec, zlen_cons; pose proof (zlen_nonneg chunk); lia).
    specialize (IH (n - zlen c) (buffer ++ c) r' rest Hr' ltac:(lia)).
    rewrite zlen_app. destruct (Z.leb_spec n (zlen c + zlen rest)).
    + rewrite (proj2 (Z.leb_le (n - zlen c) (zlen rest))) in IH by lia.
      destruct IH as (r'' & -> & Hr''). exists r''.
      assert (E : Z.to_nat n = (length c + Z.to_nat (n - zlen c))%nat) by (unfold zlen in *; lia).
      rewrite E, take_app_add, drop_app_add, app_assoc. done.
    + rewrite (proj2 (Z.leb_gt (n - zlen c) (zlen rest))) in IH by lia.
      destruct IH as (r'' & -> & Hr''). by exists r''.
Qed.

Lemma read_exact_holds n reader data : holds reader data ->
  if n <=? zlen data
  then exists reader', read_exact n reader = (Ok (take (Z.to_nat n) data), reader')
         /\ holds reader' (drop (Z.to_nat n) data)
  else exists reader', read_exact n reader
         = (Raise (protocol_error "unexpected EOF while reading frame"), reader') /\ holds reader' [].
Proof. intros H. by apply (read_loop_holds _ n [] reader data H). Qed.

Lemma read_exact_app n reader a b : holds reader (a ++ b) -> zlen a = n ->
  exists reader', read_exact n reader = (Ok a, reader') /\ holds reader' b.
Proof.
  intros H Hn. pose proof (read_exact_holds n _ _ H) as E. pose proof (zlen_nonneg b).
  rewrite zlen_app, (proj2 (Z.leb_le n _)) in E by lia.
  assert (Z.to_nat n = length a) as Ht by (unfold zlen in Hn; lia).
  by rewrite Ht, take_app_length, drop_app_length in E.
Qed.
End ReadingLemmas.

#[export] Instance chunked_spec : ReaderSpec Chunked (fun r data => pending r = data).
Proof.
  intros n [p sizes] data <- Hn. unfold recv, chunked_reader. cbn [pending pace].
  set (size := match sizes with k :: _ => Nat.min (S k) (Z.to_nat n) | [] => Z.to_nat n end).
  assert (0 < size <= Z.to_nat n)%nat by (subst size; destruct sizes; lia).
  exists (take size p), (drop size p). eexists. split; [reflexivity|].
  rewrite take_drop. split_and!; try done.
  - unfold zlen. rewrite length_take. lia.
  - intros Hp. destruct p; [done|]. by destruct size; [lia|].
Qed.

(** ** Lemmas: nonces *)

Record cache_ok (c : NonceCache) : Prop := {
  cache_capacity : zlen (entries c) <= max_entries c;
  cache_keys : NoDup (keys (entries c));
}.

Lemma filter_length_zlen {A} (p : A -> bool) l : zlen (List.filter p l) <= zlen l.
Proof. unfold zlen. induction l as [|x l IH]; cbn; [lia|]. destruct (p x); cbn in *; lia. Qed.

Lemma keys_filter_NoDup {V} (p : pystr * V -> bool) (l : list (pystr * V)) : NoDup (keys l) ->
  NoDup (keys (List.filter p l)).
Proof.
  unfold keys. induction l as [|x l IH]; cbn; [done|]. intros [Hx Hl]%NoDup_cons.
  destruct (p x); cbn; [|auto]. constructor; [|auto].
  rewrite list_elem_of_In in *. intros (y & Hy & [Hin _]%filter_In)%in_map_iff.
  apply Hx, in_map_iff. by exists y.
Qed.

Lemma drop_expired_ok now c : cache_ok c -> cache_ok (drop_expired now c).
Proof.
  intros [H1 H2]. constructor; cbn.
  - etrans; [apply filter_length_zlen|done].
  - by apply keys_filter_NoDup.
Qed.

Lemma consume_locked_cases nonce t now a c :
  let c1 := drop_expired now c in
  dict_mem nonce (entries c1) = true /\
    consume_locked nonce t now a c = (Raise (protocol_error "replayed nonce"), c1) \/
  dict_mem nonce (entries c1) = false /\ max_entries c <= zlen (entries c1) /\
    consume_locked nonce t now a c = (Raise (protocol_error "nonce cache capacity exceeded"), c1) \/
  dict_mem nonce (entries c1) = false /\ zlen (entries c1) < max_entries c /\
    consume_locked nonce t now a c
    = (Ok tt, mkCache (max_entries c) (entries c1 ++ [(nonce, t + a)])).
Proof.
  unfold consume_locked. cbn zeta. destruct (dict_mem _ _) eqn:Hm; [by left|right].
  cbn [drop_expired max_entries]. destruct (Z.leb_spec (max_entries c) (zlen (entries (drop_expired now c))));
    [by left|right].
  rewrite dict_set_absent by (unfold dict_mem in Hm; by destruct (dict_get nonce _)). done.
Qed.

Lemma consume_locked_ok nonce t now a c : cache_ok c -> cache_ok (snd (consume_locked nonce t now a c)).
Proof.
  intros Hc. pose proof (drop_expired_ok now c Hc) as [H1 H2].
  destruct (consume_locked_cases nonce t now a c) as [[_ ->]|[(_ & _ & ->)|(Hm & Hlt & ->)]]; [done..|].
  constructor; cbn [entries max_entries snd].
  - rewrite zlen_app. change (zlen [(nonce, t + a)]) with 1. lia.
  - unfold keys. rewrite map_app. apply NoDup_app. split_and!; [done| |apply NoDup_singleton].
    intros x Hx ->%list_elem_of_singleton. cbn [fst] in Hx.
    apply list_elem_of_In, dict_mem_keys in Hx. by rewrite Hx in Hm.
Qed.

Lemma consume_ok nonce t now a c : cache_ok c -> cache_ok (snd (consume nonce t now a c)).
Proof.
  intros Hc. unfold consume. destruct (_ ≫= _) as [[[[n t'] w] a']|e]; [|done].
  by apply consume_locked_ok.
Qed.

Lemma verify_message_cache_ok message secret now a c : cache_ok c ->
  cache_ok (snd (verify_message message secret now a c)).
Proof.
  intros Hc. unfold verify_message. destruct (authenticate _ _ _ _) as [[d t]|e]; [|done].
  pose proof (consume_ok (item d "nonce") (PInt t) now a c Hc) as H.
  by destruct (consume _ _ _ _ _) as [[]].
Qed.

(** ** Specification of an acceptable request *)

Definition bounded (maximum : Z) (s : pystr) : Prop := strip s <> [] /\ zlen s <= maximum.

Record well_formed_request (d : pydict) (nonce : pystr) (timestamp : Z) : Prop := {
  wf_version : item d "protocol_version" = PInt PROTOCOL_VERSION;
  wf_required : forall k, In k REQUIRED_REQUEST_FIELDS -> In k (keys d);
  wf_known : forall k, In k (keys d) -> In k (REQUIRED_REQUEST_FIELDS ++ OPTIONAL_REQUEST_FIELDS);
  wf_request_id : exists s, item d "request_id" = PStr s /\ bounded MAX_REQUEST_ID_LENGTH s;
  wf_action : exists s, item d "action" = PStr s /\ bounded MAX_ACTION_LENGTH s;
  wf_parameters : exists p, item d "parameters" = PDict p;
  wf_timestamp : item d "timestamp" = PInt timestamp /\ 0 <= timestamp <= MAX_TIMESTAMP;
  wf_nonce : item d "nonce" = PStr nonce /\ bounded MAX_NONCE_LENGTH nonce;
  wf_approval : In (str "approval") (keys d) -> exists a, item d "approval" = PDict a;
}.

(** Signed with the secret, well formed, and inside the time window. *)
Record authentic (secret : bytes) (now max_age : Z) (d : pydict) (nonce : pystr) (timestamp : Z)
    : Prop := {
  au_secret : MIN_SECRET_SIZE <= zlen secret;
  au_signature : exists body, canonical_bytes (PDict d) = Ok body /\
    get_or_none SIGNATURE d = PStr (hmac_hexdigest secret body);
  au_request : well_formed_request d nonce timestamp;
  au_clock : 0 <= now <= MAX_TIMESTAMP /\ 0 <= max_age <= MAX_AGE;
  au_window : now - max_age <= timestamp <= now + max_age;
}.

Lemma validate_bounded_string_Ok v name m s :
  validate_bounded_string v name m = Ok s <-> v = PStr s /\ bounded m s.
Proof.
  unfold validate_bounded_string, bounded. destruct (as_str v) as [t|] eqn:Ht; destruct v; try done.
  2-7: by split; [|intros [? _]].
  injection Ht as ->. cbn [truthy].
  destruct (strip t) as [|c r] eqn:E, (Z.ltb_spec m (zlen t)); cbn [negb orb];
    (split; [intros [= <-]|intros [[= <-] [? ?]]]); rewrite ?E in *; try done; try lia.
Qed.

Lemma bounded_int_Ok v name m n : bounded_int v name m = Ok n <-> v = PInt n /\ 0 <= n <= m.
Proof.
  unfold bounded_int. destruct v; cbn [is_bool isinstance_int]; try (by split; [|intros [? _]]).
  destruct (Z.leb_spec 0 n0), (Z.leb_spec n0 m); cbn [andb];
    (split; [intros [= <-]|intros [[= <-] ?]]); try done; lia.
Qed.

Lemma bounded_Raise {v name m e} : validate_bounded_string v name m = Raise e -> is_ProtocolError e = true.
Proof.
  unfold validate_bounded_string. destruct (as_str v); [|by intros [= <-]].
  destruct (_ || _); [by intros [= <-]|done].
Qed.

Lemma bounded_int_Raise {v name m e} : bounded_int v name m = Raise e -> is_ProtocolError e = true.
Proof.
  unfold bounded_int. destruct (is_bool v); [by intros [= <-]|].
  destruct (isinstance_int v); [|by intros [= <-]]. by destruct (_ && _); [|intros [= <-]].
Qed.

Lemma as_dict_Some v d : as_dict v = Some d <-> v = PDict d.
Proof. destruct v; cbn; split; congruence. Qed.

Lemma except_protocol_Ok {A} (m : result A) s a :
  except m (fun e => if is_ProtocolError e then Some (Raise (protocol_error s)) else None) = Ok a
  <-> m = Ok a.
Proof. destruct m as [|e]; cbn; [done|]. by destruct (is_ProtocolError e). Qed.

Lemma dict_mem_false k (d : pydict) : dict_mem k d = false <-> ~ In k (keys d).
Proof. rewrite <- dict_mem_keys. by destruct (dict_mem k d). Qed.

Lemma validate_request_fields_Ok d u : validate_request_fields d = Ok u <->
  (exists s, item d "request_id" = PStr s /\ bounded MAX_REQUEST_ID_LENGTH s) /\
  (exists s, item d "action" = PStr s /\ bounded MAX_ACTION_LENGTH s) /\
  (exists p, item d "parameters" = PDict p) /\
  (exists t, item d "timestamp" = PInt t /\ 0 <= t <= MAX_TIMESTAMP) /\
  (exists n, item d "nonce" = PStr n /\ bounded MAX_NONCE_LENGTH n) /\
  (In (str "approval") (keys d) -> exists a, item d "approval" = PDict a).
Proof.
  destruct u. unfold validate_request_fields, validate_timestamp. split.
  - intros (s1 & H1%validate_bounded_string_Ok & H)%bind_Ok.
    apply bind_Ok in H as (s2 & H2%validate_bounded_string_Ok & H).
    apply bind_Ok in H as (p & H3%of_option_Ok%as_dict_Some & H).
    apply bind_Ok in H as (t & H4%bounded_int_Ok & H).
    apply bind_Ok in H as (n & H5%validate_bounded_string_Ok & H).
    split_and!; eauto. intros Hin%dict_mem_keys. rewrite Hin in H.
    apply bind_Ok in H as (a & H6%of_option_Ok%as_dict_Some & _). eauto.
  - intros ((s1 & H1) & (s2 & H2) & (p & H3) & (t & H4) & (n & H5) & H6).
    apply (validate_bounded_string_Ok _ "request_id") in H1 as ->.
    apply (validate_bounded_string_Ok _ "action") in H2 as ->. rewrite H3.
    apply (bounded_int_Ok _ "timestamp") in H4 as ->.
    apply (validate_bounded_string_Ok _ "nonce") in H5 as ->. cbn [mbind result_bind of_option as_dict].
    destruct (dict_mem _ _) eqn:Hm; [|done]. apply dict_mem_keys, H6 in Hm as (a & ->). done.
Qed.

Lemma validate_request_schema_Ok d u :
  validate_request_schema d = Ok u <-> exists nonce t, well_formed_request d nonce t.
Proof.
  destruct u. unfold validate_request_schema. split.
  - intros (u & H1 & H)%bind_Ok. apply bind_Ok in H as (u' & H2 & H).
    apply except_protocol_Ok, validate_request_fields_Ok in H as (H3 & H4 & H5 & (t & H6) & (n & H7) & H8).
    apply guard_exn_Ok in H1, H2. apply andb_true_iff in H2 as [H2 H2'].
    exists n, t. constructor; try done.
    + destruct (item d "protocol_version"); try done. cbn in H1. apply Z.eqb_eq in H1. congruence.
    + intros k Hk. unfold keys_superset in H2. rewrite forallb_forall in H2. by apply dict_mem_keys, H2.
    + intros k Hk. unfold keys_subset in H2'. rewrite forallb_forall in H2'. by apply str_in_In, H2'.
  - intros (n & t & [H1 H2 H3 H4 H5 H6 H7 H8 H9]).
    rewrite H1. cbn [is_bool isinstance_int]. rewrite Z.eqb_refl. cbn [negb andb guard_exn mbind result_bind].
    assert (keys_superset d REQUIRED_REQUEST_FIELDS = true) as ->.
    { apply forallb_forall. intros k Hk. by apply dict_mem_keys, H2. }
    assert (keys_subset d (REQUIRED_REQUEST_FIELDS ++ OPTIONAL_REQUEST_FIELDS) = true) as ->.
    { apply forallb_forall. intros k Hk. by apply str_in_In, H3. }
    cbn [andb guard_exn mbind result_bind].
    apply except_protocol_Ok, validate_request_fields_Ok. split_and!; eauto.
Qed.

Lemma lower_hex_signature s : length s = 64%nat -> forallb is_lower_hex s = true ->
  is_valid_signature (PStr s) = Some s.
Proof.
  intros Hl Hh. unfold is_valid_signature. cbn [as_str mbind option_bind].
  assert (zlen s =? SIGNATURE_LENGTH = true) as -> by (unfold zlen; rewrite Hl; done).
  assert (Hc : forall c, In c s -> is_lower_hex c = true) by by apply forallb_forall.
  assert (is_ascii s = true) as ->.
  { apply is_ascii_In. intros c H%Hc. unfold is_lower_hex, is_digit in H.
    apply orb_true_iff in H as [H|H]; split_bools; lia. }
  assert (forallb is_hex_digit s = true) as ->; [|done].
  apply forallb_forall. intros c H%Hc. unfold is_lower_hex in H. unfold is_hex_digit. by rewrite H.
Qed.

Lemma is_valid_signature_Some v s : is_valid_signature v = Some s -> v = PStr s.
Proof.
  unfold is_valid_signature. destruct v; try done. cbn. by destruct (_ && _); [intros [= <-]|].
Qed.

Lemma authenticate_Ok message secret now a d t :
  authenticate message secret now a = Ok (d, t) <->
  exists w age nonce, now = PInt w /\ a = PInt age /\ message = PDict d /\
    authentic secret w age d nonce t.
Proof.
  unfold authenticate, validate_timestamp, validate_max_age. split.
  - intros (u & H1 & H)%bind_Ok. apply bind_Ok in H as (d' & H2%of_option_Ok%as_dict_Some & H).
    apply bind_Ok in H as (s & H3%of_option_Ok%is_valid_signature_Some & H).
    apply bind_Ok in H as (body & H4%except_protocol_Ok & H).
    apply bind_Ok in H as (u' & H5%guard_exn_Ok%str_eqb_eq & H).
    apply bind_Ok in H as (u'' & (nonce & t' & H6)%validate_request_schema_Ok & H).
    apply bind_Ok in H as (w & H7%bounded_int_Ok & H). apply bind_Ok in H as (age & H8%bounded_int_Ok & H).
    apply bind_Ok in H as (t'' & H9%of_option_Ok & H).
    destruct (Z.ltb_spec t'' (w - age)); [done|]. destruct (Z.ltb_spec (w + age) t''); [done|].
    injection H as -> ->. destruct (wf_timestamp _ _ _ H6) as [Ht _].
    rewrite Ht in H9. injection H9 as ->. unfold validate_secret in H1. apply guard_exn_Ok in H1.
    exists w, age, nonce. destruct H7, H8. split_and!; try done. constructor; try done.
    + by apply Z.leb_le.
    + exists body. split; [done|]. congruence.
  - intros (w & age & nonce & -> & -> & -> & [H1 (body & H2 & H3) H4 [H5 H6] H7]).
    unfold validate_secret. rewrite (proj2 (Z.leb_le _ _)) by done.
    cbn [guard_exn mbind result_bind as_dict of_option]. rewrite H3, H2.
    destruct (hmac_hexdigest_shape secret body) as [Hl Hh].
    rewrite lower_hex_signature by done. cbn [of_option mbind result_bind except].
    rewrite str_eqb_refl. cbn [guard_exn mbind result_bind].
    assert (validate_request_schema d = Ok tt) as ->.
    { apply validate_request_schema_Ok. eauto. }
    cbn [mbind result_bind]. rewrite !(proj2 (bounded_int_Ok _ _ _ _)) by (split; [reflexivity|done]).
    cbn [mbind result_bind]. destruct (wf_timestamp _ _ _ H4) as [-> _].
    cbn [isinstance_int of_option mbind result_bind].
    rewrite (proj2 (Z.ltb_ge _ _)), (proj2 (Z.ltb_ge _ _)) by lia. done.
Qed.

(** What a consumed nonce needs. *)
Lemma consume_authentic secret w age d nonce t c : authentic secret w age d nonce t ->
  consume (item d "nonce") (PInt t) (PInt w) (PInt age) c = consume_locked nonce t w age c.
Proof.
  intros [_ _ H [Hw Ha] _]. destruct (wf_nonce _ _ _ H) as [-> Hn], (wf_timestamp _ _ _ H) as [_ Ht].
  unfold consume, validate_timestamp, validate_max_age.
  rewrite (proj2 (validate_bounded_string_Ok _ _ _ nonce)) by done. cbn [mbind result_bind].
  rewrite !(proj2 (bounded_int_Ok _ _ _ _)) by (split; [reflexivity|done]).
  done.
Qed.

(** ** Sessions: verifications one after the other on one cache *)

Definition session (secret : bytes) (max_age : Z) (calls : list (pyval * Z)) (c : NonceCache)
    : NonceCache :=
  fold_left (fun c '(message, now) => snd (verify_message message secret (PInt now) (PInt max_age) c))
    calls c.

(** The clock does not run backwards. *)
Fixpoint not_before (w : Z) (clock : list Z) : Prop :=
  match clock with [] => True | now :: r => w <= now /\ not_before now r end.

(** The nonce is remembered, or its time has passed. *)
Definition spent (nonce : pystr) (expiry now : Z) (c : NonceCache) : Prop :=
  dict_get nonce (entries c) = Some expiry \/ expiry < now.

Lemma dict_get_filter_keep {V} (p : pystr * V -> bool) k v (l : list (pystr * V)) :
  dict_get k l = Some v -> p (k, v) = true -> dict_get k (List.filter p l) = Some v.
Proof.
  induction l as [|[k' v'] l IH]; cbn; [done|]. destruct (str_eqb_spec k k') as [<-|Hne].
  - intros [= ->] ->. cbn. by rewrite str_eqb_refl.
  - intros H Hp. destruct (p (k', v')); cbn; [|auto].
    apply str_eqb_neq in Hne as ->. auto.
Qed.

Lemma dict_get_app {V} k v (l m : list (pystr * V)) :
  dict_get k l = Some v -> dict_get k (l ++ m) = Some v.
Proof. induction l as [|[k' v'] l IH]; cbn; [done|]. destruct (str_eqb k k'); auto. Qed.

Lemma dict_get_last {V} k v (l : list (pystr * V)) :
  dict_get k l = None -> dict_get k (l ++ [(k, v)]) = Some v.
Proof.
  induction l as [|[k' v'] l IH]; cbn; [by rewrite str_eqb_refl|]. destruct (str_eqb k k'); [done|auto].
Qed.

Lemma drop_expired_get n e now c : dict_get n (entries c) = Some e -> now <= e ->
  dict_get n (entries (drop_expired now c)) = Some e.
Proof.
  intros H He. cbn. apply dict_get_filter_keep; [done|]. cbn. apply negb_true_iff, Z.ltb_ge. done.
Qed.

Lemma consume_locked_keeps n e nonce t now a c : dict_get n (entries c) = Some e -> now <= e ->
  dict_get n (entries (snd (consume_locked nonce t now a c))) = Some e.
Proof.
  intros H He. pose proof (drop_expired_get n e now c H He) as Hd.
  destruct (consume_locked_cases nonce t now a c) as [[_ ->]|[(_ & _ & ->)|(_ & _ & ->)]]; [done..|].
  cbn [snd entries]. by apply dict_get_app.
Qed.

(** The outcome of one verification, in terms of its parts. *)
Lemma verify_message_cases message secret w a c :
  (exists e, authenticate message secret (PInt w) (PInt a) = Raise e /\
     verify_message message secret (PInt w) (PInt a) c = (Raise e, c)) \/
  exists d nonce t, message = PDict d /\ authentic secret w a d nonce t /\
    authenticate message secret (PInt w) (PInt a) = Ok (d, t) /\
    verify_message message secret (PInt w) (PInt a) c
    = (match fst (consume_locked nonce t w a c) with
       | Ok _ => Ok (dict_del SIGNATURE d) | Raise e => Raise e end,
       snd (consume_locked nonce t w a c)).
Proof.
  unfold verify_message. destruct (authenticate _ _ _ _) as [[d t]|e] eqn:E; [right|left; by exists e].
  apply authenticate_Ok in E as (w' & a' & nonce & [= <-] & [= <-] & -> & Ha).
  exists d, nonce, t. split_and!; try done. rewrite (consume_authentic _ _ _ _ _ _ _ Ha).
  by destruct (consume_locked nonce t w a c) as [[]].
Qed.

Lemma spent_verify n e last w a secret message c : last <= w -> spent n e last c ->
  spent n e w (snd (verify_message message secret (PInt w) (PInt a) c)).
Proof.
  intros Hw [H|H]; [|right; lia]. destruct (Z.lt_ge_cases e w); [by right|]. left.
  destruct (verify_message_cases message secret w a c) as [(? & _ & ->)|(d & nonce & t & _ & _ & _ & ->)].
  - done.
  - cbn [snd]. by apply consume_locked_keeps.
Qed.

Lemma spent_session n e last calls a secret c :
  not_before last (map snd calls) -> spent n e last c ->
  spent n e (List.last (map snd calls) last) (session secret a calls c).
Proof.
  revert last c. induction calls as [|[m w] calls IH]; intros last c; cbn [map not_before snd]; [done|].
  intros [Hw Hb] Hs. cbn [session fold_left].
  pose proof (spent_verify n e last w a secret m c Hw Hs) as H'.
  specialize (IH _ _ Hb H'). unfold session in IH. revert IH. clear.
  destruct (map snd calls) as [|x l] eqn:E; [done|]. change (List.last (w :: x :: l) last) with (List.last (x :: l) last).
  assert (List.last (x :: l) w = List.last (x :: l) last) as ->; [|done].
  clear. revert x. induction l as [|y l IH]; intros x; [done|]. apply (IH y).
Qed.

Lemma not_before_last w calls now : not_before w (calls ++ [now]) -> List.last calls w <= now.
Proof.
  revert w. induction calls as [|x calls IH]; intros w; cbn [app not_before]; [cbn; lia|].
  intros [_ H]. specialize (IH _ H). revert IH. clear. destruct calls as [|y l]; [done|].
  change (List.last (x :: y :: l) w) with (List.last (y :: l) w).
  assert (List.last (y :: l) x = List.last (y :: l) w) as ->; [|done].
  revert y. induction l as [|z l IH]; intros y; [done|]. apply (IH z).
Qed.

Lemma not_before_prefix w a b : not_before w (a ++ b) -> not_before w a.
Proof. revert w. induction a as [|x a IH]; intros w; cbn; [done|]. intros [? H]. eauto. Qed.

(** ** Properties *)

(** C2.  [verify_message] accepts a request exactly when it is signed with the
    secret, well formed, inside the time window, its nonce is not remembered
    and the cache has room; the answer is the request without its signature,
    and the nonce is remembered until the request can no longer be in time. *)
Theorem verify_message_iff message secret now max_age c r c' :
  verify_message message secret (PInt now) (PInt max_age) c = (Ok r, c') <->
  exists d nonce t, message = PDict d /\ authentic secret now max_age d nonce t /\
    r = dict_del SIGNATURE d /\
    dict_mem nonce (entries (drop_expired now c)) = false /\
    zlen (entries (drop_expired now c)) < max_entries c /\
    c' = mkCache (max_entries c) (entries (drop_expired now c) ++ [(nonce, t + max_age)]).
Proof.
  destruct (verify_message_cases message secret now max_age c)
    as [(e & E & ->)|(d & nonce & t & -> & Ha & E & ->)].
  - split; [done|]. intros (d & nonce & t & -> & Ha & _).
    assert (authenticate (PDict d) secret (PInt now) (PInt max_age) = Ok (d, t)) as E'.
    { apply authenticate_Ok. by eexists _, _, _. }
    congruence.
  - destruct (consume_locked_cases nonce t now max_age c) as [[Hm ->]|[(Hm & Hc & ->)|(Hm & Hc & ->)]];
      cbn [fst snd].
    1-2: split; [done|]; intros (d' & nonce' & t' & [= <-] & Ha' & _ & Hm' & Hc' & _);
      destruct (wf_nonce _ _ _ (au_request _ _ _ _ _ _ Ha)) as [Hn _];
      destruct (wf_nonce _ _ _ (au_request _ _ _ _ _ _ Ha')) as [Hn' _];
      rewrite Hn in Hn'; injection Hn' as <-; (lia || congruence).
    split.
    + intros [= <- <-]. by exists d, nonce, t.
    + intros (d' & nonce' & t' & [= <-] & Ha' & -> & _ & _ & ->).
      destruct (wf_nonce _ _ _ (au_request _ _ _ _ _ _ Ha)) as [Hn _].
      destruct (wf_nonce _ _ _ (au_request _ _ _ _ _ _ Ha')) as [Hn' _].
      destruct (wf_timestamp _ _ _ (au_request _ _ _ _ _ _ Ha)) as [Ht _].
      destruct (wf_timestamp _ _ _ (au_request _ _ _ _ _ _ Ha')) as [Ht' _].
      rewrite Hn in Hn'. rewrite Ht in Ht'. injection Hn' as <-. injection Ht' as <-. done.
Qed.

(** C3.  No replay: once a message has been accepted, the same message is
    rejected by every later verification on the same cache, whatever other
    messages come in between, as long as the clock does not run backwards. *)
Theorem no_replay message secret now max_age c r c1 calls later :
  verify_message message secret (PInt now) (PInt max_age) c = (Ok r, c1) ->
  not_before now (map snd calls ++ [later]) ->
  exists e, fst (verify_message message secret (PInt later) (PInt max_age)
                   (session secret max_age calls c1)) = Raise e.
Proof.
  intros H Hb.
  destruct (verify_message_cases message secret now max_age c)
    as [(e & _ & E)|(d & nonce & t & -> & Ha & _ & E)]; [congruence|].
  assert (Hs : spent nonce (t + max_age) now c1).
  { left. rewrite E in H.
    destruct (consume_locked_cases nonce t now max_age c) as [[Hm Ec]|[(Hm & Hc & Ec)|(Hm & Hc & Ec)]];
      rewrite Ec in H; try done. injection H as _ <-. cbn [entries].
    apply dict_get_last. unfold dict_mem in Hm. by destruct (dict_get nonce _). }
  apply (spent_session _ _ _ calls max_age secret) in Hs; [|by eapply not_before_prefix].
  apply not_before_last in Hb. set (c2 := session secret max_age calls c1) in *.
  destruct (verify_message_cases (PDict d) secret later max_age c2)
    as [(e & _ & ->)|(d' & nonce' & t' & [= <-] & Ha' & _ & ->)]; [by exists e|].
  destruct (wf_nonce _ _ _ (au_request _ _ _ _ _ _ Ha)) as [Hn _].
  destruct (wf_nonce _ _ _ (au_request _ _ _ _ _ _ Ha')) as [Hn' _].
  destruct (wf_timestamp _ _ _ (au_request _ _ _ _ _ _ Ha)) as [Ht _].
  destruct (wf_timestamp _ _ _ (au_request _ _ _ _ _ _ Ha')) as [Ht' _].
  rewrite Hn in Hn'. rewrite Ht in Ht'. injection Hn' as <-. injection Ht' as <-.
  pose proof (au_window _ _ _ _ _ _ Ha') as Hwin.
  destruct Hs as [Hs|Hs]; [|lia].
  destruct (consume_locked_cases nonce t later max_age c2) as [[Hm ->]|[(Hm & Hc & ->)|(Hm & Hc & ->)]];
    [by eexists..|].
  exfalso. apply (drop_expired_get _ _ later) in Hs; [|lia]. unfold dict_mem in Hm. by rewrite Hs in Hm.
Qed.

(** The nonce cache stays within its capacity and holds each nonce once,
    through any sequence of verifications from a new cache. *)
Theorem session_cache_bounded secret max_age calls capacity c :
  new_nonce_cache capacity = Ok c ->
  let c' := session secret max_age calls c in
  zlen (entries c') <= max_entries c' /\ max_entries c' = max_entries c /\ NoDup (keys (entries c')).
Proof.
  intros Hnew. assert (Hc : cache_ok c).
  { unfold new_nonce_cache in Hnew. destruct (is_bool capacity); [done|].
    destruct (isinstance_int capacity) as [n|]; [|done]. destruct (Z.leb_spec n 0); [done|].
    injection Hnew as <-. constructor; cbn; [unfold zlen; cbn; lia|constructor]. }
  clear Hnew. cbn zeta. revert c Hc. induction calls as [|[m w] calls IH]; intros c Hc.
  { split_and!; [apply Hc|done|apply Hc]. }
  cbn [session fold_left].
  destruct (IH _ (verify_message_cache_ok m secret (PInt w) (PInt max_age) c Hc)) as (H1 & H2 & H3).
  split_and!; [done| |done]. unfold session in H2. rewrite H2.
  destruct (verify_message_cases m secret w max_age c) as [(? & _ & ->)|(d & n & t & _ & _ & _ & ->)];
    [done|].
  by destruct (consume_locked_cases n t w max_age c) as [[_ ->]|[(_ & _ & ->)|(_ & _ & ->)]].
Qed.

Lemma canonical_bytes_Raise message e : canonical_bytes message = Raise e -> is_ProtocolError e = true.
Proof.
  unfold canonical_bytes. destruct (as_dict message) as [d|]; [|by intros [= <-]].
  unfold except_json. destruct (validate_json_tree_spec (PDict (dict_del SIGNATURE d))) as [[-> _]|(m & -> & _)].
  - cbn [mbind result_bind]. unfold dumps. destruct (encodable _ _); cbn; [done|by intros [= <-]].
  - cbn. by intros [= <-].
Qed.

Lemma schema_Raise d e : validate_request_schema d = Raise e -> is_ProtocolError e = true.
Proof.
  unfold validate_request_schema.
  intros [[_ <-]%guard_exn_Raise|(? & _ & [[_ <-]%guard_exn_Raise|(? & _ & H)]%bind_Raise)]%bind_Raise;
    [done..|].
  destruct (validate_request_fields d) as [|e'] eqn:E; [done|]. cbn in H.
  destruct (is_ProtocolError e') eqn:E'; [by injection H as <-|].
  exfalso. clear H. unfold validate_request_fields in E. revert E'.
  apply bind_Raise in E as [E%bounded_Raise|(? & _ & E)]; [congruence|].
  apply bind_Raise in E as [E%bounded_Raise|(? & _ & E)]; [congruence|].
  apply bind_Raise in E as [E|(? & _ & E)]; [destruct (as_dict _); [done|by injection E as <-]|].
  apply bind_Raise in E as [E%bounded_int_Raise|(? & _ & E)]; [congruence|].
  apply bind_Raise in E as [E%bounded_Raise|(? & _ & E)]; [congruence|].
  destruct (dict_mem _ _); [|done].
  apply bind_Raise in E as [E|(? & _ & E)]; [destruct (as_dict _); [done|by injection E as <-]|done].
Qed.

Lemma authenticate_Raise message secret now a e :
  authenticate message secret now a = Raise e -> is_ProtocolError e = true.
Proof.
  unfold authenticate, validate_secret. intros [[_ <-]%guard_exn_Raise|(? & _ & H)]%bind_Raise; [done|].
  apply bind_Raise in H as [H|(d & _ & H)]; [destruct (as_dict _); [done|by injection H as <-]|].
  apply bind_Raise in H as [H|(s & _ & H)];
    [destruct (is_valid_signature _); [done|by injection H as <-]|].
  apply bind_Raise in H as [H|(body & _ & H)].
  { destruct (canonical_bytes (PDict d)) as [|e'] eqn:E; [done|]. cbn in H.
    rewrite (canonical_bytes_Raise _ _ E) in H. by injection H as <-. }
  apply bind_Raise in H as [[_ <-]%guard_exn_Raise|(? & _ & H)]; [done|].
  apply bind_Raise in H as [H%schema_Raise|(? & _ & H)]; [done|].
  apply bind_Raise in H as [H%bounded_int_Raise|(w & _ & H)]; [done|].
  apply bind_Raise in H as [H%bounded_int_Raise|(age & _ & H)]; [done|].
  apply bind_Raise in H as [H|(t & _ & H)]; [destruct (isinstance_int _); [done|by injection H as <-]|].
  destruct (_ <? _); [by injection H as <-|]. destruct (_ <? _); [by injection H as <-|done].
Qed.

(** A message that fails verification raises [ProtocolError] and nothing
    else, and never adds a nonce: one that is not authentic leaves the cache
    as it was, an authentic one only removes expired nonces. *)
Theorem verify_message_rejects message secret now max_age c e c' :
  verify_message message secret (PInt now) (PInt max_age) c = (Raise e, c') ->
  is_ProtocolError e = true /\
  (c' = c \/ c' = drop_expired now c /\
     exists d nonce t, message = PDict d /\ authentic secret now max_age d nonce t).
Proof.
  intros H. destruct (verify_message_cases message secret now max_age c)
    as [(e' & E & Ev)|(d & nonce & t & -> & Ha & _ & Ev)]; rewrite Ev in H.
  - injection H as <- <-. split; [by eapply authenticate_Raise|by left].
  - destruct (consume_locked_cases nonce t now max_age c) as [[_ Ec]|[(_ & _ & Ec)|(_ & _ & Ec)]];
      rewrite Ec in H; cbn [fst snd] in H; try done; injection H as <- <-;
      (split; [done|right; split; [done|by exists d, nonce, t]]).
Qed.

Lemma dict_del_set k (v : pyval) d : dict_get k d = None -> dict_del k (dict_set k v d) = d.
Proof.
  intros H. rewrite dict_set_absent by done. revert H. induction d as [|[k' v'] d IH]; cbn [app dict_del dict_get].
  - by rewrite str_eqb_refl.
  - destruct (str_eqb k k'); [done|]. intros H. by rewrite IH.
Qed.

Lemma dict_del_set_any k (v : pyval) d : dict_del k (dict_set k v d) = dict_del k d.
Proof.
  induction d as [|[k' v'] d IH]; cbn; [by rewrite str_eqb_refl|].
  destruct (str_eqb k k') eqn:E; cbn; rewrite E; [done|]. by rewrite IH.
Qed.

Lemma canonical_bytes_sign d v : dict_get SIGNATURE d = None ->
  canonical_bytes (PDict (dict_set SIGNATURE v d)) = canonical_bytes (PDict d).
Proof.
  intros H. unfold canonical_bytes. cbn [as_dict]. by rewrite dict_del_set, (dict_del_absent _ d) by done.
Qed.

(** What [new_request] builds. *)
Lemma new_request_Ok clock token uuid action parameters approval now nonce request_id req :
  new_request clock token uuid action parameters approval now nonce request_id = Ok req ->
  exists n t, item req "timestamp" = PInt t /\ item req "nonce" = PStr n /\
    dict_get SIGNATURE req = None /\
    forall s, well_formed_request (dict_set SIGNATURE s req) n t.
Proof.
  unfold new_request, validate_timestamp.
  intros (a & [-> Ha]%validate_bounded_string_Ok & H)%bind_Ok.
  apply bind_Ok in H as (p & Hp%of_option_Ok%as_dict_Some & H).
  apply bind_Ok in H as (t & [Ht Ht']%bounded_int_Ok & H).
  apply bind_Ok in H as (n & [Hn Hn']%validate_bounded_string_Ok & H).
  apply bind_Ok in H as (i & [Hi Hi']%validate_bounded_string_Ok & H).
  rewrite Ht, Hn, Hi in H. clear Ht Hn Hi.
  apply bind_Ok in H as (o & Ho & H).
  exists n, t. destruct o as [d|].
  - assert (req = [(str "protocol_version", PInt PROTOCOL_VERSION); (str "request_id", PStr i);
      (str "action", PStr a); (str "parameters", PDict p); (str "timestamp", PInt t);
      (str "nonce", PStr n); (str "approval", PDict d)]) as -> by by injection H as <-.
    split_and!; [done..|]. intros s. constructor; eauto; try done.
    + intros k Hk. vm_compute in Hk |- *. tauto.
    + intros k Hk. vm_compute in Hk |- *. tauto.
  - assert (req = [(str "protocol_version", PInt PROTOCOL_VERSION); (str "request_id", PStr i);
      (str "action", PStr a); (str "parameters", PDict p); (str "timestamp", PInt t);
      (str "nonce", PStr n)]) as -> by by injection H as <-.
    split_and!; [done..|]. intros s. constructor; eauto; try done.
    + intros k Hk. vm_compute in Hk |- *. tauto.
    + intros Hk. exfalso. vm_compute in Hk. intuition congruence.
Qed.

Lemma dict_get_set_other k k' (v : pyval) d : str_eqb k k' = false ->
  get_or_none k (dict_set k' v d) = get_or_none k d.
Proof. intros H%str_eqb_neq. unfold get_or_none. by rewrite dict_get_set_ne. Qed.

(** A request that [new_request] built and [sign_message] signed is
    accepted by a verifier with the same secret whose clock is within the
    window, provided its nonce is new and the cache has room, and the verifier
    obtains exactly the request that was built. *)
Theorem sign_then_verify clock token uuid action parameters approval at_ nonce_ request_id
    req secret signed now max_age c n t :
  new_request clock token uuid action parameters approval at_ nonce_ request_id = Ok req ->
  sign_message (PDict req) secret = Ok signed ->
  item req "nonce" = PStr n -> item req "timestamp" = PInt t ->
  0 <= now <= MAX_TIMESTAMP -> 0 <= max_age <= MAX_AGE -> now - max_age <= t <= now + max_age ->
  dict_mem n (entries (drop_expired now c)) = false ->
  zlen (entries (drop_expired now c)) < max_entries c ->
  exists c', verify_message (PDict signed) secret (PInt now) (PInt max_age) c = (Ok req, c').
Proof.
  intros Hreq Hsign Hn Ht Hnow Hage Hwin Hfresh Hroom.
  apply new_request_Ok in Hreq as (n' & t' & Ht' & Hn' & Hsig & Hwf).
  rewrite Hn in Hn'. injection Hn' as <-. rewrite Ht in Ht'. injection Ht' as <-.
  unfold sign_message, validate_secret in Hsign.
  apply bind_Ok in Hsign as (u & Hsec%guard_exn_Ok & Hsign). cbn [as_dict of_option mbind result_bind] in Hsign.
  apply bind_Ok in Hsign as (body & Hbody & Hsign).
  assert (signed = dict_set SIGNATURE (PStr (hmac_hexdigest secret body)) req) as -> by by injection Hsign as <-.
  eexists. apply verify_message_iff. eexists _, n, t. split_and!; [reflexivity| |by rewrite dict_del_set|done..].
  constructor; [by apply Z.leb_le|..|done|done].
  - exists body. rewrite canonical_bytes_sign by done. split; [done|].
    unfold get_or_none. by rewrite dict_get_set_eq.
  - apply Hwf.
Qed.

(** A signature binds the whole content: two messages with the same
    canonical bytes are the same JSON object apart from the signature and the
    order of keys.  (For messages whose strings, integers and floats are such
    that their text reads back.) *)
Theorem canonical_bytes_injective d1 d2 b :
  json_value_ok (PDict (dict_del SIGNATURE d1)) = true ->
  json_value_ok (PDict (dict_del SIGNATURE d2)) = true ->
  canonical_bytes (PDict d1) = Ok b -> canonical_bytes (PDict d2) = Ok b ->
  sort_value (PDict (dict_del SIGNATURE d1)) = sort_value (PDict (dict_del SIGNATURE d2)).
Proof.
  assert (Hc : forall d, json_value_ok (PDict (dict_del SIGNATURE d)) = true ->
    canonical_bytes (PDict d) = Ok b ->
    loads strict_hooks b = Some (sort_value (PDict (dict_del SIGNATURE d)))).
  { clear. intros d Hok H. unfold canonical_bytes in H. cbn [as_dict] in H.
    apply except_json_Ok, bind_Ok in H as (u & _ & H). unfold dumps in H.
    change (Json.sort_keys (compact true)) with true in H. cbn iota in H.
    destruct (encodable _ _); [|done].
    assert (b = value_text (compact true) (sort_value (PDict (dict_del SIGNATURE d)))) as -> by congruence.
    eapply loads_value_text; [apply compact_plain|apply strict_rebuilding|by apply sort_value_ok]. }
  intros H1 H2 E1 E2. apply (Hc _ H1) in E1. apply (Hc _ H2) in E2. congruence.
Qed.

(** ** Properties of framing *)

(** No dictionary at any depth holds a key twice. *)
Fixpoint well_keyed (v : pyval) : bool :=
  match v with
  | PList l => forallb well_keyed l
  | PDict d => forallb (fun p => well_keyed (snd p)) d && distinct (keys d)
  | _ => true
  end.

Lemma reject_duplicate_keys_Some acc ps d : reject_duplicate_keys acc ps = Some d ->
  NoDup (keys acc) -> forallb (fun p => well_keyed (snd p)) acc = true ->
  forallb (fun p => well_keyed (snd p)) ps = true ->
  NoDup (keys d) /\ forallb (fun p => well_keyed (snd p)) d = true.
Proof.
  revert acc. induction ps as [|[k v] ps IH]; intros acc; cbn [reject_duplicate_keys forallb snd].
  - by intros [= <-].
  - destruct (dict_mem k acc) eqn:Hm; [done|]. intros H Hn Ha [Hv Hps]%andb_true_iff.
    eapply IH; [exact H|by apply NoDup_dict_set| |done].
    rewrite dict_set_absent by (unfold dict_mem in Hm; by destruct (dict_get k acc)).
    rewrite forallb_app, Ha. cbn [forallb snd]. by rewrite Hv.
Qed.

Lemma hook_well_keyed ps v : forallb (fun p => well_keyed (snd p)) ps = true ->
  object_pairs_hook strict_hooks ps = Some v -> well_keyed v = true.
Proof.
  intros Hps. cbn. destruct (reject_duplicate_keys [] ps) as [d|] eqn:E; [|done]. intros [= <-].
  apply reject_duplicate_keys_Some in E as [H1 H2]; [|constructor|done..].
  cbn [well_keyed]. rewrite H2. by apply distinct_iff.
Qed.

Lemma scan_literal_well_keyed s v r : scan_literal strict_hooks s = Some (v, r) -> well_keyed v = true.
Proof.
  unfold scan_literal, scan_number. repeat match goal with
  | |- (if ?b then _ else _) = _ -> _ => destruct b; [by (intros [= <- <-] || idtac)|]
  end.
  destruct (match_number s) as [[[[sg ip] tail] r']|]; [|done]. cbn [mbind option_bind].
  destruct tail; [destruct (_ <=? _); [by intros [= <- <-]|done]|].
  cbn [parse_number strict_hooks]. unfold parse_finite_float.
  destruct (isfinite _); [|done]. by intros [= <- <-].
Qed.

Lemma scan_well_keyed k :
  (forall s v r, scan_value strict_hooks k s = Some (v, r) -> well_keyed v = true) /\
  (forall s l r, scan_elements strict_hooks k s = Some (l, r) -> forallb well_keyed l = true) /\
  (forall s d r, scan_members strict_hooks k s = Some (d, r) ->
     forallb (fun p => well_keyed (snd p)) d = true).
Proof.
  induction k as [|k (IHv & IHe & IHm)]; [done|]. split_and!.
  - intros [|c s] v r; [done|]. cbn [scan_value].
    destruct (c =? 34); [|destruct (c =? 123); [|destruct (c =? 91); [|apply scan_literal_well_keyed]]].
    + destruct (scan_string s) as [[t r']|]; [|done]. by intros [= <- <-].
    + destruct (eat 125 _).
      * destruct (object_pairs_hook strict_hooks []) eqn:E; [|done]. intros [= <- <-].
        by apply (hook_well_keyed [] _ eq_refl E).
      * destruct (scan_members _ _ _) as [[ps r']|] eqn:Em; [|done]. apply IHm in Em.
        cbn [mbind option_bind]. destruct (object_pairs_hook strict_hooks ps) eqn:E; [|done].
        intros [= <- <-]. by apply (hook_well_keyed _ _ Em E).
    + destruct (eat 93 _); [by intros [= <- <-]|].
      destruct (scan_elements _ _ _) as [[ps r']|] eqn:Em; [|done]. apply IHe in Em.
      by intros [= <- <-].
  - intros s l r. cbn [scan_elements]. destruct (scan_value strict_hooks k s) as [[v r1]|] eqn:Ev; [|done].
    apply IHv in Ev. cbn [mbind option_bind].
    destruct (eat 93 _); [intros [= <- <-]; cbn; by rewrite Ev|].
    destruct (eat 44 _) as [r2|]; [|done]. cbn [mbind option_bind].
    destruct (scan_elements _ _ _) as [[ps r']|] eqn:Em; [|done]. apply IHe in Em.
    intros [= <- <-]. cbn. by rewrite Ev.
  - intros s l r. cbn [scan_members]. destruct (eat 34 s) as [r0|]; [|done]. cbn [mbind option_bind].
    destruct (scan_string r0) as [[key r1]|]; [|done]. cbn [mbind option_bind].
    destruct (eat 58 _) as [r2|]; [|done]. cbn [mbind option_bind].
    destruct (scan_value strict_hooks k _) as [[v r3]|] eqn:Ev; [|done].
    apply IHv in Ev. cbn [mbind option_bind].
    destruct (eat 125 _); [intros [= <- <-]; cbn; by rewrite Ev|].
    destruct (eat 44 _) as [r4|]; [|done]. cbn [mbind option_bind].
    destruct (scan_members _ _ _) as [[ps r']|] eqn:Em; [|done]. apply IHm in Em.
    intros [= <- <-]. cbn. by rewrite Ev.
Qed.

(** What [decode_payload] can answer. *)
Lemma decode_payload_cases payload :
  match decode_payload payload with
  | Ok d => tree_ok 0 (PDict d) = true /\ well_keyed (PDict d) = true
  | Raise e => is_ProtocolError e = true
  end.
Proof.
  unfold decode_payload. destruct (utf8_decode payload) as [text|]; [|done].
  cbn [of_option mbind result_bind]. unfold loads.
  destruct (startswith [65279] text); [done|].
  destruct (scan_value strict_hooks _ _) as [[v r]|] eqn:E; [|done]. apply scan_well_keyed in E.
  cbn [mbind option_bind]. destruct (skip_ws r); [|done]. cbn [of_option mbind result_bind].
  destruct (validate_json_tree_spec v) as [[-> Ht]|(m & -> & _)]; [|done].
  cbn [except_json except mbind result_bind]. destruct v; done.
Qed.

(** A stream that raises [OSError] or [ValueError] only makes the reader of
    frames raise [ProtocolError] only. *)
Section ReadErrors.
Context {R : Type} `{Reader R}.
Hypothesis recv_errors : forall n r e, fst (recv n r) = Raise e -> is_OSError e || is_ValueError e = true.

Lemma read_loop_errors fuel : forall n buffer r, (Z.to_nat n <= fuel)%nat ->
  match fst (read_loop fuel n buffer r) with Raise e => is_ProtocolError e = true | Ok _ => True end.
Proof.
  induction fuel as [|k IH]; intros n buffer r Hn; cbn [read_loop]; destruct (Z.leb_spec n 0); try done; [lia|].
  unfold read_chunk. specialize (recv_errors n r). destruct (recv n r) as [[chunk|e] r']; cbn [fst except] in *.
  - destruct chunk as [|b chunk]; [done|]. destruct (_ <? _); [done|]. apply IH. rewrite zlen_cons.
    pose proof (zlen_nonneg chunk). lia.
  - by rewrite (recv_errors e eq_refl).
Qed.

Lemma read_frame_errors r :
  match fst (read_frame r) with Raise e => is_ProtocolError e = true | Ok _ => True end.
Proof.
  unfold read_frame, read_exact. pose proof (read_loop_errors (Z.to_nat 4) 4 [] r (le_n _)) as H1.
  destruct (read_loop (Z.to_nat 4) 4 [] r) as [[header|e] r1]; cbn [fst] in *; [|done].
  destruct (_ =? _); [done|]. destruct (_ <? _); [done|].
  pose proof (read_loop_errors _ (be_value header) [] r1 (le_n _)) as H2.
  destruct (read_loop _ _ _ r1) as [[payload|e] r2]; cbn [fst] in *; [|done].
  pose proof (decode_payload_cases payload) as Hd. by destruct (decode_payload payload).
Qed.
End ReadErrors.

(** Reading a frame is safe on any stream: it takes at most the four
    header bytes and 1 MiB, leaves the rest of the stream in place, and either
    yields a JSON object of depth at most 256 with finite floats and no
    repeated key, or raises [ProtocolError]. *)
Theorem read_frame_safe {R} {holds : R -> bytes -> Prop} `{HR : Reader R} `{!ReaderSpec R holds}
    (reader : R) data :
  holds reader data ->
  exists res reader' taken rest, read_frame reader = (res, reader') /\ data = taken ++ rest /\
    holds reader' rest /\ zlen taken <= 4 + MAX_FRAME_SIZE /\
    match res with
    | Ok d => tree_ok 0 (PDict d) = true /\ well_keyed (PDict d) = true
    | Raise e => is_ProtocolError e = true
    end.
Proof.
  intros Hr. unfold read_frame. pose proof (read_exact_holds 4 reader data Hr) as H4.
  assert (Hlen : forall n (l : bytes), 0 <= n -> zlen (take (Z.to_nat n) l) <= n).
  { intros n l Hn. unfold zlen. rewrite length_take. lia. }
  destruct (Z.leb_spec 4 (zlen data)); destruct H4 as (r1 & -> & H1).
  2: { eexists _, r1, data, []. rewrite app_nil_r. split_and!; try done.
       unfold MAX_FRAME_SIZE. lia. }
  set (header := take (Z.to_nat 4) data) in *. set (rest := drop (Z.to_nat 4) data) in *.
  assert (Hd : data = header ++ rest) by (symmetry; apply take_drop).
  assert (zlen header <= 4) by by apply Hlen.
  destruct (Z.eqb_spec (be_value header) 0).
  { eexists _, r1, header, rest. split_and!; try done. unfold MAX_FRAME_SIZE. lia. }
  destruct (Z.ltb_spec MAX_FRAME_SIZE (be_value header)).
  { eexists _, r1, header, rest. split_and!; try done. unfold MAX_FRAME_SIZE. lia. }
  pose proof (read_exact_holds (be_value header) r1 rest H1) as Hbody.
  destruct (Z.leb_spec (be_value header) (zlen rest)); destruct Hbody as (r2 & -> & Hr2).
  - eexists _, r2, (header ++ take (Z.to_nat (be_value header)) rest), _.
    split; [reflexivity|]. split; [rewrite <- app_assoc, take_drop; done|].
    split; [exact Hr2|]. split; [|apply decode_payload_cases].
    rewrite zlen_app. unfold zlen at 2. rewrite length_take. unfold MAX_FRAME_SIZE in *. lia.
  - eexists _, r2, data, []. rewrite app_nil_r. split_and!; try done.
    rewrite Hd, zlen_app. lia.
Qed.

(** C4.  Framing round trip: whatever the stream's fragmentation, reading a
    stream that starts with an encoded message yields that message and leaves
    exactly what follows the frame.  The message is one that JSON's text stands
    for uniquely: its keys are distinct at every level; its texts are code
    points in which no high surrogate is directly followed by a low one (such a
    pair is written as two escapes, which are read back as one character); its
    integers have at most 4300 digits; and its floats are finite and are read
    back from their repr. *)
Theorem frame_roundtrip {R} {holds : R -> bytes -> Prop} `{HR : Reader R} `{!ReaderSpec R holds}
    (reader : R) d frame rest :
  json_value_ok (PDict d) = true -> encode_frame (PDict d) = Ok frame ->
  holds reader (frame ++ rest) ->
  exists reader', read_frame reader = (Ok d, reader') /\ holds reader' rest.
Proof.
  intros Hok Henc Hr. apply encode_frame_Ok in Henc as (d' & [= <-] & -> & Ht & Hsize).
  assert (Hpos : 0 < zlen (value_text (compact false) (PDict d))).
  { pose proof (value_text_nonempty (compact false) (PDict d) Hok). unfold zlen. lia. }
  pose proof (decode_payload_text d Hok Ht) as Hdec. revert Hr Hsize Hpos Hdec.
  generalize (value_text (compact false) (PDict d)) as text. intros text Hr Hsize Hpos Hdec.
  rewrite <- app_assoc in Hr. unfold read_frame.
  destruct (read_exact_app 4 reader _ _ Hr) as (r1 & -> & H1).
  { unfold zlen. by rewrite be_bytes_length. }
  rewrite be_value_bytes by (unfold MAX_FRAME_SIZE in Hsize; cbn; lia).
  rewrite (proj2 (Z.eqb_neq _ _)), (proj2 (Z.ltb_ge _ _)) by lia.
  destruct (read_exact_app (zlen text) r1 text rest H1 eq_refl) as (r2 & -> & H2).
  rewrite Hdec. by exists r2.
Qed.

(** [write_frame] delivers the whole frame: over a writer whose [write]
    takes some part of what it is given, the loop ends and exactly the encoded
    frame has been sent. *)
Theorem write_frame_delivers {W} (ops : writer_ops W) (wr : bytes -> W -> result (option Z) * W)
    (sent : W -> bytes) message frame w :
  sendall ops = None -> write ops = Some wr -> flush ops = None ->
  (forall view w, view <> [] -> exists n w', wr view w = (Ok (Some n), w') /\
     0 < n <= zlen view /\ sent w' = sent w ++ take (Z.to_nat n) view) ->
  encode_frame message = Ok frame ->
  exists w', write_frame ops message w = (Ok tt, w') /\ sent w' = sent w ++ frame.
Proof.
  intros Hs Hw Hfl Hwr Henc. unfold write_frame. rewrite Henc, Hs, Hw, Hfl. clear Henc.
  assert (Hloop : forall fuel view w, (length view <= fuel)%nat ->
    exists w', write_loop wr fuel view w = (Ok tt, w') /\ sent w' = sent w ++ view).
  { induction fuel as [|k IH]; intros view v Hf.
    - destruct view; [|cbn in Hf; lia]. exists v. by rewrite app_nil_r.
    - destruct view as [|b view]; [exists v; by rewrite app_nil_r|]. cbn [write_loop].
      destruct (Hwr (b :: view) v ltac:(done)) as (n & v' & -> & Hn & Hsent).
      rewrite (proj2 (Z.leb_gt n 0)) by lia.
      destruct (IH (drop (Z.to_nat n) (b :: view)) v') as (v'' & -> & Hsent').
      { rewrite length_drop. cbn [length] in *. lia. }
      exists v''. split; [done|]. by rewrite Hsent', Hsent, <- app_assoc, take_drop. }
  destruct (Hloop (length frame) frame w (le_n _)) as (w' & -> & Hsent).
  exists w'. done.
Qed.

(** The explicit-stack traversal [_validate_json_tree] agrees with the
    recursive definition: it always ends, with success exactly on the trees of
    depth at most 256 whose floats are finite, and with [ValueError] on every
    other. *)
Theorem validate_json_tree_equiv v :
  if tree_ok 0 v then validate_json_tree v = Ok tt
  else exists m, validate_json_tree v = Raise (ValueError m).
Proof. destruct (validate_json_tree_spec v) as [[-> ->]|(m & -> & ->)]; eauto. Qed.

(** ** Witnesses *)

Definition demo_secret : bytes := repeat 7 32.
Definition demo_request : pydict :=
  [(str "protocol_version", PInt 1); (str "request_id", PStr (str "r-1"));
   (str "action", PStr (str "gpu.status")); (str "parameters", PDict []);
   (str "timestamp", PInt 1000); (str "nonce", PStr (str "n-1"))].
Definition demo_signed : pydict :=
  Eval vm_compute in
    match sign_message (PDict demo_request) demo_secret with Ok d => d | Raise _ => [] end.
Definition demo_cache : NonceCache := mkCache 4 [(str "n-0", 1010)].

Lemma demo_accepted :
  verify_message (PDict demo_signed) demo_secret (PInt 1005) (PInt 30) demo_cache
  = (Ok demo_request, mkCache 4 [(str "n-0", 1010); (str "n-1", 1030)]).
Proof. vm_compute. reflexivity. Qed.

Lemma no_replay_witness :
  exists e, fst (verify_message (PDict demo_signed) demo_secret (PInt 1020) (PInt 30)
    (session demo_secret 30 [(PDict demo_signed, 1006); (PNone, 1010)]
       (mkCache 4 [(str "n-0", 1010); (str "n-1", 1030)]))) = Raise e.
Proof.
  eapply (no_replay (PDict demo_signed) demo_secret 1005 30 demo_cache demo_request).
  - exact demo_accepted.
  - cbn. lia.
Defined.

Lemma session_cache_bounded_witness :
  let c' := session demo_secret 30 [(PDict demo_signed, 1006); (PNone, 1010)] (mkCache 3 []) in
  zlen (entries c') <= max_entries c' /\ max_entries c' = max_entries (mkCache 3 []) /\
  NoDup (keys (entries c')).
Proof. apply (session_cache_bounded _ _ _ (PInt 3)). reflexivity. Defined.

Lemma verify_message_rejects_witness :
  is_ProtocolError (protocol_error "invalid signature") = true /\
  (demo_cache = demo_cache \/ demo_cache = drop_expired 1005 demo_cache /\
     exists d nonce t, PDict demo_request = PDict d /\ authentic demo_secret 1005 30 d nonce t).
Proof.
  apply (verify_message_rejects (PDict demo_request) demo_secret 1005 30 demo_cache). reflexivity.
Defined.

Lemma sign_then_verify_witness :
  exists c', verify_message (PDict demo_signed) demo_secret (PInt 1005) (PInt 30) demo_cache
    = (Ok demo_request, c').
Proof.
  eapply (sign_then_verify 0 [] [] (PStr (str "gpu.status")) (PDict []) None (Some (PInt 1000))
    (Some (PStr (str "n-1"))) (Some (PStr (str "r-1"))) demo_request demo_secret demo_signed
    1005 30 demo_cache (str "n-1") 1000); try (vm_compute; reflexivity); try (unfold MAX_TIMESTAMP, MAX_AGE; lia).
Defined.

Lemma canonical_bytes_injective_witness :
  sort_value (PDict (dict_del SIGNATURE demo_signed))
  = sort_value (PDict (dict_del SIGNATURE (rev demo_request))).
Proof.
  eapply (canonical_bytes_injective demo_signed (rev demo_request)); vm_compute; reflexivity.
Defined.

Lemma read_frame_safe_witness :
  exists res reader' taken rest,
    read_frame (mkChunked [0; 0; 0; 2; 123; 125; 9] [0%nat; 5%nat]) = (res, reader') /\
    [0; 0; 0; 2; 123; 125; 9] = taken ++ rest /\
    pending reader' = rest /\ zlen taken <= 4 + MAX_FRAME_SIZE /\
    match res with
    | Ok d => tree_ok 0 (PDict d) = true /\ well_keyed (PDict d) = true
    | Raise e => is_ProtocolError e = true
    end.
Proof. by apply (read_frame_safe (holds := fun r data => pending r = data)). Defined.

Definition demo_frame : bytes :=
  Eval vm_compute in
    match encode_frame (PDict demo_request) with Ok b => b | Raise _ => [] end.

Lemma frame_roundtrip_witness :
  exists reader', read_frame (mkChunked (demo_frame ++ [1; 2]) [0%nat; 1%nat; 0%nat; 7%nat])
    = (Ok demo_request, reader') /\ pending reader' = [1; 2].
Proof.
  eapply (frame_roundtrip (holds := fun r data => pending r = data) _ _ demo_frame); [| |reflexivity];
    vm_compute; reflexivity.
Defined.

(** A writer that takes at most three bytes at a time. *)
Definition slow_write (view : bytes) (w : bytes) : result (option Z) * bytes :=
  (Ok (Some (Z.min 3 (zlen view))), w ++ take 3 view).

Lemma write_frame_delivers_witness :
  exists w', write_frame {| sendall := None; write := Some slow_write; flush := None |}
    (PDict demo_request) [] = (Ok tt, w') /\ w' = [] ++ demo_frame.
Proof.
  apply (write_frame_delivers _ slow_write (fun w => w)); try reflexivity.
  intros view w Hv. eexists _, _. split; [reflexivity|].
  assert (0 < zlen view) by (destruct view; [done|]; rewrite zlen_cons; pose proof (zlen_nonneg view); lia).
  split; [lia|]. f_equal. unfold zlen in *.
  destruct (Z.min_spec 3 (Z.of_nat (length view))) as [[? ->]|[? ->]]; [done|].
  rewrite Nat2Z.id, !take_ge by lia. done.
Defined.
