(* ===== verification/Launcher.v ===== *)
(** * Exec launcher

    [host_agent/dgx_ops_agent/launcher.py]: the small program that the agent
    starts in place of a command.  It reads one framed request from a pipe,
    waits for the byte "G" on a second pipe, and only then becomes the
    command.  The descriptors are streams ([Protocol.Reader]); [chdir] and
    [exec_function] are the system's answers. *)
From Stdlib Require Import ZArith Lia Bool String.
From stdpp Require Import prelude.
From S2P Require Import Prelude PyValue PyFloat Utf8 Sha256 Json Protocol.
Open Scope Z_scope.

Definition EXIT_GATE_CLOSED : Z := 75.
Definition EXIT_INVALID_REQUEST : Z := 76.
Definition EXIT_EXEC_FAILED : Z := 126.
Definition GO : bytes := str "G".
Definition MAX_LAUNCH_REQUEST_SIZE : Z := 524288.
Definition MAX_ARGUMENTS : Z := 256.
Definition MAX_ARGUMENT_BYTES : Z := 65536.
Definition MAX_ENVIRONMENT_VARIABLES : Z := 18.
Definition MAX_ENVIRONMENT_VALUE_LENGTH : Z := 256.
Definition SAFE_PATH : pystr :=
  str "/usr/local/sbin:/usr/local/bin:/usr/sbin:/usr/bin:/sbin:/bin".
Definition PATH : pystr := str "PATH".

(** A request: the dictionary with "argv", "cwd" and "environment". *)
Record request := mkRequest {
  rq_argv : list pystr;
  rq_cwd : option pystr;
  rq_environment : list (pystr * pystr);
}.

Definition request_value (r : request) : pyval :=
  PDict [(str "argv", PList (map PStr (rq_argv r)));
         (str "cwd", match rq_cwd r with Some c => PStr c | None => PNone end);
         (str "environment", PDict (map (fun p => (fst p, PStr (snd p))) (rq_environment r)))].

Definition invalid_request : exn := ValueError (str "invalid launcher request").

(** [len(s.encode("utf-8"))] *)
Definition utf8_length (s : pystr) : result Z :=
  b ← of_option (utf8_encode s) (UnicodeError []); Ok (zlen b).

Definition utf8_total (l : list pystr) : result Z :=
  ns ← mapM_result utf8_length l; Ok (fold_right Z.add 0 ns).

Definition has_nul (s : pystr) : bool := existsb (fun c => c =? 0) s.
Definition nonempty (s : pystr) : bool := match s with [] => false | _ => true end.

(** A non-empty string without a zero character. *)
Definition plain_string (s : pystr) : bool := nonempty s && negb (has_nul s).

Definition validate_argv_value (argv : pyval) : result (list pystr) :=
  items ← of_option (as_list argv) invalid_request;
  _ ← guard_exn (match items with [] => false | _ => true end) invalid_request;
  _ ← guard_exn (zlen items <=? MAX_ARGUMENTS) invalid_request;
  argv ← mapM_result (fun v => s ← of_option (as_str v) invalid_request;
                               _ ← guard_exn (plain_string s) invalid_request; Ok s) items;
  total ← utf8_total argv;
  _ ← guard_exn (total <=? MAX_ARGUMENT_BYTES) invalid_request;
  Ok argv.

Definition control_character (c : Z) : bool := (c <? 32) || ((127 <=? c) && (c <=? 159)).

Definition validate_environment_item (p : pystr * pyval) : result (pystr * pystr) :=
  _ ← guard_exn (plain_string (fst p)) invalid_request;
  value ← of_option (as_str (snd p)) invalid_request;
  _ ← guard_exn ((zlen value <=? MAX_ENVIRONMENT_VALUE_LENGTH)
                 && negb (existsb control_character value)) invalid_request;
  Ok (fst p, value).

Definition validate_request (value : pyval) : result request :=
  d ← of_option (as_dict value) invalid_request;
  _ ← guard_exn (keys_equal d [str "argv"; str "cwd"; str "environment"]) invalid_request;
  argv ← validate_argv_value (get_or_none (str "argv") d);
  cwd ← match get_or_none (str "cwd") d with
        | PNone => Ok None
        | v => c ← of_option (as_str v) invalid_request;
               _ ← guard_exn (plain_string c) invalid_request; Ok (Some c)
        end;
  items ← of_option (as_dict (get_or_none (str "environment") d)) invalid_request;
  _ ← guard_exn ((1 <=? zlen items) && (zlen items <=? MAX_ENVIRONMENT_VARIABLES)) invalid_request;
  environment ← mapM_result validate_environment_item items;
  _ ← guard_exn (match dict_get PATH environment with
                 | Some p => str_eqb p SAFE_PATH | None => false end) invalid_request;
  Ok (mkRequest argv cwd environment).

(** [ensure_ascii=False, allow_nan=False], compact separators *)
Definition request_style : dump_style :=
  {| item_separator := str ","; key_separator := str ":"; ensure_ascii := false;
     sort_keys := false; allow_nan := false |}.

Definition serialize_request (r : request) : result bytes :=
  request ← validate_request (request_value r);
  text ← dumps request_style (request_value request);
  payload ← of_option (utf8_encode text) (UnicodeError []);
  if negb (nonempty payload) || (MAX_LAUNCH_REQUEST_SIZE <? zlen payload)
  then Raise invalid_request else Ok payload.

(** ** Writing a request *)
Section Writing.
Context {W : Type} (os_write : bytes -> W -> result Z * W).

(** [_write_all] *)
Fixpoint write_all (fuel : nat) (view : bytes) (w : W) : result unit * W :=
  match view, fuel with
  | [], _ => (Ok tt, w)
  | _, O => (Raise out_of_fuel, w)
  | _, S k =>
      match os_write view w with
      | (Raise e, w) => (Raise e, w)
      | (Ok n, w) =>
          if n <=? 0 then (Raise (OSError (str "launcher request write failed")), w)
          else write_all k (drop (Z.to_nat n) view) w
      end
  end.

(** The third component tells that the descriptor was closed. *)
Definition write_request (r : request) (w : W) : result unit * W * bool :=
  match serialize_request r with
  | Raise e => (Raise e, w, true)
  | Ok payload =>
      let frame := be_bytes 4 (zlen payload) ++ payload in
      let '(res, w) := write_all (length frame) frame w in (res, w, true)
  end.
End Writing.

(** ** Running *)

(** What the launcher did: the command it became, if any, and the exit code
    it would end with otherwise. *)
Record launch := mkLaunch {
  executed : option request;
  exit_code : Z;
}.

Section Running.
Context {R : Type} `{Reader R}.

(** [_read_exact]: what is there, up to [length] bytes *)
Fixpoint read_up_to (fuel : nat) (length : Z) (chunks : bytes) (r : R) : result bytes * R :=
  if length <=? zlen chunks then (Ok chunks, r)
  else match fuel with
       | O => (Raise out_of_fuel, r)
       | S k =>
           match recv (length - zlen chunks) r with
           | (Raise e, r) => (Raise e, r)
           | (Ok [], r) => (Ok chunks, r)
           | (Ok chunk, r) => read_up_to k length (chunks ++ chunk) r
           end
       end.

Definition launcher_read_exact (length : Z) (r : R) : result bytes * R :=
  read_up_to (Z.to_nat length) length [] r.

Definition launcher_hooks : load_hooks :=
  {| parse_constant := fun _ => None;
     parse_number := fun t => Some (PFloat (parse_float t));
     object_pairs_hook := fun pairs => d ← reject_duplicate_keys [] pairs; Some (PDict d) |}.

(** [json.loads(payload.decode(), ...)] and [_validate_request] *)
Definition decode_request (payload : bytes) : result request :=
  text ← of_option (utf8_decode payload) (UnicodeError []);
  value ← of_option (loads launcher_hooks text) (ValueError []);
  validate_request value.

Context (chdir : pystr -> result unit) (exec_function : request -> result unit).

(** [except (OSError, ValueError): return EXIT_EXEC_FAILED] *)
Definition exec_failure (e : exn) : result launch :=
  if is_OSError e || is_ValueError e then Ok (mkLaunch None EXIT_EXEC_FAILED) else Raise e.

(** After the gate: become the command. *)
Definition become (request : request) : result launch :=
  match match rq_cwd request with Some c => chdir c | None => Ok tt end with
  | Raise e => exec_failure e
  | Ok _ =>
      match exec_function request with
      | Ok _ => Ok (mkLaunch (Some request) 0)
      | Raise e => if is_OSError e || is_ValueError e
                   then Ok (mkLaunch (Some request) EXIT_EXEC_FAILED) else Raise e
      end
  end.

Definition run_launcher (request_descriptor gate_descriptor : R) : result launch :=
  match launcher_read_exact 4 request_descriptor with
  | (Raise e, _) => exec_failure e
  | (Ok header, r) =>
      if negb (zlen header =? 4) then Ok (mkLaunch None EXIT_INVALID_REQUEST)
      else
        let length := be_value header in
        if negb ((0 <? length) && (length <=? MAX_LAUNCH_REQUEST_SIZE))
        then Ok (mkLaunch None EXIT_INVALID_REQUEST)
        else
          match launcher_read_exact length r with
          | (Raise e, _) => exec_failure e
          | (Ok payload, r) =>
              if negb (zlen payload =? length) then Ok (mkLaunch None EXIT_INVALID_REQUEST)
              else
                match recv 1 r with
                | (Raise e, _) => exec_failure e
                | (Ok (_ :: _), _) => Ok (mkLaunch None EXIT_INVALID_REQUEST)
                | (Ok [], _) =>
                    match decode_request payload with
                    | Raise e =>
                        if is_ValueError e then Ok (mkLaunch None EXIT_INVALID_REQUEST)
                        else exec_failure e
                    | Ok request =>
                        match recv 1 gate_descriptor with
                        | (Raise e, _) => exec_failure e
                        | (Ok token, _) =>
                            if str_eqb token GO then become request
                            else Ok (mkLaunch None EXIT_GATE_CLOSED)
                        end
                    end
                end
          end
  end.
End Running.

(** [main]: the descriptors are the two arguments. *)
Definition launcher_descriptors (arguments : list (option Z)) : option (Z * Z) :=
  match arguments with
  | [Some request_descriptor; Some gate_descriptor] =>
      if (request_descriptor <? 0) || (gate_descriptor <? 0) then None
      else Some (request_descriptor, gate_descriptor)
  | _ => None
  end.

(** ** What a valid request is *)

Record valid_request (r : request) : Prop := {
  vr_argv : rq_argv r <> [] /\ zlen (rq_argv r) <= MAX_ARGUMENTS /\
    Forall (fun s => s <> [] /\ ~ In 0 s) (rq_argv r) /\
    exists n, utf8_total (rq_argv r) = Ok n /\ n <= MAX_ARGUMENT_BYTES;
  vr_cwd : forall c, rq_cwd r = Some c -> c <> [] /\ ~ In 0 c;
  vr_environment : 1 <= zlen (rq_environment r) <= MAX_ENVIRONMENT_VARIABLES /\
    Forall (fun p => fst p <> [] /\ ~ In 0 (fst p) /\
      zlen (snd p) <= MAX_ENVIRONMENT_VALUE_LENGTH /\
      existsb control_character (snd p) = false) (rq_environment r);
  vr_path : dict_get PATH (rq_environment r) = Some SAFE_PATH;
}.

(** ** Lemmas: validation *)

Lemma has_nul_In s : has_nul s = false <-> ~ In 0 s.
Proof.
  unfold has_nul. split.
  - intros H Hin. assert (existsb (fun c => c =? 0) s = true); [|congruence].
    apply existsb_exists. by exists 0.
  - intros H. apply not_true_is_false. rewrite existsb_exists. intros (c & Hc & ->%Z.eqb_eq). done.
Qed.

Lemma plain_string_spec s : plain_string s = true <-> s <> [] /\ ~ In 0 s.
Proof.
  unfold plain_string. rewrite andb_true_iff, negb_true_iff, has_nul_In.
  by destruct s; cbn; split; intros []; split.
Qed.

Lemma validate_argv_value_Ok v argv : validate_argv_value v = Ok argv <->
  v = PList (map PStr argv) /\ argv <> [] /\ zlen argv <= MAX_ARGUMENTS /\
  Forall (fun s => s <> [] /\ ~ In 0 s) argv /\
  exists n, utf8_total argv = Ok n /\ n <= MAX_ARGUMENT_BYTES.
Proof.
  unfold validate_argv_value. split.
  - intros (items & H1%of_option_Ok & H)%bind_Ok. destruct v; try done. injection H1 as ->.
    apply bind_Ok in H as (u & H2%guard_exn_Ok & H).
    apply bind_Ok in H as (u' & H3%guard_exn_Ok%Z.leb_le & H).
    apply bind_Ok in H as (argv' & H4%mapM_result_Ok & H).
    apply bind_Ok in H as (n & H5 & H). apply bind_Ok in H as (u'' & H6%guard_exn_Ok%Z.leb_le & H).
    injection H as ->.
    assert (items = map PStr argv /\ Forall (fun s => s <> [] /\ ~ In 0 s) argv) as [-> Hall].
    { clear -H4. induction H4 as [|x y l k Hxy _ [-> IH]]; [done|].
      apply bind_Ok in Hxy as (s & Hs%of_option_Ok & Hxy).
      apply bind_Ok in Hxy as (u & Hp%guard_exn_Ok%plain_string_spec & [= <-]).
      destruct x; try done. injection Hs as ->. by split; [|constructor]. }
    split_and!; try done.
    + by intros ->.
    + unfold zlen in *. by rewrite length_map in H3.
    + eauto.
  - intros (-> & Hne & Hlen & Hall & n & Hn & Hle). cbn [as_list of_option mbind result_bind].
    assert (match map PStr argv with [] => false | _ => true end = true) as -> by by destruct argv.
    cbn [guard_exn mbind result_bind]. unfold zlen in *. rewrite length_map.
    rewrite (proj2 (Z.leb_le _ _)) by done. cbn [guard_exn mbind result_bind].
    assert (mapM_result (fun v => s ← of_option (as_str v) invalid_request;
              _ ← guard_exn (plain_string s) invalid_request; Ok s) (map PStr argv) = Ok argv) as ->.
    { apply mapM_result_Ok. clear -Hall. induction Hall as [|s l Hs _ IH]; constructor; [|done].
      cbn [as_str of_option mbind result_bind]. by rewrite (proj2 (plain_string_spec s) Hs). }
    cbn [mbind result_bind]. rewrite Hn. cbn [mbind result_bind].
    by rewrite (proj2 (Z.leb_le _ _)) by done.
Qed.

Lemma validate_environment_item_Ok p q : validate_environment_item p = Ok q <->
  p = (fst q, PStr (snd q)) /\ fst q <> [] /\ ~ In 0 (fst q) /\
  zlen (snd q) <= MAX_ENVIRONMENT_VALUE_LENGTH /\ existsb control_character (snd q) = false.
Proof.
  unfold validate_environment_item. split.
  - intros (u & [H1 H1']%guard_exn_Ok%plain_string_spec & H)%bind_Ok.
    apply bind_Ok in H as (s & H2%of_option_Ok & H). apply bind_Ok in H as (u' & H3%guard_exn_Ok & [= <-]).
    apply andb_true_iff in H3 as [H3%Z.leb_le H4%negb_true_iff].
    destruct p as [k v]; cbn [fst snd] in *. destruct v; try done. by injection H2 as ->.
  - intros (-> & H1 & H2 & H3 & H4). cbn [fst snd as_str].
    rewrite (proj2 (plain_string_spec _)) by done. cbn [guard_exn of_option mbind result_bind].
    rewrite (proj2 (Z.leb_le _ _)), H4 by done. by destruct q.
Qed.

(** What [_validate_request] answers is valid. *)
Lemma validate_request_valid v r : validate_request v = Ok r -> valid_request r.
Proof.
  unfold validate_request. intros (d & _ & H)%bind_Ok. apply bind_Ok in H as (u & _ & H).
  apply bind_Ok in H as (argv & (_ & Ha)%validate_argv_value_Ok & H).
  apply bind_Ok in H as (cwd & Hc & H).
  apply bind_Ok in H as (items & _ & H). apply bind_Ok in H as (u' & Hl%guard_exn_Ok & H).
  apply bind_Ok in H as (env & He%mapM_result_Ok & H). apply bind_Ok in H as (u'' & Hp%guard_exn_Ok & [= <-]).
  apply andb_true_iff in Hl as [Hl1%Z.leb_le Hl2%Z.leb_le].
  constructor; cbn [rq_argv rq_cwd rq_environment].
  - done.
  - intros c ->. destruct (get_or_none _ d); try done; try (by apply bind_Ok in Hc as (c' & Hc' & _); discriminate Hc').
    apply bind_Ok in Hc as (c' & [= ->] & Hc).
    apply bind_Ok in Hc as (u3 & Hs%guard_exn_Ok%plain_string_spec & [= <-]). done.
  - split; [pose proof (Forall2_length _ _ _ He); unfold zlen in *; lia|].
    clear -He. induction He as [|p q l k Hpq _ IH]; constructor; [|done].
    by apply validate_environment_item_Ok in Hpq as (_ & Hq).
  - destruct (dict_get PATH env) as [p|]; [|done]. by apply str_eqb_eq in Hp as ->.
Qed.

(** And a valid request passes unchanged. *)
Lemma valid_request_validates r : valid_request r -> validate_request (request_value r) = Ok r.
Proof.
  intros [Ha Hc [Hl He] Hp]. unfold validate_request, request_value. cbn [as_dict of_option mbind result_bind].
  match goal with |- context [keys_equal ?d ?l] => change (keys_equal d l) with true end.
  cbn [guard_exn mbind result_bind].
  repeat match goal with |- context [get_or_none ?k ((?k', ?v) :: ?d)] =>
    let b := eval vm_compute in (str_eqb k k') in
    lazymatch b with
    | true => change (get_or_none k ((k', v) :: d)) with v
    | false => change (get_or_none k ((k', v) :: d)) with (get_or_none k d)
    end
  end.
  rewrite (proj2 (validate_argv_value_Ok _ (rq_argv r))) by done. cbn [mbind result_bind].
  assert (match match rq_cwd r with Some c => PStr c | None => PNone end with
     | PNone => Ok None
     | v => c ← of_option (as_str v) invalid_request;
            _ ← guard_exn (plain_string c) invalid_request; Ok (Some c) end = Ok (rq_cwd r)) as ->.
  { destruct (rq_cwd r) as [c|]; [|done]. cbn [as_str of_option mbind result_bind].
    by rewrite (proj2 (plain_string_spec c)) by by apply Hc. }
  cbn [as_dict of_option mbind result_bind]. unfold zlen in *. rewrite length_map.
  rewrite !(proj2 (Z.leb_le _ _)) by lia. cbn [andb guard_exn mbind result_bind].
  assert (mapM_result validate_environment_item
    (map (fun p => (fst p, PStr (snd p))) (rq_environment r)) = Ok (rq_environment r)) as ->.
  { apply mapM_result_Ok. clear -He. induction He as [|q l Hq _ IH]; constructor; [|done].
    by apply validate_environment_item_Ok. }
  cbn [mbind result_bind]. rewrite Hp, str_eqb_refl. by destruct r.
Qed.

(** ** Lemmas: the text of a request *)

(** Every string of a value. *)
Fixpoint all_text (p : pystr -> bool) (v : pyval) : bool :=
  match v with
  | PStr s => p s
  | PList l => forallb (all_text p) l
  | PDict d => forallb (fun q => p (fst q) && all_text p (snd q)) d
  | _ => true
  end.

Lemma forallb_join p sep l : forallb p (join sep l) = true -> forallb (forallb p) l = true.
Proof.
  induction l as [|x [|y l] IH]; [done| |].
  - cbn. by rewrite andb_true_r.
  - rewrite join_cons2, !forallb_app. rewrite !andb_true_iff. intros (Hx & _ & Hl).
    cbn [forallb] in *. rewrite Hx. by apply IH.
Qed.

Lemma scalar_digits_ascii l : is_ascii l = true -> forallb is_scalar l = true.
Proof.
  intros H. apply forallb_forall. intros c Hc. apply is_ascii_In with (c := c) in H; [|done].
  apply is_scalar_spec. lia.
Qed.

(** A string whose quoted text can be encoded has only scalar characters. *)
Lemma quote_scalar s : forallb is_code_point s = true ->
  forallb is_scalar (quote false s) = true -> forallb is_scalar s = true.
Proof.
  unfold quote. cbn [forallb]. rewrite forallb_app. intros Hs (_ & H)%andb_true_iff.
  apply andb_true_iff in H as [H _]. induction s as [|c s IH]; [done|].
  cbn [map concat forallb] in *. rewrite forallb_app in H.
  apply andb_true_iff in H as [Hc H], Hs as [Hcp Hs]. rewrite IH, andb_true_r by done.
  apply between_spec in Hcp. unfold escape_char in Hc. destruct (short_escape c) eqn:E.
  - apply is_scalar_spec. unfold short_escape in E.
    repeat match type of E with context [c =? ?n] => destruct (Z.eqb_spec c n) as [->|?]; [lia|] end. done.
  - destruct ((32 <=? c) && (c <? 127)) eqn:E1; [by apply andb_true_iff in Hc as [? _]|].
    cbn [negb] in Hc. rewrite andb_true_r in Hc.
    destruct (Z.leb_spec 127 c); [by apply andb_true_iff in Hc as [? _]|].
    apply is_scalar_spec. lia.
Qed.

Section TextScalar.
Context (style : dump_style) (Hraw : ensure_ascii style = false).

Lemma value_text_scalar v : all_text (forallb is_code_point) v = true ->
  forallb is_scalar (value_text style v) = true -> all_text (forallb is_scalar) v = true.
Proof.
  induction v as [| | | |s|l Hl|d Hd] using pyval_induction; try done.
  - cbn [value_text all_text]. rewrite Hraw. apply quote_scalar.
  - cbn [value_text all_text]. intros Hc. cbn [forallb]. rewrite forallb_app.
    intros (_ & H)%andb_true_iff. apply andb_true_iff in H as [H _]. apply forallb_join in H.
    rewrite forallb_forall in *. rewrite List.Forall_forall in Hl. intros x Hx.
    apply Hl; [done|by apply Hc|]. apply H. by apply in_map.
  - cbn [value_text all_text]. intros Hc. cbn [forallb]. rewrite forallb_app.
    intros (_ & H)%andb_true_iff. apply andb_true_iff in H as [H _]. apply forallb_join in H.
    rewrite forallb_forall in *. rewrite List.Forall_forall in Hd. intros x Hx.
    specialize (Hc x Hx). apply andb_true_iff in Hc as [Hk Hv].
    assert (Hm : forallb is_scalar (quote (ensure_ascii style) (fst x) ++ key_separator style
                                    ++ value_text style (snd x)) = true).
    { apply H. by apply (in_map (fun p => quote (ensure_ascii style) (fst p) ++ key_separator style
                                    ++ value_text style (snd p))). }
    rewrite Hraw, !forallb_app, !andb_true_iff in Hm. destruct Hm as (Hq & _ & Ht).
    rewrite quote_scalar by done. apply Hd; done.
Qed.
End TextScalar.

Lemma scalar_text_ok s : forallb is_scalar s = true -> text_ok s = true.
Proof.
  intros H. unfold text_ok. apply andb_true_iff. split.
  - rewrite forallb_forall in *. intros c Hc. specialize (H c Hc). unfold is_scalar in H.
    by apply andb_true_iff in H as [? _].
  - induction s as [|c s IH]; [done|]. cbn [forallb no_split_pair] in *.
    apply andb_true_iff in H as [Hc Hs]. rewrite IH, andb_true_r by done.
    destruct s as [|d s]; [done|]. apply negb_true_iff, andb_false_iff. left.
    unfold is_scalar, is_surrogate in Hc. apply andb_true_iff in Hc as [_ Hc%negb_true_iff].
    unfold is_high. destruct (between_reflect 55296 56319 c); [|done].
    exfalso. assert (between 55296 57343 c = true); [|congruence]. apply between_spec. lia.
Qed.

(** Strings as Python has them, and distinct environment names. *)
Record python_request (r : request) : Prop := {
  py_text : all_text (forallb is_code_point) (request_value r) = true;
  py_names : NoDup (keys (rq_environment r));
}.

Lemma request_value_ok r : python_request r -> all_text (forallb is_scalar) (request_value r) = true ->
  json_value_ok (request_value r) = true.
Proof.
  intros [_ Hn] H. unfold request_value in *. cbn [all_text json_value_ok forallb fst snd] in *.
  rewrite !andb_true_iff in H. destruct H as ((_ & Ha) & (_ & Hc) & (_ & He) & _).
  rewrite !andb_true_iff. split_and!; try done.
  - rewrite forallb_forall in *. intros x Hx. specialize (Ha x Hx).
    apply in_map_iff in Hx as (s & <- & _). by apply scalar_text_ok.
  - destruct (rq_cwd r); [|done]. by apply scalar_text_ok.
  - rewrite forallb_forall in *. intros x Hx. specialize (He x Hx).
    apply in_map_iff in Hx as (p & <- & _). cbn [fst snd all_text json_value_ok] in *.
    apply andb_true_iff in He as [? ?]. by rewrite !scalar_text_ok.
  - apply distinct_iff. unfold keys. rewrite map_map. exact Hn.
Qed.

Lemma request_plain : plain_style request_style [] [].
Proof. done. Qed.

Lemma launcher_rebuilding : rebuilding launcher_hooks.
Proof.
  constructor; cbn.
  - intros d Hd. by rewrite reject_duplicate_fresh.
  - intros f. unfold float_reads_back. destruct (isfinite f); [|done]. cbn [andb].
    destruct (match_number _) as [[[[sg ip] [|]] []]|]; try done.
    intros [_ H]%andb_true_iff. apply float_eqb_eq in H. by rewrite H.
Qed.

(** Validation answers the request it was given. *)
Lemma request_value_validates r r' : validate_request (request_value r) = Ok r' -> r' = r.
Proof.
  intros Hv.
  unfold validate_request, request_value in Hv.
  apply bind_Ok in Hv as (d & [= <-] & Hv). apply bind_Ok in Hv as (u & _ & Hv).
  apply bind_Ok in Hv as (argv & (Ha & _)%validate_argv_value_Ok & Hv).
  apply bind_Ok in Hv as (cwd & Hc & Hv). apply bind_Ok in Hv as (items & Hi%of_option_Ok & Hv).
  apply bind_Ok in Hv as (u' & _ & Hv). apply bind_Ok in Hv as (env & He%mapM_result_Ok & Hv).
  apply bind_Ok in Hv as (u'' & _ & [= <-]).
  change (get_or_none _ _) with (PList (map PStr (rq_argv r))) in Ha.
  change (get_or_none _ _) with (PDict (map (fun p => (fst p, PStr (snd p))) (rq_environment r))) in Hi.
  change (get_or_none _ _) with (match rq_cwd r with Some c => PStr c | None => PNone end) in Hc.
  injection Ha as Ha. injection Hi as <-. destruct r as [a c e]; cbn [rq_argv rq_cwd rq_environment] in *.
  f_equal.
  - revert Ha. clear. revert argv. induction a as [|x a IH]; intros [|y argv]; cbn; try done.
    intros [= <- H]. f_equal. by apply IH.
  - destruct c as [c|]; [|by injection Hc]. apply bind_Ok in Hc as (c' & [= ->] & Hc).
    by apply bind_Ok in Hc as (u3 & _ & [= <-]).
  - revert He. clear. revert env. induction e as [|[k v] e IH]; intros env He; cbn in He.
    + by inversion He.
    + apply Forall2_cons_inv_l in He as (q & env' & (Hq & _)%validate_environment_item_Ok & He & ->).
      rewrite <- (IH env') by done. destruct q as [k' v']. cbn in Hq. by injection Hq as <- <-.
Qed.

(** What [serialize_request] writes decodes to the request. *)
Lemma serialize_request_decodes r payload : python_request r -> serialize_request r = Ok payload ->
  valid_request r /\ decode_request payload = Ok r /\ 0 < zlen payload <= MAX_LAUNCH_REQUEST_SIZE.
Proof.
  intros Hpy. unfold serialize_request. intros (r' & Hv & H)%bind_Ok.
  pose proof (validate_request_valid _ _ Hv) as Hval'.
  apply request_value_validates in Hv as Hr. rewrite Hr in Hval', H. clear Hr Hv. rename Hval' into Hval.
  apply bind_Ok in H as (text & Ht & H). apply bind_Ok in H as (payload' & Hp%of_option_Ok & H).
  unfold dumps in Ht. change (Json.sort_keys request_style) with false in Ht. cbn iota in Ht.
  destruct (encodable _ _); [|done].
  assert (text = value_text request_style (request_value r)) as -> by congruence. clear Ht.
  assert (Hscalar : forallb is_scalar (value_text request_style (request_value r)) = true).
  { unfold utf8_encode in Hp. by destruct (forallb is_scalar _). }
  pose proof (request_value_ok r Hpy (value_text_scalar request_style eq_refl _ (py_text _ Hpy) Hscalar)) as Hok.
  destruct (nonempty payload') eqn:Hne; [|done]. cbn [negb orb] in H.
  destruct (Z.ltb_spec MAX_LAUNCH_REQUEST_SIZE (zlen payload')); [done|]. injection H as <-.
  split; [done|]. split.
  - unfold decode_request. rewrite (utf8_roundtrip _ _ Hp). cbn [of_option mbind result_bind].
    rewrite (loads_value_text request_style [] []) by (done || apply request_plain || apply launcher_rebuilding).
    cbn [of_option mbind result_bind]. by apply valid_request_validates.
  - split; [|done]. destruct payload'; [done|]. rewrite zlen_cons. pose proof (zlen_nonneg payload'). lia.
Qed.

(** ** Lemmas: reading *)
Section LauncherReading.
Context {R : Type} {holds : R -> bytes -> Prop} `{HR : Reader R} `{!ReaderSpec R holds}.

Lemma read_up_to_holds fuel n chunks r data : holds r data -> (Z.to_nat (n - zlen chunks) <= fuel)%nat ->
  exists r', read_up_to fuel n chunks r = (Ok (chunks ++ take (Z.to_nat (n - zlen chunks)) data), r') /\
    holds r' (drop (Z.to_nat (n - zlen chunks)) data).
Proof.
  revert chunks r data. induction fuel as [|k IH]; intros chunks r data Hr Hf; cbn [read_up_to].
  - assert (n <= zlen chunks) by lia. rewrite (proj2 (Z.leb_le _ _)) by done.
    replace (Z.to_nat (n - zlen chunks)) with 0%nat by lia. exists r. by rewrite app_nil_r.
  - destruct (Z.leb_spec n (zlen chunks)).
    { replace (Z.to_nat (n - zlen chunks)) with 0%nat by lia. exists r. by rewrite app_nil_r. }
    destruct (recv_spec (n - zlen chunks) r data Hr ltac:(lia)) as (chunk & rest & r' & -> & -> & Hle & Hne & Hr').
    destruct chunk as [|b chunk].
    { destruct rest; [|by destruct Hne]. exists r'. cbn [app]. by rewrite take_nil, drop_nil, app_nil_r. }
    remember (b :: chunk) as c eqn:Ec. clear Hne.
    assert (0 < zlen c) by (rewrite Ec, zlen_cons; pose proof (zlen_nonneg chunk); lia).
    destruct (IH (chunks ++ c) r' rest Hr') as (r'' & -> & Hr''); [rewrite zlen_app; lia|].
    exists r''. rewrite zlen_app in *.
    assert (E : Z.to_nat (n - zlen chunks) = (length c + Z.to_nat (n - (zlen chunks + zlen c)))%nat)
      by (unfold zlen in *; lia).
    rewrite E, take_app_add, drop_app_add, app_assoc. done.
Qed.

Lemma launcher_read_holds n r data : holds r data ->
  exists r', launcher_read_exact n r = (Ok (take (Z.to_nat n) data), r') /\
    holds r' (drop (Z.to_nat n) data).
Proof.
  intros Hr. destruct (read_up_to_holds (Z.to_nat n) n [] r data Hr) as (r' & E & H).
  { change (zlen (@nil Z)) with 0. lia. }
  change (zlen (@nil Z)) with 0 in *. rewrite Z.sub_0_r in *. by exists r'.
Qed.

(** One byte, or none at the end. *)
Lemma recv_one r data : holds r data -> exists r', recv 1 r = (Ok (take 1 data), r').
Proof.
  intros Hr. destruct (recv_spec 1 r data Hr ltac:(lia)) as (chunk & rest & r' & E & -> & Hle & Hne & _).
  exists r'. rewrite E. f_equal. f_equal. destruct chunk as [|b chunk].
  - destruct rest; [done|by destruct Hne].
  - destruct chunk; [done|]. rewrite !zlen_cons in Hle. pose proof (zlen_nonneg chunk). lia.
Qed.
End LauncherReading.

(** ** Properties *)

Section Properties.
Context {R : Type} {holds : R -> bytes -> Prop} `{HR : Reader R} `{!ReaderSpec R holds}.
Context (chdir : pystr -> result unit) (exec_function : request -> result unit).

(** The launcher runs exactly what the agent asked for, and only when
    told to: given the frame that [write_request] sends for a request, it
    becomes that very command (same arguments, directory and environment) when
    the gate delivers "G", and otherwise, for instance when the agent closed
    the gate, it exits with 75 without running anything. *)
Theorem launcher_runs_request r payload request_descriptor gate_descriptor gate :
  python_request r -> serialize_request r = Ok payload ->
  holds request_descriptor (be_bytes 4 (zlen payload) ++ payload) ->
  holds gate_descriptor gate ->
  run_launcher chdir exec_function request_descriptor gate_descriptor
  = if str_eqb (take 1 gate) GO then become chdir exec_function r
    else Ok (mkLaunch None EXIT_GATE_CLOSED).
Proof.
  intros Hpy Hser Hreq Hgate.
  destruct (serialize_request_decodes r payload Hpy Hser) as (_ & Hdec & Hsize).
  unfold MAX_LAUNCH_REQUEST_SIZE in Hsize.
  unfold run_launcher. destruct (launcher_read_holds 4 _ _ Hreq) as (r1 & -> & H1).
  assert (Z.to_nat 4 = length (be_bytes 4 (zlen payload))) as E4 by by rewrite be_bytes_length.
  rewrite E4, take_app_length. rewrite E4, drop_app_length in H1.
  assert (zlen (be_bytes 4 (zlen payload)) = 4) as -> by (unfold zlen at 1; by rewrite be_bytes_length).
  rewrite be_value_bytes by (cbn; lia). change (4 =? 4) with true. cbn [negb].
  unfold MAX_LAUNCH_REQUEST_SIZE.
  rewrite (proj2 (Z.ltb_lt _ _)), (proj2 (Z.leb_le _ _)) by lia. cbn [andb negb].
  destruct (launcher_read_holds (zlen payload) _ _ H1) as (r2 & -> & H2).
  assert (Z.to_nat (zlen payload) = length payload) as El by (unfold zlen; lia).
  rewrite El, take_ge by done. rewrite El, drop_ge in H2 by done.
  rewrite Z.eqb_refl. cbn [negb]. destruct (recv_one _ _ H2) as (r3 & ->). cbn [take].
  rewrite Hdec. by destruct (recv_one _ _ Hgate) as (r4 & ->).
Qed.

(** C32.  Nothing is executed without the gate: whatever arrives on the two
    descriptors, if the launcher calls [exec] then the request is valid (its
    PATH is the safe one, no empty or zero-containing argument, bounded
    sizes), the request pipe held exactly one frame, and the gate delivered
    "G". *)
Theorem launcher_executes_only_gated request_descriptor gate_descriptor data gate l r :
  holds request_descriptor data -> holds gate_descriptor gate ->
  run_launcher chdir exec_function request_descriptor gate_descriptor = Ok l ->
  executed l = Some r ->
  valid_request r /\ hd_error gate = Some 71 /\
  exists header payload, data = header ++ payload /\ length header = 4%nat /\
    zlen payload = be_value header /\ decode_request payload = Ok r.
Proof.
  intros Hreq Hgate H Hex. unfold run_launcher in H.
  assert (Hfail : forall e, exec_failure e = Ok l -> False).
  { intros e. unfold exec_failure. destruct (_ || _); [|done]. intros [= <-]. done. }
  destruct (launcher_read_holds 4 _ _ Hreq) as (r1 & E1 & H1). rewrite E1 in H.
  destruct (Z.eqb_spec (zlen (take (Z.to_nat 4) data)) 4) as [Hh|]; [|by injection H as <-]. cbn [negb] in H.
  set (header := take (Z.to_nat 4) data) in *.
  destruct ((0 <? be_value header) && (be_value header <=? MAX_LAUNCH_REQUEST_SIZE)) eqn:Hl;
    [|by injection H as <-]. cbn [negb] in H. apply andb_true_iff in Hl as [Hl%Z.ltb_lt _].
  destruct (launcher_read_holds (be_value header) _ _ H1) as (r2 & E2 & H2). rewrite E2 in H.
  set (body := drop (Z.to_nat 4) data) in *.
  destruct (Z.eqb_spec (zlen (take (Z.to_nat (be_value header)) body)) (be_value header)) as [Hp|];
    [|by injection H as <-]. cbn [negb] in H.
  destruct (recv_one _ _ H2) as (r3 & E3). rewrite E3 in H.
  destruct (drop (Z.to_nat (be_value header)) body) as [|x rest] eqn:Erest;
    cbn [take] in H; [|by injection H as <-].
  assert (Hbody : body = take (Z.to_nat (be_value header)) body).
  { rewrite <- (take_drop (Z.to_nat (be_value header)) body) at 1. by rewrite Erest, app_nil_r. }
  rewrite <- Hbody in H, Hp.
  destruct (decode_request body) as [req|e] eqn:Hdec;
    [|destruct (is_ValueError e); [by injection H as <-|by destruct (Hfail e)]].
  destruct (recv_one _ _ Hgate) as (r4 & E4). rewrite E4 in H.
  destruct (str_eqb_spec (take 1 gate) GO) as [Hg|]; [|by injection H as <-].
  assert (req = r) as ->.
  { unfold become in H. destruct (match rq_cwd req with Some c => chdir c | None => Ok tt end) as [|e];
      [|by destruct (Hfail e)].
    destruct (exec_function req) as [|e]; [injection H as <-; by injection Hex|].
    destruct (_ || _); [|done]. injection H as <-. by injection Hex. }
  split.
  - unfold decode_request in Hdec. apply bind_Ok in Hdec as (t & _ & Hdec).
    apply bind_Ok in Hdec as (v & _ & Hdec). by eapply validate_request_valid.
  - split; [by destruct gate as [|g gate]; [|injection Hg as ->]|].
    exists header, body. split_and!; [symmetry; apply take_drop|unfold zlen in Hh; lia|done|done].
Qed.
End Properties.

Definition demo_launch : request :=
  mkRequest [str "/usr/bin/docker"; str "ps"; [233; 128512]] (Some (str "/srv"))
    [(PATH, SAFE_PATH); (str "LANG", str "C.UTF-8")].
Definition demo_payload : bytes :=
  Eval vm_compute in match serialize_request demo_launch with Ok b => b | Raise _ => [] end.

Lemma demo_python : python_request demo_launch.
Proof. constructor; [vm_compute; reflexivity|]. apply distinct_NoDup. vm_compute. reflexivity. Qed.

Lemma launcher_runs_request_witness :
  run_launcher (fun _ => Ok tt) (fun _ => Ok tt)
    (mkChunked (be_bytes 4 (zlen demo_payload) ++ demo_payload) [2%nat; 0%nat; 9%nat])
    (mkChunked (str "G") []) = become (fun _ => Ok tt) (fun _ => Ok tt) demo_launch.
Proof.
  apply (launcher_runs_request (holds := fun r data => pending r = data)
    (fun _ => Ok tt) (fun _ => Ok tt) demo_launch demo_payload _ _ (str "G")).
  - apply demo_python.
  - vm_compute. reflexivity.
  - reflexivity.
  - reflexivity.
Defined.

Lemma launcher_executes_only_gated_witness :
  valid_request demo_launch /\ hd_error (str "G") = Some 71 /\
  exists header payload, be_bytes 4 (zlen demo_payload) ++ demo_payload = header ++ payload /\
    length header = 4%nat /\ zlen payload = be_value header /\ decode_request payload = Ok demo_launch.
Proof.
  eapply (launcher_executes_only_gated (holds := fun r data => pending r = data)
    (fun _ => Ok tt) (fun _ => Ok tt)
    (mkChunked (be_bytes 4 (zlen demo_payload) ++ demo_payload) []) (mkChunked (str "G") [])
    _ (str "G") (mkLaunch (Some demo_launch) 0)); try reflexivity.
Defined.
