(* ===== verification/Policy.v ===== *)
(** * Approval policy of the host agent

    [host_agent/dgx_ops_agent/policy.py]: the table of read-only tools, the
    parameter schemas, and the approval that a shell action needs.  An action
    either binds to one fixed executable invocation or is refused. *)
From Stdlib Require Import ZArith Lia Bool String.
From stdpp Require Import prelude sorting.
From S2P Require Import Prelude PyValue PosixPath.
Open Scope Z_scope.

(** ** Constants *)
Definition MAX_COMMAND_LENGTH : Z := 16384.
Definition MAX_CWD_LENGTH : Z := 4096.
Definition MAX_ENVIRONMENT_VARIABLES : Z := 16.
Definition MAX_ENVIRONMENT_VALUE_LENGTH : Z := 256.
Definition MAX_IDENTIFIER_LENGTH : Z := 128.
Definition MAX_SERVICE_LENGTH : Z := 256.
Definition APPROVAL_FUTURE_SKEW_SECONDS : Z := 300.
Definition DEFAULT_TIMEOUT : Z := 30.
Definition MIN_TIMEOUT : Z := 1.
Definition MAX_TIMEOUT : Z := 3600.
Definition MIN_TAIL : Z := 1.
Definition MAX_TAIL : Z := 5000.

Definition container_char (c : Z) : bool := is_alnum c || (c =? 95) || (c =? 46) || (c =? 45).

(** [[A-Za-z0-9][A-Za-z0-9_.-]{0,127}\Z], full match *)
Definition CONTAINER_PATTERN (s : pystr) : bool :=
  match s with
  | [] => false
  | c :: r => is_alnum c && forallb container_char r && (zlen r <=? 127)
  end.

Definition service_char (c : Z) : bool :=
  is_alnum c || (c =? 95) || (c =? 46) || (c =? 64) || (c =? 45).

(** [[A-Za-z0-9_.@-]+\Z], full match *)
Definition SERVICE_PATTERN (s : pystr) : bool :=
  match s with [] => false | _ => forallb service_char s end.

Definition approval_identifier_char (c : Z) : bool :=
  is_alnum c || (c =? 46) || (c =? 95) || (c =? 64) || (c =? 58) || (c =? 45).

(** [[A-Za-z0-9][A-Za-z0-9._@:-]{0,127}\Z], full match *)
Definition APPROVAL_IDENTIFIER_PATTERN (s : pystr) : bool :=
  match s with
  | [] => false
  | c :: r =>
      is_alnum c && forallb approval_identifier_char r && (zlen r <=? MAX_IDENTIFIER_LENGTH - 1)
  end.

Definition char_at (s : pystr) (i : nat) : Z := nth i s (-1).

(** [\d{4}-\d{2}-\d{2}T\d{2}:\d{2}:\d{2}(?:\.\d{1,6})?Z\Z], full match.
    [\d] also matches the other Unicode decimal digits; a timestamp written
    with those is refused by [datetime.fromisoformat] just below with the same
    error, so the pattern here is the ASCII one. *)
Definition UTC_TIMESTAMP_PATTERN (s : pystr) : bool :=
  forallb (fun i => is_digit (char_at s i))
    [0; 1; 2; 3; 5; 6; 8; 9; 11; 12; 14; 15; 17; 18]%nat
  && (char_at s 4 =? 45) && (char_at s 7 =? 45) && (char_at s 10 =? 84)
  && (char_at s 13 =? 58) && (char_at s 16 =? 58)
  && match drop 19 s with
     | [z] => z =? 90
     | dot :: rest =>
         (dot =? 46) && (2 <=? zlen rest) && (zlen rest <=? 7)
         && forallb is_digit (removelast rest) && (List.last rest 0 =? 90)
     | [] => false
     end.

Definition ALLOWED_ENVIRONMENT_KEYS : list pystr :=
  [str "COLORTERM"; str "DEBIAN_FRONTEND"; str "LANG"; str "LC_ALL"; str "LC_CTYPE";
   str "NO_COLOR"; str "PIP_DISABLE_PIP_VERSION_CHECK"; str "TERM"; str "TZ"].

(** ** Time: [datetime] in microseconds since the epoch *)

Definition is_leap (y : Z) : bool :=
  (y mod 4 =? 0) && (negb (y mod 100 =? 0) || (y mod 400 =? 0)).

Definition days_in_month (y m : Z) : Z :=
  if m =? 2 then (if is_leap y then 29 else 28)
  else if (m =? 4) || (m =? 6) || (m =? 9) || (m =? 11) then 30 else 31.

Definition days_before_month (y m : Z) : Z :=
  fold_left (fun acc i => if i <? m then acc + days_in_month y i else acc)
    [1; 2; 3; 4; 5; 6; 7; 8; 9; 10; 11; 12] 0.

(** [date.toordinal] counted from 1970-01-01 *)
Definition days_from_epoch (y m d : Z) : Z :=
  let y1 := y - 1 in
  y1 * 365 + y1 / 4 - y1 / 100 + y1 / 400 + days_before_month y m + d - 719163.

Definition field (s : pystr) (start len : nat) : Z := digits_value (take len (drop start s)).

(** [datetime.fromisoformat(s)] for "YYYY-MM-DDTHH:MM:SS[.ffffff]+00:00" *)
Definition fromisoformat_utc (s : pystr) : option Z :=
  let year := field s 0 4 in let month := field s 5 2 in let day := field s 8 2 in
  let hour := field s 11 2 in let minute := field s 14 2 in let second := field s 17 2 in
  let fraction := take (length s - 19 - 6) (drop 19 s) in
  let micro := digits_value (take 6 (tl fraction ++ repeat 48 6)) in
  if (1 <=? year) && (1 <=? month) && (month <=? 12) && (1 <=? day)
     && (day <=? days_in_month year month)
     && (hour <=? 23) && (minute <=? 59) && (second <=? 59)
  then Some ((((days_from_epoch year month day * 24 + hour) * 60 + minute) * 60 + second) * 1000000
             + micro)
  else None.

(** The last second of year 9999, the end of [datetime]'s range. *)
Definition MAX_DATETIME_SECONDS : Z := 253402300799.

(** ** Data *)

Record ApprovalMetadata := {
  plan_id : pystr;
  step_id : pystr;
  approved_by : pystr;
  approved_at : pystr;
}.

Record ValidatedAction := {
  va_action : pystr;
  va_argv : list pystr;
  va_cwd : option pystr;
  va_timeout : Z;
  va_read_only : bool;
  va_approval : option ApprovalMetadata;
  va_environment : list (pystr * pystr);
}.

Record ToolSpec := {
  ts_argv : list pystr;
  ts_parameter_kind : pystr;
  ts_timeout : Z;
}.

Definition invalid_parameters : exn := PolicyError (str "invalid parameters").
Definition invalid_approval : exn := PolicyError (str "invalid approval").
Definition invalid_request_timestamp : exn := PolicyError (str "invalid request timestamp").

(** ** Validators *)

Definition require_exact_keys (parameters : pydict) (expected : list pystr) : result unit :=
  guard_exn (keys_equal parameters expected) invalid_parameters.

(** [parameters[key]], after the keys were checked *)
Definition item (parameters : pydict) (key : string) : pyval := get_or_none (str key) parameters.

Definition validate_container (value : pyval) : result pystr :=
  match value with
  | PStr s => if CONTAINER_PATTERN s then Ok s else Raise invalid_parameters
  | _ => Raise invalid_parameters
  end.

(** [value.isdecimal()] on the ASCII strings that the pattern admits *)
Definition isdecimal (s : pystr) : bool :=
  match s with [] => false | _ => forallb is_digit s end.

Definition service_ok (s : pystr) : bool :=
  negb ((MAX_SERVICE_LENGTH <? zlen s) || startswith (str "-") s || isdecimal s
        || negb (SERVICE_PATTERN s)).

Definition validate_service (value : pyval) : result pystr :=
  match value with
  | PStr s => if service_ok s then Ok s else Raise invalid_parameters
  | _ => Raise invalid_parameters
  end.

Definition validate_tail (value : pyval) : result Z :=
  match value with
  | PInt n => if (MIN_TAIL <=? n) && (n <=? MAX_TAIL) then Ok n else Raise invalid_parameters
  | _ => Raise invalid_parameters
  end.

Definition bind_argv (spec : ToolSpec) (parameters : pydict) : result (list pystr) :=
  let kind := ts_parameter_kind spec in
  if str_eqb kind (str "none") then
    _ ← require_exact_keys parameters []; Ok (ts_argv spec)
  else if str_eqb kind (str "container") then
    _ ← require_exact_keys parameters [str "container"];
    container ← validate_container (item parameters "container");
    Ok (ts_argv spec ++ [container])
  else if str_eqb kind (str "container_tail") then
    _ ← require_exact_keys parameters [str "container"; str "tail"];
    container ← validate_container (item parameters "container");
    tail ← validate_tail (item parameters "tail");
    Ok (ts_argv spec ++ [dec tail; container])
  else if str_eqb kind (str "service") then
    _ ← require_exact_keys parameters [str "service"];
    service ← validate_service (item parameters "service");
    Ok (ts_argv spec ++ [service])
  else if str_eqb kind (str "service_tail") then
    _ ← require_exact_keys parameters [str "service"; str "tail"];
    service ← validate_service (item parameters "service");
    tail ← validate_tail (item parameters "tail");
    Ok (ts_argv spec ++ [service; str "--lines"; dec tail])
  else Raise (PolicyError (str "invalid tool policy")).

(** [ToolSpec.bind] *)
Definition bind_tool (spec : ToolSpec) (action : pystr) (parameters : pydict)
    : result ValidatedAction :=
  argv ← bind_argv spec parameters;
  Ok {| va_action := action; va_argv := argv; va_cwd := None; va_timeout := ts_timeout spec;
        va_read_only := true; va_approval := None; va_environment := [] |}.

Definition tool (argv : list string) (kind : string) (timeout : Z) : ToolSpec :=
  {| ts_argv := map str argv; ts_parameter_kind := str kind; ts_timeout := timeout |}.

Definition READ_ONLY_TOOLS : list (pystr * ToolSpec) :=
  [(str "host.memory", tool ["/usr/bin/free"; "--bytes"] "none" 10);
   (str "host.disk",
     tool ["/usr/bin/df"; "--block-size=1"; "--output=source,target,size,used,avail,pcent"] "none" 10);
   (str "host.gpu",
     tool ["/usr/bin/nvidia-smi";
           "--query-gpu=name,driver_version,temperature.gpu,power.draw,utilization.gpu";
           "--format=csv,noheader,nounits"] "none" 15);
   (str "host.ports", tool ["/usr/bin/ss"; "-lntupH"] "none" 10);
   (str "host.processes",
     tool ["/usr/bin/ps"; "-eo"; "pid,ppid,user,stat,%cpu,%mem,etimes,comm"; "--sort=-%cpu"]
       "none" 10);
   (str "docker.list",
     tool ["/usr/bin/docker"; "container"; "list"; "--all"; "--no-trunc"] "none" 15);
   (str "docker.inspect", tool ["/usr/bin/docker"; "container"; "inspect"] "container" 15);
   (str "docker.logs", tool ["/usr/bin/docker"; "logs"; "--tail"] "container_tail" 15);
   (str "docker.stats", tool ["/usr/bin/docker"; "stats"; "--no-stream"] "container" 15);
   (str "systemd.status",
     tool ["/usr/bin/systemctl"; "--no-pager"; "--full"; "status"] "service" 15);
   (str "systemd.journal",
     tool ["/usr/bin/journalctl"; "--no-pager"; "--output=short-iso"; "--unit"] "service_tail" 15)]%string.

Definition READ_ONLY_ACTIONS : list pystr := keys READ_ONLY_TOOLS.

(** ** Shell parameters *)

Definition control_free (s : pystr) : bool :=
  negb (existsb (fun c => (c <? 32) || ((127 <=? c) && (c <=? 159))) s).

Definition environment_entry (kv : pystr * pyval) : result (pystr * pystr) :=
  let '(key, value) := kv in
  match value with
  | PStr v =>
      if str_in key ALLOWED_ENVIRONMENT_KEYS
         && (zlen v <=? MAX_ENVIRONMENT_VALUE_LENGTH) && control_free v
      then Ok (key, v) else Raise invalid_parameters
  | _ => Raise invalid_parameters
  end.

(** [sorted] on pairs of strings *)
Definition pair_leb (a b : pystr * pystr) : bool :=
  if str_eqb (fst a) (fst b) then str_leb (snd a) (snd b) else str_leb (fst a) (fst b).

Fixpoint insert_pair (x : pystr * pystr) (l : list (pystr * pystr)) : list (pystr * pystr) :=
  match l with
  | [] => [x]
  | y :: r => if pair_leb x y then x :: l else y :: insert_pair x r
  end.

Definition sorted_pairs (l : list (pystr * pystr)) : list (pystr * pystr) :=
  fold_right insert_pair [] l.

Definition validate_environment (value : pyval) : result (list (pystr * pystr)) :=
  match value with
  | PDict d =>
      if MAX_ENVIRONMENT_VARIABLES <? zlen d then Raise invalid_parameters
      else entries ← mapM_result environment_entry d; Ok (sorted_pairs entries)
  | _ => Raise invalid_parameters
  end.

Definition command_ok (command : pyval) : bool :=
  match command with
  | PStr s =>
      negb (str_eqb (strip s) []) && (zlen s <=? MAX_COMMAND_LENGTH) && negb (existsb (Z.eqb 0) s)
  | _ => false
  end.

Definition cwd_ok (cwd : pyval) : bool :=
  match cwd with
  | PStr s =>
      negb (str_eqb s []) && (zlen s <=? MAX_CWD_LENGTH) && negb (existsb (Z.eqb 0) s)
      && startswith (str "/") s && negb (startswith (str "//") s)
      && str_eqb (normpath s) s
  | _ => false
  end.

Definition timeout_ok (timeout : pyval) : bool :=
  match timeout with
  | PInt n => (MIN_TIMEOUT <=? n) && (n <=? MAX_TIMEOUT)
  | _ => false
  end.

Definition validate_shell_parameters (parameters : pydict)
    : result (pystr * pystr * Z * list (pystr * pystr)) :=
  if negb (keys_superset parameters [str "command"; str "cwd"]
           && keys_subset parameters [str "command"; str "cwd"; str "env"; str "timeout"])
  then Raise invalid_parameters
  else
    let command := item parameters "command" in
    let cwd := item parameters "cwd" in
    let timeout := default (PInt DEFAULT_TIMEOUT) (dict_get (str "timeout") parameters) in
    environment ← validate_environment (default (PDict []) (dict_get (str "env") parameters));
    match command, cwd, timeout with
    | PStr c, PStr w, PInt t =>
        if negb (command_ok command) then Raise invalid_parameters
        else if negb (cwd_ok cwd) then Raise invalid_parameters
        else if negb (timeout_ok timeout) then Raise invalid_parameters
        else Ok (c, w, t, environment)
    | _, _, _ => Raise invalid_parameters
    end.

(** ** Approval *)

(** [now]: [datetime.now(UTC)], in microseconds since the epoch *)
Definition approval_reference_time (now : Z) (request_timestamp : pyval) : result Z :=
  match request_timestamp with
  | PNone => Ok now
  | PInt t =>
      if t <? 0 then Raise invalid_request_timestamp
      else if t <=? MAX_DATETIME_SECONDS then Ok (t * 1000000)
      else Raise invalid_request_timestamp
  | _ => Raise invalid_request_timestamp
  end.

Definition validate_approval_identifier (value : pyval) : result pystr :=
  match value with
  | PStr s => if APPROVAL_IDENTIFIER_PATTERN s then Ok s else Raise invalid_approval
  | _ => Raise invalid_approval
  end.

Definition APPROVAL_FIELDS : list pystr :=
  [str "plan_id"; str "step_id"; str "approved_by"; str "approved_at"].

Definition validate_approval (approval : pyval) (reference_time : Z) : result ApprovalMetadata :=
  match approval with
  | PDict d =>
      if negb (keys_equal d APPROVAL_FIELDS) then Raise invalid_approval else
      plan ← validate_approval_identifier (item d "plan_id");
      step ← validate_approval_identifier (item d "step_id");
      by_ ← validate_approval_identifier (item d "approved_by");
      match item d "approved_at" with
      | PStr at_ =>
          if negb (UTC_TIMESTAMP_PATTERN at_) then Raise invalid_approval else
          approved_time ← of_option (fromisoformat_utc (removelast at_ ++ str "+00:00"))
                            invalid_approval;
          if APPROVAL_FUTURE_SKEW_SECONDS * 1000000 <? approved_time - reference_time
          then Raise invalid_approval
          else Ok {| plan_id := plan; step_id := step; approved_by := by_; approved_at := at_ |}
      | _ => Raise invalid_approval
      end
  | _ => Raise invalid_approval
  end.

Definition SHELL : pystr := str "shell.execute".
Definition SHELL_ARGV : list pystr :=
  [str "/bin/bash"; str "--noprofile"; str "--norc"; str "-c"].

(** [validate_action] *)
Definition validate_action (now : Z) (action parameters approval request_timestamp : pyval)
    : result ValidatedAction :=
  match action with
  | PStr name =>
      match parameters with
      | PDict d =>
          match dict_get name READ_ONLY_TOOLS with
          | Some spec => bind_tool spec name d
          | None =>
              if negb (str_eqb name SHELL) then Raise (PolicyError (str "unknown action")) else
              '(command, cwd, timeout, environment) ← validate_shell_parameters d;
              reference_time ← approval_reference_time now request_timestamp;
              metadata ← validate_approval approval reference_time;
              Ok {| va_action := name; va_argv := SHELL_ARGV ++ [command]; va_cwd := Some cwd;
                    va_timeout := timeout; va_read_only := false;
                    va_approval := Some metadata; va_environment := environment |}
          end
      | _ => Raise invalid_parameters
      end
  | _ => Raise (PolicyError (str "unknown action"))
  end.

(** ** Specification

    What an executor may rely on for an action the policy let through. *)

(** The user-controlled arguments a tool of each kind appends to its fixed
    ones, for a parameter dictionary [d]. *)
Inductive tool_arguments (d : pydict) : pystr -> list pystr -> Prop :=
  | args_none : keys_equal d [] = true -> tool_arguments d (str "none") []
  | args_container c :
      keys_equal d [str "container"] = true ->
      item d "container" = PStr c -> CONTAINER_PATTERN c = true ->
      tool_arguments d (str "container") [c]
  | args_container_tail c n :
      keys_equal d [str "container"; str "tail"] = true ->
      item d "container" = PStr c -> CONTAINER_PATTERN c = true ->
      item d "tail" = PInt n -> MIN_TAIL <= n <= MAX_TAIL ->
      tool_arguments d (str "container_tail") [dec n; c]
  | args_service v :
      keys_equal d [str "service"] = true ->
      item d "service" = PStr v -> service_ok v = true ->
      tool_arguments d (str "service") [v]
  | args_service_tail v n :
      keys_equal d [str "service"; str "tail"] = true ->
      item d "service" = PStr v -> service_ok v = true ->
      item d "tail" = PInt n -> MIN_TAIL <= n <= MAX_TAIL ->
      tool_arguments d (str "service_tail") [v; str "--lines"; dec n].

Record environment_ok (env : list (pystr * pystr)) : Prop := {
  env_count : zlen env <= MAX_ENVIRONMENT_VARIABLES;
  env_entries : Forall (fun kv => In (fst kv) ALLOWED_ENVIRONMENT_KEYS
                  /\ zlen (snd kv) <= MAX_ENVIRONMENT_VALUE_LENGTH
                  /\ control_free (snd kv) = true) env;
  env_sorted : StronglySorted (fun a b => pair_leb a b = true) env;
}.

Record approval_ok (reference_time : Z) (m : ApprovalMetadata) : Prop := {
  ap_plan : APPROVAL_IDENTIFIER_PATTERN (plan_id m) = true;
  ap_step : APPROVAL_IDENTIFIER_PATTERN (step_id m) = true;
  ap_by : APPROVAL_IDENTIFIER_PATTERN (approved_by m) = true;
  ap_fresh : exists t,
    fromisoformat_utc (removelast (approved_at m) ++ str "+00:00") = Some t
    /\ t <= reference_time + APPROVAL_FUTURE_SKEW_SECONDS * 1000000;
}.

(** An action bound to one row of the tool table, or an approved shell run. *)
Inductive permitted (d : pydict) (reference_time : Z) : ValidatedAction -> Prop :=
  | permitted_tool name spec args :
      dict_get name READ_ONLY_TOOLS = Some spec ->
      tool_arguments d (ts_parameter_kind spec) args ->
      permitted d reference_time
        {| va_action := name; va_argv := ts_argv spec ++ args; va_cwd := None;
           va_timeout := ts_timeout spec; va_read_only := true; va_approval := None;
           va_environment := [] |}
  | permitted_shell command cwd timeout m env :
      item d "command" = PStr command -> item d "cwd" = PStr cwd ->
      strip command <> [] -> zlen command <= MAX_COMMAND_LENGTH -> ~ In 0 command ->
      zlen cwd <= MAX_CWD_LENGTH -> ~ In 0 cwd -> clean_absolute cwd ->
      MIN_TIMEOUT <= timeout <= MAX_TIMEOUT ->
      environment_ok env -> approval_ok reference_time m ->
      permitted d reference_time
        {| va_action := SHELL; va_argv := SHELL_ARGV ++ [command]; va_cwd := Some cwd;
           va_timeout := timeout; va_read_only := false; va_approval := Some m;
           va_environment := env |}.

(** ** Lemmas *)

Lemma validate_container_Ok v c :
  validate_container v = Ok c <-> v = PStr c /\ CONTAINER_PATTERN c = true.
Proof.
  destruct v; cbn; try (split; [done|intros [? ?]; congruence]).
  destruct (CONTAINER_PATTERN s) eqn:E; split; intros H; try congruence.
  - injection H as ->. done.
  - destruct H as [[= ->] _]. done.
  - destruct H as [[= ->] H]. congruence.
Qed.

Lemma validate_tail_Ok v n : validate_tail v = Ok n <-> v = PInt n /\ MIN_TAIL <= n <= MAX_TAIL.
Proof.
  destruct v as [| |m| | | |]; cbn; try (split; [done|intros [? ?]; congruence]).
  destruct (Z.leb_spec MIN_TAIL m), (Z.leb_spec m MAX_TAIL); cbn; split; intros H1;
    try congruence; try (injection H1 as ->; done); destruct H1 as [[= ->] ?]; try done; lia.
Qed.

Lemma validate_service_Ok v s :
  validate_service v = Ok s <-> v = PStr s /\ service_ok s = true.
Proof.
  destruct v as [| | | |u| |]; cbn; try (split; [done|intros [? ?]; congruence]).
  destruct (service_ok u) eqn:E; split; intros H; try congruence.
  - injection H as ->. done.
  - destruct H as [[= ->] _]. done.
  - destruct H as [[= ->] H]. congruence.
Qed.

Lemma tools_kinds name spec :
  dict_get name READ_ONLY_TOOLS = Some spec ->
  In (ts_parameter_kind spec)
    [str "none"; str "container"; str "container_tail"; str "service"; str "service_tail"].
Proof.
  intros H%dict_get_In. revert H. generalize spec name. clear.
  assert (Forall (fun p => In (ts_parameter_kind (snd p))
    [str "none"; str "container"; str "container_tail"; str "service"; str "service_tail"])
    READ_ONLY_TOOLS) as Hall.
  { unfold READ_ONLY_TOOLS. repeat constructor; cbn -[str]; tauto. }
  intros spec name H. rewrite List.Forall_forall in Hall. exact (Hall _ H).
Qed.

Lemma require_exact_keys_Ok d l u : require_exact_keys d l = Ok u <-> keys_equal d l = true.
Proof. apply guard_exn_Ok. Qed.

Ltac kind_cases :=
  repeat match goal with
  | |- context [str_eqb ?a ?b] =>
      let r := eval vm_compute in (str_eqb a b) in change (str_eqb a b) with r; cbv iota
  | H : context [str_eqb ?a ?b] |- _ =>
      let r := eval vm_compute in (str_eqb a b) in change (str_eqb a b) with r in H; cbv iota in H
  end.

(** Each kind's branch of [bind_argv] accepts exactly its parameter schema. *)
Lemma bind_argv_iff spec d argv :
  In (ts_parameter_kind spec)
    [str "none"; str "container"; str "container_tail"; str "service"; str "service_tail"] ->
  bind_argv spec d = Ok argv <->
  exists args, tool_arguments d (ts_parameter_kind spec) args /\ argv = ts_argv spec ++ args.
Proof.
  unfold bind_argv. destruct spec as [fixed kind time]. cbn [ts_argv ts_parameter_kind].
  intros Hk. split.
  - intros H. destruct Hk as [<-|[<-|[<-|[<-|[<-|[]]]]]]; kind_cases; inv_ok;
      repeat match goal with
      | H : require_exact_keys _ _ = Ok _ |- _ => apply require_exact_keys_Ok in H
      | H : validate_container _ = Ok _ |- _ => apply validate_container_Ok in H as [? ?]
      | H : validate_service _ = Ok _ |- _ => apply validate_service_Ok in H as [? ?]
      | H : validate_tail _ = Ok _ |- _ => apply validate_tail_Ok in H as [? ?]
      end; eexists; (split; [by econstructor|by rewrite ?app_nil_r]).
  - intros (args & Hargs & ->). clear Hk.
    inversion Hargs; subst; kind_cases;
      rewrite (proj2 (require_exact_keys_Ok _ _ tt)) by done; cbn [mbind result_bind];
      repeat match goal with H : item d _ = _ |- _ => rewrite H; clear H end;
      try rewrite (proj2 (validate_container_Ok _ c)) by done;
      try rewrite (proj2 (validate_service_Ok _ v)) by done;
      try rewrite (proj2 (validate_tail_Ok _ n)) by done; by rewrite ?app_nil_r.
Qed.

Lemma pair_leb_total a b : pair_leb a b = true \/ pair_leb b a = true.
Proof.
  unfold pair_leb. rewrite (str_eqb_sym (fst b)).
  destruct (str_eqb (fst a) (fst b)); apply str_leb_total.
Qed.

Lemma pair_leb_trans a b c : pair_leb a b = true -> pair_leb b c = true -> pair_leb a c = true.
Proof.
  unfold pair_leb.
  destruct (str_eqb_spec (fst a) (fst b)) as [->|Hab];
    destruct (str_eqb_spec (fst b) (fst c)) as [Hbc|Hbc].
  - apply str_leb_trans.
  - done.
  - rewrite <- Hbc. by apply str_eqb_neq in Hab as ->.
  - intros H1 H2. destruct (str_eqb_spec (fst a) (fst c)) as [Hac|Hac].
    + exfalso. apply Hbc, str_leb_antisym; [done|]. by rewrite <- Hac.
    + by eapply str_leb_trans.
Qed.

Lemma insert_pair_perm x l : insert_pair x l ≡ₚ x :: l.
Proof.
  induction l as [|y l IH]; cbn; [done|]. destruct (pair_leb x y); [done|].
  rewrite IH. apply Permutation_swap.
Qed.

Lemma sorted_pairs_perm l : sorted_pairs l ≡ₚ l.
Proof. induction l as [|x l IH]; cbn; [done|]. by rewrite insert_pair_perm, IH. Qed.

Lemma insert_pair_sorted x l :
  StronglySorted (fun a b => pair_leb a b = true) l ->
  StronglySorted (fun a b => pair_leb a b = true) (insert_pair x l).
Proof.
  induction 1 as [|y l Hl IH Hy]; cbn; [by repeat constructor|].
  destruct (pair_leb x y) eqn:E.
  - constructor; [by constructor|]. constructor; [done|].
    eapply Forall_impl; [exact Hy|]. intros z Hz. by eapply pair_leb_trans.
  - constructor; [done|]. rewrite insert_pair_perm. constructor; [|done].
    destruct (pair_leb_total x y); congruence.
Qed.

Lemma sorted_pairs_sorted l : StronglySorted (fun a b => pair_leb a b = true) (sorted_pairs l).
Proof. induction l; cbn; [constructor|by apply insert_pair_sorted]. Qed.

Lemma environment_entry_Ok kv kv' :
  environment_entry kv = Ok kv' ->
  kv = (fst kv', PStr (snd kv')) /\ In (fst kv') ALLOWED_ENVIRONMENT_KEYS
  /\ zlen (snd kv') <= MAX_ENVIRONMENT_VALUE_LENGTH /\ control_free (snd kv') = true.
Proof.
  destruct kv as [k v]. unfold environment_entry. destruct v as [| | | |u| |]; try done.
  destruct (str_in k ALLOWED_ENVIRONMENT_KEYS) eqn:E1; [|done].
  destruct (zlen u <=? MAX_ENVIRONMENT_VALUE_LENGTH) eqn:E2; [|done].
  destruct (control_free u) eqn:E3; [|done]. intros [= <-]. cbn.
  apply str_in_In in E1. apply Z.leb_le in E2. done.
Qed.

Lemma validate_environment_ok v env : validate_environment v = Ok env -> environment_ok env.
Proof.
  destruct v as [| | | | | |d]; cbn -[Z.ltb]; try done.
  destruct (Z.ltb_spec MAX_ENVIRONMENT_VARIABLES (zlen d)); [done|]. intros H1. inv_ok.
  apply mapM_result_Ok in Ha. constructor.
  - unfold zlen. rewrite sorted_pairs_perm. rewrite <- (Forall2_length _ _ _ Ha). done.
  - rewrite sorted_pairs_perm. clear -Ha. induction Ha as [|x y l k H Ha IH]; constructor; [|done].
    apply environment_entry_Ok in H. tauto.
  - apply sorted_pairs_sorted.
Qed.

Lemma approval_identifier_Ok v s :
  validate_approval_identifier v = Ok s -> v = PStr s /\ APPROVAL_IDENTIFIER_PATTERN s = true.
Proof.
  destruct v as [| | | |u| |]; cbn; try done.
  destruct (APPROVAL_IDENTIFIER_PATTERN u) eqn:E; [|done]. by intros [= <-].
Qed.

Lemma validate_approval_ok v t m : validate_approval v t = Ok m -> approval_ok t m.
Proof.
  destruct v as [| | | | | |d]; try done. cbn [validate_approval].
  destruct (keys_equal d APPROVAL_FIELDS); [|done]. cbn [negb]. intros H. inv_ok.
  repeat match goal with
  | H : validate_approval_identifier _ = Ok _ |- _ => apply approval_identifier_Ok in H as [_ ?]
  end.
  destruct (item d "approved_at") as [| | | |s| |]; try done.
  destruct (UTC_TIMESTAMP_PATTERN s); [|done]. cbn [negb] in H. inv_ok.
  destruct (Z.ltb_spec (APPROVAL_FUTURE_SKEW_SECONDS * 1000000) (a2 - t)); [done|].
  injection H as <-. constructor; cbn; [done..|]. exists a2. split; [done|lia].
Qed.

Lemma existsb_zero_not_In s : existsb (Z.eqb 0) s = false -> ~ In 0 s.
Proof.
  intros H Hin. assert (existsb (Z.eqb 0) s = true); [|congruence].
  apply existsb_exists. by exists 0.
Qed.

Lemma command_ok_spec c :
  command_ok (PStr c) = true ->
  strip c <> [] /\ zlen c <= MAX_COMMAND_LENGTH /\ ~ In 0 c.
Proof.
  intros H. unfold command_ok in H. split_bools.
  split_and!; [by apply str_eqb_neq|done|by apply existsb_zero_not_In].
Qed.

Lemma cwd_ok_spec w :
  cwd_ok (PStr w) = true -> zlen w <= MAX_CWD_LENGTH /\ ~ In 0 w /\ clean_absolute w.
Proof.
  intros H. unfold cwd_ok in H. split_bools.
  split_and!; [done|by apply existsb_zero_not_In|].
  apply normpath_fixed_clean; [done..|]. by apply str_eqb_eq.
Qed.

(** ** Properties *)

(** C5.  Whatever [validate_action] returns is permitted: it is either one row
    of the read-only table followed by arguments that satisfy that row's
    parameter schema, or the fixed bash invocation of a bounded command in a
    clean absolute directory, with a bounded timeout, an allow-listed sorted
    environment and a well-formed approval dated at most 300 seconds after the
    request. *)
Theorem validate_action_permitted now action d approval ts va :
  validate_action now action (PDict d) approval ts = Ok va ->
  exists reference_time,
    permitted d reference_time va /\
    (va_read_only va = false -> approval_reference_time now ts = Ok reference_time).
Proof.
  unfold validate_action. destruct action as [| | | |name| |]; try done.
  destruct (dict_get name READ_ONLY_TOOLS) as [spec|] eqn:Hget.
  - intros H. unfold bind_tool in H. inv_ok. exists 0. split; [|done].
    apply bind_argv_iff in Ha as (args & Hargs & ->); [|by eapply tools_kinds].
    by apply permitted_tool.
  - destruct (str_eqb_spec name SHELL) as [->|]; [|done]. cbn [negb]. intros H. inv_ok.
    destruct a as [[[command cwd] timeout] env]. inv_ok. exists a. split; [|done].
    unfold validate_shell_parameters in Ha.
    destruct (negb _); [done|]. inv_ok. apply validate_environment_ok in Ha2.
    apply validate_approval_ok in Ha1.
    destruct (item d "command") as [| | | |c| |] eqn:Hc; try done.
    destruct (item d "cwd") as [| | | |w| |] eqn:Hw; try done.
    destruct (default _ _) as [| |t| | | |] eqn:Ht; try done.
    destruct (command_ok (PStr c)) eqn:E1; [|done].
    destruct (cwd_ok (PStr w)) eqn:E2; [|done].
    destruct (timeout_ok (PInt t)) eqn:E3; [|done].
    cbn [negb] in Ha. injection Ha as <- <- <- <-.
    apply command_ok_spec in E1 as (?&?&?). apply cwd_ok_spec in E2 as (?&?&?).
    cbn in E3. split_bools. by constructor.
Qed.

Definition container_logs_call : pydict :=
  [(str "container", PStr (str "vllm-main")); (str "tail", PInt 200)].

Lemma validate_action_permitted_witness :
  exists reference_time,
    permitted container_logs_call reference_time
      {| va_action := str "docker.logs";
         va_argv := [str "/usr/bin/docker"; str "logs"; str "--tail"; str "200"; str "vllm-main"];
         va_cwd := None; va_timeout := 15; va_read_only := true; va_approval := None;
         va_environment := [] |}
    /\ (true = false -> approval_reference_time 0 PNone = Ok reference_time).
Proof.
  apply (validate_action_permitted 0 (PStr (str "docker.logs")) container_logs_call PNone PNone).
  reflexivity.
Defined.

Definition policy_error (e : exn) : Prop := exists msg, e = PolicyError msg.

Lemma invalid_parameters_policy : policy_error invalid_parameters.
Proof. by eexists. Qed.
Lemma invalid_approval_policy : policy_error invalid_approval.
Proof. by eexists. Qed.
#[local] Hint Resolve invalid_parameters_policy invalid_approval_policy : dgx.

(** Every [Raise] in a policy function carries a [PolicyError]. *)
Ltac policy_raises :=
  repeat match goal with
  | H : (_ ≫= _) = Raise _ |- _ =>
      apply bind_Raise in H as [H|(? & _ & H)]
  | H : guard_exn _ _ = Raise _ |- _ => apply guard_exn_Raise in H as [_ <-]
  | H : require_exact_keys _ _ = Raise _ |- _ => unfold require_exact_keys in H
  | H : of_option ?o _ = Raise _ |- _ => destruct o; cbn [of_option] in H
  | H : Ok _ = Raise _ |- _ => discriminate H
  | H : Raise _ = Raise _ |- _ => injection H as <-
  | H : (if ?b then _ else _) = Raise _ |- _ => destruct b
  | H : match ?v with _ => _ end = Raise _ |- _ => destruct v
  | H : validate_container _ = Raise _ |- _ => unfold validate_container in H
  | H : validate_service _ = Raise _ |- _ => unfold validate_service in H
  | H : validate_tail _ = Raise _ |- _ => unfold validate_tail in H
  | H : validate_approval_identifier _ = Raise _ |- _ => unfold validate_approval_identifier in H
  | |- policy_error _ => solve [by eexists]
  end.

Lemma environment_entry_policy kv e : environment_entry kv = Raise e -> policy_error e.
Proof. unfold environment_entry. destruct kv. intros H. policy_raises. Qed.

Lemma mapM_result_Raise {A B} (f : A -> result B) l e :
  mapM_result f l = Raise e -> exists x, In x l /\ f x = Raise e.
Proof.
  induction l as [|x l IH]; cbn; [done|].
  destruct (f x) eqn:Hx.
  - destruct (mapM_result f l); [done|]. intros [= ->]. destruct IH as (y & ? & ?); eauto.
  - intros [= ->]. eauto.
Qed.

Lemma validate_environment_policy v e : validate_environment v = Raise e -> policy_error e.
Proof.
  unfold validate_environment. destruct v; intros H; policy_raises.
  apply mapM_result_Raise in H as (x & _ & H). by eapply environment_entry_policy.
Qed.

Lemma bind_tool_policy spec name d e : bind_tool spec name d = Raise e -> policy_error e.
Proof. unfold bind_tool, bind_argv. intros H. policy_raises. Qed.

Lemma validate_shell_parameters_policy d e :
  validate_shell_parameters d = Raise e -> policy_error e.
Proof.
  unfold validate_shell_parameters. intros H.
  destruct (negb _); [policy_raises|].
  apply bind_Raise in H as [H|(env & _ & H)]; [by eapply validate_environment_policy|].
  policy_raises.
Qed.

Lemma validate_approval_policy v t e : validate_approval v t = Raise e -> policy_error e.
Proof. unfold validate_approval. intros H. policy_raises. Qed.

Lemma approval_reference_time_policy now v e :
  approval_reference_time now v = Raise e -> policy_error e.
Proof. unfold approval_reference_time. intros H. policy_raises. Qed.

(** The policy fails closed with one error class: on any input at all,
    well-typed or not, [validate_action] returns an action or raises
    [PolicyError], and never another exception. *)
Theorem validate_action_fails_closed now action parameters approval ts e :
  validate_action now action parameters approval ts = Raise e -> policy_error e.
Proof.
  unfold validate_action. intros H. destruct action as [| | | |name| |]; policy_raises.
  - by eapply bind_tool_policy.
  - by eapply validate_shell_parameters_policy.
  - by eapply approval_reference_time_policy.
  - by eapply validate_approval_policy.
Qed.

Lemma validate_action_fails_closed_witness :
  policy_error (PolicyError (str "invalid parameters")).
Proof.
  apply (validate_action_fails_closed 0 (PStr (str "docker.logs"))
           (PDict [(str "container", PStr (str "--help")); (str "tail", PInt 1)]) PNone PNone).
  reflexivity.
Defined.

(** For a name of the read-only table, [validate_action] accepts exactly
    the parameter dictionaries of that tool's schema, and binds them to the
    tool's fixed executable and arguments; approval and request time play no
    part. *)
Theorem validate_action_tool_iff now name spec d approval ts va :
  dict_get name READ_ONLY_TOOLS = Some spec ->
  validate_action now (PStr name) (PDict d) approval ts = Ok va <->
  exists args, tool_arguments d (ts_parameter_kind spec) args /\
    va = {| va_action := name; va_argv := ts_argv spec ++ args; va_cwd := None;
            va_timeout := ts_timeout spec; va_read_only := true; va_approval := None;
            va_environment := [] |}.
Proof.
  intros Hget. cbn [validate_action]. rewrite Hget. unfold bind_tool.
  rewrite bind_Ok. split.
  - intros (argv & (args & Hargs & ->)%bind_argv_iff & H); [|by eapply tools_kinds].
    inv_ok. by exists args.
  - intros (args & Hargs & ->). exists (ts_argv spec ++ args). split; [|done].
    apply bind_argv_iff; [by eapply tools_kinds|by exists args].
Qed.

Lemma validate_action_tool_iff_witness :
  validate_action 0 (PStr (str "systemd.journal"))
    (PDict [(str "tail", PInt 5000); (str "service", PStr (str "docker.service"))]) PNone PNone
  = Ok {| va_action := str "systemd.journal";
          va_argv := map str ["/usr/bin/journalctl"; "--no-pager"; "--output=short-iso"; "--unit";
                              "docker.service"; "--lines"; "5000"]%string;
          va_cwd := None; va_timeout := 15; va_read_only := true; va_approval := None;
          va_environment := [] |}.
Proof.
  apply (validate_action_tool_iff 0 (str "systemd.journal")
           (tool ["/usr/bin/journalctl"; "--no-pager"; "--output=short-iso"; "--unit"]%string
              "service_tail" 15)); [reflexivity|].
  exists (map str ["docker.service"; "--lines"; "5000"]%string). split; [|reflexivity].
  apply (args_service_tail _ (str "docker.service") 5000); try reflexivity.
  unfold MIN_TAIL, MAX_TAIL. lia.
Defined.

(** An argument that a command line parser reads as an operand. *)
Definition operand (a : pystr) : Prop := a <> [] /\ startswith (str "-") a = false /\ ~ In 0 a.

Lemma operand_first c r : c <> 45 -> ~ In 0 (c :: r) -> operand (c :: r).
Proof.
  intros Hc H0. split_and!; [done| |done].
  change (startswith (str "-") (c :: r)) with ((45 =? c) && true).
  rewrite andb_true_r. apply Z.eqb_neq. congruence.
Qed.

Lemma container_operand c : CONTAINER_PATTERN c = true -> operand c.
Proof.
  destruct c as [|x r]; [done|]. cbn [CONTAINER_PATTERN]. intros H. split_bools.
  assert (Hx : x <> 45 /\ x <> 0).
  { unfold is_alnum, is_alpha, is_lower, is_upper, is_digit in *. split; intros ->; discriminate. }
  apply operand_first; [tauto|]. intros [?|Hin]; [tauto|].
  rewrite forallb_forall in *. assert (container_char 0 = true) by auto. discriminate.
Qed.

Lemma service_operand s : service_ok s = true -> operand s.
Proof.
  unfold service_ok. intros H. split_bools. unfold SERVICE_PATTERN in *.
  destruct s as [|x r]; [done|]. split_and!; [done..|].
  intros Hin. rewrite forallb_forall in *. assert (service_char 0 = true) by auto. discriminate.
Qed.

Lemma tail_operand n : MIN_TAIL <= n <= MAX_TAIL -> operand (dec n).
Proof.
  unfold MIN_TAIL. intros H. destruct (dec_nonneg n) as [Hd Hne]; [lia|].
  rewrite forallb_forall in Hd. destruct (dec n) as [|x r]; [done|].
  apply operand_first.
  - intros ->. specialize (Hd 45 (or_introl eq_refl)). discriminate.
  - intros Hin. specialize (Hd 0 Hin). discriminate.
Qed.

(** No option injection: everything a caller contributes to the command
    line of a read-only tool is an operand.  It is never empty, holds no NUL
    and never starts with a dash, so it cannot be read as an option of the
    tool; the only dash-led addition is the code's own "--lines". *)
Theorem read_only_no_option_injection now name d approval ts va spec :
  dict_get name READ_ONLY_TOOLS = Some spec ->
  validate_action now (PStr name) (PDict d) approval ts = Ok va ->
  exists args, va_argv va = ts_argv spec ++ args /\
    Forall (fun a => operand a \/ a = str "--lines") args.
Proof.
  intros Hget H. apply (validate_action_tool_iff _ _ spec) in H as (args & Hargs & ->); [|done].
  exists args. split; [done|].
  inversion Hargs; subst; repeat (apply List.Forall_cons || apply List.Forall_nil);
    solve [by right | left; auto using container_operand, service_operand, tail_operand].
Qed.

Lemma read_only_no_option_injection_witness :
  exists args, map str ["/usr/bin/docker"; "logs"; "--tail"; "7"; "web"]%string
    = map str ["/usr/bin/docker"; "logs"; "--tail"]%string ++ args /\
    Forall (fun a => operand a \/ a = str "--lines") args.
Proof.
  apply (read_only_no_option_injection 0 (str "docker.logs")
           [(str "container", PStr (str "web")); (str "tail", PInt 7)] PNone PNone
           {| va_action := str "docker.logs";
              va_argv := map str ["/usr/bin/docker"; "logs"; "--tail"; "7"; "web"]%string;
              va_cwd := None; va_timeout := 15; va_read_only := true; va_approval := None;
              va_environment := [] |}
           (tool ["/usr/bin/docker"; "logs"; "--tail"]%string "container_tail" 15));
    reflexivity.
Defined.
