(* ===== verification/PyTime.v ===== *)
(** * Dates and times

    The part of [datetime] that the code uses: aware and naive values,
    [replace(tzinfo=UTC)], [astimezone(UTC)] and the text of a moment in UTC to
    the second.  The text is what the host agent's policy parses (Policy:
    fromisoformat_utc), so the two are inverse to each other. *)
From Stdlib Require Import ZArith Lia Bool String.
From stdpp Require Import prelude.
From S2P Require Import Prelude PyValue Policy.
Open Scope Z_scope.

(** A [datetime]: the microseconds that its own wall clock shows since
    1970-01-01 00:00, and its offset from UTC in microseconds unless it is naive *)
Record datetime := mkDatetime { wall : Z; utcoffset : option Z }.

Definition MICROSECONDS : Z := 1000000.
Definition MIN_WALL : Z := -62135596800 * MICROSECONDS.
Definition MAX_WALL : Z := MAX_DATETIME_SECONDS * MICROSECONDS + 999999.

Definition utc (t : Z) : datetime := mkDatetime t (Some 0).

(** [if t.tzinfo is None: t = t.replace(tzinfo=UTC)] *)
Definition assume_utc (t : datetime) : datetime :=
  match utcoffset t with None => utc (wall t) | Some _ => t end.

(** [t.astimezone(UTC)] of an aware value *)
Definition astimezone_utc (t : datetime) : result Z :=
  let w := wall t - default 0 (utcoffset t) in
  if (MIN_WALL <=? w) && (w <=? MAX_WALL) then Ok w
  else Raise (OverflowError (str "date value out of range")).

(** *** The civil calendar *)

Definition year_start (y : Z) : Z := days_from_epoch y 1 1.

Definition year_of (days : Z) : Z :=
  let g := (days + 719162) * 400 / 146097 + 1 in
  if year_start (g + 1) <=? days then g + 1 else g.

Definition MONTHS : list Z := [12; 11; 10; 9; 8; 7; 6; 5; 4; 3; 2; 1].
Definition month_of (y day_of_year : Z) : Z :=
  default 1 (find (fun m => days_before_month y m <=? day_of_year) MONTHS).

Definition civil (days : Z) : Z * Z * Z :=
  let y := year_of days in
  let n := days - year_start y in
  let m := month_of y n in (y, m, n - days_before_month y m + 1).

Definition two (n : Z) : pystr := [48 + n / 10; 48 + n mod 10].
Definition four (n : Z) : pystr := two (n / 100) ++ two (n mod 100).

(** [t.isoformat(timespec="seconds").replace("+00:00", "Z")] of a value in UTC,
    by the microseconds of its wall clock *)
Definition stamp (t : Z) : pystr :=
  let s := t / MICROSECONDS in
  let '(y, m, d) := civil (s / 86400) in
  let r := s mod 86400 in
  four y ++ str "-" ++ two m ++ str "-" ++ two d ++ str "T"
    ++ two (r / 3600) ++ str ":" ++ two (r / 60 mod 60) ++ str ":" ++ two (r mod 60) ++ str "Z".

Example stamp_moment : stamp 1719835200123456 = str "2024-07-01T12:00:00Z".
Proof. vm_compute. reflexivity. Qed.
Example stamp_leap : stamp 951782399000000 = str "2000-02-28T23:59:59Z".
Proof. vm_compute. reflexivity. Qed.

(** ** Lemmas *)

Lemma year_start_eq y : year_start y = (y - 1) * 365 + (y - 1) / 4 - (y - 1) / 100 + (y - 1) / 400 - 719162.
Proof. unfold year_start, days_from_epoch. change (days_before_month y 1) with 0. lia. Qed.

Lemma year_start_step y : year_start (y + 1) = year_start y + (if is_leap y then 366 else 365).
Proof.
  rewrite !year_start_eq. unfold is_leap. replace (y + 1 - 1) with y by lia.
  destruct (Z.eqb_spec (y mod 4) 0), (Z.eqb_spec (y mod 100) 0), (Z.eqb_spec (y mod 400) 0); cbn;
    Z.to_euclidean_division_equations; lia.
Qed.

Lemma year_of_ok days : -719162 <= days -> year_start (year_of days) <= days < year_start (year_of days + 1).
Proof.
  intros Hd. unfold year_of. set (g := (days + 719162) * 400 / 146097 + 1).
  assert (Hg : year_start g <= days < year_start (g + 2)).
  { rewrite !year_start_eq. subst g. Z.to_euclidean_division_equations; lia. }
  destruct (Z.leb_spec (year_start (g + 1)) days); replace (g + 1 + 1) with (g + 2) by lia; lia.
Qed.

Lemma year_of_range days : -719162 <= days <= 2932896 -> 1 <= year_of days <= 9999.
Proof.
  intros Hd. unfold year_of. set (g := (days + 719162) * 400 / 146097 + 1).
  assert (Hg : 1 <= g <= 9999) by (subst g; Z.to_euclidean_division_equations; lia).
  assert (Hlast : year_start 10000 = 2932897) by reflexivity.
  destruct (Z.leb_spec (year_start (g + 1)) days) as [Hs|]; [|done].
  destruct (Z.eq_dec g 9999) as [E|]; [rewrite E in Hs; change (9999 + 1) with 10000 in Hs; lia|lia].
Qed.

Lemma month_step y m : 1 <= m <= 12 ->
  days_before_month y (m + 1) = days_before_month y m + days_in_month y m.
Proof.
  intros Hm. unfold days_before_month, days_in_month.
  assert (E : m = 1 \/ m = 2 \/ m = 3 \/ m = 4 \/ m = 5 \/ m = 6 \/ m = 7 \/ m = 8 \/ m = 9 \/ m = 10 \/ m = 11 \/ m = 12) by lia.
  repeat destruct E as [-> |E]; try subst m; cbn; by destruct (is_leap y).
Qed.

Lemma year_days y : days_before_month y 13 = if is_leap y then 366 else 365.
Proof. unfold days_before_month, days_in_month. cbn. by destruct (is_leap y). Qed.

Lemma month_of_ok y n : 0 <= n < (if is_leap y then 366 else 365) ->
  1 <= month_of y n <= 12 /\ days_before_month y (month_of y n) <= n < days_before_month y (month_of y n + 1).
Proof.
  rewrite <- year_days. intros [Hn Hl]. assert (H1 : days_before_month y 1 = 0) by reflexivity.
  unfold month_of, MONTHS. cbn [find].
  repeat match goal with |- context [if ?a <=? ?b then _ else _] =>
    destruct (Z.leb_spec a b); [cbn [from_option id]; split; [lia|split; [done|assumption]]|] end.
  lia.
Qed.

Lemma civil_ok days : -719162 <= days <= 2932896 ->
  let '(y, m, d) := civil days in
  1 <= y <= 9999 /\ 1 <= m <= 12 /\ 1 <= d <= days_in_month y m /\ days_from_epoch y m d = days.
Proof.
  intros Hd. unfold civil. pose proof (year_of_range _ Hd) as Hy. pose proof (year_of_ok days) as Hs.
  set (y := year_of days) in *. rewrite year_start_step in Hs. unfold days_from_epoch.
  rewrite year_start_eq in *. set (n := days - _). assert (Hn : 0 <= n < if is_leap y then 366 else 365) by lia.
  pose proof (month_of_ok _ _ Hn) as [Hm Hday]. rewrite month_step in Hday by done. split_and!; lia.
Qed.

(** The text of a moment is a timestamp that the policy accepts, and reads back
    as the same second. *)
Lemma two_value n : 0 <= n < 100 -> digits_value (two n) = n /\ forallb is_digit (two n) = true.
Proof.
  intros Hn. unfold two, digits_value, is_digit. cbn [fold_left forallb]. split.
  - Z.to_euclidean_division_equations; lia.
  - rewrite !andb_true_iff, !Z.leb_le. Z.to_euclidean_division_equations; lia.
Qed.

Lemma two_shape n : exists a b, two n = [a; b].
Proof. unfold two. eauto. Qed.
Lemma four_shape n : exists a b c d, four n = [a; b; c; d].
Proof. unfold four, two. cbn [app]. eauto 10. Qed.

Lemma four_value n : 0 <= n < 10000 -> digits_value (four n) = n /\ forallb is_digit (four n) = true.
Proof.
  intros Hn. unfold four, two, digits_value, is_digit. cbn [app fold_left forallb]. split.
  - Z.to_euclidean_division_equations; lia.
  - rewrite !andb_true_iff, !Z.leb_le. Z.to_euclidean_division_equations; lia.
Qed.

Lemma stamp_ok t : MIN_WALL <= t <= MAX_WALL ->
  UTC_TIMESTAMP_PATTERN (stamp t) = true /\
  fromisoformat_utc (removelast (stamp t) ++ str "+00:00") = Some (t / MICROSECONDS * MICROSECONDS).
Proof.
  intros Ht. unfold stamp. set (s := t / MICROSECONDS). set (r := s mod 86400).
  assert (Hr : 0 <= r < 86400) by (apply Z.mod_pos_bound; done).
  assert (Hd : -719162 <= s / 86400 <= 2932896).
  { subst s. unfold MIN_WALL, MAX_WALL, MAX_DATETIME_SECONDS, MICROSECONDS in *. Z.to_euclidean_division_equations; lia. }
  apply civil_ok in Hd. destruct (civil (s / 86400)) as [[y m] d]. destruct Hd as (Hy & Hm & Hday & Hdays).
  assert (Hdim : days_in_month y m <= 31).
  { unfold days_in_month. destruct (is_leap y); repeat case_match; lia. }
  destruct (four_value y) as [Vy Dy]; [lia|]. destruct (two_value m) as [Vm Dm]; [lia|].
  destruct (two_value d) as [Vd Dd]; [lia|].
  destruct (two_value (r / 3600)) as [Vh Dh]; [Z.to_euclidean_division_equations; lia|].
  destruct (two_value (r / 60 mod 60)) as [Vi Di]; [Z.to_euclidean_division_equations; lia|].
  destruct (two_value (r mod 60)) as [Vs Ds]; [Z.to_euclidean_division_equations; lia|].
  destruct (four_shape y) as (y1 & y2 & y3 & y4 & Ey). rewrite Ey in *.
  destruct (two_shape m) as (m1 & m2 & Em). rewrite Em in *. destruct (two_shape d) as (d1 & d2 & Ed). rewrite Ed in *.
  destruct (two_shape (r / 3600)) as (h1 & h2 & Eh). rewrite Eh in *.
  destruct (two_shape (r / 60 mod 60)) as (i1 & i2 & Ei). rewrite Ei in *.
  destruct (two_shape (r mod 60)) as (s1 & s2 & Es). rewrite Es in *.
  change (str "-") with [45]. change (str "T") with [84]. change (str ":") with [58]. change (str "Z") with [90].
  cbn [app]. split.
  - unfold UTC_TIMESTAMP_PATTERN, char_at. cbn [forallb nth drop] in *. split_bools.
    repeat match goal with Hc : is_digit _ = true |- _ => rewrite Hc; clear Hc end. reflexivity.
  - cbn [removelast]. change (str "+00:00") with [43; 48; 48; 58; 48; 48]. unfold fromisoformat_utc, field.
    cbn [app drop take length Nat.sub tl repeat]. rewrite Vy, Vm, Vd, Vh, Vi, Vs, Hdays.
    assert (Hh : r / 3600 <= 23) by (clear - Hr; clearbody r; Z.to_euclidean_division_equations; lia).
    assert (Hi : r / 60 mod 60 <= 59) by (clear - Hr; clearbody r; Z.to_euclidean_division_equations; lia).
    assert (Hs : r mod 60 <= 59) by (clear - Hr; clearbody r; Z.to_euclidean_division_equations; lia).
    rewrite !(proj2 (Z.leb_le _ _)) by lia. cbn [andb]. do 2 f_equal.
    change (digits_value [48; 48; 48; 48; 48; 48]) with 0. unfold MICROSECONDS.
    assert (Hsr : s = s / 86400 * 86400 + r) by (subst r; rewrite (Z.mul_comm (s / 86400)); apply Z.div_mod; done).
    clearbody r. clear - Hr Hsr. generalize dependent (s / 86400). intros q ->. Z.to_euclidean_division_equations; lia.
Qed.
