(* ===== verification/Redaction.v ===== *)
(** * Credential redaction

    [host_agent/dgx_ops_agent/redaction.py]: the streaming redactor through
    which everything a job prints must pass.  The regular expressions are
    matched by a small backtracking matcher: a pattern maps the text ahead to
    all the texts it could leave, in the order in which Python's engine would
    try them. *)
From Stdlib Require Import ZArith Lia Bool String.
From stdpp Require Import prelude.
From S2P Require Import Prelude PyValue Utf8 Json.
Open Scope Z_scope.

Create HintDb takes.
Create HintDb scalars.

Definition REDACTED : pystr := str "[REDACTED]".
Definition NORMAL_CARRY : Z := 96.
Definition MAX_DIRECT_KEY_LENGTH : Z := 256.
Definition MAX_KEY_WHITESPACE : Z := 128.
Definition DQUOTE : Z := 34.
Definition SQUOTE : Z := 39.
Definition BACKSLASH : Z := 92.
Definition COLON : Z := 58.

Definition json_whitespace (c : Z) : bool := (c =? 32) || (c =? 9) || (c =? 13) || (c =? 10).
Definition token_character (c : Z) : bool :=
  is_alnum c || str_in [c] [str "."; str "_"; str "~"; str "+"; str "/"; str "="; str "-"].
Definition unquoted_terminator (c : Z) : bool :=
  (c =? 32) || (c =? 9) || (c =? 13) || (c =? 10) || (c =? 44) || (c =? 59) || (c =? 38).
Definition is_quote (c : Z) : bool := (c =? DQUOTE) || (c =? SQUOTE).

(** ** Regular expressions with [(?i)] *)

(** A letter matches its other case; under Unicode rules "i", "k" and "s"
    have further variants. *)
Definition ci_char (p c : Z) : bool :=
  (c =? p) || (is_lower p && (c =? p - 32))
  || ((p =? 105) && ((c =? 304) || (c =? 305)))
  || ((p =? 107) && (c =? 8490))
  || ((p =? 115) && (c =? 383)).

Definition ci_letter (c : Z) : bool :=
  is_alpha c || (c =? 304) || (c =? 305) || (c =? 8490) || (c =? 383).
Definition ci_alnum (c : Z) : bool := ci_letter c || is_digit c.
Definition ci_word (c : Z) : bool := ci_alnum c || (c =? 95).

Definition matcher := pystr -> list pystr.

Definition m_char (p : Z -> bool) : matcher := fun s =>
  match s with c :: r => if p c then [r] else [] | [] => [] end.
Definition m_seq (a b : matcher) : matcher := fun s => flat_map b (a s).
Definition m_alt (a b : matcher) : matcher := fun s => a s ++ b s.
Definition m_opt (a : matcher) : matcher := fun s => a s ++ [s].
Definition m_empty : matcher := fun s => [s].
Definition m_none : matcher := fun _ => [].

Fixpoint m_star (p : Z -> bool) (s : pystr) : list pystr :=
  match s with
  | c :: r => if p c then m_star p r ++ [s] else [s]
  | [] => [[]]
  end.
Definition m_plus (p : Z -> bool) : matcher := m_seq (m_char p) (m_star p).

(** [(?:a)*] for a pattern that consumes *)
Fixpoint m_many (a : matcher) (fuel : nat) (s : pystr) : list pystr :=
  match fuel with
  | O => [s]
  | S k => flat_map (m_many a k) (a s) ++ [s]
  end.

Definition m_lit (word : string) : matcher :=
  fold_right (fun c m => m_seq (m_char (ci_char c)) m) m_empty (str word).
Definition m_seqs (l : list matcher) : matcher := fold_right m_seq m_empty l.
Definition m_alts (l : list matcher) : matcher := fold_right m_alt m_none l.
Definition m_ahead (p : option Z -> bool) : matcher := fun s => if p (hd_error s) then [s] else [].

Definition some_char (p : Z -> bool) (o : option Z) : bool := match o with Some c => p c | None => false end.
Definition nonspace (c : Z) : bool := negb (is_space c).
Definition dash_char (c : Z) : bool := (c =? 95) || (c =? 45).

(** [authorization\s*:\s*(?:bearer|basic)\s+] before a non-space *)
Definition AUTHORIZATION : matcher :=
  m_seqs [m_lit "authorization"; m_star is_space; m_char (Z.eqb COLON); m_star is_space;
          m_alt (m_lit "bearer") (m_lit "basic"); m_plus is_space; m_ahead (some_char nonspace)].

(** [(?:[A-Za-z][A-Za-z0-9]*[_-])*] and the credential names *)
Definition key_prefix : matcher := fun s =>
  m_many (m_seqs [m_char ci_letter; m_star ci_alnum; m_char dash_char]) (length s) s.
Definition key_name : matcher :=
  m_alts [m_seqs [m_lit "secret"; m_char dash_char; m_lit "access"; m_char dash_char; m_lit "key"];
          m_seqs [m_lit "private"; m_char dash_char; m_lit "key"];
          m_seqs [m_lit "api"; m_opt (m_char dash_char); m_lit "key"];
          m_seqs [m_lit "access"; m_opt (m_char dash_char); m_lit "token"];
          m_seqs [m_lit "auth"; m_opt (m_char dash_char); m_lit "token"];
          m_lit "token"; m_lit "password"; m_lit "passwd"; m_lit "secret"].

(** Up to the optional quote of the value, and with it *)
Definition assignment_head : matcher :=
  m_seqs [key_prefix; key_name; m_opt (m_char is_quote); m_star is_space;
          m_char (fun c => (c =? COLON) || (c =? 61)); m_star is_space].

Definition ASSIGNMENT_KEY : matcher :=
  m_seqs [key_prefix; key_name; m_char is_quote;
          m_ahead (fun o => negb (some_char ci_alnum o))].

Definition one_of (letters : string) : matcher :=
  m_char (fun c => existsb (fun p => ci_char p c) (str letters)).
Definition DIRECT_TOKEN : matcher :=
  m_seq (m_alts [m_lit "github_pat_";
                 m_seqs [m_lit "gh"; one_of "oprsu"; m_lit "_"];
                 m_lit "hf_"; m_lit "dgx_"; m_lit "sk-";
                 m_seqs [m_lit "xox"; one_of "baprs"; m_lit "-"]])
        (m_ahead (some_char ci_alnum)).

(** A match at a position: what follows it, and its "quote" group. *)
Definition found := option (pystr * option Z).

Definition first_of (m : matcher) (s : pystr) : found :=
  match m s with r :: _ => Some (r, None) | [] => None end.

(** The optional "quote" group before a non-space: with the quote first *)
Definition assignment_tail (s : pystr) : list (pystr * option Z) :=
  match s with
  | c :: r => (if is_quote c && some_char nonspace (hd_error r) then [(r, Some c)] else [])
              ++ (if nonspace c then [(s, None)] else [])
  | [] => []
  end.
Definition ASSIGNMENT (s : pystr) : found := hd_error (flat_map assignment_tail (assignment_head s)).

(** [pattern.search(buffer)]: the leftmost position at which [at_] matches and
    the character before is not of the class [behind]. *)
Fixpoint search (behind : Z -> bool) (at_ : pystr -> found) (previous : option Z) (start : nat)
    (s : pystr) : option (nat * (pystr * option Z)) :=
  let next := match s with
              | [] => None
              | c :: r => search behind at_ (Some c) (S start) r
              end in
  if some_char behind previous then next
  else match at_ s with Some m => Some (start, m) | None => next end.

(** ** The redactor *)

Inductive marker_kind := Authorization | AssignmentKey | Assignment | DirectToken | Literal.

(** A match in the buffer: where it starts, what follows it, its quote. *)
Record marker := mkMarker {
  m_kind : marker_kind;
  m_start : nat;
  m_rest : pystr;
  m_quote : option Z;
}.

Inductive mode :=
  | Normal | Direct | KeyColon | DirectKey | AssignmentValue | Quoted | InAuthorization | InAssignment.

Record redactor := mkRedactor {
  undecoded : bytes;
  buffer : pystr;
  rmode : mode;
  quote_char : pystr;
  quoted_escape : bool;
  direct_text : option pystr;
  direct_preservable : bool;
  direct_key_quote : pystr;
  key_whitespace : pystr;
  finished : bool;
  secrets : list pystr;
}.

Fixpoint insert_by_length (x : pystr) (l : list pystr) : list pystr :=
  match l with
  | [] => [x]
  | y :: r => if zlen y <? zlen x then x :: l else y :: insert_by_length x r
  end.

(** [sorted(secrets, key=len, reverse=True)] keeps equal lengths in order. *)
Definition by_length (l : list pystr) : list pystr := fold_left (fun acc x => insert_by_length x acc) l [].

Definition nonempty_values (l : list pystr) : list pystr :=
  List.filter (fun s => match s with [] => false | _ => true end) l.

Definition new_redactor (secret_values : list pystr) : redactor :=
  mkRedactor [] [] Normal [] false (Some []) false [] [] false
    (by_length (nonempty_values secret_values)).

Definition normal_carry (r : redactor) : Z :=
  fold_right Z.max NORMAL_CARRY (map zlen (secrets r)).

(** One of the literal secrets at this position *)
Definition secret_at (l : list pystr) (s : pystr) : found :=
  match find (fun p => startswith p s) l with
  | Some p => Some (drop (length p) s, None)
  | None => None
  end.

Definition search_kind (k : marker_kind) (l : list pystr) (s : pystr) : option marker :=
  match (match k with
         | Authorization => search ci_word (first_of AUTHORIZATION) None 0 s
         | AssignmentKey => search ci_alnum (first_of ASSIGNMENT_KEY) None 0 s
         | Assignment => search ci_alnum ASSIGNMENT None 0 s
         | DirectToken => search ci_word (first_of DIRECT_TOKEN) None 0 s
         | Literal => search (fun _ => false) (secret_at l) None 0 s
         end) with
  | Some (start, (rest, q)) => Some (mkMarker k start rest q)
  | None => None
  end.

Definition marker_end (s : pystr) (m : marker) : nat := length s - length (m_rest m).

Definition priority (k : marker_kind) : Z :=
  match k with Literal => 0 | DirectToken => 1 | AssignmentKey => 2 | _ => 3 end.

Definition before (a b : marker) : bool :=
  (m_start a <? m_start b)%nat || ((m_start a =? m_start b)%nat && (priority (m_kind a) <? priority (m_kind b))).

(** [min(candidates, key=...)]: the first of the least *)
Definition least (l : list marker) : option marker :=
  match l with
  | [] => None
  | m :: r => Some (fold_left (fun best x => if before x best then x else best) r m)
  end.

Definition next_marker (l : list pystr) (s : pystr) : option marker :=
  let candidates := omap (fun k => search_kind k l s)
                      [Authorization; AssignmentKey; Assignment; DirectToken] in
  match (match l with [] => None | _ => search_kind Literal l s end) with
  | Some m =>
      if existsb (fun c => (m_start c <=? m_start m)%nat && (m_start m <? marker_end s c)%nat) candidates
      then Some m else least (candidates ++ [m])
  | None => least candidates
  end.

(** *** Field updates *)
Definition set_buffer (b : pystr) (r : redactor) : redactor :=
  mkRedactor (undecoded r) b (rmode r) (quote_char r) (quoted_escape r) (direct_text r)
    (direct_preservable r) (direct_key_quote r) (key_whitespace r) (finished r) (secrets r).
Definition set_mode (m : mode) (r : redactor) : redactor :=
  mkRedactor (undecoded r) (buffer r) m (quote_char r) (quoted_escape r) (direct_text r)
    (direct_preservable r) (direct_key_quote r) (key_whitespace r) (finished r) (secrets r).
Definition set_quote (q : pystr) (e : bool) (r : redactor) : redactor :=
  mkRedactor (undecoded r) (buffer r) (rmode r) q e (direct_text r)
    (direct_preservable r) (direct_key_quote r) (key_whitespace r) (finished r) (secrets r).
Definition set_direct (t : option pystr) (p : bool) (k : pystr) (r : redactor) : redactor :=
  mkRedactor (undecoded r) (buffer r) (rmode r) (quote_char r) (quoted_escape r) t p k
    (key_whitespace r) (finished r) (secrets r).
Definition set_key_whitespace (w : pystr) (r : redactor) : redactor :=
  mkRedactor (undecoded r) (buffer r) (rmode r) (quote_char r) (quoted_escape r) (direct_text r)
    (direct_preservable r) (direct_key_quote r) w (finished r) (secrets r).

(** [_reset_direct] *)
Definition reset_direct (m : mode) (r : redactor) : redactor :=
  mkRedactor (undecoded r) (buffer r) m [] (quoted_escape r) (Some []) false [] []
    (finished r) (secrets r).

(** [_find_unescaped_quote]: the text after the quote, or the final state *)
Fixpoint find_unescaped_quote (s : pystr) (q : pystr) (escaped : bool) : option pystr * bool :=
  match s with
  | [] => (None, escaped)
  | c :: r =>
      if c =? BACKSLASH then find_unescaped_quote r q (negb escaped)
      else if str_eqb [c] q && negb escaped then (Some r, false)
      else find_unescaped_quote r q false
  end.

(** The first character of a class: what precedes it and what it starts *)
Definition split_at (p : Z -> bool) (s : pystr) : pystr * pystr := PyFloat.span (fun c => negb (p c)) s.

Definition emit_direct_text (preserve : bool) (r : redactor) : pystr :=
  match direct_text r with
  | None => []
  | Some t => if preserve && direct_preservable r then t else REDACTED
  end.

(** [_extend_direct_text] *)
Definition extend_direct_text (value : pystr) (r : redactor) : redactor * pystr :=
  match direct_text r with
  | None => (r, [])
  | Some t =>
      if zlen t + zlen value <=? MAX_DIRECT_KEY_LENGTH
      then (set_direct (Some (t ++ value)) (direct_preservable r) (direct_key_quote r) r, [])
      else (set_direct None (direct_preservable r) (direct_key_quote r) r, REDACTED)
  end.

(** The consuming steps answer the new state, what they output, and whether
    the scan goes on. *)
Definition consume_direct (final : bool) (r : redactor) : redactor * pystr * bool :=
  let '(part, rest) := split_at (fun c => negb (token_character c)) (buffer r) in
  let '(r, out) := extend_direct_text part r in
  match rest with
  | [] =>
      let r := set_buffer [] r in
      if final then (reset_direct Normal r, out ++ emit_direct_text false r, false)
      else (r, out, false)
  | terminator :: rest =>
      let r := set_buffer rest r in
      if str_eqb [terminator] (direct_key_quote r)
      then (set_key_whitespace [] (set_quote [terminator] (quoted_escape r) (set_mode DirectKey r)),
            out, true)
      else (reset_direct Normal r, out ++ emit_direct_text false r ++ [terminator], true)
  end.

Definition consume_key_colon (final : bool) (r : redactor) : redactor * pystr * bool :=
  let '(ws, rest) := PyFloat.span json_whitespace (buffer r) in
  match rest with
  | [] => (set_buffer [] (if final then set_mode Normal r else r), ws, false)
  | c :: rest' =>
      if c =? COLON then (set_buffer rest' (set_mode AssignmentValue r), ws ++ [COLON], true)
      else (set_buffer rest (set_mode Normal r), ws, true)
  end.

Definition consume_direct_key (final : bool) (r : redactor) : redactor * pystr * bool :=
  let '(ws, rest) := PyFloat.span json_whitespace (buffer r) in
  let r := set_buffer rest r in
  if MAX_KEY_WHITESPACE <? zlen (key_whitespace r) + zlen ws
  then (reset_direct KeyColon r, emit_direct_text false r ++ quote_char r ++ key_whitespace r ++ ws, true)
  else
    let r := set_key_whitespace (key_whitespace r ++ ws) r in
    match rest with
    | [] =>
        if final
        then (reset_direct Normal r, emit_direct_text false r ++ quote_char r ++ key_whitespace r, false)
        else (r, [], false)
    | c :: rest' =>
        if c =? COLON
        then (reset_direct AssignmentValue (set_buffer rest' r),
              emit_direct_text true r ++ quote_char r ++ key_whitespace r ++ [COLON], true)
        else (reset_direct Normal r, emit_direct_text false r ++ quote_char r ++ key_whitespace r, true)
    end.

Definition consume_assignment_value (final : bool) (r : redactor) : redactor * pystr * bool :=
  let '(ws, rest) := PyFloat.span json_whitespace (buffer r) in
  match rest with
  | [] => (set_buffer [] (if final then set_mode Normal r else r), ws, false)
  | c :: rest' =>
      if is_quote c
      then (set_buffer rest' (set_mode Quoted (set_quote [c] false r)), ws ++ [c] ++ REDACTED, true)
      else (set_buffer rest (set_mode InAssignment r), ws ++ REDACTED, true)
  end.

Definition consume_quoted (final : bool) (r : redactor) : redactor * pystr * bool :=
  match find_unescaped_quote (buffer r) (quote_char r) (quoted_escape r) with
  | (None, trailing) =>
      (set_buffer [] (set_quote (quote_char r) (if final then false else trailing) r), [], false)
  | (Some rest, _) => (set_buffer rest (set_mode Normal (set_quote [] false r)), quote_char r, true)
  end.

(** A value without quotes, after "authorization" or an assignment *)
Definition consume_unquoted (final : bool) (r : redactor) : redactor * pystr * bool :=
  match snd (split_at unquoted_terminator (buffer r)) with
  | [] => (set_buffer [] (if final then set_mode Normal r else r), [], false)
  | c :: rest => (set_buffer rest (set_mode Normal r), [c], true)
  end.

Definition consume_secret (final : bool) (r : redactor) : redactor * pystr * bool :=
  match rmode r with
  | Direct => consume_direct final r
  | KeyColon => consume_key_colon final r
  | DirectKey => consume_direct_key final r
  | AssignmentValue => consume_assignment_value final r
  | Quoted => consume_quoted final r
  | _ => consume_unquoted final r
  end.

Definition last_char (n : nat) (s : pystr) : pystr :=
  match n with O => [] | S k => take 1 (drop k s) end.

(** One marker found in normal text *)
Definition enter_marker (m : marker) (r : redactor) : redactor * pystr :=
  let s := buffer r in
  let text := take (marker_end s m - m_start m) (drop (m_start m) s) in
  let preceding := last_char (m_start m) s in
  let lead := take (m_start m) s in
  let r := set_buffer (m_rest m) r in
  let key_quote := if match preceding with [c] => is_quote c | _ => false end then preceding else [] in
  match m_kind m with
  | DirectToken | Literal =>
      let preservable := match m_kind m with DirectToken => true | _ => false end in
      if MAX_DIRECT_KEY_LENGTH <? zlen text
      then (set_mode Direct (set_direct None preservable key_quote r), lead ++ REDACTED)
      else (set_mode Direct (set_direct (Some text) preservable key_quote r), lead)
  | AssignmentKey => (set_mode KeyColon r, lead ++ text)
  | Assignment =>
      match m_quote m with
      | Some q => (set_mode Quoted (set_quote [q] false r), lead ++ text ++ REDACTED)
      | None => (set_mode AssignmentValue r, lead ++ text)
      end
  | Authorization => (set_mode InAuthorization r, lead ++ text ++ REDACTED)
  end.

Definition is_normal (m : mode) : bool := match m with Normal => true | _ => false end.

(** One turn of the loop of [_scan] *)
Definition turn (final : bool) (r : redactor) : redactor * pystr * bool :=
  if match buffer r with [] => negb (final && negb (is_normal (rmode r))) | _ => false end
  then (r, [], false)
  else if negb (is_normal (rmode r)) then consume_secret final r
  else
    match next_marker (secrets r) (buffer r) with
    | None =>
        if final then (set_buffer [] r, buffer r, false)
        else if normal_carry r <? zlen (buffer r)
             then let stable := Z.to_nat (zlen (buffer r) - normal_carry r) in
                  (set_buffer (drop stable (buffer r)) r, take stable (buffer r), false)
             else (r, [], false)
    | Some m => let '(r, out) := enter_marker m r in (r, out, true)
    end.

(** [_scan] *)
Fixpoint scan (fuel : nat) (final : bool) (r : redactor) : redactor * pystr :=
  match fuel with
  | O => (r, [])
  | S k =>
      let '(r, out, go_on) := turn final r in
      if go_on then let '(r, more) := scan k final r in (r, out ++ more) else (r, out)
  end.

Definition scan_fuel (r : redactor) : nat := 3 * length (buffer r) + 4.

(** The incremental decoder with the replacing handler: the characters
    decoded so far and the bytes kept for the next chunk. *)
Fixpoint decode_incremental (fuel : nat) (final : bool) (s : bytes) : pystr * bytes :=
  match s, fuel with
  | [], _ => ([], [])
  | _, O => ([], s)
  | b :: _, S k =>
      match utf8_step s with
      | (Some c, n) => let '(t, rest) := decode_incremental k final (drop n s) in (c :: t, rest)
      | (None, n) =>
          if negb final && (n =? length s)%nat && between 194 244 b then ([], s)
          else let '(t, rest) := decode_incremental k final (drop n s) in (REPLACEMENT :: t, rest)
      end
  end.

Definition decode_more (final : bool) (chunk : bytes) (r : redactor) : redactor :=
  let input := undecoded r ++ chunk in
  let '(text, rest) := decode_incremental (length input) final input in
  mkRedactor rest (buffer r ++ text) (rmode r) (quote_char r) (quoted_escape r) (direct_text r)
    (direct_preservable r) (direct_key_quote r) (key_whitespace r) (finished r) (secrets r).

Definition encode_out (s : pystr) : result bytes := of_option (utf8_encode s) (UnicodeError []).

Definition feed (chunk : bytes) (r : redactor) : result bytes * redactor :=
  if finished r then (Raise (RuntimeError (str "redactor is already finished")), r)
  else
    let r := decode_more false chunk r in
    let '(r, out) := scan (scan_fuel r) false r in
    (encode_out out, r).

Definition mark_finished (r : redactor) : redactor :=
  mkRedactor (undecoded r) (buffer r) (rmode r) (quote_char r) (quoted_escape r) (direct_text r)
    (direct_preservable r) (direct_key_quote r) (key_whitespace r) true (secrets r).

Definition finish (r : redactor) : result bytes * redactor :=
  if finished r then (Ok [], r)
  else
    let r := decode_more true [] (mark_finished r) in
    let '(r, out) := scan (scan_fuel r) true r in
    (encode_out out, r).

(** Feed the chunks in turn, then finish: everything that is published. *)
Fixpoint redact_chunks (chunks : list bytes) (r : redactor) : result bytes :=
  match chunks with
  | [] => fst (finish r)
  | c :: rest =>
      let '(out, r) := feed c r in
      a ← out; b ← redact_chunks rest r; Ok (a ++ b)
  end.

(** [value.encode("utf-8", errors="replace")]: a lone surrogate becomes "?" *)
Definition encode_replace (s : pystr) : bytes :=
  concat (map (fun c => if is_scalar c then encode_char c else [63]) s).

(** [redact_text] *)
Definition redact_text (value : pystr) : result pystr :=
  out ← redact_chunks [encode_replace value] (new_redactor []);
  of_option (utf8_decode out) (UnicodeError []).

Example redact_assignment :
  redact_text (str "x password=hunter2 y") = Ok (str "x password=[REDACTED] y").
Proof. vm_compute. reflexivity. Qed.
Example redact_header :
  redact_text (str "Authorization: Bearer abc.def next") = Ok (str "Authorization: Bearer [REDACTED] next").
Proof. vm_compute. reflexivity. Qed.
Example redact_quoted :
  redact_text (str "api_key: 'a\'b' z") = Ok (str "api_key: '[REDACTED]' z").
Proof. vm_compute. reflexivity. Qed.
Example redact_direct : redact_text (str "use hf_abcDEF now") = Ok (str "use [REDACTED] now").
Proof. vm_compute. reflexivity. Qed.
Example redact_split :
  redact_chunks [str "tok"; str "en = sec"; str "ret-value"; str " end"] (new_redactor [])
  = Ok (str "token = [REDACTED] end").
Proof. vm_compute. reflexivity. Qed.

(** ** What the patterns consume *)

(** Every match of [m] takes a nonempty text with a character of [p] off the
    front; [takes_any] is the weaker fact that a match is a prefix. *)
Definition takes (p : Z -> bool) (m : matcher) : Prop :=
  forall s r, In r (m s) -> exists pre, s = pre ++ r /\ existsb p pre = true.
Definition takes_any (m : matcher) : Prop := forall s r, In r (m s) -> exists pre, s = pre ++ r.

Lemma takes_takes_any p m : takes p m -> takes_any m.
Proof. intros H s r (pre & E & _)%H. by exists pre. Qed.
Lemma any_char p : takes_any (m_char p).
Proof. intros [|c s] r; cbn; [done|]. destruct (p c); cbn; [|done]. intros [<-|[]]. by exists [c]. Qed.
Lemma any_seq a b : takes_any a -> takes_any b -> takes_any (m_seq a b).
Proof.
  intros Ha Hb s r (t & (p & ->)%Ha & (q & ->)%Hb)%in_flat_map. exists (p ++ q). by rewrite app_assoc.
Qed.
Lemma any_alt a b : takes_any a -> takes_any b -> takes_any (m_alt a b).
Proof. intros Ha Hb s r [?%Ha|?%Hb]%in_app_or; done. Qed.
Lemma any_empty : takes_any m_empty.
Proof. intros s r [<-|[]]. by exists []. Qed.
Lemma any_none : takes_any m_none.
Proof. intros s r []. Qed.
Lemma any_opt a : takes_any a -> takes_any (m_opt a).
Proof. intros Ha. apply any_alt; [done|apply any_empty]. Qed.
Lemma any_star p : takes_any (m_star p).
Proof.
  intros s. induction s as [|c s IH]; cbn; intros r; [intros [<-|[]]; by exists []|].
  destruct (p c); [|intros [<-|[]]; by exists []].
  intros [(pre & ->)%IH|[<-|[]]]%in_app_or; [by exists (c :: pre)|by exists []].
Qed.
Lemma any_many a k : takes_any a -> takes_any (m_many a k).
Proof. intros Ha. induction k; [apply any_empty|]. by apply any_alt; [apply any_seq|apply any_empty]. Qed.
Lemma any_ahead p : takes_any (m_ahead p).
Proof. intros s r. unfold m_ahead. destruct (p _); [|done]. apply any_empty. Qed.
Lemma any_lit w : takes_any (m_lit w).
Proof.
  unfold m_lit. induction (str w); cbn; [apply any_empty|]. apply any_seq; [apply any_char|done].
Qed.
Lemma any_plus p : takes_any (m_plus p).
Proof. apply any_seq; [apply any_char|apply any_star]. Qed.
#[export] Hint Resolve any_char any_seq any_alt any_empty any_none any_opt any_star any_many any_ahead
  any_lit any_plus : takes.

Lemma any_prefix : takes_any key_prefix.
Proof. intros s. apply any_many. unfold m_seqs. cbn [fold_right]. auto with takes. Qed.
#[export] Hint Resolve any_prefix : takes.
Lemma any_name : takes_any key_name.
Proof. unfold key_name, m_seqs, m_alts. cbn [fold_right]. auto 20 with takes. Qed.
#[export] Hint Resolve any_name : takes.

Lemma takes_char p : takes p (m_char p).
Proof.
  intros [|c s] r; cbn; [done|]. destruct (p c) eqn:E; cbn; [|done]. intros [<-|[]].
  exists [c]. cbn. by rewrite E.
Qed.
Lemma takes_left p a b : takes p a -> takes_any b -> takes p (m_seq a b).
Proof.
  intros Ha Hb s r (t & (u & -> & Hu)%Ha & (q & ->)%Hb)%in_flat_map. exists (u ++ q).
  by rewrite app_assoc, existsb_app, Hu.
Qed.
Lemma takes_right p a b : takes_any a -> takes p b -> takes p (m_seq a b).
Proof.
  intros Ha Hb s r (t & (u & ->)%Ha & (q & -> & Hq)%Hb)%in_flat_map. exists (u ++ q).
  by rewrite app_assoc, existsb_app, Hq, orb_true_r.
Qed.
Lemma takes_alt p a b : takes p a -> takes p b -> takes p (m_alt a b).
Proof. intros Ha Hb s r [?%Ha|?%Hb]%in_app_or; done. Qed.
Lemma takes_none p : takes p m_none.
Proof. intros s r []. Qed.
Lemma takes_weaken p q m : (forall c, p c = true -> q c = true) -> takes p m -> takes q m.
Proof.
  intros H Hm s r (pre & E & Hp)%Hm. exists pre. split; [done|].
  apply existsb_exists in Hp as (c & ? & ?). apply existsb_exists. eauto.
Qed.
Lemma takes_lit p w c : In c (str w) -> (forall d, ci_char c d = true -> p d = true) -> takes p (m_lit w).
Proof.
  intros H Hp. unfold m_lit. induction (str w) as [|x l IH]; [done|]. cbn. destruct H as [->|H].
  - apply takes_left; [|clear; induction l; cbn; auto with takes]. eapply takes_weaken, takes_char. done.
  - apply takes_right; [apply any_char|auto].
Qed.

(** Every built-in pattern consumes one of these. *)
Definition marks (c : Z) : bool := (c =? COLON) || (c =? 61) || is_quote c || dash_char c.

Lemma takes_authorization : takes marks AUTHORIZATION.
Proof.
  unfold AUTHORIZATION, m_seqs. cbn [fold_right].
  do 2 (apply takes_right; [auto with takes|]). apply takes_left; [|auto 20 with takes].
  eapply takes_weaken, takes_char. intros c Hc%Z.eqb_eq. by subst c.
Qed.

Lemma takes_head : takes marks assignment_head.
Proof.
  unfold assignment_head, m_seqs. cbn [fold_right].
  do 4 (apply takes_right; [auto with takes|]). apply takes_left; [|auto 20 with takes].
  eapply takes_weaken, takes_char. intros c Hc. unfold marks. by rewrite Hc.
Qed.

Lemma takes_key : takes marks ASSIGNMENT_KEY.
Proof.
  unfold ASSIGNMENT_KEY, m_seqs. cbn [fold_right].
  do 2 (apply takes_right; [auto with takes|]). apply takes_left; [|auto 20 with takes].
  eapply takes_weaken, takes_char. intros c Hc. unfold marks. by rewrite Hc, orb_true_r.
Qed.

Lemma takes_dash_lit w p : is_lower p = false -> dash_char p = true -> In p (str w) -> takes marks (m_lit w).
Proof.
  intros Hl Hd H. apply (takes_lit _ _ p H). intros d. unfold ci_char. rewrite Hl. cbn.
  intros E. unfold marks, dash_char in *. lia.
Qed.

Lemma takes_direct : takes marks DIRECT_TOKEN.
Proof.
  unfold DIRECT_TOKEN, m_alts, m_seqs. cbn [fold_right]. apply takes_left; [|auto with takes].
  assert (any_one : forall l, takes_any (one_of l)) by (intros; apply any_char).
  assert (under : forall w, In 95 (str w) -> takes marks (m_lit w)) by (intros w; by apply takes_dash_lit).
  assert (dash : forall w, In 45 (str w) -> takes marks (m_lit w)) by (intros w; by apply takes_dash_lit).
  assert (third : forall a b c, takes marks c -> takes_any a -> takes_any b -> takes marks (m_seq a (m_seq b (m_seq c m_empty)))).
  { intros. apply takes_right; [done|]. apply takes_right; [done|]. apply takes_left; [done|apply any_empty]. }
  repeat (apply takes_alt; [first
    [ apply under; vm_compute; tauto | apply dash; vm_compute; tauto
    | apply third; [|auto with takes|auto with takes];
      first [apply under; vm_compute; tauto | apply dash; vm_compute; tauto] ]|]).
  apply takes_none.
Qed.

(** The same for a match with its quote group *)
Definition found_takes (p : Z -> bool) (at_ : pystr -> found) : Prop :=
  forall s r q, at_ s = Some (r, q) -> exists pre, s = pre ++ r /\ existsb p pre = true.

Lemma found_first p m : takes p m -> found_takes p (first_of m).
Proof. intros H s r q. unfold first_of. destruct (m s) eqn:E; [done|]. intros [= -> <-]. apply H. rewrite E. by left. Qed.

Lemma found_assignment : found_takes marks ASSIGNMENT.
Proof.
  intros s r q H. unfold ASSIGNMENT in H.
  assert (In (r, q) (flat_map assignment_tail (assignment_head s))) as (t & Ht & Hr)%in_flat_map.
  { destruct (flat_map _ _); [done|]. injection H as ->. by left. }
  apply takes_head in Ht as (pre & -> & Hp).
  assert (exists u, t = u ++ r) as (u & ->).
  { destruct t as [|c t]; cbn in Hr; [done|]. apply in_app_or in Hr as [Hr|Hr].
    - destruct (_ && _); [|done]. destruct Hr as [[= <- <-]|[]]. by exists [c].
    - destruct (nonspace c); [|done]. destruct Hr as [[= <- <-]|[]]. by exists []. }
  exists (pre ++ u). by rewrite app_assoc, existsb_app, Hp.
Qed.

Lemma found_secret l : Forall (fun s => s <> []) l -> found_takes (fun _ => true) (secret_at l).
Proof.
  intros Hl s r q. unfold secret_at. destruct (find _ l) as [p|] eqn:E; [|done]. intros [= <- <-].
  apply find_some in E as [Hin (t & ->)%startswith_app]. rewrite drop_app_length. exists p. split; [done|].
  rewrite List.Forall_forall in Hl. specialize (Hl p Hin). by destruct p.
Qed.

(** [search] finds a match at a suffix, or there is none at any. *)
Lemma search_Some behind at_ s : forall previous start n m,
  search behind at_ previous start s = Some (n, m) ->
  exists pre suf, s = pre ++ suf /\ n = (start + length pre)%nat /\ at_ suf = Some m.
Proof.
  induction s as [|c s IH]; intros previous start n m; cbn [search].
  - destruct (some_char behind previous); [done|]. destruct (at_ []) eqn:E; [|done].
    intros [= <- <-]. exists [], []. repeat split; [cbn; lia|done].
  - set (rest := search behind at_ (Some c) (S start) s).
    assert (Hr : rest = Some (n, m) -> exists pre suf, c :: s = pre ++ suf /\
                   n = (start + length pre)%nat /\ at_ suf = Some m).
    { intros (pre & suf & -> & -> & ?)%IH. exists (c :: pre), suf. repeat split; [cbn; lia|done]. }
    destruct (some_char behind previous); [done|]. destruct (at_ (c :: s)) eqn:E; [|done].
    intros [= <- <-]. exists [], (c :: s). repeat split; [cbn; lia|done].
Qed.

Lemma search_None at_ s : forall previous start, search (fun _ => false) at_ previous start s = None ->
  forall pre suf, s = pre ++ suf -> at_ suf = None.
Proof.
  assert (some_false : forall o, some_char (fun _ => false) o = false) by by intros [].
  induction s as [|c s IH]; intros previous start; cbn [search]; rewrite some_false.
  - intros H pre suf E. destruct pre; [|done]. cbn in E. subst suf. by destruct (at_ []).
  - destruct (at_ (c :: s)) eqn:E; [done|]. intros H pre suf [=]%eq_sym. destruct pre; cbn in *; simplify_eq; eauto.
Qed.

Definition nonempty_all (l : list pystr) : Prop := Forall (fun s => s <> []) l.

(** What a marker is: a nonempty piece of the buffer. *)
Definition piece (p : Z -> bool) (s : pystr) (m : marker) : Prop :=
  exists pre text, s = pre ++ text ++ m_rest m /\ m_start m = length pre /\ existsb p text = true.

Lemma search_piece p behind at_ s k n rest q : found_takes p at_ ->
  search behind at_ None 0 s = Some (n, (rest, q)) -> piece p s (mkMarker k n rest q).
Proof.
  intros Ha (pre & suf & -> & -> & (text & -> & Ht)%Ha)%search_Some. exists pre, text. done.
Qed.

Lemma search_kind_piece k l s m : nonempty_all l -> search_kind k l s = Some m ->
  piece (fun _ => true) s m /\ (k <> Literal -> piece marks s m).
Proof.
  assert (weak : forall at_, found_takes marks at_ -> found_takes (fun _ => true) at_).
  { intros at_ H s' r q (pre & E & Hp)%H. exists pre. split; [done|]. by destruct pre. }
  unfold search_kind. intros Hl.
  destruct k; (destruct (search _ _ _ _ _) as [(n & rest & q)|] eqn:E; [|done]); intros [= <-];
    (split; [|try done; intros _]); (eapply search_piece; [|exact E]);
    try (by apply found_secret); try apply weak; auto using found_first, takes_authorization, takes_key, takes_direct, found_assignment, found_secret.
Qed.

Lemma least_In l m : least l = Some m -> In m l.
Proof.
  destruct l as [|x l]; [done|]. cbn. intros [= <-].
  revert x. induction l as [|y l IH]; intros best; cbn; [by left|].
  destruct (before y best).
  - destruct (IH y) as [E|H]; [rewrite <- E; by right; left|by right; right].
  - destruct (IH best) as [E|H]; [rewrite <- E; by left|by right; right].
Qed.

Lemma least_None l : least l = None -> l = [].
Proof. by destruct l. Qed.

(** The next marker is one that some pattern found. *)
Lemma next_marker_kind l s m : next_marker l s = Some m -> exists k, search_kind k l s = Some m.
Proof.
  unfold next_marker. set (candidates := omap _ _).
  assert (Hc : forall c, In c candidates -> exists k, search_kind k l s = Some c).
  { intros c Hc%list_elem_of_In%list_elem_of_omap. destruct Hc as (k & _ & Hk). eauto. }
  destruct (match l with [] => None | _ => _ end) as [c|] eqn:E.
  - assert (Hl : search_kind Literal l s = Some c) by by destruct l.
    destruct (existsb _ _); [intros [= <-]; eauto|]. intros [?|[<-|[]]]%least_In%in_app_or; eauto.
  - intros ?%least_In. auto.
Qed.

Lemma next_marker_piece l s m : nonempty_all l -> next_marker l s = Some m -> piece (fun _ => true) s m.
Proof. intros Hl (k & Hk)%next_marker_kind. by apply search_kind_piece in Hk as [? _]. Qed.

(** The quote group holds a quote. *)
Lemma next_marker_quote l s m q : next_marker l s = Some m -> m_quote m = Some q -> is_quote q = true.
Proof.
  intros (k & Hk)%next_marker_kind. unfold search_kind in Hk.
  destruct k; (destruct (search _ _ _ _ _) as [(n & rest & q')|] eqn:E; [|done]); injection Hk as <-;
    cbn; intros ->; apply search_Some in E as (pre & suf & _ & _ & E).
  1, 2, 4: unfold first_of in E; by destruct (_ suf).
  - unfold ASSIGNMENT in E. assert (In (rest, Some q) (flat_map assignment_tail (assignment_head suf))) as H.
    { destruct (flat_map _ _); [done|]. injection E as ->. by left. }
    apply in_flat_map in H as ([|c t] & _ & H); [done|]. cbn in H.
    apply in_app_or in H as [H|H].
    + destruct (is_quote c && _) eqn:Q; [|done]. destruct H as [[= <- <-]|[]]. by apply andb_true_iff in Q as [? _].
    + destruct (nonspace c); [|done]. by destruct H as [[=]|[]].
  - unfold secret_at in E. by destruct (find _ _).
Qed.

(** Without secrets, text with none of the marking characters has no marker. *)
Lemma next_marker_unmarked s : existsb marks s = false -> next_marker [] s = None.
Proof.
  intros Hs. unfold next_marker. set (candidates := omap _ _).
  enough (candidates = []) as -> by done.
  destruct candidates as [|c l] eqn:E; [done|].
  assert (c ∈ candidates) as (k & Hk & H)%list_elem_of_omap by (rewrite E; apply list_elem_of_here).
  exfalso.
  destruct (search_kind_piece k [] s c) as [_ Hp]; [by constructor|done|].
  destruct Hp as (pre & text & -> & _ & Ht); [intros ->; set_solver|].
  by rewrite !existsb_app, Ht, orb_true_r in Hs.
Qed.

(** If no marker is found then no literal secret occurs at all. *)
Lemma next_marker_secrets l s : next_marker l s = None ->
  forall pre suf, s = pre ++ suf -> secret_at l suf = None.
Proof.
  unfold next_marker. destruct l as [|x l]; [done|].
  destruct (search_kind Literal (x :: l) s) as [m|] eqn:E.
  - destruct (existsb _ _); [done|]. intros H%least_None. by destruct (omap _ _).
  - intros _. unfold search_kind in E.
    destruct (search _ _ _ _ _) as [(n & rest & q)|] eqn:F; [done|]. exact (search_None _ _ _ _ F).
Qed.

(** ** The invariant of a redactor

    The secrets are nonempty and every character it holds can be encoded. *)
Definition scalars (s : pystr) : Prop := forallb is_scalar s = true.
Definition held (r : redactor) : pystr :=
  buffer r ++ quote_char r ++ key_whitespace r ++ default [] (direct_text r).
Definition redactor_ok (r : redactor) : Prop := nonempty_all (secrets r) /\ scalars (held r).

(** The scan stops: every step that goes on lowers this. *)
Definition rank (m : mode) : nat := match m with DirectKey => 2 | KeyColon | AssignmentValue => 1 | _ => 0 end.
Definition measure (r : redactor) : nat := 3 * length (buffer r) + rank (rmode r).

(** The parts of the state a scanning step leaves alone *)
Definition same_frame (r r' : redactor) : Prop :=
  undecoded r' = undecoded r /\ finished r' = finished r /\ secrets r' = secrets r.

Lemma scalars_app s t : scalars (s ++ t) <-> scalars s /\ scalars t.
Proof. apply forallb_app_iff. Qed.
Lemma scalars_cons c s : scalars (c :: s) <-> is_scalar c = true /\ scalars s.
Proof. unfold scalars. cbn. apply andb_true_iff. Qed.
Lemma scalars_nil : scalars [].
Proof. done. Qed.
Lemma scalars_redacted : scalars REDACTED.
Proof. done. Qed.
Lemma scalars_take n s : scalars s -> scalars (take n s).
Proof. intros H. rewrite <- (take_drop n s) in H. by apply scalars_app in H as [? _]. Qed.
Lemma scalars_drop n s : scalars s -> scalars (drop n s).
Proof. intros H. rewrite <- (take_drop n s) in H. by apply scalars_app in H as [_ ?]. Qed.
#[export] Hint Resolve scalars_nil scalars_redacted scalars_take scalars_drop : scalars.

Lemma span_split p s a b : PyFloat.span p s = (a, b) ->
  s = a ++ b /\ forall c, hd_error b = Some c -> p c = false.
Proof.
  revert a b. induction s as [|c s IH]; intros a b; cbn; [intros [= <- <-]; done|].
  destruct (p c) eqn:E; [|intros [= <- <-]; split; [done|]; intros d [= <-]; done].
  destruct (PyFloat.span p s) as [x y] eqn:F. intros [= <- <-]. destruct (IH x y eq_refl) as [-> H]. done.
Qed.

Ltac scalars_hyps :=
  repeat match goal with
  | H : scalars (_ ++ _) |- _ => apply scalars_app in H as [? ?]
  | H : scalars (_ :: _) |- _ => apply scalars_cons in H as [? ?]
  end.
Ltac scalars_simpl :=
  scalars_hyps;
  repeat match goal with
  | |- scalars (_ ++ _) => apply scalars_app; split
  | |- scalars (_ :: _) => apply scalars_cons; split
  | |- _ /\ _ => split
  end; auto with scalars.

Lemma extend_direct_ok value r r' out : extend_direct_text value r = (r', out) -> scalars value ->
  scalars (default [] (direct_text r)) ->
  scalars (default [] (direct_text r')) /\ scalars out /\ rmode r' = rmode r /\ same_frame r r' /\
  quote_char r' = quote_char r /\ key_whitespace r' = key_whitespace r /\
  direct_key_quote r' = direct_key_quote r /\ buffer r' = buffer r.
Proof.
  unfold extend_direct_text. intros E Hv Ht. destruct (direct_text r) as [t|] eqn:D.
  - destruct (_ <=? _); injection E as <- <-; cbn; repeat split; scalars_simpl.
  - injection E as <- <-. by rewrite D.
Qed.

Lemma emit_scalars p r : scalars (default [] (direct_text r)) -> scalars (emit_direct_text p r).
Proof. unfold emit_direct_text. destruct (direct_text r); cbn; [|done]. by destruct (_ && _). Qed.
#[export] Hint Resolve emit_scalars : scalars.

(** What every consuming step establishes *)
Definition step_ok (r : redactor) (x : redactor * pystr * bool) : Prop :=
  let '(r', out, go_on) := x in
  redactor_ok r' /\ scalars out /\ same_frame r r' /\
  (go_on = true -> (measure r' < measure r)%nat) /\ (go_on = false -> buffer r' = []).

Ltac step_solve :=
  unfold step_ok, redactor_ok, held, same_frame, measure, set_buffer, set_mode, set_quote,
    set_key_whitespace, reset_direct in *; cbn in *; scalars_simpl; try done;
  try (intros _; try done; cbn in *; rewrite ?length_app in *; cbn in *; lia).

Lemma consume_key_colon_ok final r : redactor_ok r -> rmode r = KeyColon -> step_ok r (consume_key_colon final r).
Proof.
  intros [Hs Hh] Hm. unfold held in Hh. unfold consume_key_colon.
  destruct (PyFloat.span _ _) as [ws rest] eqn:E. apply span_split in E as [E _]. rewrite E in Hh.
  destruct r as [u b m q e d p dk kw f ss]; cbn in *. subst b m. scalars_hyps.
  destruct rest as [|c rest]; [destruct final; step_solve|]. scalars_hyps.
  destruct (Z.eqb_spec c COLON); step_solve.
Qed.

Lemma consume_assignment_value_ok final r : redactor_ok r -> rmode r = AssignmentValue ->
  step_ok r (consume_assignment_value final r).
Proof.
  intros [Hs Hh] Hm. unfold held in Hh. unfold consume_assignment_value.
  destruct (PyFloat.span _ _) as [ws rest] eqn:E. apply span_split in E as [E _]. rewrite E in Hh.
  destruct r as [u b m q e d p dk kw f ss]; cbn in *. subst b m. scalars_hyps.
  destruct rest as [|c rest]; [destruct final; step_solve|]. scalars_hyps.
  destruct (is_quote c); step_solve.
Qed.

Lemma consume_direct_key_ok final r : redactor_ok r -> rmode r = DirectKey -> step_ok r (consume_direct_key final r).
Proof.
  intros [Hs Hh] Hm. unfold held in Hh. unfold consume_direct_key.
  destruct (PyFloat.span _ _) as [ws rest] eqn:E. apply span_split in E as [E _]. rewrite E in Hh.
  destruct r as [u b m q e d p dk kw f ss]; cbn in *. subst b m. scalars_hyps.
  destruct (_ <? _); [step_solve|].
  destruct rest as [|c rest]; [destruct final; step_solve|]. scalars_hyps.
  destruct (Z.eqb_spec c COLON); step_solve.
Qed.

Lemma find_quote_split s q : forall e rest t, find_unescaped_quote s q e = (Some rest, t) ->
  exists pre, s = pre ++ rest /\ pre <> [].
Proof.
  induction s as [|c s IH]; intros e rest t; cbn; [done|].
  assert (H : forall e', find_unescaped_quote s q e' = (Some rest, t) -> exists pre, c :: s = pre ++ rest /\ pre <> []).
  { intros e' (pre & -> & _)%IH. by exists (c :: pre). }
  destruct (c =? BACKSLASH); [apply H|]. destruct (_ && _); [|apply H]. intros [= <- _]. by exists [c].
Qed.

Lemma consume_quoted_ok final r : redactor_ok r -> rmode r = Quoted -> step_ok r (consume_quoted final r).
Proof.
  intros [Hs Hh] Hm. unfold held in Hh. unfold consume_quoted.
  destruct (find_unescaped_quote _ _ _) as [[rest|] t] eqn:E.
  - apply find_quote_split in E as (pre & E & Hpre).
    destruct r as [u b m q e d p dk kw f ss]; cbn in *. subst b m. destruct pre as [|c pre]; [done|].
    cbn in Hh. scalars_hyps. step_solve.
  - destruct r as [u b m q e d p dk kw f ss]; cbn in *. subst m. scalars_hyps. step_solve.
Qed.

Lemma consume_unquoted_ok final r : redactor_ok r -> rmode r = InAuthorization \/ rmode r = InAssignment ->
  step_ok r (consume_unquoted final r).
Proof.
  intros [Hs Hh] Hm. unfold held in Hh. unfold consume_unquoted, split_at.
  destruct (PyFloat.span _ _) as [ws rest] eqn:E. apply span_split in E as [E _]. rewrite E in Hh.
  destruct r as [u b m q e d p dk kw f ss]; cbn in *. subst b. scalars_hyps.
  destruct rest as [|c rest]; [destruct Hm as [-> | ->], final; step_solve|]. scalars_hyps.
  destruct Hm as [-> | ->]; step_solve.
Qed.

Lemma consume_direct_ok final r : redactor_ok r -> rmode r = Direct -> step_ok r (consume_direct final r).
Proof.
  intros [Hs Hh] Hm. unfold held in Hh. unfold consume_direct, split_at.
  destruct (PyFloat.span _ _) as [part rest] eqn:E. apply span_split in E as [E _]. rewrite E in Hh.
  scalars_hyps.
  destruct (extend_direct_text part r) as [r' out] eqn:X.
  apply extend_direct_ok in X as (Ht & Ho & Hmode & (Fu & Ff & Fs) & Hq & Hk & Hd & Hb); [|done..].
  destruct r as [u b m q e d p dk kw f ss], r' as [u' b' m' q' e' d' p' dk' kw' f' ss'].
  cbn in *. subst. destruct rest as [|c rest]; [destruct final; step_solve|]. scalars_hyps.
  match goal with |- context [if ?b then _ else _] => destruct b end; step_solve.
Qed.

Lemma consume_secret_ok final r : redactor_ok r -> rmode r <> Normal -> step_ok r (consume_secret final r).
Proof.
  intros H Hm. unfold consume_secret.
  destruct (rmode r) eqn:E; [done|..];
    auto using consume_direct_ok, consume_key_colon_ok, consume_direct_key_ok, consume_assignment_value_ok,
      consume_quoted_ok, consume_unquoted_ok.
Qed.

Lemma enter_marker_ok m r : redactor_ok r -> rmode r = Normal -> next_marker (secrets r) (buffer r) = Some m ->
  let '(r', out) := enter_marker m r in
  redactor_ok r' /\ scalars out /\ same_frame r r' /\ (measure r' < measure r)%nat.
Proof.
  intros [Hs Hh] Hm Hnext. pose proof (fun q => next_marker_quote _ _ _ q Hnext) as Hq. 
  destruct (next_marker_piece _ _ _ Hs Hnext) as (pre & text & E & Hst & Ht).
  assert (Ht' : text <> []) by by destruct text.
  assert (Et : take (marker_end (buffer r) m - m_start m) (drop (m_start m) (buffer r)) = text).
  { rewrite Hst. unfold marker_end. rewrite E, drop_app_length, !length_app.
    replace (_ - _ - _)%nat with (length text) by lia. apply take_app_length. }
  assert (Hlast : scalars (last_char (m_start m) (buffer r))).
  { unfold last_char. unfold held in Hh. apply scalars_app in Hh as [? _]. destruct (m_start m); auto with scalars. }
  assert (Hlen : (length (m_rest m) < length (buffer r))%nat).
  { rewrite E, !length_app. destruct text; [done|]. cbn. lia. }
  assert (Hlead : scalars (take (m_start m) (buffer r))).
  { apply scalars_take. unfold held in Hh. by apply scalars_app in Hh as [? _]. }
  unfold enter_marker. rewrite Et. clear Et.
  generalize dependent (last_char (m_start m) (buffer r)). intros preceding Hlast.
  generalize dependent (take (m_start m) (buffer r)). intros lead Hlead.
  unfold held in Hh. rewrite E in Hh.
  destruct r as [u b md q e d p dk kw f ss]; cbn in *. subst md.
  clear E Ht Ht' Hnext. scalars_hyps.
  destruct (m_kind m).
  - step_solve; lia.
  - step_solve; lia.
  - destruct (m_quote m) as [q'|].
    + assert (is_scalar q' = true).
      { specialize (Hq q' eq_refl). unfold is_quote, DQUOTE, SQUOTE in Hq. apply is_scalar_spec. lia. }
      step_solve; lia.
    + step_solve; lia.
  - destruct (_ <? _); step_solve; lia.
  - destruct (_ <? _); step_solve; lia.
Qed.

(** ** Scanning *)

Lemma turn_ok final r : redactor_ok r ->
  let '(r', out, go_on) := turn final r in
  redactor_ok r' /\ scalars out /\ same_frame r r' /\ (go_on = true -> (measure r' < measure r)%nat).
Proof.
  intros Hok. unfold turn. destruct (match buffer r with [] => _ | _ => _ end); [done|].
  destruct (is_normal (rmode r)) eqn:Hn; cbn [negb].
  - assert (Hm : rmode r = Normal) by by destruct (rmode r).
    destruct (next_marker _ _) as [m|] eqn:Hnext.
    + pose proof (enter_marker_ok m r Hok Hm Hnext) as He. destruct (enter_marker m r). tauto.
    + pose proof Hok as [Hs Hh]. unfold held in Hh. scalars_hyps.
      assert (Hsub : forall b, scalars b -> redactor_ok (set_buffer b r)).
      { intros b Hb'. split; [done|]. unfold held. cbn. scalars_simpl. }
      destruct final; [|destruct (_ <? _)]; (split; [auto with scalars|]); (split; [auto with scalars|]); done.
  - assert (Hm : rmode r <> Normal) by (intros E; by rewrite E in Hn).
    pose proof (consume_secret_ok final r Hok Hm) as Hc.
    destruct (consume_secret final r) as [[r1 out1] go_on]. cbn in Hc. tauto.
Qed.

Lemma scan_ok fuel : forall final r, redactor_ok r -> (measure r < fuel)%nat ->
  let '(r', out) := scan fuel final r in
  redactor_ok r' /\ scalars out /\ same_frame r r' /\
  forall fuel', (measure r < fuel')%nat -> scan fuel' final r = scan fuel final r.
Proof.
  induction fuel as [|k IH]; intros final r Hok Hf; [lia|].
  assert (S' : forall fuel', (measure r < fuel')%nat -> exists k', fuel' = S k') by (intros [|?]; [lia|eauto]).
  cbn [scan]. pose proof (turn_ok final r Hok) as Ht. destruct (turn final r) as [[r1 out1] go_on] eqn:E.
  destruct Ht as (Hok1 & Ho1 & Hs1 & Hlt). destruct go_on.
  - specialize (Hlt eq_refl). specialize (IH final r1 Hok1 ltac:(lia)).
    destruct (scan k final r1) as [r2 out2] eqn:E2. destruct IH as (Hok2 & Ho2 & Hs2 & Hk).
    split; [done|]. split; [by apply scalars_app|].
    split; [unfold same_frame in *; naive_solver congruence|].
    intros ? F. pose proof F as (k' & ->)%S'. cbn [scan]. rewrite E, Hk by lia. done.
  - split; [done|]. split; [done|]. split; [done|]. intros ? (k' & ->)%S'. cbn [scan]. by rewrite E.
Qed.

Lemma scan_fuel_measure r : (measure r < scan_fuel r)%nat.
Proof. unfold measure, scan_fuel. destruct (rmode r); cbn; lia. Qed.

(** ** Decoding in chunks *)

Lemma utf8_step_scalar s c n : utf8_step s = (Some c, n) -> is_scalar c = true.
Proof.
  unfold utf8_step. generalize (nth_byte 0 s) (nth_byte 1 s) (nth_byte 2 s) (nth_byte 3 s). intros b0 b1 b2 b3.
  unfold second_ok, continuation.
  repeat match goal with
  | |- context [if ?b then _ else _] =>
      match b with
      | context [if _ then _ else _] => fail 1
      | _ => destruct b eqn:?
      end
  end; intros [= <- <-]; unfold between in *; apply is_scalar_spec; split_bools; lia.
Qed.

Lemma utf8_step_positive s : (1 <= snd (utf8_step s) <= 4)%nat.
Proof. unfold utf8_step. repeat case_match; cbn; lia. Qed.

(** A character is decoded, or a malformed prefix replaced, whatever follows;
    except for a prefix that the next bytes may complete. *)
Lemma utf8_step_app b s x :
  let '(o, n) := utf8_step (b :: s) in
  (n <= length (b :: s))%nat /\
  (o = None /\ n = length (b :: s) /\ between 194 244 b = true \/ utf8_step (b :: s ++ x) = (o, n)).
Proof.
  assert (F : continuation (-1) = false) by done.
  assert (F2 : forall l, second_ok l (-1) = false).
  { intros l. unfold second_ok, continuation, between. repeat case_match; done. }
  destruct s as [|b1 [|b2 [|b3 s]]]; cbn [app length];
    unfold utf8_step, nth_byte; cbn [nth]; rewrite ?F, ?F2; cbn [negb];
    destruct (between_reflect 0 127 b); try (split; [lia|by right]);
    destruct (between_reflect 194 223 b); [..|destruct (between_reflect 224 239 b)];
    repeat match goal with
    | |- context [second_ok ?a ?c] => destruct (second_ok a c); cbn [negb]
    | |- context [continuation ?c] => destruct (continuation c); cbn [negb]
    end; try (split; [lia|by right]);
    repeat match goal with
    | |- context [between ?l ?h b] => destruct (between_reflect l h b); cbn [negb]
    end; try lia;
    repeat match goal with
    | |- context [second_ok ?a ?c] => destruct (second_ok a c); cbn [negb]
    | |- context [continuation ?c] => destruct (continuation c); cbn [negb]
    end; (split; [lia|]); first [by right | left; done].
Qed.

Lemma decode_replace_fuel_enough k s : (length s <= k)%nat -> decode_replace_fuel k s = utf8_decode_replace s.
Proof.
  unfold utf8_decode_replace. revert s. induction (lt_wf k) as [k _ IH]. intros s Hk.
  destruct s as [|b s]; [by destruct k|]. destruct k as [|k]; [cbn in Hk; lia|]. cbn [length decode_replace_fuel].
  pose proof (utf8_step_positive (b :: s)) as Hp.
  assert (Hd : forall n, (1 <= n)%nat -> decode_replace_fuel k (drop n (b :: s)) = decode_replace_fuel (length s) (drop n (b :: s))).
  { intros n Hn. assert (length (drop n (b :: s)) <= length s)%nat by (rewrite length_drop; cbn; lia). cbn in Hk.
    by rewrite (IH k), (IH (length s)) by lia. }
  destruct (utf8_step (b :: s)) as [[c|] n]; cbn in Hp; by rewrite Hd by lia.
Qed.

Lemma decode_replace_step b s :
  utf8_decode_replace (b :: s)
  = default REPLACEMENT (fst (utf8_step (b :: s))) :: utf8_decode_replace (drop (snd (utf8_step (b :: s))) (b :: s)).
Proof.
  unfold utf8_decode_replace at 1. cbn [length decode_replace_fuel].
  pose proof (utf8_step_positive (b :: s)) as Hp.
  destruct (utf8_step (b :: s)) as [[c|] n]; cbn [fst snd default] in *;
    rewrite decode_replace_fuel_enough by (rewrite length_drop; cbn; lia); done.
Qed.

(** Decoding a chunk and keeping its unfinished tail changes nothing. *)
Lemma decode_incremental_app k : forall s x, (length s <= k)%nat ->
  let '(t, p) := decode_incremental k false s in
  utf8_decode_replace (s ++ x) = t ++ utf8_decode_replace (p ++ x).
Proof.
  induction k as [|k IH]; intros s x Hk; (destruct s as [|b s]; [done|]); [cbn in Hk; lia|].
  cbn [decode_incremental]. pose proof (utf8_step_app b s x) as Ha.
  pose proof (utf8_step_positive (b :: s)) as Hp.
  destruct (utf8_step (b :: s)) as [o n] eqn:E. cbn [snd] in Hp. destruct Ha as [Hn Ha].
  assert (Hgo : utf8_step (b :: s ++ x) = (o, n) ->
    let '(t, p) := decode_incremental k false (drop n (b :: s)) in
    utf8_decode_replace ((b :: s) ++ x) = (default REPLACEMENT o :: t) ++ utf8_decode_replace (p ++ x)).
  { intros Ex. specialize (IH (drop n (b :: s)) x). destruct (decode_incremental k false _) as [t p].
    cbn [app]. rewrite decode_replace_step, Ex. cbn [fst snd app]. f_equal.
    rewrite app_comm_cons, drop_app_le by done. apply IH. rewrite length_drop. cbn in *. lia. }
  destruct o as [c|].
  - destruct Ha as [(H & _)|Ha]; [done|]. specialize (Hgo Ha).
    by destruct (decode_incremental k false _) as [t p].
  - cbn [negb andb]. destruct (Nat.eqb_spec n (length (b :: s))) as [El|El]; cbn [andb].
    + destruct (between 194 244 b) eqn:Eb; [done|]. destruct Ha as [(_ & _ & H)|Ha]; [done|].
      specialize (Hgo Ha). by destruct (decode_incremental k false _) as [t p].
    + destruct Ha as [(_ & H & _)|Ha]; [done|]. specialize (Hgo Ha).
      by destruct (decode_incremental k false _) as [t p].
Qed.

Lemma decode_incremental_final k : forall s, (length s <= k)%nat ->
  decode_incremental k true s = (utf8_decode_replace s, []).
Proof.
  induction k as [|k IH]; intros s Hk; (destruct s as [|b s]; [done|]); [cbn in Hk; lia|].
  cbn [decode_incremental]. rewrite decode_replace_step. pose proof (utf8_step_positive (b :: s)) as Hp.
  destruct (utf8_step (b :: s)) as [[c|] n]; cbn [negb andb fst snd default] in *;
    by rewrite IH by (rewrite length_drop; cbn in *; lia).
Qed.

Lemma decode_replace_scalars s : scalars (utf8_decode_replace s).
Proof.
  generalize (le_n (length s)). generalize (length s) at 2 as k. intros k. revert s.
  induction k as [|k IH]; intros s Hk; (destruct s as [|b s]; [done|]); [cbn in Hk; lia|].
  rewrite decode_replace_step. pose proof (utf8_step_positive (b :: s)) as Hp. apply scalars_cons. split.
  - destruct (utf8_step (b :: s)) as [[c|] n] eqn:E; [|done]. by apply utf8_step_scalar in E.
  - apply IH. rewrite length_drop. cbn in *. lia.
Qed.

(** What [decode_more] adds to the buffer, and what remains to be decoded *)
Definition pending (r : redactor) (later : bytes) : pystr :=
  buffer r ++ utf8_decode_replace (undecoded r ++ later).

Lemma decode_more_false chunk r : let r' := decode_more false chunk r in
  (forall later, pending r (chunk ++ later) = pending r' later) /\ rmode r' = rmode r /\
  quote_char r' = quote_char r /\ quoted_escape r' = quoted_escape r /\ finished r' = finished r /\
  secrets r' = secrets r.
Proof.
  unfold decode_more, pending. destruct (decode_incremental _ false _) as [t p] eqn:E. cbn. repeat split.
  intros later. pose proof (decode_incremental_app (length (undecoded r ++ chunk)) (undecoded r ++ chunk) later (le_n _)) as H.
  rewrite E, <- app_assoc in H. by rewrite H, app_assoc.
Qed.

Lemma decode_more_true r : decode_more true [] r = set_buffer (pending r []) (mkRedactor [] (buffer r) (rmode r)
  (quote_char r) (quoted_escape r) (direct_text r) (direct_preservable r) (direct_key_quote r)
  (key_whitespace r) (finished r) (secrets r)).
Proof.
  unfold decode_more, pending. by rewrite decode_incremental_final by done.
Qed.

Lemma decode_more_ok final chunk r : redactor_ok r -> redactor_ok (decode_more final chunk r).
Proof.
  intros [Hs Hh]. unfold decode_more.
  destruct (decode_incremental _ final _) as [t p] eqn:E.
  assert (Ht : scalars t).
  { destruct final.
    - rewrite decode_incremental_final in E by done. injection E as <- _. apply decode_replace_scalars.
    - pose proof (decode_incremental_app (length (undecoded r ++ chunk)) (undecoded r ++ chunk) [] (le_n _)) as H.
      rewrite E in H. pose proof (decode_replace_scalars ((undecoded r ++ chunk) ++ [])) as Hd.
      rewrite H in Hd. by apply scalars_app in Hd as [? _]. }
  split; [done|]. unfold held in *. cbn. scalars_hyps. scalars_simpl.
Qed.

(** *** Values that go on *)

(** The secret value the redactor is inside does not end within [text]. *)
Definition value_continues (r : redactor) (text : pystr) : Prop :=
  match rmode r with
  | Quoted => fst (find_unescaped_quote text (quote_char r) (quoted_escape r)) = None
  | InAuthorization | InAssignment => existsb unquoted_terminator text = false
  | _ => False
  end.

Lemma find_quote_app q a b : forall e, fst (find_unescaped_quote (a ++ b) q e) = None ->
  exists e', find_unescaped_quote a q e = (None, e') /\ find_unescaped_quote (a ++ b) q e = find_unescaped_quote b q e'.
Proof.
  induction a as [|c a IH]; intros e H; cbn in *; [by exists e|].
  destruct (c =? BACKSLASH); [auto|]. destruct (_ && _); [done|auto].
Qed.

Lemma split_none p s : existsb p s = false -> split_at p s = (s, []).
Proof.
  unfold split_at. induction s as [|c s IH]; cbn; [done|]. intros [H1 H2]%orb_false_iff.
  by rewrite H1, (IH H2).
Qed.

(** A value that goes on consumes the buffer and prints nothing. *)
Lemma scan_value_continues final r later : value_continues r (buffer r ++ later) ->
  exists r', scan (scan_fuel r) final r = (r', []) /\ buffer r' = [] /\ undecoded r' = undecoded r /\
    finished r' = finished r /\ secrets r' = secrets r /\
    (final = false -> value_continues r' later).
Proof.
  intros Hv. unfold scan_fuel. rewrite Nat.add_comm. cbn [Nat.add scan]. unfold turn.
  assert (Hn : is_normal (rmode r) = false) by (unfold value_continues in Hv; by destruct (rmode r)).
  rewrite Hn. cbn [negb]. rewrite andb_true_r.
  destruct (buffer r) as [|c s] eqn:Hb.
  { destruct final; cbn [negb].
    - unfold value_continues, consume_secret, consume_quoted, consume_unquoted in *.
      destruct (rmode r); try done; rewrite Hb; cbn; eexists; (split; [reflexivity|]); cbn; repeat split; done.
    - exists r. by rewrite Hb. }
  rewrite <- Hb in *. clear Hb.
  unfold value_continues, consume_secret, consume_quoted, consume_unquoted in *.
  destruct (rmode r) eqn:Hm; try done.
  - apply find_quote_app in Hv as Hf. destruct Hf as (e' & E & E'). rewrite E.
    eexists. split; [reflexivity|]. cbn. rewrite Hm. repeat split. intros ->. by rewrite <- E'.
  - rewrite existsb_app in Hv. apply orb_false_iff in Hv as [H1 H2]. rewrite split_none by done. cbn.
    eexists. split; [reflexivity|]. destruct final; cbn; rewrite ?Hm; done.
  - rewrite existsb_app in Hv. apply orb_false_iff in Hv as [H1 H2]. rewrite split_none by done. cbn.
    eexists. split; [reflexivity|]. destruct final; cbn; rewrite ?Hm; done.
Qed.

Lemma value_continues_same r r' text : rmode r' = rmode r -> quote_char r' = quote_char r ->
  quoted_escape r' = quoted_escape r -> value_continues r text -> value_continues r' text.
Proof. unfold value_continues. by intros -> -> ->. Qed.

(** *** Text without markers *)

Definition idle (r : redactor) : Prop := rmode r = Normal /\ secrets r = [].

Lemma scan_idle final r later : redactor_ok r -> idle r -> existsb marks (buffer r ++ later) = false ->
  exists r' out, scan (scan_fuel r) final r = (r', out) /\ buffer r = out ++ buffer r' /\ idle r' /\
    undecoded r' = undecoded r /\ finished r' = finished r /\ scalars out /\ (final = true -> buffer r' = []).
Proof.
  intros [_ Hh] (Hm & Hs) Hb. rewrite existsb_app in Hb. apply orb_false_iff in Hb as [Hb _].
  unfold held in Hh. scalars_hyps. unfold scan_fuel. rewrite Nat.add_comm. cbn [Nat.add scan]. unfold turn. rewrite Hm, Hs. cbn [is_normal negb].
  rewrite andb_false_r, next_marker_unmarked by done. cbn [negb].
  destruct (buffer r) as [|c s] eqn:E; [exists r, []; by rewrite E|].
  rewrite <- E in *.
  destruct final; [|destruct (_ <? _)]; eexists _, _; (split; [reflexivity|]); cbn;
    rewrite ?app_nil_r, ?take_drop; repeat split; auto with scalars; done.
Qed.

(** *** Encoding what was printed *)

Lemma encode_out_scalars s : scalars s -> encode_out s = Ok (concat (map encode_char s)).
Proof. intros H. unfold encode_out, utf8_encode. by rewrite H. Qed.

Lemma feed_ok chunk r : redactor_ok r -> finished r = false ->
  exists text r', feed chunk r = (Ok (concat (map encode_char text)), r') /\ scalars text /\
    redactor_ok r' /\ finished r' = false.
Proof.
  intros Hok Hf. unfold feed. rewrite Hf.
  pose proof (decode_more_ok false chunk r Hok) as H1.
  destruct (decode_more_false chunk r) as (_ & _ & _ & _ & Hf1 & _).
  pose proof (scan_ok (scan_fuel (decode_more false chunk r)) false _ H1 (scan_fuel_measure _)) as H2.
  destruct (scan _ _ _) as [r2 text]. destruct H2 as (Hok2 & Ht & (_ & Hf2 & _) & _).
  exists text, r2. rewrite encode_out_scalars by done. repeat split; try apply Hok2; congruence.
Qed.

Lemma finish_ok r : redactor_ok r -> exists text, fst (finish r) = Ok (concat (map encode_char text)) /\ scalars text.
Proof.
  intros Hok. unfold finish. destruct (finished r); [by exists []|].
  assert (H1 : redactor_ok (decode_more true [] (mark_finished r))) by by apply decode_more_ok.
  pose proof (scan_ok (scan_fuel (decode_more true [] (mark_finished r))) true _ H1 (scan_fuel_measure _)) as H2.
  destruct (scan _ _ _) as [r2 text]. destruct H2 as (_ & Ht & _). exists text. cbn.
  by rewrite encode_out_scalars.
Qed.

Lemma by_length_In l s : In s (by_length l) -> In s l.
Proof.
  unfold by_length. cut (forall acc, In s (fold_left (fun acc x => insert_by_length x acc) l acc) -> In s acc \/ In s l).
  { intros H [[]|?]%H. done. }
  induction l as [|x l IH]; intros acc; cbn; [by left|]. intros [H|H]%IH; [|by right; right].
  assert (In s acc \/ x = s); [|tauto].
  revert H. clear. induction acc as [|y acc IH]; cbn; [tauto|]. destruct (_ <? _); cbn; tauto.
Qed.

Lemma new_redactor_ok l : redactor_ok (new_redactor l).
Proof.
  split; [|done]. cbn. apply List.Forall_forall. intros s [_ Hs]%by_length_In%filter_In. by destruct s.
Qed.

Lemma normal_carry_secret r s : In s (secrets r) -> zlen s <= normal_carry r.
Proof.
  unfold normal_carry. induction (secrets r) as [|x l IH]; [done|]. cbn. intros [->|H%IH]; lia.
Qed.

Lemma redact_chunks_ok chunks : forall r, redactor_ok r -> finished r = false ->
  exists text, redact_chunks chunks r = Ok (concat (map encode_char text)) /\ scalars text.
Proof.
  induction chunks as [|c chunks IH]; intros r Hok Hf; cbn [redact_chunks]; [by apply finish_ok|].
  destruct (feed_ok c r Hok Hf) as (t1 & r1 & -> & Ht1 & Hok1 & Hf1).
  destruct (IH r1 Hok1 Hf1) as (t2 & H2 & Ht2). exists (t1 ++ t2). cbn. rewrite H2. cbn.
  rewrite map_app, concat_app. split; [done|]. by apply scalars_app.
Qed.

Lemma redact_text_ok value : exists t, redact_text value = Ok t /\ scalars t.
Proof.
  destruct (redact_chunks_ok [encode_replace value] (new_redactor [])) as (t & Hr & Ht); [apply new_redactor_ok|done|].
  exists t. split; [|done]. unfold redact_text. rewrite Hr. cbn. erewrite utf8_roundtrip; [done|].
  unfold utf8_encode. by rewrite Ht.
Qed.

(** ** Properties *)

(** Whatever bytes a job prints, in whatever chunks, redaction raises
    nothing, and what it publishes is well-formed UTF-8 (which
    [redact_text] and the callers decode). *)
Theorem redactor_never_raises secret_values chunks :
  exists out text, redact_chunks chunks (new_redactor secret_values) = Ok out /\ utf8_decode out = Some text.
Proof.
  destruct (redact_chunks_ok chunks (new_redactor secret_values)) as (text & Hr & Ht); [apply new_redactor_ok|done|].
  eexists _, text. split; [exact Hr|]. apply utf8_roundtrip. unfold utf8_encode. by rewrite Ht.
Qed.

(** The scanning loop terminates: from any state a redactor can be in,
    three turns per buffered character and four more are enough, and more
    fuel changes neither the state nor the output. *)
Theorem scan_terminates final r fuel : redactor_ok r -> (scan_fuel r <= fuel)%nat ->
  scan fuel final r = scan (scan_fuel r) final r.
Proof.
  intros Hok Hf. pose proof (scan_ok (scan_fuel r) final r Hok (scan_fuel_measure r)) as H.
  destruct (scan (scan_fuel r) final r). destruct H as (_ & _ & _ & H). apply H.
  pose proof (scan_fuel_measure r). lia.
Qed.

Definition fed_redactor : redactor := decode_more false (str "password: x hf_abc") (new_redactor [str "abc"]).

Lemma scan_terminates_witness : scan 500 true fed_redactor = scan (scan_fuel fed_redactor) true fed_redactor.
Proof.
  apply (scan_terminates true fed_redactor 500); [|vm_compute; lia].
  apply decode_more_ok, new_redactor_ok.
Defined.

(** A secret value is not published however it is split: once the
    redactor is inside a quoted or an unquoted value, every sequence of
    chunks whose text does not end that value (no unescaped quote, no
    terminator), up to and including the end of the stream, publishes no
    byte. *)
Theorem continued_value_hidden chunks r : finished r = false ->
  value_continues r (pending r (concat chunks)) -> redact_chunks chunks r = Ok [].
Proof.
  revert r. induction chunks as [|c chunks IH]; intros r Hf Hv; cbn [redact_chunks concat] in *.
  - unfold finish. rewrite Hf. rewrite decode_more_true.
    set (r1 := set_buffer _ _).
    assert (Hv1 : value_continues r1 (buffer r1 ++ [])) by (rewrite app_nil_r; exact Hv).
    by destruct (scan_value_continues true r1 [] Hv1) as (r' & -> & _).
  - unfold feed. rewrite Hf. destruct (decode_more_false c r) as (Hp & Hm & Hq & He & Hf1 & _).
    rewrite Hp in Hv. apply (value_continues_same _ (decode_more false c r)) in Hv; [|done..].
    destruct (scan_value_continues false _ _ Hv) as (r2 & -> & Hb2 & Hu2 & Hf2 & _ & Hv2). cbn.
    rewrite (IH r2); [done|congruence|]. specialize (Hv2 eq_refl). unfold pending in *. by rewrite Hb2, Hu2.
Qed.

Definition inside_quotes : redactor := snd (feed (str "password: 'x") (new_redactor [])).

Lemma continued_value_hidden_witness :
  redact_chunks [str "secret\"; str "' still"; [226; 130]; [172; 92]; str "'"] inside_quotes = Ok [].
Proof. apply continued_value_hidden; vm_compute; reflexivity. Defined.

(** Output without markers is unchanged: when no literal secret is
    configured and the decoded stream has none of the colon, the equals sign,
    the quotes, the underscore and the dash, what is published is exactly the
    stream decoded with replacement and encoded again, however it was split
    into chunks. *)
Theorem unmarked_output_unchanged chunks :
  existsb marks (utf8_decode_replace (concat chunks)) = false ->
  redact_chunks chunks (new_redactor []) = Ok (concat (map encode_char (utf8_decode_replace (concat chunks)))).
Proof.
  cut (forall r, idle r -> redactor_ok r -> finished r = false -> existsb marks (pending r (concat chunks)) = false ->
    redact_chunks chunks r = Ok (concat (map encode_char (pending r (concat chunks))))).
  { intros H Hm. apply (H (new_redactor [])); [done|apply new_redactor_ok|done..]. }
  induction chunks as [|c chunks IH]; intros r Hi Hok Hf Hv; cbn [redact_chunks concat] in *.
  - unfold finish. rewrite Hf. pose proof (decode_more_ok true [] (mark_finished r) Hok) as Hok1.
    rewrite decode_more_true in *. change (pending (mark_finished r) []) with (pending r []) in *.
    set (r1 := set_buffer _ _) in *.
    destruct (scan_idle true r1 [] Hok1) as (r2 & out & -> & Hb & _ & _ & _ & Ho & Hend);
      [exact Hi|by rewrite app_nil_r|].
    rewrite (Hend eq_refl), app_nil_r in Hb. change (buffer r1) with (pending r []) in Hb.
    cbn. rewrite encode_out_scalars by done. by rewrite Hb.
  - unfold feed. rewrite Hf. destruct (decode_more_false c r) as (Hp & Hm & _ & _ & Hf1 & Hs1).
    rewrite Hp in Hv |- *. pose proof (decode_more_ok false c r Hok) as Hok1.
    assert (Hi1 : idle (decode_more false c r)) by (destruct Hi; split; congruence).
    destruct (scan_idle false _ _ Hok1 Hi1 Hv) as (r2 & out & E & Hb & Hi2 & Hu & Hf2 & Ho & _).
    pose proof (scan_ok (scan_fuel (decode_more false c r)) false _ Hok1 (scan_fuel_measure _)) as H2.
    rewrite E in *. destruct H2 as (Hok2 & _).
    assert (Hpend : pending (decode_more false c r) (concat chunks) = out ++ pending r2 (concat chunks)).
    { unfold pending. by rewrite Hb, Hu, app_assoc. }
    rewrite Hpend, existsb_app in *. apply orb_false_iff in Hv as [_ Hv].
    cbn. rewrite encode_out_scalars by done. rewrite (IH r2) by (done || congruence). cbn.
    by rewrite map_app, concat_app.
Qed.

Lemma unmarked_output_unchanged_witness :
  redact_chunks [str "loss 0.25 "; [226; 130]; [172] ++ str " step 10"] (new_redactor [])
  = Ok (str "loss 0.25 " ++ [226; 130; 172] ++ str " step 10").
Proof. rewrite unmarked_output_unchanged; vm_compute; reflexivity. Defined.

(** The carry is long enough: when the redactor finds no marker and
    publishes the front of its buffer, no literal secret begins in what it
    published, whatever the following chunks bring. *)
Theorem carry_covers_secrets r r' out secret later i :
  redactor_ok r -> rmode r = Normal -> next_marker (secrets r) (buffer r) = None ->
  scan (scan_fuel r) false r = (r', out) -> In secret (secrets r) -> (i < length out)%nat ->
  buffer r = out ++ buffer r' /\ startswith secret (drop i (buffer r ++ later)) = false.
Proof.
  intros [Hs _] Hm Hnext Hscan Hin Hi.
  unfold scan_fuel in Hscan. rewrite Nat.add_comm in Hscan. cbn [Nat.add scan] in Hscan.
  unfold turn in Hscan. rewrite Hm, Hnext in Hscan. cbn [is_normal negb] in Hscan. rewrite andb_false_r in Hscan.
  cbn [negb] in Hscan.
  destruct (buffer r) as [|c s] eqn:Hb; [injection Hscan as <- <-; cbn in Hi; lia|]. rewrite <- Hb in *.
  destruct (normal_carry r <? zlen (buffer r)) eqn:Hc; injection Hscan as <- <-; [|cbn in Hi; lia].
  cbn [buffer set_buffer]. rewrite take_drop. split; [done|].
  apply not_true_iff_false. intros (t & Ht)%startswith_app.
  assert (Hl : (i + length secret <= length (buffer r))%nat).
  { pose proof (normal_carry_secret r secret Hin). rewrite length_take in Hi. unfold zlen in *. lia. }
  rewrite drop_app_le in Ht by lia.
  assert (Hst : startswith secret (drop i (buffer r)) = true).
  { apply startswith_app. exists (drop (length secret) (drop i (buffer r))).
    apply (f_equal (take (length secret))) in Ht. rewrite take_app_length, take_app_le in Ht
      by (rewrite length_drop; lia). rewrite <- Ht at 1. by rewrite take_drop. }
  pose proof (next_marker_secrets _ _ Hnext _ _ (eq_sym (take_drop i (buffer r)))) as Hnone.
  unfold secret_at in Hnone. destruct (find _ (secrets r)) eqn:F; [done|].
  by rewrite (find_none _ _ F secret Hin) in Hst.
Qed.

Definition long_line : redactor := decode_more false (repeat 46 100) (new_redactor [str "s3cret"]).

Lemma carry_covers_secrets_witness :
  buffer long_line = repeat 46 4 ++ buffer (fst (scan (scan_fuel long_line) false long_line)) /\
  startswith (str "s3cret") (drop 3 (buffer long_line ++ str "s3cret")) = false.
Proof.
  apply (carry_covers_secrets long_line _ (repeat 46 4));
    [apply decode_more_ok, new_redactor_ok|vm_compute; reflexivity..|by left|vm_compute; lia].
Defined.

(** Found while modelling: redaction of a literal secret depends on the
    chunk boundaries.  A configured secret with a token prefix, printed as a
    quoted key, is redacted when its line arrives at once; when a chunk ends
    inside it, the prefix alone is taken for a direct token, which is kept
    verbatim before a colon, and the whole secret is published. *)
Theorem split_chunk_publishes_secret :
  let token := str "hf_secret1" in
  let line := [123; DQUOTE] ++ token ++ [DQUOTE; COLON; 49; 125] in
  redact_chunks [line] (new_redactor [token])
    = Ok ([123; DQUOTE] ++ REDACTED ++ [DQUOTE; COLON] ++ REDACTED) /\
  redact_chunks [take 6 line; drop 6 line] (new_redactor [token])
    = Ok ([123; DQUOTE] ++ token ++ [DQUOTE; COLON] ++ REDACTED).
Proof. split; vm_compute; reflexivity. Qed.
