(* ===== verification/JobStore.v ===== *)
(** * Jobs of the host agent: records

    The data of [host_agent/dgx_ops_agent/runner.py]: the state of a job, the
    bounded window over its output, what a client reads from it, the metadata
    file that survives a restart of the agent, and the checks on argument
    vectors and environments.  A worker's progress is in [JobRun]. *)
From Stdlib Require Import ZArith Lia Bool String.
From Stdlib Require Import SpecFloat.
From stdpp Require Import prelude.
From S2P Require Import Prelude PyValue PyFloat Utf8 Sha256 Json Protocol Launcher Policy.
Open Scope Z_scope.

(** ** Constants *)

Definition RECOVERY_ENVIRONMENT_KEY : pystr := str "DGX_OPS_RECOVERY_TOKEN".
Definition DEFAULT_OUTPUT_LIMIT : Z := 65536.
Definition MAX_OUTPUT_LIMIT : Z := 16777216.
Definition MAX_ERROR_BYTES : Z := 512.
Definition TERMINAL_STATUSES : list pystr :=
  [str "succeeded"; str "failed"; str "timed_out"; str "cancelled"].
Definition STATUSES : list pystr := str "queued" :: str "running" :: TERMINAL_STATUSES.
Definition ALLOWED_ENVIRONMENT : list pystr :=
  [str "COLORTERM"; str "DEBIAN_FRONTEND"; str "LANG"; str "LC_ALL"; str "LC_CTYPE";
   str "NO_COLOR"; str "PIP_DISABLE_PIP_VERSION_CHECK"; str "TERM"; str "TZ"].
Definition RECOVERY_TOKEN_PLACEHOLDER : pystr := repeat 120 43.

(** ** Data *)

Record ProcessIdentity := mkIdentity {
  pi_pid : Z;
  pi_process_group : option Z;
  pi_session_id : option Z;
  pi_start_time_ticks : option Z;
  pi_boot_id : option pystr;
  pi_recovery_token : pystr;
}.

(** [_JobState]; [process] is the process identifier of the [Popen] object,
    times are the floats of [time.time]. *)
Record JobState := mkJob {
  id : pystr;
  status : pystr;
  output : bytes;
  output_offset : Z;
  truncated_before : Z;
  exit_code : option Z;
  started : option spec_float;
  finished : option spec_float;
  error : option pystr;
  process : option Z;
  process_group : option Z;
  process_identity : option ProcessIdentity;
  launch_phase : option pystr;
  recovery_token : option pystr;
  cancel_requested : bool;
}.

Definition new_job (job_id : pystr) : JobState :=
  mkJob job_id (str "queued") [] 0 0 None None None None None None None None None false.

(** *** Field updates *)
Definition set_output (o : bytes) (offset truncated : Z) (s : JobState) : JobState :=
  mkJob (id s) (status s) o offset truncated (exit_code s) (started s) (finished s) (error s)
    (process s) (process_group s) (process_identity s) (launch_phase s) (recovery_token s)
    (cancel_requested s).
Definition set_outcome (st : pystr) (code : option Z) (t : option spec_float) (e : option pystr)
    (s : JobState) : JobState :=
  mkJob (id s) st (output s) (output_offset s) (truncated_before s) code (started s) t e
    (process s) (process_group s) (process_identity s) (launch_phase s) (recovery_token s)
    (cancel_requested s).
Definition set_started (t : spec_float) (s : JobState) : JobState :=
  mkJob (id s) (status s) (output s) (output_offset s) (truncated_before s) (exit_code s) (Some t)
    (finished s) (error s) (process s) (process_group s) (process_identity s) (launch_phase s)
    (recovery_token s) (cancel_requested s).
Definition set_process (p g : option Z) (s : JobState) : JobState :=
  mkJob (id s) (status s) (output s) (output_offset s) (truncated_before s) (exit_code s)
    (started s) (finished s) (error s) p g (process_identity s) (launch_phase s)
    (recovery_token s) (cancel_requested s).
Definition set_launch (phase token : option pystr) (i : option ProcessIdentity) (s : JobState)
    : JobState :=
  mkJob (id s) (status s) (output s) (output_offset s) (truncated_before s) (exit_code s)
    (started s) (finished s) (error s) (process s) (process_group s) i phase token
    (cancel_requested s).
Definition set_cancel (s : JobState) : JobState :=
  mkJob (id s) (status s) (output s) (output_offset s) (truncated_before s) (exit_code s)
    (started s) (finished s) (error s) (process s) (process_group s) (process_identity s)
    (launch_phase s) (recovery_token s) true.

(** [Job]: the snapshot a client sees *)
Record Job := mkSnapshot {
  job_id : pystr;
  job_status : pystr;
  job_output : pystr;
  job_output_offset : Z;
  job_truncated_before : Z;
  job_exit_code : option Z;
  job_started : option spec_float;
  job_finished : option spec_float;
  job_error : option pystr;
}.

Definition opt_value {A} (f : A -> pyval) (o : option A) : pyval :=
  match o with Some a => f a | None => PNone end.

(** [Job.as_dict] *)
Definition job_as_dict (j : Job) : pydict :=
  [(str "job_id", PStr (job_id j));
   (str "status", PStr (job_status j));
   (str "output", PStr (job_output j));
   (str "output_offset", PInt (job_output_offset j));
   (str "truncated_before", PInt (job_truncated_before j));
   (str "exit_code", opt_value PInt (job_exit_code j));
   (str "started", opt_value PFloat (job_started j));
   (str "finished", opt_value PFloat (job_finished j));
   (str "error", opt_value PStr (job_error j))].

(** [_ProcessIdentity.as_dict] *)
Definition identity_as_dict (i : ProcessIdentity) : pydict :=
  [(str "pid", PInt (pi_pid i));
   (str "process_group", opt_value PInt (pi_process_group i));
   (str "session_id", opt_value PInt (pi_session_id i));
   (str "start_time_ticks", opt_value PInt (pi_start_time_ticks i));
   (str "boot_id", opt_value PStr (pi_boot_id i));
   (str "recovery_token", PStr (pi_recovery_token i))].

(** [_snapshot] with the whole retained output, or with the given one *)
Definition snapshot_with (text : pystr) (truncated : Z) (s : JobState) : Job :=
  mkSnapshot (id s) (status s) text (output_offset s) truncated (exit_code s) (started s)
    (finished s) (error s).

Definition decode_output (b : bytes) : result pystr := of_option (utf8_decode b) (UnicodeError []).

Definition snapshot (s : JobState) : result Job :=
  text ← decode_output (output s); Ok (snapshot_with text (truncated_before s) s).

(** ** The output window *)

(** [byte & 0xC0 == 0x80] *)
Definition is_continuation (b : Z) : bool := Z.land b 192 =? 128.

Fixpoint skip_continuation (s : bytes) : bytes :=
  match s with
  | b :: r => if is_continuation b then skip_continuation r else s
  | [] => []
  end.

(** [_append_output] without the call to [_persist] that ends it *)
Definition append_output (limit : Z) (value : bytes) (s : JobState) : JobState :=
  match value with
  | [] => s
  | _ =>
      let out := output s ++ value in
      let offset := output_offset s + zlen value in
      let remove := Z.max 0 (zlen out - limit) in
      let kept := skip_continuation (drop (Z.to_nat remove) out) in
      set_output kept offset (offset - zlen kept) s
  end.

(** [get]: the output from an absolute offset on *)
Definition get_output (offset : option pyval) (s : JobState) : result Job :=
  requested ← match offset with
              | None => Ok (truncated_before s)
              | Some v =>
                  match as_int v with
                  | Some n => if (0 <=? n) && (n <=? output_offset s)
                              then Ok (Z.max n (truncated_before s))
                              else Raise (ValueError (str "invalid offset"))
                  | None => Raise (ValueError (str "invalid offset"))
                  end
              end;
  let rest := drop (Z.to_nat (requested - truncated_before s)) (output s) in
  let kept := skip_continuation rest in
  text ← decode_output kept;
  Ok (snapshot_with text (requested + (zlen rest - zlen kept)) s).

Definition is_terminal (s : JobState) : bool := str_in (status s) TERMINAL_STATUSES.

(** [cancel] on a job: the new state and the snapshot returned *)
Definition cancel (s : JobState) : JobState := if is_terminal s then s else set_cancel s.

(** The state change of [_finish], at this time *)
Definition finish_state (now : spec_float) (st : pystr) (code : option Z) (err : option pystr)
    (s : JobState) : JobState :=
  if is_terminal s then s
  else set_process None (process_group s) (set_outcome st code (Some now) err s).

(** ** Errors and identifiers *)

Fixpoint strip_trailing_continuation (fuel : nat) (s : bytes) : bytes :=
  match fuel with
  | O => s
  | S k => match rev s with
           | b :: r => if is_continuation b then strip_trailing_continuation k (rev r) else s
           | [] => []
           end
  end.

(** [decode("utf-8", errors="ignore")] *)
Fixpoint decode_ignore_fuel (fuel : nat) (s : bytes) : pystr :=
  match s, fuel with
  | [], _ => []
  | _, O => []
  | _, S k => match utf8_step s with
              | (Some c, n) => c :: decode_ignore_fuel k (drop n s)
              | (None, n) => decode_ignore_fuel k (drop n s)
              end
  end.

(** [_bounded_error] on the redacted text *)
Definition bounded_error (value : pystr) : result pystr :=
  encoded ← of_option (utf8_encode value) (UnicodeError []);
  if zlen encoded <=? MAX_ERROR_BYTES then Ok value
  else
    let cut := take (Z.to_nat MAX_ERROR_BYTES) encoded in
    let kept := strip_trailing_continuation (length cut) cut in
    Ok (decode_ignore_fuel (length kept) kept).

Definition is_hex_lower (c : Z) : bool := is_digit c || ((97 <=? c) && (c <=? 102)).

(** [_valid_job_id]: the canonical text of a UUID *)
Definition valid_job_id (value : pyval) : bool :=
  match value with
  | PStr s =>
      (zlen s =? 36) &&
      forallb (fun p => let '(i, c) := p in
                 if str_in [i] [[8]; [13]; [18]; [23]] then c =? 45 else is_hex_lower c)
        (zip (map Z.of_nat (seq 0 36)) s)
  | _ => false
  end.

(** ** Environments and invocations *)

Definition invalid_environment : exn := ValueError (str "invalid environment").

Definition safe_environment_item (clean : list (pystr * pystr)) (item : pyval * pyval)
    : result (list (pystr * pystr)) :=
  key ← of_option (as_str (fst item)) invalid_environment;
  _ ← guard_exn (str_in key ALLOWED_ENVIRONMENT) invalid_environment;
  value ← of_option (as_str (snd item)) invalid_environment;
  _ ← guard_exn ((zlen value <=? 256) && negb (existsb control_character value)) invalid_environment;
  Ok (dict_set key value clean).

Fixpoint safe_environment_items (clean : list (pystr * pystr)) (items : list (pyval * pyval))
    : result (list (pystr * pystr)) :=
  match items with
  | [] => Ok clean
  | item :: rest => clean ← safe_environment_item clean item; safe_environment_items clean rest
  end.

(** [safe_environment] on the items of a mapping or a sequence of pairs *)
Definition safe_environment (values : list (pyval * pyval)) : result (list (pystr * pystr)) :=
  if 16 <? zlen values then Raise invalid_environment
  else safe_environment_items [(PATH, SAFE_PATH)] values.

Definition invalid_argv : exn := ValueError (str "invalid argv").

(** [_validate_argv] on a sequence *)
Definition validate_argv (argv : list pyval) : result (list pystr) :=
  _ ← guard_exn (match argv with [] => false | _ => true end && (zlen argv <=? MAX_ARGUMENTS)) invalid_argv;
  items ← mapM_result (fun v => s ← of_option (as_str v) invalid_argv;
                                _ ← guard_exn (plain_string s) invalid_argv; Ok s) argv;
  total ← utf8_total items;
  _ ← guard_exn (total <=? MAX_ARGUMENT_BYTES) invalid_argv;
  Ok items.

(** A timeout as the runner accepts it: in (0, 3600], as a float. *)
Definition validate_timeout (v : pyval) : result spec_float :=
  if is_bool v then Raise (ValueError (str "invalid timeout"))
  else match as_num v with
       | Some t =>
           if num_ltb (NInt 0) t && negb (num_ltb (NInt 3600) t)
           then Ok (match t with NInt n => float_of_Z n | NFloat f => f end)
           else Raise (ValueError (str "invalid timeout"))
       | None => Raise (ValueError (str "invalid timeout"))
       end.

Inductive invocation :=
  | Validated (action : ValidatedAction)
  | Explicit (argv : list pyval).

(** The launcher request for a job: its environment with a recovery token. *)
Definition launch_request (argv : list pystr) (cwd : option pystr)
    (environment : list (pystr * pystr)) (token : pystr) : request :=
  mkRequest argv cwd (dict_set RECOVERY_ENVIRONMENT_KEY token environment).

(** [_invocation] *)
Definition resolve_invocation (inv : invocation) (cwd : option pystr) (timeout : option pyval)
    (environment : list (pyval * pyval))
    : result (list pystr * option pystr * spec_float * list (pystr * pystr)) :=
  '(argv, resolved_cwd, resolved_timeout, items) ←
    match inv with
    | Validated a =>
        match cwd, timeout, environment with
        | None, None, [] =>
            Ok (map PStr (va_argv a), va_cwd a, PInt (va_timeout a),
                map (fun p => (PStr (fst p), PStr (snd p))) (va_environment a))
        | _, _, _ => Raise (TypeError (str "validated action does not accept invocation overrides"))
        end
    | Explicit argv =>
        argv ← validate_argv argv;
        Ok (map PStr argv, cwd, default (PInt 30) timeout, environment)
    end;
  argv ← validate_argv argv;
  seconds ← validate_timeout resolved_timeout;
  _ ← guard_exn (match resolved_cwd with Some c => plain_string c | None => true end)
        (ValueError (str "invalid cwd"));
  clean ← safe_environment items;
  _ ← serialize_request (launch_request argv resolved_cwd clean RECOVERY_TOKEN_PLACEHOLDER);
  Ok (argv, resolved_cwd, seconds, clean).

(** ** Metadata *)

(** The dictionary that [_persist] writes *)
Definition metadata (j : Job) (s : JobState) : pydict :=
  job_as_dict j ++
  [(str "process_identity", opt_value (fun i => PDict (identity_as_dict i)) (process_identity s));
   (str "launch", match launch_phase s, recovery_token s with
                  | Some phase, Some token =>
                      PDict [(str "phase", PStr phase); (str "recovery_token", PStr token)]
                  | _, _ => PNone
                  end)].

Definition metadata_style : dump_style :=
  {| item_separator := str ","; key_separator := str ":"; ensure_ascii := true;
     sort_keys := false; allow_nan := true |}.

(** The text of the metadata file (it is ASCII) *)
Definition metadata_text (s : JobState) : result pystr :=
  j ← snapshot s; dumps metadata_style (PDict (metadata j s)).

Definition invalid_metadata : exn := ValueError (str "invalid job metadata").

(** A dictionary with exactly these keys; a value of another type fails. *)
Definition exact_dict (value : pyval) (expected : list pystr) : result pydict :=
  d ← of_option (as_dict value) invalid_metadata;
  _ ← guard_exn (keys_equal d expected) invalid_metadata;
  Ok d.

Definition parse_launch (value : pyval) : result (option pystr * option pystr) :=
  match value with
  | PNone => Ok (None, None)
  | _ =>
      d ← exact_dict value [str "phase"; str "recovery_token"];
      phase ← match get_or_none (str "phase") d with
              | PStr p => _ ← guard_exn (str_in p [str "prepared"; str "ready"]) invalid_metadata; Ok p
              | PList _ | PDict _ => Raise (TypeError (str "unhashable type"))
              | _ => Raise invalid_metadata
              end;
      token ← of_option (as_str (get_or_none (str "recovery_token") d)) invalid_metadata;
      _ ← guard_exn ((32 <=? zlen token) && (zlen token <=? 128) && is_ascii token) invalid_metadata;
      Ok (Some phase, Some token)
  end.

(** [None], or an integer (not a boolean) above zero *)
Definition optional_positive (value : pyval) : result (option Z) :=
  match value with
  | PNone => Ok None
  | _ => n ← of_option (as_int value) invalid_metadata;
         _ ← guard_exn (0 <? n) invalid_metadata; Ok (Some n)
  end.

(** [None], or a string of 1 to 128 characters *)
Definition optional_boot_id (value : pyval) : result (option pystr) :=
  match value with
  | PNone => Ok None
  | _ => b ← of_option (as_str value) invalid_metadata;
         _ ← guard_exn ((1 <=? zlen b) && (zlen b <=? 128)) invalid_metadata; Ok (Some b)
  end.

Definition parse_process_identity (value : pyval) : result (option ProcessIdentity) :=
  match value with
  | PNone => Ok None
  | _ =>
      d ← exact_dict value [str "pid"; str "process_group"; str "session_id";
                            str "start_time_ticks"; str "boot_id"; str "recovery_token"];
      pid ← of_option (as_int (get_or_none (str "pid") d)) invalid_metadata;
      _ ← guard_exn (0 <? pid) invalid_metadata;
      process_group ← optional_positive (get_or_none (str "process_group") d);
      session_id ← optional_positive (get_or_none (str "session_id") d);
      start_time_ticks ← optional_positive (get_or_none (str "start_time_ticks") d);
      boot_id ← optional_boot_id (get_or_none (str "boot_id") d);
      token ← of_option (as_str (get_or_none (str "recovery_token") d)) invalid_metadata;
      _ ← guard_exn ((16 <=? zlen token) && (zlen token <=? 128) && is_ascii token) invalid_metadata;
      Ok (Some (mkIdentity pid process_group session_id start_time_ticks boot_id token))
  end.

(** [float(value)] of an optional number: an integer beyond the range of
    floats raises [OverflowError]. *)
Definition optional_float (value : pyval) : result (option spec_float) :=
  match value with
  | PNone => Ok None
  | _ =>
      t ← of_option (as_num value) invalid_metadata;
      match t with
      | NFloat f => Ok (Some f)
      | NInt n => let f := float_of_Z n in
                  if isfinite f then Ok (Some f)
                  else Raise (OverflowError (str "int too large to convert to float"))
      end
  end.

(** [None], or a number: checked before any conversion *)
Definition optional_number (value : pyval) : result unit :=
  guard_exn (is_none value || match as_num value with Some _ => true | None => false end)
    invalid_metadata.

(** [None], or a text of at most 512 bytes *)
Definition optional_error (value : pyval) : result (option pystr) :=
  match value with
  | PNone => Ok None
  | _ => e ← of_option (as_str value) invalid_metadata;
         b ← of_option (utf8_encode e) (UnicodeError []);
         _ ← guard_exn (zlen b <=? MAX_ERROR_BYTES) invalid_metadata; Ok (Some e)
  end.

(** [data.get(key)] *)
Definition field_of (data : pydict) (key : string) : pyval := get_or_none (str key) data.

(** [_state_from_metadata] *)
Definition state_from_metadata (limit : Z) (jid : pystr) (data : pyval) : result JobState :=
  d ← of_option (as_dict data) invalid_metadata;
  _ ← guard_exn (match field_of d "job_id" with PStr j => str_eqb j jid | _ => false end) invalid_metadata;
  st ← match field_of d "status" with
       | PStr st => _ ← guard_exn (str_in st STATUSES) invalid_metadata; Ok st
       | PList _ | PDict _ => Raise (TypeError (str "unhashable type"))
       | _ => Raise invalid_metadata
       end;
  text ← of_option (as_str (field_of d "output")) invalid_metadata;
  offset ← of_option (as_int (field_of d "output_offset")) invalid_metadata;
  truncated ← of_option (as_int (field_of d "truncated_before")) invalid_metadata;
  encoded ← of_option (utf8_encode text) (UnicodeError []);
  _ ← guard_exn ((zlen encoded <=? limit) && (0 <=? truncated)
                 && (offset =? truncated + zlen encoded)) invalid_metadata;
  identity ← parse_process_identity (field_of d "process_identity");
  '(phase, token) ← parse_launch (field_of d "launch");
  _ ← guard_exn (is_none (field_of d "exit_code") || match as_int (field_of d "exit_code") with
                                               | Some _ => true | None => false end) invalid_metadata;
  _ ← optional_number (field_of d "started");
  _ ← optional_number (field_of d "finished");
  err ← optional_error (field_of d "error");
  begin ← optional_float (field_of d "started");
  end_ ← optional_float (field_of d "finished");
  Ok (mkJob jid st encoded offset truncated (as_int (field_of d "exit_code")) begin end_ err None
        (i ← identity; pi_process_group i) identity phase token false).

(** ** Loading *)

(** [except (OSError, UnicodeError, ValueError, TypeError, JSONDecodeError)] *)
Definition load_failure (e : exn) : bool :=
  is_OSError e || is_ValueError e || match e with TypeError _ => true | _ => false end.

(** One file of the job directory: its content, or the error of reading it. *)
Record job_file := { file_stem : pystr; file_private : bool; file_size : Z; file_content : result bytes }.

(** The body of [_load_jobs] for one file, up to the recovered state: [None]
    is a file that is skipped. *)
Definition load_job (limit : Z) (f : job_file) : result (option JobState) :=
  if negb (valid_job_id (PStr (file_stem f))) then Ok None
  else if negb (file_private f)
  then Raise (PermissionError (str "metadata permissions are not private"))
  else except
    (if limit * 4 + 4096 <? file_size f then Ok None
     else raw ← file_content f;
          text ← of_option (utf8_decode raw) (UnicodeError []);
          data ← of_option (loads default_hooks text) (ValueError []);
          s ← state_from_metadata limit (file_stem f) data; Ok (Some s))
    (fun e => if load_failure e then Some (Ok None) else None).

(** A job that was not finished when the agent stopped *)
Definition interrupted (now : spec_float) (s : JobState) : JobState :=
  if is_terminal s then s
  else set_outcome (str "failed") None (Some now) (Some (str "interrupted by agent restart")) s.

(** [_load_jobs]: the jobs by identifier; [persist] writes a job that was
    interrupted, and its exception stops the agent. *)
Fixpoint load_jobs (persist : JobState -> result unit) (limit : Z) (now : spec_float)
    (files : list job_file) (jobs : list (pystr * JobState)) : result (list (pystr * JobState)) :=
  match files with
  | [] => Ok jobs
  | f :: rest =>
      loaded ← load_job limit f;
      match loaded with
      | None => load_jobs persist limit now rest jobs
      | Some s =>
          _ ← (if is_terminal s then Ok tt else persist (interrupted now s));
          load_jobs persist limit now rest (dict_set (file_stem f) (interrupted now s) jobs)
      end
  end.

(** ** Lemmas: characters and bytes *)

Definition encode_text (t : pystr) : bytes := concat (map encode_char t).

Lemma is_continuation_spec b : 0 <= b < 256 -> is_continuation b = between 128 191 b.
Proof.
  intros Hb. assert (Hall : forallb (fun n => Bool.eqb (is_continuation (Z.of_nat n))
    (between 128 191 (Z.of_nat n))) (seq 0 256) = true) by (vm_compute; reflexivity).
  rewrite forallb_forall in Hall. specialize (Hall (Z.to_nat b)). rewrite Z2Nat.id in Hall by lia.
  apply Bool.eqb_prop, Hall, in_seq. lia.
Qed.

(** An encoded character is one lead byte and continuation bytes. *)
Lemma encode_char_shape c : is_scalar c = true ->
  exists b r, encode_char c = b :: r /\ is_continuation b = false /\
    forallb is_continuation r = true /\ (length r <= 3)%nat.
Proof.
  intros Hc%is_scalar_spec. unfold encode_char.
  assert (H1 : 0 <= c mod 64 < 64) by (apply Z.mod_pos_bound; lia).
  assert (H2 : 0 <= c / 64 mod 64 < 64) by (apply Z.mod_pos_bound; lia).
  assert (H3 : 0 <= c / 4096 mod 64 < 64) by (apply Z.mod_pos_bound; lia).
  assert (Hcont : forall x, 0 <= x < 64 -> is_continuation (128 + x) = true).
  { intros x Hx. rewrite is_continuation_spec by lia. apply between_spec. lia. }
  assert (Hlead : forall x, 0 <= x < 256 -> x < 128 \/ 192 <= x -> is_continuation x = false).
  { intros x Hx Hx'. rewrite is_continuation_spec by lia.
    destruct (between_reflect 128 191 x); [lia|done]. }
  destruct (Z.ltb_spec c 128); [|destruct (Z.ltb_spec c 2048); [|destruct (Z.ltb_spec c 65536)]];
    eexists _, _; (split; [reflexivity|]); cbn [forallb length]; rewrite ?Hcont by done.
  - split_and!; [apply Hlead; lia|done|lia].
  - assert (0 <= c / 64 < 32) by (split; [apply Z.div_pos; lia|apply Z.div_lt_upper_bound; lia]).
    split_and!; [apply Hlead; lia|done|lia].
  - assert (0 <= c / 4096 < 16) by (split; [apply Z.div_pos; lia|apply Z.div_lt_upper_bound; lia]).
    split_and!; [apply Hlead; lia|done|lia].
  - assert (0 <= c / 262144 < 8) by (split; [apply Z.div_pos; lia|apply Z.div_lt_upper_bound; lia]).
    split_and!; [apply Hlead; lia|done|lia].
Qed.

Lemma skip_continuation_app a b : forallb is_continuation a = true ->
  skip_continuation (a ++ b) = skip_continuation b.
Proof. induction a as [|x a IH]; [done|]. cbn [forallb app skip_continuation]. by intros [-> H]%andb_true_iff; auto. Qed.

Lemma skip_continuation_text t : forallb is_scalar t = true ->
  skip_continuation (encode_text t) = encode_text t.
Proof.
  destruct t as [|c t]; [done|]. cbn [forallb]. intros [Hc _]%andb_true_iff.
  destruct (encode_char_shape c Hc) as (b & r & E & Hb & _). unfold encode_text. cbn [map concat].
  rewrite E. cbn [app skip_continuation]. by rewrite Hb.
Qed.

(** Cutting a text at any byte and skipping to the next character loses at
    most three bytes more. *)
Lemma cut_text t n : forallb is_scalar t = true -> (n <= length (encode_text t))%nat ->
  exists t1 t2, t = t1 ++ t2 /\ skip_continuation (drop n (encode_text t)) = encode_text t2 /\
    (n <= length (encode_text t1) <= n + 3)%nat.
Proof.
  revert n. induction t as [|c t IH]; intros n Hs Hn.
  - exists [], []. cbn in *. assert (n = 0)%nat as -> by lia. split_and!; [done|done|lia..].
  - destruct n as [|n].
    { exists [], (c :: t). split; [done|]. rewrite drop_0, skip_continuation_text by done.
      split; [done|]. cbn. lia. }
    cbn [forallb] in Hs. apply andb_true_iff in Hs as [Hc Hs].
    destruct (encode_char_shape c Hc) as (b & r & E & Hb & Hr & Hl).
    change (encode_text (c :: t)) with (encode_char c ++ encode_text t) in *.
    destruct (Nat.le_gt_cases (length (encode_char c)) (S n)) as [Hle|Hgt].
    + rewrite length_app in Hn.
      destruct (IH (S n - length (encode_char c))%nat Hs ltac:(lia)) as (t1 & t2 & -> & H2 & H3).
      exists (c :: t1), t2. split; [done|]. rewrite drop_app_ge by done. split; [exact H2|].
      change (encode_text (c :: t1)) with (encode_char c ++ encode_text t1). rewrite length_app. lia.
    + exists [c], t. split; [done|]. rewrite drop_app_le by lia.
      rewrite skip_continuation_app.
      * rewrite skip_continuation_text by done. split; [done|].
        change (encode_text [c]) with (encode_char c ++ []). rewrite app_nil_r, E in *. cbn [length] in *. lia.
      * rewrite E. cbn [drop]. apply forallb_forall. rewrite forallb_forall in Hr. intros x Hx. apply Hr.
        rewrite <- (take_drop n r). apply in_or_app. by right.
Qed.

Lemma encode_text_app a b : encode_text (a ++ b) = encode_text a ++ encode_text b.
Proof. unfold encode_text. by rewrite map_app, concat_app. Qed.

Lemma utf8_encode_text t : forallb is_scalar t = true -> utf8_encode t = Some (encode_text t).
Proof. intros H. unfold utf8_encode. by rewrite H. Qed.

Lemma decode_encode_text t : forallb is_scalar t = true -> utf8_decode (encode_text t) = Some t.
Proof. intros H. by apply utf8_roundtrip, utf8_encode_text. Qed.

(** ** The window over the output *)

Definition append_all (limit : Z) (values : list bytes) (s : JobState) : JobState :=
  fold_left (fun s v => append_output limit v s) values s.

(** The retained output is the end of everything [history] that was printed:
    whole characters, at most [limit] bytes, and short of [limit] by at most
    three bytes when something had to be dropped. *)
Record window (limit : Z) (history : pystr) (s : JobState) : Prop := {
  win_scalar : forallb is_scalar history = true;
  win_split : exists dropped kept, history = dropped ++ kept /\ output s = encode_text kept /\
    truncated_before s = zlen (encode_text dropped);
  win_offset : output_offset s = zlen (encode_text history);
  win_limit : zlen (output s) <= limit;
  win_full : truncated_before s = 0 \/ limit - 3 <= zlen (output s);
}.

Lemma window_new limit jid : 0 <= limit -> window limit [] (new_job jid).
Proof.
  intros H. constructor; cbn; try done; [by exists [], []|by left].
Qed.

Lemma zlen_eq_app {A} (a b : list A) : zlen (a ++ b) - zlen b = zlen a.
Proof. rewrite zlen_app. lia. Qed.

Lemma append_output_nonempty limit value s : value <> [] ->
  append_output limit value s
  = let out := output s ++ value in
    let kept := skip_continuation (drop (Z.to_nat (Z.max 0 (zlen out - limit))) out) in
    set_output kept (output_offset s + zlen value) (output_offset s + zlen value - zlen kept) s.
Proof. by destruct value. Qed.

Lemma window_append limit h s t : 0 <= limit -> window limit h s -> forallb is_scalar t = true ->
  window limit (h ++ t) (append_output limit (encode_text t) s).
Proof.
  intros Hlim [Hs (d & k & -> & Ho & Htr) Hoff Hl Hfull] Ht. unfold append_output.
  destruct (encode_text t) as [|b0 r0] eqn:Et.
  { assert (t = []) as ->. { destruct t as [|c t]; [done|]. exfalso.
      pose proof (encode_char_length c). unfold encode_text in Et. cbn in Et.
      destruct (encode_char c); [cbn in *; lia|done]. }
    rewrite app_nil_r. constructor; eauto. }
  rewrite <- Et. clear b0 r0 Et. rewrite Ho, <- encode_text_app in *.
  assert (Hsk : forallb is_scalar (k ++ t) = true).
  { rewrite forallb_app in *. apply andb_true_iff in Hs as [_ ->]. done. }
  set (n := Z.to_nat (Z.max 0 (zlen (encode_text (k ++ t)) - limit))).
  assert (Hn : (n <= length (encode_text (k ++ t)))%nat) by (subst n; unfold zlen; lia).
  destruct (cut_text (k ++ t) n Hsk Hn) as (t1 & t2 & E & Hskip & Hbound).
  rewrite Hskip. constructor; cbn [set_output output output_offset truncated_before].
  - by rewrite forallb_app, Hs, Ht.
  - exists (d ++ t1), t2. split; [by rewrite <- !app_assoc, E|]. split; [done|].
    rewrite Hoff, !encode_text_app, !zlen_app.
    assert (zlen (encode_text k) + zlen (encode_text t) = zlen (encode_text t1) + zlen (encode_text t2)); [|lia].
    by rewrite <- !zlen_app, <- !encode_text_app, E.
  - by rewrite Hoff, (encode_text_app (d ++ k)), zlen_app.
  - assert (zlen (encode_text (k ++ t)) = zlen (encode_text t1) + zlen (encode_text t2))
      by by rewrite E, encode_text_app, zlen_app.
    unfold zlen in *. lia.
  - assert (Hlen : zlen (encode_text (k ++ t)) = zlen (encode_text t1) + zlen (encode_text t2))
      by by rewrite E, encode_text_app, zlen_app.
    destruct (Z.le_gt_cases (zlen (encode_text (k ++ t))) limit) as [Hle|Hgt].
    + assert (n = 0%nat) as Hn0 by (subst n; lia). rewrite Hn0, drop_0, skip_continuation_text in Hskip by done.
      assert (zlen (encode_text t1) = 0) by (rewrite Hskip in Hlen; lia).
      destruct Hfull as [Hz|Hf]; [left|right].
      * rewrite Hoff, encode_text_app, zlen_app. rewrite encode_text_app, zlen_app in Hlen. lia.
      * rewrite encode_text_app, zlen_app in Hlen. pose proof (zlen_nonneg (encode_text t)). lia.
    + right. unfold zlen in *. lia.
Qed.

Lemma window_append_all limit ts h s : 0 <= limit -> window limit h s ->
  Forall (fun t => forallb is_scalar t = true) ts ->
  window limit (h ++ concat ts) (append_all limit (map encode_text ts) s).
Proof.
  revert h s. induction ts as [|t ts IH]; intros h s Hl Hw Hts; [by rewrite app_nil_r|].
  apply Forall_cons in Hts as [Ht Hts]. cbn [concat map append_all fold_left]. rewrite app_assoc.
  apply IH; [done| |done]. by apply window_append.
Qed.

(** What a reader obtains. *)
Lemma get_output_window limit h s offset : window limit h s ->
  0 <= offset <= output_offset s ->
  exists before text, h = before ++ text /\
    get_output (Some (PInt offset)) s
    = Ok (snapshot_with text (zlen (encode_text before)) s) /\
    Z.max offset (truncated_before s) <= zlen (encode_text before)
      <= Z.max offset (truncated_before s) + 3.
Proof.
  intros [Hs (d & k & -> & Ho & Htr) Hoff Hl _] Hr. unfold get_output. cbn [as_int].
  rewrite (proj2 (Z.leb_le 0 offset)), (proj2 (Z.leb_le offset _)) by lia. cbn [andb mbind result_bind].
  set (n := Z.to_nat (Z.max offset (truncated_before s) - truncated_before s)).
  rewrite Ho. assert (Hoff' : output_offset s = truncated_before s + zlen (encode_text k)).
  { by rewrite Hoff, encode_text_app, zlen_app, Htr. }
  assert (Hn : (n <= length (encode_text k))%nat) by (subst n; unfold zlen in *; lia).
  rewrite forallb_app in Hs. apply andb_true_iff in Hs as [_ Hk].
  destruct (cut_text k n Hk Hn) as (t1 & t2 & -> & Hskip & Hb).
  exists (d ++ t1), t2. split; [by rewrite app_assoc|]. rewrite Hskip.
  rewrite forallb_app in Hk. apply andb_true_iff in Hk as [_ Ht2].
  unfold decode_output. rewrite decode_encode_text by done. cbn [of_option mbind result_bind].
  rewrite encode_text_app in Hn, Hoff'. rewrite (encode_text_app d), zlen_app, <- Htr.
  assert (Hrest : zlen (drop n (encode_text (t1 ++ t2))) - zlen (encode_text t2)
    = zlen (encode_text t1) - Z.of_nat n).
  { unfold zlen. rewrite length_drop, encode_text_app, length_app in *. lia. }
  rewrite Hrest. split.
  - f_equal. f_equal. subst n. lia.
  - unfold zlen in *. subst n. lia.
Qed.

(** ** Metadata *)

Record identity_ok (i : ProcessIdentity) : Prop := {
  id_pid : 0 < pi_pid i;
  id_numbers : forall o n, In o [pi_process_group i; pi_session_id i; pi_start_time_ticks i] ->
    o = Some n -> 0 < n;
  id_boot : forall b, pi_boot_id i = Some b -> 1 <= zlen b <= 128;
  id_token : 16 <= zlen (pi_recovery_token i) <= 128 /\ is_ascii (pi_recovery_token i) = true;
}.

(** What the runner keeps of a job, and what a metadata file must hold. *)
Record job_ok (limit : Z) (s : JobState) : Prop := {
  jo_status : In (status s) STATUSES;
  jo_output : exists text, forallb is_scalar text = true /\ output s = encode_text text;
  jo_window : zlen (output s) <= limit /\ 0 <= truncated_before s /\
    output_offset s = truncated_before s + zlen (output s);
  jo_error : forall e, error s = Some e ->
    forallb is_scalar e = true /\ zlen (encode_text e) <= MAX_ERROR_BYTES;
  jo_identity : forall i, process_identity s = Some i -> identity_ok i;
  jo_launch : match launch_phase s, recovery_token s with
              | None, None => True
              | Some p, Some t => In p [str "prepared"; str "ready"] /\ 32 <= zlen t <= 128 /\
                  is_ascii t = true
              | _, _ => False
              end;
}.

(** A job as it comes back from its file. *)
Definition restored (s : JobState) : JobState :=
  mkJob (id s) (status s) (output s) (output_offset s) (truncated_before s) (exit_code s) (started s)
    (finished s) (error s) None (i ← process_identity s; pi_process_group i) (process_identity s)
    (launch_phase s) (recovery_token s) false.

(** Look a literal key up in a literal dictionary. *)
Ltac eval_get :=
  repeat match goal with
  | |- context [get_or_none ?k ((?k', ?v) :: ?d)] =>
      let b := eval vm_compute in (str_eqb k k') in
      lazymatch b with
      | true => change (get_or_none k ((k', v) :: d)) with v
      | false => change (get_or_none k ((k', v) :: d)) with (get_or_none k d)
      end
  end.

Lemma guard_true b e : b = true -> guard_exn b e = Ok tt.
Proof. by intros ->. Qed.

Lemma optional_positive_value o : (forall n, o = Some n -> 0 < n) ->
  optional_positive (opt_value PInt o) = Ok o.
Proof.
  destruct o as [n|]; [|done]. intros H. specialize (H n eq_refl). unfold optional_positive.
  cbn [opt_value as_int of_option mbind result_bind]. by rewrite (proj2 (Z.ltb_lt 0 n)).
Qed.

Lemma optional_boot_id_value o : (forall b, o = Some b -> 1 <= zlen b <= 128) ->
  optional_boot_id (opt_value PStr o) = Ok o.
Proof.
  destruct o as [b|]; [|done]. intros H. specialize (H b eq_refl). unfold optional_boot_id.
  cbn [opt_value as_str of_option mbind result_bind]. by rewrite !(proj2 (Z.leb_le _ _)) by lia.
Qed.

Lemma parse_identity_roundtrip i : identity_ok i ->
  parse_process_identity (PDict (identity_as_dict i)) = Ok (Some i).
Proof.
  intros [H1 H2 H3 [H4 H5]]. unfold parse_process_identity, exact_dict, identity_as_dict.
  cbn [as_dict of_option mbind result_bind].
  match goal with |- context [keys_equal ?d ?l] => change (keys_equal d l) with true end.
  cbn [guard_exn mbind result_bind]. eval_get. cbn [as_int of_option mbind result_bind].
  rewrite (proj2 (Z.ltb_lt _ _)) by done. cbn [guard_exn mbind result_bind].
  rewrite !optional_positive_value by (intros n E; eapply H2; [|exact E]; cbn; tauto).
  cbn [mbind result_bind].
  rewrite optional_boot_id_value by done. cbn [mbind result_bind].
  cbn [as_str of_option mbind result_bind]. rewrite !(proj2 (Z.leb_le _ _)), H5 by lia. by destruct i.
Qed.

Lemma parse_launch_roundtrip p t :
  In p [str "prepared"; str "ready"] -> 32 <= zlen t <= 128 -> is_ascii t = true ->
  parse_launch (PDict [(str "phase", PStr p); (str "recovery_token", PStr t)]) = Ok (Some p, Some t).
Proof.
  intros Hp Ht Ha. unfold parse_launch, exact_dict. cbn [as_dict of_option mbind result_bind].
  match goal with |- context [keys_equal ?d ?l] => change (keys_equal d l) with true end.
  cbn [guard_exn mbind result_bind]. eval_get.
  cbn iota beta. rewrite (proj2 (str_in_In p _)) by done. cbn [guard_exn as_str of_option mbind result_bind].
  by rewrite !(proj2 (Z.leb_le _ _)), Ha by lia.
Qed.

Lemma optional_float_value o : optional_float (opt_value PFloat o) = Ok o.
Proof. by destruct o. Qed.

Lemma optional_number_value o : optional_number (opt_value PFloat o) = Ok tt.
Proof. by destruct o. Qed.

Lemma optional_error_value o :
  (forall e, o = Some e -> forallb is_scalar e = true /\ zlen (encode_text e) <= MAX_ERROR_BYTES) ->
  optional_error (opt_value PStr o) = Ok o.
Proof.
  destruct o as [e|]; [|done]. intros H. destruct (H e eq_refl) as [He Hl]. unfold optional_error.
  cbn [opt_value as_str of_option mbind result_bind]. rewrite utf8_encode_text by done.
  cbn [of_option mbind result_bind]. by rewrite (proj2 (Z.leb_le _ _)).
Qed.

(** The dictionary that is persisted parses back to the job. *)
Lemma state_metadata_roundtrip limit s j : job_ok limit s -> snapshot s = Ok j ->
  state_from_metadata limit (id s) (PDict (metadata j s)) = Ok (restored s).
Proof.
  intros [H1 (text & Ht & Ho) (H3 & H4 & H5) H6 H7 H8] Hj.
  unfold snapshot, decode_output in Hj. rewrite Ho, decode_encode_text in Hj by done.
  cbn [of_option mbind result_bind] in Hj.
  assert (j = snapshot_with text (truncated_before s) s) as -> by congruence. clear Hj.
  unfold state_from_metadata, metadata, job_as_dict, snapshot_with, field_of.
  cbn [job_id job_status job_output job_output_offset job_truncated_before job_exit_code job_started
       job_finished job_error app as_dict of_option mbind result_bind].
  eval_get. cbn iota beta. rewrite str_eqb_refl. cbn [guard_exn mbind result_bind].
  rewrite (proj2 (str_in_In (status s) _)) by done. cbn [guard_exn as_str as_int of_option mbind result_bind].
  rewrite utf8_encode_text by done. cbn [of_option mbind result_bind]. rewrite <- Ho.
  rewrite (proj2 (Z.leb_le _ _)), (proj2 (Z.leb_le _ _)), (proj2 (Z.eqb_eq _ _)) by done.
  cbn [andb guard_exn mbind result_bind].
  assert (parse_process_identity (opt_value (fun i => PDict (identity_as_dict i)) (process_identity s))
    = Ok (process_identity s)) as ->.
  { destruct (process_identity s) as [i|]; [|done]. by apply parse_identity_roundtrip, H7. }
  cbn [mbind result_bind].
  match goal with |- context [parse_launch ?v] =>
    assert (parse_launch v = Ok (launch_phase s, recovery_token s)) as -> end.
  { destruct (launch_phase s) as [p|], (recovery_token s) as [t|]; try done.
    destruct H8 as (Hp & Hl & Ha). by apply parse_launch_roundtrip. }
  cbn [mbind result_bind]. rewrite guard_true by by destruct (exit_code s). cbn [mbind result_bind].
  rewrite !optional_number_value.
  cbn [mbind result_bind].
  rewrite optional_error_value by done.
  cbn [mbind result_bind]. rewrite !optional_float_value. cbn [mbind result_bind].
  unfold restored. by destruct (exit_code s).
Qed.

Lemma metadata_style_text v : value_text metadata_style v = value_text (compact false) v.
Proof. reflexivity. Qed.

(** ** Lemmas: loading *)

Lemma metadata_text_Ok s text : metadata_text s = Ok text ->
  exists j, snapshot s = Ok j /\ text = value_text metadata_style (PDict (metadata j s)).
Proof.
  unfold metadata_text. intros (j & Hj & H)%bind_Ok. exists j. split; [done|].
  unfold dumps in H. change (Json.sort_keys metadata_style) with false in H. cbn iota in H.
  destruct (encodable _ _); [|done]. congruence.
Qed.

Lemma guard_Ok b e u : guard_exn b e = Ok u -> b = true.
Proof. apply guard_exn_Ok. Qed.

Lemma exact_dict_Ok v l d : exact_dict v l = Ok d -> v = PDict d.
Proof.
  unfold exact_dict. intros (d' & Hd%of_option_Ok & H)%bind_Ok. destruct v; try done. injection Hd as ->.
  by apply bind_Ok in H as (u & _ & [= <-]).
Qed.

Lemma optional_positive_Ok v o : optional_positive v = Ok o -> forall n, o = Some n -> 0 < n.
Proof.
  intros H n ->. destruct v; cbn in H; try done.
  destruct (Z.ltb_spec 0 n0); cbn in H; [|done]. by injection H as <-.
Qed.

Lemma utf8_encode_Some t b : utf8_encode t = Some b -> forallb is_scalar t = true /\ b = encode_text t.
Proof. unfold utf8_encode. destruct (forallb is_scalar t); [|done]. by intros [= <-]. Qed.

Lemma optional_boot_id_Ok v b : optional_boot_id v = Ok (Some b) -> 1 <= zlen b <= 128.
Proof.
  intros H. destruct v; try discriminate H; apply bind_Ok in H as (b' & Hb' & H); try discriminate Hb'.
  apply bind_Ok in H as (u'' & Hl%guard_Ok & [= <-]).
  apply andb_true_iff in Hl as [?%Z.leb_le ?%Z.leb_le]. done.
Qed.

Lemma optional_error_Ok v e : optional_error v = Ok (Some e) ->
  forallb is_scalar e = true /\ zlen (encode_text e) <= MAX_ERROR_BYTES.
Proof.
  intros H. destruct v; try discriminate H; apply bind_Ok in H as (e' & He' & H); try discriminate He'.
  apply bind_Ok in H as (b & [Hb ->]%of_option_Ok%utf8_encode_Some & H).
  by apply bind_Ok in H as (u' & Hle%guard_Ok%Z.leb_le & [= <-]).
Qed.

Lemma parse_identity_Ok v i : parse_process_identity v = Ok (Some i) -> identity_ok i.
Proof.
  intros H. unfold parse_process_identity in H. destruct v; try done; try discriminate H.
  all: apply bind_Ok in H as (dd & Hd%exact_dict_Ok & H); try discriminate Hd.
  apply bind_Ok in H as (pid & _ & H). apply bind_Ok in H as (u & Hpid%guard_Ok%Z.ltb_lt & H).
  apply bind_Ok in H as (g & Hg & H). apply bind_Ok in H as (se & Hse & H).
  apply bind_Ok in H as (ti & Hti & H). apply bind_Ok in H as (bo & Hb & H).
  apply bind_Ok in H as (t & _ & H). apply bind_Ok in H as (u' & Ht%guard_Ok & H).
  injection H as <-. apply andb_true_iff in Ht as [Ht Ha]. apply andb_true_iff in Ht as [Ht1%Z.leb_le Ht2%Z.leb_le].
  constructor; cbn [pi_pid pi_process_group pi_session_id pi_start_time_ticks pi_boot_id pi_recovery_token].
  - done.
  - intros o n [<-|[<-|[<-|[]]]] E; [eapply optional_positive_Ok; [exact Hg|done]
      |eapply optional_positive_Ok; [exact Hse|done]|eapply optional_positive_Ok; [exact Hti|done]].
  - intros b ->. by eapply optional_boot_id_Ok.
  - done.
Qed.

Lemma parse_launch_Ok v p t : parse_launch v = Ok (p, t) ->
  match p, t with
  | None, None => True
  | Some p, Some t => In p [str "prepared"; str "ready"] /\ 32 <= zlen t <= 128 /\ is_ascii t = true
  | _, _ => False
  end.
Proof.
  intros H. unfold parse_launch in H. destruct v; try (by injection H as <- <-).
  all: apply bind_Ok in H as (dd & Hd%exact_dict_Ok & H); try discriminate Hd.
  apply bind_Ok in H as (ph & Hph & H). apply bind_Ok in H as (tk & _ & H).
  apply bind_Ok in H as (u & Hl%guard_Ok & [= <- <-]).
  apply andb_true_iff in Hl as [Hl Ha]. apply andb_true_iff in Hl as [?%Z.leb_le ?%Z.leb_le].
  split; [|done]. destruct (get_or_none _ dd); try discriminate Hph.
  apply bind_Ok in Hph as (u' & Hin%guard_Ok%str_in_In & [= <-]). done.
Qed.

(** Metadata that parses describes a proper job. *)
Lemma state_from_metadata_ok limit jid data s : state_from_metadata limit jid data = Ok s ->
  job_ok limit s /\ id s = jid.
Proof.
  unfold state_from_metadata. intros (d & _ & H)%bind_Ok. apply bind_Ok in H as (u & _ & H).
  apply bind_Ok in H as (st & Hst & H). apply bind_Ok in H as (text & _ & H).
  apply bind_Ok in H as (off & _ & H). apply bind_Ok in H as (tr & _ & H).
  apply bind_Ok in H as (enc & [Hsc ->]%of_option_Ok%utf8_encode_Some & H).
  apply bind_Ok in H as (u1 & Hw%guard_Ok & H). apply bind_Ok in H as (i & Hi & H).
  apply bind_Ok in H as ([ph tk] & Hl%parse_launch_Ok & H). apply bind_Ok in H as (u2 & _ & H).
  apply bind_Ok in H as (u3 & _ & H). apply bind_Ok in H as (u4 & _ & H).
  apply bind_Ok in H as (er & He & H). apply bind_Ok in H as (be & _ & H).
  apply bind_Ok in H as (en & _ & [= <-]).
  apply andb_true_iff in Hw as [Hw Hw3%Z.eqb_eq]. apply andb_true_iff in Hw as [Hw1%Z.leb_le Hw2%Z.leb_le].
  split; [|done]. constructor; cbn [status output output_offset truncated_before error process_identity
    launch_phase recovery_token].
  - destruct (field_of d "status"); try discriminate Hst.
    by apply bind_Ok in Hst as (u' & Hin%guard_Ok%str_in_In & [= <-]).
  - by exists text.
  - done.
  - intros e ->. by eapply optional_error_Ok.
  - intros i' ->. by eapply parse_identity_Ok.
  - exact Hl.
Qed.

Lemma interrupted_ok limit now s : job_ok limit s ->
  job_ok limit (interrupted now s) /\ is_terminal (interrupted now s) = true /\ id (interrupted now s) = id s.
Proof.
  intros H. unfold interrupted. destruct (is_terminal s) eqn:E; [done|].
  destruct H as [H1 H2 H3 H4 H5 H6]. split; [|done]. constructor; cbn; try done.
  - by right; right; right; left.
  - intros e [= <-]. by vm_compute.
Qed.

Lemma load_job_Some limit f s : load_job limit f = Ok (Some s) -> job_ok limit s /\ id s = file_stem f.
Proof.
  unfold load_job. destruct (valid_job_id _); [|done]. destruct (file_private f); [|done]. cbn [negb].
  destruct (_ <? _); [done|]. unfold except.
  destruct (_ ≫= _) as [o|e] eqn:E; [|by destruct (load_failure e)]. intros [= ->].
  apply bind_Ok in E as (raw & _ & E). apply bind_Ok in E as (text & _ & E).
  apply bind_Ok in E as (data & _ & E). apply bind_Ok in E as (s' & Hs & [= ->]).
  by eapply state_from_metadata_ok.
Qed.

Lemma length_join_In (sep x : pystr) l : In x l -> (length x <= length (join sep l))%nat.
Proof.
  induction l as [|y [|z l] IH]; [done| |].
  - intros [->|[]]. done.
  - rewrite join_cons2, !length_app. intros [->|H]; [lia|]. specialize (IH H). lia.
Qed.

(** A member's value is part of the text of the dictionary. *)
Lemma dict_text_length style d k v : In (k, v) d ->
  (length (value_text style v) <= length (value_text style (PDict d)))%nat.
Proof.
  intros H. cbn [value_text length]. rewrite length_app.
  pose proof (length_join_In (item_separator style)
    (quote (ensure_ascii style) k ++ key_separator style ++ value_text style v)
    (map (fun p => quote (ensure_ascii style) (fst p) ++ key_separator style ++ value_text style (snd p)) d)
    (in_map (fun p => quote (ensure_ascii style) (fst p) ++ key_separator style
                      ++ value_text style (snd p)) d (k, v) H)) as Hl.
  rewrite !length_app in Hl. lia.
Qed.

Lemma quote_escapes n : length (quote true (repeat 27 n)) = (6 * n + 2)%nat.
Proof.
  unfold quote. cbn [length]. rewrite length_app. cbn [length].
  assert (length (concat (map (escape_char true) (repeat 27 n))) = (6 * n)%nat) as ->; [|lia].
  induction n as [|n IH]; [done|]. cbn [repeat map concat]. rewrite length_app, IH.
  change (length (escape_char true 27)) with 6%nat. lia.
Qed.

(** ** Properties *)

(** Output window: whatever the process prints, in chunks of whole
    characters, the job keeps the end of it, cut at a character, never more
    than [limit] bytes and at most three bytes less than could be kept; its
    absolute offsets count every byte ever printed. *)
Theorem output_window limit jid ts :
  0 <= limit -> Forall (fun t => forallb is_scalar t = true) ts ->
  window limit (concat ts) (append_all limit (map encode_text ts) (new_job jid)).
Proof. intros Hl Hts. by apply (window_append_all limit ts [] (new_job jid) Hl (window_new limit jid Hl)). Qed.

(** Polling loses and repeats nothing: a client that asks for the output
    from the offset it was given last obtains exactly what was printed since,
    as long as the window has not moved past that offset; and the next offset
    is again the end of the output. *)
Theorem polling_is_exact limit h s ts :
  0 <= limit -> window limit h s -> Forall (fun t => forallb is_scalar t = true) ts ->
  let s' := append_all limit (map encode_text ts) s in
  truncated_before s' <= output_offset s ->
  exists j, get_output (Some (PInt (output_offset s))) s' = Ok j /\
    job_output j = concat ts /\ job_truncated_before j = output_offset s /\
    job_output_offset j = output_offset s + zlen (encode_text (concat ts)).
Proof.
  intros Hl Hw Hts s' Htr.
  pose proof (window_append_all limit ts h s Hl Hw Hts) as Hw'. fold s' in Hw'.
  pose proof (win_offset _ _ _ Hw) as Hoff. pose proof (win_offset _ _ _ Hw') as Hoff'.
  rewrite encode_text_app, zlen_app, <- Hoff in Hoff'.
  destruct (win_split _ _ _ Hw') as (d & k & E & Ho & Hd).
  pose proof (zlen_nonneg (encode_text (concat ts))).
  assert (Hcut : exists k1, h = d ++ k1 /\ k = k1 ++ concat ts).
  { apply app_eq_inv in E as [(k1 & -> & ->)|(k1 & -> & Ek)]; [by exists k1|].
    rewrite Hd, Hoff, encode_text_app, zlen_app in Htr.
    assert (k1 = []) as ->; [|exists []; rewrite !app_nil_r; cbn in Ek; done].
    destruct k1 as [|c k1]; [done|]. exfalso. pose proof (encode_char_length c).
    change (encode_text (c :: k1)) with (encode_char c ++ encode_text k1) in Htr.
    rewrite zlen_app in Htr. unfold zlen in *. lia. }
  destruct Hcut as (k1 & -> & ->).
  assert (Hts' : forallb is_scalar (concat ts) = true).
  { pose proof (win_scalar _ _ _ Hw') as Hsc. rewrite forallb_app in Hsc. by apply andb_true_iff in Hsc as [_ ?]. }
  unfold get_output. cbn [as_int].
  assert (0 <= output_offset s) by (rewrite Hoff; apply zlen_nonneg).
  rewrite (proj2 (Z.leb_le 0 _)), (proj2 (Z.leb_le (output_offset s) _)) by lia.
  cbn [andb mbind result_bind]. rewrite Z.max_l by done.
  assert (Hn : Z.to_nat (output_offset s - truncated_before s') = length (encode_text k1)).
  { rewrite Hoff, Hd, encode_text_app, zlen_app. unfold zlen. lia. }
  rewrite Hn, Ho, encode_text_app, drop_app_length, skip_continuation_text by done.
  unfold decode_output. rewrite decode_encode_text by done. cbn [of_option mbind result_bind].
  eexists. split; [done|]. cbn [snapshot_with job_output job_truncated_before job_output_offset].
  split_and!; [done|lia|done].
Qed.

(** Jobs survive a restart of the agent: the metadata file that
    [_persist] writes for a job loads back as that job (without the process
    handle and the pending cancellation), when the file is within the size the
    loader accepts. *)
Theorem persisted_job_reloads limit s j text :
  job_ok limit s -> valid_job_id (PStr (id s)) = true ->
  snapshot s = Ok j -> json_value_ok (PDict (metadata j s)) = true ->
  metadata_text s = Ok text -> zlen text <= limit * 4 + 4096 ->
  load_job limit {| file_stem := id s; file_private := true; file_size := zlen text;
                    file_content := Ok text |} = Ok (Some (restored s)).
Proof.
  intros Hok Hid Hj Hjson Ht Hsize. apply metadata_text_Ok in Ht as (j' & Hj' & ->).
  rewrite Hj in Hj'. injection Hj' as <-. unfold load_job. cbn [file_stem file_private file_size file_content].
  rewrite Hid, (proj2 (Z.ltb_ge _ _)) by done. cbn [negb mbind result_bind].
  rewrite utf8_decode_ascii by (rewrite metadata_style_text; apply is_ascii_value).
  cbn [of_option mbind result_bind].
  rewrite (loads_value_text metadata_style [] []) by (done || apply default_rebuilding).
  cbn [of_option mbind result_bind]. by rewrite (state_metadata_roundtrip limit s j).
Qed.

(** After a restart no job claims to be running: every job that
    [_load_jobs] takes over is well formed for this agent's output limit, is
    stored under its own identifier and is finished; a job that was not is
    marked as failed. *)
Theorem load_jobs_terminal persist limit now files jobs :
  load_jobs persist limit now files [] = Ok jobs ->
  forall jid s, dict_get jid jobs = Some s -> id s = jid /\ is_terminal s = true /\ job_ok limit s.
Proof.
  assert (Hgen : forall acc, (forall jid s, dict_get jid acc = Some s ->
      id s = jid /\ is_terminal s = true /\ job_ok limit s) ->
    load_jobs persist limit now files acc = Ok jobs ->
    forall jid s, dict_get jid jobs = Some s -> id s = jid /\ is_terminal s = true /\ job_ok limit s).
  { induction files as [|f files IH]; intros acc Hacc; cbn [load_jobs]; [by intros [= <-]|].
    intros (o & Ho & H)%bind_Ok. destruct o as [s|]; [|by eapply IH].
    apply bind_Ok in H as (u & _ & H). eapply IH; [|exact H].
    intros jid s'. rewrite dict_get_set. destruct (str_eqb_spec jid (file_stem f)) as [->|_]; [|apply Hacc].
    intros [= <-]. apply load_job_Some in Ho as [Hs Hid].
    destruct (interrupted_ok limit now s Hs) as (H1 & H2 & H3). split_and!; congruence. }
  apply Hgen. done.
Qed.

Definition demo_id : pystr := str "00000000-0000-4000-8000-000000000001".

(** The size check of [_load_jobs] can drop a job that [_persist] itself
    wrote: a control character is one byte of output and six of JSON, so a
    running job whose window is full of them has a metadata file beyond
    4 * limit + 4096 bytes, and after a restart the job is silently unknown
    (and its process is not recovered). *)
Theorem metadata_outgrows_load_limit limit :
  2048 <= limit <= MAX_OUTPUT_LIMIT ->
  exists s j text, s = append_output limit (repeat 27 (Z.to_nat limit))
                       (set_outcome (str "running") None None None (new_job demo_id)) /\
    window limit (repeat 27 (Z.to_nat limit)) s /\
    snapshot s = Ok j /\ dumps metadata_style (PDict (metadata j s)) = Ok text /\
    load_job limit {| file_stem := id s; file_private := true; file_size := zlen text;
                      file_content := Ok text |} = Ok None.
Proof.
  intros [Hl Hmax]. set (n := Z.to_nat limit). set (t := repeat 27 n).
  assert (Ht : forallb is_scalar t = true).
  { apply forallb_forall. intros c Hc. by apply repeat_spec in Hc as ->. }
  assert (Henc : encode_text t = t).
  { subst t. clear. induction n as [|n IH]; [done|]. cbn [repeat].
    change (encode_text (27 :: repeat 27 n)) with (27 :: encode_text (repeat 27 n)). by rewrite IH. }
  set (s0 := set_outcome (str "running") None None None (new_job demo_id)).
  assert (Hw : window limit t (append_output limit t s0)).
  { rewrite <- Henc at 2. apply (window_append limit [] s0 t); [lia| |done].
    constructor; cbn; try done; [by exists [], []|unfold zlen; cbn; lia|by left]. }
  assert (Hlen : zlen t = limit) by (unfold zlen; subst t; rewrite repeat_length; lia).
  assert (Hs : append_output limit t s0 = set_output t limit 0 s0).
  { rewrite append_output_nonempty by (intros E; rewrite E in Hlen; change (zlen (@nil Z)) with 0 in Hlen; lia).
    cbn zeta. change (output s0 ++ t) with t. change (output_offset s0) with 0. rewrite Hlen, Z.sub_diag.
    change (Z.to_nat (Z.max 0 0)) with 0%nat. rewrite drop_0.
    rewrite <- Henc, skip_continuation_text, Henc, Hlen by done. by rewrite Z.sub_diag. }
  set (s := append_output limit t s0) in *. set (j := snapshot_with t 0 s).
  assert (Hj : snapshot s = Ok j).
  { unfold snapshot, decode_output. rewrite Hs. cbn [set_output output].
    rewrite <- Henc at 1. rewrite decode_encode_text by done. subst j. by rewrite Hs. }
  exists s, j, (value_text metadata_style (PDict (metadata j s))).
  split_and!; [done|done|done| |].
  - unfold dumps. assert (encodable metadata_style (PDict (metadata j s)) = true) as ->; [|done].
    subst j. rewrite Hs. cbn. rewrite !andb_true_r.
    apply Z.leb_le. unfold MAX_STR_DIGITS. unfold MAX_OUTPUT_LIMIT in Hmax.
    etrans; [apply (dec_length _ 8); lia|lia].
  - unfold load_job. cbn [file_stem file_private file_size].
    assert (Hbig : limit * 4 + 4096 < zlen (value_text metadata_style (PDict (metadata j s)))).
    { pose proof (dict_text_length metadata_style (metadata j s) (str "output") (PStr t)) as Hd.
      assert (In (str "output", PStr t) (metadata j s)) as Hin by (subst j; do 2 right; by left).
      specialize (Hd Hin). change (value_text metadata_style (PStr t)) with (quote true t) in Hd.
      subst t. rewrite quote_escapes in Hd. unfold zlen. lia. }
    rewrite (proj2 (Z.ltb_lt _ _)) by done. subst j. rewrite Hs. done.
Qed.

(** A metadata file whose "started" is an integer beyond the range of floats. *)
Definition overflowing_file (limit : Z) : job_file :=
  let data := [(str "job_id", PStr demo_id); (str "status", PStr (str "failed"));
               (str "output", PStr []); (str "output_offset", PInt 0);
               (str "truncated_before", PInt 0); (str "started", PInt (10 ^ 400))] in
  let text := value_text metadata_style (PDict data) in
  {| file_stem := demo_id; file_private := true; file_size := zlen text; file_content := Ok text |}.

Lemma overflowing_file_decodes :
  utf8_decode (value_text metadata_style
    (PDict [(str "job_id", PStr demo_id); (str "status", PStr (str "failed"));
            (str "output", PStr []); (str "output_offset", PInt 0);
            (str "truncated_before", PInt 0); (str "started", PInt (10 ^ 400))]))
  ≫= loads default_hooks
  = Some (PDict [(str "job_id", PStr demo_id); (str "status", PStr (str "failed"));
            (str "output", PStr []); (str "output_offset", PInt 0);
            (str "truncated_before", PInt 0); (str "started", PInt (10 ^ 400))]).
Proof. vm_compute. reflexivity. Qed.

(** One damaged metadata file can stop the agent from starting: the
    loader means to skip files it cannot parse, but a number too large for
    [float] raises [OverflowError], which its [except] clause does not name. *)
Theorem damaged_metadata_stops_agent persist limit now rest jobs :
  0 <= limit ->
  exists m, load_jobs persist limit now (overflowing_file limit :: rest) jobs = Raise (OverflowError m).
Proof.
  intros Hl. pose proof overflowing_file_decodes as Hd. cbn [load_jobs]. unfold load_job.
  change (valid_job_id (PStr (file_stem (overflowing_file limit)))) with true. cbn [negb].
  unfold overflowing_file. cbn [file_stem file_private file_size file_content negb].
  match type of Hd with context [utf8_decode ?x] => remember x as text eqn:Etext end.
  assert (zlen text <= 600) by (rewrite Etext; vm_compute; discriminate).
  rewrite (proj2 (Z.ltb_ge _ _)) by lia. cbn [mbind result_bind].
  destruct (utf8_decode text) as [t|]; [|discriminate Hd]. cbn [of_option mbind result_bind option_bind] in *.
  rewrite Hd. cbn [of_option mbind result_bind].
  assert (state_from_metadata limit demo_id (PDict [(str "job_id", PStr demo_id);
     (str "status", PStr (str "failed")); (str "output", PStr []); (str "output_offset", PInt 0);
     (str "truncated_before", PInt 0); (str "started", PInt (10 ^ 400))])
     = Raise (OverflowError (str "int too large to convert to float"))) as ->.
  { unfold state_from_metadata, field_of. cbn [as_dict of_option mbind result_bind].
    eval_get. cbn iota beta. rewrite str_eqb_refl. cbn [guard_exn mbind result_bind].
    change (str_in (str "failed") STATUSES) with true. cbn [guard_exn mbind result_bind as_str as_int of_option].
    change (utf8_encode []) with (Some (@nil Z)). cbn [of_option mbind result_bind].
    change (zlen (@nil Z)) with 0. rewrite (proj2 (Z.leb_le 0 limit)) by done.
    change (0 <=? 0) with true. change (0 =? 0 + 0) with true.
    cbn [andb guard_exn mbind result_bind].
    change (get_or_none _ []) with PNone. cbn [parse_process_identity parse_launch mbind result_bind].
    change (optional_error _) with (Ok (@None pystr)). cbn [mbind result_bind].
    assert (optional_float (PInt (10 ^ 400))
      = Raise (OverflowError (str "int too large to convert to float"))) as ->
      by (vm_compute; reflexivity).
    reflexivity. }
  by eexists.
Qed.

(** ** Launch requests *)

(** The characters of [secrets.token_urlsafe]. *)
Definition urlsafe (c : Z) : bool := is_alnum c || (c =? 45) || (c =? 95).

Lemma urlsafe_char c : urlsafe c = true ->
  32 < c < 127 /\ c <> 34 /\ c <> 92.
Proof.
  unfold urlsafe, is_alnum, is_alpha, is_lower, is_upper, is_digit.
  intros H. repeat (apply orb_true_iff in H as [H|H]); split_bools; lia.
Qed.

Lemma quote_urlsafe t : forallb urlsafe t = true -> quote false t = 34 :: t ++ [34].
Proof.
  unfold quote. intros H. do 2 f_equal. induction t as [|c t IH]; [done|].
  cbn [forallb map concat] in *. apply andb_true_iff in H as [Hc Ht]. rewrite IH by done.
  destruct (urlsafe_char c Hc) as (H1 & H2 & H3). unfold escape_char.
  assert (short_escape c = None) as ->.
  { unfold short_escape. rewrite !(proj2 (Z.eqb_neq _ _)) by lia. done. }
  by rewrite (proj2 (Z.leb_le 32 c)), (proj2 (Z.ltb_lt c 127)) by lia.
Qed.

Lemma join_snoc (sep x : pystr) l :
  join sep (l ++ [x]) = match l with [] => x | _ => join sep l ++ sep ++ x end.
Proof.
  induction l as [|y [|z l] IH]; [done|done|].
  cbn [app] in *. rewrite join_cons2, IH, join_cons2, <- !app_assoc. done.
Qed.

(** The token occurs in the request's text as it is, and nothing else depends
    on it. *)
Lemma launch_text_split argv cwd env : dict_get RECOVERY_ENVIRONMENT_KEY env = None ->
  exists a b, forall token, forallb urlsafe token = true ->
    value_text request_style (request_value (launch_request argv cwd env token)) = a ++ token ++ b.
Proof.
  intros Henv. set (m := fun p : pystr * pyval => quote false (fst p) ++ str ":" ++ value_text request_style (snd p)).
  set (items := map (fun p => (fst p, PStr (snd p))) env).
  exists (123 :: m (str "argv", PList (map PStr argv)) ++ str ","
     ++ m (str "cwd", match cwd with Some c => PStr c | None => PNone end) ++ str ","
     ++ quote false (str "environment") ++ str ":" ++ [123]
     ++ match map m items with [] => [] | _ => join (str ",") (map m items) ++ str "," end
     ++ quote false RECOVERY_ENVIRONMENT_KEY ++ str ":" ++ [34]).
  exists (34 :: [125; 125]). intros token Ht.
  unfold launch_request, request_value. cbn [rq_argv rq_cwd rq_environment].
  rewrite dict_set_absent, map_app by done. cbn [value_text map fst snd].
  change (item_separator request_style) with (str ","). change (key_separator request_style) with (str ":").
  change (ensure_ascii request_style) with false.
  rewrite map_app. fold items. cbn [map fst snd value_text].
  change (map (fun p => quote false p.1 ++ str ":" ++ value_text request_style p.2) items) with (map m items).
  change (ensure_ascii request_style) with false. rewrite join_snoc, (quote_urlsafe token) by done.
  rewrite !join_cons2. cbn [join]. subst m. cbn [fst snd value_text].
  change (item_separator request_style) with (str ",").
  destruct (map _ items) as [|x l];
    repeat (progress (rewrite <- ?app_comm_cons, <- ?app_assoc; cbn [app])); reflexivity.
Qed.

Lemma forallb_urlsafe_scalar t : forallb urlsafe t = true -> forallb is_scalar t = true.
Proof.
  rewrite !forallb_forall. intros H c Hc. apply is_scalar_spec.
  destruct (urlsafe_char c (H c Hc)). lia.
Qed.

Lemma encode_urlsafe_length t : forallb urlsafe t = true -> zlen (encode_text t) = zlen t.
Proof.
  induction t as [|c t IH]; [done|]. cbn [forallb]. intros [Hc Ht]%andb_true_iff.
  change (encode_text (c :: t)) with (encode_char c ++ encode_text t). rewrite zlen_app, IH by done.
  destruct (urlsafe_char c Hc) as [H _]. unfold encode_char. rewrite (proj2 (Z.ltb_lt _ _)) by lia.
  rewrite !zlen_cons. change (zlen (@nil Z)) with 0. lia.
Qed.

(** A request stays valid when its token is replaced by another of 43
    characters. *)
Lemma valid_request_token argv cwd env t1 t2 :
  dict_get RECOVERY_ENVIRONMENT_KEY env = None ->
  length t2 = 43%nat -> forallb urlsafe t2 = true ->
  valid_request (launch_request argv cwd env t1) -> valid_request (launch_request argv cwd env t2).
Proof.
  unfold launch_request. intros Henv Hl Ht [H1 H2 [H3 H3'] H4].
  cbn [rq_argv rq_cwd rq_environment] in *. rewrite dict_set_absent in * by done.
  apply Forall_app in H3' as [He Hk]. apply Forall_cons in Hk as [(Hk1 & Hk2 & _) _].
  constructor; cbn [rq_argv rq_cwd rq_environment]; rewrite ?dict_set_absent by done; try done.
  - split; [rewrite zlen_app in *; exact H3|]. apply Forall_app. split; [done|].
    constructor; [|constructor]. cbn [fst snd] in *. split_and!; [done|done| |].
    + unfold zlen. rewrite Hl. done.
    + apply not_true_is_false. rewrite existsb_exists. intros (c & Hc & Hctl).
      rewrite forallb_forall in Ht. destruct (urlsafe_char c (Ht c Hc)) as [Hr _].
      unfold control_character in Hctl. apply orb_true_iff in Hctl as [Hctl|Hctl]; split_bools; lia.
  - destruct (dict_get PATH env) as [p|] eqn:E; 
      [rewrite (dict_get_app _ _ _ _ E) in H4; by rewrite (dict_get_app _ _ _ _ E)|].
    exfalso. assert (dict_get PATH (env ++ [(RECOVERY_ENVIRONMENT_KEY, t1)]) = None); [|congruence].
    clear -E. induction env as [|[k v] env IH]; [done|]. cbn [app dict_get] in *.
    destruct (str_eqb PATH k); [done|auto].
Qed.

(** What [safe_environment] lets through. *)
Record clean_environment (env : list (pystr * pystr)) : Prop := {
  ce_path : dict_get PATH env = Some SAFE_PATH;
  ce_names : NoDup (keys env);
  ce_items : forall k v, In (k, v) env -> k = PATH \/
    In k ALLOWED_ENVIRONMENT /\ zlen v <= 256 /\ existsb control_character v = false;
}.

Lemma safe_environment_item_clean clean item clean' : clean_environment clean ->
  safe_environment_item clean item = Ok clean' -> clean_environment clean'.
Proof.
  intros [H1 H2 H3] H. unfold safe_environment_item in H.
  apply bind_Ok in H as (key & _ & H). apply bind_Ok in H as (u & Hk%guard_Ok%str_in_In & H).
  apply bind_Ok in H as (v & _ & H). apply bind_Ok in H as (u' & Hv%guard_Ok & [= <-]).
  apply andb_true_iff in Hv as [Hv%Z.leb_le Hc%negb_true_iff].
  constructor.
  - rewrite dict_get_set. destruct (str_eqb_spec PATH key) as [<-|_]; [|done].
    exfalso. revert Hk. vm_compute. intuition discriminate.
  - auto with dgx.
  - intros k w Hin. assert (NoDup (keys (dict_set key v clean))) as Hn by auto with dgx.
    pose proof (dict_get_NoDup _ _ _ Hn Hin) as Hg. rewrite dict_get_set in Hg.
    destruct (str_eqb_spec k key) as [->|_]; [injection Hg as <-; by right|].
    apply H3. by apply dict_get_In.
Qed.

Lemma safe_environment_clean values env : safe_environment values = Ok env -> clean_environment env.
Proof.
  unfold safe_environment. destruct (16 <? zlen values); [done|].
  assert (Hgen : forall clean, clean_environment clean -> safe_environment_items clean values = Ok env ->
    clean_environment env).
  { induction values as [|item values IH]; intros clean Hc; cbn [safe_environment_items]; [by intros [= <-]|].
    intros (clean' & Hi & H)%bind_Ok. eapply IH; [|exact H]. by eapply safe_environment_item_clean. }
  apply Hgen. constructor; [done|apply NoDup_singleton|]. intros k v [[= <- <-]|[]]. by left.
Qed.

Lemma clean_no_token env : clean_environment env -> dict_get RECOVERY_ENVIRONMENT_KEY env = None.
Proof.
  intros [_ _ H]. destruct (dict_get RECOVERY_ENVIRONMENT_KEY env) as [v|] eqn:E; [|done].
  apply dict_get_In, H in E as [E|[E _]]; exfalso; [by vm_compute in E|].
  revert E. vm_compute. intuition discriminate.
Qed.

Lemma request_encodable r : encodable request_style (request_value r) = true.
Proof.
  unfold request_value. cbn [encodable forallb snd]. rewrite !andb_true_r. rewrite !andb_true_iff. split_and!.
  - apply forallb_forall. intros x Hx. by apply in_map_iff in Hx as (s & <- & _).
  - by destruct (rq_cwd r).
  - apply forallb_forall. intros x Hx. by apply in_map_iff in Hx as (s & <- & _).
Qed.

(** The size check before a job is queued covers the real launch: it uses
    a placeholder for the recovery token, and a request that passes it can be
    serialized with any token of [secrets.token_urlsafe(32)]. *)
Theorem preflight_covers_launch inv cwd timeout environment argv c seconds env token :
  resolve_invocation inv cwd timeout environment = Ok (argv, c, seconds, env) ->
  length token = 43%nat -> forallb urlsafe token = true ->
  exists payload, serialize_request (launch_request argv c env token) = Ok payload.
Proof.
  unfold resolve_invocation. intros H Hl Ht.
  apply bind_Ok in H as ([[[a0 c0] t0] items] & _ & H). apply bind_Ok in H as (a1 & _ & H).
  apply bind_Ok in H as (s1 & _ & H). apply bind_Ok in H as (u & _ & H).
  apply bind_Ok in H as (env' & Henv%safe_environment_clean & H).
  apply bind_Ok in H as (p & Hp & H). injection H as <- <- <- <-.
  pose proof (clean_no_token _ Henv) as Hno.
  destruct (launch_text_split a1 c0 env' Hno) as (pre & post & Htext).
  unfold serialize_request in Hp |- *. apply bind_Ok in Hp as (r & Hv & Hp).
  pose proof (request_value_validates _ _ Hv) as ->. apply validate_request_valid in Hv.
  apply (valid_request_token _ _ _ _ token Hno Hl Ht), valid_request_validates in Hv as ->.
  cbn [mbind result_bind]. unfold dumps in *. rewrite request_encodable in *.
  change (Json.sort_keys request_style) with false in *. cbn iota in *. cbn [mbind result_bind] in *.
  rewrite Htext in Hp by (vm_compute; reflexivity). rewrite Htext by done.
  apply bind_Ok in Hp as (b & [Hsc ->]%of_option_Ok%utf8_encode_Some & Hp).
  rewrite !forallb_app, !andb_true_iff in Hsc. destruct Hsc as (Hpre & _ & Hpost).
  rewrite utf8_encode_text.
  2: { rewrite !forallb_app, Hpre, Hpost, andb_true_r. by apply forallb_urlsafe_scalar. }
  cbn [of_option mbind result_bind].
  assert (Hlen : zlen (encode_text (pre ++ token ++ post))
    = zlen (encode_text (pre ++ RECOVERY_TOKEN_PLACEHOLDER ++ post))).
  { rewrite !encode_text_app, !zlen_app, (encode_urlsafe_length token) by done.
    rewrite (encode_urlsafe_length RECOVERY_TOKEN_PLACEHOLDER) by (vm_compute; reflexivity).
    assert (zlen token = zlen RECOVERY_TOKEN_PLACEHOLDER) as ->; [|done].
    unfold zlen. rewrite Hl. done. }
  assert (Hne : forall s : bytes, nonempty s = (0 <? zlen s)).
  { intros [|x s]; [done|]. rewrite zlen_cons. symmetry. apply Z.ltb_lt. pose proof (zlen_nonneg s). lia. }
  rewrite Hne, Hlen, <- Hne. destruct (negb _ || _); [done|by eexists].
Qed.

(** A job's environment holds the safe PATH and allow-listed variables
    only, each once, with short values free of control characters; and its
    argument vector, directory and environment make a valid launch request. *)
Theorem invocation_sound inv cwd timeout environment argv c seconds env :
  resolve_invocation inv cwd timeout environment = Ok (argv, c, seconds, env) ->
  clean_environment env /\
  valid_request (launch_request argv c env RECOVERY_TOKEN_PLACEHOLDER).
Proof.
  unfold resolve_invocation. intros H.
  apply bind_Ok in H as ([[[a0 c0] t0] items] & _ & H). apply bind_Ok in H as (a1 & _ & H).
  apply bind_Ok in H as (s1 & _ & H). apply bind_Ok in H as (u & _ & H).
  apply bind_Ok in H as (env' & Henv%safe_environment_clean & H).
  apply bind_Ok in H as (p & Hp & H). injection H as <- <- <- <-. split; [done|].
  apply bind_Ok in Hp as (r & Hv & _). pose proof (request_value_validates _ _ Hv) as ->.
  by eapply validate_request_valid.
Qed.

(** ** Witnesses *)

Lemma output_window_witness :
  window 7 (concat [str "abc"; [233; 8364]; str "xyz"])
    (append_all 7 (map encode_text [str "abc"; [233; 8364]; str "xyz"]) (new_job demo_id)).
Proof.
  apply output_window; [lia|]. repeat (apply List.Forall_cons; [vm_compute; reflexivity|]).
  apply List.Forall_nil.
Defined.

Lemma polling_is_exact_witness :
  let s := append_all 16 [encode_text (str "abc")] (new_job demo_id) in
  let s' := append_all 16 (map encode_text [[233; 8364]; str "xyz"]) s in
  exists j, get_output (Some (PInt (output_offset s))) s' = Ok j /\
    job_output j = concat [[233; 8364]; str "xyz"] /\ job_truncated_before j = output_offset s /\
    job_output_offset j = output_offset s + zlen (encode_text (concat [[233; 8364]; str "xyz"])).
Proof.
  apply (polling_is_exact 16 (str "abc")).
  - lia.
  - apply (output_window 16 demo_id [str "abc"]); [lia|].
    apply List.Forall_cons; [vm_compute; reflexivity|apply List.Forall_nil].
  - repeat (apply List.Forall_cons; [vm_compute; reflexivity|]). apply List.Forall_nil.
  - vm_compute. discriminate.
Defined.

Definition demo_job : JobState :=
  set_launch (Some (str "ready")) (Some (repeat 65 43))
    (Some (mkIdentity 4242 (Some 4242) (Some 4242) (Some 99) (Some (str "boot")) (repeat 65 43)))
    (set_started (float_of_Z 1700000000)
       (append_output 16 (encode_text [104; 233; 10])
          (set_outcome (str "running") None None None (new_job demo_id)))).

Lemma demo_job_ok : job_ok 16 demo_job.
Proof.
  constructor.
  - by right; left.
  - exists [104; 233; 10]. vm_compute. done.
  - vm_compute. split_and!; congruence.
  - done.
  - intros i [= <-]. constructor; [vm_compute; done| |intros b [= <-]; vm_compute; split; congruence|vm_compute; split_and!; congruence].
    intros o n [<-|[<-|[<-|[]]]] [= <-]; lia.
  - vm_compute. split_and!; try congruence. by right; left.
Qed.

Definition demo_metadata_text : pystr :=
  Eval vm_compute in match metadata_text demo_job with Ok t => t | Raise _ => [] end.
Definition demo_snapshot : Job :=
  Eval vm_compute in
    match snapshot demo_job with Ok j => j | Raise _ => snapshot_with [] 0 demo_job end.

Lemma persisted_job_reloads_witness :
  load_job 16 {| file_stem := id demo_job; file_private := true; file_size := zlen demo_metadata_text;
                 file_content := Ok demo_metadata_text |} = Ok (Some (restored demo_job)).
Proof.
  eapply (persisted_job_reloads 16 demo_job demo_snapshot).
  - apply demo_job_ok.
  - vm_compute. reflexivity.
  - vm_compute. reflexivity.
  - vm_compute. reflexivity.
  - vm_compute. reflexivity.
  - vm_compute. discriminate.
Defined.

Definition demo_file : job_file :=
  {| file_stem := demo_id; file_private := true; file_size := zlen demo_metadata_text;
     file_content := Ok demo_metadata_text |}.

Definition reloaded_job : JobState := interrupted (float_of_Z 1700000001) (restored demo_job).

Lemma load_jobs_terminal_witness : id reloaded_job = demo_id /\ is_terminal reloaded_job = true /\ job_ok 16 reloaded_job.
Proof.
  apply (load_jobs_terminal (fun _ => Ok tt) 16 (float_of_Z 1700000001) [demo_file] [(demo_id, reloaded_job)]);
    vm_compute; reflexivity.
Defined.

Lemma metadata_outgrows_load_limit_witness :
  exists s j text, s = append_output DEFAULT_OUTPUT_LIMIT (repeat 27 (Z.to_nat DEFAULT_OUTPUT_LIMIT))
                       (set_outcome (str "running") None None None (new_job demo_id)) /\
    window DEFAULT_OUTPUT_LIMIT (repeat 27 (Z.to_nat DEFAULT_OUTPUT_LIMIT)) s /\
    snapshot s = Ok j /\ dumps metadata_style (PDict (metadata j s)) = Ok text /\
    load_job DEFAULT_OUTPUT_LIMIT {| file_stem := id s; file_private := true; file_size := zlen text;
                      file_content := Ok text |} = Ok None.
Proof. apply metadata_outgrows_load_limit. unfold DEFAULT_OUTPUT_LIMIT, MAX_OUTPUT_LIMIT. lia. Defined.

Lemma damaged_metadata_stops_agent_witness :
  exists m, load_jobs (fun _ => Ok tt) DEFAULT_OUTPUT_LIMIT (float_of_Z 0)
    [overflowing_file DEFAULT_OUTPUT_LIMIT] [] = Raise (OverflowError m).
Proof. apply damaged_metadata_stops_agent. unfold DEFAULT_OUTPUT_LIMIT. lia. Defined.

Lemma preflight_covers_launch_witness :
  exists payload, serialize_request (launch_request [str "/bin/true"] (Some (str "/srv"))
    [(PATH, SAFE_PATH); (str "LANG", str "C.UTF-8")] (repeat 66 43)) = Ok payload.
Proof.
  eapply (preflight_covers_launch (Explicit [PStr (str "/bin/true")]) (Some (str "/srv")) None
    [(PStr (str "LANG"), PStr (str "C.UTF-8"))] _ _ (float_of_Z 30)); vm_compute; reflexivity.
Defined.

Lemma invocation_sound_witness :
  clean_environment [(PATH, SAFE_PATH); (str "LANG", str "C.UTF-8")] /\
  valid_request (launch_request [str "/bin/true"] (Some (str "/srv"))
    [(PATH, SAFE_PATH); (str "LANG", str "C.UTF-8")] RECOVERY_TOKEN_PLACEHOLDER).
Proof.
  eapply (invocation_sound (Explicit [PStr (str "/bin/true")]) (Some (str "/srv")) None
    [(PStr (str "LANG"), PStr (str "C.UTF-8"))] _ _ (float_of_Z 30)). vm_compute. reflexivity.
Defined.
