(* ===== verification/Secrets.v ===== *)
(** * Secrets in what the assistant sees

    [backend/app/services/ops_secrets.py]: which dictionary keys name secrets,
    replacing configured secrets and credential assignments in text, bounding
    and cleaning structured values, and collecting the configured secrets from
    the database.  The regular expressions are matched with the matcher of
    Redaction. *)
From Stdlib Require Import ZArith Lia Bool String.
From Stdlib Require Import SpecFloat.
From stdpp Require Import prelude.
From S2P Require Import Prelude PyValue PyFloat Json Redaction.
Open Scope Z_scope.

(** [str.casefold], which the standard library's Unicode tables define *)
Class CaseFolding := casefold : pystr -> pystr.

Definition MIN_EMBEDDED_SECRET_CHARS : Z := 3.
Definition MAX_STRUCTURE_DEPTH : nat := 8.
Definition MAX_COLLECTION_ITEMS : nat := 100.
Definition MAX_STRING_CHARS : Z := 12000.
Definition TRUNCATED : pystr := str "[truncated]".
Definition SENSITIVE_KEY_NAMES : list pystr :=
  map str ["auth"; "authorization"; "api_key"; "apikey"; "encrypted_api_key"; "encrypted_value"; "token";
           "access_token"; "api_token"; "auth_token"; "bearer_token"; "password"; "passwd"; "secret";
           "client_secret"; "secret_key"]%string.
Definition SENSITIVE_KEY_SUFFIXES : list pystr :=
  map str ["_auth"; "_authorization"; "_api_key"; "_apikey"; "_token"; "_password"; "_passwd"; "_secret";
           "_secret_key"]%string.

(** ** Keys *)

Definition dash_or_space (c : Z) : bool := (c =? 45) || is_space c.

(** [re.sub(r"[-\s]+", "_", value)]; [inside]: in a run that was replaced *)
Fixpoint underscored (inside : bool) (s : pystr) : pystr :=
  match s with
  | [] => []
  | c :: r => if dash_or_space c then (if inside then [] else [95]) ++ underscored true r else c :: underscored false r
  end.

(** [_ACRONYM_BOUNDARY_PATTERN.sub(r"\1_\2", s)]: a run of capitals of which
    the last begins a word *)
Fixpoint acronym_fuel (fuel : nat) (s : pystr) : pystr :=
  match fuel, s with
  | S k, c :: r =>
      let '(run, rest) := PyFloat.span is_upper s in
      match rest with
      | l :: rest' =>
          if is_lower l && (2 <=? zlen run)
          then removelast run ++ 95 :: List.last run 0 :: l :: acronym_fuel k rest'
          else c :: acronym_fuel k r
      | [] => c :: acronym_fuel k r
      end
  | _, _ => s
  end.
Definition acronym_boundary (s : pystr) : pystr := acronym_fuel (length s) s.

(** [_CAMEL_BOUNDARY_PATTERN.sub(r"\1_\2", s)] *)
Fixpoint camel_boundary (s : pystr) : pystr :=
  match s with
  | a :: ((b :: _) as r) =>
      if (is_lower a || is_digit a) && is_upper b then a :: 95 :: camel_boundary r else a :: camel_boundary r
  | _ => s
  end.

Section Keys.
Context `{CaseFolding}.

(** [is_sensitive_key] *)
Definition is_sensitive_key (value : pystr) : bool :=
  let normalized := strip_with (Z.eqb 95) (underscored false value) in
  let normalized := casefold (camel_boundary (acronym_boundary normalized)) in
  str_in normalized SENSITIVE_KEY_NAMES || existsb (fun suffix => endswith suffix normalized) SENSITIVE_KEY_SUFFIXES.

(** ** Substitution

    [pattern.sub(f, s)] for a pattern without empty matches: [at_] gives for
    the character before a position and the text from it on, if the pattern
    matches there, the replacement and the text after the match. *)
Inductive piece := Keep (c : Z) | Put (text : pystr).

Definition piece_text (p : piece) : pystr := match p with Keep c => [c] | Put t => t end.

Definition last_char (s : pystr) : option Z := match rev s with c :: _ => Some c | [] => None end.

Fixpoint sub_pieces (at_ : option Z -> pystr -> option (pystr * pystr)) (fuel : nat) (previous : option Z) (s : pystr)
    : list piece :=
  match fuel, s with
  | S k, c :: r =>
      match at_ previous s with
      | Some (text, rest) => Put text :: sub_pieces at_ k (last_char (take (length s - length rest) s)) rest
      | None => Keep c :: sub_pieces at_ k (Some c) r
      end
  | _, _ => []
  end.

Definition pattern_sub (at_ : option Z -> pystr -> option (pystr * pystr)) (s : pystr) : pystr :=
  concat (map piece_text (sub_pieces at_ (length s) None s)).

(** ** Credential assignments *)

Definition label_char (c : Z) : bool := ci_word c || (c =? 45).

(** [p{0,n}], greedy *)
Fixpoint m_upto (n : nat) (p : Z -> bool) (s : pystr) : list pystr :=
  match n, s with
  | S k, c :: r => if p c then m_upto k p r ++ [s] else [s]
  | _, _ => [s]
  end.

(** [(?:\\.|[^q\\])*] between two quotes [q] *)
Definition quoted_value (q : Z) : matcher := fun s =>
  m_seqs [m_char (Z.eqb q);
          m_many (m_alt (m_seq (m_char (Z.eqb BACKSLASH)) (m_char (fun c => negb (c =? 10))))
                        (m_char (fun c => negb (c =? q) && negb (c =? BACKSLASH)))) (length s);
          m_char (Z.eqb q)] s.

Definition bare_char (c : Z) : bool :=
  negb (is_space c || (c =? 44) || (c =? 59) || (c =? 38) || (c =? 125) || (c =? 91) || (c =? 93)).

(** [(?:\[REDACTED\]|[^\s,;&}\[\]]+)+] at the end of the pattern: the match
    that Python's engine finds first takes as much as it can. *)
Fixpoint bare_fuel (fuel : nat) (s : pystr) : pystr :=
  match fuel with
  | O => s
  | S k =>
      match m_lit "[redacted]" s with
      | rest :: _ => bare_fuel k rest
      | [] => match s with
              | c :: r => if bare_char c then bare_fuel k r else s
              | [] => []
              end
      end
  end.
Definition bare_value : matcher := fun s =>
  let rest := bare_fuel (length s) s in if zlen rest <? zlen s then [rest] else [].

Definition assignment_value : matcher :=
  m_seq (m_opt (m_seq (m_alt (m_lit "bearer") (m_lit "basic")) (m_plus is_space)))
        (m_alts [quoted_value DQUOTE; quoted_value SQUOTE; bare_value]).

(** From the label on, after the quote [q]: the label and what remains *)
Definition assignment_from (q : pystr) (s : pystr) : list (pystr * pystr) :=
  flat_map (fun after =>
      let label := take (length s - length after) s in
      if startswith q after then
        map (pair label)
          (m_seqs [m_star is_space; m_char (fun c => (c =? COLON) || (c =? 61)); m_star is_space; assignment_value]
             (drop (length q) after))
      else [])
    (m_seq (m_char ci_alnum) (m_upto 127 label_char) s).

(** [_CREDENTIAL_ASSIGNMENT_PATTERN] at a position: the "label" group and the
    text after the match *)
Definition CREDENTIAL_ASSIGNMENT (previous : option Z) (s : pystr) : option (pystr * pystr) :=
  if some_char label_char previous then None
  else hd_error (match s with
                 | c :: r => if is_quote c then assignment_from [c] r else []
                 | [] => []
                 end ++ assignment_from [] s).

(** [_redact_credential_assignment] *)
Definition redact_credential_assignment (previous : option Z) (s : pystr) : option (pystr * pystr) :=
  match CREDENTIAL_ASSIGNMENT previous s with
  | Some (label, rest) =>
      Some (if is_sensitive_key label then REDACTED else take (length s - length rest) s, rest)
  | None => None
  end.

(** ** Configured secrets *)

(** [key=lambda item: (-len(item), item)] *)
Definition longer_first (a b : pystr) : bool := (zlen b <? zlen a) || ((zlen a =? zlen b) && str_leb a b).

Fixpoint insert_secret (x : pystr) (l : list pystr) : list pystr :=
  match l with
  | [] => [x]
  | y :: r => if str_eqb x y then l else if longer_first x y then x :: l else y :: insert_secret x r
  end.

(** [sorted({value for value in values if value}, key=...)] *)
Definition ordered_secrets (values : list pystr) : list pystr := foldr insert_secret [] (nonempty_values values).

(** [text in s] *)
Fixpoint contains_text (text s : pystr) : bool :=
  startswith text s || match s with [] => false | _ :: r => contains_text text r end.

Definition identifier_char (c : Z) : bool := is_alnum c || (c =? 95).

(** The alternatives of [_known_secret_pattern] at a position, in their order;
    the replacement is [_replace_known_secret_match]. *)
Definition known_secret_at (secrets : list pystr) (previous : option Z) (s : pystr) : option (pystr * pystr) :=
  let ordered := ordered_secrets secrets in
  let long := List.filter (fun x => 8 <=? zlen x) ordered in
  let marker_secrets := List.filter (contains_text REDACTED) long in
  let embedded := List.filter (fun x => negb (contains_text REDACTED x)) long in
  let bounded := List.filter (fun x => (MIN_EMBEDDED_SECRET_CHARS <=? zlen x) && (zlen x <? 8)) ordered in
  match find (fun x => startswith x s) marker_secrets with
  | Some x => Some (REDACTED, drop (length x) s)
  | None =>
      if startswith REDACTED s then Some (REDACTED, drop (length REDACTED) s)
      else
        match find (fun x => startswith x s) embedded with
        | Some x => Some (REDACTED, drop (length x) s)
        | None =>
            if some_char identifier_char previous then None
            else
              match find (fun x => startswith x s && negb (some_char identifier_char (hd_error (drop (length x) s)))) bounded with
              | Some x => Some (REDACTED, drop (length x) s)
              | None => None
              end
        end
  end.

(** [replace_known_secrets] *)
Definition replace_known_secrets (value : pystr) (secrets : list pystr) : pystr :=
  if str_in value secrets then REDACTED else pattern_sub (known_secret_at secrets) value.

(** [redact_string] *)
Definition redact_string (value : pystr) (secrets : list pystr) : pystr :=
  pattern_sub redact_credential_assignment (replace_known_secrets value secrets).

Definition truncation_marker : pystr := [10] ++ TRUNCATED ++ [10].

(** [sanitize_string] *)
Definition sanitize_string (value : pystr) (secrets : list pystr) (limit : Z) : pystr :=
  let sanitized := redact_string value secrets in
  if zlen sanitized <=? limit then sanitized
  else
    let available := Z.max 0 (limit - zlen truncation_marker) in
    let head := (available + 1) / 2 in
    let tail := available - head in
    take (Z.to_nat head) sanitized ++ truncation_marker
      ++ (if tail =? 0 then [] else drop (length sanitized - Z.to_nat tail) sanitized).

(** ** Structured values *)

(** What the code sanitizes: JSON values, datetimes (by their [isoformat()])
    and values of other types (by the name of the type); keys are [str(key)] *)
Inductive raw :=
  | RNone
  | RBool (b : bool)
  | RInt (n : Z)
  | RFloat (f : spec_float)
  | RStr (s : pystr)
  | RDate (iso : pystr)
  | RList (l : list raw)
  | RDict (d : list (pystr * raw))
  | ROther (type_name : pystr).

Fixpoint raw_of (v : pyval) : raw :=
  match v with
  | PNone => RNone
  | PBool b => RBool b
  | PInt n => RInt n
  | PFloat f => RFloat f
  | PStr s => RStr s
  | PList l => RList (map raw_of l)
  | PDict d => RDict (map (fun p => (fst p, raw_of (snd p))) d)
  end.

(** [str] of a float that is not finite *)
Definition float_name (f : spec_float) : pystr :=
  match f with S754_infinity false => str "inf" | S754_infinity true => str "-inf" | _ => str "nan" end.

(** The key that an item gets: its own or a redacted one; [None] for a key that
    names a secret *)
Definition key_text (secrets trusted_keys : list pystr) (index : nat) (raw_key : pystr) : option pystr :=
  if str_in raw_key trusted_keys then Some raw_key
  else if is_sensitive_key raw_key then None
  else
    let key := sanitize_string raw_key secrets 256 in
    Some (if str_eqb key raw_key then key else str "redacted_key_" ++ dec (Z.of_nat index)).

Section Items.
Context (secrets trusted_keys : list pystr) (sanitize : raw -> pyval).

(** The loop over the items of a mapping *)
Fixpoint sanitize_items (index : nat) (items : list (pystr * raw)) (result : pydict) : pydict :=
  match items with
  | [] => result
  | (raw_key, item) :: rest =>
      if (MAX_COLLECTION_ITEMS <=? index)%nat then dict_set (str "truncated") (PBool true) result
      else
        match key_text secrets trusted_keys index raw_key with
        | None => sanitize_items (S index) rest
                    (dict_set (str "redacted_field_" ++ dec (Z.of_nat index)) (PStr REDACTED) result)
        | Some key => sanitize_items (S index) rest (dict_set key (sanitize item) result)
        end
  end.
End Items.

(** [sanitize_value] with [fuel = MAX_STRUCTURE_DEPTH - depth] levels left *)
Fixpoint sanitize_levels (secrets trusted_keys : list pystr) (fuel : nat) (value : raw) : pyval :=
  match fuel with
  | O => PStr TRUNCATED
  | S k =>
      match value with
      | RNone => PNone
      | RBool b => PBool b
      | RInt n => PInt n
      | RFloat f => if isfinite f then PFloat f else PStr (float_name f)
      | RStr s => PStr (sanitize_string s secrets MAX_STRING_CHARS)
      | RDate iso => PStr iso
      | RDict d => PDict (sanitize_items secrets trusted_keys (sanitize_levels secrets trusted_keys k) 0 d [])
      | RList l =>
          PList (map (sanitize_levels secrets trusted_keys k) (take MAX_COLLECTION_ITEMS l)
                 ++ (if (MAX_COLLECTION_ITEMS <? length l)%nat then [PStr TRUNCATED] else []))
      | ROther name => PStr (str "[unsupported:" ++ name ++ str "]")
      end
  end.

Definition sanitize_value (value : raw) (secrets trusted_keys : list pystr) : pyval :=
  sanitize_levels secrets trusted_keys MAX_STRUCTURE_DEPTH value.

(** [KnownSecrets.redact] *)
Definition redact_known (values : list pystr) (value : raw) : pyval :=
  match value with
  | RStr s => PStr (redact_string s values)
  | _ => sanitize_value value values []
  end.

(** ** Loading the configured secrets *)

(** The rows: a provider's encrypted key and its headers (a JSON value), and
    the encrypted values of the settings; [decrypt] is [SecretBox.decrypt] *)
Record secret_rows := mkSecretRows {
  provider_rows : list (option pystr * pyval);
  setting_rows : list (option pystr);
}.

Definition load_error : exn := SecretLoadError (str "configured secrets could not be loaded safely").
Definition short_error : exn := SecretLoadError (str "configured secrets are too short to sanitize safely").

Definition add_value (x : pystr) (values : list pystr) : list pystr := if str_in x values then values else values ++ [x].

(** [add_plaintext] *)
Definition add_plaintext (value : pystr) (values : list pystr) : result (list pystr) :=
  match value with
  | [] => Raise load_error
  | _ => if zlen value <? MIN_EMBEDDED_SECRET_CHARS then Raise short_error else Ok (add_value value values)
  end.

(** [add_encrypted]; without a secret box nothing can be decrypted *)
Definition add_encrypted (decrypt : option (pystr -> result pystr)) (value : option pystr) (values : list pystr)
    : result (list pystr) :=
  match value, decrypt with
  | Some ((_ :: _) as v), Some decrypt =>
      match decrypt v with
      | Ok plaintext => add_plaintext plaintext (add_value v values)
      | Raise e => if is_ValueError e || match e with TypeError _ => true | _ => false end then Raise load_error else Raise e
      end
  | _, _ => Raise load_error
  end.

(** [header_value.partition(" ")]: what follows the first blank, if there is one *)
Fixpoint partition_blank (s : pystr) : pystr * bool * pystr :=
  match s with
  | [] => ([], false, [])
  | c :: r => if c =? 32 then ([], true, r) else let '(a, found, b) := partition_blank r in (c :: a, found, b)
  end.

Definition add_header (header : pystr * pyval) (values : list pystr) : result (list pystr) :=
  let '(name, value) := header in
  match value with
  | PStr ((_ :: _) as text) =>
      let '(scheme, separator, credential) := partition_blank text in
      let has_auth_scheme := separator && str_in (casefold scheme) [str "bearer"; str "basic"]
                             && match credential with [] => false | _ => true end in
      if negb (is_sensitive_key name) && negb has_auth_scheme then Ok values
      else
        values ← add_plaintext text values;
        if has_auth_scheme then add_plaintext credential values else Ok values
  | _ => Ok values
  end.

Definition add_each {A} (add : A -> list pystr -> result (list pystr)) : list A -> list pystr -> result (list pystr) :=
  fix go l values := match l with [] => Ok values | x :: r => values ← add x values; go r values end.

Definition add_provider (decrypt : option (pystr -> result pystr)) (row : option pystr * pyval) (values : list pystr)
    : result (list pystr) :=
  values ← add_encrypted decrypt (fst row) values;
  match snd row with PDict headers => add_each add_header headers values | _ => Ok values end.

(** [load_known_secrets]; [rows] is what the database answers *)
Definition load_known_secrets (rows : result secret_rows) (decrypt : option (pystr -> result pystr)) : result (list pystr) :=
  except (rows ← rows;
          values ← add_each (add_provider decrypt) (provider_rows rows) [];
          values ← add_each (add_encrypted decrypt) (setting_rows rows) values;
          Ok (ordered_secrets values))
    (fun e => match e with SecretLoadError _ => None | _ => Some (Raise load_error) end).
End Keys.

(** ** Substitution *)

Section Substitution.
Context (at_ : option Z -> pystr -> option (pystr * pystr)).

(** A text cut into the characters that are kept and the texts that are
    replaced, with what is put in their place *)
Inductive cut := Kept (c : Z) | Cut (source text : pystr).
Definition cut_source (c : cut) : pystr := match c with Kept c => [c] | Cut s _ => s end.
Definition cut_shown (c : cut) : pystr := match c with Kept c => [c] | Cut _ t => t end.
Definition source_of (cuts : list cut) : pystr := concat (map cut_source cuts).
Definition shown_of (cuts : list cut) : pystr := concat (map cut_shown cuts).

Lemma source_of_app a b : source_of (a ++ b) = source_of a ++ source_of b.
Proof. unfold source_of. by rewrite map_app, concat_app. Qed.
Lemma source_of_kept l : source_of (map Kept l) = l.
Proof. unfold source_of. induction l as [|c l IH]; [done|]. cbn. by f_equal. Qed.

(** The character before a position *)
Definition before (previous : option Z) (s : pystr) : option Z := match last_char s with Some c => Some c | None => previous end.
Lemma before_app previous s t : before previous (s ++ t) = before (before previous s) t.
Proof. unfold before, last_char. rewrite rev_app_distr. by destruct (rev t). Qed.

(** Where the pattern matches, it takes a text that is not empty. *)
Definition takes (P : pystr -> pystr -> Prop) : Prop := forall p s t r, at_ p s = Some (t, r) ->
  exists taken, s = taken ++ r /\ taken <> [] /\ P taken t.

Lemma cuts_of_sub (P : pystr -> pystr -> Prop) : takes P -> forall fuel previous s, (length s <= fuel)%nat ->
  exists cuts, source_of cuts = s /\ concat (map piece_text (sub_pieces at_ fuel previous s)) = shown_of cuts /\
    Forall (fun c => match c with Cut s t => P s t | Kept _ => True end) cuts /\
    forall a c b, cuts = a ++ Kept c :: b -> at_ (before previous (source_of a)) (c :: source_of b) = None.
Proof.
  intros HP. induction fuel as [|k IH]; intros previous s Hl.
  { destruct s; [|cbn in Hl; lia]. exists []. split_and!; [done..|]. by intros [|? a]. }
  destruct s as [|c r]; [exists []; split_and!; [done..|]; by intros [|? a]|]. cbn [sub_pieces].
  destruct (at_ previous (c :: r)) as [[t rest]|] eqn:E.
  - destruct (HP _ _ _ _ E) as (taken & Hs & Hne & Ht). rewrite Hs, length_app.
    replace (length taken + length rest - length rest)%nat with (length taken) by lia. rewrite take_app_length.
    destruct (IH (last_char taken) rest) as (cuts & H1 & H2 & H3 & H4).
    { apply (f_equal length) in Hs. rewrite length_app in Hs. destruct taken; [done|]. cbn in Hs, Hl |- *. lia. }
    exists (Cut taken t :: cuts). split_and!.
    + unfold source_of in *. cbn. by rewrite H1.
    + cbn. unfold shown_of in *. cbn. by rewrite H2.
    + by constructor.
    + intros [|x a] d b Heq; [done|]. injection Heq as <- ->. specialize (H4 a d b eq_refl).
      change (source_of (Cut taken t :: a)) with (taken ++ source_of a). rewrite before_app.
      assert (before previous taken = last_char taken) as ->; [|exact H4].
      unfold before, last_char. destruct (rev taken) eqn:Er; [|done]. apply (f_equal (@rev Z)) in Er. rewrite rev_involutive in Er. by subst taken.
  - destruct (IH (Some c) r) as (cuts & H1 & H2 & H3 & H4); [cbn in Hl; lia|]. exists (Kept c :: cuts). split_and!.
    + unfold source_of in *. cbn. by rewrite H1.
    + cbn. unfold shown_of in *. cbn. by rewrite H2.
    + by constructor.
    + intros [|x a] d b Heq; injection Heq as <- ->; [by rewrite H1|]. change (source_of (Kept c :: a)) with ([c] ++ source_of a).
      rewrite before_app. by apply (H4 a d b).
Qed.
End Substitution.

(** ** Configured secrets *)

Lemma insert_secret_In x y l : In x (insert_secret y l) <-> x = y \/ In x l.
Proof.
  induction l as [|z l IH]; cbn; [naive_solver|].
  destruct (str_eqb_spec y z) as [->|Hne]; cbn; [naive_solver|].
  destruct (longer_first y z); cbn; [naive_solver|]. rewrite IH. naive_solver.
Qed.

Lemma nonempty_In x l : In x (nonempty_values l) <-> In x l /\ x <> [].
Proof. unfold nonempty_values. rewrite filter_In. destruct x; naive_solver. Qed.

Lemma ordered_secrets_In x l : In x (ordered_secrets l) <-> In x l /\ x <> [].
Proof.
  rewrite <- nonempty_In. unfold ordered_secrets. induction (nonempty_values l) as [|y k IH]; [done|].
  cbn [foldr]. rewrite insert_secret_In, IH. cbn. naive_solver.
Qed.

Lemma find_startswith x (p : pystr -> bool) l : In x l -> p x = true -> exists y, find p l = Some y.
Proof.
  intros Hx Hp. destruct (find p l) as [y|] eqn:E; [eauto|]. by rewrite (List.find_none _ _ E x Hx) in Hp.
Qed.

Lemma startswith_prefix (x s : pystr) : startswith x (x ++ s) = true.
Proof. apply startswith_app. by exists s. Qed.

(** The pattern matches wherever a long secret is. *)
Lemma long_secret_matches secrets secret previous s : In secret secrets -> 8 <= zlen secret ->
  known_secret_at secrets previous (secret ++ s) <> None.
Proof.
  intros Hin Hl. unfold known_secret_at.
  assert (Ho : In secret (List.filter (fun x => 8 <=? zlen x) (ordered_secrets secrets))).
  { apply filter_In. split; [|by apply Z.leb_le]. apply ordered_secrets_In. split; [done|]. by intros ->. }
  destruct (contains_text REDACTED secret) eqn:Em.
  - destruct (find_startswith secret (fun x => startswith x (secret ++ s))
      (List.filter (contains_text REDACTED) (List.filter (fun x => 8 <=? zlen x) (ordered_secrets secrets)))) as (y & ->);
      [by apply filter_In|apply startswith_prefix|done].
  - destruct (find _ _); [done|]. destruct (startswith REDACTED _); [done|].
    destruct (find_startswith secret (fun x => startswith x (secret ++ s))
      (List.filter (fun x => negb (contains_text REDACTED x)) (List.filter (fun x => 8 <=? zlen x) (ordered_secrets secrets))))
      as (y & ->); [apply filter_In; by rewrite Em|apply startswith_prefix|done].
Qed.

(** And wherever a short one stands on its own. *)
Lemma short_secret_matches secrets secret previous s : In secret secrets ->
  MIN_EMBEDDED_SECRET_CHARS <= zlen secret < 8 -> some_char identifier_char previous = false ->
  some_char identifier_char (hd_error s) = false -> known_secret_at secrets previous (secret ++ s) <> None.
Proof.
  intros Hin Hl Hc Hs. unfold known_secret_at. rewrite Hc.
  destruct (find _ _); [done|]. destruct (startswith REDACTED _); [done|]. destruct (find _ _); [done|].
  destruct (find_startswith secret
    (fun x => startswith x (secret ++ s) && negb (some_char identifier_char (hd_error (drop (length x) (secret ++ s)))))
    (List.filter (fun x => (MIN_EMBEDDED_SECRET_CHARS <=? zlen x) && (zlen x <? 8)) (ordered_secrets secrets))) as (y & ->); [| |done].
  - unfold MIN_EMBEDDED_SECRET_CHARS in *. apply filter_In. split; [|lia]. apply ordered_secrets_In. split; [done|].
    intros ->. rewrite zlen_nil in Hl. lia.
  - by rewrite startswith_prefix, drop_app_length, Hs.
Qed.

Lemma found_known_secret (p q : pystr -> bool) secrets x s : find (fun x => startswith x s && q x) (List.filter p (ordered_secrets secrets)) = Some x ->
  exists r, s = x ++ r /\ x <> [] /\ In x secrets.
Proof.
  intros [Hx [Hs _]%andb_prop]%List.find_some. apply filter_In in Hx as [Hx%ordered_secrets_In _].
  apply startswith_app in Hs as [r ->]. exists r. by destruct Hx.
Qed.
Lemma filter_twice {A} (p q : A -> bool) l : List.filter p (List.filter q l) = List.filter (fun x => q x && p x) l.
Proof. induction l as [|x l IH]; [done|]. cbn. destruct (q x); cbn; by rewrite IH. Qed.
Lemma find_with_true {A} (p : A -> bool) l : find p l = find (fun x => p x && true) l.
Proof. induction l as [|x l IH]; [done|]. cbn. rewrite andb_true_r. by destruct (p x). Qed.

(** The pattern takes a secret, or the marker itself, and puts the marker in its place. *)
Lemma known_secret_takes secrets : takes (known_secret_at secrets)
  (fun taken t => t = REDACTED /\ (In taken secrets \/ taken = REDACTED)).
Proof.
  intros p s t r. unfold known_secret_at. rewrite !filter_twice.
  destruct (find _ _) as [x|] eqn:E.
  { rewrite find_with_true in E. apply (found_known_secret _ (fun _ => true)) in E as (r' & -> & Hne & Hin).
    rewrite drop_app_length. intros [= <- <-]. exists x. auto. }
  clear E. destruct (startswith REDACTED s) eqn:E.
  { apply startswith_app in E as [r' ->]. rewrite drop_app_length. intros [= <- <-]. exists REDACTED. auto. }
  clear E. destruct (find _ _) as [x|] eqn:E.
  { rewrite find_with_true in E. apply (found_known_secret _ (fun _ => true)) in E as (r' & -> & Hne & Hin).
    rewrite drop_app_length. intros [= <- <-]. exists x. auto. }
  clear E. destruct (some_char _ _); [done|]. destruct (find _ _) as [x|] eqn:E; [|done].
  apply found_known_secret in E as (r' & -> & Hne & Hin). rewrite drop_app_length. intros [= <- <-]. exists x. auto.
Qed.

Lemma contains_text_split x s : contains_text x s = true -> exists a b, s = a ++ x ++ b.
Proof.
  induction s as [|c s IH]; cbn.
  - intros [H|?]%orb_true_iff; [|done]. apply startswith_app in H as (b & ->). by exists [], b.
  - intros [H|H]%orb_true_iff.
    + apply startswith_app in H as (b & E). by exists [], b.
    + destruct (IH H) as (a & b & ->). by exists (c :: a), b.
Qed.

(** ** Bounds *)

Lemma sanitize_string_length `{CaseFolding} value secrets limit :
  zlen (sanitize_string value secrets limit) <= Z.max limit (zlen truncation_marker).
Proof.
  unfold sanitize_string. destruct (Z.leb_spec (zlen (redact_string value secrets)) limit); [lia|].
  set (t := redact_string value secrets) in *. set (m := zlen truncation_marker).
  assert (Hm : m = 13) by done. set (available := Z.max 0 (limit - m)).
  assert (Ha : (available + 1) / 2 + (available - (available + 1) / 2) = available) by lia.
  assert (Hhead : 0 <= (available + 1) / 2 <= available).
  { split; [apply Z.div_pos; lia|]. destruct (Z.eq_dec available 0) as [->|]; [done|].
    apply Z.div_le_upper_bound; lia. }
  rewrite !zlen_app. fold m.
  assert (zlen (take (Z.to_nat ((available + 1) / 2)) t) <= (available + 1) / 2) by (unfold zlen; rewrite length_take; lia).
  assert (Htail : zlen (if available - (available + 1) / 2 =? 0 then []
      else drop (length t - Z.to_nat (available - (available + 1) / 2)) t) <= available - (available + 1) / 2).
  { destruct (Z.eqb_spec (available - (available + 1) / 2) 0) as [->|]; [done|].
    unfold zlen. rewrite length_drop. lia. }
  lia.
Qed.

(** *** Structured values *)
Section Values.
Context `{CaseFolding}.
Context (secrets trusted_keys : list pystr).

Definition generated_key (key : pystr) : Prop :=
  key = str "truncated" \/
  exists index, key = str "redacted_field_" ++ dec (Z.of_nat index) \/ key = str "redacted_key_" ++ dec (Z.of_nat index).

(** A key that may be shown *)
Definition public_key (key : pystr) : Prop :=
  In key trusted_keys \/ generated_key key \/ is_sensitive_key key = false /\ zlen key <= 256.

(** A value of at most so many levels of containers, all of them small *)
Inductive small : nat -> pyval -> Prop :=
  | small_none k : small k PNone
  | small_bool k b : small k (PBool b)
  | small_int k n : small k (PInt n)
  | small_float k f : isfinite f = true -> small k (PFloat f)
  | small_str k s : zlen s <= MAX_STRING_CHARS -> small k (PStr s)
  | small_list k l : (length l <= S MAX_COLLECTION_ITEMS)%nat -> Forall (small k) l -> small (S k) (PList l)
  | small_dict k d : (length d <= S MAX_COLLECTION_ITEMS)%nat -> Forall (fun p => public_key (fst p) /\ small k (snd p)) d ->
      small (S k) (PDict d).

(** Dates and names of types are short texts. *)
Fixpoint short_names (v : raw) : bool :=
  match v with
  | RDate iso => zlen iso <=? 64
  | ROther name => zlen name <=? 256
  | RList l => forallb short_names l
  | RDict d => forallb (fun p => short_names (snd p)) d
  | _ => true
  end.

Lemma key_text_public index k key : key_text secrets trusted_keys index k = Some key -> public_key key.
Proof.
  unfold key_text. destruct (str_in k trusted_keys) eqn:E; [intros [= <-]; left; by apply str_in_In|].
  destruct (is_sensitive_key k) eqn:Es; [done|]. intros [= <-]. right.
  destruct (str_eqb_spec (sanitize_string k secrets 256) k) as [Ek|_]; [right|left; right; eauto].
  pose proof (sanitize_string_length k secrets 256) as Hl. rewrite Ek in *. split; [done|].
  change (zlen truncation_marker) with 13 in Hl. lia.
Qed.

Lemma Forall_dict_set (P : pystr * pyval -> Prop) k v d : P (k, v) -> (forall k', P (k', v) \/ True) ->
  (forall v', P (k, v') -> P (k, v)) -> Forall P d -> Forall P (dict_set k v d).
Proof.
  intros Hp _ Hv. induction 1 as [|[k' v'] d Hd Hds IH]; cbn; [by repeat constructor|].
  destruct (str_eqb_spec k k') as [->|]; constructor; auto.
Qed.

Lemma dict_set_length (k : pystr) (v : pyval) d : (length (dict_set k v d) <= S (length d))%nat.
Proof. induction d as [|[k' v'] d IH]; cbn; [lia|]. destruct (str_eqb k k'); cbn; lia. Qed.

Lemma sanitize_items_small n (sanitize : raw -> pyval) items :
  (forall p, In p items -> small n (sanitize (snd p))) -> forall index result,
  (index <= MAX_COLLECTION_ITEMS)%nat -> (length result <= index)%nat ->
  Forall (fun p => public_key (fst p) /\ small n (snd p)) result ->
  let d := sanitize_items secrets trusted_keys sanitize index items result in
  (length d <= S MAX_COLLECTION_ITEMS)%nat /\ Forall (fun p => public_key (fst p) /\ small n (snd p)) d.
Proof.
  assert (set : forall k v d, public_key k -> small n v -> Forall (fun p => public_key (fst p) /\ small n (snd p)) d ->
    Forall (fun p => public_key (fst p) /\ small n (snd p)) (dict_set k v d)).
  { intros k v d Hk Hv. apply Forall_dict_set; [done|by right|done]. }
  assert (generated : forall k, generated_key k -> public_key k) by (intros k Hk; right; by left).
  induction items as [|[k v] items IH]; intros Hs index result Hi Hl Hr; cbn [sanitize_items].
  { split; [lia|done]. }
  destruct (Nat.leb_spec MAX_COLLECTION_ITEMS index) as [Hge|Hlt].
  { split; [|apply set; [apply generated; by left|constructor|done]]. pose proof (dict_set_length (str "truncated") (PBool true) result). lia. }
  destruct (key_text secrets trusted_keys index k) as [key|] eqn:Ek; apply IH; try lia.
  - intros p Hp. apply Hs. by right.
  - pose proof (dict_set_length key (sanitize v) result). lia.
  - apply set; [by eapply key_text_public|apply (Hs (k, v)); by left|done].
  - intros p Hp. apply Hs. by right.
  - pose proof (dict_set_length (str "redacted_field_" ++ dec (Z.of_nat index)) (PStr REDACTED) result). lia.
  - apply set; [apply generated; right; eauto|by constructor|done].
Qed.

Lemma sanitize_levels_small k : forall v, short_names v = true -> small k (sanitize_levels secrets trusted_keys k v).
Proof.
  induction k as [|k IH]; intros v Hv; cbn [sanitize_levels]; [by constructor|].
  destruct v as [|b|n|f|s|iso|l|d|name]; cbn [short_names] in Hv; try constructor.
  - destruct (isfinite f) eqn:E; constructor; [done|]. by destruct f as [|[]| |].
  - pose proof (sanitize_string_length s secrets MAX_STRING_CHARS) as Hl. change (zlen truncation_marker) with 13 in Hl.
    unfold MAX_STRING_CHARS in *. lia.
  - apply Z.leb_le in Hv. unfold MAX_STRING_CHARS. lia.
  - rewrite length_app, length_map, length_take. destruct (_ <? _)%nat; cbn [length]; lia.
  - apply Forall_app. split.
    + apply List.Forall_forall. intros x (y & <- & Hy)%in_map_iff. apply IH. rewrite forallb_forall in Hv. apply Hv.
      rewrite <- (take_drop MAX_COLLECTION_ITEMS l). apply in_or_app. by left.
    + destruct (_ <? _)%nat; repeat constructor. done.
  - eapply (proj1 (sanitize_items_small k (sanitize_levels secrets trusted_keys k) d _ 0 [] _ _ _)). 
  - eapply (proj2 (sanitize_items_small k (sanitize_levels secrets trusted_keys k) d _ 0 [] _ _ _)).
  - apply Z.leb_le in Hv. rewrite !zlen_app. change (zlen (str "[unsupported:")) with 13. change (zlen (str "]")) with 1.
    unfold MAX_STRING_CHARS. lia.
  Unshelve. all: try (cbn; lia); try constructor.
  all: intros p Hp; apply IH; rewrite forallb_forall in Hv; by apply (Hv p).
Qed.
End Values.

(** *** Loading *)

#[local] Hint Resolve incl_refl : core.

Lemma add_value_incl x values : incl values (add_value x values) /\ In x (add_value x values).
Proof.
  unfold add_value. destruct (str_in x values) eqn:E; [split; [done|by apply str_in_In]|].
  split; [by apply incl_appl|apply in_or_app; right; by left].
Qed.

Lemma add_plaintext_Ok value values values' : add_plaintext value values = Ok values' ->
  incl values values' /\ In value values' /\ MIN_EMBEDDED_SECRET_CHARS <= zlen value.
Proof.
  unfold add_plaintext. destruct value as [|c t]; [done|]. destruct (Z.ltb_spec (zlen (c :: t)) MIN_EMBEDDED_SECRET_CHARS); [done|].
  intros [= <-]. destruct (add_value_incl (c :: t) values). done.
Qed.

Lemma add_encrypted_Ok decrypt value values values' : add_encrypted decrypt value values = Ok values' ->
  incl values values' /\ exists v d plaintext, value = Some v /\ decrypt = Some d /\ d v = Ok plaintext /\
    In v values' /\ In plaintext values' /\ MIN_EMBEDDED_SECRET_CHARS <= zlen plaintext.
Proof.
  unfold add_encrypted. destruct value as [[|c t]|]; [done| |done]. destruct decrypt as [d|]; [|done].
  destruct (d (c :: t)) as [plaintext|e] eqn:E; [|by destruct (_ || _)].
  intros (H1 & H2 & H3)%add_plaintext_Ok. destruct (add_value_incl (c :: t) values) as [H4 H5].
  split; [intros x Hx; by apply H1, H4|]. exists (c :: t), d, plaintext. split_and!; try done. by apply H1.
Qed.

Lemma add_each_Ok {A} (add : A -> list pystr -> result (list pystr)) l :
  (forall x v v', add x v = Ok v' -> incl v v') -> forall values values', add_each add l values = Ok values' ->
  incl values values' /\ forall x, In x l -> exists v v', add x v = Ok v' /\ incl v' values'.
Proof.
  intros Hadd. induction l as [|y l IH]; intros values values'; cbn [add_each].
  - by intros [= <-].
  - intros (v1 & H1 & H2)%bind_Ok. destruct (IH _ _ H2) as [Hi Hx]. split.
    + intros z Hz. apply Hi. by eapply Hadd.
    + intros x [<-|Hin]; [by exists values, v1|auto].
Qed.

Section Load.
Context `{CaseFolding}.

Lemma add_header_Ok header values values' : add_header header values = Ok values' ->
  incl values values' /\ forall text, snd header = PStr text -> text <> [] ->
    (is_sensitive_key (fst header) = true -> In text values') /\
    forall scheme credential, partition_blank text = (scheme, true, credential) -> credential <> [] ->
      str_in (casefold scheme) [str "bearer"; str "basic"] = true -> In credential values'.
Proof.
  destruct header as [name value]. unfold add_header. destruct value as [| | | |[|c t]| |]; try (by intros [= <-]).
  { intros [= <-]. split; [done|]. by intros text [= <-]. }
  destruct (partition_blank (c :: t)) as [[scheme separator] credential] eqn:Ep.
  set (has := separator && _ && _). cbn [fst snd].
  assert (Hhas : forall s cr, partition_blank (c :: t) = (s, true, cr) -> cr <> [] ->
    str_in (casefold s) [str "bearer"; str "basic"] = true -> has = true /\ cr = credential).
  { intros s cr E Hcr Hs. rewrite Ep in E. injection E as -> -> ->. subst has. rewrite Hs. by destruct cr. }
  clearbody has. clear Ep. destruct (negb (is_sensitive_key name) && negb has) eqn:E.
  { intros [= <-]. split; [done|]. intros text [= <-] _. apply andb_true_iff in E as [E1 E2].
    apply negb_true_iff in E1, E2. split; [congruence|]. intros s cr E Hcr Hs. destruct (Hhas s cr E Hcr Hs). congruence. }
  intros (v1 & H1%add_plaintext_Ok & H2)%bind_Ok. destruct H1 as (Hi & Hin & _). destruct has.
  - apply add_plaintext_Ok in H2 as (Hi2 & Hin2 & _). split; [intros x Hx; by apply Hi2, Hi|].
    intros text [= <-] _. split; [intros _; by apply Hi2|]. intros s cr E' Hcr Hs. by destruct (Hhas s cr E' Hcr Hs) as [_ ->].
  - injection H2 as <-. split; [done|]. intros text [= <-] _. split; [done|].
    intros s cr E' Hcr Hs. by destruct (Hhas s cr E' Hcr Hs).
Qed.

Lemma add_provider_Ok decrypt row values values' : add_provider decrypt row values = Ok values' ->
  incl values values' /\ (exists v, add_encrypted decrypt (fst row) values = Ok v /\ incl v values') /\
  forall headers header, snd row = PDict headers -> In header headers -> exists v v', add_header header v = Ok v' /\ incl v' values'.
Proof.
  unfold add_provider. intros (v1 & H1 & H2)%bind_Ok. destruct (add_encrypted_Ok _ _ _ _ H1) as [Hi _].
  destruct (snd row) as [| | | | | |headers] eqn:E; try (injection H2 as <-; split_and!; eauto; done).
  apply add_each_Ok in H2 as [Hi2 Hx]; [|by intros x v v' [Hv _]%add_header_Ok].
  split; [intros x Hin; by apply Hi2, Hi|]. split; [eauto|]. intros hs header [= <-]. apply Hx.
Qed.
End Load.

(** ** Properties *)

Section Theorems.
Context `{CaseFolding}.

(** C28.  Configured secrets do not survive, and nothing else is hidden.  The text is
    cut into characters that are kept, in their places, and texts that the marker
    replaces, each of which is a configured secret or the marker itself; and a
    configured secret of three or more characters is never among the kept
    characters, unless it has fewer than eight and stands, in the text, next to a
    letter, a digit or an underscore. *)
Theorem configured_secrets_hidden value secrets : exists cuts,
  source_of cuts = value /\ replace_known_secrets value secrets = shown_of cuts /\
  Forall (fun c => match c with Cut s t => t = REDACTED /\ (In s secrets \/ s = REDACTED) | Kept _ => True end) cuts /\
  forall a secret b, cuts = a ++ map Kept secret ++ b -> In secret secrets -> MIN_EMBEDDED_SECRET_CHARS <= zlen secret ->
    zlen secret < 8 /\ (some_char identifier_char (last_char (source_of a)) || some_char identifier_char (hd_error (source_of b)) = true).
Proof.
  unfold replace_known_secrets, MIN_EMBEDDED_SECRET_CHARS. destruct (str_in value secrets) eqn:Hv.
  { exists [Cut value REDACTED]. unfold source_of, shown_of. cbn [map concat cut_source cut_shown]. rewrite !app_nil_r. split_and!; [done..| |].
    - constructor; [|constructor]. split; [done|]. left. by apply str_in_In.
    - intros a secret b Heq _ Hl. destruct secret as [|c secret]; [rewrite zlen_nil in Hl; lia|]. by destruct a as [|? [|]]. }
  destruct (cuts_of_sub _ _ (known_secret_takes secrets) (length value) None value) as (cuts & H1 & H2 & H3 & H4); [done|].
  exists cuts. split_and!; [done..|]. intros a secret b Heq Hin Hl.
  destruct secret as [|c rest] eqn:Hs; [rewrite zlen_nil in Hl; lia|]. specialize (H4 a c (map Kept rest ++ b)). specialize (H4 Heq). rewrite source_of_app, source_of_kept, app_comm_cons, <- Hs in H4. rewrite <- Hs in *. clear Hs Heq.
  assert (before None (source_of a) = last_char (source_of a)) as Hb by (unfold before; by destruct (last_char _)). rewrite Hb in H4.
  destruct (Z.lt_ge_cases (zlen secret) 8) as [Hlt|Hge]; [|by apply long_secret_matches in H4]. split; [done|].
  apply not_false_iff_true. intros [Hp Hn]%orb_false_elim. by apply short_secret_matches in H4.
Qed.

(** What the assistant is shown is small and names no secret: whatever the
    value, the sanitized one has at most eight levels of containers, each with
    at most 101 members, strings of at most 12000 characters and finite floats,
    and every key is trusted, was made up by the sanitizer, or is not the name
    of a secret and has at most 256 characters. *)
Theorem sanitized_value_small secrets trusted_keys value : short_names value = true ->
  small trusted_keys MAX_STRUCTURE_DEPTH (sanitize_value value secrets trusted_keys).
Proof. apply sanitize_levels_small. Qed.

(** Loading the configured secrets fails closed: it succeeds only when every
    stored secret could be decrypted; then every stored value, its plaintext,
    every header whose name is sensitive and every bearer or basic credential
    are among the values, none of them shorter than three characters where it
    was decrypted; otherwise it raises [SecretLoadError], whatever went wrong. *)
Theorem load_fails_closed rows decrypt :
  match load_known_secrets rows decrypt with
  | Raise e => exists m, e = SecretLoadError m
  | Ok values => exists r, rows = Ok r /\
      (forall stored, In stored (map fst (provider_rows r) ++ setting_rows r) ->
         exists v d plaintext, stored = Some v /\ decrypt = Some d /\ d v = Ok plaintext /\
           MIN_EMBEDDED_SECRET_CHARS <= zlen plaintext /\ In plaintext values /\ (v <> [] -> In v values)) /\
      (forall row headers name text, In row (provider_rows r) -> snd row = PDict headers ->
         In (name, PStr text) headers -> text <> [] ->
         (is_sensitive_key name = true -> In text values) /\
         forall scheme credential, partition_blank text = (scheme, true, credential) -> credential <> [] ->
           str_in (casefold scheme) [str "bearer"; str "basic"] = true -> In credential values)
  end.
Proof.
  unfold load_known_secrets. destruct (_ ≫= _) as [values|e] eqn:E; cbn [except].
  2:{ destruct e; eauto. }
  apply bind_Ok in E as (r & -> & E). apply bind_Ok in E as (v1 & H1 & E). apply bind_Ok in E as (v2 & H2 & [= <-]).
  apply add_each_Ok in H1 as [_ H1]; [|by intros x v v' [Hv _]%add_provider_Ok].
  apply add_each_Ok in H2 as [Hi H2]; [|by intros x v v' [Hv _]%add_encrypted_Ok].
  assert (shown : forall x, In x v2 -> x <> [] -> In x (ordered_secrets v2)) by (intros; by apply ordered_secrets_In).
  assert (stored_ok : forall stored v v', add_encrypted decrypt stored v = Ok v' -> incl v' v2 ->
    exists v d plaintext, stored = Some v /\ decrypt = Some d /\ d v = Ok plaintext /\
      MIN_EMBEDDED_SECRET_CHARS <= zlen plaintext /\ In plaintext (ordered_secrets v2) /\ (v <> [] -> In v (ordered_secrets v2))).
  { intros stored v v' (_ & x & d & plaintext & Hs & Hd & Hp & Hx & Hpl & Hlen)%add_encrypted_Ok Hincl.
    exists x, d, plaintext. split_and!; try done.
    - apply shown; [by apply Hincl|]. intros ->. rewrite zlen_nil in Hlen. by unfold MIN_EMBEDDED_SECRET_CHARS in Hlen.
    - intros Hne. apply shown; [by apply Hincl|done]. }
  exists r. split; [done|]. split.
  - intros stored [(row & <- & Hrow)%in_map_iff|Hs]%in_app_iff.
    + destruct (H1 _ Hrow) as (v & v' & (_ & (v0 & Hv0 & Hincl) & _)%add_provider_Ok & Hv').
      eapply stored_ok; [exact Hv0|]. intros x Hx. by apply Hi, Hv', Hincl.
    + destruct (H2 _ Hs) as (v & v' & Hv & Hv'). by eapply stored_ok.
  - intros row headers name text Hrow Hh Hin Hne.
    destruct (H1 _ Hrow) as (v & v' & (_ & _ & Hhs)%add_provider_Ok & Hv').
    destruct (Hhs _ _ Hh Hin) as (w & w' & (_ & Hw)%add_header_Ok & Hincl).
    destruct (Hw text eq_refl Hne) as [Hname Hauth]. cbn [fst] in Hname.
    assert (up : forall x, In x w' -> In x v2) by (intros x Hx; by apply Hi, Hv', Hincl).
    split; [intros Hn; apply shown; auto|]. intros scheme credential Ep Hc Hs. apply shown; [|done].
    apply up. by eapply Hauth.
Qed.
End Theorems.

(** *** ASCII text *)
Definition ascii_fold : CaseFolding := map (fun c => if is_upper c then c + 32 else c).

Example fold_key : is_sensitive_key (H := ascii_fold) (str "X-Magpie-APIKey") = true.
Proof. vm_compute. reflexivity. Qed.
Example plain_key : is_sensitive_key (H := ascii_fold) (str "max_tokens") = false.
Proof. vm_compute. reflexivity. Qed.
Example redacts_assignment :
  redact_string (H := ascii_fold) (str "x=1 password: hunter2, y") [] = str "x=1 [REDACTED], y".
Proof. vm_compute. reflexivity. Qed.

(** A credential assignment survives behind another label: a word that ends in
    a colon, or the scheme of an address, takes the assignment as its own value,
    and is returned as it was. *)
Theorem nested_assignment_survives : let fold := ascii_fold in
  redact_string (str "error: token=abc123") [] = str "error: token=abc123" /\
  redact_string (str "http://h/?api_key=abc123") [] = str "http://h/?api_key=abc123" /\
  redact_string (str "error token=abc123") [] = str "error [REDACTED]".
Proof. split_and!; vm_compute; reflexivity. Qed.

(** ** Witnesses *)

Lemma sanitized_value_small_witness : let fold := ascii_fold in
  let value := raw_of (PDict [(str "token", PStr (str "abc")); (str "log", PList [PStr (str "ok"); PInt 3])]) in
  short_names value = true /\ small (H := ascii_fold) [] MAX_STRUCTURE_DEPTH (sanitize_value (H := ascii_fold) value [] []).
Proof.
  cbn zeta. split; [reflexivity|].
  apply (sanitized_value_small (H := ascii_fold) [] [] (raw_of (PDict [(str "token", PStr (str "abc")); (str "log", PList [PStr (str "ok"); PInt 3])]))).
  reflexivity.
Defined.
