(* ===== verification/Traced.v ===== *)
(** * Programs that are traced

    Code that drives the operating system, written as a state monad with
    exceptions: a program keeps the state of its object, asks an environment
    whose answers the model does not fix (other threads, other processes and
    failures may intervene between any two calls), and records in order what it
    did.  [wp] is its weakest precondition and [emits] the composition of what
    programs do to the state and to the record. *)
From Stdlib Require Import ZArith Lia Bool.
From stdpp Require Import prelude.
From S2P Require Import Prelude.
Open Scope Z_scope.

Section Program.
Context {S Ev E : Type}.

Record tworld := mkWorld { state : S; env : E; trace : list Ev }.

Definition tprogram (A : Type) := tworld -> result A * tworld.

#[export] Instance program_ret : MRet tprogram := fun A a w => (Ok a, w).
#[export] Instance program_bind : MBind tprogram := fun A B f m w =>
  match m w with
  | (Ok a, w') => f a w'
  | (Raise e, w') => (Raise e, w')
  end.

Definition raise {A} (e : exn) : tprogram A := fun w => (Raise e, w).
Definition lift {A} (r : result A) : tprogram A := fun w => (r, w).

(** [try: m except (...) as e: ...], for the exceptions of a class *)
Definition catch {A} (m : tprogram A) (covers : exn -> bool) (handler : exn -> tprogram A) : tprogram A := fun w =>
  match m w with
  | (Raise e, w') => if covers e then handler e w' else (Raise e, w')
  | x => x
  end.

(** The exception that a block raised, if it is of the class *)
Definition attempt {A} (m : tprogram A) (covers : exn -> bool) : tprogram (A + exn) := fun w =>
  match m w with
  | (Ok a, w') => (Ok (inl a), w')
  | (Raise e, w') => if covers e then (Ok (inr e), w') else (Raise e, w')
  end.

(** [try: m finally: c] *)
Definition finally {A} (m : tprogram A) (c : tprogram unit) : tprogram A := fun w =>
  let '(r, w1) := m w in
  match c w1 with
  | (Ok _, w2) => (r, w2)
  | (Raise e, w2) => (Raise e, w2)
  end.

Definition ask {A} (q : E -> A * E) : tprogram A := fun w =>
  let '(a, e) := q (env w) in (Ok a, mkWorld (state w) e (trace w)).
Definition ask_result {A} (q : E -> result A * E) : tprogram A := fun w =>
  let '(a, e) := q (env w) in (a, mkWorld (state w) e (trace w)).
Definition log (x : Ev) : tprogram unit := fun w => (Ok tt, mkWorld (state w) (env w) (trace w ++ [x])).
Definition get_state : tprogram S := fun w => (Ok (state w), w).
Definition update (f : S -> S) : tprogram unit := fun w =>
  (Ok tt, mkWorld (f (state w)) (env w) (trace w)).

(** ** Reasoning *)

(** [m] ends in a result and a tworld that satisfy [Q]. *)
Definition wp {A} (m : tprogram A) (Q : result A -> tworld -> Prop) (w : tworld) : Prop := Q (fst (m w)) (snd (m w)).

Lemma wp_bind {A B} (m : tprogram A) (f : A -> tprogram B) Q w :
  wp m (fun r w' => match r with Ok a => wp (f a) Q w' | Raise e => Q (Raise e) w' end) w -> wp (m ≫= f) Q w.
Proof. unfold wp, mbind, program_bind. by destruct (m w) as [[a|e] w']. Qed.

Lemma wp_mono {A} (m : tprogram A) (Q R : result A -> tworld -> Prop) w :
  (forall r w', Q r w' -> R r w') -> wp m Q w -> wp m R w.
Proof. unfold wp. auto. Qed.

Lemma wp_catch {A} (m : tprogram A) (covers : exn -> bool) (handler : exn -> tprogram A) (Q : result A -> tworld -> Prop) w :
  wp m (fun r w' => match r with
                    | Raise e => if covers e then wp (handler e) Q w' else Q (Raise e) w'
                    | Ok a => Q (Ok a) w'
                    end) w -> wp (catch m covers handler) Q w.
Proof. unfold wp, catch. destruct (m w) as [[a|e] w']; cbn; [done|]. by destruct (covers e). Qed.

Lemma wp_attempt {A} (m : tprogram A) (covers : exn -> bool) Q w :
  wp m (fun r w' => match r with
                    | Raise e => if covers e then Q (Ok (inr e)) w' else Q (Raise e) w'
                    | Ok a => Q (Ok (inl a)) w'
                    end) w -> wp (attempt m covers) Q w.
Proof. unfold wp, attempt. destruct (m w) as [[a|e] w']; cbn; [done|]. by destruct (covers e). Qed.

Lemma wp_finally {A} (m : tprogram A) (c : tprogram unit) (Q : result A -> tworld -> Prop) w :
  wp m (fun r w1 => wp c (fun x w2 => Q (match x with Ok _ => r | Raise e => Raise e end) w2) w1) w ->
  wp (finally m c) Q w.
Proof. unfold wp, finally. destruct (m w) as [r w1]. cbn. by destruct (c w1) as [[[]|e] w2]. Qed.

Lemma wp_ask {A} (q : E -> A * E) Q w :
  (forall a e, q (env w) = (a, e) -> Q (Ok a) (mkWorld (state w) e (trace w))) -> wp (ask q) Q w.
Proof. unfold wp, ask. destruct (q (env w)) as [a e]. intros HQ. by apply HQ. Qed.

Lemma wp_ask_result {A} (q : E -> result A * E) Q w :
  (forall a e, q (env w) = (a, e) -> Q a (mkWorld (state w) e (trace w))) -> wp (ask_result q) Q w.
Proof. unfold wp, ask_result. destruct (q (env w)) as [a e]. intros HQ. by apply HQ. Qed.

Lemma wp_lift {A} (r : result A) (Q : result A -> tworld -> Prop) w : Q r w -> wp (lift r) Q w.
Proof. done. Qed.
Lemma wp_if {A} (b : bool) (m k : tprogram A) (Q : result A -> tworld -> Prop) w :
  (b = true -> wp m Q w) -> (b = false -> wp k Q w) -> wp (if b then m else k) Q w.
Proof. destruct b; auto. Qed.
Lemma wp_ret {A} (a : A) (Q : result A -> tworld -> Prop) w : Q (Ok a) w -> wp (mret a) Q w.
Proof. done. Qed.

(** A set of traces that holds the empty one and is closed under
    concatenation; and programs that change the state as [R] allows and add a
    trace of the set. *)
Class TraceSet (G : list Ev -> Prop) := {
  trace_nil : G [];
  trace_app : forall l k, G l -> G k -> G (l ++ k);
}.

Definition emits {A} (R : S -> S -> Prop) (G : list Ev -> Prop) (m : tprogram A) : Prop := forall w,
  wp m (fun _ w' => R (state w) (state w') /\ exists l, trace w' = trace w ++ l /\ G l) w.

#[export] Instance Forall_TraceSet (P : Ev -> Prop) : TraceSet (Forall P).
Proof. split; [constructor|]. intros. by apply Forall_app. Qed.

Section Emits.
Context {R : S -> S -> Prop} `{PreOrder S R}.
Context {G : list Ev -> Prop} `{TraceSet G}.

Lemma emits_still {A} (m : tprogram A) : (forall w, state (snd (m w)) = state w /\ trace (snd (m w)) = trace w) -> emits R G m.
Proof. intros Hm w. destruct (Hm w) as [Hj Ht]. split; [by rewrite Hj|]. exists []. rewrite app_nil_r. split; [done|apply trace_nil]. Qed.

Lemma emits_ret {A} (a : A) : emits R G (mret a).
Proof. by apply emits_still. Qed.
Lemma emits_raise {A} e : emits R G (raise (A := A) e).
Proof. by apply emits_still. Qed.
Lemma emits_lift {A} (r : result A) : emits R G (lift r).
Proof. by apply emits_still. Qed.
Lemma emits_get : emits R G get_state.
Proof. by apply emits_still. Qed.
Lemma emits_ask {A} (q : E -> A * E) : emits R G (ask q).
Proof. apply emits_still. intros w. unfold ask. by destruct (q (env w)). Qed.
Lemma emits_ask_result {A} (q : E -> result A * E) : emits R G (ask_result q).
Proof. apply emits_still. intros w. unfold ask_result. by destruct (q (env w)). Qed.
Lemma emits_update f : (forall s, R s (f s)) -> emits R G (update f).
Proof. intros Hf w. split; [apply Hf|]. exists []. cbn. rewrite app_nil_r. split; [done|apply trace_nil]. Qed.
Lemma emits_log x : G [x] -> emits R G (log x).
Proof. intros Hx w. split; [cbn; reflexivity|]. by exists [x]. Qed.

Lemma emits_bind {A B} (m : tprogram A) (f : A -> tprogram B) :
  emits R G m -> (forall a, emits R G (f a)) -> emits R G (m ≫= f).
Proof.
  intros Hm Hf w. apply wp_bind. eapply wp_mono; [|apply Hm].
  intros [a|e] w' (Hj & l & Ht & Hl); [|by eauto].
  eapply wp_mono; [|apply Hf]. intros r w2 (Hj2 & l2 & Ht2 & Hl2). split; [by etrans|].
  exists (l ++ l2). rewrite Ht2, Ht, app_assoc. split; [done|]. by apply trace_app.
Qed.

Lemma emits_catch {A} (m : tprogram A) covers h :
  emits R G m -> (forall e, emits R G (h e)) -> emits R G (catch m covers h).
Proof.
  intros Hm Hh w. apply wp_catch. eapply wp_mono; [|apply Hm].
  intros [a|e] w' (Hj & l & Ht & Hl); [by eauto|]. destruct (covers e); [|by eauto].
  eapply wp_mono; [|apply Hh]. intros r w2 (Hj2 & l2 & Ht2 & Hl2). split; [by etrans|].
  exists (l ++ l2). rewrite Ht2, Ht, app_assoc. split; [done|]. by apply trace_app.
Qed.

Lemma emits_finally {A} (m : tprogram A) (c : tprogram unit) :
  emits R G m -> emits R G c -> emits R G (finally m c).
Proof.
  intros Hm Hc w. apply wp_finally. eapply wp_mono; [|apply Hm].
  intros r w' (Hj & l & Ht & Hl). eapply wp_mono; [|apply Hc].
  intros x w2 (Hj2 & l2 & Ht2 & Hl2). split; [by etrans|].
  exists (l ++ l2). rewrite Ht2, Ht, app_assoc. split; [done|]. by apply trace_app.
Qed.

Lemma emits_if {A} (b : bool) (m k : tprogram A) : emits R G m -> emits R G k -> emits R G (if b then m else k).
Proof. by destruct b. Qed.

Lemma emits_attempt {A} (m : tprogram A) covers : emits R G m -> emits R G (attempt m covers).
Proof.
  intros Hm w. apply wp_attempt. eapply wp_mono; [|apply Hm].
  intros [a|e] w' Hw; [done|]. by destruct (covers e).
Qed.
End Emits.

Lemma emits_weaken {A} (R R' : S -> S -> Prop) (G K : list Ev -> Prop) (m : tprogram A) :
  (forall s s', R s s' -> R' s s') -> (forall l, G l -> K l) -> emits R G m -> emits R' K m.
Proof.
  intros HR HGK Hm w. eapply wp_mono; [|apply Hm]. intros r w' (Hj & l & Ht & Hl). split; [by apply HR|eauto].
Qed.

(** One step of a sequence, of which only the trace is known *)
Lemma wp_emits_step {A B} R (G : list Ev -> Prop) (m : tprogram A) (f : A -> tprogram B) Q w :
  emits R G m ->
  (forall a w' l, trace w' = trace w ++ l -> G l -> m w = (Ok a, w') -> wp (f a) Q w') ->
  (forall e w' l, trace w' = trace w ++ l -> G l -> Q (Raise e) w') -> wp (m ≫= f) Q w.
Proof.
  intros Hm Hf He. apply wp_bind. destruct (Hm w) as (_ & l & Ht & Hl). unfold wp at 1.
  destruct (m w) as [[a|e] w'] eqn:Em; cbn [fst snd] in *; [by eapply Hf|by eapply He].
Qed.

(** The trace that a continuation adds, after a part that is known *)
Lemma wp_emits_bind {A B} R (G : list Ev -> Prop) (K : list Ev -> tworld -> Prop) (m : tprogram A)
    (f : A -> tprogram B) (T : result B -> Prop) w :
  emits R G m ->
  (forall a w' l, R (state w) (state w') -> trace w' = trace w ++ l -> G l -> m w = (Ok a, w') ->
     wp (f a) (fun r w2 => T r -> exists k, trace w2 = trace w' ++ k /\ K (l ++ k) w2) w') ->
  (forall e w' l, R (state w) (state w') -> trace w' = trace w ++ l -> G l -> T (Raise e) -> K l w') ->
  wp (m ≫= f) (fun r w2 => T r -> exists l, trace w2 = trace w ++ l /\ K l w2) w.
Proof.
  intros Hm Hf He. apply wp_bind. destruct (Hm w) as (Hj & l & Ht & Hl). unfold wp at 1.
  destruct (m w) as [[a|e] w'] eqn:Em; cbn [fst snd] in *.
  - eapply wp_mono; [|by apply (Hf a w' l)]. cbn. intros r w2 Hk HT. destruct (Hk HT) as (k & Hk1 & Hk2).
    exists (l ++ k). rewrite Hk1, Ht, app_assoc. done.
  - intros HT. exists l. split; [done|]. by eapply He.
Qed.

(** ** Which exceptions a program raises *)
Definition raises {A} (P : exn -> Prop) (m : tprogram A) : Prop := forall w,
  match fst (m w) with Raise e => P e | Ok _ => True end.

Lemma raises_mono {A} (P Q : exn -> Prop) (m : tprogram A) : (forall e, P e -> Q e) -> raises P m -> raises Q m.
Proof. intros HPQ Hm w. specialize (Hm w). destruct (fst (m w)); auto. Qed.
Lemma raises_ret {A} P (a : A) : raises P (mret a).
Proof. by intros w. Qed.
Lemma raises_raise {A} (P : exn -> Prop) e : P e -> raises P (raise (A := A) e).
Proof. by intros He w. Qed.
Lemma raises_lift {A} (P : exn -> Prop) (r : result A) : (forall e, r = Raise e -> P e) -> raises P (lift r).
Proof. intros Hr w. cbn. destruct r; [done|by apply Hr]. Qed.
Lemma raises_get P : raises P get_state.
Proof. by intros w. Qed.
Lemma raises_update P f : raises P (update f).
Proof. by intros w. Qed.
Lemma raises_log P x : raises P (log x).
Proof. by intros w. Qed.
Lemma raises_ask {A} P (q : E -> A * E) : raises P (ask q).
Proof. intros w. unfold ask. by destruct (q (env w)). Qed.
Lemma raises_ask_result {A} (P : exn -> Prop) (q : E -> result A * E) :
  (forall e x, fst (q e) = Raise x -> P x) -> raises P (ask_result q).
Proof.
  intros Hq w. unfold ask_result. specialize (Hq (env w)). destruct (q (env w)) as [[a|x] e]; cbn in *; [done|].
  by apply Hq.
Qed.
Lemma raises_bind {A B} P (m : tprogram A) (f : A -> tprogram B) :
  raises P m -> (forall a, raises P (f a)) -> raises P (m ≫= f).
Proof.
  intros Hm Hf w. unfold mbind, program_bind. specialize (Hm w). destruct (m w) as [[a|e] w']; cbn in *; [|done].
  apply Hf.
Qed.
Lemma raises_if {A} P (b : bool) (m k : tprogram A) : raises P m -> raises P k -> raises P (if b then m else k).
Proof. by destruct b. Qed.
Lemma raises_catch {A} (P Q : exn -> Prop) (m : tprogram A) covers h :
  raises Q m -> (forall e, Q e -> covers e = false -> P e) ->
  (forall e, Q e -> covers e = true -> raises P (h e)) -> raises P (catch m covers h).
Proof.
  intros Hm Hn Hh w. unfold catch. specialize (Hm w). destruct (m w) as [[a|e] w']; cbn in *; [done|].
  destruct (covers e) eqn:Ec; [by apply Hh|]. by apply Hn.
Qed.
Lemma raises_attempt {A} (P Q : exn -> Prop) (m : tprogram A) covers :
  raises Q m -> (forall e, Q e -> covers e = false -> P e) -> raises P (attempt m covers).
Proof.
  intros Hm Hn w. unfold attempt. specialize (Hm w). destruct (m w) as [[a|e] w']; cbn in *; [done|].
  destruct (covers e) eqn:Ec; [done|]. by apply Hn.
Qed.
Lemma raises_finally {A} P (m : tprogram A) c : raises P m -> raises P c -> raises P (finally m c).
Proof.
  intros Hm Hc w. unfold finally. specialize (Hm w). destruct (m w) as [r w1]. specialize (Hc w1).
  destruct (c w1) as [[u|e] w2]; cbn in *; [|done]. by destruct r.
Qed.
End Program.
Arguments tworld S Ev E : clear implicits.
Arguments tprogram S Ev E A : clear implicits.

Create HintDb emits discriminated.
#[export] Hint Resolve emits_ret emits_raise emits_lift emits_get emits_ask emits_ask_result emits_log emits_update emits_bind
  emits_catch emits_attempt emits_finally : emits.
#[export] Hint Extern 1 (TraceSet _) => typeclasses eauto : emits.
#[export] Hint Extern 1 (PreOrder _) => typeclasses eauto : emits.

Create HintDb raises discriminated.
#[export] Hint Resolve raises_ret raises_raise raises_lift raises_get raises_update raises_log raises_ask
  raises_ask_result raises_bind raises_if raises_finally : raises.
