(* ===== verification/HostSystem.v ===== *)
(** * The operating system as the job runner uses it

    [host_agent/dgx_ops_agent/runner.py] drives processes, clocks, files and
    signals.  Here they are an interface, [System]: every call answers a value
    and a new environment.  What the runner did is recorded as a list of events. *)
From Stdlib Require Import ZArith Lia Bool String.
From Stdlib Require Import SpecFloat.
From stdpp Require Import prelude.
From S2P Require Import Prelude PyValue JobStore Traced.
Open Scope Z_scope.

(** ** The interface *)
Inductive signal := SIGTERM | SIGKILL | SIG0.

Class System (E : Type) := {
  (** [time.time()], [time.monotonic()], [secrets.token_urlsafe(32)] *)
  sys_time : E -> spec_float * E;
  sys_monotonic : E -> spec_float * E;
  sys_token : E -> pystr * E;
  (** [state.cancel_requested]: whether another thread has set it by now *)
  sys_cancelled : E -> bool * E;
  (** the file written, synchronised and renamed by [_persist] *)
  sys_save : pystr -> pystr -> E -> result unit * E;
  (** [subprocess.Popen(...)]: the process identifier *)
  sys_popen : E -> result Z * E;
  (** [write_request] to the launcher's pipe *)
  sys_handover : E -> result unit * E;
  (** [os.write(gate_descriptor, GO)]: the bytes written *)
  sys_gate : E -> result Z * E;
  (** [process.poll()] and [process.wait(timeout)], [None] while it runs *)
  sys_poll : E -> option Z * E;
  sys_wait : spec_float -> E -> option Z * E;
  (** [process.wait()] *)
  sys_wait_exit : E -> Z * E;
  (** [os.killpg] and [process.terminate]/[kill]: [Ok false] is
      [ProcessLookupError] *)
  sys_killpg : Z -> signal -> E -> result bool * E;
  sys_kill : signal -> E -> result bool * E;
  (** [process.stdout.read(4096)] of the reader thread, and how often that
      thread gets through its loop before the main thread goes on *)
  sys_read : E -> result bytes * E;
  sys_reader_turns : E -> nat * E;
  (** reading at most the given number of bytes of a file, [/proc]'s entries,
      [pidfd_open] and [pidfd_send_signal] *)
  sys_read_file : pystr -> Z -> E -> result bytes * E;
  sys_proc_names : E -> result (list pystr) * E;
  sys_pidfd_open : Z -> E -> result unit * E;
  sys_pidfd_signal : Z -> signal -> E -> result unit * E;
}.

(** ** What a program did *)
Inductive event :=
  | EPersist (s : JobState)
  | EPopen (pid : Z)
  | EIdentity (i : ProcessIdentity)
  | ECancelled (answer : bool)
  | EGo
  | EGateClosed
  | EClock (t : spec_float)
  | EKillpg (group : Z) (sent : signal)
  | EKill (sent : signal)
  | EExit (code : Z)
  | EFile (path : pystr) (content : result bytes)
  | EPidfd (pid : Z)
  | EPidfdSignal (pid : Z) (sent : signal).

(** ** Programs of the job runner: they keep the state of one job *)
Notation world E := (tworld JobState event E) (only parsing).
Notation program E := (tprogram JobState event E) (only parsing).
Notation job := state (only parsing).
Notation get_job := get_state (only parsing).

(** ** A system to try programs on

    Time is the number of calls so far.  A process that is started runs, and
    prints, until the given call, then exits with the code. *)
Definition scripted (files : pystr -> result bytes) (names : list pystr) (until : nat) (code : Z) : System nat := {|
  sys_time n := (float_of_Z (1700000000 + Z.of_nat n), S n);
  sys_monotonic n := (float_of_Z (Z.of_nat n), S n);
  sys_token n := (str "0123456789abcdefghijklmnopqrstuvwxyzABCDEFG", S n);
  sys_cancelled n := (false, S n);
  sys_save _ _ n := (Ok tt, S n);
  sys_popen n := (Ok 4242, S n);
  sys_handover n := (Ok tt, S n);
  sys_gate n := (Ok 1, S n);
  sys_poll n := (if (n <? until)%nat then None else Some code, S n);
  sys_wait _ n := (if (n <? until)%nat then None else Some code, S n);
  sys_wait_exit n := (code, S n);
  sys_killpg _ _ n := (Ok (n <? until)%nat, S n);
  sys_kill _ n := (Ok true, S n);
  sys_read n := (Ok (if (n <? until)%nat then str "loss 1.5" ++ [10] else []), S n);
  sys_reader_turns n := (1%nat, S n);
  sys_read_file path _ n := (files path, S n);
  sys_proc_names n := (Ok names, S n);
  sys_pidfd_open _ n := (Ok tt, S n);
  sys_pidfd_signal _ _ n := (Ok tt, S n);
|}.

Definition demo_stat : bytes := str "4242 (launcher) S 1 4242 4242 0 -1 4 0 0 0 0 0 0 0 0 20 0 1 0 98765 11".
Definition demo_boot_id : bytes := str "6f1d7a52-0c1b-4c53-a9a0-3d3c5f0e9b11" ++ [10].
Definition demo_files (path : pystr) : result bytes :=
  if str_eqb path (str "/proc/4242/stat") then Ok demo_stat
  else if str_eqb path (str "/proc/sys/kernel/random/boot_id") then Ok demo_boot_id
  else if str_eqb path (str "/proc/4242/environ")
       then Ok (str "A=b" ++ [0] ++ RECOVERY_ENVIRONMENT_KEY ++ str "=0123456789abcdefghijklmnopqrstuvwxyzABCDEFG" ++ [0])
  else Raise (OSError (str "no such file")).
