(* ===== verification/Recovery.v ===== *)
(** * Recovery of processes after an agent restart

    The part of [runner.py] that finds and stops the processes a previous
    agent left behind: reading [/proc], the identity of a job's process, and
    [_recover_with_pidfds], which must never signal a process of somebody
    else even when process identifiers are reused meanwhile. *)
From Stdlib Require Import ZArith Lia Bool String.
From Stdlib Require Import SpecFloat.
From stdpp Require Import prelude.
From S2P Require Import Prelude PyValue JobStore Traced HostSystem.
Open Scope Z_scope.

(** ** Parsing [/proc] *)

(** The text after the last [c] *)
Fixpoint after_last (c : Z) (s : pystr) : option pystr :=
  match s with
  | [] => None
  | x :: r => match after_last c r with Some t => Some t | None => if x =? c then Some r else None end
  end.

(** [s.split()] *)
Fixpoint words (s : pystr) : list pystr :=
  match s with
  | [] => []
  | c :: r =>
      if is_space c then words r
      else let more := words r in
           match r, more with
           | d :: _, w :: rest => if is_space d then [c] :: w :: rest else (c :: w) :: rest
           | _, _ => [[c]]
           end
  end.

(** The digits of [int(text)]: underscores may separate them. *)
Fixpoint int_digits (acc : list Z) (s : pystr) : option (list Z) :=
  match s with
  | [] => Some (rev acc)
  | [c] => if is_digit c then Some (rev (c :: acc)) else None
  | c :: ((u :: t) as r) =>
      if is_digit c then (if u =? 95 then match t with [] => None | _ => int_digits (c :: acc) t end
                          else int_digits (c :: acc) r)
      else None
  end.

(** [int(text)] of a word of ASCII characters *)
Definition parse_int (s : pystr) : option Z :=
  match s with
  | [] => None
  | c :: r =>
      let digits := if (c =? 43) || (c =? 45) then r else s in
      match digits, int_digits [] digits with
      | [], _ | _, None => None
      | _, Some l => Some (if c =? 45 then - digits_value l else digits_value l)
      end
  end.

Definition invalid_stat : exn := ValueError (str "invalid process stat").
Definition int_field (fields : list pystr) (n : nat) : result Z :=
  of_option (parse_int (nth n fields [])) (ValueError (str "invalid literal for int()")).

(** [raw.decode("ascii")] *)
Definition decode_ascii (b : bytes) : result pystr := if is_ascii b then Ok b else Raise (UnicodeError []).

(** [_read_linux_stat] on the file's bytes: process group, session and start
    time *)
Definition parse_stat (content : bytes) : result (Z * Z * Z) :=
  raw ← decode_ascii content;
  tail ← of_option (after_last 41 raw) invalid_stat;
  let fields := words tail in
  guard_exn (19 <? zlen fields) invalid_stat;;
  process_group ← int_field fields 2;
  session_id ← int_field fields 3;
  start_time_ticks ← int_field fields 19;
  guard_exn ((0 <? process_group) && (0 <? session_id) && (0 <? start_time_ticks)) invalid_stat;;
  Ok (process_group, session_id, start_time_ticks).

Definition parse_boot_id (content : bytes) : result pystr :=
  raw ← decode_ascii content;
  let value := strip raw in
  guard_exn (negb (zlen value =? 0) && (zlen value <=? 128) && is_ascii value) (ValueError (str "invalid boot id"));;
  Ok value.

(** Whether the environment block has the recovery token *)
Definition has_token (token : pystr) (content : bytes) : bool :=
  str_in (RECOVERY_ENVIRONMENT_KEY ++ [61] ++ token) (split_on 0 content).

Definition STAT_LIMIT : Z := 4096.
Definition BOOT_ID_LIMIT : Z := 128.
Definition ENVIRON_LIMIT : Z := 1048576.
Definition proc_file (name : pystr) (leaf : string) : pystr := str "/proc/" ++ name ++ str leaf.
Definition boot_id_path : pystr := str "/proc/sys/kernel/random/boot_id".

(** Whether the stat record is that of a process of the identity's session;
    the leader must also have started when the identity says. *)
Definition stat_matches (i : ProcessIdentity) (name : pystr) (stat : Z * Z * Z) : bool :=
  let '(process_group, session_id, start_time_ticks) := stat in
  bool_decide (Some process_group = pi_process_group i) && bool_decide (Some session_id = pi_session_id i)
  && negb (str_eqb name (dec (pi_pid i)) && negb (bool_decide (Some start_time_ticks = pi_start_time_ticks i))).

(** [except (OSError, ValueError)] *)
Definition io_or_value (e : exn) : bool := is_OSError e || is_ValueError e.

Section Recovery.
Context {E : Type} `{System E}.

(** [_read_limited_bytes] *)
Definition read_limited_bytes (path : pystr) (limit : Z) : program E bytes :=
  content ← attempt (ask_result (sys_read_file path (limit + 1))) (fun _ => true);
  match content with
  | inr e => _ ← log (EFile path (Raise e)); raise e
  | inl value =>
      _ ← log (EFile path (Ok value));
      if limit <? zlen value then raise (ValueError (str "process metadata is too large")) else mret value
  end.

Definition read_linux_stat (name : pystr) : program E (Z * Z * Z) :=
  content ← read_limited_bytes (proc_file name "/stat") STAT_LIMIT; lift (parse_stat content).

Definition read_boot_id : program E pystr :=
  content ← read_limited_bytes boot_id_path BOOT_ID_LIMIT; lift (parse_boot_id content).

(** [_proc_environment_has_token]: the token is encoded first *)
Definition proc_environment_has_token (name token : pystr) : program E bool :=
  _ ← lift (decode_ascii token);
  content ← read_limited_bytes (proc_file name "/environ") ENVIRON_LIMIT; mret (has_token token content).

(** [_capture_process_identity] *)
Definition capture_process_identity (is_linux : bool) (pid : Z) (token : pystr) : program E ProcessIdentity :=
  if negb is_linux then mret (mkIdentity pid None None None None token)
  else
    stat ← read_linux_stat (dec pid);
    boot_id ← read_boot_id;
    let '(process_group, session_id, start_time_ticks) := stat in
    if negb (process_group =? pid) || negb (session_id =? pid)
    then raise (ValueError (str "process did not create an isolated session"))
    else mret (mkIdentity pid (Some process_group) (Some session_id) (Some start_time_ticks) (Some boot_id) token).

(** [_recovery_process_matches] *)
Definition recovery_process_matches (i : ProcessIdentity) (name : pystr) : program E bool :=
  catch
    (stat ← read_linux_stat name;
     if stat_matches i name stat then proc_environment_has_token name (pi_recovery_token i) else mret false)
    io_or_value (fun _ => mret false).

(** The fields of an identity that recovery relies on *)
Definition identity_complete (i : ProcessIdentity) : option (Z * pystr) :=
  match pi_process_group i, pi_session_id i, pi_start_time_ticks i, pi_boot_id i with
  | Some g, Some s, Some _, Some b => if (pi_pid i =? g) && (g =? s) then Some (g, b) else None
  | _, _, _, _ => None
  end.

(** [_recovery_identity_is_current] *)
Definition recovery_identity_is_current (i : ProcessIdentity) : program E bool :=
  match identity_complete i with
  | None => mret false
  | Some (_, boot_id) =>
      catch (current ← read_boot_id; mret (str_eqb current boot_id)) io_or_value (fun _ => mret false)
  end.

(** [path.name.isdecimal()], for the ASCII names of the kernel *)
Definition is_decimal (name : pystr) : bool :=
  match name with [] => false | _ => forallb is_digit name end.

Fixpoint matching_names (i : ProcessIdentity) (names : list pystr) : program E (list Z) :=
  match names with
  | [] => mret []
  | name :: rest =>
      found ← recovery_process_matches i name;
      more ← matching_names i rest;
      mret (if found : bool then digits_value name :: more else more)
  end.

(** [_matching_recovery_pids] *)
Definition matching_recovery_pids (i : ProcessIdentity) : program E (list Z) :=
  names ← attempt (ask_result sys_proc_names) is_OSError;
  match names with
  | inr _ => mret []
  | inl names =>
      matching_names i (dec (pi_pid i)
        :: List.filter (fun name => is_decimal name && negb (str_eqb name (dec (pi_pid i)))) names)
  end.

(** [_signal_recovery_pids]: open, check again, then signal *)
Fixpoint signal_recovery_pids (i : ProcessIdentity) (process_ids : list Z) (sent : signal) : program E unit :=
  match process_ids with
  | [] => mret tt
  | pid :: rest =>
      opened ← attempt (ask_result (sys_pidfd_open pid)) is_OSError;
      _ ← match opened with
          | inr _ => mret tt
          | inl _ =>
              _ ← log (EPidfd pid);
              found ← recovery_process_matches i (dec pid);
              if found : bool then
                _ ← log (EPidfdSignal pid sent);
                _ ← attempt (ask_result (sys_pidfd_signal pid sent)) is_OSError; mret tt
              else mret tt
          end;
      signal_recovery_pids i rest sent
  end.

(** [time.monotonic()] *)
Definition monotonic : program E spec_float := t ← ask sys_monotonic; _ ← log (EClock t); mret t.

Definition plus (a b : spec_float) : spec_float := SFadd float_prec float_emax a b.

Definition out_of_fuel : exn := OtherException (str "out of fuel").

(** The loop of [_recover_with_pidfds]: [true] when the deadline has passed
    while members were left *)
Fixpoint recover_loop (fuel : nat) (i : ProcessIdentity) (deadline : spec_float) (terminated : list Z)
    : program E bool :=
  match fuel with
  | O => raise out_of_fuel
  | S k =>
      matching ← matching_recovery_pids i;
      match matching with
      | [] => mret false
      | _ =>
          let new_members := List.filter (fun p => negb (existsb (Z.eqb p) terminated)) matching in
          _ ← signal_recovery_pids i new_members SIGTERM;
          now ← monotonic;
          if SFleb deadline now then mret true
          else _ ← monotonic; recover_loop k i deadline (new_members ++ terminated)
      end
  end.

(** [_recover_with_pidfds]; [supported]: the interpreter has pidfd calls *)
Definition recover_with_pidfds (fuel : nat) (supported : bool) (grace : spec_float) (i : ProcessIdentity)
    : program E unit :=
  if negb supported then mret tt
  else
    current ← recovery_identity_is_current i;
    if negb current then mret tt
    else
      now ← monotonic;
      left ← recover_loop fuel i (plus now grace) [];
      if left : bool then
        matching ← matching_recovery_pids i; signal_recovery_pids i matching SIGKILL
      else mret tt.
End Recovery.

Example parse_stat_demo :
  parse_stat (str "42 (a) b) S 1 42 42 0 -1 4 0 0 0 0 0 0 0 0 20 0 1 0 98765 11") = Ok (42, 42, 98765).
Proof. vm_compute. reflexivity. Qed.

(** ** Every signal is preceded by a check *)

Definition stat_path (pid : Z) : pystr := proc_file (dec pid) "/stat".
Definition environ_path (pid : Z) : pystr := proc_file (dec pid) "/environ".

(** What was read shows that the process belongs to the job. *)
Definition verified (i : ProcessIdentity) (pid : Z) (stat_content environ_content : bytes) : Prop :=
  exists stat, parse_stat stat_content = Ok stat /\ stat_matches i (dec pid) stat = true /\
    has_token (pi_recovery_token i) environ_content = true.

(** Before each signal, and after opening the process's descriptor, its
    status and its environment were read and matched. *)
Definition signals_verified (i : ProcessIdentity) (l : list event) : Prop :=
  forall before pid sent after, l = before ++ EPidfdSignal pid sent :: after ->
  exists earlier stat_content environ_content,
    before = earlier ++ [EPidfd pid; EFile (stat_path pid) (Ok stat_content);
                         EFile (environ_path pid) (Ok environ_content)] /\
    verified i pid stat_content environ_content.

#[export] Instance signals_verified_set i : TraceSet (signals_verified i).
Proof.
  split; [intros [|? ?] ? ? ? [=]|].
  intros l k Hl Hk before pid sent after E. apply app_eq_app in E as (m & [[-> E]|[-> E]]).
  - destruct m as [|x m]; cbn in E.
    + destruct (Hk [] pid sent after) as (e & c1 & c2 & He & _); [by rewrite E|]. by destruct e.
    + injection E as <- ->. by apply (Hl before pid sent m).
  - destruct (Hk m pid sent after E) as (e & c1 & c2 & -> & Hv). exists (l ++ e), c1, c2. by rewrite app_assoc.
Qed.

(** Looking at files and clocks only *)
Definition reading (x : event) : Prop := match x with EFile _ _ | EClock _ => True | _ => False end.

(** A trace that signals nobody *)
Definition is_signal (x : event) : bool :=
  match x with EPidfdSignal _ _ | EKillpg _ _ | EKill _ => true | _ => false end.
Definition no_signal (x : event) : Prop := is_signal x = false.

Lemma reading_no_signal l : Forall reading l -> Forall no_signal l.
Proof. intros Hl. eapply Forall_impl; [exact Hl|]. by intros []. Qed.

Lemma no_signal_verified i l : Forall no_signal l -> signals_verified i l.
Proof.
  intros Hl before pid sent after ->. apply Forall_app in Hl as [_ Hl]. inversion Hl as [|x y Hx]. done.
Qed.

Section Proofs.
Context {E : Type} `{System E}.
Implicit Types (i : ProcessIdentity) (w : world E).

Lemma read_limited_spec path limit w :
  wp (read_limited_bytes path limit)
     (fun r w' => job w' = job w /\ exists x, trace w' = trace w ++ [EFile path x] /\
        forall c, r = Ok c -> x = Ok c /\ zlen c <= limit) w.
Proof.
  unfold read_limited_bytes. apply wp_bind, wp_attempt, wp_ask_result. intros x e _. cbn.
  destruct x as [value|x]; cbn.
  - apply wp_bind. cbn. destruct (limit <? zlen value) eqn:L; cbn; (split; [done|]); exists (Ok value);
      (split; [done|]); [done|]. intros c [= <-]. split; [done|]. lia.
  - apply wp_bind. cbn. split; [done|]. by exists (Raise x).
Qed.

Lemma read_limited_emits path limit : emits eq (Forall reading) (read_limited_bytes path limit).
Proof.
  intros w. eapply wp_mono; [|apply read_limited_spec]. cbn. intros r w' (Hj & x & Ht & _).
  split; [done|]. exists [EFile path x]. split; [done|]. by constructor.
Qed.

Lemma read_linux_stat_emits name : emits eq (Forall reading) (read_linux_stat name).
Proof. unfold read_linux_stat. eauto using read_limited_emits with emits. Qed.
Lemma read_boot_id_emits : emits eq (Forall reading) read_boot_id.
Proof. unfold read_boot_id. eauto using read_limited_emits with emits. Qed.
Lemma has_token_emits name token : emits eq (Forall reading) (proc_environment_has_token name token).
Proof. unfold proc_environment_has_token. eauto using read_limited_emits with emits. Qed.

Lemma matches_emits i name : emits eq (Forall reading) (recovery_process_matches i name).
Proof.
  unfold recovery_process_matches. apply emits_catch; [|auto with emits].
  apply emits_bind; [apply read_linux_stat_emits|]. intros stat.
  destruct (stat_matches i name stat); auto using has_token_emits with emits.
Qed.

Lemma current_emits i : emits eq (Forall reading) (recovery_identity_is_current i).
Proof.
  unfold recovery_identity_is_current. destruct (identity_complete i) as [[g b]|]; [|auto with emits].
  apply emits_catch; [|auto with emits]. eauto using read_boot_id_emits with emits.
Qed.

Lemma matching_names_emits i names : emits eq (Forall reading) (matching_names i names).
Proof. induction names; cbn; [auto with emits|]. eauto using matches_emits with emits. Qed.

Lemma matching_emits i : emits eq (Forall reading) (matching_recovery_pids i).
Proof.
  unfold matching_recovery_pids. apply emits_bind; [auto with emits|].
  intros [names|e]; [apply matching_names_emits|auto with emits].
Qed.

Lemma monotonic_emits : emits eq (Forall reading) monotonic.
Proof.
  unfold monotonic. apply emits_bind; [auto with emits|]. intros t.
  apply emits_bind; [apply emits_log; by constructor|auto with emits].
Qed.

(** A match was read from the process's files. *)
Lemma matches_spec i pid w :
  wp (recovery_process_matches i (dec pid))
     (fun r w' => job w' = job w /\ (r = Ok true -> exists c1 c2,
        trace w' = trace w ++ [EFile (stat_path pid) (Ok c1); EFile (environ_path pid) (Ok c2)] /\
        verified i pid c1 c2)) w.
Proof.
  assert (Hpar : forall r w', wp (recovery_process_matches i (dec pid)) (fun r1 w1 => r1 = r /\ w1 = w') w -> job w' = job w).
  { intros r w' Hw. pose proof (matches_emits i (dec pid) w) as Hm. unfold wp in *. destruct Hw as [_ <-]. symmetry. apply Hm. }
  enough (wp (recovery_process_matches i (dec pid)) (fun r w' => r = Ok true -> exists c1 c2,
        trace w' = trace w ++ [EFile (stat_path pid) (Ok c1); EFile (environ_path pid) (Ok c2)] /\
        verified i pid c1 c2) w) as Hw by (split; [eapply Hpar; done|exact Hw]).
  unfold recovery_process_matches, read_linux_stat. apply wp_catch, wp_bind, wp_bind.
  eapply wp_mono; [|apply read_limited_spec]. intros r w1 (_ & x & Ht & Hx).
  destruct r as [c1|e]; [|by destruct (io_or_value e)]. destruct (Hx c1 eq_refl) as [-> _].
  unfold wp at 1, lift. cbn [fst snd]. destruct (parse_stat c1) as [stat|e] eqn:P; [|by destruct (io_or_value e)].
  destruct (stat_matches i (dec pid) stat) eqn:M; [|done].
  unfold proc_environment_has_token. apply wp_bind. unfold wp at 1, lift. cbn [fst snd].
  destruct (decode_ascii _) as [t|e]; [|by destruct (io_or_value e)].
  apply wp_bind. eapply wp_mono; [|apply read_limited_spec]. intros r w2 (_ & x & Ht2 & Hx2).
  destruct r as [c2|e]; [|by destruct (io_or_value e)]. destruct (Hx2 c2 eq_refl) as [-> _].
  cbn. intros [= Htok]. exists c1, c2. rewrite Ht2, Ht, <- app_assoc. split; [done|]. by exists stat.
Qed.

Lemma signal_pids_emits i sent pids : emits eq (signals_verified i) (signal_recovery_pids i pids sent).
Proof.
  induction pids as [|pid pids IH]; cbn; [auto with emits|].
  apply emits_bind; [auto with emits|]. intros opened. apply emits_bind; [|done].
  destruct opened as [[]|e]; [|auto with emits].
  intros w. apply wp_bind. cbn. apply wp_bind.
  assert (Hquiet : forall w', wp (recovery_process_matches i (dec pid)) (fun _ w2 => job w' = job w2 /\
     exists l, trace w2 = trace w' ++ l /\ Forall reading l) w') by apply matches_emits.
  pose proof (matches_spec i pid (mkWorld (job w) (env w) (trace w ++ [EPidfd pid]))) as Hm.
  specialize (Hquiet (mkWorld (job w) (env w) (trace w ++ [EPidfd pid]))).
  unfold wp in Hm, Hquiet |- * at 1. cbn [fst snd] in *.
  destruct (recovery_process_matches i (dec pid) _) as [r w1]. cbn [fst snd job trace] in *.
  destruct Hquiet as (Hj & l & Ht & Hl). destruct Hm as [_ Hm].
  assert (Hns : Forall no_signal ([EPidfd pid] ++ l)) by (constructor; [done|by apply reading_no_signal]).
  destruct r as [[|]|e].
  - destruct (Hm eq_refl) as (c1 & c2 & Ht1 & Hv). apply wp_bind. cbn. apply wp_bind, wp_attempt, wp_ask_result.
    intros a e _. cbn.
    assert (Hend : exists l0, trace w1 ++ [EPidfdSignal pid sent] = trace w ++ l0 /\ signals_verified i l0).
    { exists ([EPidfd pid; EFile (stat_path pid) (Ok c1); EFile (environ_path pid) (Ok c2)] ++ [EPidfdSignal pid sent]).
      rewrite Ht1, <- !app_assoc. split; [done|]. intros before pid' sent' after E'.
      destruct before as [|x1 [|x2 [|x3 [|x4 b]]]]; cbn in E'; simplify_eq; [|by destruct b].
      by exists [], c1, c2. }
    destruct a as [u|x]; [|destruct (is_OSError x)]; done.
  - unfold wp, mret. cbn. split; [done|]. exists ([EPidfd pid] ++ l).
    rewrite Ht, <- app_assoc. split; [done|]. by apply no_signal_verified.
  - split; [done|]. exists ([EPidfd pid] ++ l). rewrite Ht, <- app_assoc. split; [done|]. by apply no_signal_verified.
Qed.

Lemma quiet_verified {A} i (m : program E A) : emits eq (Forall reading) m -> emits eq (signals_verified i) m.
Proof. apply emits_weaken; [done|]. intros l Hl. by apply no_signal_verified, reading_no_signal. Qed.

Lemma recover_loop_emits i deadline fuel : forall terminated,
  emits eq (signals_verified i) (recover_loop fuel i deadline terminated).
Proof.
  induction fuel as [|k IH]; intros terminated; cbn [recover_loop]; [auto with emits|].
  apply emits_bind; [apply quiet_verified, matching_emits|]. intros [|p matching]; [auto with emits|].
  apply emits_bind; [apply signal_pids_emits|]. intros _.
  apply emits_bind; [apply quiet_verified, monotonic_emits|]. intros now.
  destruct (SFleb deadline now); [auto with emits|].
  apply emits_bind; [apply quiet_verified, monotonic_emits|auto].
Qed.
Lemma capture_emits is_linux pid token : emits eq (Forall reading) (capture_process_identity is_linux pid token).
Proof.
  unfold capture_process_identity. destruct (negb is_linux); [auto with emits|].
  apply emits_bind; [apply read_linux_stat_emits|]. intros [[g s] t].
  apply emits_bind; [apply read_boot_id_emits|]. intros b. destruct (_ || _); auto with emits.
Qed.
End Proofs.

Section Properties.
Context {E : Type} `{System E}.
Implicit Types (i : ProcessIdentity) (w : world E).

Lemma recovery_is_current i w :
  wp (recovery_identity_is_current i)
     (fun r w' => r = Ok true -> exists g b c, identity_complete i = Some (g, b) /\
        trace w' = trace w ++ [EFile boot_id_path (Ok c)] /\ parse_boot_id c = Ok b) w.
Proof.
  unfold recovery_identity_is_current. destruct (identity_complete i) as [[g b]|]; [|done].
  unfold read_boot_id. apply wp_catch, wp_bind, wp_bind. eapply wp_mono; [|apply read_limited_spec].
  intros r w1 (_ & x & Ht & Hx). destruct r as [c|e]; [|by destruct (io_or_value e)].
  destruct (Hx c eq_refl) as [-> _]. unfold wp, lift. cbn [fst snd].
  destruct (parse_boot_id c) as [cur|e] eqn:P; [|by destruct (io_or_value e)].
  cbn. intros [= Hb%str_eqb_eq]. subst cur. by exists g, b, c.
Qed.

(** C36.  Recovery after a restart signals only processes of the job: every
    signal follows, after the process's descriptor was opened, a reading of
    its status and its environment in which the session, the start time of
    the leader and the recovery token match the saved identity (so a reused
    process identifier is never signalled); and nothing is signalled unless
    the identity is complete and the boot identifier read is the saved one. *)
Theorem recovery_signals_only_members fuel supported grace i w :
  exists l, trace (snd (recover_with_pidfds fuel supported grace i w)) = trace w ++ l /\
    signals_verified i l /\
    (Exists (fun x => is_signal x = true) l ->
     exists g b c rest, identity_complete i = Some (g, b) /\ l = EFile boot_id_path (Ok c) :: rest /\
       parse_boot_id c = Ok b).
Proof.
  assert (Hnone : forall l : list event, Forall no_signal l -> ~ Exists (fun x => is_signal x = true) l).
  { intros l Hl He. apply Exists_exists in He as (x & Hx & Hs). rewrite Forall_forall in Hl.
    specialize (Hl x Hx). unfold no_signal in Hl. congruence. }
  change (wp (recover_with_pidfds fuel supported grace i) (fun _ w' => exists l, trace w' = trace w ++ l /\
    signals_verified i l /\ (Exists (fun x => is_signal x = true) l ->
     exists g b c rest, identity_complete i = Some (g, b) /\ l = EFile boot_id_path (Ok c) :: rest /\
       parse_boot_id c = Ok b)) w).
  unfold recover_with_pidfds. destruct supported; cbn [negb].
  2: { exists []. rewrite app_nil_r. split; [done|]. split; [apply trace_nil|]. by intros ?%Exists_nil. }
  apply wp_bind. pose proof (current_emits i w) as Hq. pose proof (recovery_is_current i w) as Hc.
  unfold wp in Hq, Hc |- * at 1. destruct (recovery_identity_is_current i w) as [r w1]. cbn [fst snd] in *.
  destruct Hq as (_ & l & Ht & Hl).
  assert (Hquiet : exists l0, trace w1 = trace w ++ l0 /\ signals_verified i l0 /\
    (Exists (fun x => is_signal x = true) l0 -> exists g b c rest, identity_complete i = Some (g, b) /\
       l0 = EFile boot_id_path (Ok c) :: rest /\ parse_boot_id c = Ok b)).
  { apply reading_no_signal in Hl. exists l. split; [done|]. split; [by apply no_signal_verified|]. by intros ?%Hnone. }
  destruct r as [[|]|e]; [|exact Hquiet..]. destruct (Hc eq_refl) as (g & b & c & Hi & Ht1 & Hb).
  cbn [negb]. eapply wp_mono with (Q := fun _ w' => job w1 = job w' /\ exists l, trace w' = trace w1 ++ l /\ signals_verified i l).
  { intros r w2 (_ & k & Ht2 & Hk). exists (EFile boot_id_path (Ok c) :: k).
    rewrite Ht2, Ht1, <- app_assoc. split; [done|]. split; [|by exists g, b, c, k].
    apply (trace_app [EFile boot_id_path (Ok c)]); [|done]. apply no_signal_verified. by constructor. }
  revert w1 Ht1 Ht Hquiet Hc. intros w1 _ _ _ _. revert w1.
  change (emits eq (signals_verified i) (now ← monotonic; left ← recover_loop fuel i (plus now grace) [];
    if left : bool then matching ← matching_recovery_pids i; signal_recovery_pids i matching SIGKILL else mret tt)).
  apply emits_bind; [apply quiet_verified, monotonic_emits|]. intros now.
  apply emits_bind; [apply recover_loop_emits|]. intros [|]; [|auto with emits].
  apply emits_bind; [apply quiet_verified, matching_emits|]. intros. apply signal_pids_emits.
Qed.

(** What [_capture_process_identity] saves is what recovery looks for:
    on Linux the identity is complete, carries the boot identifier that was
    read, and the process whose status was read matches it, so a process that
    still has its session and its token is found again. *)
Theorem captured_identity_recoverable pid token i w w' :
  capture_process_identity true pid token w = (Ok i, w') ->
  exists stat_content boot_content stat,
    trace w' = trace w ++ [EFile (stat_path pid) (Ok stat_content); EFile boot_id_path (Ok boot_content)] /\
    parse_stat stat_content = Ok stat /\ stat_matches i (dec pid) stat = true /\
    identity_complete i <> None /\ Ok (pi_boot_id i) = (b ← parse_boot_id boot_content; Ok (Some b)) /\
    pi_pid i = pid /\ pi_recovery_token i = token.
Proof.
  intros Hcap.
  assert (Hw : wp (capture_process_identity true pid token) (fun r w1 => r = Ok i /\ w1 = w') w)
    by (unfold wp; rewrite Hcap; done).
  revert Hcap. intros _. revert Hw. unfold capture_process_identity, read_linux_stat, read_boot_id. cbn [negb].
  match goal with |- wp ?m ?Q w -> ?G => enough (wp m (fun r w1 => r = Ok i -> w1 = w' -> G) w) as Hg by
    (unfold wp in *; destruct (m w); naive_solver) end.
  apply wp_bind, wp_bind. eapply wp_mono; [|apply read_limited_spec]. intros r w1 (_ & x & Ht & Hx).
  destruct r as [c|e]; [|done]. destruct (Hx c eq_refl) as [-> _]. apply wp_lift.
  destruct (parse_stat c) as [[[g s] t]|e] eqn:P; [|done].
  apply wp_bind, wp_bind. eapply wp_mono; [|apply read_limited_spec]. intros r w2 (_ & y & Ht2 & Hy).
  destruct r as [c2|e]; [|done]. destruct (Hy c2 eq_refl) as [-> _]. apply wp_lift.
  destruct (parse_boot_id c2) as [b|e] eqn:B; [|done].
  destruct (negb (g =? pid) || negb (s =? pid)) eqn:Hg; [done|]. split_bools. subst g s.
  apply wp_ret. intros Hi <-. injection Hi as <-. exists c, c2, (pid, pid, t). rewrite Ht2, Ht, <- app_assoc. repeat split; try done.
  - unfold stat_matches. cbn. rewrite !bool_decide_eq_true_2 by done. by rewrite andb_false_r.
  - unfold identity_complete. cbn. by rewrite Z.eqb_refl.
  - cbn. by rewrite B.
Qed.
End Properties.

Definition demo_identity : ProcessIdentity :=
  mkIdentity 4242 (Some 4242) (Some 4242) (Some 98765) (Some (str "6f1d7a52-0c1b-4c53-a9a0-3d3c5f0e9b11"))
    (str "0123456789abcdefghijklmnopqrstuvwxyzABCDEFG").
Definition demo_host : System nat := scripted demo_files [str "1"; str "self"; str "4242"] 40 0.
Definition demo_world : world nat := mkWorld (new_job (str "job")) 0%nat [].

Example recovery_demo :
  List.filter is_signal
    (trace (snd (recover_with_pidfds (H := demo_host) 10 true (float_of_Z 5) demo_identity demo_world)))
  = [EPidfdSignal 4242 SIGTERM; EPidfdSignal 4242 SIGKILL].
Proof. vm_compute. reflexivity. Qed.

Lemma captured_identity_recoverable_witness :
  exists stat_content boot_content stat,
    trace (snd (capture_process_identity (H := demo_host) true 4242 (pi_recovery_token demo_identity) demo_world))
    = trace demo_world ++ [EFile (stat_path 4242) (Ok stat_content); EFile boot_id_path (Ok boot_content)] /\
    parse_stat stat_content = Ok stat /\ stat_matches demo_identity (dec 4242) stat = true /\
    identity_complete demo_identity <> None /\
    Ok (pi_boot_id demo_identity) = (b ← parse_boot_id boot_content; Ok (Some b)) /\
    pi_pid demo_identity = 4242 /\ pi_recovery_token demo_identity = pi_recovery_token demo_identity.
Proof.
  apply (captured_identity_recoverable (H := demo_host) 4242 (pi_recovery_token demo_identity) demo_identity demo_world).
  vm_compute. reflexivity.
Defined.
