(* ===== verification/JobRun.v ===== *)
(** * Running a job

    The worker thread of [runner.py]: [_run] with [_spawn_process],
    [_terminate], [_kill], [_finish], [_persist] and the output reader, over
    the system of [HostSystem.v].  The launcher's gate is the safety
    mechanism: the job's command starts only when the worker writes one byte,
    which it does only after the record that recovery needs is on disk. *)
From Stdlib Require Import ZArith Lia Bool String.
From Stdlib Require Import SpecFloat.
From stdpp Require Import prelude.
From S2P Require Import Prelude PyValue PyFloat Utf8 Json Redaction JobStore Traced HostSystem Recovery.
Open Scope Z_scope.

(** ** Errors as text *)

(** [type(exc).__name__] *)
Definition type_name (e : exn) : pystr :=
  str match e with
      | ValueError _ => "ValueError" | TypeError _ => "TypeError" | KeyError _ => "KeyError"
      | RuntimeError _ => "RuntimeError" | OSError _ => "OSError" | PermissionError _ => "PermissionError"
      | TimeoutError _ => "TimeoutError" | UnicodeError _ => "UnicodeError" | RecursionError => "RecursionError"
      | OverflowError _ => "OverflowError" | ProtocolError _ => "ProtocolError" | PolicyError _ => "PolicyError"
      | UnknownAction => "UnknownAction" | ApprovalRequired => "ApprovalRequired"
      | OperationTimeout _ => "OperationTimeout" | TaskPaused => "TaskPaused" | TaskCancelled => "TaskCancelled"
      | IntegrityError => "IntegrityError" | JSONDecodeError => "JSONDecodeError"
      | ResponsesTranslationError _ => "ResponsesTranslationError"
      | MultimodalRequestError _ => "MultimodalRequestError"
      | OpsAgentUnavailable => "OpsAgentUnavailable" | OpsAgentProtocolError => "OpsAgentProtocolError"
      | OpsAgentRemoteError _ => "OpsAgentRemoteError" | SecretLoadError _ => "SecretLoadError"
      | HTTPException _ _ => "HTTPException" | OtherException _ => "Exception"
      end.

(** [str(exc)] *)
Definition message (e : exn) : pystr :=
  match e with
  | ValueError m | TypeError m | KeyError m | RuntimeError m | OSError m | PermissionError m | TimeoutError m
  | UnicodeError m | OverflowError m | ProtocolError m | PolicyError m | OperationTimeout m | OtherException m
  | ResponsesTranslationError m | MultimodalRequestError m | SecretLoadError m | HTTPException _ m => m
  | OpsAgentUnavailable => str "Host operations agent is unavailable"
  | OpsAgentProtocolError => str "Host operations agent returned an invalid response"
  | OpsAgentRemoteError _ => str "Host operations agent returned an error"
  | RecursionError | UnknownAction | ApprovalRequired | TaskPaused | TaskCancelled | IntegrityError
  | JSONDecodeError => []
  end.

(** [_bounded_error]: the redacted text, cut at 512 bytes *)
Definition error_text (e : exn) : result pystr :=
  text ← redact_text (type_name e ++ str ": " ++ message e); bounded_error text.
#[global] Arguments error_text : simpl never.
#[global] Arguments is_terminal : simpl never.
#[global] Arguments metadata_text : simpl never.
#[global] Arguments finish_state : simpl never.
#[global] Arguments append_output : simpl never.

Definition is_RuntimeError (e : exn) : bool :=
  match e with
  | RuntimeError _ | RecursionError | OpsAgentUnavailable | OpsAgentProtocolError | OpsAgentRemoteError _
  | SecretLoadError _ => true
  | _ => false
  end.

(** [max(low, x)] and [max(grace, 0.1)] *)
Definition at_least (low x : spec_float) : spec_float := if SFltb low x then x else low.
Definition minus (a b : spec_float) : spec_float := SFsub float_prec float_emax a b.
Definition tenth : spec_float := parse_float (str "0.1").

(** The output reader: the redactor while the thread is alive, and the error
    it recorded *)
Record reader := mkReader { r_redactor : option redactor; r_error : option exn }.

(** How the gate was left *)
Inductive gate_outcome := GateOpened | GateCancelled | GateFailed (e : exn).

Section Run.
Context {E : Type} `{System E}.
(** the fuel of the waiting loops, [_HAS_PROCESS_GROUPS], [_IS_LINUX],
    [termination_grace] and [output_limit] *)
Context (fuel : nat) (has_process_groups is_linux : bool) (grace : spec_float) (output_limit : Z).

Definition check_cancelled : program E bool :=
  answer ← ask sys_cancelled; _ ← log (ECancelled answer); mret answer.

(** [_persist] *)
Definition persist : program E unit :=
  s ← get_job;
  text ← lift (metadata_text s);
  _ ← ask_result (sys_save (id s) text);
  log (EPersist s).

(** [_finish] *)
Definition finish_job (st : pystr) (code : option Z) (err : option pystr) : program E unit :=
  s ← get_job;
  if is_terminal s then mret tt
  else
    now ← ask sys_time;
    _ ← update (finish_state now st code err);
    persist.

(** [_process_group_exists] *)
Definition process_group_exists (group : Z) : program E bool :=
  answer ← attempt (ask_result (sys_killpg group SIG0))
             (fun e => match e with PermissionError _ => true | _ => false end);
  mret (match answer with inl found => found | inr _ => true end).

Definition send_group (group : Z) (sent : signal) : program E unit :=
  _ ← log (EKillpg group sent); _ ← ask_result (sys_killpg group sent); mret tt.
Definition send_process (sent : signal) : program E unit :=
  _ ← log (EKill sent); _ ← ask_result (sys_kill sent); mret tt.

(** The process group that signals go to, if the platform has groups *)
Definition target (group : option Z) : option Z := if has_process_groups then group else None.

Definition running : program E bool := code ← ask sys_poll; mret (match code with None => true | Some _ => false end).

(** [_kill] *)
Definition kill (group : option Z) : program E unit :=
  match target group with
  | Some g => send_group g SIGKILL
  | None => active ← running; if active : bool then send_process SIGKILL else mret tt
  end.

(** [while group exists and monotonic() < deadline: sleep] *)
Fixpoint await_group (n : nat) (group : Z) (deadline : spec_float) : program E unit :=
  match n with
  | O => raise out_of_fuel
  | S k =>
      exists_ ← process_group_exists group;
      if negb exists_ then mret tt
      else now ← monotonic; if SFltb now deadline then await_group k group deadline else mret tt
  end.

(** [_terminate] *)
Definition terminate (group : option Z) : program E unit :=
  start ← monotonic;
  let deadline := plus start grace in
  _ ← match target group with
      | Some g => found ← process_group_exists g; if found : bool then send_group g SIGTERM else mret tt
      | None => active ← running; if active : bool then send_process SIGTERM else mret tt
      end;
  now ← monotonic;
  _ ← ask (sys_wait (at_least (float_of_Z 0) (minus deadline now)));
  match target group with
  | Some g =>
      _ ← await_group fuel g deadline;
      found ← process_group_exists g;
      if found : bool then kill group else mret tt
  | None => active ← running; if active : bool then kill None else mret tt
  end.

(** [process.wait(timeout=max(grace, 0.1))], and when it expires [_kill] and
    [process.wait()]: the exit code *)
Definition wait_or_kill (group : option Z) : program E Z :=
  code ← ask (sys_wait (at_least grace tenth));
  match code with
  | Some c => _ ← log (EExit c); mret c
  | None => _ ← kill group; c ← ask sys_wait_exit; _ ← log (EExit c); mret c
  end.

Definition stop_process (group : option Z) : program E Z := _ ← terminate group; wait_or_kill group.

(** [_spawn_process]: the process, and whether there is a gate *)
Definition spawn_process : program E (Z * bool) :=
  pid ← ask_result sys_popen;
  _ ← log (EPopen pid);
  if negb has_process_groups then mret (pid, false)
  else
    sent ← attempt (ask_result sys_handover) (fun _ => true);
    match sent with
    | inl _ => mret (pid, true)
    | inr e => _ ← stop_process (Some pid); raise e
    end.

(** The preparation record; [false] when it could not be written, in which
    case the job has failed *)
Definition prepare (token : pystr) : program E bool :=
  if negb has_process_groups then mret true
  else
    s ← get_job;
    _ ← update (set_launch (Some (str "prepared")) (Some token) (process_identity s));
    saved ← attempt persist is_OSError;
    match saved with
    | inl _ => mret true
    | inr e =>
        now ← ask sys_time;
        text ← lift (error_text e);
        s ← get_job;
        _ ← update (set_outcome (str "failed") (exit_code s) (Some now) (Some text));
        _ ← attempt persist is_OSError;
        mret false
    end.

(** The state of a process that is about to start *)
Definition mark_running (pid : Z) (i : ProcessIdentity) (s : JobState) : JobState :=
  let s := set_process (Some pid) (if has_process_groups then Some pid else None) s in
  let s := set_outcome (str "running") (exit_code s) (finished s) (error s) s in
  set_launch (if has_process_groups then Some (str "ready") else launch_phase s) (recovery_token s) (Some i) s.

Definition close_gate (gate : bool) : program E unit := if gate then log EGateClosed else mret tt.

(** Opening the gate, unless the job was cancelled meanwhile *)
Definition open_gate (gate : bool) : program E gate_outcome :=
  if negb gate then mret GateOpened
  else
    cancelled ← check_cancelled;
    if cancelled : bool then _ ← log EGateClosed; mret GateCancelled
    else
      _ ← log EGo;
      written ← attempt (n ← ask_result sys_gate;
                         if n =? 1 then mret tt else raise (OSError (str "launcher gate write failed")))
                        is_OSError;
      _ ← log EGateClosed;
      mret (match written with inl _ => GateOpened | inr e => GateFailed e end).

(** [_append_output] *)
Definition append_persist (value : bytes) : program E unit :=
  match value with
  | [] => mret tt
  | _ => _ ← update (append_output output_limit value); persist
  end.

Definition reader_catches (e : exn) : bool := is_OSError e || is_ValueError e || is_RuntimeError e.

(** One turn of the loop of [_read_output] *)
Definition read_turn (r : redactor) : program E (option redactor) :=
  chunk ← ask_result sys_read;
  match chunk with
  | [] => let '(out, _) := Redaction.finish r in value ← lift out; _ ← append_persist value; mret None
  | _ => let '(out, r') := feed chunk r in value ← lift out; _ ← append_persist value; mret (Some r')
  end.

(** An exception ends the thread; those of the listed classes are recorded. *)
Definition reader_turn (r : reader) : program E reader :=
  match r_redactor r with
  | None => mret r
  | Some red =>
      x ← attempt (read_turn red) (fun _ => true);
      mret match x with
           | inl next => mkReader next (r_error r)
           | inr e => mkReader None (if reader_catches e then Some e else r_error r)
           end
  end.

Fixpoint reader_turns (n : nat) (r : reader) : program E reader :=
  match n with O => mret r | S k => r ← reader_turn r; reader_turns k r end.

(** The reader thread runs until the main thread's next step. *)
Definition let_reader_run (r : reader) : program E reader := n ← ask sys_reader_turns; reader_turns n r.

(** The monitoring loop of [_run]: the outcome, if it was cut short *)
Fixpoint monitor (n : nat) (group : option Z) (deadline : spec_float) (r : reader)
    : program E (option pystr * reader) :=
  match n with
  | O => raise out_of_fuel
  | S k =>
      leader_active ← running;
      group_active ← match group with Some g => process_group_exists g | None => mret false end;
      r ← let_reader_run r;
      let pipe_active := match r_redactor r with Some _ => true | None => false end in
      if negb leader_active && negb group_active && negb pipe_active then mret (None, r)
      else
        cancelled ← check_cancelled;
        if cancelled : bool then _ ← terminate group; mret (Some (str "cancelled"), r)
        else
          now ← monotonic;
          if SFleb deadline now then _ ← terminate group; mret (Some (str "timed_out"), r)
          else monitor k group deadline r
  end.

(** The outcome of a process that ended *)
Definition final_status (cut : option pystr) (code : Z) (err : option pystr) : pystr :=
  let outcome := match cut with
                 | Some o => o
                 | None => if code =? 0 then str "succeeded" else str "failed"
                 end in
  match err with
  | Some _ => if str_eqb outcome (str "succeeded") then str "failed" else outcome
  | None => outcome
  end.

(** From the opened gate to the end *)
Definition supervise (token : pystr) (group : option Z) (timeout : spec_float) : program E unit :=
  now ← monotonic;
  x ← monitor fuel group (plus now timeout) (mkReader (Some (new_redactor [token])) None);
  let '(cut, r) := x in
  code ← wait_or_kill group;
  r ← let_reader_run r;
  err ← match r_error r with Some e => text ← lift (error_text e); mret (Some text) | None => mret None end;
  finish_job (final_status cut code err) (Some code) err.

(** After the spawn: capture the identity, record it, open the gate *)
Definition start_process (token : pystr) (timeout : spec_float) (pid : Z) (gate : bool) : program E unit :=
  let group := if has_process_groups then Some pid else None in
  captured ← attempt (capture_process_identity is_linux pid token) io_or_value;
  match captured with
  | inr e =>
      _ ← close_gate gate;
      code ← stop_process group;
      _ ← update (set_process (Some pid) group);
      text ← lift (error_text e);
      finish_job (str "failed") (Some code) (Some text)
  | inl i =>
      _ ← log (EIdentity i);
      _ ← update (mark_running pid i);
      saved ← attempt persist is_OSError;
      match saved with
      | inr e =>
          _ ← close_gate gate;
          code ← stop_process group;
          _ ← attempt (text ← lift (error_text e); finish_job (str "failed") (Some code) (Some text)) is_OSError;
          mret tt
      | inl _ =>
          outcome ← open_gate gate;
          match outcome with
          | GateOpened => supervise token group timeout
          | GateCancelled =>
              code ← ask (sys_wait (at_least grace tenth));
              c ← match code with
                  | Some c => _ ← log (EExit c); mret c
                  | None => stop_process group
                  end;
              finish_job (str "cancelled") (Some c) None
          | GateFailed e =>
              code ← stop_process group;
              text ← lift (error_text e);
              finish_job (str "failed") (Some code) (Some text)
          end
      end
  end.

(** [_run] *)
Definition run (timeout : spec_float) : program E unit :=
  cancelled ← check_cancelled;
  if cancelled : bool then finish_job (str "cancelled") None None
  else
    now ← ask sys_time;
    _ ← update (set_started now);
    token ← ask sys_token;
    prepared ← prepare token;
    if negb prepared then mret tt
    else
      spawned ← attempt spawn_process io_or_value;
      match spawned with
      | inr e => text ← lift (error_text e); finish_job (str "failed") None (Some text)
      | inl (pid, gate) => start_process token timeout pid gate
      end.
End Run.

(** ** Properties *)

(** The worker never opens the gate in these events. *)
Definition not_go (x : event) : Prop := match x with EGo => False | _ => True end.
Notation quiet := (Forall not_go).

(** The launch fields of the job are kept. *)
Definition same_token (s s' : JobState) : Prop := recovery_token s = recovery_token s'.
Definition same_status (s s' : JobState) : Prop := status s = status s'.

#[export] Instance same_token_preorder : PreOrder same_token.
Proof. split; [done|]. intros x y z. unfold same_token. congruence. Qed.
#[export] Instance same_status_preorder : PreOrder same_status.
Proof. split; [done|]. intros x y z. unfold same_status. congruence. Qed.

Section Quiet.
Context {E : Type} `{System E}.
Context (fuel : nat) (has_process_groups is_linux : bool) (grace : spec_float) (output_limit : Z).

Ltac quiet_log := apply emits_log; by constructor.

Lemma check_cancelled_quiet : emits eq quiet check_cancelled.
Proof. unfold check_cancelled. apply emits_bind; [auto with emits|]. intros a. apply emits_bind; [quiet_log|auto with emits]. Qed.

Lemma persist_quiet : emits eq quiet persist.
Proof.
  unfold persist. apply emits_bind; [auto with emits|]. intros s. apply emits_bind; [auto with emits|]. intros t.
  apply emits_bind; [auto with emits|]. intros _. quiet_log.
Qed.

Lemma monotonic_quiet : emits eq quiet monotonic.
Proof. unfold monotonic. apply emits_bind; [auto with emits|]. intros t. apply emits_bind; [quiet_log|auto with emits]. Qed.

Lemma group_exists_quiet g : emits eq quiet (process_group_exists g).
Proof. unfold process_group_exists. auto with emits. Qed.

Lemma send_group_quiet g x : emits eq quiet (send_group g x).
Proof. unfold send_group. apply emits_bind; [quiet_log|auto with emits]. Qed.
Lemma send_process_quiet x : emits eq quiet (send_process x).
Proof. unfold send_process. apply emits_bind; [quiet_log|auto with emits]. Qed.
Lemma running_quiet : emits eq quiet running.
Proof. unfold running. auto with emits. Qed.
Hint Resolve check_cancelled_quiet persist_quiet monotonic_quiet group_exists_quiet send_group_quiet
  send_process_quiet running_quiet : emits.

Lemma kill_quiet g : emits eq quiet (kill has_process_groups g).
Proof.
  unfold kill. destruct (target has_process_groups g); [auto with emits|].
  apply emits_bind; [auto with emits|]. intros []; auto with emits.
Qed.
Hint Resolve kill_quiet : emits.

Lemma await_group_quiet n g d : emits eq quiet (await_group n g d).
Proof.
  induction n; cbn; [auto with emits|]. apply emits_bind; [auto with emits|]. intros []; cbn; [|auto with emits].
  apply emits_bind; [auto with emits|]. intros t. destruct (SFltb t d); auto with emits.
Qed.
Hint Resolve await_group_quiet : emits.

Lemma terminate_quiet g : emits eq quiet (terminate fuel has_process_groups grace g).
Proof.
  unfold terminate. apply emits_bind; [auto with emits|]. intros start.
  apply emits_bind.
  { destruct (target has_process_groups g); (apply emits_bind; [auto with emits|]); intros []; auto with emits. }
  intros _. apply emits_bind; [auto with emits|]. intros now. apply emits_bind; [auto with emits|]. intros _.
  destruct (target has_process_groups g).
  - apply emits_bind; [auto with emits|]. intros _. apply emits_bind; [auto with emits|]. intros []; auto with emits.
  - apply emits_bind; [auto with emits|]. intros []; auto with emits.
Qed.
Hint Resolve terminate_quiet : emits.

Lemma wait_or_kill_quiet g : emits eq quiet (wait_or_kill has_process_groups grace g).
Proof.
  unfold wait_or_kill. apply emits_bind; [auto with emits|]. intros [c|].
  - apply emits_bind; [quiet_log|auto with emits].
  - apply emits_bind; [auto with emits|]. intros _. apply emits_bind; [auto with emits|]. intros c.
    apply emits_bind; [quiet_log|auto with emits].
Qed.
Hint Resolve wait_or_kill_quiet : emits.

Lemma stop_process_quiet g : emits eq quiet (stop_process fuel has_process_groups grace g).
Proof. unfold stop_process. auto with emits. Qed.
Hint Resolve stop_process_quiet : emits.

Lemma spawn_quiet : emits eq quiet (spawn_process fuel has_process_groups grace).
Proof.
  unfold spawn_process. apply emits_bind; [auto with emits|]. intros pid. apply emits_bind; [quiet_log|]. intros _.
  destruct (negb has_process_groups); [auto with emits|].
  apply emits_bind; [auto with emits|]. intros [u|e]; auto with emits.
Qed.

Lemma close_gate_quiet gate : emits eq quiet (close_gate (E := E) gate).
Proof. unfold close_gate. destruct gate; [quiet_log|auto with emits]. Qed.

Lemma capture_quiet pid token : emits eq quiet (capture_process_identity is_linux pid token).
Proof. eapply emits_weaken; [..|apply capture_emits]; [done|]. intros l Hl. eapply Forall_impl; [exact Hl|]. by intros []. Qed.

Lemma kept {A} (R : JobState -> JobState -> Prop) `{!PreOrder R} (m : program E A) : emits eq quiet m -> emits R quiet m.
Proof. apply emits_weaken; [|done]. intros s s' ->. reflexivity. Qed.

Lemma finish_quiet st code err : emits same_token quiet (finish_job st code err).
Proof.
  unfold finish_job. apply emits_bind; [auto with emits|]. intros s. destruct (is_terminal s); [auto with emits|].
  apply emits_bind; [auto with emits|]. intros now. apply emits_bind; [|intros _; apply kept; [apply _|auto with emits]].
  apply emits_update. intros s'. unfold finish_state. by destruct (is_terminal s').
Qed.

(** What the reader does to the job *)
Lemma append_token limit v s : same_token s (append_output limit v s) /\ same_status s (append_output limit v s).
Proof. by destruct v. Qed.

Definition reader_frame (s s' : JobState) : Prop :=
  status s = status s' /\ recovery_token s = recovery_token s' /\ exit_code s = exit_code s' /\ error s = error s'.
#[local] Instance reader_frame_preorder : PreOrder reader_frame.
Proof. split; [done|]. intros x y z. unfold reader_frame. intuition congruence. Qed.

Lemma read_turn_quiet red : emits reader_frame quiet (read_turn output_limit red).
Proof.
  assert (Happ : forall v, emits reader_frame quiet (append_persist output_limit v)).
  { intros v. unfold append_persist. destruct v as [|b v]; [auto with emits|].
    apply emits_bind; [by apply emits_update|]. intros _. apply kept; [apply _|auto with emits]. }
  unfold read_turn. apply emits_bind; [auto with emits|]. intros [|b chunk].
  - destruct (Redaction.finish red) as [out r']. auto with emits.
  - destruct (feed (b :: chunk) red) as [out r']. auto with emits.
Qed.

Lemma reader_turns_quiet n : forall r, emits reader_frame quiet (reader_turns output_limit n r).
Proof.
  induction n as [|n IH]; intros r; cbn [reader_turns]; [auto with emits|].
  apply emits_bind; [|done]. unfold reader_turn.
  destruct (r_redactor r); [|auto with emits]. apply emits_bind; [apply emits_attempt, read_turn_quiet|auto with emits].
Qed.

Lemma let_reader_run_quiet r : emits reader_frame quiet (let_reader_run output_limit r).
Proof. unfold let_reader_run. apply emits_bind; [auto with emits|]. intros n. apply reader_turns_quiet. Qed.

Lemma monitor_quiet n g d : forall r, emits reader_frame quiet (monitor fuel has_process_groups grace output_limit n g d r).
Proof.
  induction n as [|n IH]; intros r; cbn [monitor]; [auto with emits|].
  apply emits_bind; [apply kept; [apply _|auto with emits]|]. intros leader.
  apply emits_bind; [destruct g; [apply kept; [apply _|auto with emits]|auto with emits]|]. intros group.
  apply emits_bind; [apply let_reader_run_quiet|]. intros r'.
  destruct (_ && _); [auto with emits|].
  apply emits_bind; [apply kept; [apply _|auto with emits]|]. intros [|].
  - apply emits_bind; [apply kept; [apply _|auto with emits]|auto with emits].
  - apply emits_bind; [apply kept; [apply _|auto with emits]|]. intros now. destruct (SFleb d now); [|done].
    apply emits_bind; [apply kept; [apply _|auto with emits]|auto with emits].
Qed.

Lemma supervise_quiet token g timeout :
  emits (fun _ _ => True) quiet (supervise fuel has_process_groups grace output_limit token g timeout).
Proof.
  assert (P : PreOrder (fun _ _ : JobState => True)) by (split; done).
  assert (any : forall A (R : JobState -> JobState -> Prop) (m : program E A), emits R quiet m -> emits (fun _ _ => True) quiet m).
  { intros A R m. by apply emits_weaken. }
  unfold supervise. apply emits_bind; [eapply any; auto with emits|]. intros now.
  apply emits_bind; [eapply any, monitor_quiet|]. intros [cut r].
  apply emits_bind; [eapply any; auto with emits|]. intros code.
  apply emits_bind; [eapply any, let_reader_run_quiet|]. intros r'.
  apply emits_bind; [destruct (r_error r'); auto with emits|]. intros err. eapply any, finish_quiet.
Qed.
End Quiet.

(** ** The gate *)

(** The record on disk when the gate opens lets a restarted agent find the
    process: it is running and ready, with the process's identity and the
    token the process carries. *)
Definition recoverable (s : JobState) (i : ProcessIdentity) : Prop :=
  status s = str "running" /\ launch_phase s = Some (str "ready") /\ process_identity s = Some i /\
  recovery_token s = Some (pi_recovery_token i) /\ process s = Some (pi_pid i).

(** The gate opens at most once, right after the record was written and the
    job was seen not to be cancelled. *)
Definition gated (l : list event) : Prop :=
  forall before after, l = before ++ EGo :: after ->
  Forall not_go before /\ Forall not_go after /\
  exists earlier s i, before = earlier ++ [EPersist s; ECancelled false] /\ In (EIdentity i) earlier /\ recoverable s i.

Lemma quiet_gated l : Forall not_go l -> gated l.
Proof. intros Hl before after ->. apply Forall_app in Hl as [_ Hl]. by inversion Hl. Qed.

Lemma gated_prepend l k : Forall not_go l -> gated k -> gated (l ++ k).
Proof.
  intros Hl Hk before after E. apply app_eq_app in E as (m & [[-> E]|[-> E]]).
  - destruct m as [|x m]; cbn in E.
    + rewrite app_nil_r in *. destruct (Hk [] after (eq_sym E)) as (_ & _ & e & s & i & He & _). by destruct e.
    + injection E as <- ->. apply Forall_app in Hl as [_ Hl]. by inversion Hl.
  - destruct (Hk m after E) as (H1 & H2 & e & s & i & -> & Hi & Hr).
    split; [by apply Forall_app|]. split; [done|]. exists (l ++ e), s, i. rewrite app_assoc.
    split; [done|]. split; [|done]. apply in_or_app. by right.
Qed.

Section Gate.
Context {E : Type} `{System E}.
Context (fuel : nat) (has_process_groups is_linux : bool) (grace : spec_float) (output_limit : Z).

(** The events that [m] adds, whatever it returns *)
Definition adds_gated {A} (m : program E A) (w : world E) : Prop :=
  wp m (fun _ w' => exists l, trace w' = trace w ++ l /\ gated l) w.

Lemma emits_gated {A} R (m : program E A) w : emits R quiet m -> adds_gated m w.
Proof. intros Hm. eapply wp_mono; [|apply Hm]. intros r w' (_ & l & Ht & Hl). exists l. split; [done|by apply quiet_gated]. Qed.

Lemma gated_bind {A B} R (m : program E A) (f : A -> program E B) w :
  emits R quiet m ->
  (forall a w', R (job w) (job w') -> m w = (Ok a, w') -> adds_gated (f a) w') -> adds_gated (m ≫= f) w.
Proof.
  intros Hm Hf.
  pose proof (wp_emits_bind R quiet (fun l _ => gated l) m f (fun _ => True) w Hm) as Hb.
  eapply wp_mono; [|apply Hb].
  - cbn. intros r w2 Hx. exact (Hx I).
  - intros a w' l HR Ht Hl Em. eapply wp_mono; [|by apply (Hf a w' HR Em)]. cbn.
    intros r w2 (k & Hk & Hg) _. exists k. split; [done|]. by apply gated_prepend.
  - intros. by apply quiet_gated.
Qed.

Lemma prepare_spec token w :
  wp (prepare has_process_groups token)
    (fun r w' => (exists l, trace w' = trace w ++ l /\ Forall not_go l) /\
       (r = Ok true -> has_process_groups = true -> recovery_token (job w') = Some token)) w.
Proof.
  assert (P : PreOrder (fun _ _ : JobState => True)) by (split; done).
  assert (any : forall A (m : program E A), emits eq quiet m -> emits (fun _ _ => True) quiet m).
  { intros A m. by apply emits_weaken. }
  assert (Hq : emits (fun _ _ => True) quiet (prepare (E := E) has_process_groups token)).
  { unfold prepare. destruct (negb has_process_groups); [auto with emits|].
    apply emits_bind; [auto with emits|]. intros s. apply emits_bind; [by apply emits_update|]. intros _.
    apply emits_bind; [apply any, emits_attempt, persist_quiet|]. intros [u|e]; [auto with emits|].
    apply emits_bind; [auto with emits|]. intros now. apply emits_bind; [auto with emits|]. intros text.
    apply emits_bind; [auto with emits|]. intros s'. apply emits_bind; [by apply emits_update|]. intros _.
    apply emits_bind; [apply any, emits_attempt, persist_quiet|auto with emits]. }
  assert (Ht : wp (prepare has_process_groups token)
    (fun r w' => r = Ok true -> has_process_groups = true -> recovery_token (job w') = Some token) w).
  { clear Hq. unfold prepare. destruct has_process_groups; cbn [negb]; [|by apply wp_ret].
    apply wp_bind. cbn. apply wp_bind. cbn. apply wp_bind.
    pose proof (emits_attempt (R := eq) persist is_OSError persist_quiet) as Hp.
    match goal with |- wp _ _ ?w0 => specialize (Hp w0) end. unfold wp in Hp |- * at 1.
    destruct (attempt _ _ _) as [r w1]. cbn [fst snd job] in *. destruct Hp as [Hj _].
    destruct r as [[u|e]|e]; [apply wp_ret; by rewrite <- Hj| |done].
    apply wp_bind, wp_ask. intros now e0 _. apply wp_bind, wp_lift. destruct (error_text e); [|done].
    apply wp_bind. cbn. apply wp_bind. cbn. apply wp_bind. unfold wp at 1.
    destruct (attempt _ _ _) as [[x|x] w2]; cbn; done. }
  specialize (Hq w). unfold wp in *. destruct Hq as (_ & l & ? & ?). eauto.
Qed.

Lemma open_gate_spec gate w :
  wp (open_gate gate) (fun r w' => job w' = job w /\ exists l, trace w' = trace w ++ l /\
    (Forall not_go l \/ gate = true /\ exists rest, l = ECancelled false :: EGo :: rest /\ Forall not_go rest)) w.
Proof.
  unfold open_gate. destruct gate; cbn [negb].
  2: { apply wp_ret. split; [done|]. exists []. rewrite app_nil_r. split; [done|]. left. constructor. }
  unfold check_cancelled. apply wp_bind, wp_bind, wp_ask. intros a e _. apply wp_bind. cbn.
  destruct a.
  - apply wp_bind. cbn. split; [done|]. exists [ECancelled true; EGateClosed]. rewrite <- app_assoc.
    split; [done|]. left. by repeat constructor.
  - apply wp_bind. cbn. apply wp_bind, wp_attempt, wp_bind, wp_ask_result. intros n e' _. cbn.
    assert (Hend : forall x, exists l, ((trace w ++ [ECancelled false]) ++ [EGo]) ++ x = trace w ++ l /\
      (Forall not_go x -> Forall not_go l \/ true = true /\ exists rest, l = ECancelled false :: EGo :: rest /\ Forall not_go rest)).
    { intros x. exists (ECancelled false :: EGo :: x). rewrite <- !app_assoc. split; [done|]. intros Hx. right. eauto. }
    destruct n as [n|x]; cbn.
    + destruct (n =? 1); unfold wp, mbind, program_bind; cbn; (split; [done|]);
        (destruct (Hend [EGateClosed]) as (l & -> & Hl); exists l; split; [done|]; apply Hl; by repeat constructor).
    + destruct (is_OSError x); unfold wp, mbind, program_bind; cbn; (split; [done|]).
      * destruct (Hend [EGateClosed]) as (l & -> & Hl). exists l. split; [done|]. apply Hl. by repeat constructor.
      * destruct (Hend []) as (l & E1 & Hl). rewrite app_nil_r in E1. rewrite E1. exists l. split; [done|].
        apply Hl. constructor.
Qed.

Lemma gated_intro earlier s i after :
  Forall not_go earlier -> Forall not_go after -> In (EIdentity i) earlier -> recoverable s i ->
  gated (earlier ++ [EPersist s; ECancelled false] ++ EGo :: after).
Proof.
  intros He Ha Hin Hr. set (pre := earlier ++ [EPersist s; ECancelled false]).
  assert (Hpre : Forall not_go pre) by (apply Forall_app; split; [done|by repeat constructor]).
  rewrite app_assoc. fold pre. intros before after' E'.
  assert (before = pre /\ after' = after) as [-> ->].
  { apply app_eq_app in E' as (m & [[Em E']|[Em E']]); destruct m as [|x m]; cbn in E'.
    - injection E' as ->. by rewrite Em, app_nil_r.
    - injection E' as <- ->. rewrite Em in Hpre. apply Forall_app in Hpre as [_ Hp]. by inversion Hp.
    - injection E' as ->. by rewrite Em, app_nil_r.
    - injection E' as <- ->. apply Forall_app in Ha as [_ Hp]. by inversion Hp. }
  split; [done|]. split; [done|]. by exists earlier, s, i.
Qed.

Lemma capture_token pid token w i w' : capture_process_identity is_linux pid token w = (Ok i, w') ->
  pi_pid i = pid /\ pi_recovery_token i = token.
Proof.
  unfold capture_process_identity, mbind, program_bind. destruct (negb is_linux); [by intros [= <- _]|].
  destruct (read_linux_stat (dec pid) w) as [[[[g s] t]|e] w1]; [|done].
  destruct (read_boot_id w1) as [[b|e] w2]; [|done].
  destruct (_ || _); [done|]. by intros [= <- _].
Qed.

Lemma any_job {A} R (m : program E A) : emits R quiet m -> emits (fun _ _ => True) quiet m.
Proof. by apply emits_weaken. Qed.

#[local] Instance any_preorder : PreOrder (fun _ _ : JobState => True).
Proof. split; done. Qed.

(** What follows the gate *)
Lemma after_gate_quiet token timeout group outcome :
  emits (fun _ _ => True) quiet
    (match outcome with
     | GateOpened => supervise (E := E) fuel has_process_groups grace output_limit token group timeout
     | GateCancelled =>
         code ← ask (sys_wait (at_least grace tenth));
         c ← match code with
             | Some c => _ ← log (EExit c); mret c
             | None => stop_process fuel has_process_groups grace group
             end;
         finish_job (str "cancelled") (Some c) None
     | GateFailed e =>
         code ← stop_process fuel has_process_groups grace group;
         text ← lift (error_text e);
         finish_job (str "failed") (Some code) (Some text)
     end).
Proof.
  destruct outcome as [| |e].
  - apply supervise_quiet.
  - apply emits_bind; [auto with emits|]. intros code. apply emits_bind.
    + destruct code; [apply emits_bind; [apply emits_log; by constructor|auto with emits]|].
      eapply any_job, stop_process_quiet.
    + intros c. eapply any_job, finish_quiet.
  - apply emits_bind; [eapply any_job, stop_process_quiet|]. intros code.
    apply emits_bind; [auto with emits|]. intros text. eapply any_job, finish_quiet.
Qed.

Lemma start_gated token timeout pid gate w :
  (gate = true -> has_process_groups = true /\ recovery_token (job w) = Some token) ->
  adds_gated (start_process fuel has_process_groups is_linux grace output_limit token timeout pid gate) w.
Proof.
  intros Hgate. unfold start_process.
  eapply gated_bind; [apply emits_attempt, capture_quiet|]. intros captured w1 Hj Hcap.
  destruct captured as [i|e].
  2: { apply (emits_gated (fun _ _ => True)). apply emits_bind; [eapply any_job, close_gate_quiet|]. intros _.
       apply emits_bind; [eapply any_job, stop_process_quiet|]. intros code.
       apply emits_bind; [by apply emits_update|]. intros _. apply emits_bind; [auto with emits|]. intros text.
       eapply any_job, finish_quiet. }
  assert (Hi : pi_pid i = pid /\ pi_recovery_token i = token).
  { unfold attempt in Hcap. destruct (capture_process_identity is_linux pid token w) as [[x|x] w2] eqn:Ec.
    - injection Hcap as -> ->. by eapply capture_token.
    - by destruct (io_or_value x). }
  unfold adds_gated. apply wp_bind. cbn. apply wp_bind. cbn.
  set (s := mark_running has_process_groups pid i (job w1)).
  set (w2 := mkWorld s (env w1) (trace w1 ++ [EIdentity i])).
  assert (quiet_end : forall A R (m : program E A) l w3, trace w3 = trace w1 ++ l -> Forall not_go l ->
    emits R quiet m -> wp m (fun _ w' => exists l, trace w' = trace w1 ++ l /\ gated l) w3).
  { intros A R m l w3 Ht Hl Hm. eapply wp_mono; [|apply Hm]. cbn. intros r w' (_ & k & Hk & Hq).
    exists (l ++ k). rewrite Hk, Ht, app_assoc. split; [done|]. apply quiet_gated. by apply Forall_app. }
  assert (Hsaved : wp (attempt persist is_OSError) (fun r w' => job w' = s /\
      match r with
      | Ok (inl _) => trace w' = trace w1 ++ [EIdentity i; EPersist s]
      | _ => trace w' = trace w1 ++ [EIdentity i]
      end) w2).
  { apply wp_attempt. unfold persist. apply wp_bind. cbn. apply wp_bind, wp_lift.
    destruct (metadata_text s) as [text|x].
    - apply wp_bind, wp_ask_result. intros [u|x] e' _; cbn; [by rewrite <- app_assoc|by destruct (is_OSError x)].
    - by destruct (is_OSError x). }
  apply wp_bind. eapply wp_mono; [|apply Hsaved]. clear Hsaved. intros r w3 (Hj3 & Ht3).
  destruct r as [[u|e]|e].
  - apply wp_bind. eapply wp_mono; [|apply open_gate_spec]. intros r w4 (Hj4 & l & Ht4 & Hl).
    assert (Hall : forall k, Forall not_go k -> gated ([EIdentity i; EPersist s] ++ l ++ k)).
    { intros k Hk. destruct Hl as [Hl|(Hg & rest & -> & Hrest)].
      - apply quiet_gated. apply Forall_app; split; [by repeat constructor|]. by apply Forall_app.
      - apply (gated_intro [EIdentity i] s i (rest ++ k)); [by repeat constructor|by apply Forall_app|by left|].
        destruct (Hgate Hg) as [Hgroups Htok]. rewrite Hj in Htok. destruct Hi as [<- <-].
        subst s. unfold mark_running. rewrite Hgroups. by repeat split. }
    rewrite Ht3, <- app_assoc in Ht4.
    destruct r as [outcome|e].
    + eapply wp_mono; [|apply after_gate_quiet]. cbn. intros r w5 (_ & k & Hk & Hq).
      exists ([EIdentity i; EPersist s] ++ l ++ k). rewrite Hk, Ht4, <- !app_assoc. auto.
    + exists ([EIdentity i; EPersist s] ++ l ++ []). rewrite Ht4, app_nil_r. split; [done|].
      rewrite <- (app_nil_r l). by apply Hall.
  - eapply (quiet_end _ (fun _ _ => True)); [exact Ht3|by repeat constructor|].
    apply emits_bind; [eapply any_job, close_gate_quiet|]. intros _.
    apply emits_bind; [eapply any_job, stop_process_quiet|]. intros code.
    apply emits_bind; [|auto with emits]. apply emits_attempt. apply emits_bind; [auto with emits|].
    intros text. eapply any_job, finish_quiet.
  - exists [EIdentity i]. split; [done|]. apply quiet_gated. by repeat constructor.
Qed.

(** C33.  The job's command starts only when it can be recovered: in every
    execution of [_run], whatever the system answers, the gate is opened at
    most once, immediately after the job was seen not to be cancelled, which
    is right after the record was stored in which the job is running and
    ready with the identity captured from the process and the recovery token
    that the process carries. *)
Theorem gate_opens_after_record timeout w :
  exists l, trace (snd (run fuel has_process_groups is_linux grace output_limit timeout w)) = trace w ++ l /\ gated l.
Proof.
  change (adds_gated (run fuel has_process_groups is_linux grace output_limit timeout) w).
  unfold run. eapply gated_bind; [apply check_cancelled_quiet|]. intros [|] w1 _ _.
  { eapply emits_gated, finish_quiet. }
  eapply gated_bind; [apply (emits_ask (R := eq))|]. intros now w2 _ _.
  eapply gated_bind; [by apply (emits_update (R := fun _ _ => True))|]. intros _ w3 _ _.
  eapply gated_bind; [apply (emits_ask (R := eq))|]. intros token w4 _ _.
  unfold adds_gated. apply wp_bind. eapply wp_mono; [|apply prepare_spec]. cbn. intros r w5 [(l & Ht & Hl) Htok].
  destruct r as [prepared|e]; [|exists l; split; [done|by apply quiet_gated]].
  assert (Hrest : adds_gated (if negb prepared then mret tt
    else spawned ← attempt (spawn_process fuel has_process_groups grace) io_or_value;
      match spawned with
      | inr e => text ← lift (error_text e); finish_job (str "failed") None (Some text)
      | inl (pid, gate) => start_process fuel has_process_groups is_linux grace output_limit token timeout pid gate
      end) w5).
  { destruct prepared; cbn [negb]; [|eapply emits_gated; by apply (emits_ret (R := eq))].
    eapply gated_bind; [apply emits_attempt, spawn_quiet|]. intros [[pid gate]|e] w6 Hj Hsp.
    - apply start_gated. intros ->. rewrite <- Hj.
      assert (has_process_groups = true); [|auto].
      unfold attempt, spawn_process, mbind, program_bind, ask_result, log in Hsp.
      destruct (sys_popen (env w5)) as [[p|x] e5]; cbn in Hsp; [|by destruct (io_or_value x)].
      by destruct has_process_groups.
    - apply (emits_gated (fun _ _ => True)). apply emits_bind; [auto with emits|]. intros text.
      eapply any_job, finish_quiet. }
  apply wp_mono with (Q := fun _ w' => exists l, trace w' = trace w5 ++ l /\ gated l); [|exact Hrest].
  intros r w6 (k & Hk & Hg). exists (l ++ k).
  rewrite Hk, Ht, app_assoc. split; [done|]. by apply gated_prepend.
Qed.
End Gate.

(** ** The outcome *)

Section Outcome.
Context {E : Type} `{System E}.
Context (fuel : nat) (has_process_groups is_linux : bool) (grace : spec_float) (output_limit : Z) (timeout : spec_float).

Lemma wp_and {A} (m : program E A) P Q w : wp m P w -> wp m Q w -> wp m (fun r w' => P r w' /\ Q r w') w.
Proof. done. Qed.

(** Why the job has the status it has *)
Definition reasons (l : list event) (s : JobState) : Prop :=
  (status s = str "succeeded" -> exit_code s = Some 0 /\ error s = None) /\
  (status s = str "cancelled" -> In (ECancelled true) l) /\
  (status s = str "timed_out" -> exists start now, In (EClock start) l /\ In (EClock now) l /\
     SFleb (plus start timeout) now = true).

(** ... and that its process was waited for *)
Definition reaped (l : list event) (s : JobState) : Prop := exists c, In (EExit c) l /\ exit_code s = Some c.

Lemma reasons_prepend l k s : reasons k s -> reasons (l ++ k) s.
Proof.
  intros (H1 & H2 & H3). split; [done|]. split; [intros ?; apply in_or_app; auto|].
  intros Ht. destruct (H3 Ht) as (a & b & Ha & Hb & Hle). exists a, b. split; [apply in_or_app; auto|].
  split; [apply in_or_app; auto|done].
Qed.

Lemma failed_reasons l s : status s = str "failed" -> reasons l s.
Proof. intros Hs. unfold reasons. rewrite !Hs. split_and!; intros [=]. Qed.

Lemma reaped_prepend l k s : reaped k s -> reaped (l ++ k) s.
Proof. intros (c & Hc & Hs). exists c. split; [apply in_or_app; auto|done]. Qed.

(** [_finish] on a job that has not ended: the state changes even when it
    cannot be stored. *)
Lemma finish_spec st code err w : is_terminal (job w) = false ->
  wp (finish_job st code err) (fun r w' =>
    status (job w') = st /\ exit_code (job w') = code /\ error (job w') = err /\
    exists l, trace w' = trace w ++ l /\ Forall not_go l /\ (r = Ok tt -> In (EPersist (job w')) l)) w.
Proof.
  intros Ht. unfold finish_job. apply wp_bind. cbn. rewrite Ht. apply wp_bind, wp_ask. intros now e _.
  apply wp_bind. cbn. unfold finish_state. rewrite Ht. unfold persist. apply wp_bind. cbn.
  assert (Hnone : forall (t : list event) x, exists l, t = t ++ l /\ Forall not_go l /\ (@Raise unit x = Ok tt -> In (EPersist (job w)) l)).
  { intros t x. exists []. by rewrite app_nil_r. }
  apply wp_bind, wp_lift. destruct (metadata_text _) as [text|x].
  - apply wp_bind, wp_ask_result. intros [u|x] e' _; cbn; (split; [done|]); (split; [done|]); (split; [done|]).
    + eexists. split; [reflexivity|]. split; [by repeat constructor|]. by left.
    + exists []. by rewrite app_nil_r.
  - cbn. split_and!; try done. exists []. by rewrite app_nil_r.
Qed.

Lemma wait_spec g w :
  wp (wait_or_kill has_process_groups grace g)
    (fun r w' => forall c, r = Ok c -> exists l, trace w' = trace w ++ l /\ In (EExit c) l) w.
Proof.
  unfold wait_or_kill. apply wp_bind, wp_ask. intros [c|] e _.
  - apply wp_bind. cbn. intros ? [= <-]. eexists. split; [reflexivity|by left].
  - apply wp_bind. destruct (kill_quiet has_process_groups g (mkWorld (job w) e (trace w))) as (_ & l & Ht & _).
    unfold wp at 1. destruct (kill _ _ _) as [[u|x] w1]; [|done]. cbn [fst snd trace] in *.
    apply wp_bind, wp_ask. intros c e' _. apply wp_bind. cbn. intros ? [= <-].
    exists (l ++ [EExit c]). rewrite Ht, app_assoc. split; [done|]. apply in_or_app. right. by left.
Qed.

Lemma stop_spec g w :
  wp (stop_process fuel has_process_groups grace g)
    (fun r w' => forall c, r = Ok c -> exists l, trace w' = trace w ++ l /\ In (EExit c) l) w.
Proof.
  unfold stop_process. apply wp_bind. destruct (terminate_quiet fuel has_process_groups grace g w) as (_ & l & Ht & _).
  unfold wp at 1. destruct (terminate _ _ _ _ _) as [[u|x] w1]; [|done]. cbn [fst snd] in *.
  eapply wp_mono; [|apply wait_spec]. intros r w2 Hr c Hc. destruct (Hr c Hc) as (k & Hk & Hin).
  exists (l ++ k). rewrite Hk, Ht, app_assoc. split; [done|]. apply in_or_app. by right.
Qed.

(** Why the monitor stopped *)
Definition cut_reason (deadline : spec_float) (l : list event) (cut : option pystr) : Prop :=
  match cut with
  | None => True
  | Some o => o = str "cancelled" /\ In (ECancelled true) l \/
              o = str "timed_out" /\ exists now, In (EClock now) l /\ SFleb deadline now = true
  end.

Lemma cut_reason_prepend d l k cut : cut_reason d k cut -> cut_reason d (l ++ k) cut.
Proof.
  destruct cut as [o|]; [|done]. intros [[-> Hc]|[-> (t & Ht & Hl)]]; [left|right]; (split; [done|]).
  - apply in_or_app. by right.
  - exists t. split; [apply in_or_app; by right|done].
Qed.

Lemma monitor_spec n g d : forall r w,
  wp (monitor fuel has_process_groups grace output_limit n g d r)
    (fun x w' => is_ok x = true -> exists l, trace w' = trace w ++ l /\
       forall cut r', x = Ok (cut, r') -> cut_reason d l cut) w.
Proof.
  induction n as [|n IH]; intros r w; cbn [monitor]; [done|].
  set (K := fun (x : result (option pystr * reader)) (l : list event) => forall cut r', x = Ok (cut, r') -> cut_reason d l cut).
  assert (seq : forall A R (m : program E A) f w0, emits R quiet m ->
     (forall a w1, m w0 = (Ok a, w1) -> wp (f a) (fun x w' => is_ok x = true -> exists l, trace w' = trace w1 ++ l /\ K x l) w1) ->
     wp (m ≫= f) (fun x w' => is_ok x = true -> exists l, trace w' = trace w0 ++ l /\ K x l) w0).
  { intros A R m f w0 Hm Hf. apply wp_bind. destruct (Hm w0) as (_ & l & Ht & _). unfold wp at 1.
    destruct (m w0) as [[a|e] w1] eqn:Em; [|done]. cbn [fst snd] in *.
    eapply wp_mono; [|by apply Hf]. intros x w2 Hx Hok. destruct (Hx Hok) as (k & Hk & HK).
    exists (l ++ k). rewrite Hk, Ht, app_assoc. split; [done|]. intros cut r' Hcut.
    eapply cut_reason_prepend, HK, Hcut. }
  fold K. eapply seq; [apply running_quiet|]. intros leader w1 _.
  eapply seq; [destruct g; [apply group_exists_quiet|by apply (emits_ret (R := eq))]|]. intros group w2 _.
  eapply seq; [apply let_reader_run_quiet|]. intros r1 w3 _.
  destruct (negb leader && negb group && _).
  { apply wp_ret. intros _. exists []. rewrite app_nil_r. split; [done|]. by intros cut r' [= <- _]. }
  assert (Hcut : forall o w4 (m : program E unit) l0, emits eq quiet m -> cut_reason d l0 (Some o) ->
    wp (m ≫= fun _ => mret (Some o, r1)) (fun x w' => is_ok x = true ->
      exists l, trace w' = trace w4 ++ l /\ K x (l0 ++ l)) w4).
  { intros o w4 m l0 Hm Ho. apply wp_bind. destruct (Hm w4) as (_ & l & Ht & _). unfold wp at 1.
    destruct (m w4) as [[u|e] w5]; [|done]. cbn [fst snd] in *. apply wp_ret. intros _. exists l.
    split; [done|]. intros cut r' [= <- _]. destruct Ho as [[-> Hc]|[-> (t & Ht' & Hl)]]; [left|right]; (split; [done|]).
    - apply in_or_app. by left.
    - exists t. split; [apply in_or_app; by left|done]. }
  unfold check_cancelled. apply wp_bind, wp_bind, wp_ask. intros a e _. apply wp_bind. cbn.
  destruct a.
  - eapply wp_mono; [|apply (Hcut (str "cancelled") _ _ [ECancelled true]); [apply terminate_quiet|left; split; [done|by left]]].
    cbn. intros x w' Hx Hok. destruct (Hx Hok) as (l & Ht & HK). exists ([ECancelled true] ++ l).
    rewrite Ht, <- app_assoc. done.
  - unfold monotonic. apply wp_bind, wp_bind, wp_ask. intros now e' _. apply wp_bind. cbn.
    destruct (SFleb d now) eqn:Hd.
    + eapply wp_mono; [|apply (Hcut (str "timed_out") _ _ [ECancelled false; EClock now]); [apply terminate_quiet|right]].
      * cbn. intros x w' Hx Hok. destruct (Hx Hok) as (l & Ht & HK). exists ([ECancelled false; EClock now] ++ l).
        rewrite Ht, <- !app_assoc. done.
      * split; [done|]. exists now. split; [right; by left|done].
    + eapply wp_mono; [|apply IH]. cbn. intros x w' Hx Hok. destruct (Hx Hok) as (l & Ht & HK).
      exists ([ECancelled false; EClock now] ++ l). rewrite Ht, <- !app_assoc. split; [done|].
      intros cut r' Hc. eapply cut_reason_prepend, HK, Hc.
Qed.

Lemma final_status_reasons cut code err : (forall o, cut = Some o -> o = str "cancelled" \/ o = str "timed_out") ->
  str_in (final_status cut code err) TERMINAL_STATUSES = true /\
  (final_status cut code err = str "succeeded" -> code = 0 /\ err = None) /\
  (final_status cut code err = str "cancelled" -> cut = Some (str "cancelled")) /\
  (final_status cut code err = str "timed_out" -> cut = Some (str "timed_out")).
Proof.
  intros Hc. unfold final_status.
  assert (Hcut : cut = None \/ cut = Some (str "cancelled") \/ cut = Some (str "timed_out")).
  { destruct cut as [o|]; [|by left]. right. destruct (Hc o eq_refl) as [-> | ->]; auto. }
  destruct Hcut as [-> |[-> | ->]]; [destruct (Z.eqb_spec code 0)|..]; destruct err; vm_compute; split_and!; intros; naive_solver.
Qed.

Definition concluded (l : list event) (s : JobState) : Prop := is_terminal s = true /\ reasons l s /\ reaped l s.

Lemma terminal_str s : str_in (status s) TERMINAL_STATUSES = true -> is_terminal s = true.
Proof. done. Qed.

Lemma not_terminal s : status s = str "running" \/ status s = str "queued" -> is_terminal s = false.
Proof. unfold is_terminal. by intros [-> | ->]. Qed.

(** A part that is known, then the rest *)
Lemma then_concluded {A} R (m : program E A) (f : A -> program E unit) (K : list event -> JobState -> Prop) w :
  (forall s s', R s s' -> same_status s s') -> emits R quiet m ->
  (forall a w' l, status (job w') = status (job w) -> trace w' = trace w ++ l -> Forall not_go l -> m w = (Ok a, w') ->
     wp (f a) (fun r w2 => r = Ok tt -> exists k, trace w2 = trace w' ++ k /\ K (l ++ k) (job w2)) w') ->
  wp (m ≫= f) (fun r w2 => r = Ok tt -> exists l, trace w2 = trace w ++ l /\ K l (job w2)) w.
Proof.
  intros HR Hm Hf. apply (wp_emits_bind R quiet (fun l w' => K l (job w')) m f (fun r => r = Ok tt) w Hm).
  - intros a w' l Hj Ht Hl Em. apply Hf; [|done..]. symmetry. by apply HR.
  - done.
Qed.

Lemma supervise_spec token g w : status (job w) = str "running" ->
  wp (supervise fuel has_process_groups grace output_limit token g timeout)
    (fun r w' => r = Ok tt -> exists l, trace w' = trace w ++ l /\ concluded l (job w')) w.
Proof.
  intros Hs. assert (E1 : forall s s' : JobState, s = s' -> same_status s s') by by intros s s' ->.
  assert (E2 : forall s s', reader_frame s s' -> same_status s s') by by intros s s' [].
  unfold supervise, monotonic. apply wp_bind, wp_bind, wp_ask. intros start e _. apply wp_bind. cbn.
  set (w0 := mkWorld (job w) e (trace w ++ [EClock start])).
  apply wp_mono with (Q := fun r w' => r = Ok tt -> exists l, trace w' = trace w0 ++ l /\ concluded ([EClock start] ++ l) (job w')).
  { intros r w' Hr Hok. destruct (Hr Hok) as (l & Ht & Hl). exists ([EClock start] ++ l).
    by rewrite Ht, app_assoc. }
  set (d := plus start timeout).
  apply (then_concluded _ _ _ (fun l s => concluded ([EClock start] ++ l) s) _ E2 (monitor_quiet _ _ _ _ _ _ _ _)).
  intros [cut r] w1 l1 Hs1 Ht1 Hq1 Hm1.
  pose proof (monitor_spec fuel g d (mkReader (Some (new_redactor [token])) None) w0) as Hcut.
  unfold wp in Hcut. fold d in Hm1. rewrite Hm1 in Hcut. destruct (Hcut eq_refl) as (l' & Ht1' & Hcut').
  cbn [snd] in Ht1'. rewrite Ht1 in Ht1'. apply app_inv_head in Ht1' as <-. specialize (Hcut' cut r eq_refl). clear Hcut.
  apply (then_concluded _ _ _ (fun l s => concluded ([EClock start] ++ l1 ++ l) s) _ E1 (wait_or_kill_quiet _ _ _)).
  intros code w2 l2 Hs2 Ht2 Hq2 Hm2.
  pose proof (wait_spec g w1) as Hw. unfold wp in Hw. rewrite Hm2 in Hw.
  destruct (Hw code eq_refl) as (l' & Ht2' & Hexit). cbn [snd] in Ht2'. rewrite Ht2 in Ht2'.
  apply app_inv_head in Ht2' as <-. clear Hw.
  apply (then_concluded _ _ _ (fun l s => concluded ([EClock start] ++ l1 ++ l2 ++ l) s) _ E2 (let_reader_run_quiet _ _)).
  intros r' w3 l3 Hs3 Ht3 Hq3 Hm3.
  assert (Herr : emits eq quiet (match r_error r' with
     | Some e => text ← lift (error_text e); mret (Some text) | None => mret None end : program E (option pystr))).
  { destruct (r_error r'); auto with emits. }
  apply (then_concluded _ _ _ (fun l s => concluded ([EClock start] ++ l1 ++ l2 ++ l3 ++ l) s) _ E1 Herr).
  intros err w4 l4 Hs4 Ht4 Hq4 _.
  assert (Hrun : is_terminal (job w4) = false) by (apply not_terminal; left; rewrite Hs4, Hs3, Hs2, Hs1; exact Hs).
  eapply wp_mono; [|by apply (finish_spec _ (Some code) err w4)]. cbn. intros x w5 (Hst & Hcode & Herr' & l & Ht5 & _) Hok. exists l. split; [done|].
  destruct (final_status_reasons cut code err) as (F1 & F2 & F3 & F4).
  { intros o ->. destruct Hcut' as [[-> _]|[-> _]]; auto. }
  split; [apply terminal_str; by rewrite Hst|]. split.
  - unfold reasons. rewrite Hst. split; [intros Hf; apply F2 in Hf as [-> ->]; done|]. split.
    + intros Hf. apply F3 in Hf as ->. destruct Hcut' as [[_ Hin]|[[=] _]].
      right. rewrite !in_app_iff. by left.
    + intros Hf. apply F4 in Hf as ->. destruct Hcut' as [[[=] _]|[_ (now & Hin & Hle)]].
      exists start, now. split; [by left|]. split; [|done]. right. rewrite !in_app_iff. by left.
  - exists code. split; [|done]. right. rewrite !in_app_iff. auto.
Qed.

Lemma error_text_ok e : exists t, error_text e = Ok t.
Proof.
  unfold error_text. destruct (redact_text_ok (type_name e ++ str ": " ++ message e)) as (t & -> & Ht). cbn.
  unfold bounded_error, utf8_encode. rewrite Ht. cbn. destruct (_ <=? _); eauto.
Qed.

(** A job that ends before its gate opens, or that has been waited for *)
Definition ended (l : list event) (s : JobState) : Prop :=
  is_terminal s = true /\ reasons l s /\ (In EGo l -> reaped l s).

Lemma quiet_no_go l : Forall not_go l -> ~ In EGo l.
Proof. intros Hl Hin. rewrite List.Forall_forall in Hl. by apply (Hl EGo). Qed.

Lemma finish_ended st code err w l0 : is_terminal (job w) = false -> Forall not_go l0 ->
  st = str "failed" \/ st = str "cancelled" /\ In (ECancelled true) l0 ->
  wp (finish_job st code err) (fun _ w' => exists k, trace w' = trace w ++ k /\ ended (l0 ++ k) (job w')) w.
Proof.
  intros Hn Hq Hst. eapply wp_mono; [|by apply finish_spec]. cbn.
  intros r w' (Hs & _ & _ & k & Hk & Hqk & _). exists k. split; [done|].
  assert (Hq' : Forall not_go (l0 ++ k)) by by apply Forall_app.
  split; [apply terminal_str; rewrite Hs; by destruct Hst as [-> |[-> _]]|].
  split; [|by intros ?%quiet_no_go].
  destruct Hst as [-> |[-> Hc]]; [by apply failed_reasons|]. unfold reasons. rewrite Hs.
  split; [intros [=]|]. split; [intros _; apply in_or_app; by left|intros [=]].
Qed.

Lemma open_gate_cancelled gate w w' : open_gate gate w = (Ok GateCancelled, w') ->
  job w' = job w /\ trace w' = trace w ++ [ECancelled true; EGateClosed].
Proof.
  unfold open_gate. destruct gate; [|done]. unfold check_cancelled, mbind, program_bind, ask. cbn [negb].
  destruct (sys_cancelled (env w)) as [[|] e]; cbn.
  - intros [= <-]. cbn. by rewrite <- app_assoc.
  - unfold attempt, ask_result. cbn. destruct (sys_gate e) as [[n|x] e']; cbn.
    + by destruct (n =? 1).
    + by destruct (is_OSError x).
Qed.

(** A step that adds no [EGo] and keeps the status, then the rest *)
Lemma then_ended {A} R (m : program E A) (f : A -> program E unit) l0 w :
  (forall s s', R s s' -> same_status s s') -> emits R quiet m ->
  (forall a w' l, status (job w') = status (job w) -> trace w' = trace w ++ l -> Forall not_go l -> m w = (Ok a, w') ->
     wp (f a) (fun r w2 => r = Ok tt -> exists k, trace w2 = trace w' ++ k /\ ended ((l0 ++ l) ++ k) (job w2)) w') ->
  wp (m ≫= f) (fun r w2 => r = Ok tt -> exists l, trace w2 = trace w ++ l /\ ended (l0 ++ l) (job w2)) w.
Proof.
  intros HR Hm Hf. apply (then_concluded R m f (fun l s => ended (l0 ++ l) s) w HR Hm).
  intros a w' l H1 H2 H3 H4. eapply wp_mono; [|by apply (Hf a w' l)]. cbn. intros r w2 Hr Hok.
  destruct (Hr Hok) as (k & Hk & He). exists k. by rewrite app_assoc.
Qed.

Lemma concluded_ended l0 k s : concluded k s -> ended (l0 ++ k) s.
Proof. intros (H1 & H2 & H3). split; [done|]. split; [by apply reasons_prepend|]. intros _. by apply reaped_prepend. Qed.

Lemma same_status_eq : forall s s' : JobState, s = s' -> same_status s s'.
Proof. by intros s s' ->. Qed.
Lemma same_status_refl_R : forall s s' : JobState, same_status s s' -> same_status s s'.
Proof. done. Qed.

(** Stopping a process that was not let go, then failing *)
Lemma stop_failed gate g (m : Z -> program E unit) (e : exn) l0 w :
  is_terminal (job w) = false -> Forall not_go l0 ->
  (forall code, emits same_status quiet (m code)) ->
  wp (_ ← close_gate gate; code ← stop_process fuel has_process_groups grace g; _ ← m code;
      text ← lift (error_text e); finish_job (str "failed") (Some code) (Some text))
    (fun r w2 => r = Ok tt -> exists l, trace w2 = trace w ++ l /\ ended (l0 ++ l) (job w2)) w.
Proof.
  intros Hn Hq Hm.
  eapply then_ended; [apply same_status_eq|apply close_gate_quiet|]. intros u w1 l1 Hs1 Ht1 Hq1 _.
  eapply then_ended; [apply same_status_eq|apply stop_process_quiet|]. intros code w2 l2 Hs2 Ht2 Hq2 _.
  eapply then_ended; [apply same_status_refl_R|apply Hm|]. intros u3 w3 l3 Hs3 Ht3 Hq3 _.
  assert (Hn3 : is_terminal (job w3) = false) by (unfold is_terminal in *; by rewrite Hs3, Hs2, Hs1).
  assert (Hq' : Forall not_go (((l0 ++ l1) ++ l2) ++ l3)) by (rewrite !Forall_app; auto).
  destruct (error_text_ok e) as (t & ->). apply wp_bind, wp_lift.
  pose proof (finish_ended (str "failed") (Some code) (Some t) w3 _ Hn3 Hq' (or_introl eq_refl)) as Hend.
  eapply wp_mono; [|exact Hend]. intros r w4 Hk _. exact Hk.
Qed.

(** Stopping and failing after the gate: the process was waited for. *)
Lemma stop_concluded g (e : exn) l0 w : is_terminal (job w) = false ->
  wp (code ← stop_process fuel has_process_groups grace g; text ← lift (error_text e);
      finish_job (str "failed") (Some code) (Some text))
    (fun r w2 => r = Ok tt -> exists l, trace w2 = trace w ++ l /\ concluded (l0 ++ l) (job w2)) w.
Proof.
  intros Hn. apply wp_bind. pose proof (stop_spec g w) as Hstop.
  destruct (stop_process_quiet fuel has_process_groups grace g w) as (Hj & _).
  unfold wp in Hstop |- * at 1. destruct (stop_process _ _ _ _ w) as [[code|x] w1]; [|done]. cbn [fst snd] in *.
  destruct (Hstop code eq_refl) as (l & Ht & Hin). rewrite Hj in Hn.
  destruct (error_text_ok e) as (t & ->). apply wp_bind, wp_lift.
  eapply wp_mono; [|apply finish_spec, Hn]. cbn. intros r w2 (Hs & Hc & _ & k & Hk & _) _.
  exists (l ++ k). rewrite Hk, Ht, app_assoc. split; [done|].
  split; [apply terminal_str; by rewrite Hs|]. split; [by apply failed_reasons|].
  exists code. split; [|done]. rewrite !in_app_iff. auto.
Qed.

Lemma ended_prepend l k s : Forall not_go l -> ended k s -> ended (l ++ k) s.
Proof.
  intros Hl (H1 & H2 & H3). split; [done|]. split; [by apply reasons_prepend|].
  intros [Hin|Hin]%in_app_iff; [by destruct (quiet_no_go l Hl)|]. by apply reaped_prepend, H3.
Qed.

(** The job's part once the running record is stored *)
Lemma gate_ended token gate g w : status (job w) = str "running" ->
  wp (outcome ← open_gate gate;
      match outcome with
      | GateOpened => supervise fuel has_process_groups grace output_limit token g timeout
      | GateCancelled =>
          code ← ask (sys_wait (at_least grace tenth));
          c ← match code with
              | Some c => _ ← log (EExit c); mret c
              | None => stop_process fuel has_process_groups grace g
              end;
          finish_job (str "cancelled") (Some c) None
      | GateFailed e =>
          code ← stop_process fuel has_process_groups grace g; text ← lift (error_text e);
          finish_job (str "failed") (Some code) (Some text)
      end)
    (fun r w2 => r = Ok tt -> exists l, trace w2 = trace w ++ l /\ ended l (job w2)) w.
Proof.
  intros Hs. apply wp_bind. pose proof (open_gate_spec gate w) as Ho. pose proof (open_gate_cancelled gate w) as Hc.
  unfold wp in Ho |- * at 1. destruct (open_gate gate w) as [[outcome|x] w1]; [|done]. cbn [fst snd] in *.
  destruct Ho as (Hj & l & Ht & _).
  assert (Hs1 : status (job w1) = str "running") by (by rewrite Hj).
  assert (Hn1 : is_terminal (job w1) = false) by (apply not_terminal; by left).
  destruct outcome as [| |e].
  - eapply wp_mono; [|apply supervise_spec, Hs1]. intros r w2 Hr Hok. destruct (Hr Hok) as (k & Hk & HK).
    exists (l ++ k). rewrite Hk, Ht, app_assoc. split; [done|]. by apply concluded_ended.
  - destruct (Hc w1 eq_refl) as [_ Ht']. rewrite Ht in Ht'. apply app_inv_head in Ht' as ->.
    apply wp_mono with (Q := fun r w2 => r = Ok tt -> exists k, trace w2 = trace w1 ++ k /\
      ended ([ECancelled true; EGateClosed] ++ k) (job w2)).
    { intros r w2 Hr Hok. destruct (Hr Hok) as (k & Hk & HK). exists ([ECancelled true; EGateClosed] ++ k).
      by rewrite Hk, Ht, <- app_assoc. }
    eapply then_ended; [apply same_status_eq|apply emits_ask|]. intros code w2 l2 Hs2 Ht2 Hq2 _.
    eapply (then_ended eq); [apply same_status_eq| |].
    { destruct code; [apply emits_bind; [apply emits_log; by constructor|auto with emits]|apply stop_process_quiet]. }
    intros c w3 l3 Hs3 Ht3 Hq3 _.
    assert (Hn3 : is_terminal (job w3) = false) by (apply not_terminal; left; by rewrite Hs3, Hs2).
    assert (Hq' : Forall not_go (([ECancelled true; EGateClosed] ++ l2) ++ l3)).
    { rewrite !Forall_app. split; [split; [by repeat constructor|done]|done]. }
    pose proof (finish_ended (str "cancelled") (Some c) None w3 _ Hn3 Hq') as Hend.
    eapply wp_mono; [|apply Hend; right; split; [done|by left]]. intros r w4 Hk _. exact Hk.
  - eapply wp_mono; [|apply (stop_concluded g e l), Hn1]. intros r w2 Hr Hok. destruct (Hr Hok) as (k & Hk & HK).
    exists (l ++ k). rewrite Hk, Ht, app_assoc. split; [done|]. by apply (concluded_ended []).
Qed.

Lemma start_ended token pid gate w : status (job w) = str "queued" ->
  wp (start_process fuel has_process_groups is_linux grace output_limit token timeout pid gate)
    (fun r w2 => r = Ok tt -> exists l, trace w2 = trace w ++ l /\ ended l (job w2)) w.
Proof.
  intros Hs. unfold start_process.
  eapply (then_ended eq _ _ []); [apply same_status_eq|apply emits_attempt, capture_quiet|].
  intros captured w1 l1 Hs1 Ht1 Hq1 _. destruct captured as [i|e].
  2: { apply (stop_failed gate _ (fun _ => update (set_process (Some pid) _)) e).
       - apply not_terminal. right. by rewrite Hs1.
       - done.
       - intros _. by apply emits_update. }
  apply wp_bind. cbn. apply wp_bind. cbn.
  set (w2 := mkWorld (mark_running has_process_groups pid i (job w1)) (env w1) (trace w1 ++ [EIdentity i])).
  assert (Hs2 : status (job w2) = str "running") by done.
  apply wp_mono with (Q := fun r w3 => r = Ok tt -> exists k, trace w3 = trace w2 ++ k /\ ended (((l1 ++ [EIdentity i])) ++ k) (job w3)).
  { intros r w3 Hr Hok. destruct (Hr Hok) as (k & Hk & HK). exists (EIdentity i :: k).
    rewrite Hk. cbn [trace w2]. rewrite <- !app_assoc in *. done. }
  assert (Hq2 : Forall not_go (l1 ++ [EIdentity i])) by (apply Forall_app; split; [done|by repeat constructor]).
  eapply (then_ended eq); [apply same_status_eq|apply emits_attempt, persist_quiet|].
  intros saved w3 l3 Hs3 Ht3 Hq3 _.
  assert (Hq3' : Forall not_go ((l1 ++ [EIdentity i]) ++ l3)) by (by apply Forall_app).
  destruct saved as [u|e].
  - assert (Hs3' : status (job w3) = str "running") by (by rewrite Hs3).
    eapply wp_mono; [|apply gate_ended, Hs3']. intros r w4 Hr Hok. destruct (Hr Hok) as (k & Hk & HK).
    exists k. split; [done|]. by apply ended_prepend.
  - eapply then_ended; [apply same_status_eq|apply close_gate_quiet|]. intros u4 w4 l4 Hs4 Ht4 Hq4 _.
    eapply then_ended; [apply same_status_eq|apply stop_process_quiet|]. intros code w5 l5 Hs5 Ht5 Hq5 _.
    assert (Hn5 : is_terminal (job w5) = false) by (apply not_terminal; left; by rewrite Hs5, Hs4, Hs3).
    assert (Hq' : Forall not_go ((((l1 ++ [EIdentity i]) ++ l3) ++ l4) ++ l5)) by (auto 10 using Forall_app_2).
    destruct (error_text_ok e) as (t & ->).
    pose proof (finish_ended (str "failed") (Some code) (Some t) w5 _ Hn5 Hq' (or_introl eq_refl)) as Hend.
    apply wp_bind, wp_attempt, wp_bind, wp_lift. eapply wp_mono; [|exact Hend].
    intros [v|x] w6 Hk; [|destruct (is_OSError x)]; intros _; exact Hk.
Qed.

Lemma prepare_status token w :
  wp (prepare has_process_groups token)
    (fun r w' => match r with
                 | Ok true => status (job w') = status (job w)
                 | Ok false => status (job w') = str "failed"
                 | Raise _ => True
                 end) w.
Proof.
  unfold prepare. destruct (negb has_process_groups); [done|].
  apply wp_bind. cbn. apply wp_bind. cbn. apply wp_bind.
  pose proof (emits_attempt (R := eq) persist is_OSError persist_quiet) as Hp.
  match goal with |- wp _ _ ?w0 => specialize (Hp w0) end. unfold wp in Hp |- * at 1.
  destruct (attempt _ _ _) as [r w1]. cbn [fst snd job] in *. destruct Hp as [Hj _].
  destruct r as [[u|e]|e]; [apply wp_ret; by rewrite <- Hj| |done].
  apply wp_bind, wp_ask. intros now e0 _. apply wp_bind, wp_lift. destruct (error_text e) as [text|x]; [|done].
  apply wp_bind. cbn. apply wp_bind. cbn. apply wp_bind.
  match goal with |- wp _ _ ?w0 => pose proof (emits_attempt (R := eq) persist is_OSError persist_quiet w0) as Hp2 end.
  unfold wp in Hp2 |- * at 1.
  destruct (attempt _ _ _) as [r2 w2]. cbn [fst snd job] in *. destruct Hp2 as [Hj2 _].
  destruct r2; [|done]. apply wp_ret. by rewrite <- Hj2.
Qed.

(** C34.  How a job ends: when [_run] returns for a queued job, the job has a
    terminal status; if its command was let run, the process was waited for
    and its exit code is the recorded one; it is "succeeded" only with exit
    code 0 and without an error, "cancelled" only when a cancellation was
    seen, and "timed_out" only when a clock reading had reached the start
    reading plus the timeout. *)
Theorem run_outcome w w' : status (job w) = str "queued" ->
  run fuel has_process_groups is_linux grace output_limit timeout w = (Ok tt, w') ->
  exists l, trace w' = trace w ++ l /\ is_terminal (job w') = true /\ reasons l (job w') /\
    (In EGo l -> reaped l (job w')).
Proof.
  intros Hs Hrun.
  cut (wp (run fuel has_process_groups is_linux grace output_limit timeout)
         (fun r w2 => r = Ok tt -> exists l, trace w2 = trace w ++ l /\ ended l (job w2)) w).
  { unfold wp. rewrite Hrun. intros H1. destruct (H1 eq_refl) as (l & Ht & He). by exists l. }
  clear w' Hrun. unfold run, check_cancelled. apply wp_bind, wp_bind, wp_ask. intros a e _. apply wp_bind. cbn.
  set (w1 := mkWorld (job w) e (trace w ++ [ECancelled a])).
  apply wp_mono with (Q := fun r w3 => r = Ok tt -> exists k, trace w3 = trace w1 ++ k /\ ended ([ECancelled a] ++ k) (job w3)).
  { intros r w3 Hr Hok. destruct (Hr Hok) as (k & Hk & HK). exists ([ECancelled a] ++ k). rewrite Hk. cbn [trace w1].
    by rewrite <- app_assoc. }
  assert (Hq1 : Forall not_go [ECancelled a]) by (by repeat constructor).
  destruct a.
  { assert (Hn : is_terminal (job w1) = false) by (apply not_terminal; by right).
    pose proof (finish_ended (str "cancelled") None None w1 _ Hn Hq1) as Hend.
    eapply wp_mono; [|apply Hend; right; split; [done|by left]]. intros r w3 Hk _. exact Hk. }
  eapply then_ended; [apply same_status_eq|apply emits_ask|]. intros now w2 l2 Hs2 Ht2 Hq2 _.
  eapply then_ended; [apply same_status_refl_R|by apply emits_update|]. intros u w3 l3 Hs3 Ht3 Hq3 _.
  eapply then_ended; [apply same_status_eq|apply emits_ask|]. intros token w4 l4 Hs4 Ht4 Hq4 _.
  assert (Hq : Forall not_go ((([ECancelled false] ++ l2) ++ l3) ++ l4)) by (auto 10 using Forall_app_2).
  revert Hq. generalize ((([ECancelled false] ++ l2) ++ l3) ++ l4). intros l0 Hq.
  assert (Hs4' : status (job w4) = str "queued") by (rewrite Hs4, Hs3, Hs2; exact Hs).
  apply wp_bind. pose proof (prepare_status token w4) as Hp. destruct (prepare_spec has_process_groups token w4) as [Hl _].
  unfold wp in Hp |- * at 1. destruct (prepare has_process_groups token w4) as [[prepared|x] w5]; [|done].
  cbn [fst snd] in *. destruct Hl as (l5 & Ht5 & Hq5).
  assert (Hq' : Forall not_go (l0 ++ l5)) by (auto using Forall_app_2).
  destruct prepared; cbn [negb].
  2: { apply wp_ret. intros _. exists l5. split; [done|]. split; [apply terminal_str; by rewrite Hp|].
       split; [by apply failed_reasons|]. intros Hin. by destruct (quiet_no_go _ Hq' Hin). }
  apply wp_mono with (Q := fun r w3 => r = Ok tt -> exists k, trace w3 = trace w5 ++ k /\ ended ((l0 ++ l5) ++ k) (job w3)).
  { intros r w6 Hr Hok. destruct (Hr Hok) as (k & Hk & HK). exists (l5 ++ k). by rewrite Hk, Ht5, !app_assoc in *. }
  eapply (then_ended eq); [apply same_status_eq|apply emits_attempt, spawn_quiet|].
  intros spawned w6 l6 Hs6 Ht6 Hq6 _.
  assert (Hq6' : Forall not_go ((l0 ++ l5) ++ l6)) by (auto 10 using Forall_app_2).
  assert (Hs6' : status (job w6) = str "queued") by (by rewrite Hs6, Hp).
  destruct spawned as [[pid gate]|x].
  - eapply wp_mono; [|apply start_ended, Hs6']. intros r w7 Hr Hok. destruct (Hr Hok) as (k & Hk & HK).
    exists k. split; [done|]. by apply ended_prepend.
  - assert (Hn : is_terminal (job w6) = false) by (apply not_terminal; by right).
    destruct (error_text_ok x) as (t & ->). apply wp_bind, wp_lift.
    pose proof (finish_ended (str "failed") None (Some t) w6 _ Hn Hq6' (or_introl eq_refl)) as Hend.
    eapply wp_mono; [|exact Hend]. intros r w7 Hk _. exact Hk.
Qed.
End Outcome.

(** ** Termination *)

(** Clock readings before a deadline *)
Definition early (deadline : spec_float) (l : list event) : nat :=
  length (List.filter (fun x => match x with EClock t => negb (SFleb deadline t) | _ => false end) l).

Lemma early_app d l k : early d (l ++ k) = (early d l + early d k)%nat.
Proof. unfold early. by rewrite List.filter_app, length_app. Qed.

Lemma SFcompare_antisym x y : SFcompare y x = option_map CompOpp (SFcompare x y).
Proof.
  destruct x as [sx|sx| |sx mx ex], y as [sy|sy| |sy my ey]; cbn; try destruct sx; try destruct sy; cbn; try done;
    rewrite (Z.compare_antisym ex ey); destruct (ex ?= ey); cbn; try done;
    rewrite ?CompOpp_involutive; try done; apply (f_equal Some); rewrite ?(Pos.compare_cont_antisym my mx Eq); try done.
  all: by rewrite (Pos.compare_cont_antisym mx my Eq).
Qed.

Lemma SFltb_not_leb x y : SFltb x y = true -> SFleb y x = false.
Proof. unfold SFltb, SFleb. rewrite (SFcompare_antisym x y). by destruct (SFcompare x y) as [[]|]. Qed.

(** The system does not itself raise the exception that stands for running
    out of fuel. *)
Record sane {E} (H : System E) : Prop := {
  sane_save : forall i t e, fst (sys_save i t e) <> Raise out_of_fuel;
  sane_popen : forall e, fst (sys_popen e) <> Raise out_of_fuel;
  sane_handover : forall e, fst (sys_handover e) <> Raise out_of_fuel;
  sane_gate : forall e, fst (sys_gate e) <> Raise out_of_fuel;
  sane_killpg : forall g s e, fst (sys_killpg g s e) <> Raise out_of_fuel;
  sane_kill : forall s e, fst (sys_kill s e) <> Raise out_of_fuel;
  sane_file : forall p n e, fst (sys_read_file p n e) <> Raise out_of_fuel;
}.

Section Termination.
Context {E : Type} `{H : System E}.
Hypothesis system_sane : sane H.
Context (fuel : nat) (has_process_groups is_linux : bool) (grace : spec_float) (output_limit : Z).

(** [m] runs out of fuel only when the events it added satisfy [C]. *)
Definition timely (C : list event -> Prop) {A} (m : program E A) : Prop := forall w,
  wp m (fun r w' => exists l, trace w' = trace w ++ l /\ (r = Raise out_of_fuel -> C l)) w.

(** What remains true of a longer trace *)
Class Lasting (C : list event -> Prop) := lasting : forall l k, C l \/ C k -> C (l ++ k).

#[local] Instance never_lasting : Lasting (fun _ => False).
Proof. intros l k. tauto. Qed.
#[local] Instance early_lasting n d : Lasting (fun l => (n <= early d l)%nat).
Proof. intros l k. rewrite early_app. lia. Qed.
#[local] Instance some_lasting n : Lasting (fun l => exists d, (n <= early d l)%nat).
Proof. intros l k [(d & Hd)|(d & Hd)]; exists d; rewrite early_app; lia. Qed.
#[local] Instance or_lasting C D : Lasting C -> Lasting D -> Lasting (fun l => C l \/ D l).
Proof. intros HC HD l k [[?|?]|[?|?]]; [left; apply HC|right; apply HD|left; apply HC|right; apply HD]; auto. Qed.

Section Closure.
Context {C : list event -> Prop} `{!Lasting C}.

Lemma timely_still {A} (m : program E A) :
  (forall w, trace (snd (m w)) = trace w /\ fst (m w) <> Raise out_of_fuel) -> timely C m.
Proof. intros Hm w. destruct (Hm w) as [Ht Hr]. exists []. by rewrite app_nil_r. Qed.
Lemma timely_ret {A} (a : A) : timely C (mret a).
Proof. by apply timely_still. Qed.
Lemma timely_raise {A} e : e <> out_of_fuel -> timely C (raise (A := A) e).
Proof. intros He. apply timely_still. intros w. split; [done|]. cbn. congruence. Qed.
Lemma timely_lift {A} (r : result A) : r <> Raise out_of_fuel -> timely C (lift r).
Proof. intros Hr. by apply timely_still. Qed.
Lemma timely_get : timely C get_job.
Proof. by apply timely_still. Qed.
Lemma timely_update f : timely C (update f).
Proof. by apply timely_still. Qed.
Lemma timely_log x : timely C (log x).
Proof. intros w. by exists [x]. Qed.
Lemma timely_ask {A} (q : E -> A * E) : timely C (ask q).
Proof. apply timely_still. intros w. unfold ask. by destruct (q (env w)). Qed.
Lemma timely_ask_result {A} (q : E -> result A * E) : (forall e, fst (q e) <> Raise out_of_fuel) -> timely C (ask_result q).
Proof. intros Hq. apply timely_still. intros w. unfold ask_result. specialize (Hq (env w)). by destruct (q (env w)). Qed.

Lemma timely_bind {A B} (m : program E A) (f : A -> program E B) :
  timely C m -> (forall a, timely C (f a)) -> timely C (m ≫= f).
Proof.
  intros Hm Hf w. apply wp_bind. eapply wp_mono; [|apply Hm]. intros [a|e] w1 (l & Ht & Hl).
  - eapply wp_mono; [|apply Hf]. intros r w2 (k & Hk & He). exists (l ++ k). rewrite Hk, Ht, app_assoc.
    split; [done|]. intros Hr. apply lasting. right. auto.
  - exists l. split; [done|]. intros [= ->]. by apply Hl.
Qed.

Lemma timely_attempt {A} (m : program E A) covers : timely C m -> timely C (attempt m covers).
Proof.
  intros Hm w. apply wp_attempt. eapply wp_mono; [|apply Hm]. intros [a|e] w1 (l & Ht & Hl); [by exists l|].
  destruct (covers e); [by exists l|]. exists l. split; [done|]. intros [= ->]. by apply Hl.
Qed.

Lemma timely_any {A} R (m : program E A) : emits R quiet m -> timely C (attempt m (fun _ => true)).
Proof.
  intros Hm w. apply wp_attempt. eapply wp_mono; [|apply Hm]. intros [a|e] w1 (_ & l & Ht & _); by exists l.
Qed.

Lemma timely_weaken {A} D (m : program E A) : (forall l, D l -> C l) -> timely D m -> timely C m.
Proof. intros HDC Hm w. eapply wp_mono; [|apply Hm]. intros r w' (l & Ht & Hl). eauto. Qed.
End Closure.
Hint Resolve timely_ret timely_get timely_update timely_log timely_ask timely_ask_result timely_bind timely_attempt
  sane_save sane_popen sane_handover sane_gate sane_killpg sane_kill sane_file : timely.
Hint Extern 1 (Lasting _) => typeclasses eauto : timely.

Lemma guard_fuel b e : e <> out_of_fuel -> guard_exn b e <> Raise out_of_fuel.
Proof. intros He. destruct b; cbn; congruence. Qed.

Lemma parse_fuel c : parse_stat c <> Raise out_of_fuel /\ parse_boot_id c <> Raise out_of_fuel.
Proof.
  unfold parse_stat, parse_boot_id, int_field, decode_ascii, of_option, guard_exn. split;
    repeat (match goal with |- context [match ?x with _ => _ end] => destruct x end; cbn; try done).
Qed.

Lemma metadata_fuel s : metadata_text s <> Raise out_of_fuel.
Proof.
  unfold metadata_text, snapshot, decode_output, of_option. destruct (utf8_decode (output s)); cbn; [|done].
  unfold dumps. by destruct (encodable _ _).
Qed.

Lemma check_cancelled_timely C `{!Lasting C} : timely C check_cancelled.
Proof. unfold check_cancelled. auto with timely. Qed.
Lemma persist_timely C `{!Lasting C} : timely C persist.
Proof.
  unfold persist. apply timely_bind; [auto with timely|]. intros s. apply timely_bind; [apply timely_lift, metadata_fuel|].
  intros t. apply timely_bind; [apply timely_ask_result; intros; by apply sane_save|]. auto with timely.
Qed.
Lemma monotonic_timely C `{!Lasting C} : timely C monotonic.
Proof. unfold monotonic. auto with timely. Qed.
Lemma running_timely C `{!Lasting C} : timely C running.
Proof. unfold running. auto with timely. Qed.
Hint Resolve check_cancelled_timely persist_timely monotonic_timely running_timely : timely.

Lemma finish_timely C `{!Lasting C} st code err : timely C (finish_job st code err).
Proof. unfold finish_job. apply timely_bind; [auto with timely|]. intros s. destruct (is_terminal s); auto with timely. Qed.

Lemma signals_timely C `{!Lasting C} g x : timely C (process_group_exists g) /\ timely C (send_group g x) /\ timely C (send_process x).
Proof.
  unfold process_group_exists, send_group, send_process. split_and!.
  - apply timely_bind; [apply timely_attempt, timely_ask_result; intros; by apply sane_killpg|auto with timely].
  - apply timely_bind; [auto with timely|]. intros _.
    apply timely_bind; [apply timely_ask_result; intros; by apply sane_killpg|auto with timely].
  - apply timely_bind; [auto with timely|]. intros _.
    apply timely_bind; [apply timely_ask_result; intros; by apply sane_kill|auto with timely].
Qed.
Lemma exists_timely C `{!Lasting C} g : timely C (process_group_exists g).
Proof. apply (signals_timely C g SIG0). Qed.
Lemma send_group_timely C `{!Lasting C} g x : timely C (send_group g x).
Proof. apply (signals_timely C g x). Qed.
Lemma send_process_timely C `{!Lasting C} x : timely C (send_process x).
Proof. apply (signals_timely C 0 x). Qed.
Hint Resolve finish_timely exists_timely send_group_timely send_process_timely : timely.

Lemma kill_timely C `{!Lasting C} g : timely C (kill has_process_groups g).
Proof.
  unfold kill. destruct (target has_process_groups g); [auto with timely|].
  apply timely_bind; [auto with timely|]. intros []; auto with timely.
Qed.
Hint Resolve kill_timely : timely.


(** The waiting loops: every turn reads a clock before the deadline. *)
Lemma clock_turn n d now (l : list event) : SFleb d now = false -> (n <= early d l)%nat ->
  (S n <= early d ([EClock now] ++ l))%nat.
Proof. intros Hd Hl. unfold early in *. cbn. rewrite Hd. cbn. lia. Qed.

Lemma await_timely n g d : timely (fun l => (n <= early d l)%nat) (await_group n g d).
Proof.
  induction n as [|n IH]; cbn [await_group].
  { intros w. exists []. rewrite app_nil_r. split; [done|]. lia. }
  apply timely_bind; [apply exists_timely, _|]. intros []; cbn [negb]; [|auto with timely].
  unfold monotonic. intros w. apply wp_bind, wp_bind, wp_ask. intros now e _. apply wp_bind. cbn.
  destruct (SFltb now d) eqn:Hd; [|exists [EClock now]; done].
  eapply wp_mono; [|apply IH]. cbn. intros r w' (l & Ht & Hl). exists ([EClock now] ++ l).
  rewrite Ht, <- app_assoc. split; [done|]. intros Hr. apply clock_turn; [by apply SFltb_not_leb|auto].
Qed.

Notation slow := (fun l => exists d, (fuel <= early d l)%nat).

Lemma terminate_timely g : timely slow (terminate fuel has_process_groups grace g).
Proof.
  unfold terminate. apply timely_bind; [auto with timely|]. intros start.
  apply timely_bind.
  { destruct (target has_process_groups g); (apply timely_bind; [auto with timely|]); intros []; auto with timely. }
  intros _. apply timely_bind; [auto with timely|]. intros now. apply timely_bind; [auto with timely|]. intros _.
  destruct (target has_process_groups g).
  - apply timely_bind; [apply (timely_weaken (fun l => (fuel <= early (plus start grace) l)%nat)); [by eauto|apply await_timely]|]. intros _.
    apply timely_bind; [auto with timely|]. intros []; auto with timely.
  - apply timely_bind; [auto with timely|]. intros []; auto with timely.
Qed.
Hint Resolve terminate_timely : timely.

Lemma wait_or_kill_timely C `{!Lasting C} g : timely C (wait_or_kill has_process_groups grace g).
Proof. unfold wait_or_kill. apply timely_bind; [auto with timely|]. intros [c|]; auto 6 with timely. Qed.
Hint Resolve wait_or_kill_timely : timely.
Lemma stop_timely g : timely slow (stop_process fuel has_process_groups grace g).
Proof. unfold stop_process. auto with timely. Qed.
Hint Resolve stop_timely : timely.

Lemma reader_timely C `{!Lasting C} n : forall r, timely C (reader_turns (E := E) output_limit n r).
Proof.
  induction n as [|n IH]; intros r; cbn [reader_turns]; [auto with timely|].
  apply timely_bind; [|done]. unfold reader_turn. destruct (r_redactor r) as [red|]; [|auto with timely].
  apply timely_bind; [eapply timely_any, read_turn_quiet|auto with timely].
Qed.

Lemma let_reader_run_timely C `{!Lasting C} r : timely C (let_reader_run (E := E) output_limit r).
Proof. unfold let_reader_run. apply timely_bind; [auto with timely|]. intros n. by apply reader_timely. Qed.

Lemma monitor_timely n g d : forall r,
  timely (fun l => (n <= early d l)%nat \/ slow l) (monitor fuel has_process_groups grace output_limit n g d r).
Proof.
  induction n as [|n IH]; intros r; cbn [monitor].
  { intros w. exists []. rewrite app_nil_r. split; [done|]. left. lia. }
  apply timely_bind; [auto with timely|]. intros leader.
  apply timely_bind; [destruct g; auto with timely|]. intros group.
  apply timely_bind; [apply let_reader_run_timely, _|]. intros r'.
  destruct (_ && _); [auto with timely|].
  assert (Hstop : forall o : pystr, timely (fun l => (S n <= early d l)%nat \/ slow l)
    (_ ← terminate fuel has_process_groups grace g; mret (Some o, r'))).
  { intros o. apply timely_bind; [|auto with timely]. eapply timely_weaken; [|apply terminate_timely]. by right. }
  apply timely_bind; [auto with timely|]. intros [|]; [apply Hstop|].
  unfold monotonic. intros w. apply wp_bind, wp_bind, wp_ask. intros now e _. apply wp_bind. cbn.
  destruct (SFleb d now) eqn:Hd.
  - eapply wp_mono; [|apply Hstop]. cbn. intros x w' (l & Ht & Hl). exists ([EClock now] ++ l).
    rewrite Ht, <- app_assoc. split; [done|]. intros Hx.
    apply (lasting (C := fun l => (S n <= early d l)%nat \/ slow l) [EClock now] l). auto.
  - eapply wp_mono; [|apply IH]. cbn. intros x w' (l & Ht & Hl). exists ([EClock now] ++ l).
    rewrite Ht, <- app_assoc. split; [done|]. intros Hx. destruct (Hl Hx) as [Hn|Hs].
    + left. by apply clock_turn.
    + right. apply (lasting (C := slow) [EClock now] l). by right.
Qed.

Lemma capture_timely C `{!Lasting C} pid token : timely C (capture_process_identity is_linux pid token).
Proof.
  assert (Hread : forall p n, timely C (read_limited_bytes p n)).
  { intros p n w. unfold read_limited_bytes. apply wp_bind, wp_attempt, wp_ask_result. intros x e Hq. cbn.
    pose proof (sane_file _ system_sane p (n + 1) (env w)) as Hs. rewrite Hq in Hs. cbn in Hs.
    destruct x as [v|x]; apply wp_bind; cbn.
    - exists [EFile p (Ok v)]. destruct (n <? zlen v); done.
    - exists [EFile p (Raise x)]. split; [done|]. intros [= ->]. done. }
  unfold capture_process_identity. destruct (negb is_linux); [auto with timely|].
  apply timely_bind.
  { unfold read_linux_stat. apply timely_bind; [done|]. intros c. apply timely_lift, parse_fuel. }
  intros [[g s] t]. apply timely_bind.
  { unfold read_boot_id. apply timely_bind; [done|]. intros c. apply timely_lift, parse_fuel. }
  intros b. destruct (_ || _); [by apply timely_raise|auto with timely].
Qed.

Lemma error_timely C `{!Lasting C} e : timely C (lift (E := E) (error_text e)).
Proof. destruct (error_text_ok e) as (t & ->). by apply timely_lift. Qed.

Lemma supervise_timely token g timeout : timely slow (supervise fuel has_process_groups grace output_limit token g timeout).
Proof.
  unfold supervise. apply timely_bind; [auto with timely|]. intros now.
  apply timely_bind; [eapply timely_weaken, monitor_timely|].
  { cbn. intros l [Hl|Hl]; [by eexists|done]. }
  intros [cut r]. apply timely_bind; [auto with timely|]. intros code.
  apply timely_bind; [apply let_reader_run_timely, _|]. intros r'.
  apply timely_bind; [destruct (r_error r'); [apply timely_bind; [apply error_timely, _|]|]; auto with timely|].
  auto with timely.
Qed.

Lemma open_gate_timely C `{!Lasting C} gate : timely C (open_gate gate).
Proof.
  unfold open_gate. destruct (negb gate); [auto with timely|]. apply timely_bind; [auto with timely|].
  intros [|]; [auto with timely|]. apply timely_bind; [auto with timely|]. intros _.
  apply timely_bind; [|auto with timely]. apply timely_attempt, timely_bind.
  - apply timely_ask_result. by apply sane_gate.
  - intros n. destruct (n =? 1); [auto with timely|by apply timely_raise].
Qed.

Lemma start_timely token timeout pid gate :
  timely slow (start_process fuel has_process_groups is_linux grace output_limit token timeout pid gate).
Proof.
  assert (Hclose : timely slow (close_gate (E := E) gate)) by (unfold close_gate; destruct gate; auto with timely).
  assert (Hfail : forall st code e, timely slow (text ← lift (error_text e); finish_job st code (Some text))).
  { intros. apply timely_bind; [apply error_timely, _|auto with timely]. }
  unfold start_process. apply timely_bind; [apply timely_attempt, capture_timely, _|]. intros [i|e].
  2: { apply timely_bind; [done|]. intros _. apply timely_bind; [auto with timely|]. intros code.
       apply timely_bind; [auto with timely|]. intros _. apply Hfail. }
  apply timely_bind; [auto with timely|]. intros _. apply timely_bind; [auto with timely|]. intros _.
  apply timely_bind; [auto with timely|]. intros [u|e].
  2: { apply timely_bind; [done|]. intros _. apply timely_bind; [auto with timely|]. intros code.
       apply timely_bind; [apply timely_attempt, Hfail|auto with timely]. }
  apply timely_bind; [apply open_gate_timely, _|]. intros [| |e].
  - apply supervise_timely.
  - apply timely_bind; [auto with timely|]. intros [c|]; (apply timely_bind; auto with timely).
  - apply timely_bind; [auto with timely|]. intros code. apply Hfail.
Qed.

(** C35.  A job's worker ends once its clock passes its deadlines: given
    [fuel] turns, the worker is still in one of its waiting loops only if
    that many clock readings in this very execution came before one
    deadline, so with a clock that advances the monitoring loop, the
    termination and the whole of [_run] end. *)
Theorem run_ends timeout w w' : run fuel has_process_groups is_linux grace output_limit timeout w = (Raise out_of_fuel, w') ->
  exists l deadline, trace w' = trace w ++ l /\ (fuel <= early deadline l)%nat.
Proof.
  intros Hrun.
  enough (Ht : timely slow (run fuel has_process_groups is_linux grace output_limit timeout)).
  { specialize (Ht w). unfold wp in Ht. rewrite Hrun in Ht. destruct Ht as (l & Ht & Hl).
    destruct (Hl eq_refl) as (d & Hd). by exists l, d. }
  clear w w' Hrun. unfold run. apply timely_bind; [auto with timely|]. intros [|]; [auto with timely|].
  apply timely_bind; [auto with timely|]. intros now. apply timely_bind; [auto with timely|]. intros _.
  apply timely_bind; [auto with timely|]. intros token. apply timely_bind.
  { unfold prepare. destruct (negb has_process_groups); [auto with timely|].
    do 2 (apply timely_bind; [auto with timely|]; intros ?). apply timely_bind; [auto with timely|].
    intros [u|e]; [auto with timely|]. apply timely_bind; [auto with timely|]. intros t.
    apply timely_bind; [apply error_timely, _|auto 10 with timely]. }
  intros [|]; cbn [negb]; [|auto with timely]. apply timely_bind.
  { apply timely_attempt. unfold spawn_process. apply timely_bind; [apply timely_ask_result; by apply sane_popen|].
    intros pid. apply timely_bind; [auto with timely|]. intros _. destruct (negb has_process_groups); [auto with timely|].
    intros w. apply wp_bind, wp_attempt, wp_ask_result. intros x e Hq.
    pose proof (sane_handover _ system_sane (env w)) as Hx. rewrite Hq in Hx. cbn in Hx.
    destruct x as [u|x]; [exact (timely_ret (C := slow) (pid, true) _)|].
    refine (timely_bind (C := slow) _ _ _ _ _); [auto with timely|]. intros _. apply timely_raise. congruence. }
  intros [[pid gate]|e]; [apply start_timely|]. apply timely_bind; [apply error_timely, _|auto with timely].
Qed.
End Termination.

(** ** Witnesses: a job on the scripted system *)

Definition demo_run (fuel : nat) : result unit * world nat :=
  run (H := demo_host) fuel true true (float_of_Z 5) 65536 (float_of_Z 3600) demo_world.

Example demo_run_succeeds :
  fst (demo_run 100) = Ok tt /\ status (job (snd (demo_run 100))) = str "succeeded" /\
  List.filter (fun x => match x with EGo | EExit _ | EPopen _ => true | _ => false end) (trace (snd (demo_run 100)))
  = [EPopen 4242; EGo; EExit 0].
Proof. vm_compute. done. Qed.

Lemma run_outcome_witness :
  exists l, trace (snd (demo_run 100)) = trace demo_world ++ l /\ is_terminal (job (snd (demo_run 100))) = true /\
    reasons (float_of_Z 3600) l (job (snd (demo_run 100))) /\ (In EGo l -> reaped l (job (snd (demo_run 100)))).
Proof.
  apply (run_outcome (H := demo_host) 100 true true (float_of_Z 5) 65536 (float_of_Z 3600) demo_world);
    vm_compute; reflexivity.
Defined.

Lemma demo_host_sane : sane demo_host.
Proof.
  split; cbn; try done. intros p _ _. unfold demo_files.
  repeat match goal with |- context [if ?b then _ else _] => destruct b; [done|] end. done.
Qed.

Lemma run_ends_witness :
  exists l deadline, trace (snd (demo_run 2)) = trace demo_world ++ l /\ (2 <= early deadline l)%nat.
Proof.
  apply (run_ends (H := demo_host) demo_host_sane 2 true true (float_of_Z 5) 65536 (float_of_Z 3600) demo_world).
  vm_compute. reflexivity.
Defined.
