(* ===== verification/Agent.v ===== *)
(** * The host agent's request handler

    [AgentServer] of [host_agent/dgx_ops_agent/server.py]: verification, dispatch
    of the actions, waiting for read-only jobs and the signed responses.  The
    job runner is used through an interface, [JobService]; the handler is
    proved against it, and [recorded] is an instance that also writes down
    the calls it receives. *)
From Stdlib Require Import ZArith Lia Bool String.
From Stdlib Require Import SpecFloat.
From stdpp Require Import prelude.
From S2P Require Import Prelude PyValue PyFloat Utf8 Sha256 Json Protocol Policy JobStore.
Open Scope Z_scope.

Definition READ_COMPLETION_GRACE : spec_float := float_of_Z 1.
Definition READ_POLL_INTERVAL : spec_float := parse_float (str "0.05").
Definition DEFAULT_MAX_AGE : Z := 30.

(** ** What the agent uses of the job runner and the clocks *)
Class JobService (R : Type) := {
  svc_start : ValidatedAction -> R -> result Job * R;
  svc_get : pystr -> option pyval -> R -> result Job * R;
  svc_cancel : pystr -> R -> result Job * R;
  (** [int(clock())], [monotonic()], [sleeper(seconds)] *)
  svc_clock : R -> Z * R;
  svc_monotonic : R -> spec_float * R;
  svc_sleep : spec_float -> R -> R;
  (** [getattr(runner, "termination_grace", 5.0)] *)
  svc_grace : R -> spec_float;
}.

Definition plus (a b : spec_float) : spec_float := SFadd float_prec float_emax a b.
Definition minus (a b : spec_float) : spec_float := SFsub float_prec float_emax a b.

(** [max(a, b)] and [min(a, b)] of two floats: the first unless the second is
    strictly beyond it *)
Definition float_max (a b : spec_float) : spec_float := if SFltb a b then b else a.
Definition float_min (a b : spec_float) : spec_float := if SFltb b a then b else a.

Definition invalid_parameters : exn := ValueError (str "invalid parameters").

Definition require_keys (parameters : pydict) (expected : list pystr) : result unit :=
  guard_exn (keys_equal parameters expected) invalid_parameters.

(** [_validate_job_id]: what it accepts *)
Definition validate_job_id (job_id : pyval) : result pystr :=
  match job_id with
  | PStr s => if (zlen s =? 36) && valid_job_id job_id then Ok s else Raise invalid_parameters
  | _ => Raise invalid_parameters
  end.

(** The "offset" of "job.get", if it is given *)
Definition validate_offset (parameters : pydict) : result (option pyval) :=
  match dict_get (str "offset") parameters with
  | None => Ok None
  | Some (PInt n) => if n <? 0 then Raise invalid_parameters else Ok (Some (PInt n))
  | Some _ => Raise invalid_parameters
  end.

Definition job_id_key : pystr := str "job_id".
Definition offset_key : pystr := str "offset".

(** ** Responses *)

Definition opt_dict (o : option pydict) : pyval := match o with Some d => PDict d | None => PNone end.
Definition opt_str (o : option pystr) : pyval := match o with Some s => PStr s | None => PNone end.

Definition error_value (error : option (pystr * pystr)) : pyval :=
  match error with
  | None => PNone
  | Some (code, detail) => PDict [(str "code", PStr code); (str "message", PStr detail)]
  end.

(** The fields of a response, before it is signed *)
Definition response_fields (request_id : pyval) (result : option pydict) (error : option (pystr * pystr)) (now : Z)
    : pydict :=
  [(str "protocol_version", PInt PROTOCOL_VERSION);
   (str "request_id", request_id);
   (str "ok", PBool (match error with None => true | Some _ => false end));
   (str "result", opt_dict result);
   (str "error", error_value error);
   (str "timestamp", PInt now)].

(** [_response] *)
Definition response (secret : bytes) (request_id : pyval) (result : option pydict)
    (error : option (pystr * pystr)) (now : Z) : Prelude.result pydict :=
  sign_message (PDict (response_fields request_id result error now)) secret.

(** [str(exc)] of a [ProtocolError] *)
Definition protocol_message (e : exn) : pystr := match e with ProtocolError m => m | _ => [] end.

(** [_protocol_error] *)
Definition protocol_error_response (e : exn) : pystr * pystr :=
  let message := protocol_message e in
  if str_eqb message (str "replayed nonce") then (str "replay_detected", str "request already processed")
  else if str_in message [str "expired request"; str "request timestamp is too far in the future"]
  then (str "expired_request", str "request timestamp is outside the allowed window")
  else if str_eqb message (str "invalid signature")
  then (str "authentication_failed", str "request authentication failed")
  else (str "invalid_request", str "invalid request").

(** The [except] clauses around [_dispatch], in their order: the result and
    the error of the response *)
Definition dispatch_error (e : exn) : option pydict * (pystr * pystr) :=
  match e with
  | UnknownAction => (None, (str "unknown_action", str "unknown action"))
  | ApprovalRequired => (None, (str "approval_required", str "shell execution requires approval"))
  | PolicyError _ => (None, (str "policy_rejected", str "request rejected by policy"))
  | OperationTimeout job_id =>
      (Some [(job_id_key, PStr job_id)],
       (str "operation_timeout", str "operation did not finish before the server deadline"))
  | KeyError _ => (None, (str "job_not_found", str "job not found"))
  | _ => if is_ValueError e then (None, (str "invalid_parameters", str "invalid parameters"))
         else (None, (str "operation_failed", str "operation failed"))
  end.

Section Agent.
Context {R : Type} `{JobService R}.

(** ** Waiting for a read-only job *)

Definition job_terminal (j : Job) : bool := str_in (job_status j) TERMINAL_STATUSES.

Definition wait_fuel : exn := OtherException (str "out of fuel").

(** The loop of [_await_read_job] *)
Fixpoint await_loop (fuel : nat) (job_id : pystr) (deadline : spec_float) (r : R) : result Job * R :=
  match fuel with
  | O => (Raise wait_fuel, r)
  | S k =>
      match svc_get job_id None r with
      | (Raise e, r) => (Raise e, r)
      | (Ok current, r) =>
          if job_terminal current then (Ok current, r)
          else
            let '(now, r) := svc_monotonic r in
            let remaining := minus deadline now in
            if SFleb remaining (float_of_Z 0) then
              match svc_cancel job_id r with
              | (Raise e, r) => (Raise e, r)
              | (Ok cancelled, r) =>
                  if job_terminal cancelled then (Ok cancelled, r) else (Raise (OperationTimeout job_id), r)
              end
            else await_loop k job_id deadline (svc_sleep (float_min READ_POLL_INTERVAL remaining) r)
      end
  end.

(** [_await_read_job] *)
Definition await_read_job (fuel : nat) (initial : Job) (action_timeout : Z) (r : R) : result Job * R :=
  if job_terminal initial then (Ok initial, r)
  else
    let grace := float_min (float_max (svc_grace r) (float_of_Z 0)) (float_of_Z 5) in
    let '(now, r) := svc_monotonic r in
    let deadline := plus (plus (plus now (float_of_Z action_timeout)) grace) READ_COMPLETION_GRACE in
    await_loop fuel (job_id initial) deadline r.

(** ** Dispatch *)

Definition of_job (x : result Job * R) : result pydict * R := (job_as_dict <$> fst x, snd x).

Definition dispatch_get (parameters : pydict) (r : R) : result pydict * R :=
  match (_ ← guard_exn (keys_equal parameters [job_id_key] || keys_equal parameters [job_id_key; offset_key])
               invalid_parameters;
         jid ← validate_job_id (item parameters "job_id");
         offset ← validate_offset parameters;
         Ok (jid, offset)) with
  | Raise e => (Raise e, r)
  | Ok (jid, offset) => of_job (svc_get jid offset r)
  end.

Definition dispatch_cancel (parameters : pydict) (r : R) : result pydict * R :=
  match (_ ← require_keys parameters [job_id_key]; validate_job_id (item parameters "job_id")) with
  | Raise e => (Raise e, r)
  | Ok jid => of_job (svc_cancel jid r)
  end.

(** Running a validated action *)
Definition run_action (fuel : nat) (validated : ValidatedAction) (r : R) : result pydict * R :=
  match svc_start validated r with
  | (Raise e, r) => (Raise e, r)
  | (Ok j, r) =>
      if negb (va_read_only validated) then (Ok (job_as_dict j), r)
      else of_job (await_read_job fuel j (va_timeout validated) r)
  end.

(** [_dispatch]; [now] is the time that [validate_action] reads when a request
    has no timestamp *)
Definition dispatch (fuel : nat) (now : Z) (request : pydict) (r : R) : result pydict * R :=
  match item request "action", item request "parameters" with
  | PStr action, PDict parameters =>
      if str_eqb action (str "agent.health") then
        (_ ← require_keys parameters [];
         Ok [(str "status", PStr (str "ok")); (str "protocol_version", PInt PROTOCOL_VERSION)], r)
      else if str_eqb action (str "job.get") then dispatch_get parameters r
      else if str_eqb action (str "job.cancel") then dispatch_cancel parameters r
      else if negb (str_in action READ_ONLY_ACTIONS) && negb (str_eqb action SHELL) then (Raise UnknownAction, r)
      else if str_eqb action SHELL && negb (dict_mem (str "approval") request) then (Raise ApprovalRequired, r)
      else
        match validate_action now (PStr action) (PDict parameters) (get_or_none (str "approval") request)
                (item request "timestamp") with
        | Raise e => (Raise e, r)
        | Ok validated => run_action fuel validated r
        end
  | _, _ => (Raise (TypeError []), r)
  end.

(** ** The agent *)
Record agent := mkAgent { nonces : NonceCache; service : R }.

(** [handle]: one message in, one signed response out *)
Definition handle (fuel : nat) (secret : bytes) (message : pyval) (a : agent) : result pydict * agent :=
  let '(now, r) := svc_clock (service a) in
  match verify_message message secret (PInt now) (PInt DEFAULT_MAX_AGE) (nonces a) with
  | (Raise e, c) =>
      (if is_ProtocolError e then response secret PNone None (Some (protocol_error_response e)) now else Raise e,
       mkAgent c r)
  | (Ok request, c) =>
      match dispatch fuel now request r with
      | (Ok res, r) => (response secret (item request "request_id") (Some res) None now, mkAgent c r)
      | (Raise e, r) =>
          let '(res, error) := dispatch_error e in
          (response secret (item request "request_id") res (Some error) now, mkAgent c r)
      end
  end.

(** ** Connections *)

(** [_DeadlineReader]: the connection behind it, its deadline, and the
    exception the last [recv] raised, which a [ProtocolError] has as cause *)
Class Connection (C : Type) := {
  conn_monotonic : C -> spec_float * C;
  conn_recv : spec_float -> Z -> C -> result bytes * C;
  conn_sendall : bytes -> C -> result unit * C;
}.

Record deadline_reader (C : Type) := mkDeadlineReader { dr_connection : C; dr_deadline : spec_float; dr_cause : option exn }.
Arguments mkDeadlineReader {C}.
Arguments dr_connection {C}.
Arguments dr_deadline {C}.
Arguments dr_cause {C}.

#[export] Instance deadline_recv {C} `{Connection C} : Reader (deadline_reader C) := fun size d =>
  let '(now, c) := conn_monotonic (dr_connection d) in
  let remaining := minus (dr_deadline d) now in
  let '(x, c) := if SFleb remaining (float_of_Z 0)
                 then (Raise (TimeoutError (str "request read deadline exceeded")), c)
                 else conn_recv remaining size c in
  (x, mkDeadlineReader c (dr_deadline d) (match x with Raise e => Some e | Ok _ => None end)).

Definition is_TimeoutError (e : exn) : bool := match e with TimeoutError _ => true | _ => false end.

(** The error for a frame that could not be read *)
Definition frame_error (cause : option exn) (e : exn) : pystr * pystr :=
  if match cause with Some c => is_TimeoutError c | None => false end
  then (str "read_timeout", str "request read timed out")
  else if str_eqb (protocol_message e) (str "frame too large") then (str "frame_too_large", str "frame too large")
  else (str "invalid_frame", str "invalid request frame").

(** The socket as the writer of [write_frame] *)
Definition connection_writer {C} `{Connection C} : writer_ops C :=
  {| sendall := Some conn_sendall; write := None; flush := None |}.

(** [serve_connection] *)
Definition serve_connection {C} `{Connection C} (fuel : nat) (secret : bytes) (read_timeout : spec_float)
    (a : agent) (c : C) : result unit * agent * C :=
  let '(start, c) := conn_monotonic c in
  let '(frame, d) := read_frame (mkDeadlineReader c (plus start read_timeout) None) in
  let c := dr_connection d in
  let '(answer, a) :=
    match frame with
    | Ok message => handle fuel secret (PDict message) a
    | Raise e =>
        if is_ProtocolError e then
          let '(now, r) := svc_clock (service a) in
          (response secret PNone None (Some (frame_error (dr_cause d) e)) now, mkAgent (nonces a) r)
        else (Raise e, a)
    end in
  match answer with
  | Raise e => (Raise e, a, c)
  | Ok reply =>
      let '(sent, c) := write_frame connection_writer (PDict reply) c in
      (except sent (fun e => if is_ProtocolError e then Some (Ok tt) else None), a, c)
  end.
End Agent.
Arguments agent : clear implicits.
Arguments mkAgent {R}.
Arguments nonces {R}.
Arguments service {R}.

(** ** Every message is answered *)

(** A dictionary that can be sent as a result *)
Definition sendable (d : pydict) : bool := tree_ok 1 (PDict d) && encodable (compact true) (PDict d).

Definition lookup_error (e : exn) : bool := match e with KeyError _ => true | _ => is_ValueError e end.

(** What the agent expects of the runner: jobs it can send, a clock in the
    protocol's range, and lookups that raise [KeyError] or [ValueError] only *)
Class JobServiceSpec (R : Type) `{JobService R} : Prop := {
  start_sendable : forall va r j r', svc_start va r = (Ok j, r') -> sendable (job_as_dict j) = true;
  get_sendable : forall jid offset r j r', svc_get jid offset r = (Ok j, r') -> sendable (job_as_dict j) = true;
  cancel_sendable : forall jid r j r', svc_cancel jid r = (Ok j, r') -> sendable (job_as_dict j) = true;
  clock_range : forall r, 0 <= fst (svc_clock r) <= MAX_TIMESTAMP;
  get_errors : forall jid offset r e r', svc_get jid offset r = (Raise e, r') -> lookup_error e = true;
  cancel_errors : forall jid r e r', svc_cancel jid r = (Raise e, r') -> lookup_error e = true;
}.

(** A response with the agent's signature *)
Definition signed_by (secret : bytes) (resp : pydict) : Prop :=
  exists body, canonical_bytes (PDict resp) = Ok body /\ get_or_none SIGNATURE resp = PStr (hmac_hexdigest secret body).

Lemma response_signed secret request_id result error now :
  MIN_SECRET_SIZE <= zlen secret -> request_id = PNone \/ (exists s, request_id = PStr s) ->
  (forall d, result = Some d -> sendable d = true) -> 0 <= now <= MAX_TIMESTAMP ->
  exists resp, response secret request_id result error now = Ok resp /\ signed_by secret resp /\
    dict_del SIGNATURE resp = response_fields request_id result error now.
Proof.
  intros Hs Hid Hres Hnow. unfold response, sign_message, validate_secret.
  rewrite (proj2 (Z.leb_le _ _) Hs). cbn [guard_exn mbind result_bind as_dict of_option].
  set (d := response_fields request_id result error now).
  assert (Hnone : dict_get SIGNATURE d = None) by done.
  assert (Htree : tree_ok 0 (PDict d) = true).
  { change (PDict d) with (PDict (response_fields request_id result error now)).
    unfold response_fields. cbn [tree_ok forallb snd]. apply andb_true_iff; split; [done|].
    apply andb_true_iff; split; [done|]. apply andb_true_iff; split; [by destruct Hid as [-> |(s & ->)]|].
    apply andb_true_iff; split; [done|]. apply andb_true_iff; split.
    { destruct result as [x|]; [|done]. specialize (Hres x eq_refl). by apply andb_true_iff in Hres as [? _]. }
    by destruct error as [[code detail]|]. }
  assert (Henc : encodable (compact true) (PDict d) = true).
  { change (PDict d) with (PDict (response_fields request_id result error now)).
    unfold response_fields. cbn [encodable forallb snd]. apply andb_true_iff; split; [done|].
    apply andb_true_iff; split; [by destruct Hid as [-> |(s & ->)]|].
    apply andb_true_iff; split; [done|]. apply andb_true_iff; split.
    { destruct result as [x|]; [|done]. specialize (Hres x eq_refl). by apply andb_true_iff in Hres as [_ ?]. }
    apply andb_true_iff; split; [by destruct error as [[code detail]|]|].
    apply andb_true_iff; split; [|done].
    apply Z.leb_le. unfold MAX_TIMESTAMP in Hnow. pose proof (dec_length (Z.abs now) 20 ltac:(lia) ltac:(lia)).
    unfold MAX_STR_DIGITS. lia. }
  assert (Hcan : exists body, canonical_bytes (PDict d) = Ok body).
  { unfold canonical_bytes. cbn [as_dict]. rewrite dict_del_absent by done.
    rewrite (proj2 (validate_json_tree_Ok _ tt) Htree). cbn [mbind result_bind]. unfold dumps. rewrite Henc. eauto. }
  destruct Hcan as (body & Hbody). rewrite Hbody. cbn [mbind result_bind].
  eexists. split; [reflexivity|]. split; [|by apply dict_del_set].
  exists body. rewrite canonical_bytes_sign by done. split; [done|].
  unfold get_or_none. by rewrite dict_get_set_eq.
Qed.

Section Answers.
Context {R : Type} `{JobServiceSpec R}.

Lemma await_sendable fuel jid deadline : forall r j r', await_loop fuel jid deadline r = (Ok j, r') ->
  sendable (job_as_dict j) = true.
Proof.
  induction fuel as [|k IH]; intros r j r'; cbn [await_loop]; [done|].
  destruct (svc_get jid None r) as [[cur|e] r1] eqn:Hg; [|done].
  destruct (job_terminal cur); [intros [= <- _]; by eapply get_sendable|].
  destruct (svc_monotonic r1) as [now r2]. destruct (SFleb _ _); [|apply IH].
  destruct (svc_cancel jid r2) as [[c|e] r3] eqn:Hc; [|done].
  destruct (job_terminal c); [intros [= <- _]; by eapply cancel_sendable|done].
Qed.

Lemma of_job_Ok (x : result Job * R) d r : of_job x = (Ok d, r) -> exists j, x = (Ok j, r) /\ d = job_as_dict j.
Proof. destruct x as [[j|e] r']; [|done]. intros [= <- <-]. by exists j. Qed.

Lemma dispatch_sendable fuel now request r d r' : dispatch fuel now request r = (Ok d, r') -> sendable d = true.
Proof.
  unfold dispatch. destruct (item request "action") as [| | | |action| |]; try done.
  destruct (item request "parameters") as [| | | | | |params]; try done.
  destruct (str_eqb action (str "agent.health")).
  { destruct (require_keys params []); [|done]. intros [= <- _]. done. }
  destruct (str_eqb action (str "job.get")).
  { unfold dispatch_get. destruct (_ ≫= _) as [[jid offset]|e]; [|done].
    intros (j & Hj & ->)%of_job_Ok. by eapply get_sendable. }
  destruct (str_eqb action (str "job.cancel")).
  { unfold dispatch_cancel. destruct (_ ≫= _) as [jid|e]; [|done]. intros (j & Hj & ->)%of_job_Ok. by eapply cancel_sendable. }
  destruct (_ && _); [done|]. destruct (_ && _); [done|]. destruct (validate_action _ _ _ _ _) as [va|e]; [|done].
  unfold run_action. destruct (svc_start va r) as [[j|e] r1] eqn:Hst; [|done].
  destruct (negb _); [intros [= <- _]; by eapply start_sendable|].
  intros (j' & Hj & ->)%of_job_Ok. unfold await_read_job in Hj.
  destruct (job_terminal j); [injection Hj as <- _; by eapply start_sendable|].
  destruct (svc_monotonic r1) as [t r2]. by eapply await_sendable.
Qed.

(** The identifier of an accepted request *)
Lemma accepted_request_id message secret now max_age c r c' :
  verify_message message secret (PInt now) (PInt max_age) c = (Ok r, c') -> exists s, item r "request_id" = PStr s.
Proof.
  destruct (verify_message_cases message secret now max_age c)
    as [(e & E & ->)|(d & nonce & t & -> & Ha & E & ->)]; [done|].
  destruct (consume_locked _ _ _ _ _) as [[u|e] c1]; cbn [fst snd]; [|done]. intros [= <- _].
  destruct (wf_request_id _ _ _ (au_request _ _ _ _ _ _ Ha)) as (s & Hs & _). exists s.
  unfold item, get_or_none in *. by rewrite dict_get_del_ne.
Qed.

(** What the agent answers *)
Lemma handle_answer fuel secret message a : MIN_SECRET_SIZE <= zlen secret ->
  exists resp, fst (handle fuel secret message a) = Ok resp /\ signed_by secret resp /\
    let '(now, r) := svc_clock (service a) in
    match fst (verify_message message secret (PInt now) (PInt DEFAULT_MAX_AGE) (nonces a)) with
    | Raise e => dict_del SIGNATURE resp = response_fields PNone None (Some (protocol_error_response e)) now
    | Ok request =>
        match fst (dispatch fuel now request r) with
        | Ok d => dict_del SIGNATURE resp = response_fields (item request "request_id") (Some d) None now
        | Raise e => dict_del SIGNATURE resp = response_fields (item request "request_id") (fst (dispatch_error e))
                                                 (Some (snd (dispatch_error e))) now
        end
    end.
Proof.
  intros Hs. unfold handle. pose proof (clock_range (service a)) as Hclock.
  destruct (svc_clock (service a)) as [now r]. cbn [fst] in Hclock.
  destruct (verify_message _ _ _ _ _) as [[request|e] c] eqn:Hv; cbn [fst].
  - destruct (accepted_request_id _ _ _ _ _ _ _ Hv) as (rid & Hrid).
    destruct (dispatch fuel now request r) as [[d|e] r'] eqn:Hd; cbn [fst].
    + apply response_signed; try done; [right; by exists rid|]. intros d' [= <-]. by eapply dispatch_sendable.
    + destruct (dispatch_error e) as [res err] eqn:He. cbn [fst snd].
      apply response_signed; try done; [right; by exists rid|].
      intros d ->. unfold dispatch_error in He. destruct e; cbn in He; try destruct (is_ValueError _); simplify_eq; done.
  - assert (is_ProtocolError e = true) as ->.
    { destruct (verify_message_cases message secret now DEFAULT_MAX_AGE (nonces a))
        as [(e' & E & E2)|(d & nonce & t & -> & Ha & E & E2)]; rewrite E2 in Hv.
      - injection Hv as -> _. by eapply authenticate_Raise.
      - destruct (consume_locked_cases nonce t now DEFAULT_MAX_AGE (nonces a)) as [[_ E3]|[(_ & _ & E3)|(_ & _ & E3)]];
          rewrite E3 in Hv; cbn in Hv; by simplify_eq. }
    by apply response_signed; [|left| |].
Qed.

(** Every message is answered: whatever arrives and whatever the runner
    does, [handle] returns a response signed by the agent; it has "ok" true
    and the action's result exactly when the message was accepted and its
    action succeeded, it names the request it answers when the message was
    accepted, and no request otherwise. *)
Theorem handle_answers fuel secret message a : MIN_SECRET_SIZE <= zlen secret ->
  exists resp, fst (handle fuel secret message a) = Ok resp /\ signed_by secret resp /\
    let '(now, r) := svc_clock (service a) in
    match fst (verify_message message secret (PInt now) (PInt DEFAULT_MAX_AGE) (nonces a)) with
    | Raise e => dict_del SIGNATURE resp = response_fields PNone None (Some (protocol_error_response e)) now
    | Ok request =>
        match fst (dispatch fuel now request r) with
        | Ok d => dict_del SIGNATURE resp = response_fields (item request "request_id") (Some d) None now
        | Raise e => dict_del SIGNATURE resp = response_fields (item request "request_id") (fst (dispatch_error e))
                                                 (Some (snd (dispatch_error e))) now
        end
    end.
Proof. apply handle_answer. Qed.
End Answers.

(** ** What reaches the runner *)

Inductive call :=
  | CStart (va : ValidatedAction)
  | CGet (jid : pystr)
  | CCancel (jid : pystr)
  | CMonotonic (t : spec_float).

(** The service that also records the calls *)
#[export] Instance recorded {R} `{JobService R} : JobService (R * list call) := {|
  svc_start va x := let '(j, r) := svc_start va (fst x) in (j, (r, snd x ++ [CStart va]));
  svc_get jid offset x := let '(j, r) := svc_get jid offset (fst x) in (j, (r, snd x ++ [CGet jid]));
  svc_cancel jid x := let '(j, r) := svc_cancel jid (fst x) in (j, (r, snd x ++ [CCancel jid]));
  svc_clock x := let '(t, r) := svc_clock (fst x) in (t, (r, snd x));
  svc_monotonic x := let '(t, r) := svc_monotonic (fst x) in (t, (r, snd x ++ [CMonotonic t]));
  svc_sleep d x := (svc_sleep d (fst x), snd x);
  svc_grace x := svc_grace (fst x);
|}.

Definition started (l : list call) : list ValidatedAction :=
  omap (fun c => match c with CStart va => Some va | _ => None end) l.

(** Calls that do not start anything *)
Definition not_start (c : call) : Prop := match c with CStart _ => False | _ => True end.

Lemma not_start_started l : Forall not_start l -> started l = [].
Proof. induction 1 as [|c l Hc Hl IH]; [done|]. destruct c; [done|exact IH..]. Qed.

Section Calls.
Context {R : Type} `{JobService R}.
Implicit Types x : R * list call.

(** Readings of the clock that leave the waiting loop time *)
Definition unexpired (deadline : spec_float) (l : list call) : nat :=
  length (List.filter (fun c => match c with
                                | CMonotonic t => negb (SFleb (minus deadline t) (float_of_Z 0))
                                | _ => false
                                end) l).

Lemma unexpired_app d l k : unexpired d (l ++ k) = (unexpired d l + unexpired d k)%nat.
Proof. unfold unexpired. by rewrite List.filter_app, length_app. Qed.

Lemma await_not_start fuel jid deadline : forall x,
  exists l, snd (snd (await_loop fuel jid deadline x)) = snd x ++ l /\ Forall not_start l.
Proof.
  assert (here : forall y : list call, exists l, y = y ++ l /\ Forall not_start l).
  { intros y. exists []. by rewrite app_nil_r. }
  assert (more : forall (y z : list call) k, (exists l, z = (y ++ k) ++ l /\ Forall not_start l) -> Forall not_start k ->
    exists l, z = y ++ l /\ Forall not_start l).
  { intros y z k (l & -> & Hl) Hk. exists (k ++ l). rewrite app_assoc. split; [done|]. by apply Forall_app. }
  induction fuel as [|k IH]; intros x; cbn [await_loop]; [apply here|].
  cbn [svc_get recorded]. destruct (svc_get jid None (fst x)) as [[j|e] r1];
    (apply (more _ _ [CGet jid]); [|by repeat constructor]); [|apply here].
  destruct (job_terminal j); [apply here|].
  cbn [svc_monotonic recorded fst snd]. destruct (svc_monotonic r1) as [t r2].
  apply (more _ _ [CMonotonic t]); [|by repeat constructor].
  destruct (SFleb _ _).
  - cbn [svc_cancel recorded fst snd]. destruct (svc_cancel jid r2) as [[c|e] r3]; cbn [fst snd];
      (apply (more _ _ [CCancel jid]); [|by repeat constructor]); [|apply here].
    destruct (job_terminal c); apply here.
  - apply IH.
Qed.

(** Waiting for a read-only job ends: the loop answers a finished job,
    or passes on a lookup error of the runner, or reports a timeout of this
    job, and then the deadline had passed and the job's cancellation was
    requested; it uses up its fuel only after as many clock readings that
    were before the deadline. *)
Theorem await_ends `{!JobServiceSpec R} fuel jid deadline x :
  let '(res, x') := await_loop fuel jid deadline x in
  exists l, snd x' = snd x ++ l /\
    match res with
    | Ok j => job_terminal j = true
    | Raise (OperationTimeout i) => i = jid /\ In (CCancel jid) l /\
        exists t, In (CMonotonic t) l /\ SFleb (minus deadline t) (float_of_Z 0) = true
    | Raise e => lookup_error e = true \/ e = wait_fuel /\ (fuel <= unexpired deadline l)%nat
    end.
Proof.
  revert x. induction fuel as [|k IH]; intros x; cbn [await_loop].
  { exists []. rewrite app_nil_r. split; [done|]. right. split; [done|]. lia. }
  cbn [svc_get recorded]. destruct (svc_get jid None (fst x)) as [[j|e] r1] eqn:Hg.
  2: { exists [CGet jid]. split; [done|]. apply get_errors in Hg. destruct e; try (by left); done. }
  destruct (job_terminal j) eqn:Hj; [by exists [CGet jid]|].
  cbn [svc_monotonic recorded fst snd]. destruct (svc_monotonic r1) as [t r2].
  destruct (SFleb (minus deadline t) (float_of_Z 0)) eqn:Hd.
  - cbn [svc_cancel recorded fst snd]. destruct (svc_cancel jid r2) as [[c|e] r3] eqn:Hc; cbn [fst snd].
    + destruct (job_terminal c) eqn:Hct; exists [CGet jid; CMonotonic t; CCancel jid];
        (split; [by rewrite <- !app_assoc|]); [done|].
      split; [done|]. split; [by right; right; left|]. exists t. split; [by right; left|done].
    + exists [CGet jid; CMonotonic t; CCancel jid]. split; [by rewrite <- !app_assoc|].
      apply cancel_errors in Hc. destruct e; try (by left); done.
  - match goal with |- context [await_loop k jid deadline ?y] => specialize (IH y); destruct (await_loop k jid deadline y) as [res x'] end.
    destruct IH as (l & Hl & Hres). exists ([CGet jid; CMonotonic t] ++ l). cbn [snd svc_sleep recorded] in Hl.
    rewrite Hl, <- !app_assoc. split; [done|].
    assert (Hu : unexpired deadline ([CGet jid; CMonotonic t] ++ l) = S (unexpired deadline l)).
    { unfold unexpired. cbn [app List.filter]. rewrite Hd. reflexivity. }
    rewrite Hu. destruct res as [j'|e]; [done|]. destruct e; try (destruct Hres as [?|[? ?]]; [by left|right; split; [done|lia]]).
    destruct Hres as (-> & H1 & t' & H2 & H3). split; [done|]. split; [by right; right|].
    exists t'. split; [by right; right|done].
Qed.

(** What one dispatch makes the runner start *)
Lemma dispatch_started fuel now request x :
  exists l, snd (snd (dispatch fuel now request x)) = snd x ++ l /\
    (started l = [] \/ exists action parameters va, started l = [va] /\
       item request "action" = PStr action /\ item request "parameters" = PDict parameters /\
       validate_action now (PStr action) (PDict parameters) (get_or_none (str "approval") request)
         (item request "timestamp") = Ok va /\
       (action = SHELL -> dict_mem (str "approval") request = true)).
Proof.
  assert (none : exists l : list call, snd x = snd x ++ l /\ started l = []).
  { exists []. by rewrite app_nil_r. }
  assert (nothing : forall y : list call, (exists l, y = snd x ++ l /\ started l = []) ->
    exists l, y = snd x ++ l /\ (started l = [] \/ exists action parameters va, started l = [va] /\
       item request "action" = PStr action /\ item request "parameters" = PDict parameters /\
       validate_action now (PStr action) (PDict parameters) (get_or_none (str "approval") request)
         (item request "timestamp") = Ok va /\
       (action = SHELL -> dict_mem (str "approval") request = true))).
  { intros y (l & ? & ?). exists l. auto. }
  unfold dispatch. destruct (item request "action") as [| | | |action| |]; try by apply nothing.
  destruct (item request "parameters") as [| | | | | |params]; try by apply nothing.
  destruct (str_eqb action (str "agent.health")); [by apply nothing|].
  destruct (str_eqb action (str "job.get")).
  { apply nothing. unfold dispatch_get. destruct (_ ≫= _) as [[jid offset]|e]; [|done].
    cbn [svc_get recorded]. destruct (svc_get jid offset (fst x)) as [j r]. by exists [CGet jid]. }
  destruct (str_eqb action (str "job.cancel")).
  { apply nothing. unfold dispatch_cancel. destruct (_ ≫= _) as [jid|e]; [|done].
    cbn [svc_cancel recorded]. destruct (svc_cancel jid (fst x)) as [j r]. by exists [CCancel jid]. }
  destruct (_ && _); [by apply nothing|].
  destruct (str_eqb action SHELL && negb (dict_mem (str "approval") request)) eqn:Happ; [by apply nothing|].
  destruct (validate_action _ _ _ _ _) as [va|e] eqn:Hv; [|by apply nothing].
  assert (Hshell : action = SHELL -> dict_mem (str "approval") request = true).
  { intros ->. rewrite str_eqb_refl in Happ. by apply negb_false_iff in Happ. }
  assert (Hstart : forall l, Forall not_start l -> started ([CStart va] ++ l) = [va]).
  { intros l Hl. change (started ([CStart va] ++ l)) with (va :: started l). by rewrite not_start_started. }
  unfold run_action. cbn [svc_start recorded]. destruct (svc_start va (fst x)) as [[j|e] r1].
  2: { exists [CStart va]. split; [done|]. right. exists action, params, va. split; [by apply (Hstart [])|done]. }
  destruct (negb (va_read_only va)).
  { exists [CStart va]. split; [done|]. right. exists action, params, va. split; [by apply (Hstart [])|done]. }
  unfold of_job, await_read_job. cbn [snd]. destruct (job_terminal j).
  { exists [CStart va]. split; [done|]. right. exists action, params, va. split; [by apply (Hstart [])|done]. }
  cbn [svc_monotonic recorded fst snd]. destruct (svc_monotonic r1) as [t r2].
  match goal with |- context [await_loop fuel (job_id j) ?d ?y] => destruct (await_not_start fuel (job_id j) d y) as (l & Hl & Hn) end.
  rewrite Hl. cbn [snd]. exists ([CStart va] ++ ([CMonotonic t] ++ l)). rewrite <- !app_assoc. split; [done|].
  right. exists action, params, va. rewrite Hstart; [done|]. by constructor.
Qed.

(** C6.  Nothing runs without authorisation: a message makes the runner start
    at most one job, only after the message was verified (signed with the
    secret, well formed, in time, with a fresh nonce), and only the action
    that the policy made of its fields, which for a shell command includes
    an approval in the signed message; and a message that is not verified
    does not reach the runner at all. *)
Theorem handle_starts_authorised fuel secret message (c : NonceCache) x :
  let '(now, r) := svc_clock x in
  let verified := fst (verify_message message secret (PInt now) (PInt DEFAULT_MAX_AGE) c) in
  exists l, snd (service (snd (handle fuel secret message (mkAgent c x)))) = snd x ++ l /\
    (is_ok verified = false -> l = []) /\
    (started l = [] \/ exists request action parameters va, verified = Ok request /\ started l = [va] /\
       item request "action" = PStr action /\ item request "parameters" = PDict parameters /\
       validate_action now (PStr action) (PDict parameters) (get_or_none (str "approval") request)
         (item request "timestamp") = Ok va /\
       (action = SHELL -> dict_mem (str "approval") request = true)).
Proof.
  unfold handle. cbn [service nonces].
  assert (Hclock : snd (snd (svc_clock x)) = snd x) by (cbn; by destruct (svc_clock (fst x))).
  destruct (svc_clock x) as [now r]. cbn [snd] in Hclock.
  destruct (verify_message _ _ _ _ _) as [[request|e] c'] eqn:Hv; cbn [fst is_ok].
  - destruct (dispatch_started fuel now request r) as (l & Hl & Hs). exists l. rewrite <- Hclock.
    split; [|split; [done|]].
    + destruct (dispatch fuel now request r) as [[d|e] r']; cbn [snd service] in *; [done|].
      by destruct (dispatch_error e).
    + destruct Hs as [Hs|(action & params & va & H1 & H2)]; [by left|right]. by exists request, action, params, va.
  - exists []. rewrite app_nil_r. split; [by destruct (is_ProtocolError e)|]. split; [done|by left].
Qed.
End Calls.

(** ** A concrete service: a job that runs until the third tick of its clock *)
Definition demo_id : pystr := str "12345678-1234-5678-1234-567812345678".

Definition demo_job (tick : nat) : Job :=
  {| job_id := demo_id;
     job_status := if (tick <? 3)%nat then str "running" else str "succeeded";
     job_output := []; job_output_offset := 0; job_truncated_before := 0; job_exit_code := None;
     job_started := None; job_finished := None; job_error := None |}.

#[export] Instance demo_service : JobService nat := {|
  svc_start va tick := (Ok (demo_job tick), tick);
  svc_get jid offset tick :=
    (if str_eqb jid demo_id then Ok (demo_job tick) else Raise (KeyError (str "job not found")), tick);
  svc_cancel jid tick :=
    (if str_eqb jid demo_id then Ok (demo_job tick) else Raise (KeyError (str "job not found")), tick);
  svc_clock tick := (1000, tick);
  svc_monotonic tick := (float_of_Z (Z.of_nat tick), tick);
  svc_sleep _ tick := S tick;
  svc_grace _ := float_of_Z 5;
|}.

#[export] Instance demo_service_spec : JobServiceSpec nat.
Proof.
  assert (send : forall tick, sendable (job_as_dict (demo_job tick)) = true).
  { intros tick. unfold demo_job. by destruct (tick <? 3)%nat. }
  split.
  - intros va r j r' [= <- _]. apply send.
  - intros jid offset r j r'. cbn. destruct (str_eqb jid demo_id); intros [= <- _]. apply send.
  - intros jid r j r'. cbn. destruct (str_eqb jid demo_id); intros [= <- _]. apply send.
  - intros r. by cbn.
  - intros jid offset r e r'. cbn. destruct (str_eqb jid demo_id); by intros [= <- _].
  - intros jid r e r'. cbn. destruct (str_eqb jid demo_id); by intros [= <- _].
Qed.

Definition demo_secret : bytes := List.repeat 7 32.

Lemma handle_answers_witness : MIN_SECRET_SIZE <= zlen demo_secret /\
  exists resp, fst (handle 10 demo_secret (PDict []) (mkAgent (mkCache DEFAULT_NONCE_CAPACITY []) 0%nat)) = Ok resp /\
    signed_by demo_secret resp.
Proof.
  assert (Hs : MIN_SECRET_SIZE <= zlen demo_secret) by (by vm_compute).
  split; [exact Hs|].
  destruct (handle_answers 10 demo_secret (PDict []) (mkAgent (mkCache DEFAULT_NONCE_CAPACITY []) 0%nat) Hs)
    as (resp & H1 & H2 & _).
  by exists resp.
Defined.

Lemma await_ends_witness : JobServiceSpec nat /\
  exists l, snd (snd (await_loop 10 demo_id (float_of_Z 100) (0%nat, []))) = [] ++ l.
Proof.
  split; [exact demo_service_spec|].
  pose proof (await_ends 10 demo_id (float_of_Z 100) (0%nat, [])) as Hw.
  destruct (await_loop 10 demo_id (float_of_Z 100) (0%nat, [])) as [res x'].
  destruct Hw as (l & Hl & _). exists l. exact Hl.
Defined.

Example await_demo : is_ok (fst (await_loop 10 demo_id (float_of_Z 100) (0%nat, []))) = true.
Proof. by vm_compute. Qed.
