(* ===== verification/TaskEngine.v ===== *)
(** * Task engine

    [backend/app/tasks/engine.py]: the persistent task table, the lifecycle
    that a task's status follows, and the workers that claim and finish tasks.
    The database is the list of [TaskRecord] rows; every engine operation is a
    function on it.  A raised exception leaves the rows as they were, because
    the engine commits only at the end of each operation. *)
From Stdlib Require Import ZArith Lia Bool String.
From stdpp Require Import prelude.
From S2P Require Import Prelude PyValue.
Open Scope Z_scope.

(** ** Data *)

(** [TaskRecord]; times are seconds of the [datetime] clock. *)
Record TaskRecord := mkTask {
  t_id : pystr;
  t_type : pystr;
  t_status : pystr;
  t_title : pystr;
  t_idempotency_key : option pystr;
  t_progress : num;
  t_completed_bytes : Z;
  t_total_bytes : option Z;
  t_input_json : pydict;
  t_result_json : pydict;
  t_error : option pystr;
  t_log : pystr;
  t_cancel_requested : bool;
  t_created_at : Z;
  t_started_at : option Z;
  t_finished_at : option Z;
}.

Abbreviation database := (list TaskRecord) (only parsing).

Definition TERMINAL_STATES : list pystr := [str "succeeded"; str "failed"; str "cancelled"].

Definition ALLOWED_TRANSITIONS : list (pystr * list pystr) :=
  [(str "queued", [str "running"; str "paused"; str "cancelled"]);
   (str "running", [str "succeeded"; str "failed"; str "paused"; str "cancelled"; str "queued"]);
   (str "paused", [str "queued"; str "cancelled"]);
   (str "succeeded", []);
   (str "failed", [str "queued"]);
   (str "cancelled", [str "queued"])].

Definition allowed (from target : pystr) : bool :=
  str_in target (default [] (dict_get from ALLOWED_TRANSITIONS)).

(** *** Field updates *)
Definition set_status (s : pystr) (t : TaskRecord) : TaskRecord :=
  mkTask (t_id t) (t_type t) s (t_title t) (t_idempotency_key t) (t_progress t)
    (t_completed_bytes t) (t_total_bytes t) (t_input_json t) (t_result_json t) (t_error t)
    (t_log t) (t_cancel_requested t) (t_created_at t) (t_started_at t) (t_finished_at t).
Definition set_times (started finished : option Z) (t : TaskRecord) : TaskRecord :=
  mkTask (t_id t) (t_type t) (t_status t) (t_title t) (t_idempotency_key t) (t_progress t)
    (t_completed_bytes t) (t_total_bytes t) (t_input_json t) (t_result_json t) (t_error t)
    (t_log t) (t_cancel_requested t) (t_created_at t) started finished.
Definition set_error (e : option pystr) (t : TaskRecord) : TaskRecord :=
  mkTask (t_id t) (t_type t) (t_status t) (t_title t) (t_idempotency_key t) (t_progress t)
    (t_completed_bytes t) (t_total_bytes t) (t_input_json t) (t_result_json t) e
    (t_log t) (t_cancel_requested t) (t_created_at t) (t_started_at t) (t_finished_at t).
Definition set_log (l : pystr) (t : TaskRecord) : TaskRecord :=
  mkTask (t_id t) (t_type t) (t_status t) (t_title t) (t_idempotency_key t) (t_progress t)
    (t_completed_bytes t) (t_total_bytes t) (t_input_json t) (t_result_json t) (t_error t)
    l (t_cancel_requested t) (t_created_at t) (t_started_at t) (t_finished_at t).
Definition set_result (r : pydict) (t : TaskRecord) : TaskRecord :=
  mkTask (t_id t) (t_type t) (t_status t) (t_title t) (t_idempotency_key t) (t_progress t)
    (t_completed_bytes t) (t_total_bytes t) (t_input_json t) r (t_error t)
    (t_log t) (t_cancel_requested t) (t_created_at t) (t_started_at t) (t_finished_at t).
Definition set_cancel (b : bool) (t : TaskRecord) : TaskRecord :=
  mkTask (t_id t) (t_type t) (t_status t) (t_title t) (t_idempotency_key t) (t_progress t)
    (t_completed_bytes t) (t_total_bytes t) (t_input_json t) (t_result_json t) (t_error t)
    (t_log t) b (t_created_at t) (t_started_at t) (t_finished_at t).
Definition set_progress (p : num) (completed : Z) (total : option Z) (t : TaskRecord) : TaskRecord :=
  mkTask (t_id t) (t_type t) (t_status t) (t_title t) (t_idempotency_key t) p
    completed total (t_input_json t) (t_result_json t) (t_error t)
    (t_log t) (t_cancel_requested t) (t_created_at t) (t_started_at t) (t_finished_at t).
Definition clear_key (t : TaskRecord) : TaskRecord :=
  mkTask (t_id t) (t_type t) (t_status t) (t_title t) None (t_progress t)
    (t_completed_bytes t) (t_total_bytes t) (t_input_json t) (t_result_json t) (t_error t)
    (t_log t) (t_cancel_requested t) (t_created_at t) (t_started_at t) (t_finished_at t).

(** *** Rows *)

(** [db.get(TaskRecord, task_id)] *)
Definition db_get (id : pystr) (db : database) : option TaskRecord :=
  find (fun t => str_eqb id (t_id t)) db.

(** Write one row back. *)
Definition db_put (task : TaskRecord) (db : database) : database :=
  map (fun t => if str_eqb (t_id task) (t_id t) then task else t) db.

(** ** Lifecycle *)

(** [transition_task] *)
Definition transition_task (now : Z) (task : TaskRecord) (target : pystr) : result TaskRecord :=
  if negb (allowed (t_status task) target)
  then Raise (ValueError (str "Invalid task transition: " ++ t_status task ++ str " -> " ++ target))
  else
    let task := set_status target task in
    if str_eqb target (str "running") then Ok (set_error None (set_times (Some now) None task))
    else if str_in target TERMINAL_STATES
         then Ok (set_times (t_started_at task) (Some now) task)
         else Ok task.

(** ** Task context *)

Definition NEWLINE : pystr := [10].

Definition LOG_LIMIT : Z := 100000.

(** [s[-n:]] *)
Definition last_chars (n : Z) (s : pystr) : pystr := drop (length s - Z.to_nat n) s.
Definition rstrip (s : pystr) : pystr := rstrip_with is_space s.

Definition clamp_progress (p : num) : num := num_max (NInt 0) (num_min (NInt 100) p).

(** [TaskContext.update] *)
Definition context_update (id : pystr) (progress : option num)
    (completed_bytes total_bytes : option Z) (message : option pystr) (db : database) : database :=
  match db_get id db with
  | None => db
  | Some task =>
      let p := match progress with Some p => clamp_progress p | None => t_progress task end in
      let total := match total_bytes with
                   | Some n => Some (Z.max 0 n) | None => t_total_bytes task end in
      let completed :=
        match completed_bytes with
        | Some n =>
            let c := Z.max 0 n in
            match total with Some m => Z.min c m | None => c end
        | None => t_completed_bytes task
        end in
      let log := match message with
                 | None | Some [] => t_log task
                 | Some m => last_chars LOG_LIMIT (t_log task ++ rstrip m ++ NEWLINE)
                 end in
      db_put (set_log log (set_progress p completed total task)) db
  end.

(** [TaskContext.check_control] *)
Definition check_control (id : pystr) (db : database) : result unit :=
  match db_get id db with
  | None => Raise TaskCancelled
  | Some task =>
      let control := get_or_none (str "control") (t_result_json task) in
      match control with
      | PStr c =>
          if str_eqb c (str "pause") then Raise TaskPaused
          else if t_cancel_requested task || str_eqb c (str "cancel") then Raise TaskCancelled
          else Ok tt
      | _ => if t_cancel_requested task then Raise TaskCancelled else Ok tt
      end
  end.

(** ** Engine operations *)

Definition DOWNLOAD_TASK_TYPES : list pystr := [str "model.download"].
Definition IMAGE_TASK_TYPES : list pystr := [str "image.generate"].

Definition is_terminal (t : TaskRecord) : bool := str_in (t_status t) TERMINAL_STATES.

Definition with_key (k : pystr) (db : database) : option TaskRecord :=
  find (fun t => match t_idempotency_key t with Some k' => str_eqb k k' | None => false end) db.

Definition new_task (id task_type title : pystr) (input_json : pydict) (key : option pystr) (now : Z)
    : TaskRecord :=
  mkTask id task_type (str "queued") title key (NInt 0) 0 None input_json [] None [] false now None None.

(** The unique constraints of the table: the primary key and the key column. *)
Definition insert_conflicts (t : TaskRecord) (db : database) : bool :=
  match db_get (t_id t) db with Some _ => true | None => false end
  || match t_idempotency_key t with
     | Some k => match with_key k db with Some _ => true | None => false end
     | None => false
     end.

(** A truthy idempotency key. *)
Definition usable_key (key : option pystr) : option pystr :=
  match key with Some (_ :: _) => key | _ => None end.

(** [create_task].  [interference] is what other sessions commit between this
    session's first query and its insert; it is the identity when the request
    runs alone. *)
Definition create_task (interference : database -> database)
    (id task_type title : pystr) (input_json : pydict) (key : option pystr) (now : Z)
    (db : database) : result TaskRecord * database :=
  let existing := usable_key key ≫= (fun k => with_key k db) in
  match existing with
  | Some t =>
      if negb (is_terminal t) then (Ok t, db)
      else
        (* the old row's key is cleared and flushed: the write lock is held
           from here on, so nothing interferes before the commit *)
        let db1 := db_put (clear_key t) db in
        let task := new_task id task_type title input_json key now in
        if insert_conflicts task db1 then (Raise IntegrityError, db)
        else (Ok task, db1 ++ [task])
  | None =>
      let db1 := interference db in
      let task := new_task id task_type title input_json key now in
      if insert_conflicts task db1 then
        match usable_key key ≫= (fun k => with_key k db1) with
        | Some t => if negb (is_terminal t) then (Ok t, db1) else (Raise IntegrityError, db1)
        | None => (Raise IntegrityError, db1)
        end
      else (Ok task, db1 ++ [task])
  end.

(** [recover_interrupted]: the rows whose status is "running" go back to
    "queued"; the count is returned. *)
Definition recover_task (now : Z) (t : TaskRecord) : result TaskRecord :=
  if str_eqb (t_status t) (str "running") then
    t' ← transition_task now t (str "queued");
    Ok (set_result [] (set_cancel false
          (set_log (t_log t' ++ str "Recovered after manager restart."
                    ++ NEWLINE) t')))
  else Ok t.

Definition recover_interrupted (now : Z) (db : database) : result (Z * database) :=
  db' ← mapM_result (recover_task now) db;
  Ok (zlen (List.filter (fun t => str_eqb (t_status t) (str "running")) db), db').

Definition LANES : list pystr := [str "control"; str "download"; str "image"].

Definition in_lane (lane task_type : pystr) : bool :=
  if str_eqb lane (str "download") then str_in task_type DOWNLOAD_TASK_TYPES
  else if str_eqb lane (str "image") then str_in task_type IMAGE_TASK_TYPES
  else negb (str_in task_type (DOWNLOAD_TASK_TYPES ++ IMAGE_TASK_TYPES)).

Definition claimable (lane : pystr) (t : TaskRecord) : bool :=
  str_eqb (t_status t) (str "queued") && in_lane lane (t_type t).

(** [ORDER BY created_at], first row *)
Fixpoint oldest (l : list TaskRecord) : option TaskRecord :=
  match l with
  | [] => None
  | t :: r =>
      match oldest r with
      | None => Some t
      | Some u => if t_created_at u <? t_created_at t then Some u else Some t
      end
  end.

(** [_claim] *)
Definition claim (lane : pystr) (now : Z) (db : database)
    : result (option (pystr * pystr * pydict) * database) :=
  match oldest (List.filter (claimable lane) db) with
  | None => Ok (None, db)
  | Some task =>
      task' ← transition_task now task (str "running");
      let task' := set_log (t_log task' ++ str "Task started." ++ NEWLINE) task' in
      Ok (Some (t_id task', t_type task', t_input_json task'), db_put task' db)
  end.

(** [_finish] *)
Definition finish (id status : pystr) (res : option pydict) (error : option pystr) (now : Z)
    (db : database) : result database :=
  match db_get id db with
  | None => Ok db
  | Some task =>
      task' ← transition_task now task status;
      let progress := if str_eqb status (str "succeeded") then NInt 100 else t_progress task' in
      Ok (db_put (set_log (t_log task' ++ str "Task " ++ status ++ str "." ++ NEWLINE)
            (set_progress progress (t_completed_bytes task') (t_total_bytes task')
               (set_error error (set_result (default [] res) task')))) db)
  end.

(** How a handler's call ends. *)
Inductive handler_outcome :=
  | Returned (r : option pydict)
  | RaisedPaused
  | RaisedCancelled
  | RaisedException (text : pystr).

(** The part of [_run] after the handler: every exit goes through [_finish]. *)
Definition finish_outcome (handlers : list pystr) (id task_type : pystr)
    (outcome : handler_outcome) (now : Z) (db : database) : result database :=
  if negb (str_in task_type handlers)
  then finish id (str "failed") None (Some (str "No handler registered for " ++ task_type)) now db
  else match outcome with
       | Returned r => finish id (str "succeeded") r None now db
       | RaisedPaused => finish id (str "paused") None None now db
       | RaisedCancelled => finish id (str "cancelled") None None now db
       | RaisedException text =>
           finish id (str "failed") None (Some (take 4000 text)) now db
       end.

(** One turn of [_run]'s loop.  [during] is everything that is committed while
    the handler runs: by the handler itself and by other sessions.  [Raise]
    means the exception leaves the loop and the worker thread ends. *)
Definition run_turn (lane : pystr) (handlers : list pystr)
    (during : database -> database) (outcome : handler_outcome) (t_claim t_finish : Z)
    (db : database) : result database :=
  '(claimed, db1) ← claim lane t_claim db;
  match claimed with
  | None => Ok db1
  | Some (id, task_type, _) =>
      let db2 := if str_in task_type handlers then during db1 else db1 in
      finish_outcome handlers id task_type outcome t_finish db2
  end.

(** [request_pause], [resume] and [request_cancel] on the row with this id *)
Definition request_pause (now : Z) (id : pystr) (db : database) : result database :=
  task ← of_option (db_get id db) (KeyError (str "Task not found"));
  if str_eqb (t_status task) (str "queued") then
    task' ← transition_task now task (str "paused"); Ok (db_put task' db)
  else if str_eqb (t_status task) (str "running") then
    Ok (db_put (set_result [(str "control", PStr (str "pause"))] task) db)
  else Raise (ValueError (str "Task in " ++ t_status task ++ str " cannot be paused")).

Definition resume (now : Z) (id : pystr) (db : database) : result database :=
  task ← of_option (db_get id db) (KeyError (str "Task not found"));
  task' ← transition_task now task (str "queued");
  Ok (db_put (set_result [] (set_cancel false task')) db).

Definition request_cancel (now : Z) (id : pystr) (db : database) : result database :=
  task ← of_option (db_get id db) (KeyError (str "Task not found"));
  if str_in (t_status task) [str "queued"; str "paused"] then
    task' ← transition_task now task (str "cancelled"); Ok (db_put task' db)
  else if str_eqb (t_status task) (str "running") then
    Ok (db_put (set_result [(str "control", PStr (str "cancel"))] (set_cancel true task)) db)
  else Raise (ValueError (str "Task in " ++ t_status task ++ str " cannot be cancelled")).

(** ** Steps of the engine *)

Inductive engine_step : database -> database -> Prop :=
  | step_create interference id ty title input key now db r db' :
      interference db = db -> create_task interference id ty title input key now db = (r, db') ->
      engine_step db db'
  | step_update id p c n m db : engine_step db (context_update id p c n m db)
  | step_recover now db k db' : recover_interrupted now db = Ok (k, db') -> engine_step db db'
  | step_claim lane now db r db' : claim lane now db = Ok (r, db') -> engine_step db db'
  | step_finish handlers id ty outcome now db db' :
      finish_outcome handlers id ty outcome now db = Ok db' -> engine_step db db'
  | step_pause now id db db' : request_pause now id db = Ok db' -> engine_step db db'
  | step_resume now id db db' : resume now id db = Ok db' -> engine_step db db'
  | step_cancel now id db db' : request_cancel now id db = Ok db' -> engine_step db db'.

(** ** Invariants *)

Definition STATUSES : list pystr := keys ALLOWED_TRANSITIONS.

Definition progress_ok (p : num) : Prop :=
  num_ltb p (NInt 0) = false /\ num_ltb (NInt 100) p = false.

(** What a row promises about itself. *)
Record task_ok (t : TaskRecord) : Prop := {
  ok_status : In (t_status t) STATUSES;
  ok_progress : progress_ok (t_progress t);
  ok_bytes : 0 <= t_completed_bytes t /\ forall n, t_total_bytes t = Some n -> 0 <= n;
  ok_running : t_status t = str "running" ->
    t_started_at t <> None /\ t_finished_at t = None /\ t_error t = None;
  ok_terminal : is_terminal t = true -> t_finished_at t <> None;
}.

Record db_ok (db : database) : Prop := {
  ok_rows : Forall task_ok db;
  ok_ids : NoDup (map t_id db);
  ok_keys : forall t u k, In t db -> In u db ->
    t_idempotency_key t = Some k -> t_idempotency_key u = Some k -> t_id t = t_id u;
}.

(** One row before and after an operation: same identity, and a status that
    stayed or moved along one edge of [ALLOWED_TRANSITIONS]. *)
Record evolves (t t' : TaskRecord) : Prop := {
  ev_id : t_id t' = t_id t;
  ev_type : t_type t' = t_type t;
  ev_input : t_input_json t' = t_input_json t;
  ev_created : t_created_at t' = t_created_at t;
  ev_key : t_idempotency_key t' = t_idempotency_key t \/ t_idempotency_key t' = None;
  ev_status : t_status t' = t_status t \/ allowed (t_status t) (t_status t') = true;
}.

#[export] Instance evolves_refl : Reflexive evolves.
Proof. intros t. constructor; auto. Qed.

(** ** Lemmas *)

Lemma clamp_progress_ok p : progress_ok (clamp_progress p).
Proof.
  unfold clamp_progress, num_max, num_min, progress_ok.
  destruct (num_ltb p (NInt 100)) eqn:E1.
  - destruct (num_ltb (NInt 0) p) eqn:E2; [|done].
    destruct p as [n|f]; cbn in *.
    + split; apply Z.ltb_ge; apply Z.ltb_lt in E1, E2; lia.
    + destruct (float_fraction f) as [[n k]|] eqn:Ef.
      * split; apply Z.ltb_ge; apply Z.ltb_lt in E1, E2; lia.
      * by destruct f as [|[]| |].
  - by destruct (num_ltb (NInt 0) (NInt 100)).
Qed.

Lemma transition_task_Ok now t target t' :
  transition_task now t target = Ok t' ->
  allowed (t_status t) target = true /\
  t' = (if str_eqb target (str "running")
        then set_error None (set_times (Some now) None (set_status target t))
        else if str_in target TERMINAL_STATES
             then set_times (t_started_at t) (Some now) (set_status target t)
             else set_status target t).
Proof.
  unfold transition_task. destruct (allowed _ _); [|done]. cbn [negb].
  destruct (str_eqb _ _); [intros [= <-]; done|]. by destruct (str_in _ _); intros [= <-].
Qed.

Lemma allowed_target from target : allowed from target = true -> In target STATUSES.
Proof.
  unfold allowed. intros H%str_in_In. destruct (dict_get from ALLOWED_TRANSITIONS) as [l|] eqn:E;
    [|done]. apply dict_get_In in E. cbn [default] in H.
  assert (Hall : Forall (fun p => Forall (fun x => In x STATUSES) (snd p)) ALLOWED_TRANSITIONS).
  { unfold STATUSES, keys, ALLOWED_TRANSITIONS. cbn [map fst].
    repeat (apply List.Forall_cons || apply List.Forall_nil); cbn [In snd]; tauto. }
  rewrite List.Forall_forall in Hall. specialize (Hall _ E).
  rewrite List.Forall_forall in Hall. by apply Hall.
Qed.

Lemma transition_task_evolves now t target t' :
  transition_task now t target = Ok t' -> evolves t t' /\ t_status t' = target.
Proof.
  intros [Ha ->]%transition_task_Ok.
  destruct (str_eqb _ _); [|destruct (str_in _ _)]; (split; [|done]); constructor; cbn; auto.
Qed.

Lemma transition_task_ok now t target t' :
  task_ok t -> transition_task now t target = Ok t' -> task_ok t'.
Proof.
  intros Ht [Ha ->]%transition_task_Ok. pose proof (allowed_target _ _ Ha).
  destruct (str_eqb_spec target (str "running")) as [->|Hr].
  - constructor; [done|by apply Ht|by apply Ht|done|].
    intros Hterm. vm_compute in Hterm. done.
  - destruct (str_in target TERMINAL_STATES) eqn:E; constructor;
      unfold is_terminal; cbn [t_status t_progress t_finished_at t_started_at t_error
        set_times set_status]; try done; try apply Ht; try congruence.
Qed.

Lemma db_get_Some id db t : db_get id db = Some t -> In t db /\ t_id t = id.
Proof.
  unfold db_get. intros H. pose proof (find_some _ _ H) as [Hin E].
  apply str_eqb_eq in E. done.
Qed.

Lemma db_put_ids task db : map t_id (db_put task db) = map t_id db.
Proof.
  unfold db_put. rewrite map_map. apply map_ext. intros t.
  by destruct (str_eqb_spec (t_id task) (t_id t)).
Qed.

Lemma NoDup_ids_inj db t u :
  NoDup (map t_id db) -> In t db -> In u db -> t_id t = t_id u -> t = u.
Proof.
  induction db as [|x db IH]; cbn; [done|]. intros [Hx Hd]%NoDup_cons.
  intros [->|Ht] [->|Hu] E; auto; exfalso; apply Hx, list_elem_of_In.
  - rewrite E. by apply in_map.
  - rewrite <- E. by apply in_map.
Qed.

Lemma db_put_evolves task t db :
  db_ok db -> In t db -> evolves t task -> Forall2 evolves db (db_put task db).
Proof.
  intros [_ Hi _] Hin Hev.
  assert (Hall : Forall (fun u => evolves u (if str_eqb (t_id task) (t_id u) then task else u)) db).
  { apply List.Forall_forall. intros u Hu. destruct (str_eqb_spec (t_id task) (t_id u)) as [E|];
      [|done]. assert (t = u) as <-; [|done].
    eapply NoDup_ids_inj; [exact Hi|done..|]. rewrite <- E. symmetry. apply Hev. }
  clear Hin Hi Hev. unfold db_put. induction Hall; cbn; constructor; done.
Qed.

Lemma Forall2_evolves_ids db db' : Forall2 evolves db db' -> map t_id db' = map t_id db.
Proof. induction 1 as [|t t' l l' H _ IH]; cbn; [done|]. by rewrite IH, (ev_id _ _ H). Qed.

(** Keys stay unique while rows evolve. *)
Lemma Forall2_evolves_key db db' t' k :
  Forall2 evolves db db' -> In t' db' -> t_idempotency_key t' = Some k ->
  exists t, In t db /\ t_id t = t_id t' /\ t_idempotency_key t = Some k.
Proof.
  induction 1 as [|t u l l' H _ IH]; cbn; [done|]. intros [->|Hin] Hk.
  - exists t. split; [by left|]. destruct (ev_key _ _ H); [|congruence].
    split; [symmetry; apply H|congruence].
  - destruct IH as (v & ? & ? & ?); eauto 6.
Qed.

Lemma evolved_ok db db' : db_ok db -> Forall2 evolves db db' -> Forall task_ok db' -> db_ok db'.
Proof.
  intros [_ Hi Hk] H Hr. constructor; [done|by rewrite (Forall2_evolves_ids _ _ H)|].
  intros t u k Ht Hu Htk Huk.
  destruct (Forall2_evolves_key _ _ _ _ H Ht Htk) as (t0 & ? & <- & ?).
  destruct (Forall2_evolves_key _ _ _ _ H Hu Huk) as (u0 & ? & <- & ?). eauto.
Qed.

Lemma Forall2_evolves_refl db : Forall2 evolves db db.
Proof. induction db; constructor; done. Qed.
#[local] Hint Resolve Forall2_evolves_refl : dgx.

(** Writing back a row that evolved from the stored one. *)
Lemma put_step db id t task :
  db_ok db -> db_get id db = Some t -> evolves t task -> task_ok task ->
  db_ok (db_put task db) /\ Forall2 evolves db (db_put task db).
Proof.
  intros Hdb [Hin _]%db_get_Some Hev Hok.
  assert (H : Forall2 evolves db (db_put task db)) by by eapply db_put_evolves.
  split; [|done]. apply (evolved_ok _ _ Hdb H).
  unfold db_put. rewrite Forall_fmap. eapply Forall_impl; [apply Hdb|].
  intros u Hu. cbn. by destruct (str_eqb _ _).
Qed.

Lemma db_get_ok db id t : db_ok db -> db_get id db = Some t -> task_ok t.
Proof.
  intros [Hr _ _] [Hin _]%db_get_Some. rewrite List.Forall_forall in Hr. auto.
Qed.

Lemma evolves_same t t' :
  t_id t' = t_id t -> t_type t' = t_type t -> t_input_json t' = t_input_json t ->
  t_created_at t' = t_created_at t -> t_status t' = t_status t ->
  t_idempotency_key t' = t_idempotency_key t \/ t_idempotency_key t' = None -> evolves t t'.
Proof. intros. constructor; auto. Qed.

Lemma evolves_then t u v :
  evolves t u -> t_id v = t_id u -> t_type v = t_type u -> t_input_json v = t_input_json u ->
  t_created_at v = t_created_at u -> t_status v = t_status u ->
  t_idempotency_key v = t_idempotency_key u -> evolves t v.
Proof.
  intros [] E1 E2 E3 E4 E5 E6. constructor; first [congruence | by rewrite ?E5, ?E6].
Qed.

(** A field update that leaves status, times, progress and error alone. *)
Lemma task_ok_same t t' :
  task_ok t -> t_status t' = t_status t -> t_progress t' = t_progress t ->
  t_started_at t' = t_started_at t -> t_finished_at t' = t_finished_at t ->
  t_error t' = t_error t -> t_completed_bytes t' = t_completed_bytes t ->
  t_total_bytes t' = t_total_bytes t -> task_ok t'.
Proof.
  intros [H1 H2 Hb H3 H4] E1 E2 E3 E4 E5 E6 E7. constructor; unfold is_terminal in *;
    rewrite ?E1, ?E2, ?E3, ?E4, ?E5, ?E6, ?E7; auto.
Qed.

Definition step_result (db db' : database) : Prop :=
  db_ok db' /\ exists rows new, db' = rows ++ new /\ Forall2 evolves db rows /\
    (length new <= 1)%nat /\
    Forall (fun t => t_status t = str "queued" /\ db_get (t_id t) db = None) new.

Lemma step_result_rows db db' : db_ok db' -> Forall2 evolves db db' -> step_result db db'.
Proof.
  intros H1 H2. split; [done|]. exists db', []. rewrite app_nil_r.
  split_and!; [done..|cbn; lia|constructor].
Qed.

Lemma context_update_bytes (c n total : option Z) (old : Z) :
  0 <= old /\ (forall k, total = Some k -> 0 <= k) ->
  let new_total := match n with Some n => Some (Z.max 0 n) | None => total end in
  0 <= match c with
       | Some n => match new_total with
                   | Some m => Z.min (Z.max 0 n) m | None => Z.max 0 n end
       | None => old end
  /\ forall k, new_total = Some k -> 0 <= k.
Proof.
  intros [Hold Ht]. cbn zeta. split.
  - destruct c as [c|]; [|done]. destruct n as [n|]; [lia|].
    destruct total as [m|]; [|lia]. specialize (Ht m eq_refl). lia.
  - destruct n as [n|]; [intros k [= <-]; lia|done].
Qed.

Lemma context_update_step id p c n m db :
  db_ok db -> step_result db (context_update id p c n m db).
Proof.
  intros Hdb. unfold context_update.
  destruct (db_get id db) as [t|] eqn:Hget; [|by apply step_result_rows; auto with dgx].
  assert (Ht : task_ok t) by by eapply db_get_ok.
  apply step_result_rows; eapply put_step; eauto; try (apply evolves_same; by auto).
  all: destruct Ht as [H1 H2 Hb H3 H4]; constructor; cbn; auto.
  all: try by apply context_update_bytes.
  all: destruct p; [apply clamp_progress_ok|done].
Qed.

Lemma oldest_In l t : oldest l = Some t -> In t l.
Proof.
  revert t. induction l as [|x l IH]; intros t; cbn; [done|].
  destruct (oldest l) as [u|]; [|intros [= ->]; by left].
  destruct (_ <? _); intros [= <-]; [right; auto|by left].
Qed.

Lemma db_get_In db t : NoDup (map t_id db) -> In t db -> db_get (t_id t) db = Some t.
Proof.
  intros Hi Hin. destruct (db_get (t_id t) db) as [u|] eqn:E.
  - f_equal. apply db_get_Some in E as [? ?]. eapply NoDup_ids_inj; eauto.
  - unfold db_get in E. pose proof (find_none _ _ E _ Hin) as H. cbn in H.
    by rewrite str_eqb_refl in H.
Qed.

Lemma claim_Some lane now db r db' :
  claim lane now db = Ok (r, db') ->
  (r = None /\ db' = db /\ List.filter (claimable lane) db = []) \/
  exists t t', In t db /\ claimable lane t = true /\ oldest (List.filter (claimable lane) db) = Some t /\
    transition_task now t (str "running") = Ok t' /\
    r = Some (t_id t, t_type t, t_input_json t) /\
    db' = db_put (set_log (t_log t' ++ str "Task started." ++ NEWLINE) t') db.
Proof.
  unfold claim. destruct (oldest _) as [t|] eqn:E.
  - intros H. inv_ok. right. exists t, a. pose proof (oldest_In _ _ E) as Hin.
    apply filter_In in Hin as [? ?].
    destruct (transition_task_evolves _ _ _ _ Ha) as [[Hid Hty Hin' _ _] _].
    cbn. rewrite Hid, Hty, Hin'. done.
  - intros [= <- <-]. left. split_and!; [done..|].
    destruct (List.filter _ _) as [|x l]; [done|]. cbn in E.
    destruct (oldest l); [by destruct (_ <? _)|done].
Qed.

Lemma claim_step lane now db r db' :
  db_ok db -> claim lane now db = Ok (r, db') -> step_result db db'.
Proof.
  intros Hdb [(-> & -> & _)|(t & t' & Hin & _ & _ & Htr & -> & ->)]%claim_Some.
  - apply step_result_rows; auto with dgx.
  - pose proof (db_get_In _ _ (ok_ids _ Hdb) Hin) as Hget.
    pose proof (db_get_ok _ _ _ Hdb Hget) as Ht.
    destruct (transition_task_evolves _ _ _ _ Htr) as [Hev _].
    pose proof (transition_task_ok _ _ _ _ Ht Htr) as Hok.
    apply step_result_rows; eapply put_step; eauto;
      first [by eapply task_ok_same; eauto | by eapply evolves_then; eauto].
Qed.

Lemma finish_step id status res error now db db' :
  db_ok db -> finish id status res error now db = Ok db' -> status <> str "running" ->
  step_result db db'.
Proof.
  intros Hdb H Hs. unfold finish in H.
  destruct (db_get id db) as [t|] eqn:Hget; [|inv_ok; by apply step_result_rows; auto with dgx].
  inv_ok. pose proof (db_get_ok _ _ _ Hdb Hget) as Ht.
  destruct (transition_task_evolves _ _ _ _ Ha) as [Hev Hst].
  pose proof (transition_task_ok _ _ _ _ Ht Ha) as Hok.
  apply step_result_rows; eapply put_step; eauto; try by eapply evolves_then; eauto.
  all: destruct Hok as [H1 H2 Hb H3 H4]; constructor; cbn; auto; try (intros; congruence).
  all: by destruct (str_eqb status (str "succeeded")).
Qed.

Lemma finish_outcome_step handlers id ty outcome now db db' :
  db_ok db -> finish_outcome handlers id ty outcome now db = Ok db' -> step_result db db'.
Proof.
  intros Hdb. unfold finish_outcome.
  destruct (negb _); [|destruct outcome]; intros H; by eapply finish_step.
Qed.

Lemma request_pause_step now id db db' :
  db_ok db -> request_pause now id db = Ok db' -> step_result db db'.
Proof.
  intros Hdb H. unfold request_pause in H. inv_ok. rename Ha into Hget.
  pose proof (db_get_ok _ _ _ Hdb Hget) as Ht.
  destruct (str_eqb _ _); [|destruct (str_eqb _ _); [|done]]; inv_ok.
  - destruct (transition_task_evolves _ _ _ _ Ha) as [Hev _].
    pose proof (transition_task_ok _ _ _ _ Ht Ha) as Hok.
    apply step_result_rows; by eapply put_step.
  - apply step_result_rows; eapply put_step; eauto;
      first [by apply evolves_same; auto | by eapply task_ok_same].
Qed.

Lemma resume_step now id db db' :
  db_ok db -> resume now id db = Ok db' -> step_result db db'.
Proof.
  intros Hdb H. unfold resume in H. inv_ok. rename Ha into Hget.
  pose proof (db_get_ok _ _ _ Hdb Hget) as Ht.
  destruct (transition_task_evolves _ _ _ _ Ha0) as [Hev _].
  pose proof (transition_task_ok _ _ _ _ Ht Ha0) as Hok.
  apply step_result_rows; eapply put_step; eauto;
    first [by eapply task_ok_same; eauto | by eapply evolves_then; eauto].
Qed.

Lemma request_cancel_step now id db db' :
  db_ok db -> request_cancel now id db = Ok db' -> step_result db db'.
Proof.
  intros Hdb H. unfold request_cancel in H. inv_ok. rename Ha into Hget.
  pose proof (db_get_ok _ _ _ Hdb Hget) as Ht.
  destruct (str_in _ _); [|destruct (str_eqb _ _); [|done]]; inv_ok.
  - destruct (transition_task_evolves _ _ _ _ Ha) as [Hev _].
    pose proof (transition_task_ok _ _ _ _ Ht Ha) as Hok.
    apply step_result_rows; by eapply put_step.
  - apply step_result_rows; eapply put_step; eauto;
      first [by apply evolves_same; auto | by eapply task_ok_same].
Qed.

Lemma recover_task_Ok now t t' :
  task_ok t -> recover_task now t = Ok t' -> evolves t t' /\ task_ok t' /\
  (t_status t' = if str_eqb (t_status t) (str "running") then str "queued" else t_status t).
Proof.
  intros Ht H. unfold recover_task in H. destruct (str_eqb_spec (t_status t) (str "running")).
  - inv_ok. destruct (transition_task_evolves _ _ _ _ Ha) as [Hev Hst].
    pose proof (transition_task_ok _ _ _ _ Ht Ha) as Hok. split_and!.
    + by eapply evolves_then; eauto.
    + by eapply task_ok_same; eauto.
    + done.
  - inv_ok. done.
Qed.

Lemma recover_interrupted_step now db k db' :
  db_ok db -> recover_interrupted now db = Ok (k, db') -> step_result db db'.
Proof.
  intros Hdb H. unfold recover_interrupted in H. inv_ok. apply mapM_result_Ok in Ha.
  assert (Hall : Forall2 evolves db db' /\ Forall task_ok db').
  { pose proof (ok_rows _ Hdb) as Hr. clear Hdb.
    induction Ha as [|t t' l l' H Ha IH]; [done|]. inversion Hr as [|? ? Ht Hl]; subst.
    destruct (recover_task_Ok _ _ _ Ht H) as (Hev & Hok & _).
    destruct IH as (? & ?); [done|]. split; by constructor. }
  destruct Hall as (H1 & H2). apply step_result_rows; [by eapply evolved_ok|done].
Qed.

Lemma with_key_Some k db t : with_key k db = Some t -> In t db /\ t_idempotency_key t = Some k.
Proof.
  unfold with_key. intros H. pose proof (find_some _ _ H) as [Hin E]. split; [done|].
  destruct (t_idempotency_key t); [|done]. by apply str_eqb_eq in E as ->.
Qed.

Lemma insert_step db rows task :
  db_ok rows -> Forall2 evolves db rows -> insert_conflicts task rows = false ->
  task_ok task -> t_status task = str "queued" -> step_result db (rows ++ [task]).
Proof.
  intros [Hr Hi Hk] Hev Hc Hok Hst. unfold insert_conflicts in Hc. split_bools.
  destruct (db_get (t_id task) rows) eqn:E; [done|].
  assert (Hn : forall l, Forall2 evolves l rows -> db_get (t_id task) l = None).
  { clear -E. intros l Hl. unfold db_get in *. induction Hl as [|x y l l' Hxy Hl IH]; [done|].
    cbn in *. rewrite <- (ev_id _ _ Hxy). destruct (str_eqb _ _); [done|]. auto. }
  split; [constructor|].
  - apply Forall_app. split; [done|]. by constructor.
  - rewrite map_app. apply NoDup_app. split_and!; [done| |apply NoDup_singleton].
    intros x Hx ->%list_elem_of_singleton. apply list_elem_of_In, in_map_iff in Hx as (u & Hu & Hin).
    unfold db_get in E. pose proof (find_none _ _ E _ Hin) as Hf. cbn in Hf.
    rewrite Hu, str_eqb_refl in Hf. done.
  - assert (Hnew : forall t k, In t rows -> t_idempotency_key t = Some k ->
      t_idempotency_key task = Some k -> False).
    { intros t k Ht Htk Hkk. rewrite Hkk in *.
      destruct (with_key k rows) eqn:Ew; [done|]. unfold with_key in Ew.
      pose proof (find_none _ _ Ew _ Ht) as Hf. cbn in Hf. by rewrite Htk, str_eqb_refl in Hf. }
    intros t u k Ht Hu Htk Huk.
    apply in_app_or in Ht as [Ht|[<-|[]]]; apply in_app_or in Hu as [Hu|[<-|[]]]; eauto;
      exfalso; eauto.
  - exists rows, [task]. split_and!; [done..|cbn; lia|]. repeat constructor; auto.
Qed.

Lemma new_task_ok id ty title input key now : task_ok (new_task id ty title input key now).
Proof.
  constructor; try done. unfold STATUSES, keys. cbn [map fst ALLOWED_TRANSITIONS In]. by left.
Qed.

Lemma create_task_step interference id ty title input key now db r db' :
  db_ok db -> interference db = db ->
  create_task interference id ty title input key now db = (r, db') -> step_result db db'.
Proof.
  intros Hdb Hint H. unfold create_task in H. rewrite Hint in H.
  assert (Hsame : step_result db db) by (apply step_result_rows; auto with dgx).
  destruct (usable_key key ≫= _) as [t|] eqn:Hk.
  - destruct (negb (is_terminal t)) eqn:Ht; [by injection H as <- <-|].
    destruct (insert_conflicts _ _) eqn:Hc; [by injection H as <- <-|]. injection H as <- <-.
    destruct (usable_key key) as [k|]; [|done]. cbn in Hk. apply with_key_Some in Hk as [Hin _].
    pose proof (db_get_In _ _ (ok_ids _ Hdb) Hin) as Hget.
    pose proof (db_get_ok _ _ _ Hdb Hget) as Hok.
    edestruct (put_step db (t_id t) t (clear_key t)) as [H1 H2]; eauto.
    { apply evolves_same; auto. } { by eapply task_ok_same. }
    apply insert_step; auto using new_task_ok.
  - destruct (insert_conflicts _ _) eqn:Hc.
    + by injection H as <- <-.
    + injection H as <- <-. apply insert_step; auto using new_task_ok with dgx.
Qed.

Lemma engine_step_result db db' : db_ok db -> engine_step db db' -> step_result db db'.
Proof.
  intros Hdb H. destruct H.
  - by eapply create_task_step.
  - by apply context_update_step.
  - by eapply recover_interrupted_step.
  - by eapply claim_step.
  - by eapply finish_outcome_step.
  - by eapply request_pause_step.
  - by eapply resume_step.
  - by eapply request_cancel_step.
Qed.

Lemma db_ok_nil : db_ok [].
Proof. constructor; [constructor..|done]. Qed.

Lemma reachable_ok db : star engine_step [] db -> db_ok db.
Proof.
  intros H. eapply (star_invariant engine_step db_ok); [|exact H|apply db_ok_nil].
  intros a b Ha Hab. by apply engine_step_result in Hab as [? _].
Qed.

Lemma find_Some_In {A} (p : A -> bool) l x : In x l -> p x = true -> exists y, find p l = Some y.
Proof.
  induction l as [|y l IH]; cbn; [done|]. destruct (p y) eqn:E; [by eexists|].
  intros [->|Hin] Hp; [congruence|auto].
Qed.

Lemma oldest_least l t u : oldest l = Some t -> In u l -> t_created_at t <= t_created_at u.
Proof.
  revert t. induction l as [|x l IH]; intros t; cbn; [done|].
  destruct (oldest l) as [v|] eqn:E.
  - destruct (Z.ltb_spec (t_created_at v) (t_created_at x)); intros [= <-] [->|Hu]; try lia.
    + by apply IH.
    + specialize (IH v eq_refl Hu). lia.
  - intros [= ->] [->|Hu]; [lia|]. destruct l as [|y l]; [done|]. cbn in E.
    destruct (oldest l); [by destruct (_ <? _)|done].
Qed.

Lemma transition_task_total now t target :
  allowed (t_status t) target = true -> exists t', transition_task now t target = Ok t'.
Proof.
  intros H. unfold transition_task. rewrite H. cbn [negb].
  destruct (str_eqb _ _); [by eexists|]. destruct (str_in _ _); by eexists.
Qed.

Lemma db_get_put_eq task db t :
  db_get (t_id task) db = Some t -> db_get (t_id task) (db_put task db) = Some task.
Proof.
  unfold db_get, db_put. induction db as [|x db IH]; cbn; [done|].
  destruct (str_eqb (t_id task) (t_id x)) eqn:E; cbn; rewrite ?str_eqb_refl, ?E; auto.
Qed.

Lemma claimable_spec lane t :
  claimable lane t = true <-> t_status t = str "queued" /\ in_lane lane (t_type t) = true.
Proof. unfold claimable. by rewrite andb_true_iff, str_eqb_eq. Qed.

Lemma claim_total lane now db : exists r db', claim lane now db = Ok (r, db').
Proof.
  destruct (claim lane now db) as [[r db']|e] eqn:Hc; [by exists r, db'|].
  exfalso. unfold claim in Hc. destruct (oldest _) as [t|] eqn:Ho; [|done].
  apply oldest_In, filter_In in Ho as [_ [Hq _]%claimable_spec].
  destruct (transition_task_total now t (str "running")) as [t' Ht']; [by rewrite Hq|].
  by rewrite Ht' in Hc.
Qed.

(** The claimed row is in the store, running. *)
Lemma claim_running lane now db id ty input db' :
  db_ok db -> claim lane now db = Ok (Some (id, ty, input), db') ->
  exists t, db_get id db' = Some t /\ t_status t = str "running" /\ t_started_at t = Some now.
Proof.
  intros Hdb [(? & _)|(t & t' & Hin & _ & _ & Htr & [= -> -> ->] & ->)]%claim_Some; [done|].
  destruct (transition_task_evolves _ _ _ _ Htr) as [Hev Hst].
  apply transition_task_Ok in Htr as [_ Ht'].
  exists (set_log (t_log t' ++ str "Task started." ++ NEWLINE) t').
  split; [|by rewrite Ht']. rewrite <- (ev_id _ _ Hev).
  change (t_id t') with (t_id (set_log (t_log t' ++ str "Task started." ++ NEWLINE) t')).
  eapply db_get_put_eq. cbn. rewrite (ev_id _ _ Hev). apply db_get_In; [apply Hdb|done].
Qed.

(** ** Properties *)

(** C26.  Every database the engine's operations can produce is well formed:
    ids are unique, an idempotency key names one task, every status is one of
    the six, progress is within 0..100, a running task has a start time, no
    finish time and no error, and a finished one has a finish time. *)
Theorem engine_invariant db : star engine_step [] db -> db_ok db.
Proof. apply reachable_ok. Qed.

Definition demo_task : TaskRecord :=
  new_task (str "t1") (str "model.download") (str "Download") [] (Some (str "k")) 5.

Lemma demo_db_ok : db_ok [demo_task].
Proof.
  apply reachable_ok. eapply star_step; [apply star_refl|].
  apply (step_create id (str "t1") (str "model.download") (str "Download") []
           (Some (str "k")) 5 [] (Ok demo_task)); reflexivity.
Qed.

Lemma engine_invariant_witness : db_ok [demo_task].
Proof.
  apply engine_invariant. eapply star_step; [apply star_refl|].
  apply (step_create id (str "t1") (str "model.download") (str "Download") [] (Some (str "k")) 5 []
           (Ok demo_task)); reflexivity.
Defined.

(** C27.  The engine implements the status machine of [ALLOWED_TRANSITIONS]:
    one operation keeps every stored task (its id, type, input and creation
    time), moves each status along at most one edge of the table, and adds at
    most one task, which is new and queued. *)
Theorem engine_step_refines_lifecycle db db' :
  db_ok db -> engine_step db db' ->
  exists rows new, db' = rows ++ new /\ Forall2 evolves db rows /\ (length new <= 1)%nat /\
    Forall (fun t => t_status t = str "queued" /\ db_get (t_id t) db = None) new.
Proof. intros Hdb H. by apply engine_step_result in H as [_ H]. Qed.

Lemma engine_step_refines_lifecycle_witness :
  exists rows new, [set_log (str "Task started." ++ NEWLINE)
      (set_times (Some 9) None (set_status (str "running") demo_task))] = rows ++ new /\
    Forall2 evolves [demo_task] rows /\ (length new <= 1)%nat /\
    Forall (fun t => t_status t = str "queued" /\ db_get (t_id t) [demo_task] = None) new.
Proof.
  apply engine_step_refines_lifecycle.
  - apply demo_db_ok.
  - apply (step_claim (str "download") 9 _ (Some (str "t1", str "model.download", []))). reflexivity.
Defined.

(** Creating a task is idempotent: while a task with the same idempotency
    key is not finished, [create_task] returns that very task and changes
    nothing, whatever else the request carries. *)
Theorem create_task_idempotent interference id ty title input k now db t :
  db_ok db -> k <> [] -> In t db -> t_idempotency_key t = Some k -> is_terminal t = false ->
  create_task interference id ty title input (Some k) now db = (Ok t, db).
Proof.
  intros Hdb Hk Hin Hkey Hterm. unfold create_task.
  assert (Hu : usable_key (Some k) = Some k) by by destruct k. rewrite Hu. cbn [mbind option_bind].
  destruct (find_Some_In (fun u => match t_idempotency_key u with
      Some k' => str_eqb k k' | None => false end) db t Hin) as [u Hu'].
  { by rewrite Hkey, str_eqb_refl. }
  change (with_key k db = Some u) in Hu'. rewrite Hu'.
  apply with_key_Some in Hu' as [Huin Hukey].
  assert (t = u) as <-.
  { eapply NoDup_ids_inj; [apply Hdb|done..|]. by eapply (ok_keys _ Hdb). }
  by rewrite Hterm.
Qed.

Lemma create_task_idempotent_witness :
  create_task (fun db => db) (str "t2") (str "model.download") (str "Again") [] (Some (str "k")) 7
    [demo_task] = (Ok demo_task, [demo_task]).
Proof.
  apply create_task_idempotent; try reflexivity.
  - apply demo_db_ok.
  - vm_compute. discriminate.
  - by left.
Defined.

(** The three worker lanes share the work without overlap or gap: every
    task type belongs to exactly one lane. *)
Theorem lanes_partition ty :
  exists lane, In lane LANES /\ in_lane lane ty = true /\
    forall other, In other LANES -> in_lane other ty = true -> other = lane.
Proof.
  assert (Hd : in_lane (str "download") ty = str_in ty DOWNLOAD_TASK_TYPES) by reflexivity.
  assert (Hi : in_lane (str "image") ty = str_in ty IMAGE_TASK_TYPES) by reflexivity.
  assert (Hc : in_lane (str "control") ty
    = negb (str_in ty DOWNLOAD_TASK_TYPES || str_in ty IMAGE_TASK_TYPES)).
  { change (in_lane (str "control") ty)
      with (negb (existsb (str_eqb ty) (DOWNLOAD_TASK_TYPES ++ IMAGE_TASK_TYPES))).
    by rewrite existsb_app. }
  destruct (str_in ty DOWNLOAD_TASK_TYPES) eqn:E1; [|destruct (str_in ty IMAGE_TASK_TYPES) eqn:E2].
  - exists (str "download"). split_and!; [by right; left|done|].
    apply str_in_In in E1. destruct E1 as [<-|[]].
    intros other [<-|[<-|[<-|[]]]] H; [by vm_compute in H|done|by vm_compute in H].
  - exists (str "image"). split_and!; [by do 2 right; left|done|].
    cbn [orb negb] in Hc. intros other [<-|[<-|[<-|[]]]] H; congruence.
  - exists (str "control"). split_and!; [by left|done|].
    cbn [orb negb] in Hc. intros other [<-|[<-|[<-|[]]]] H; congruence.
Qed.

(** A worker that looks for work always gets an answer: [None] exactly
    when its lane has no queued task, and otherwise the oldest queued task of
    the lane, which is stored as running from then on. *)
Theorem claim_oldest_queued lane now db :
  db_ok db ->
  exists r db', claim lane now db = Ok (r, db') /\
    match r with
    | None => db' = db /\
        forall t, In t db -> t_status t = str "queued" -> in_lane lane (t_type t) = false
    | Some (id, ty, input) =>
        exists t t', In t db /\ t_id t = id /\ t_type t = ty /\ t_input_json t = input /\
          t_status t = str "queued" /\ in_lane lane ty = true /\
          (forall u, In u db -> claimable lane u = true -> t_created_at t <= t_created_at u) /\
          db_get id db' = Some t' /\ t_status t' = str "running" /\ t_started_at t' = Some now
    end.
Proof.
  intros Hdb. destruct (claim_total lane now db) as (r & db' & Hc).
  exists r, db'. split; [done|]. pose proof Hc as Hc'.
  apply claim_Some in Hc as [(-> & -> & Hf)|(t & t' & Hin & Hcl & Ho & _ & -> & _)].
  - split; [done|]. intros t Hin Hq. destruct (in_lane lane (t_type t)) eqn:E; [|done].
    assert (H : In t (List.filter (claimable lane) db)) by by apply filter_In, conj, claimable_spec.
    by rewrite Hf in H.
  - apply claimable_spec in Hcl as [Hq Hl].
    destruct (claim_running _ _ _ _ _ _ _ Hdb Hc') as (u & Hget & Hu & Hs).
    exists t, u. split_and!; try done.
    intros v Hv Hclv. eapply oldest_least; [exact Ho|]. by apply filter_In.
Qed.

Lemma claim_oldest_queued_witness :
  exists r db', claim (str "image") 9 [demo_task] = Ok (r, db') /\
    match r with
    | None => db' = [demo_task] /\
        forall t, In t [demo_task] -> t_status t = str "queued" ->
          in_lane (str "image") (t_type t) = false
    | Some (id, ty, input) =>
        exists t t', In t [demo_task] /\ t_id t = id /\ t_type t = ty /\ t_input_json t = input /\
          t_status t = str "queued" /\ in_lane (str "image") ty = true /\
          (forall u, In u [demo_task] -> claimable (str "image") u = true ->
             t_created_at t <= t_created_at u) /\
          db_get id db' = Some t' /\ t_status t' = str "running" /\ t_started_at t' = Some 9
    end.
Proof. apply claim_oldest_queued. apply demo_db_ok. Defined.

Lemma recover_task_total now t : exists t', recover_task now t = Ok t'.
Proof.
  unfold recover_task. destruct (str_eqb_spec (t_status t) (str "running")) as [E|]; [|by eexists].
  destruct (transition_task_total now t (str "queued")) as [t' ->]; [by rewrite E|]. by eexists.
Qed.

Lemma mapM_result_total {A B} (f : A -> result B) l :
  (forall x, In x l -> exists y, f x = Ok y) -> exists k, mapM_result f l = Ok k.
Proof.
  induction l as [|x l IH]; intros H; cbn; [by eexists|].
  destruct (H x) as [y ->]; [by left|]. destruct IH as [k ->]; [|by eexists].
  intros z Hz. apply H. by right.
Qed.

(** Recovery after a restart always succeeds, leaves no task running,
    keeps every other status, and reports how many tasks it put back. *)
Theorem recover_interrupted_complete now db :
  db_ok db ->
  exists db', recover_interrupted now db
      = Ok (zlen (List.filter (fun t => str_eqb (t_status t) (str "running")) db), db') /\
    Forall2 (fun t t' => t_id t' = t_id t /\
      t_status t' = if str_eqb (t_status t) (str "running") then str "queued" else t_status t) db db' /\
    Forall (fun t => t_status t <> str "running") db'.
Proof.
  intros Hdb. unfold recover_interrupted.
  destruct (mapM_result_total (recover_task now) db) as [db' Hm].
  { intros x _. apply recover_task_total. }
  rewrite Hm. exists db'. split; [done|]. apply mapM_result_Ok in Hm.
  pose proof (ok_rows _ Hdb) as Hr. clear Hdb.
  induction Hm as [|t t' l l' H Hm IH]; [by split; constructor|].
  inversion Hr as [|? ? Ht Hl]; subst. destruct (IH Hl) as [IH1 IH2].
  destruct (recover_task_Ok _ _ _ Ht H) as (Hev & _ & Hst).
  split; constructor; try done; [by split; [apply Hev|]|].
  rewrite Hst. by destruct (str_eqb_spec (t_status t) (str "running")).
Qed.

Lemma recover_interrupted_complete_witness :
  exists db', recover_interrupted 8 [demo_task]
      = Ok (zlen (List.filter (fun t => str_eqb (t_status t) (str "running")) [demo_task]), db') /\
    Forall2 (fun t t' => t_id t' = t_id t /\
      t_status t' = if str_eqb (t_status t) (str "running") then str "queued" else t_status t)
      [demo_task] db' /\
    Forall (fun t => t_status t <> str "running") db'.
Proof. apply recover_interrupted_complete. apply demo_db_ok. Defined.

(** A progress report cannot leave its bounds, whatever a handler sends:
    progress stays within 0..100 (NaN included), the byte count is never
    negative and, when reported, at most the total then stored, and a log that
    is appended to keeps at most 100000 characters. *)
Theorem context_update_bounds id progress completed total message db t :
  db_ok db ->
  db_get id (context_update id progress (Some completed) total (Some message) db) = Some t ->
  progress_ok (t_progress t) /\ 0 <= t_completed_bytes t /\
  (forall n, t_total_bytes t = Some n -> t_completed_bytes t <= n) /\
  (message <> [] -> zlen (t_log t) <= LOG_LIMIT).
Proof.
  intros Hdb H.
  destruct (context_update_step id progress (Some completed) total (Some message) db Hdb) as [Hok _].
  pose proof (db_get_ok _ _ _ Hok H) as Ht. split; [apply (ok_progress _ Ht)|].
  split; [exact (proj1 (ok_bytes _ Ht))|]. split.
  all: unfold context_update in H; destruct (db_get id db) as [u|] eqn:Hget; [|congruence];
    pose proof (db_get_Some _ _ _ Hget) as [_ Hid]; rewrite <- Hid in H, Hget;
    match type of H with db_get _ (db_put ?task _) = _ =>
      change (t_id u) with (t_id task) in H, Hget; rewrite (db_get_put_eq task db u Hget) in H end;
    injection H as <-; cbn [set_log set_progress t_total_bytes t_completed_bytes t_log].
  - intros n ->. lia.
  - intros Hm. destruct message; [done|]. unfold zlen, last_chars, LOG_LIMIT. rewrite length_drop. lia.
Qed.

Lemma context_update_bounds_witness :
  exists t, db_get (str "t1") (context_update (str "t1") (Some (NInt 250)) (Some 900) (Some 600)
              (Some (str "chunk")) [demo_task]) = Some t /\
    progress_ok (t_progress t) /\ 0 <= t_completed_bytes t /\
    (forall n, t_total_bytes t = Some n -> t_completed_bytes t <= n) /\
    (str "chunk" <> [] -> zlen (t_log t) <= LOG_LIMIT).
Proof.
  eexists. split; [reflexivity|].
  apply (context_update_bounds (str "t1") (Some (NInt 250)) 900 (Some 600) (str "chunk")
           [demo_task]); [apply demo_db_ok|reflexivity].
Defined.

(** ** The worker loop *)

(** While a handler runs, the claimed row stays running (or disappears). *)
Definition keeps_running (during : database -> database) : Prop :=
  forall id db t, db_get id db = Some t -> t_status t = str "running" ->
    match db_get id (during db) with
    | Some t' => t_status t' = str "running"
    | None => True
    end.

Lemma finish_total id status res error now db :
  allowed (str "running") status = true ->
  match db_get id db with Some t => t_status t = str "running" | None => True end ->
  exists db', finish id status res error now db = Ok db'.
Proof.
  intros Ha Ht. unfold finish. destruct (db_get id db) as [t|]; [|by eexists].
  destruct (transition_task_total now t status) as [t' ->]; [by rewrite Ht|]. by eexists.
Qed.

Lemma finish_outcome_total handlers id ty outcome now db :
  match db_get id db with Some t => t_status t = str "running" | None => True end ->
  exists db', finish_outcome handlers id ty outcome now db = Ok db'.
Proof.
  intros Ht. unfold finish_outcome.
  destruct (negb _); [|destruct outcome]; apply finish_total; done.
Qed.

(** A worker thread survives every turn: if nothing else moves the
    claimed task out of "running" while its handler works, then whether the
    handler returns, pauses, is cancelled, fails or does not exist, the turn
    ends normally with the outcome recorded. *)
Theorem run_turn_survives lane handlers during outcome t1 t2 db :
  db_ok db -> keeps_running during ->
  exists db', run_turn lane handlers during outcome t1 t2 db = Ok db'.
Proof.
  intros Hdb Hk. unfold run_turn.
  destruct (claim_total lane t1 db) as (r & db1 & Hc). rewrite Hc. cbn [mbind result_bind].
  destruct r as [[[id ty] input]|]; [|by eexists].
  destruct (claim_running _ _ _ _ _ _ _ Hdb Hc) as (t & Hget & Hst & _).
  destruct (str_in ty handlers) eqn:E; apply finish_outcome_total.
  - by apply (Hk _ _ _ Hget).
  - by rewrite Hget.
Qed.

Lemma run_turn_survives_witness :
  exists db', run_turn (str "download") [str "model.download"] (fun db => db)
    (RaisedException (str "disk full")) 9 12 [demo_task] = Ok db'.
Proof.
  apply run_turn_survives; [apply demo_db_ok|].
  intros id db t -> H. exact H.
Defined.

(** The condition of the previous theorem is needed, because [resume]
    breaks it: it accepts a running task and puts it back in the queue, and
    when the handler of that task then returns or fails, [_finish] raises
    [ValueError] outside the handler's [try], which ends the worker thread. *)
Theorem resume_running_kills_worker lane handlers outcome t1 t2 t3 db id ty input db1 :
  db_ok db -> claim lane t1 db = Ok (Some (id, ty, input), db1) -> str_in ty handlers = true ->
  outcome <> RaisedPaused -> outcome <> RaisedCancelled ->
  exists db2 text, resume t2 id db1 = Ok db2 /\
    run_turn lane handlers (fun _ => db2) outcome t1 t3 db = Raise (ValueError text).
Proof.
  intros Hdb Hc Hh Hp Hcan. unfold run_turn. rewrite Hc. cbn [mbind result_bind]. rewrite Hh.
  destruct (claim_running _ _ _ _ _ _ _ Hdb Hc) as (t & Hget & Hst & _).
  pose proof (db_get_Some _ _ _ Hget) as [_ Hid].
  unfold resume. rewrite Hget. cbn [of_option mbind result_bind].
  destruct (transition_task_total t2 t (str "queued")) as [t' Htr]; [by rewrite Hst|].
  rewrite Htr. cbn [mbind result_bind].
  destruct (transition_task_evolves _ _ _ _ Htr) as [Hev Hst'].
  assert (Hq : db_get id (db_put (set_result [] (set_cancel false t')) db1)
             = Some (set_result [] (set_cancel false t'))).
  { assert (Hi : t_id (set_result [] (set_cancel false t')) = id) by (cbn; rewrite (ev_id _ _ Hev); done).
    rewrite <- Hi. eapply db_get_put_eq. rewrite Hi. exact Hget. }
  unfold finish_outcome. rewrite Hh. cbn [negb].
  destruct outcome; try done; (eexists _, _; split; [reflexivity|]); unfold finish; rewrite Hq;
    unfold transition_task; cbn [set_result set_cancel t_status]; rewrite Hst'; reflexivity.
Qed.

Lemma resume_running_kills_worker_witness :
  exists db1 db2 text, claim (str "download") 9 [demo_task]
      = Ok (Some (str "t1", str "model.download", []), db1) /\
    resume 10 (str "t1") db1 = Ok db2 /\
    run_turn (str "download") [str "model.download"] (fun _ => db2) (Returned None) 9 12 [demo_task]
      = Raise (ValueError text).
Proof.
  eexists. edestruct (resume_running_kills_worker (str "download") [str "model.download"]
    (Returned None) 9 10 12 [demo_task] (str "t1") (str "model.download") []) as (db2 & text & H);
    [apply demo_db_ok|reflexivity|reflexivity|done|done|].
  exists db2, text. split; [reflexivity|exact H].
Defined.
