(* ===== verification/Resources.v ===== *)
(** * Memory estimates and context clamping

    [backend/app/services/resource_estimator.py]: the estimate that admits or
    blocks a deployment, and the search for a context length that fits.
    Arguments are Python values where the code checks their type; integers are
    unbounded as in Python, and the reserve goes through a binary64 product. *)
From Stdlib Require Import ZArith Lia Bool String.
From Stdlib Require Import SpecFloat.
From stdpp Require Import prelude.
From S2P Require Import Prelude PyValue PyFloat.
Open Scope Z_scope.

Definition GiB : Z := 1024 ^ 3.
Definition RUNTIME_WORKSPACE_BYTES : Z := 2 * GiB.
Definition MAX_CONTEXT_LENGTH : Z := 1048576.
Definition MAX_CONCURRENCY : Z := 1048576.
Definition MAX_SIZE_BYTES : Z := Z.shiftl 1 60.
Definition MAX_RESERVE_MIN_BYTES : Z := Z.shiftl 1 50.
Definition MAX_HIDDEN_SIZE : Z := 1048576.
Definition MAX_NUM_LAYERS : Z := 4096.
Definition MAX_NUM_HEADS : Z := 4096.
Definition MAX_KV_CACHE_BYTES : Z := Z.shiftl 1 63 - 1.

(** ** The size of the key-value cache *)

Inductive kv_status := kv_ok | kv_missing | kv_invalid | kv_overflow.

Record KvCacheResult := mkKv { kv_bytes : Z; kv_result_status : kv_status }.

(** [_positive_int] *)
Definition positive_int (value : pyval) (maximum : option Z) : option Z :=
  match value with
  | PInt n =>
      if n <=? 0 then None
      else match maximum with
           | Some m => if m <? n then None else Some n
           | None => Some n
           end
  | _ => None
  end.

(** [_checked_product]: the loop, with the product so far *)
Fixpoint checked_product_from (result : Z) (values : list Z) (maximum : Z) : option Z :=
  match values with
  | [] => Some result
  | value :: rest =>
      if maximum / result <? value then None else checked_product_from (result * value) rest maximum
  end.

Definition checked_product (values : list Z) (maximum : Z) : option Z := checked_product_from 1 values maximum.

(** [_bounded_int] *)
Definition bounded_int (value : pyval) (name : pystr) (minimum maximum : Z) : result Z :=
  n ← of_option (as_int value) (ValueError (name ++ str " must be an integer"));
  _ ← guard_exn ((minimum <=? n) && (n <=? maximum))
        (ValueError (name ++ str " must be between " ++ dec minimum ++ str " and " ++ dec maximum));
  Ok n.

(** [_size_bytes] *)
Definition size_bytes (value : pyval) (name : pystr) (allow_zero : bool) : result Z :=
  bounded_int value name (if allow_zero then 0 else 1) MAX_SIZE_BYTES.

Definition required_fields : list (pystr * Z) :=
  [(str "hidden_size", MAX_HIDDEN_SIZE); (str "num_hidden_layers", MAX_NUM_LAYERS);
   (str "num_attention_heads", MAX_NUM_HEADS)].

(** [_estimate_kv_cache] *)
Definition estimate_kv_cache (config context_length max_concurrency : pyval) : KvCacheResult :=
  match config with
  | PDict config =>
      if existsb (fun '(key, _) => is_none (get_or_none key config)) required_fields then mkKv 0 kv_missing
      else
        let hidden := positive_int (get_or_none (str "hidden_size") config) (Some MAX_HIDDEN_SIZE) in
        let layers := positive_int (get_or_none (str "num_hidden_layers") config) (Some MAX_NUM_LAYERS) in
        let attention_heads := positive_int (get_or_none (str "num_attention_heads") config) (Some MAX_NUM_HEADS) in
        let raw_kv_heads := get_or_none (str "num_key_value_heads") config in
        let kv_heads := if is_none raw_kv_heads then attention_heads else positive_int raw_kv_heads (Some MAX_NUM_HEADS) in
        let context := positive_int context_length (Some MAX_CONTEXT_LENGTH) in
        let concurrency := positive_int max_concurrency (Some MAX_CONCURRENCY) in
        match kv_heads, hidden, layers, attention_heads, context, concurrency with
        | Some kv_heads, Some hidden, Some layers, Some attention_heads, Some context, Some concurrency =>
            if negb (hidden mod attention_heads =? 0) then mkKv 0 kv_invalid
            else
              let head_dim := hidden / attention_heads in
              if head_dim <=? 0 then mkKv 0 kv_invalid
              else match checked_product [2; layers; kv_heads; head_dim; context; concurrency; 2] MAX_KV_CACHE_BYTES with
                   | None => mkKv 0 kv_overflow
                   | Some result => mkKv result kv_ok
                   end
        | _, _, _, _, _, _ => mkKv 0 kv_invalid
        end
  | PNone => mkKv 0 kv_missing
  | _ => mkKv 0 kv_invalid
  end.

Definition kv_cache_bytes (config context_length max_concurrency : pyval) : Z :=
  kv_bytes (estimate_kv_cache config context_length max_concurrency).

(** ** The reserve *)

(** [float(n)] *)
Definition float_of_int (n : Z) : result spec_float :=
  let f := float_of_Z n in
  if isfinite f then Ok f else Raise (OverflowError (str "int too large to convert to float")).

(** [int(f)]: towards zero *)
Definition int_of_float (f : spec_float) : result Z :=
  match float_fraction f with
  | Some (n, k) => Ok (Z.quot n (2 ^ k))
  | None => match f with
            | S754_nan => Raise (ValueError (str "cannot convert float NaN to integer"))
            | _ => Raise (OverflowError (str "cannot convert float infinity to integer"))
            end
  end.

Definition float_mul (a b : spec_float) : spec_float := SFmul float_prec float_emax a b.

(** [reserve_bytes] *)
Definition reserve_bytes (total_bytes : Z) (fraction : spec_float) (minimum : Z) : result Z :=
  total ← float_of_int total_bytes;
  part ← int_of_float (float_mul total fraction);
  Ok (Z.max minimum part).

(** ** Estimates *)

Inductive decision := d_ok | d_warning | d_blocked.
Inductive confidence := c_high | c_low.

#[export] Instance decision_eq_dec : EqDecision decision.
Proof. solve_decision. Defined.

Record ResourceEstimate := mkEstimate {
  total_bytes : Z;
  available_bytes : Z;
  reserved_bytes : Z;
  weight_bytes : Z;
  draft_weight_bytes : Z;
  estimate_kv_bytes : Z;
  runtime_overhead_bytes : Z;
  required_bytes : Z;
  estimate_decision : decision;
  estimate_confidence : confidence;
  reasons : list pystr;
}.

Definition validation_error : exn := ValueError (str "validation error").

(** The declared constraints of the fields, [Field(ge=0)], which the
    constructor enforces *)
Definition estimate_fields_ok (e : ResourceEstimate) : bool :=
  forallb (fun n => 0 <=? n)
    [total_bytes e; available_bytes e; reserved_bytes e; weight_bytes e; draft_weight_bytes e;
     estimate_kv_bytes e; runtime_overhead_bytes e; required_bytes e].

Definition new_estimate (e : ResourceEstimate) : result ResourceEstimate :=
  _ ← guard_exn (estimate_fields_ok e) validation_error; Ok e.

(** [ResourceEstimate.blocked] *)
Definition blocked_estimate (reason : pystr) : result ResourceEstimate :=
  new_estimate (mkEstimate 0 0 0 0 0 0 0 0 d_blocked c_low [reason]).

Record ResourceEstimator := mkEstimator { reserve_fraction : spec_float; reserve_min_bytes : Z }.

Definition fraction_error : exn := ValueError (str "reserve_fraction must be finite and between 0.05 and 0.30").
Definition minimum_error : exn :=
  ValueError (str "reserve_min_bytes must be an integer between 1 GiB and 1 PiB").

Definition MIN_FRACTION : spec_float := parse_float (str "0.05").
Definition MAX_FRACTION : spec_float := parse_float (str "0.30").

(** [ResourceEstimator.__init__] *)
Definition new_estimator (fraction minimum : pyval) : result ResourceEstimator :=
  f ← match fraction with
      | PInt n => float_of_int n
      | PFloat f => Ok f
      | _ => Raise fraction_error
      end;
  _ ← guard_exn (isfinite f && SFleb MIN_FRACTION f && SFleb f MAX_FRACTION) fraction_error;
  m ← of_option (as_int minimum) minimum_error;
  _ ← guard_exn ((1 * GiB <=? m) && (m <=? MAX_RESERVE_MIN_BYTES)) minimum_error;
  Ok (mkEstimator f m).

(** 1.15 times a size, rounded up *)
Definition with_overhead (size : Z) : Z := (size * 115 + 99) / 100.

Definition insufficient : pystr := str "current available memory is insufficient after reserved memory".
Definition exceeds : pystr := str "physical memory requirement exceeds total memory".

(** The decision of [estimate], and the reasons with the one it puts first *)
Definition decide_estimate (status : kv_status) (required total available reserved : Z) (reasons : list pystr)
    : decision * list pystr :=
  match status with
  | kv_overflow => (d_blocked, exceeds :: reasons)
  | _ =>
      if total <? required then (d_blocked, exceeds :: reasons)
      else if Z.max 0 (available - reserved) <? required then (d_warning, insufficient :: reasons)
      else (d_ok, reasons)
  end.

(** What a cache status adds to the reasons, and the confidence it leaves *)
Definition kv_reason (status : kv_status) : confidence * list pystr :=
  match status with
  | kv_ok => (c_high, [])
  | kv_missing => (c_low, [str "architecture fields are missing; KV cache is omitted"])
  | kv_invalid => (c_low, [str "architecture fields are invalid; KV cache is omitted"])
  | kv_overflow =>
      (c_low, [str "physical KV cache estimate overflow exceeds the supported int64 memory range"])
  end.

(** The bytes that an estimate counts for the cache *)
Definition kv_amount (kv : KvCacheResult) : Z :=
  match kv_result_status kv with kv_overflow => MAX_KV_CACHE_BYTES | _ => kv_bytes kv end.

(** [estimate], once the memory and the cache are known *)
Definition finish_estimate (self : ResourceEstimator) (model_size draft_size total available : Z)
    (kv_result : KvCacheResult) (reasons : list pystr) : result ResourceEstimate :=
  let status := kv_result_status kv_result in
  let kv_cache := kv_amount kv_result in
  let '(confidence, kv_reasons) := kv_reason status in
  let weight := with_overhead model_size in
  let draft_weight := with_overhead draft_size in
  let required := weight + draft_weight + kv_cache + RUNTIME_WORKSPACE_BYTES in
  reserved ← reserve_bytes total (reserve_fraction self) (reserve_min_bytes self);
  let '(dec, reasons) := decide_estimate status required total available reserved (reasons ++ kv_reasons) in
  new_estimate (mkEstimate total available reserved weight draft_weight kv_cache RUNTIME_WORKSPACE_BYTES required
                  dec confidence reasons).

(** The cache of an estimate: an explicit budget, or the size that the
    architecture gives *)
Definition cache_of (budget config : pyval) (context concurrency : Z) : result (KvCacheResult * list pystr) :=
  match budget with
  | PNone => Ok (estimate_kv_cache config (PInt context) (PInt concurrency), [])
  | _ =>
      budget ← bounded_int budget (str "kv_cache_budget_bytes") 1 MAX_KV_CACHE_BYTES;
      Ok (mkKv budget kv_ok, [str "Explicit KV cache budget is shared across concurrent requests"])
  end.

(** [estimate] *)
Definition estimate (self : ResourceEstimator)
    (model_size_bytes config context_length max_concurrency system_memory draft_size_bytes kv_cache_budget_bytes : pyval)
    : result ResourceEstimate :=
  model_size ← size_bytes model_size_bytes (str "model_size_bytes") true;
  draft_size ← size_bytes draft_size_bytes (str "draft_size_bytes") true;
  context ← bounded_int context_length (str "context_length") 1 MAX_CONTEXT_LENGTH;
  concurrency ← bounded_int max_concurrency (str "max_concurrency") 1 MAX_CONCURRENCY;
  memory ← of_option (as_dict system_memory) (ValueError (str "system_memory must be a mapping"));
  total ← size_bytes (get_or_none (str "total_bytes") memory) (str "total_bytes") false;
  available ← size_bytes (match dict_get (str "available_bytes") memory with Some v => v | None => PInt total end)
                (str "available_bytes") true;
  let clamped := total <? available in
  let available := if clamped then total else available in
  let reasons := if clamped then [str "available memory exceeded total memory and was clamped"] else [] in
  kv ← cache_of kv_cache_budget_bytes config context concurrency;
  finish_estimate self model_size draft_size total available (fst kv) (reasons ++ snd kv).

(** ** Clamping the context length *)

Record ContextClampResult := mkClamp {
  original_context_length : Z;
  final_context_length : Z;
  final_decision : decision;
  fits : bool;
  explanation : pystr;
}.

Definition clamp_fields_ok (c : ContextClampResult) : bool :=
  (1024 <=? original_context_length c) && (1024 <=? final_context_length c).

Definition new_clamp (c : ContextClampResult) : result ContextClampResult :=
  _ ← guard_exn (clamp_fields_ok c) validation_error; Ok c.

Definition is_blocked (e : ResourceEstimate) : bool :=
  match estimate_decision e with d_blocked => true | _ => false end.

Definition next_context (current : Z) : Z := Z.max 1024 (current / 2 / 1024 * 1024).

Definition clamp_fuel_error : exn := OtherException (str "out of fuel").

Section Clamp.
Variable estimate_factory : Z -> result ResourceEstimate.

(** The loop: the contexts attempted so far, the current one, and the result:
    all attempts, the last estimate and the number of reductions *)
Fixpoint clamp_loop (fuel : nat) (attempts : list Z) (current : Z) (blocked_reductions : Z)
    : result (list Z * Z * ResourceEstimate * Z) :=
  match fuel with
  | O => Raise clamp_fuel_error
  | S k =>
      let attempts := attempts ++ [current] in
      final_estimate ← estimate_factory current;
      if negb (is_blocked final_estimate) || (current =? 1024)
      then Ok (attempts, current, final_estimate, blocked_reductions)
      else clamp_loop k attempts (next_context current) (blocked_reductions + 1)
  end.

Definition clamp_explanation (original limit current : Z) (attempts : list Z) (fits reduced capped aligned : bool)
    : pystr :=
  if negb fits then
    str "minimum context length " ++ dec current ++ str " is still blocked after resource estimates ("
      ++ join (str ", ") (map dec attempts) ++ str ")"
  else if reduced then
    str "context length reduced from " ++ dec original ++ str " to " ++ dec current
      ++ str " after blocked estimates (" ++ join (str ", ") (map dec attempts) ++ str ")"
  else if capped && aligned then
    str "context length capped by hard limit " ++ dec limit ++ str " and aligned down to " ++ dec current
  else if capped then str "context length capped at hard limit " ++ dec limit
  else if aligned then str "context length aligned down from " ++ dec original ++ str " to " ++ dec current
  else str "requested context length fits the hard limit and resource estimate".

(** The first context that is tried *)
Definition aligned_context (original limit : Z) : Z := Z.max 1024 (Z.min original limit / 1024 * 1024).

(** [clamp_context_length] *)
Definition clamp_context_length (fuel : nat) (requested hard_limit : pyval) : result ContextClampResult :=
  original ← bounded_int requested (str "requested context_length") 1024 MAX_CONTEXT_LENGTH;
  limit ← bounded_int hard_limit (str "hard_limit") 1024 MAX_CONTEXT_LENGTH;
  let capped_by_hard_limit := limit <? original in
  let aligned := aligned_context original limit in
  let aligned_down := aligned <? Z.min original limit in
  outcome ← clamp_loop fuel [] aligned 0;
  let '(attempts, current, final_estimate, reductions) := outcome in
  let fits := negb (is_blocked final_estimate) in
  new_clamp (mkClamp original current (estimate_decision final_estimate) fits
    (clamp_explanation original limit current attempts fits (negb (reductions =? 0)) capped_by_hard_limit aligned_down)).
End Clamp.

(** ** The product of the cache dimensions *)

Lemma checked_product_from_spec values maximum : Forall (fun v => 0 < v) values -> forall result,
  0 < result <= maximum ->
  checked_product_from result values maximum =
    let p := result * fold_right Z.mul 1 values in if p <=? maximum then Some p else None.
Proof.
  induction 1 as [|v values Hv Hvs IH]; intros result Hr; cbn [checked_product_from fold_right].
  { rewrite Z.mul_1_r. by rewrite (proj2 (Z.leb_le _ _)) by lia. }
  assert (Hpos : 0 < fold_right Z.mul 1 values) by (clear IH; induction Hvs; cbn; nia).
  destruct (maximum / result <? v) eqn:E; split_bools.
  - pose proof (Z.mul_succ_div_gt maximum result ltac:(lia)). assert (maximum < result * v) by nia.
    cbn zeta. destruct (Z.leb_spec (result * (v * fold_right Z.mul 1 values)) maximum); [nia|done].
  - assert (result * v <= maximum).
    { pose proof (Z.mul_div_le maximum result ltac:(lia)). nia. }
    rewrite IH by nia. cbn zeta. by rewrite Z.mul_assoc.
Qed.

(** The product with early exit agrees with the plain product: it is the
    exact product of the dimensions when that fits the maximum and nothing
    otherwise, although no intermediate result ever exceeds the maximum. *)
Theorem checked_product_exact values maximum : Forall (fun v => 0 < v) values -> 0 < maximum ->
  checked_product values maximum =
    if fold_right Z.mul 1 values <=? maximum then Some (fold_right Z.mul 1 values) else None.
Proof. intros Hv Hm. unfold checked_product. rewrite checked_product_from_spec by (done || lia). cbn zeta. by rewrite Z.mul_1_l. Qed.

Lemma positive_int_Some v m n : positive_int v (Some m) = Some n <-> v = PInt n /\ 0 < n <= m.
Proof.
  destruct v; cbn; try (split; [done|intros [? _]; done]).
  destruct (n0 <=? 0) eqn:E1, (m <? n0) eqn:E2; split_bools; split; try done; try (intros [[= ->] ?]; lia).
  - intros [= ->]. split; [done|lia].
  - by intros [[= ->] _].
Qed.

Lemma bounded_arg_Ok v name lo hi n : bounded_int v name lo hi = Ok n <-> v = PInt n /\ lo <= n <= hi.
Proof.
  unfold bounded_int. split.
  - intros (x & Hx%of_option_Ok & H)%bind_Ok. apply bind_Ok in H as (u & Hu%guard_exn_Ok & [= <-]).
    destruct v; try done. injection Hx as ->. split_bools. done.
  - intros [-> H]. cbn. rewrite !(proj2 (Z.leb_le _ _)) by lia. done.
Qed.

(** The cache as a function of the context: nothing at all, or linear up to
    the overflow *)
Lemma kv_cases config n :
  (exists st, st <> kv_overflow /\ forall c, 1 <= c <= MAX_CONTEXT_LENGTH ->
     estimate_kv_cache config (PInt c) (PInt n) = mkKv 0 st) \/
  exists unit, 0 < unit /\ forall c, 1 <= c <= MAX_CONTEXT_LENGTH ->
    estimate_kv_cache config (PInt c) (PInt n) =
      if unit * c <=? MAX_KV_CACHE_BYTES then mkKv (unit * c) kv_ok else mkKv 0 kv_overflow.
Proof.
  assert (Hpos : forall c, 1 <= c <= MAX_CONTEXT_LENGTH -> positive_int (PInt c) (Some MAX_CONTEXT_LENGTH) = Some c).
  { intros c H. apply positive_int_Some. split; [done|lia]. }
  assert (missing : forall f, (forall c, 1 <= c <= MAX_CONTEXT_LENGTH -> f c = mkKv 0 kv_missing) ->
    exists st, st <> kv_overflow /\ forall c, 1 <= c <= MAX_CONTEXT_LENGTH -> f c = mkKv 0 st) by (by exists kv_missing).
  assert (invalid : forall f, (forall c, 1 <= c <= MAX_CONTEXT_LENGTH -> f c = mkKv 0 kv_invalid) ->
    exists st, st <> kv_overflow /\ forall c, 1 <= c <= MAX_CONTEXT_LENGTH -> f c = mkKv 0 st) by (by exists kv_invalid).
  unfold estimate_kv_cache. destruct config as [| | | | | |d]; [by left; apply missing|left; by apply invalid..|].
  destruct (existsb _ _); [left; by apply missing|]. cbn zeta.
  destruct (if is_none _ then _ else _) as [kv|] eqn:Hkv; [|left; by apply invalid].
  destruct (positive_int _ (Some MAX_HIDDEN_SIZE)) as [h|] eqn:Hh; [|left; by apply invalid].
  destruct (positive_int _ (Some MAX_NUM_LAYERS)) as [l|] eqn:Hl; [|left; by apply invalid].
  destruct (positive_int (get_or_none (str "num_attention_heads") d) (Some MAX_NUM_HEADS)) as [a|] eqn:Ha;
    [|left; by apply invalid].
  assert (Hkv0 : 0 < kv).
  { destruct (is_none _); [injection Hkv as <-; apply positive_int_Some in Ha; lia|].
    apply positive_int_Some in Hkv. lia. }
  apply positive_int_Some in Hh as [_ Hh], Hl as [_ Hl], Ha as [_ Ha].
  destruct (positive_int (PInt n) (Some MAX_CONCURRENCY)) as [con|] eqn:Hcon.
  2: { left. apply invalid. intros c Hc. by rewrite Hpos. }
  apply positive_int_Some in Hcon as [_ Hcon].
  destruct (negb _); [left; apply invalid; intros c Hc; by rewrite Hpos|].
  destruct (h / a <=? 0) eqn:Hd; [left; apply invalid; intros c Hc; by rewrite Hpos|]. split_bools.
  right. exists (2 * l * kv * (h / a) * con * 2). split; [nia|]. intros c Hc. rewrite Hpos by done.
  unfold checked_product. rewrite checked_product_from_spec; [|by repeat (constructor; [lia|])|by vm_compute].
  cbn zeta. cbn [fold_right].
  replace (1 * (2 * (l * (kv * (h / a * (c * (con * (2 * 1)))))))) with (2 * l * kv * (h / a) * con * 2 * c) by ring.
  by destruct (_ <=? _).
Qed.

(** ** What an estimate says *)

Lemma size_bytes_Ok v name z n : size_bytes v name z = Ok n <-> v = PInt n /\ (if z then 0 else 1) <= n <= MAX_SIZE_BYTES.
Proof. apply bounded_arg_Ok. Qed.

Lemma new_estimate_Ok e e' : new_estimate e = Ok e' <-> e = e' /\ estimate_fields_ok e = true.
Proof.
  unfold new_estimate. destruct (estimate_fields_ok e); cbn; split.
  - by intros [= ->].
  - by intros [-> _].
  - done.
  - by intros [_ ?].
Qed.

Lemma reserve_at_least total f m r : reserve_bytes total f m = Ok r -> m <= r.
Proof. intros (x & _ & H)%bind_Ok. apply bind_Ok in H as (y & _ & [= <-]). lia. Qed.

Lemma with_overhead_bounds n : 115 * n <= 100 * with_overhead n < 115 * n + 100.
Proof.
  unfold with_overhead. pose proof (Z.div_mod (n * 115 + 99) 100 ltac:(lia)).
  pose proof (Z.mod_pos_bound (n * 115 + 99) 100 ltac:(lia)). lia.
Qed.

(** The cache grows with the context *)
Lemma kv_amount_mono config n c1 c2 : 1 <= c1 <= c2 -> c2 <= MAX_CONTEXT_LENGTH ->
  0 <= kv_amount (estimate_kv_cache config (PInt c1) (PInt n))
    <= kv_amount (estimate_kv_cache config (PInt c2) (PInt n)).
Proof.
  intros H1 H2. assert (Hmax : 0 <= MAX_KV_CACHE_BYTES) by done.
  destruct (kv_cases config n) as [(st & Hst & E)|(u & Hu & E)]; rewrite !E by lia; unfold kv_amount.
  - cbn. by destruct st.
  - destruct (Z.leb_spec (u * c1) MAX_KV_CACHE_BYTES), (Z.leb_spec (u * c2) MAX_KV_CACHE_BYTES); cbn; nia.
Qed.

Lemma cache_of_mono budget config n c1 c2 kv2 : 1 <= c1 <= c2 -> c2 <= MAX_CONTEXT_LENGTH ->
  cache_of budget config c2 n = Ok kv2 ->
  exists kv1, cache_of budget config c1 n = Ok kv1 /\ snd kv1 = snd kv2 /\ 0 <= kv_amount (fst kv1) <= kv_amount (fst kv2).
Proof.
  intros H1 H2. unfold cache_of. destruct budget.
  1: { intros [= <-]. eexists. split; [done|]. split; [done|]. by apply kv_amount_mono. }
  all: intros H; rewrite H; apply bind_Ok in H as (k & Hk%bounded_arg_Ok & [= <-]);
    eexists; split; [done|]; split; [done|]; cbn; lia.
Qed.

(** The decision, in terms of the numbers *)
Lemma decide_estimate_spec status required total available reserved rs :
  (status = kv_overflow -> total < required) ->
  match fst (decide_estimate status required total available reserved rs) with
  | d_blocked => total < required
  | d_warning => Z.max 0 (available - reserved) < required <= total
  | d_ok => required <= total /\ required <= Z.max 0 (available - reserved)
  end.
Proof.
  intros Ho. unfold decide_estimate.
  assert (forall b c, fst (if (total <? required) then (d_blocked, b) else if Z.max 0 (available - reserved) <? required
    then (d_warning, c) else (d_ok, rs)) = if (total <? required) then d_blocked
      else if Z.max 0 (available - reserved) <? required then d_warning else d_ok) as E by (intros; by repeat case_match).
  destruct status; rewrite ?E; try by apply Ho.
  all: destruct (Z.ltb_spec total required); [done|]; destruct (Z.ltb_spec (Z.max 0 (available - reserved)) required); lia.
Qed.

Lemma kv_overflow_amount kv : kv_result_status kv = kv_overflow -> kv_amount kv = MAX_KV_CACHE_BYTES.
Proof. unfold kv_amount. by intros ->. Qed.

(** A finished estimate *)
Lemma finish_estimate_Ok self m d total available kv rs e :
  finish_estimate self m d total available kv rs = Ok e <->
  exists reserved, reserve_bytes total (reserve_fraction self) (reserve_min_bytes self) = Ok reserved /\
    estimate_fields_ok e = true /\
    let required := with_overhead m + with_overhead d + kv_amount kv + RUNTIME_WORKSPACE_BYTES in
    let dec := decide_estimate (kv_result_status kv) required total available reserved
                 (rs ++ snd (kv_reason (kv_result_status kv))) in
    e = mkEstimate total available reserved (with_overhead m) (with_overhead d) (kv_amount kv) RUNTIME_WORKSPACE_BYTES
          required (fst dec) (fst (kv_reason (kv_result_status kv))) (snd dec).
Proof.
  unfold finish_estimate. cbn zeta. destruct (kv_reason _) as [conf krs]. cbn [fst snd].
  split.
  - intros (r & Hr & H)%bind_Ok. exists r. split; [done|].
    destruct (decide_estimate _ _ _ _ _ _) as [dec rs']. apply new_estimate_Ok in H as [<- H]. done.
  - intros (r & -> & Hf & ->). cbn [mbind result_bind]. destruct (decide_estimate _ _ _ _ _ _) as [dec rs'].
    by apply new_estimate_Ok.
Qed.

Lemma overflow_exceeds m d total kv : total <= MAX_SIZE_BYTES -> 0 <= m -> 0 <= d ->
  kv_result_status kv = kv_overflow -> total < with_overhead m + with_overhead d + kv_amount kv + RUNTIME_WORKSPACE_BYTES.
Proof.
  intros Ht Hm Hd ->%kv_overflow_amount. pose proof (with_overhead_bounds m). pose proof (with_overhead_bounds d).
  change MAX_SIZE_BYTES with 1152921504606846976 in Ht. change MAX_KV_CACHE_BYTES with 9223372036854775807.
  unfold RUNTIME_WORKSPACE_BYTES, GiB. lia.
Qed.

Lemma finish_estimate_mono self m d total available kv1 kv2 rs e2 :
  total <= MAX_SIZE_BYTES -> 0 <= m -> 0 <= d -> 0 <= kv_amount kv1 <= kv_amount kv2 ->
  finish_estimate self m d total available kv2 rs = Ok e2 ->
  exists e1, finish_estimate self m d total available kv1 rs = Ok e1 /\ required_bytes e1 <= required_bytes e2 /\
    (is_blocked e1 = true -> is_blocked e2 = true).
Proof.
  intros Ht Hm Hd Hkv (r & Hr & Hf & E2)%finish_estimate_Ok. cbn zeta in E2.
  pose proof (with_overhead_bounds m) as Bm. pose proof (with_overhead_bounds d) as Bd.
  eexists. split; [apply finish_estimate_Ok; exists r; split; [done|]; split; [|reflexivity]|].
  - subst e2. unfold estimate_fields_ok in *. cbn [total_bytes available_bytes reserved_bytes weight_bytes draft_weight_bytes
      estimate_kv_bytes runtime_overhead_bytes required_bytes forallb] in *. split_bools.
    rewrite !andb_true_iff, !Z.leb_le. unfold RUNTIME_WORKSPACE_BYTES, GiB in *. repeat split; try done; lia.
  - subst e2. cbn [required_bytes]. split; [lia|]. unfold is_blocked. cbn [estimate_decision].
    pose proof (fun kv => overflow_exceeds m d total kv Ht Hm Hd) as Hover.
    match goal with |- context [fst (decide_estimate ?s1 ?q1 _ _ _ ?rs1)] =>
      pose proof (decide_estimate_spec s1 q1 total available r rs1 (Hover kv1)) as S1;
      destruct (fst (decide_estimate s1 q1 total available r rs1)); try done end.
    match goal with |- context [fst (decide_estimate ?s1 ?q1 _ _ _ ?rs1)] =>
      pose proof (decide_estimate_spec s1 q1 total available r rs1 (Hover kv2)) as S2;
      destruct (fst (decide_estimate s1 q1 total available r rs1)); try done end.
    all: lia.
Qed.

(** An estimate, back to its inputs *)
Lemma estimate_Ok self vm config vc vn vmem vd vb e : estimate self vm config vc vn vmem vd vb = Ok e ->
  exists m d c n total available kv rs, vm = PInt m /\ vd = PInt d /\ vc = PInt c /\ vn = PInt n /\
    0 <= m <= MAX_SIZE_BYTES /\ 0 <= d <= MAX_SIZE_BYTES /\ 1 <= c <= MAX_CONTEXT_LENGTH /\
    0 <= available <= total /\ total <= MAX_SIZE_BYTES /\ 0 <= kv_amount (fst kv) /\
    cache_of vb config c n = Ok kv /\ finish_estimate self m d total available (fst kv) rs = Ok e.
Proof.
  unfold estimate. intros (m & [-> Hm]%size_bytes_Ok & H)%bind_Ok. apply bind_Ok in H as (d & [-> Hd]%size_bytes_Ok & H).
  apply bind_Ok in H as (c & [-> Hc]%bounded_arg_Ok & H). apply bind_Ok in H as (n & [-> Hn]%bounded_arg_Ok & H).
  apply bind_Ok in H as (memory & _ & H). apply bind_Ok in H as (total & [_ Ht]%size_bytes_Ok & H).
  apply bind_Ok in H as (available & [_ Ha]%size_bytes_Ok & H). apply bind_Ok in H as (kv & Hkv & H).
  destruct (cache_of_mono vb config n c c kv ltac:(lia) ltac:(lia) Hkv) as (kv' & E & _ & Hpos).
  rewrite Hkv in E. injection E as <-.
  exists m, d, c, n, total, (if total <? available then total else available), kv.
  eexists. repeat (split; [done|]). split; [destruct (Z.ltb_spec total available); lia|].
  split; [lia|]. split; [lia|]. split; [done|]. exact H.
Qed.

(** C29.  An estimate never admits too much: the weights count with at least
    15% overhead, the requirement is the sum of its parts, "ok" leaves the
    whole reserve of available memory untouched, "warning" fits the machine
    but not what is available now, and "blocked" exceeds the machine. *)
Theorem estimate_sound self vm config vc vn vmem vd vb e : estimate self vm config vc vn vmem vd vb = Ok e ->
  (exists m d, vm = PInt m /\ vd = PInt d /\ 115 * m <= 100 * weight_bytes e /\ 115 * d <= 100 * draft_weight_bytes e) /\
  required_bytes e = weight_bytes e + draft_weight_bytes e + estimate_kv_bytes e + RUNTIME_WORKSPACE_BYTES /\
  reserve_min_bytes self <= reserved_bytes e /\ available_bytes e <= total_bytes e /\
  match estimate_decision e with
  | d_ok => required_bytes e + reserved_bytes e <= available_bytes e
  | d_warning => required_bytes e <= total_bytes e /\ available_bytes e < required_bytes e + reserved_bytes e
  | d_blocked => total_bytes e < required_bytes e
  end.
Proof.
  intros (m & d & c & n & total & available & kv & rs & -> & -> & _ & _ & Hm & Hd & _ & Ha & Ht & Hkv & _ & H)%estimate_Ok.
  apply finish_estimate_Ok in H as (r & Hr%reserve_at_least & _ & ->). cbn zeta.
  pose proof (with_overhead_bounds m) as Bm. pose proof (with_overhead_bounds d) as Bd.
  cbn [weight_bytes draft_weight_bytes required_bytes estimate_kv_bytes reserved_bytes available_bytes total_bytes estimate_decision].
  split; [exists m, d; repeat split; lia|]. split; [done|]. split; [done|]. split; [lia|].
  match goal with |- context [fst (decide_estimate ?s1 ?q1 _ _ _ ?rs1)] =>
    pose proof (decide_estimate_spec s1 q1 total available r rs1 (overflow_exceeds m d total (fst kv) Ht (proj1 Hm) (proj1 Hd))) as S1;
    destruct (fst (decide_estimate s1 q1 total available r rs1)) end; unfold RUNTIME_WORKSPACE_BYTES, GiB in *; lia.
Qed.

(** ** No validation error *)

Definition passes {A} (ok : A -> Prop) (x : result A) : Prop :=
  match x with Ok a => ok a | Raise ex => ex <> validation_error end.

Lemma passes_bind {A B} (P : A -> Prop) (Q : B -> Prop) (x : result A) (f : A -> result B) :
  passes P x -> (forall a, P a -> passes Q (f a)) -> passes Q (x ≫= f).
Proof. destruct x; cbn; auto. Qed.

Lemma bounded_int_passes v name lo hi : hd_error name <> Some 118 -> name <> [] ->
  passes (fun n => lo <= n <= hi) (bounded_int v name lo hi).
Proof.
  intros Hh Hn. destruct (bounded_int v name lo hi) as [n|ex] eqn:E; [apply bounded_arg_Ok in E as [_ E]; exact E|cbn].
  destruct name as [|c name]; [done|]. unfold bounded_int in E.
  intros ->. apply bind_Raise in E as [E|(k & _ & E)].
  - destruct (as_int v); [done|]. injection E as -> _. by apply Hh.
  - destruct (_ && _); [done|]. injection E as -> _. by apply Hh.
Qed.

Lemma reserve_bytes_passes total f m : passes (fun r => m <= r) (reserve_bytes total f m).
Proof.
  destruct (reserve_bytes total f m) as [r|ex] eqn:E; cbn; [by eapply reserve_at_least|].
  unfold reserve_bytes in E. apply bind_Raise in E as [E|(x & _ & E)].
  { unfold float_of_int in E. destruct (isfinite _); [done|]. by injection E as <-. }
  apply bind_Raise in E as [E|(y & _ & E)]; [|done].
  unfold int_of_float in E. destruct (float_fraction _) as [[k l]|]; [done|].
  destruct (float_mul x f); by injection E as <-.
Qed.

Lemma finish_estimate_passes self m d total available kv rs :
  0 <= reserve_min_bytes self -> 0 <= m -> 0 <= d -> 0 <= available <= total -> 0 <= kv_amount kv ->
  passes (fun e => estimate_fields_ok e = true) (finish_estimate self m d total available kv rs).
Proof.
  intros Hs Hm Hd Ha Hkv. unfold finish_estimate. cbn zeta. destruct (kv_reason _) as [conf krs].
  eapply passes_bind; [apply reserve_bytes_passes|]. cbn beta. intros r Hr.
  destruct (decide_estimate _ _ _ _ _ _) as [dec rs']. unfold new_estimate.
  destruct (estimate_fields_ok _) eqn:E; [done|]. exfalso. apply not_true_iff_false in E. apply E.
  pose proof (with_overhead_bounds m). pose proof (with_overhead_bounds d).
  unfold estimate_fields_ok. cbn [total_bytes available_bytes reserved_bytes weight_bytes draft_weight_bytes
    estimate_kv_bytes runtime_overhead_bytes required_bytes forallb].
  rewrite !andb_true_iff, !Z.leb_le. unfold RUNTIME_WORKSPACE_BYTES, GiB. repeat split; lia.
Qed.

Lemma new_estimator_minimum fraction minimum self : new_estimator fraction minimum = Ok self -> GiB <= reserve_min_bytes self.
Proof.
  unfold new_estimator. intros (f & _ & H)%bind_Ok. apply bind_Ok in H as (u & _ & H).
  apply bind_Ok in H as (k & _ & H). apply bind_Ok in H as ([] & Hb%guard_exn_Ok & [= <-]). split_bools. cbn. lia.
Qed.

(** The values of an estimate always satisfy the constraints declared for
    its fields, whatever the arguments: for an estimator that its constructor
    accepts, [estimate] either raises for an argument or gives an estimate
    whose eight byte counts are non-negative, and never fails validation. *)
Theorem estimate_well_typed fraction minimum self vm config vc vn vmem vd vb : new_estimator fraction minimum = Ok self ->
  match estimate self vm config vc vn vmem vd vb with
  | Ok e => estimate_fields_ok e = true
  | Raise ex => ex <> validation_error
  end.
Proof.
  intros Hself%new_estimator_minimum. change GiB with 1073741824 in Hself.
  change (passes (fun e => estimate_fields_ok e = true) (estimate self vm config vc vn vmem vd vb)). unfold estimate, size_bytes.
  eapply passes_bind; [by apply bounded_int_passes|]. intros m Hm.
  eapply passes_bind; [by apply bounded_int_passes|]. intros d Hd.
  eapply passes_bind; [by apply bounded_int_passes|]. intros c Hc.
  eapply passes_bind; [by apply bounded_int_passes|]. intros n Hn.
  eapply (passes_bind (fun _ => True)); [by destruct vmem|]. intros memory _.
  eapply passes_bind; [by apply bounded_int_passes|]. intros total Ht.
  eapply passes_bind; [by apply bounded_int_passes|]. intros available Ha.
  eapply (passes_bind (fun kv => 0 <= kv_amount (fst kv))).
  { destruct (cache_of vb config c n) as [kv|ex] eqn:E; cbn.
    - destruct (cache_of_mono vb config n c c kv (conj (proj1 Hc) (Z.le_refl c)) (proj2 Hc) E) as (kv' & E' & _ & Hk).
      rewrite E in E'. injection E' as <-. apply Hk.
    - intros ->. unfold cache_of in E. pose proof (bounded_int_passes vb (str "kv_cache_budget_bytes") 1 MAX_KV_CACHE_BYTES) as Hb.
      destruct (bounded_int vb _ _ _) as [k|ex]; destruct vb; try done; injection E as ->; by apply Hb. }
  intros kv Hkv. cbn beta in *. apply finish_estimate_passes; try lia.
  destruct (Z.ltb_spec total available); lia.
Qed.

(** ** Context and requirement *)

(** One step of two runs that bind the same value *)
Ltac step_ok H x E := apply bind_Ok in H as (x & E & H); rewrite E; cbn [mbind result_bind].

Lemma estimate_context_mono self vm config c1 c2 vn vmem vd vb e2 : 1 <= c1 <= c2 ->
  estimate self vm config (PInt c2) vn vmem vd vb = Ok e2 ->
  exists e1, estimate self vm config (PInt c1) vn vmem vd vb = Ok e1 /\ required_bytes e1 <= required_bytes e2 /\
    (is_blocked e1 = true -> is_blocked e2 = true).
Proof.
  intros Hc H. unfold estimate in *. step_ok H m Em. step_ok H d Ed.
  apply bind_Ok in H as (c & [[= <-] Hc2]%bounded_arg_Ok & H).
  rewrite (proj2 (bounded_arg_Ok (PInt c1) _ 1 MAX_CONTEXT_LENGTH c1)) by (split; [done|lia]). cbn [mbind result_bind].
  step_ok H n En. step_ok H memory Ememory. step_ok H tot Et. step_ok H avail Ea.
  apply bind_Ok in H as (kv & Ek & H).
  destruct (cache_of_mono vb config n c1 c2 kv Hc ltac:(lia) Ek) as (kv1 & -> & Hs & Hk). cbn [mbind result_bind].
  rewrite Hs. apply size_bytes_Ok in Em as [_ Hm], Ed as [_ Hd], Et as [_ Ht].
  by eapply finish_estimate_mono; try done; lia.
Qed.

(** ** Clamping *)

Lemma next_context_steps k : 2 <= k -> next_context (1024 * k) = 1024 * (k / 2).
Proof.
  intros Hk. unfold next_context. replace (1024 * k / 2 / 1024) with (k / 2).
  - assert (1 <= k / 2) by (apply Z.div_le_lower_bound; lia). lia.
  - rewrite Z.div_div by lia. replace (1024 * k) with (k * 1024) by ring. by rewrite Z.div_mul_cancel_r.
Qed.

(** The search, for a factory that answers every context up to the first *)
Lemma clamp_loop_spec f fuel : forall k attempts reductions,
  1 <= k < 2 ^ Z.of_nat fuel -> (forall j, 1 <= j <= k -> exists e, f (1024 * j) = Ok e) ->
  exists attempts' j e n, clamp_loop f fuel attempts (1024 * k) reductions = Ok (attempts', 1024 * j, e, n) /\
    1 <= j <= k /\ f (1024 * j) = Ok e /\ (is_blocked e = true -> j = 1) /\
    (j = k \/ exists p e', j < p <= k /\ p < 2 * j + 2 /\ f (1024 * p) = Ok e' /\ is_blocked e' = true).
Proof.
  induction fuel as [|fuel IH]; intros k attempts reductions Hk Hf; [cbn in Hk; lia|].
  cbn [clamp_loop]. destruct (Hf k ltac:(lia)) as (e & He). rewrite He. cbn [mbind result_bind].
  destruct (negb (is_blocked e)) eqn:Hb; cbn [orb].
  { eexists _, k, e, _. split; [done|]. split; [lia|]. split; [done|]. split; [|by left]. intros Hb'. by rewrite Hb' in Hb. }
  destruct (Z.eqb_spec (1024 * k) 1024) as [H1|H1].
  { eexists _, k, e, _. split; [done|]. split; [lia|]. split; [done|]. split; [lia|by left]. }
  rewrite next_context_steps by lia.
  assert (Hlow : 1 <= k / 2) by (apply Z.div_le_lower_bound; lia).
  assert (Hhalf : 2 * (k / 2) <= k < 2 * (k / 2) + 2).
  { pose proof (Z.div_mod k 2 ltac:(lia)). pose proof (Z.mod_pos_bound k 2 ltac:(lia)). lia. }
  rewrite Nat2Z.inj_succ, Z.pow_succ_r in Hk by lia.
  destruct (IH (k / 2) (attempts ++ [1024 * k]) (reductions + 1) ltac:(lia) (fun j Hj => Hf j ltac:(lia)))
    as (a & j & e' & n & E & Hj & Hej & Hb1 & Hlast).
  exists a, j, e', n. split; [done|]. split; [lia|]. split; [done|]. split; [done|]. right.
  destruct Hlast as [->|(p & e'' & Hp)].
  - exists k, e. split; [lia|]. split; [lia|]. split; [done|]. by apply negb_false_iff.
  - exists p, e''. split; [lia|]. apply Hp.
Qed.

Lemma aligned_context_spec original limit : 1024 <= original -> 1024 <= limit ->
  let k := Z.min original limit / 1024 in
  aligned_context original limit = 1024 * k /\ 1 <= k /\ 1024 * k <= Z.min original limit < 1024 * k + 1024.
Proof.
  intros Ho Hl k. unfold aligned_context. fold k.
  assert (1 <= k) by (apply Z.div_le_lower_bound; lia).
  pose proof (Z.div_mod (Z.min original limit) 1024 ltac:(lia)). pose proof (Z.mod_pos_bound (Z.min original limit) 1024 ltac:(lia)).
  fold k in H0. lia.
Qed.

(** The search for a context length, with the estimates of a deployment,
    always ends with an answer after at most eleven estimates: a multiple of
    1024 within the request and the hard limit, reported with the decision of
    its own estimate; it is only reported as not fitting when no context
    length fits, and otherwise no length that fits is more than about twice
    as long (the steps halve the length). *)
Theorem clamp_context_fits self vm config vn vmem vd vb original limit e0 :
  1024 <= original <= MAX_CONTEXT_LENGTH -> 1024 <= limit <= MAX_CONTEXT_LENGTH ->
  estimate self vm config (PInt (aligned_context original limit)) vn vmem vd vb = Ok e0 ->
  exists r e, let factory c := estimate self vm config (PInt c) vn vmem vd vb in
    clamp_context_length factory 11 (PInt original) (PInt limit) = Ok r /\
    original_context_length r = original /\ 1024 <= final_context_length r <= Z.min original limit /\
    final_context_length r mod 1024 = 0 /\ factory (final_context_length r) = Ok e /\
    final_decision r = estimate_decision e /\ fits r = negb (is_blocked e) /\
    (forall c e', 1024 <= c <= Z.min original limit -> c mod 1024 = 0 -> factory c = Ok e' -> is_blocked e' = false ->
       fits r = true /\ c < 2 * final_context_length r + 2048).
Proof.
  intros Ho Hl H0. set (factory c := estimate self vm config (PInt c) vn vmem vd vb).
  destruct (aligned_context_spec original limit ltac:(lia) ltac:(lia)) as (Hal & Hk1 & Hk2).
  set (k := Z.min original limit / 1024) in *. rewrite Hal in H0.
  assert (Hmono : forall c1 c2 e2, 1 <= c1 <= c2 -> factory c2 = Ok e2 ->
    exists e1, factory c1 = Ok e1 /\ (is_blocked e1 = true -> is_blocked e2 = true)).
  { intros c1 c2 e2 Hc H. destruct (estimate_context_mono _ _ _ _ _ _ _ _ _ _ Hc H) as (e1 & E & _ & Hb). eauto. }
  assert (Hk3 : k <= 1024) by (unfold MAX_CONTEXT_LENGTH in *; lia).
  destruct (clamp_loop_spec factory 11 k [] 0) as (a & j & e & n & E & Hj & Hej & Hb1 & Hlast).
  { cbn. lia. } { intros i Hi. destruct (Hmono (1024 * i) (1024 * k) e0 ltac:(lia) H0) as (e1 & E & _). eauto. }
  eexists _, e. cbn zeta. split.
  { unfold clamp_context_length. rewrite (proj2 (bounded_arg_Ok _ _ _ _ _) (conj eq_refl Ho)), (proj2 (bounded_arg_Ok _ _ _ _ _) (conj eq_refl Hl)).
    cbn [mbind result_bind]. rewrite Hal, E. cbn [mbind result_bind]. unfold new_clamp, clamp_fields_ok.
    cbn [original_context_length final_context_length]. rewrite !(proj2 (Z.leb_le _ _)) by lia. reflexivity. }
  cbn [original_context_length final_context_length final_decision fits].
  split; [done|]. split; [lia|]. split; [by rewrite Z.mul_comm, Z.mod_mul|]. split; [done|]. split; [done|]. split; [done|].
  intros c e' Hc Hmod Hce Hfit. assert (Hc' : c = 1024 * (c / 1024)).
  { pose proof (Z.div_mod c 1024 ltac:(lia)). lia. }
  split.
  - destruct (is_blocked e) eqn:Hbe; [|done]. specialize (Hb1 eq_refl). subst j.
    destruct (Hmono (1024 * 1) c e' ltac:(lia) Hce) as (e1 & E1 & Hb). rewrite Hej in E1. injection E1 as <-.
    rewrite Hb in Hfit; done.
  - destruct Hlast as [->|(p & ep & Hp & Hp2 & Hep & Hbp)]; [lia|].
    destruct (Z.le_gt_cases (1024 * p) c) as [Hle|]; [|lia].
    destruct (Hmono (1024 * p) c e' ltac:(lia) Hce) as (e1 & E1 & Hb). rewrite Hep in E1. injection E1 as <-.
    rewrite Hb in Hfit; done.
Qed.

(** ** Concrete estimates *)

Definition demo_estimator : ResourceEstimator := mkEstimator (parse_float (str "0.1")) (8 * GiB).

Definition demo_config : pyval :=
  PDict [(str "hidden_size", PInt 8192); (str "num_hidden_layers", PInt 80); (str "num_attention_heads", PInt 64)].

Definition demo_memory : pyval :=
  PDict [(str "total_bytes", PInt (128 * GiB)); (str "available_bytes", PInt (100 * GiB))].

Definition demo_estimate (c : Z) : result ResourceEstimate :=
  estimate demo_estimator (PInt (30 * GiB)) demo_config (PInt c) (PInt 1) demo_memory (PInt 0) PNone.

(** The search skips lengths that fit: 61440 tokens are blocked and the next
    attempt is half of them, although 35840 tokens fit. *)
Lemma clamp_skips_fitting :
  (final_context_length <$> clamp_context_length demo_estimate 11 (PInt 61440) (PInt 1048576)) = Ok 30720 /\
  (is_blocked <$> demo_estimate 35840) = Ok false.
Proof. by vm_compute. Qed.

Lemma checked_product_exact_witness : Forall (fun v => 0 < v) [2; 80; 64] /\
  checked_product [2; 80; 64] 10240 = Some 10240.
Proof.
  assert (H : Forall (fun v => 0 < v) [2; 80; 64]) by (repeat constructor).
  split; [exact H|]. apply (checked_product_exact [2; 80; 64] 10240 H). reflexivity.
Defined.

Lemma estimate_sound_witness : exists e, demo_estimate 8192 = Ok e /\ estimate_decision e = d_ok /\
  required_bytes e = weight_bytes e + draft_weight_bytes e + estimate_kv_bytes e + RUNTIME_WORKSPACE_BYTES.
Proof.
  eexists. split; [vm_compute; reflexivity|]. split; [reflexivity|].
  refine (proj1 (proj2 (estimate_sound demo_estimator (PInt (30 * GiB)) demo_config (PInt 8192) (PInt 1) demo_memory
    (PInt 0) PNone _ _))). vm_compute. reflexivity.
Defined.

Lemma estimate_well_typed_witness :
  new_estimator (PFloat (parse_float (str "0.1"))) (PInt (8 * GiB)) = Ok demo_estimator /\
  match demo_estimate 8192 with Ok e => estimate_fields_ok e = true | Raise ex => ex <> validation_error end.
Proof.
  assert (H : new_estimator (PFloat (parse_float (str "0.1"))) (PInt (8 * GiB)) = Ok demo_estimator) by (vm_compute; reflexivity).
  split; [exact H|].
  exact (estimate_well_typed _ _ demo_estimator (PInt (30 * GiB)) demo_config (PInt 8192) (PInt 1) demo_memory (PInt 0) PNone H).
Defined.

Lemma clamp_context_fits_witness : (1024 <= 61440 <= MAX_CONTEXT_LENGTH) /\
  exists r, clamp_context_length demo_estimate 11 (PInt 61440) (PInt 1048576) = Ok r /\ fits r = true.
Proof.
  split; [unfold MAX_CONTEXT_LENGTH; lia|].
  edestruct (clamp_context_fits demo_estimator (PInt (30 * GiB)) demo_config (PInt 1) demo_memory (PInt 0) PNone 61440 1048576)
    as (r & e & E & _ & _ & _ & _ & _ & _ & H).
  - unfold MAX_CONTEXT_LENGTH; lia.
  - unfold MAX_CONTEXT_LENGTH; lia.
  - vm_compute. reflexivity.
  - exists r. split; [exact E|]. destruct (demo_estimate 1024) as [e1|] eqn:E1; [|vm_compute in E1; discriminate E1].
    apply (H 1024 e1); [lia|reflexivity|exact E1|]. vm_compute in E1. injection E1 as <-. reflexivity.
Defined.
