(* ===== verification/SocketHost.v ===== *)
(** * The host agent's socket and key file

    The rest of [host_agent/dgx_ops_agent/server.py]: which directories a
    socket may live in, how a stale socket is replaced, how many connections
    are served at once, and the key file.  File-system and socket calls are an
    environment ([SocketSystem]); paths are absolute or relative lists of
    components, as [pathlib] keeps them. *)
From Stdlib Require Import ZArith Lia Bool String.
From Stdlib Require Import SpecFloat.
From stdpp Require Import prelude.
From S2P Require Import Prelude PyValue PyFloat Traced.
Open Scope Z_scope.

(** ** File metadata *)
Record stat_result := mkStat { st_mode : Z; st_uid : Z; st_gid : Z; st_dev : Z; st_ino : Z; st_size : Z }.

Definition S_IFMT (mode : Z) : Z := Z.land mode 61440.
Definition S_ISDIR (mode : Z) : bool := S_IFMT mode =? 16384.
Definition S_ISREG (mode : Z) : bool := S_IFMT mode =? 32768.
Definition S_ISSOCK (mode : Z) : bool := S_IFMT mode =? 49152.
Definition S_IMODE (mode : Z) : Z := Z.land mode 4095.
Definition S_ISUID : Z := 2048.
Definition S_ISGID : Z := 1024.
Definition S_ISVTX : Z := 512.
Definition S_IRUSR : Z := 256.
Definition S_IWUSR : Z := 128.
Definition S_IRGRP : Z := 32.
Definition S_IWGRP : Z := 16.
Definition S_IWOTH : Z := 2.

(** [bool(mode & bits)] *)
Definition has_any (mode bits : Z) : bool := negb (Z.land mode bits =? 0).

Definition shared_write : Z := Z.lor S_IWGRP S_IWOTH.

Definition identity := (Z * Z)%type.
Definition identity_of (m : stat_result) : identity := (st_dev m, st_ino m).
Definition identity_eqb (a b : identity) : bool := (fst a =? fst b) && (snd a =? snd b).

(** [_parent_metadata_is_secure] *)
Definition parent_metadata_is_secure (metadata : stat_result) (expected_uid : Z) : bool :=
  S_ISDIR (st_mode metadata) && (st_uid metadata =? expected_uid) && negb (has_any (st_mode metadata) shared_write).

(** The loop over [chain[:-1]]: every directory with the one below it *)
Fixpoint shared_directories_ok (trusted : Z -> bool) (chain : list stat_result) : bool :=
  match chain with
  | metadata :: ((next :: _) as rest) =>
      (if negb (has_any (st_mode metadata) shared_write) then true
       else has_any (st_mode metadata) S_ISVTX && trusted (st_uid next))
      && shared_directories_ok trusted rest
  | _ => true
  end.

(** [_path_chain_metadata_is_secure] *)
Definition path_chain_metadata_is_secure (chain : list stat_result) (expected_uid : Z) : bool :=
  match last chain with
  | None => false
  | Some direct_parent =>
      let trusted uid := (uid =? 0) || (uid =? expected_uid) in
      forallb (fun m => S_ISDIR (st_mode m) && trusted (st_uid m)) chain
      && ((st_uid direct_parent =? expected_uid) && negb (has_any (st_mode direct_parent) shared_write))
      && shared_directories_ok trusted chain
  end.

(** ** Paths, as [pathlib] keeps them *)
Record pypath := mkPath { is_absolute : bool; components : list pystr }.

(** [path.parent]: a path with no components is its own parent *)
Definition parent (p : pypath) : pypath := mkPath (is_absolute p) (removelast (components p)).

(** [path / name] *)
Definition slash (p : pypath) (name : pystr) : pypath := mkPath (is_absolute p) (components p ++ [name]).

(** ** The system calls *)
Inductive socket_event :=
  | LLstat (path : pypath) (metadata : option stat_result)
  | LMkdir (path : pypath) (mode : Z)
  | LChmod (path : pypath) (mode : Z)
  | LUnlink (path : pypath)
  | LProbe (path : pypath) (errno : option Z)
  | LBind (path : pypath)
  | LListen (backlog : Z)
  | LClose.

(** [lstat] and [unlink] answer [FileNotFoundError] apart from other errors:
    [Ok None] and [Ok false]; a probe answers the error number of [connect],
    or nothing when the connection was accepted *)
Class SocketSystem (E : Type) := {
  sk_lstat : pypath -> E -> result (option stat_result) * E;
  sk_lexists : pypath -> E -> bool * E;
  sk_mkdir : pypath -> Z -> E -> result unit * E;
  sk_chmod : pypath -> Z -> E -> result bool * E;
  sk_unlink : pypath -> E -> result bool * E;
  sk_probe : pypath -> E -> result (option Z) * E;
  sk_socket : E -> result unit * E;
  sk_bind : pypath -> E -> result unit * E;
  sk_listen : Z -> E -> result unit * E;
}.

Definition ECONNREFUSED : Z := 111.
Definition ENOENT : Z := 2.

Definition value_error (s : string) : exn := ValueError (str s).

Section Binding.
Context {E : Type} `{SocketSystem E}.
(** [_IS_POSIX] and [_effective_uid()] *)
Variable posix : bool.
Variable euid : Z.

Notation prog A := (tprogram unit socket_event E A).
Definition nothing : prog unit := mret tt.

Definition lstat (p : pypath) : prog (option stat_result) :=
  m ← ask_result (sk_lstat p);
  log (LLstat p m);;
  mret m.

Definition not_found : exn := OSError (str "No such file or directory").

(** [path.lstat()] where nothing catches its [FileNotFoundError] alone *)
Definition lstat_or_raise (p : pypath) : prog stat_result :=
  m ← lstat p;
  lift (of_option m not_found).

Definition unlink (p : pypath) : prog bool := log (LUnlink p);; ask_result (sk_unlink p).
Definition chmod (p : pypath) (mode : Z) : prog bool := log (LChmod p mode);; ask_result (sk_chmod p mode).

(** A [chmod] whose [FileNotFoundError] is an [OSError] like any other *)
Definition chmod_or_raise (p : pypath) (mode : Z) : prog unit :=
  found ← chmod p mode;
  lift (guard_exn found not_found).

(** [_socket_matches] *)
Definition socket_matches (p : pypath) (i : identity) : prog bool :=
  m ← lstat p;
  mret (match m with
        | None => false
        | Some m => S_ISSOCK (st_mode m) && identity_eqb (identity_of m) i
        end).

Definition invalid_parent : exn := value_error "invalid socket parent".
Definition invalid_chain : exn := value_error "invalid socket path chain".

(** The end of [_validate_socket_parent]: the metadata of an existing parent *)
Definition check_parent (p : pypath) : prog unit :=
  metadata ← lstat_or_raise p;
  lift (guard_exn (parent_metadata_is_secure metadata (if posix then euid else st_uid metadata)) invalid_parent).

(** [except (OSError, RuntimeError)] *)
Definition parent_failure (e : exn) : bool :=
  is_OSError e || match e with RuntimeError _ | RecursionError => true | _ => false end.

(** [_validate_socket_parent] with [create=False] *)
Definition validate_existing_parent (p : pypath) : prog unit :=
  catch (exists_ ← ask (sk_lexists p);
         _ ← lift (guard_exn exists_ invalid_parent);
         check_parent p)
    parent_failure (fun _ => raise invalid_parent).

(** The walk of [_validate_socket_path_chain]: [current] and the metadata so
    far, and the components that follow *)
Fixpoint walk_chain (current : pypath) (rest : list pystr) (chain : list stat_result) : prog (list stat_result) :=
  metadata ← lstat_or_raise current;
  _ ← lift (guard_exn (S_ISDIR (st_mode metadata)) invalid_chain);
  let chain := chain ++ [metadata] in
  match rest with
  | [] => mret chain
  | component :: rest => walk_chain (slash current component) rest chain
  end.

(** [_validate_socket_path_chain] *)
Definition validate_socket_path_chain (path : pypath) : prog identity :=
  _ ← lift (guard_exn (is_absolute path) invalid_chain);
  let parent := parent path in
  if negb posix then
    validate_existing_parent parent;;
    metadata ← lstat_or_raise parent;
    mret (identity_of metadata)
  else
    chain ← catch (walk_chain (mkPath true []) (components parent) []) is_OSError (fun _ => raise invalid_chain);
    _ ← lift (guard_exn (path_chain_metadata_is_secure chain euid) invalid_chain);
    direct_parent ← lift (of_option (last chain) invalid_chain);
    mret (identity_of direct_parent).

(** [_path_chain_matches] *)
Definition path_chain_matches (path : pypath) (i : identity) : prog bool :=
  catch (found ← validate_socket_path_chain path; mret (identity_eqb found i))
    is_ValueError (fun _ => mret false).

(** [_unlink_if_same_socket], with a parent identity *)
Definition unlink_if_same_socket (path : pypath) (i parent_identity : identity) : prog bool :=
  chain ← path_chain_matches path parent_identity;
  if negb chain then mret false
  else
    same ← socket_matches path i;
    if negb same then mret false else unlink path.

(** [_chmod_if_same_socket], with a parent identity *)
Definition chmod_if_same_socket (path : pypath) (i : identity) (mode : Z) (parent_identity : identity) : prog bool :=
  chain ← path_chain_matches path parent_identity;
  if negb chain then mret false
  else
    same ← socket_matches path i;
    if negb same then mret false
    else
      found ← chmod path mode;
      if negb found then mret false else socket_matches path i.

Definition PARENT_CHECK : pystr := str ".dgx-ops-parent-check".

(** Making the parent directory *)
Definition create_parent (p : pypath) : prog unit :=
  let ancestor := parent p in
  exists_ ← ask (sk_lexists ancestor);
  _ ← lift (guard_exn exists_ invalid_chain);
  (if posix then _ ← validate_socket_path_chain (slash ancestor PARENT_CHECK); nothing
   else validate_existing_parent ancestor);;
  log (LMkdir p 448);;
  ask_result (sk_mkdir p 448);;
  before ← lstat_or_raise p;
  _ ← lift (guard_exn (S_ISDIR (st_mode before)) invalid_parent);
  if posix then
    chmod_or_raise p 448;;
    after ← lstat_or_raise p;
    lift (guard_exn (identity_eqb (identity_of before) (identity_of after)) invalid_parent)
  else nothing.

(** [_validate_socket_parent] with [create=True] *)
Definition validate_socket_parent (p : pypath) : prog unit :=
  catch (exists_ ← ask (sk_lexists p);
         (if (exists_ : bool) then nothing else create_parent p);;
         check_parent p)
    parent_failure (fun _ => raise invalid_parent).

(** Replacing a stale socket *)
Definition remove_stale (path : pypath) (parent_identity : identity) : prog unit :=
  metadata ← lstat_or_raise path;
  _ ← lift (guard_exn (S_ISSOCK (st_mode metadata)) (value_error "socket_path exists and is not a socket"));
  _ ← lift (guard_exn (negb (posix && negb (st_uid metadata =? euid))) (value_error "socket_path is not owned by this user"));
  errno ← ask_result (sk_probe path);
  log (LProbe path errno);;
  _ ← lift (match errno with
            | None => Raise (value_error "socket_path is an active socket")
            | Some n => guard_exn ((n =? ECONNREFUSED) || (n =? ENOENT)) (value_error "cannot verify existing socket_path")
            end);
  removed ← unlink_if_same_socket path (identity_of metadata) parent_identity;
  lift (guard_exn removed (value_error "socket_path changed while being verified")).

(** The listener's [bind], up to the identity of the bound socket *)
Definition bind_listener (path : pypath) : prog identity :=
  log (LBind path);;
  ask_result (sk_bind path);;
  metadata ← lstat_or_raise path;
  _ ← lift (guard_exn (S_ISSOCK (st_mode metadata)) (value_error "bound socket_path is invalid"));
  mret (identity_of metadata).

(** The rest of the [try] block *)
Definition publish (path : pypath) (bound_identity parent_identity : identity) : prog unit :=
  changed ← (if posix then done ← chmod_if_same_socket path bound_identity 432 parent_identity; mret (negb done)
             else (mret false : prog bool));
  _ ← lift (guard_exn (negb changed) (value_error "socket_path changed while binding"));
  log (LListen 16);;
  ask_result (sk_listen 16);;
  same ← socket_matches path bound_identity;
  lift (guard_exn same (value_error "socket_path changed while binding")).

Definition any_exception (e : exn) : bool := true.

(** [_bind] *)
Definition bind (path : pypath) : prog (identity * identity) :=
  _ ← lift (guard_exn (is_absolute path) (value_error "socket_path must be absolute"));
  validate_socket_parent (parent path);;
  parent_identity ← validate_socket_path_chain path;
  exists_ ← ask (sk_lexists path);
  (if (exists_ : bool) then remove_stale path parent_identity else nothing);;
  ask_result sk_socket;;
  bound_identity ← catch (bind_listener path) any_exception (fun e => log LClose;; raise e);
  catch (publish path bound_identity parent_identity) any_exception
    (fun e => log LClose;; unlink_if_same_socket path bound_identity parent_identity;; raise e);;
  mret (parent_identity, bound_identity).

(** [close], the first time *)
Definition close (path : option pypath) (ids : option (identity * identity)) : prog unit :=
  log LClose;;
  match path, ids with
  | Some path, Some (parent_identity, socket_identity) =>
      _ ← unlink_if_same_socket path socket_identity parent_identity; nothing
  | _, _ => nothing
  end.
End Binding.

(** ** Serving with a bounded number of slots *)

(** Where the accepting thread is: before taking a slot, holding one while it
    accepts, or after the loop *)
Inductive phase := waiting | accepting | ended.

Record server := mkServer {
  sv_phase : phase;
  sv_stop : bool;            (** [stop.is_set() or self._closed.is_set()] *)
  sv_free : Z;               (** the slots left in the semaphore *)
  sv_queued : list Z;        (** connections submitted and not yet picked up *)
  sv_serving : list Z;       (** connections a worker serves *)
}.

(** What may happen next: each is one step of the accepting thread, of a
    worker or of the thread that stops the server *)
Inductive serve_action :=
  | StopSet
  | LeaveLoop
  | SlotTimeout
  | SlotTaken
  | Accepted (connection : Z)
  | AcceptTimeout
  | AcceptError
  | WorkerStarts
  | WorkerDone (connection : Z)
  | CancelQueued.

Definition new_server (max_connections : Z) : server := mkServer waiting false max_connections [] [].

Fixpoint remove_first (c : Z) (l : list Z) : option (list Z) :=
  match l with
  | [] => None
  | x :: r => if x =? c then Some r else cons x <$> remove_first c r
  end.

(** [slots.release()] of a [BoundedSemaphore] *)
Definition release (max_connections : Z) (s : server) : result server :=
  if sv_free s <? max_connections
  then Ok (mkServer (sv_phase s) (sv_stop s) (sv_free s + 1) (sv_queued s) (sv_serving s))
  else Raise (value_error "Semaphore released too many times").

Definition in_phase (p : phase) (s : server) : server :=
  mkServer p (sv_stop s) (sv_free s) (sv_queued s) (sv_serving s).

(** One step of [serve_forever] and [_serve_one]: [None] when it cannot
    happen now, and an exception when a release fails *)
Definition serve_step (max_connections : Z) (a : serve_action) (s : server) : option (result server) :=
  match a, sv_phase s with
  | StopSet, _ => Some (Ok (mkServer (sv_phase s) true (sv_free s) (sv_queued s) (sv_serving s)))
  | LeaveLoop, waiting => if sv_stop s then Some (Ok (in_phase ended s)) else None
  | SlotTimeout, waiting => if sv_stop s then None else Some (Ok s)
  | SlotTaken, waiting =>
      if sv_stop s then None
      else if sv_free s <=? 0 then None
      else Some (Ok (mkServer accepting (sv_stop s) (sv_free s - 1) (sv_queued s) (sv_serving s)))
  | Accepted c, accepting =>
      Some (Ok (mkServer waiting (sv_stop s) (sv_free s) (sv_queued s ++ [c]) (sv_serving s)))
  | AcceptTimeout, accepting => Some (in_phase waiting <$> release max_connections s)
  | AcceptError, accepting => Some (in_phase ended <$> release max_connections s)
  | WorkerStarts, _ =>
      match sv_queued s with
      | c :: rest =>
          if zlen (sv_serving s) <? max_connections
          then Some (Ok (mkServer (sv_phase s) (sv_stop s) (sv_free s) rest (sv_serving s ++ [c])))
          else None
      | [] => None
      end
  | WorkerDone c, _ =>
      match remove_first c (sv_serving s) with
      | Some rest => Some (release max_connections (mkServer (sv_phase s) (sv_stop s) (sv_free s) (sv_queued s) rest))
      | None => None
      end
  | CancelQueued, ended => Some (Ok (mkServer ended (sv_stop s) (sv_free s) [] (sv_serving s)))
  | _, _ => None
  end.

(** A history of the server: [None] for one that cannot happen *)
Fixpoint serve_run (max_connections : Z) (actions : list serve_action) (s : server) : option (result server) :=
  match actions with
  | [] => Some (Ok s)
  | a :: rest =>
      match serve_step max_connections a s with
      | Some (Ok s') => serve_run max_connections rest s'
      | other => other
      end
  end.

(** ** The constructor's checks *)

(** What is asked of an existing listener *)
Record listener := mkListener { ls_is_socket : bool; ls_family : Z; ls_type : Z; ls_accepts : result Z }.

Definition SOCK_STREAM : Z := 1.

(** [valid_listener]; [unix_family] is [socket.AF_UNIX] where it exists *)
Definition valid_listener (unix_family : option Z) (l : listener) : result bool :=
  except (match unix_family with
          | Some f =>
              if ls_is_socket l && (ls_family l =? f) && (Z.land (ls_type l) SOCK_STREAM =? SOCK_STREAM)
              then n ← ls_accepts l; Ok (n =? 1)
              else Ok false
          | None => Ok false
          end)
    (fun e => if is_OSError e then Some (Ok false) else None).

Definition MIN_READ_TIMEOUT : num := NFloat (parse_float (str "0.01")).
Definition num_leb (a b : num) : bool :=
  match a, b with
  | NFloat S754_nan, _ | _, NFloat S754_nan => false
  | NFloat x, NFloat y => SFleb x y
  | _, _ => negb (num_ltb b a)
  end.

(** [UnixSocketAgentServer.__init__], up to the listener: the number of
    connections and the timeout *)
Definition server_options (has_path : bool) (given : option listener) (unix_family : option Z)
    (max_connections read_timeout : pyval) : result (Z * num) :=
  _ ← guard_exn (negb (Bool.eqb (negb has_path) (match given with None => true | Some _ => false end)))
        (value_error "provide exactly one listener source");
  n ← of_option (as_int max_connections) (value_error "invalid max_connections");
  _ ← guard_exn ((1 <=? n) && (n <=? 64)) (value_error "invalid max_connections");
  t ← of_option (match read_timeout with PBool _ => None | _ => as_num read_timeout end) (value_error "invalid read_timeout");
  _ ← guard_exn (num_leb MIN_READ_TIMEOUT t && num_leb t (NInt 30)) (value_error "invalid read_timeout");
  valid ← match given with Some l => valid_listener unix_family l | None => Ok true end;
  _ ← guard_exn valid (value_error "invalid listener");
  Ok (n, t).

Definition invalid_activation : exn := value_error "invalid systemd socket activation".

(** [from_systemd]: its own checks, and then the constructor's *)
Definition from_systemd (environment : list (pystr * pystr)) (pid : Z) (descriptor : pyval)
    (adopt : Z -> result listener) (unix_family : Z) (max_connections read_timeout : pyval) : result (Z * num) :=
  let has key value := match dict_get key environment with Some v => str_eqb v value | None => false end in
  _ ← guard_exn (has (str "LISTEN_PID") (dec pid) && has (str "LISTEN_FDS") (str "1")) invalid_activation;
  fd ← of_option (as_int descriptor) invalid_activation;
  _ ← guard_exn (0 <=? fd) invalid_activation;
  l ← except (adopt fd) (fun e => if is_OSError e then Some (Raise invalid_activation) else None);
  _ ← guard_exn ((ls_family l =? unix_family) && negb (Z.land (ls_type l) SOCK_STREAM =? 0)) invalid_activation;
  server_options false (Some l) (Some unix_family) max_connections read_timeout.

(** ** Who can replace a component of the path

    A user may change the entries of a directory that they own or that is
    writable for group or others; in a sticky directory only the owner of the
    entry and the owner of the directory may rename or remove it. *)
Definition may_write (user : Z) (dir : stat_result) : Prop :=
  user = st_uid dir \/ has_any (st_mode dir) shared_write = true.
Definition may_replace (user : Z) (dir : stat_result) (entry_owner : Z) : Prop :=
  may_write user dir /\ (has_any (st_mode dir) S_ISVTX = true -> user = entry_owner \/ user = st_uid dir).

Definition untrusted (expected_uid user : Z) : Prop := user <> 0 /\ user <> expected_uid.

Lemma trusted_spec uid user : (user =? 0) || (user =? uid) = true <-> ~ untrusted uid user.
Proof. unfold untrusted. rewrite orb_true_iff, !Z.eqb_eq. lia. Qed.

(** Neighbours of a chain *)
Definition above (chain : list stat_result) (m n : stat_result) : Prop := exists a b, chain = a ++ m :: n :: b.

Lemma above_cons x y l m n : above (x :: y :: l) m n <-> (m = x /\ n = y) \/ above (y :: l) m n.
Proof.
  split.
  - intros ([|a0 a] & b & E); cbn in E; simplify_eq; [by left|]. right. by exists a, b.
  - intros [[-> ->]|(a & b & E)]; [by exists [], l|]. exists (x :: a), b. by rewrite E.
Qed.

Lemma above_single x m n : ~ above [x] m n.
Proof. intros ([|? [|? ?]] & b & E); done. Qed.

Lemma shared_directories_spec (uid : Z) chain :
  let trusted user := (user =? 0) || (user =? uid) in
  Forall (fun m => trusted (st_uid m) = true) chain ->
  shared_directories_ok trusted chain = true <->
  (forall user m n, untrusted uid user -> above chain m n -> ~ may_replace user m (st_uid n)).
Proof.
  intros trusted. induction chain as [|x chain IH]; intros Hown.
  { split; [|done]. intros _ user m n _ ([|? ?] & b & E); done. }
  apply Forall_cons in Hown as [Hx Hown]. destruct chain as [|y chain].
  { split; [|done]. intros _ user m n _ H. by apply above_single in H. }
  specialize (IH Hown). change (shared_directories_ok trusted (x :: y :: chain)) with
    ((if negb (has_any (st_mode x) shared_write) then true else has_any (st_mode x) S_ISVTX && trusted (st_uid y))
     && shared_directories_ok trusted (y :: chain)).
  rewrite andb_true_iff, IH. apply trusted_spec in Hx. split.
  - intros [H1 H2] user m n Hu Hab. apply above_cons in Hab as [[-> ->]|Hab]; [|by apply H2].
    intros [[->|Hw] Hs]; [done|]. rewrite Hw in H1. cbn in H1. apply andb_true_iff in H1 as [Hst Hy%trusted_spec].
    destruct (Hs Hst) as [-> | ->]; done.
  - intros H. split; [|intros user m n Hu Hab; apply H; [done|]; apply above_cons; by right].
    destruct (has_any (st_mode x) shared_write) eqn:Hw; cbn [negb]; [|done].
    assert (Hab : above (x :: y :: chain) x y) by (apply above_cons; by left).
    assert (exists u, untrusted uid u) as (u & Hu) by (exists (Z.abs uid + 1); unfold untrusted; lia).
    destruct (has_any (st_mode x) S_ISVTX) eqn:Hs; cbn [andb].
    + apply trusted_spec. intros Hy. apply (H _ _ _ Hy Hab). split; [by right|by left].
    + exfalso. apply (H _ _ _ Hu Hab). split; [by right|by rewrite Hs].
Qed.

(** A socket is placed only where no other user can swap it: the chain of
    directories is accepted exactly when all of them are directories, the
    last one belongs to the agent, and no user but root and the agent can
    replace a directory of the chain or write to the last one. *)
Theorem chain_secure_iff chain uid :
  path_chain_metadata_is_secure chain uid = true <->
  Forall (fun m => S_ISDIR (st_mode m) = true) chain /\
  (exists direct_parent, last chain = Some direct_parent /\ st_uid direct_parent = uid /\
     forall user, untrusted uid user -> ~ may_write user direct_parent) /\
  (forall user m n, untrusted uid user -> above chain m n -> ~ may_replace user m (st_uid n)).
Proof.
  unfold path_chain_metadata_is_secure. destruct (last chain) as [p|] eqn:Hl.
  2: { split; [done|]. intros (_ & (p & [=] & _) & _). }
  assert (Hpin : p ∈ chain) by (by apply last_Some_elem_of).
  rewrite !andb_true_iff, negb_true_iff, Z.eqb_eq, forallb_Forall. split.
  - intros [[H1 [H2 H3]] H4].
    assert (Hown : Forall (fun m => (st_uid m =? 0) || (st_uid m =? uid) = true) chain).
    { eapply Forall_impl; [exact H1|]. cbn. intros m [_ Hm]%andb_true_iff. done. }
    split; [eapply Forall_impl; [exact H1|]; cbn; by intros m [Hm _]%andb_true_iff|].
    split; [|by apply shared_directories_spec].
    exists p. split; [done|]. split; [done|]. intros user Hu [-> |Hw]; [|by rewrite Hw in H3]. destruct Hu. congruence.
  - intros (Hdir & (p' & [= <-] & Hp & Hw) & Hr).
    assert (Hown : Forall (fun m => (st_uid m =? 0) || (st_uid m =? uid) = true) chain).
    { apply Forall_forall. intros m Hm. apply trusted_spec. intros Hu.
      apply list_elem_of_split in Hm as (a & b & ->). destruct b as [|n b].
      - rewrite last_snoc in Hl. injection Hl as ->. by apply Hu.
      - apply (Hr _ m n Hu); [by exists a, b|]. split; [by left|by right]. }
    split; [split|by apply shared_directories_spec].
    + rewrite Forall_forall in Hdir, Hown. apply Forall_forall. intros m Hm. by rewrite Hdir, Hown.
    + split; [done|]. apply not_true_iff_false. intros Hs.
      apply (Hw (Z.abs uid + 1)); [unfold untrusted; lia|by right].
Qed.

(** ** The slots *)

Definition held (s : server) : Z := match sv_phase s with accepting => 1 | _ => 0 end.

(** The slots taken and the slots left *)
Definition slots_ok (max_connections : Z) (s : server) : Prop :=
  0 <= sv_free s /\ sv_free s + held s + zlen (sv_queued s) + zlen (sv_serving s) <= max_connections.

Lemma remove_first_length c l r : remove_first c l = Some r -> zlen l = 1 + zlen r.
Proof.
  revert r. induction l as [|x l IH]; intros r; cbn; [done|].
  destruct (x =? c); [intros [= <-]; apply zlen_cons|].
  destruct (remove_first c l) as [r'|]; [|done]. intros [= <-]. rewrite !zlen_cons, (IH r' eq_refl). done.
Qed.

Lemma serve_step_ok max_connections a s : slots_ok max_connections s ->
  match serve_step max_connections a s with
  | None => True
  | Some (Ok s') => slots_ok max_connections s'
  | Some (Raise _) => False
  end.
Proof.
  destruct s as [p stop free queued serving]. unfold slots_ok, held. cbn. intros [Hf Hm].
  pose proof (zlen_nonneg queued). pose proof (zlen_nonneg serving).
  destruct a; cbn; unfold release; cbn; destruct p; try done; repeat case_match; simplify_eq; split_bools; cbn in *; simplify_eq;
    unfold in_phase in *; cbn in *; try done; try match goal with H : remove_first _ _ = Some _ |- _ => apply remove_first_length in H end;
    autorewrite with dgx in *; try lia.
  all: match goal with H : zlen _ = 1 + zlen ?l |- _ => pose proof (zlen_nonneg l) end; lia.
Qed.

(** C31.  The server never serves more connections than it was configured for:
    in every history, whatever the interleaving of the accepting thread, the
    workers and the stop signal, the connections being served and waiting are
    at most [max_connections], no slot is released that was not taken, and a
    waiting connection always has a free worker. *)
Theorem serve_bounded max_connections actions : 1 <= max_connections ->
  match serve_run max_connections actions (new_server max_connections) with
  | None => True
  | Some (Raise _) => False
  | Some (Ok s) =>
      zlen (sv_serving s) + zlen (sv_queued s) <= max_connections /\ 0 <= sv_free s <= max_connections /\
      (sv_queued s <> [] -> exists s', serve_step max_connections WorkerStarts s = Some (Ok s'))
  end.
Proof.
  intros Hmax. assert (H0 : slots_ok max_connections (new_server max_connections)).
  { unfold slots_ok, new_server. cbn. unfold zlen. cbn. lia. }
  revert H0. generalize (new_server max_connections). induction actions as [|a actions IH]; intros s Hs; cbn [serve_run].
  - destruct Hs as [Hf Hm]. unfold held in Hm. pose proof (zlen_nonneg (sv_queued s)). pose proof (zlen_nonneg (sv_serving s)).
    split; [destruct (sv_phase s); lia|]. split; [destruct (sv_phase s); lia|].
    intros Hq. cbn [serve_step]. destruct (sv_queued s) as [|c q]; [done|]. rewrite zlen_cons in *. pose proof (zlen_nonneg q).
    rewrite (proj2 (Z.ltb_lt _ _)); [by eexists|]. destruct (sv_phase s); lia.
  - pose proof (serve_step_ok max_connections a s Hs) as Ha. destruct (serve_step _ a s) as [[s'|e]|]; [by apply IH|done|done].
Qed.

(** ** Binding *)

(** What only looks at the path, or makes its parent *)
Definition looking (e : socket_event) : Prop :=
  match e with LLstat _ _ | LMkdir _ _ | LChmod _ _ => True | _ => False end.

(** Every unlink is of the path, directly after the path was seen to be a
    socket *)
Definition unlinks_checked (path : pypath) (l : list socket_event) : Prop := forall a p b,
  l = a ++ LUnlink p :: b -> p = path /\
    exists a' m, a = a' ++ [LLstat path (Some m)] /\ S_ISSOCK (st_mode m) = true.

#[export] Instance unlinks_checked_traces path : TraceSet (unlinks_checked path).
Proof.
  split.
  - intros [|] p b; done.
  - intros l k Hl Hk a p b E. apply List.app_eq_app in E as (x & [[-> E]|[-> E]]).
    + destruct x as [|y x]; cbn in E.
      * destruct (Hk [] p b) as (_ & [|] & m & E2 & _); done.
      * injection E as <- ->. by apply (Hl a p x).
    + destruct (Hk x p b E) as (Hp & a' & m & -> & Hm). split; [done|]. exists (l ++ a'), m. by rewrite app_assoc.
Qed.

Lemma no_unlinks_checked path l : Forall (fun e => match e with LUnlink _ => False | _ => True end) l ->
  unlinks_checked path l.
Proof. intros H a p b ->. by apply Forall_app in H as [_ [H _]%Forall_cons]. Qed.

Lemma looking_checked path l : Forall looking l -> unlinks_checked path l.
Proof. intros H. apply no_unlinks_checked. eapply Forall_impl; [exact H|]. by intros []. Qed.

Section BindProofs.
Context {E : Type} `{SocketSystem E}.
Variable posix : bool.
Variable euid : Z.

Notation looks m := (emits eq (Forall looking) m).

Lemma lstat_looks p : looks (lstat p).
Proof. unfold lstat. apply emits_bind; [auto with emits|]. intros m. apply emits_bind; [|auto with emits]. apply emits_log. by repeat constructor. Qed.
Lemma lstat_or_raise_looks p : looks (lstat_or_raise p).
Proof. unfold lstat_or_raise. eauto using lstat_looks with emits. Qed.
Lemma chmod_looks p mode : looks (chmod p mode).
Proof. unfold chmod. apply emits_bind; [|auto with emits]. apply emits_log. by repeat constructor. Qed.
Lemma socket_matches_looks p i : looks (socket_matches p i).
Proof. unfold socket_matches. eauto using lstat_looks with emits. Qed.
Lemma check_parent_looks p : looks (check_parent posix euid p).
Proof. unfold check_parent. eauto using lstat_or_raise_looks with emits. Qed.
Lemma existing_parent_looks p : looks (validate_existing_parent posix euid p).
Proof. unfold validate_existing_parent. eauto 8 using check_parent_looks with emits. Qed.
Lemma walk_chain_looks rest : forall current chain, looks (walk_chain current rest chain).
Proof. induction rest; intros current chain; cbn [walk_chain]; eauto 8 using lstat_or_raise_looks with emits. Qed.
Lemma path_chain_looks path : looks (validate_socket_path_chain posix euid path).
Proof.
  unfold validate_socket_path_chain. apply emits_bind; [auto with emits|]. intros _. apply emits_if.
  - eauto 8 using existing_parent_looks, lstat_or_raise_looks with emits.
  - apply emits_bind; [apply emits_catch; [apply walk_chain_looks|auto with emits]|]. eauto 8 with emits.
Qed.
Lemma chain_matches_looks path i : looks (path_chain_matches posix euid path i).
Proof. unfold path_chain_matches. eauto 8 using path_chain_looks with emits. Qed.
Lemma chmod_same_looks path i mode pid : looks (chmod_if_same_socket posix euid path i mode pid).
Proof.
  unfold chmod_if_same_socket. apply emits_bind; [apply chain_matches_looks|]. intros b.
  destruct (negb b); [auto with emits|]. apply emits_bind; [apply socket_matches_looks|]. intros b1.
  destruct (negb b1); [auto with emits|]. apply emits_bind; [apply chmod_looks|]. intros b2.
  destruct (negb b2); [auto with emits|]. apply socket_matches_looks.
Qed.
Lemma create_parent_looks p : looks (create_parent posix euid p).
Proof.
  unfold create_parent. cbn zeta. apply emits_bind; [auto with emits|]. intros b.
  apply emits_bind; [auto with emits|]. intros _. apply emits_bind.
  { apply emits_if; [|apply existing_parent_looks]. unfold nothing. eauto using path_chain_looks with emits. }
  intros _. apply emits_bind; [apply emits_log; by repeat constructor|]. intros _.
  apply emits_bind; [auto with emits|]. intros _. apply emits_bind; [apply lstat_or_raise_looks|]. intros before.
  apply emits_bind; [auto with emits|]. intros _. apply emits_if; [|unfold nothing; auto with emits].
  apply emits_bind; [unfold chmod_or_raise; eauto using chmod_looks with emits|]. intros _.
  eauto using lstat_or_raise_looks with emits.
Qed.
Lemma validate_parent_looks p : looks (validate_socket_parent posix euid p).
Proof.
  unfold validate_socket_parent. apply emits_catch; [|auto with emits]. apply emits_bind; [auto with emits|]. intros b.
  apply emits_bind; [|eauto using check_parent_looks with emits].
  destruct b; [unfold nothing; auto with emits|apply create_parent_looks].
Qed.

Notation checks path m := (emits eq (unlinks_checked path) m).

Lemma looks_checks {A} path (m : tprogram unit socket_event E A) : looks m -> checks path m.
Proof. intros Hm. eapply emits_weaken; [| |exact Hm]; [done|]. apply looking_checked. Qed.

(** What [_socket_matches] saw when it said yes *)
Lemma socket_matches_true p i w w' : socket_matches p i w = (Ok true, w') ->
  exists m, trace w' = trace w ++ [LLstat p (Some m)] /\ S_ISSOCK (st_mode m) = true /\ identity_of m = i.
Proof.
  unfold socket_matches, lstat, mbind, program_bind, ask_result, log, mret, program_ret.
  destruct (sk_lstat p (env w)) as [[m|e] e']; [|done]. cbn [trace]. intros [= Hm <-].
  destruct m as [m|]; [|done]. exists m. cbn [trace]. split; [done|].
  apply andb_true_iff in Hm as [? Hi]. split; [done|]. unfold identity_eqb in Hi.
  apply andb_true_iff in Hi as [H1%Z.eqb_eq H2%Z.eqb_eq]. destruct (identity_of m), i. cbn in *. by subst.
Qed.

Lemma unit_eq (a b : unit) : a = b.
Proof. by destruct a, b. Qed.

Lemma unlink_same_checks path i pid : checks path (unlink_if_same_socket posix euid path i pid).
Proof.
  unfold unlink_if_same_socket. apply emits_bind; [apply looks_checks, chain_matches_looks|]. intros b.
  destruct (negb b); [auto with emits|]. intros w.
  eapply wp_emits_step; [apply socket_matches_looks| |].
  - intros [] w' l Ht Hl Hrun; cbn [negb].
    + apply socket_matches_true in Hrun as (m & Ht' & Hm & _). rewrite Ht in Ht'. apply app_inv_head in Ht' as ->.
      unfold unlink, wp, mbind, program_bind, log, ask_result. cbn [env state trace].
      destruct (sk_unlink path (env w')) as [r e']. cbn [fst snd state trace].
      split; [apply unit_eq|]. exists ([LLstat path (Some m)] ++ [LUnlink path]).
      rewrite Ht, app_assoc. split; [done|]. intros a p k E0.
      destruct a as [|x [|y a]]; [done| |]; injection E0 as <-; [|by destruct a].
      simplify_eq. split; [done|]. by exists [], m.
    + split; [apply unit_eq|]. exists l. split; [done|by apply looking_checked].
  - intros e w' l Ht Hl. split; [apply unit_eq|]. exists l. split; [done|by apply looking_checked].
Qed.

Lemma log_checks path x : match x with LUnlink _ => False | _ => True end ->
  checks path (log x : tprogram unit socket_event E unit).
Proof. intros Hx. apply emits_log, no_unlinks_checked. by constructor. Qed.

Lemma remove_stale_checks path pid : checks path (remove_stale posix euid path pid).
Proof.
  unfold remove_stale. apply emits_bind; [apply looks_checks, lstat_or_raise_looks|]. intros m.
  do 2 (apply emits_bind; [auto with emits|]; intros _).
  apply emits_bind; [auto with emits|]. intros n. apply emits_bind; [by apply log_checks|]. intros _.
  apply emits_bind; [auto with emits|]. intros _. apply emits_bind; [apply unlink_same_checks|]. auto with emits.
Qed.

Lemma bind_listener_checks path : checks path (bind_listener path).
Proof.
  unfold bind_listener. apply emits_bind; [by apply log_checks|]. intros _. apply emits_bind; [auto with emits|]. intros _.
  apply emits_bind; [apply looks_checks, lstat_or_raise_looks|]. eauto with emits.
Qed.

Lemma publish_checks path i pid : checks path (publish posix euid path i pid).
Proof.
  unfold publish. apply emits_bind.
  { apply emits_if; [|auto with emits]. apply emits_bind; [apply looks_checks, chmod_same_looks|auto with emits]. }
  intros c. apply emits_bind; [auto with emits|]. intros _. apply emits_bind; [by apply log_checks|]. intros _.
  apply emits_bind; [auto with emits|]. intros _. apply emits_bind; [apply looks_checks, socket_matches_looks|]. auto with emits.
Qed.

Lemma bind_checks path : checks path (bind posix euid path).
Proof.
  unfold bind. apply emits_bind; [auto with emits|]. intros _.
  apply emits_bind; [apply looks_checks, validate_parent_looks|]. intros _.
  apply emits_bind; [apply looks_checks, path_chain_looks|]. intros pid. apply emits_bind; [auto with emits|]. intros b.
  apply emits_bind; [apply emits_if; [apply remove_stale_checks|unfold nothing; auto with emits]|]. intros _.
  apply emits_bind; [auto with emits|]. intros _. apply emits_bind.
  { apply emits_catch; [apply bind_listener_checks|]. intros e. apply emits_bind; [by apply log_checks|auto with emits]. }
  intros i. apply emits_bind; [|auto with emits]. apply emits_catch; [apply publish_checks|]. intros e.
  apply emits_bind; [by apply log_checks|]. intros _. apply emits_bind; [apply unlink_same_checks|auto with emits].
Qed.

(** No connection accepted by a probe; and nothing removed or bound *)
Definition unprobed (e : socket_event) : Prop := match e with LProbe _ None => False | _ => True end.
Definition harmless (e : socket_event) : Prop := match e with LUnlink _ | LBind _ => False | _ => True end.
Notation without_probe m := (emits eq (Forall unprobed) m).

Lemma looks_unprobed {A} (m : tprogram unit socket_event E A) : looks m -> without_probe m.
Proof.
  intros Hm. eapply emits_weaken; [| |exact Hm]; [done|]. intros l Hl. eapply Forall_impl; [exact Hl|]. by intros [].
Qed.

Lemma log_unprobed x : unprobed x -> without_probe (log x : tprogram unit socket_event E unit).
Proof. intros Hx. apply emits_log. by constructor. Qed.

Lemma unlink_same_unprobed path i pid : without_probe (unlink_if_same_socket posix euid path i pid).
Proof.
  unfold unlink_if_same_socket. apply emits_bind; [apply looks_unprobed, chain_matches_looks|]. intros b.
  apply emits_if; [auto with emits|]. apply emits_bind; [apply looks_unprobed, socket_matches_looks|]. intros c.
  apply emits_if; [auto with emits|]. unfold unlink. apply emits_bind; [by apply log_unprobed|auto with emits].
Qed.

Lemma publish_unprobed path i pid : without_probe (publish posix euid path i pid).
Proof.
  unfold publish. apply emits_bind.
  { apply emits_if; [|auto with emits]. apply emits_bind; [apply looks_unprobed, chmod_same_looks|auto with emits]. }
  intros c. apply emits_bind; [auto with emits|]. intros _. apply emits_bind; [by apply log_unprobed|]. intros _.
  apply emits_bind; [auto with emits|]. intros _. apply emits_bind; [apply looks_unprobed, socket_matches_looks|]. auto with emits.
Qed.

Lemma bind_listener_unprobed path : without_probe (bind_listener path).
Proof.
  unfold bind_listener. apply emits_bind; [by apply log_unprobed|]. intros _. apply emits_bind; [auto with emits|]. intros _.
  apply emits_bind; [apply looks_unprobed, lstat_or_raise_looks|]. eauto with emits.
Qed.

(** After an accepted probe nothing was removed or bound, and the program
    failed *)
Definition spares_active {A} (path : pypath) (w : tworld unit socket_event E) (r : result A)
    (w' : tworld unit socket_event E) : Prop :=
  exists l, trace w' = trace w ++ l /\
    (In (LProbe path None) l -> Forall harmless l /\ exists e, r = Raise e).

Lemma unprobed_spares {A} path (w w' : tworld unit socket_event E) (r : result A) l :
  trace w' = trace w ++ l -> Forall unprobed l -> spares_active path w r w'.
Proof.
  intros Ht Hl. exists l. split; [done|]. intros Hin. rewrite List.Forall_forall in Hl. by destruct (Hl _ Hin).
Qed.

Lemma unprobed_run {A} path (m : tprogram unit socket_event E A) w : without_probe m -> wp m (spares_active path w) w.
Proof. intros Hm. destruct (Hm w) as (_ & l & Ht & Hl). by eapply unprobed_spares. Qed.

(** A program that does not probe, before and after one that spares *)
Lemma spares_after {A B} path (m : tprogram unit socket_event E A) (f : A -> tprogram unit socket_event E B) w :
  looks m -> (forall a w', wp (f a) (spares_active path w') w') -> wp (m ≫= f) (spares_active path w) w.
Proof.
  intros Hm Hf.
  assert (Hloose : forall l, Forall looking l -> Forall harmless l /\ Forall unprobed l).
  { intros l Hl. split; (eapply Forall_impl; [exact Hl|]); by intros []. }
  eapply wp_emits_step; [exact Hm| |].
  - intros a w' l Ht Hl _. destruct (Hloose l Hl) as [H1 H2]. eapply wp_mono; [|apply Hf].
    intros r w2 (k & Hk & Hp). exists (l ++ k). rewrite Hk, Ht, app_assoc. split; [done|].
    intros [Hin|Hin]%in_app_iff; [rewrite List.Forall_forall in H2; by destruct (H2 _ Hin)|].
    destruct (Hp Hin) as [Hh He]. split; [by apply Forall_app_2|done].
  - intros e w' l Ht Hl. destruct (Hloose l Hl) as [_ H2]. by eapply unprobed_spares.
Qed.

Lemma spares_then {A B} path (m : tprogram unit socket_event E A) (f : A -> tprogram unit socket_event E B) w :
  wp m (spares_active path w) w -> (forall a, without_probe (f a)) -> wp (m ≫= f) (spares_active path w) w.
Proof.
  intros Hm Hf. apply wp_bind. unfold wp in *. destruct (m w) as [[a|e] w1]; cbn [fst snd] in *.
  - destruct Hm as (l & Ht & Hp). destruct (Hf a w1) as (_ & k & Hk & Hu). exists (l ++ k).
    rewrite Hk, Ht, app_assoc. split; [done|]. intros [Hin|Hin]%in_app_iff; [by destruct (Hp Hin) as (_ & ? & ?)|].
    rewrite List.Forall_forall in Hu. by destruct (Hu _ Hin).
  - destruct Hm as (l & Ht & Hp). exists l. split; [done|]. intros Hin. destruct (Hp Hin) as (Hh & x & Hx). by eauto.
Qed.

Lemma remove_stale_spares path pid w : wp (remove_stale posix euid path pid) (spares_active path w) w.
Proof.
  unfold remove_stale. apply spares_after; [apply lstat_or_raise_looks|]. clear w. intros m w.
  do 2 (apply spares_after; [auto with emits|]; clear w; intros _ w).
  apply spares_after; [auto with emits|]. clear w. intros [n|] w.
  - apply unprobed_run.
    apply (emits_bind (R := eq) (G := Forall unprobed)); [by apply log_unprobed|]. intros _.
    apply emits_bind; [auto with emits|]. intros _.
    apply emits_bind; [apply unlink_same_unprobed|auto with emits].
  - exists [LProbe path None]. split; [done|]. intros _. split; [by constructor|]. by eexists.
Qed.

Lemma bind_spares path w : wp (bind posix euid path) (spares_active path w) w.
Proof.
  unfold bind. apply spares_after; [auto with emits|]. clear w. intros _ w.
  apply spares_after; [apply validate_parent_looks|]. clear w. intros _ w.
  apply spares_after; [apply path_chain_looks|]. clear w. intros pid w.
  apply spares_after; [auto with emits|]. clear w. intros b w. apply spares_then.
  { destruct b; [apply remove_stale_spares|]. exists []. by rewrite app_nil_r. }
  intros _. apply emits_bind; [auto with emits|]. intros _. apply emits_bind.
  { apply emits_catch; [apply bind_listener_unprobed|]. intros e. apply emits_bind; [by apply log_unprobed|auto with emits]. }
  intros i. apply emits_bind; [|auto with emits]. apply emits_catch; [apply publish_unprobed|]. intros e.
  apply emits_bind; [by apply log_unprobed|]. intros _. apply emits_bind; [apply unlink_same_unprobed|auto with emits].
Qed.

(** ** A published socket *)

Lemma chmod_same_true path i mode pid w :
  wp (chmod_if_same_socket posix euid path i mode pid)
    (fun r w' => r = Ok true -> exists l, trace w' = trace w ++ l /\ In (LChmod path mode) l) w.
Proof.
  unfold chmod_if_same_socket. eapply wp_emits_step; [apply chain_matches_looks| |done].
  intros b w1 l1 Ht1 _ _. destruct (negb b); [done|].
  eapply wp_emits_step; [apply socket_matches_looks| |done]. intros b2 w2 l2 Ht2 _ _. destruct (negb b2); [done|].
  apply wp_bind. unfold wp at 1, chmod, mbind, program_bind, log, ask_result.
  destruct (sk_chmod path mode (env w2)) as [r e'] eqn:Er. cbn [env]. rewrite Er. cbn [fst snd].
  destruct r as [found|e]; [|done]. destruct (negb found); [done|].
  set (w3 := mkWorld (state w2) e' (trace w2 ++ [LChmod path mode])).
  eapply wp_mono; [|apply (socket_matches_looks path i w3)]. intros r w4 (_ & l4 & Ht4 & _) _.
  exists (l1 ++ l2 ++ [LChmod path mode] ++ l4). rewrite Ht4. unfold w3. cbn [trace]. rewrite Ht2, Ht1, <- !app_assoc.
  split; [done|]. rewrite !in_app_iff. right. right. by left; left.
Qed.

(** After a successful [publish] *)
Definition published (path : pypath) (bound : identity) (w w' : tworld unit socket_event E) : Prop :=
  exists l m, trace w' = trace w ++ l ++ [LListen 16; LLstat path (Some m)] /\ S_ISSOCK (st_mode m) = true /\
    identity_of m = bound /\ (posix = true -> In (LChmod path 432) l).

Lemma publish_Ok path bound pid w :
  wp (publish posix euid path bound pid) (fun r w' => is_ok r = true -> published path bound w w') w.
Proof.
  assert (Hrest : forall l w1, trace w1 = trace w ++ l -> (posix = true -> In (LChmod path 432) l) ->
    wp (log (LListen 16);; ask_result (sk_listen 16);; same ← socket_matches path bound;
        lift (guard_exn same (value_error "socket_path changed while binding")))
      (fun r w' => is_ok r = true -> published path bound w w') w1).
  { intros l w1 Ht Hc. apply wp_bind. unfold wp at 1. cbn [log fst snd]. apply wp_bind, wp_ask_result.
    intros [u|e] e' _; [|done]. set (w2 := mkWorld _ e' _).
    eapply wp_emits_step; [apply socket_matches_looks| |done]. intros [] w3 k Ht3 _ Hrun; [|done]. intros _.
    apply socket_matches_true in Hrun as (m & Ht4 & Hm & Hi). exists l, m. unfold wp. cbn [lift fst snd].
    rewrite Ht4. unfold w2. cbn [trace]. rewrite Ht, <- !app_assoc. done. }
  unfold publish. apply wp_bind.
  assert (Hch : wp (if posix then done ← chmod_if_same_socket posix euid path bound 432 pid; mret (negb done) else mret false)
    (fun r w' => r = Ok false -> exists l, trace w' = trace w ++ l /\ (posix = true -> In (LChmod path 432) l)) w).
  { apply wp_if; intros Hp.
    - apply wp_bind. eapply wp_mono; [|apply chmod_same_true]. intros [[]|e] w' Hd; [|done..]. intros _.
      destruct (Hd eq_refl) as (l & Ht & Hin). eauto.
    - intros _. exists []. rewrite app_nil_r. split; [done|]. by rewrite Hp. }
  eapply wp_mono; [|exact Hch]. intros [[]|e] w' Hl; [done| |done].
  destruct (Hl eq_refl) as (l & Ht & Hin). by apply (Hrest l).
Qed.

Lemma bind_publishes path w :
  wp (bind posix euid path) (fun r w' => match r with Ok (_, bound) => published path bound w w' | Raise _ => True end) w.
Proof.
  assert (Hlift : forall bound w w1 w2 l, trace w1 = trace w ++ l -> published path bound w1 w2 -> published path bound w w2).
  { intros bound w0 w1 w2 l Ht (k & m & Hk & Hm & Hi & Hc). exists (l ++ k), m. rewrite Hk, Ht, <- !app_assoc.
    split; [done|]. split; [done|]. split; [done|]. intros Hp. apply in_app_iff. auto. }
  unfold bind. eapply (wp_emits_step eq (Forall looking)); [auto with emits| |done]. intros _ w1 l1 Ht1 _ _.
  eapply wp_emits_step; [apply validate_parent_looks| |done]. intros _ w2 l2 Ht2 _ _.
  eapply wp_emits_step; [apply path_chain_looks| |done]. intros pid w3 l3 Ht3 _ _.
  eapply (wp_emits_step eq (Forall looking)); [auto with emits| |done]. intros b w4 l4 Ht4 _ _.
  eapply (wp_emits_step eq (unlinks_checked path));
    [apply emits_if; [apply remove_stale_checks|unfold nothing; auto with emits]| |done]. intros _ w5 l5 Ht5 _ _.
  eapply (wp_emits_step eq (Forall looking)); [auto with emits| |done]. intros _ w6 l6 Ht6 _ _.
  eapply (wp_emits_step eq (unlinks_checked path)).
  { apply emits_catch; [apply bind_listener_checks|]. intros e. apply emits_bind; [by apply log_checks|auto with emits]. }
  2: done.
  intros bound w7 l7 Ht7 _ _. apply wp_bind, wp_catch. eapply wp_mono; [|apply publish_Ok].
  intros [u|e] w8 Hpub.
  - specialize (Hpub eq_refl). unfold wp. cbn.
    eapply Hlift; [exact Ht1|]. eapply Hlift; [exact Ht2|]. eapply Hlift; [exact Ht3|]. eapply Hlift; [exact Ht4|].
    eapply Hlift; [exact Ht5|]. eapply Hlift; [exact Ht6|]. eapply Hlift; [exact Ht7|]. exact Hpub.
  - cbn [any_exception]. apply wp_bind. unfold wp at 1. cbn [log fst snd].
    eapply (wp_emits_step eq (unlinks_checked path)); [apply unlink_same_checks| |done]. intros _ w9 l9 _ _ _. done.
Qed.

(** C30.  Binding the socket never takes a path away from somebody: it unlinks
    only the socket's own path, directly after seeing a socket there; when a
    server answers the probe of an existing socket, nothing was removed or
    bound and binding fails; and a socket it returns is the one that was last
    seen at the path, after its mode was set to 0660 and it was listening. *)
Theorem bind_safe path w :
  let '(r, w') := bind posix euid path w in
  exists l, trace w' = trace w ++ l /\ unlinks_checked path l /\
    (In (LProbe path None) l -> Forall harmless l /\ exists e, r = Raise e) /\
    match r with
    | Ok (_, bound) => exists k m, l = k ++ [LListen 16; LLstat path (Some m)] /\ S_ISSOCK (st_mode m) = true /\
        identity_of m = bound /\ (posix = true -> In (LChmod path 432) k)
    | Raise _ => True
    end.
Proof.
  pose proof (bind_checks path w) as Hc. pose proof (bind_spares path w) as Hs. pose proof (bind_publishes path w) as Hp.
  unfold wp in *. destruct (bind posix euid path w) as [r w']. cbn [fst snd] in *.
  destruct Hc as (_ & l & Ht & Hl), Hs as (l' & Ht' & Hs). rewrite Ht in Ht'. apply app_inv_head in Ht' as <-.
  exists l. repeat (split; [done|]). destruct r as [[pid bound]|e]; [|done].
  destruct Hp as (k & m & Hk & Hm). rewrite Ht in Hk. apply app_inv_head in Hk. eauto.
Qed.
End BindProofs.

(** ** A machine to try them on: /run/agent belongs to user 990, and the state
    is whether the socket exists *)
Definition demo_path : pypath := mkPath true [str "run"; str "agent"; str "ops.sock"].
Definition demo_dir (owner : Z) : stat_result := mkStat 16877 owner owner 1 (2 + owner) 4096.

#[export] Instance demo_machine : SocketSystem bool := {|
  sk_lstat p bound :=
    (Ok (match components p with
         | [] | [_] => Some (demo_dir 0)
         | [_; _] => Some (demo_dir 990)
         | _ => if bound : bool then Some (mkStat 49645 990 990 1 77 0) else None
         end), bound);
  sk_lexists p bound := (match components p with [_; _; _] => bound | _ => true end, bound);
  sk_mkdir _ _ bound := (Ok tt, bound);
  sk_chmod _ _ bound := (Ok true, bound);
  sk_unlink _ bound := (Ok bound, false);
  sk_probe _ bound := (Ok (Some ECONNREFUSED), bound);
  sk_socket bound := (Ok tt, bound);
  sk_bind _ _ := (Ok tt, true);
  sk_listen _ bound := (Ok tt, bound);
|}.

Example demo_bind : fst (bind true 990 demo_path (mkWorld tt true [])) = Ok ((1, 992), (1, 77)).
Proof. by vm_compute. Qed.

Lemma serve_bounded_witness : 1 <= 2 /\
  match serve_run 2 [SlotTaken; Accepted 7; SlotTaken; Accepted 8; WorkerStarts] (new_server 2) with
  | Some (Ok s) => sv_queued s = [8] /\ (sv_queued s <> [] -> exists s', serve_step 2 WorkerStarts s = Some (Ok s'))
  | _ => False
  end.
Proof.
  assert (H : 1 <= 2) by lia. split; [exact H|].
  pose proof (serve_bounded 2 [SlotTaken; Accepted 7; SlotTaken; Accepted 8; WorkerStarts] H) as Hs.
  vm_compute in Hs. vm_compute. destruct Hs as (_ & _ & Hs). split; [reflexivity|exact Hs].
Defined.
