(* ===== verification/KeyFile.v ===== *)
(** * The host agent's key file

    [_resolve_key_group], [_validate_key_metadata], [_decode_secret_file] and
    [_read_secret_file] of [host_agent/dgx_ops_agent/server.py]: which files
    are accepted as the shared secret, and what they decode to. *)
From Stdlib Require Import ZArith Lia Bool String.
From stdpp Require Import prelude.
From S2P Require Import Prelude PyValue Utf8 Sha256 SocketHost.
Open Scope Z_scope.

Definition MAX_KEY_FILE_SIZE : Z := 65.
Definition invalid_key : exn := value_error "invalid key file".
Definition invalid_group : exn := value_error "invalid key group".

(** ** The group that may read the key *)

Definition group_first (c : Z) : bool := is_lower c || (c =? 95).
Definition group_char (c : Z) : bool := is_lower c || is_digit c || (c =? 95) || (c =? 45).

(** [_KEY_GROUP_PATTERN.fullmatch] *)
Definition KEY_GROUP_PATTERN (name : pystr) : bool :=
  match name with
  | c :: rest => group_first c && forallb group_char rest && (zlen rest <=? 31)
  | [] => false
  end.

(** [_resolve_key_group]; [getgrnam] is [grp.getgrnam], which raises
    [KeyError] for an unknown name *)
Definition resolve_key_group (posix : bool) (getgrnam : pystr -> result pyval) (name : pyval) : result (option Z) :=
  n ← of_option (as_str name) invalid_group;
  _ ← guard_exn (KEY_GROUP_PATTERN n) invalid_group;
  if negb posix then Ok None
  else
    group_id ← except (getgrnam n) (fun e => match e with KeyError _ => Some (Raise invalid_group) | _ => None end);
    g ← of_option (as_int group_id) invalid_group;
    _ ← guard_exn (0 <=? g) invalid_group;
    Ok (Some g).

(** ** The file's owner and mode *)

Definition allowed_mode : Z := Z.lor (Z.lor S_IRUSR S_IWUSR) S_IRGRP.
Definition special_mode : Z := Z.lor (Z.lor S_ISUID S_ISGID) S_ISVTX.

(** [_validate_key_metadata] *)
Definition validate_key_metadata (posix : bool) (euid : Z) (metadata : stat_result) (expected_gid : option Z) : result unit :=
  let mode := st_mode metadata in
  _ ← guard_exn (S_ISREG mode) invalid_key;
  if negb posix then Ok tt
  else
    _ ← guard_exn (match expected_gid with Some g => 0 <=? g | None => true end) invalid_key;
    _ ← guard_exn (st_uid metadata =? euid) invalid_key;
    _ ← guard_exn (negb (negb (has_any mode S_IRUSR) || has_any mode special_mode
                         || has_any (S_IMODE mode) (Z.lnot allowed_mode))) invalid_key;
    guard_exn (negb (has_any mode S_IRGRP)
               || match expected_gid with Some g => st_gid metadata =? g | None => false end) invalid_key.

(** ** The secret *)

Definition hex_byte (c : Z) : bool := is_digit c || ((97 <=? c) && (c <=? 102)) || ((65 <=? c) && (c <=? 70)).

Definition hex_value (c : Z) : Z := if is_digit c then c - 48 else if 97 <=? c then c - 87 else c - 55.

(** [bytes.fromhex] of hexadecimal digits *)
Fixpoint fromhex (s : list Z) : option bytes :=
  match s with
  | [] => Some []
  | a :: b :: rest => if hex_byte a && hex_byte b then cons (hex_value a * 16 + hex_value b) <$> fromhex rest else None
  | _ => None
  end.

(** [_decode_secret_file] *)
Definition decode_secret_file (value : bytes) : result bytes :=
  if zlen value =? 32 then Ok value
  else
    let value := if (zlen value =? 65) && endswith [10] value then removelast value else value in
    _ ← guard_exn ((zlen value =? 64) && forallb hex_byte value) invalid_key;
    of_option (fromhex value) (value_error "non-hexadecimal number found in fromhex() arg").

(** The opened file: [fstat] and [read] *)
Class KeySystem (E : Type) := {
  key_open : E -> result unit * E;
  key_fstat : E -> result stat_result * E;
  key_read : Z -> E -> result bytes * E;
}.

Definition read_fuel_error : exn := OtherException (str "out of fuel").

Section Read.
Context {E : Type} `{KeySystem E}.

(** The loop: [chunks] so far *)
Fixpoint read_key (fuel : nat) (chunks : bytes) (e : E) : result bytes * E :=
  match fuel with
  | O => (Raise read_fuel_error, e)
  | S k =>
      if zlen chunks <=? MAX_KEY_FILE_SIZE then
        match key_read (MAX_KEY_FILE_SIZE + 1 - zlen chunks) e with
        | (Raise x, e) => (Raise x, e)
        | (Ok [], e) => (Ok chunks, e)
        | (Ok chunk, e) => read_key k (chunks ++ chunk) e
        end
      else (Ok chunks, e)
  end.

(** [_read_secret_file] *)
Definition read_secret_file (fuel : nat) (posix : bool) (euid : Z) (expected_gid : option Z) (e : E) : result bytes * E :=
  match key_open e with
  | (Raise x, e) => (Raise (if is_OSError x then invalid_key else x), e)
  | (Ok _, e) =>
      match key_fstat e with
      | (Raise x, e) => (Raise x, e)
      | (Ok metadata, e) =>
          match (_ ← guard_exn (negb ((st_size metadata <=? 0) || (MAX_KEY_FILE_SIZE <? st_size metadata))) invalid_key;
                 validate_key_metadata posix euid metadata expected_gid) with
          | Raise x => (Raise x, e)
          | Ok _ =>
              let '(value, e) := read_key fuel [] e in
              (v ← value;
               _ ← guard_exn (negb (MAX_KEY_FILE_SIZE <? zlen v)) invalid_key;
               decode_secret_file v, e)
          end
      end
  end.
End Read.

(** ** The accepted modes *)

Lemma has_any_imode mode bits : Z.land 4095 bits = bits -> has_any mode bits = has_any (S_IMODE mode) bits.
Proof. intros Hb. unfold has_any, S_IMODE. by rewrite <- Z.land_assoc, Hb. Qed.

Lemma imode_range mode : 0 <= S_IMODE mode < 4096.
Proof.
  unfold S_IMODE. change 4095 with (Z.ones 12). rewrite Z.land_ones by lia. change (2 ^ 12) with 4096.
  apply Z.mod_pos_bound. lia.
Qed.

Definition private_modes : list Z := [256; 288; 384; 416].

Definition mode_private (m : Z) : bool :=
  negb (negb (has_any m S_IRUSR) || has_any m special_mode || has_any m (Z.lnot allowed_mode)).

Lemma modes_checked : forallb (fun m => Bool.eqb (mode_private m) (existsb (Z.eqb m) private_modes)
    && Bool.eqb (has_any m S_IRGRP && mode_private m) (existsb (Z.eqb m) [288; 416]))
  (map Z.of_nat (seq 0 4096)) = true.
Proof. vm_compute. reflexivity. Qed.

Lemma mode_private_iff m : 0 <= m < 4096 ->
  (mode_private m = true <-> In m private_modes) /\
  (mode_private m = true -> (has_any m S_IRGRP = true <-> m = 288 \/ m = 416)).
Proof.
  intros Hm. pose proof modes_checked as Hall. rewrite forallb_forall in Hall.
  specialize (Hall m). rewrite andb_true_iff, !Bool.eqb_true_iff in Hall.
  destruct Hall as [H1 H2].
  { apply in_map_iff. exists (Z.to_nat m). split; [lia|]. apply in_seq. lia. }
  rewrite H1. split.
  - rewrite existsb_exists. split; [intros (x & Hx & ->%Z.eqb_eq)|intros Hx; exists m; rewrite Z.eqb_refl]; done.
  - intros Hp. rewrite <- H1 in Hp. rewrite Hp, andb_true_r in H2. rewrite H2. cbn.
    rewrite !orb_true_iff, !Z.eqb_eq. intuition (lia || done).
Qed.

(** A key file is accepted exactly when nobody else can read or change
    it: a regular file of the agent's user with mode 0400, 0600, 0440 or
    0640, where the group may read it only if it is the expected group. *)
Theorem key_file_private euid metadata expected_gid : (forall g, expected_gid = Some g -> 0 <= g) ->
  validate_key_metadata true euid metadata expected_gid = Ok tt <->
  S_ISREG (st_mode metadata) = true /\ st_uid metadata = euid /\ In (S_IMODE (st_mode metadata)) private_modes /\
  (S_IMODE (st_mode metadata) = 288 \/ S_IMODE (st_mode metadata) = 416 -> expected_gid = Some (st_gid metadata)).
Proof.
  intros Hg. destruct (mode_private_iff _ (imode_range (st_mode metadata))) as [Hp Hr].
  assert (Hgid : match expected_gid with Some g => 0 <=? g | None => true end = true).
  { destruct expected_gid as [g|]; [|done]. apply Z.leb_le. by apply Hg. }
  unfold validate_key_metadata. cbn [negb]. rewrite Hgid.
  assert (Himode : forall bits, Z.land 4095 bits = bits -> has_any (st_mode metadata) bits = has_any (S_IMODE (st_mode metadata)) bits).
  { intros bits. apply has_any_imode. }
  rewrite !Himode by done.
  change (negb (negb (has_any ?m S_IRUSR) || has_any ?m special_mode || has_any ?m (Z.lnot allowed_mode))) with (mode_private m).
  destruct (S_ISREG _); cbn [guard_exn mbind result_bind]; [|by split; [|intros [? _]]].
  destruct (Z.eqb_spec (st_uid metadata) euid) as [Hu|Hu]; cbn [guard_exn mbind result_bind]; [|by split; [|intros (_ & ? & _)]].
  fold (mode_private (S_IMODE (st_mode metadata))).
  destruct (mode_private (S_IMODE (st_mode metadata))) eqn:Hm; cbn [guard_exn mbind result_bind].
  2: { split; [done|]. intros (_ & _ & Hin%Hp & _). by rewrite Hin in Hm. }
  specialize (Hr eq_refl). rewrite guard_exn_Ok, orb_true_iff, negb_true_iff, <- not_true_iff_false, Hr.
  split.
  - intros Ho. repeat (split; [done|]). split; [by apply Hp|]. intros H4. destruct Ho as [?|Ho]; [done|].
    destruct expected_gid as [g|]; [|done]. apply Z.eqb_eq in Ho as ->. done.
  - intros (_ & _ & _ & H4). destruct (decide (S_IMODE (st_mode metadata) = 288 \/ S_IMODE (st_mode metadata) = 416)) as [Hd|Hd];
      [right|by left]. rewrite (H4 Hd). by rewrite Z.eqb_refl.
Qed.

(** ** Decoding the secret *)

Lemma fromhex_hex s : Forall (fun b => 0 <= b < 256) s -> fromhex (hex s) = Some s.
Proof.
  induction 1 as [|b s Hb Hs IH]; [done|]. unfold hex in *. cbn [map concat app fromhex].
  assert (Hd : forall n, 0 <= n < 16 -> hex_byte (hex_digit n) = true /\ hex_value (hex_digit n) = n).
  { intros n Hn. assert (Hin : In n (map Z.of_nat (seq 0 16))).
    { apply in_map_iff. exists (Z.to_nat n). split; [lia|]. apply in_seq. lia. }
    clear Hn. revert n Hin. rewrite <- List.Forall_forall. cbn. by repeat constructor. }
  pose proof (Z.div_mod b 16 ltac:(lia)). pose proof (Z.mod_pos_bound b 16 ltac:(lia)).
  assert (0 <= b / 16 < 16) by (split; [apply Z.div_pos; lia|apply Z.div_lt_upper_bound; lia]).
  destruct (Hd (b / 16)) as [K1 V1]; [done|]. destruct (Hd (b mod 16)) as [K2 V2]; [done|].
  rewrite K1, K2, V1, V2, IH. cbn. do 2 f_equal. lia.
Qed.

Lemma hex_byte_lower c : is_lower_hex c = true -> hex_byte c = true.
Proof. unfold is_lower_hex, hex_byte. intros ->. done. Qed.

Lemma fromhex_length t : forall s, fromhex s = Some t -> zlen s = 2 * zlen t.
Proof.
  induction t as [|x t IH]; intros [|a [|b s]]; cbn [fromhex]; try done;
    destruct (hex_byte a && hex_byte b); try done; destruct (fromhex s) as [t'|] eqn:E; try done.
  cbn. intros [= <- <-]. rewrite !zlen_cons, (IH s E). lia.
Qed.

(** A secret is always 32 bytes *)
Lemma decode_secret_length value s : decode_secret_file value = Ok s -> zlen s = 32.
Proof.
  unfold decode_secret_file. destruct (Z.eqb_spec (zlen value) 32); [by intros [= <-]|]. cbn zeta.
  intros (u & Hg%guard_exn_Ok & H)%bind_Ok. apply andb_true_iff in Hg as [Hl%Z.eqb_eq _].
  apply of_option_Ok, fromhex_length in H. lia.
Qed.

(** The accepted forms of the key file: 32 raw bytes, or their 64
    hexadecimal digits with or without a final newline, all decode to the same
    32-byte secret; and whatever is accepted is a secret of 32 bytes. *)
Theorem secret_forms s : Forall (fun b => 0 <= b < 256) s -> zlen s = 32 ->
  decode_secret_file s = Ok s /\ decode_secret_file (hex s) = Ok s /\ decode_secret_file (hex s ++ [10]) = Ok s /\
  (forall value t, decode_secret_file value = Ok t -> zlen t = 32).
Proof.
  intros Hs Hl. destruct (hex_shape s Hs) as [Hlen Hlow].
  assert (Hz : zlen (hex s) = 64) by (unfold zlen in *; lia).
  assert (Hh : forallb hex_byte (hex s) = true).
  { rewrite forallb_forall in Hlow |- *. intros c Hc. by apply hex_byte_lower, Hlow. }
  assert (Hdec : (_ ← guard_exn ((zlen (hex s) =? 64) && forallb hex_byte (hex s)) invalid_key;
                  of_option (fromhex (hex s)) (value_error "non-hexadecimal number found in fromhex() arg")) = Ok s).
  { rewrite Hz, Hh. cbn. by rewrite fromhex_hex. }
  split; [unfold decode_secret_file; by rewrite Hl|]. split; [|split].
  - unfold decode_secret_file. rewrite (proj2 (Z.eqb_neq (zlen (hex s)) 32)) by lia.
    rewrite (proj2 (Z.eqb_neq (zlen (hex s)) 65)) by lia. exact Hdec.
  - unfold decode_secret_file. assert (H65 : zlen (hex s ++ [10]) = 65) by (rewrite zlen_app, Hz; done).
    rewrite H65. cbn [Z.eqb Pos.eqb andb]. unfold endswith. rewrite rev_app_distr. cbn [rev app startswith Z.eqb Pos.eqb andb].
    rewrite removelast_last. exact Hdec.
  - intros value t. apply decode_secret_length.
Qed.

(** ** Reading the file *)

Lemma read_key_ends {E} `{KeySystem E} fuel : forall chunks e,
  (forall n e', fst (key_read n e') <> Raise read_fuel_error) -> 66 - zlen chunks < Z.of_nat fuel -> (1 <= fuel)%nat ->
  fst (read_key fuel chunks e) <> Raise read_fuel_error.
Proof.
  induction fuel as [|k IH]; intros chunks e Hr Hf Hk; [lia|]. cbn [read_key].
  destruct (Z.leb_spec (zlen chunks) MAX_KEY_FILE_SIZE) as [Hle|]; [|done]. unfold MAX_KEY_FILE_SIZE in *.
  destruct (key_read _ e) as [[[|c chunk]|x] e'] eqn:E1; [done| |].
  - apply IH; [done|rewrite zlen_app, zlen_cons; pose proof (zlen_nonneg chunk); lia|lia].
  - cbn. intros [= ->]. apply (Hr (65 + 1 - zlen chunks) e). by rewrite E1.
Qed.

(** Reading the key ends, with at most 67 reads, in a 32-byte secret or
    in an error: a file that grows while it is read is refused. *)
Theorem read_secret_total {E} `{KeySystem E} posix euid expected_gid e :
  (forall n e', fst (key_read n e') <> Raise read_fuel_error) ->
  match fst (read_key 67 [] e) with
  | Ok v => forall s, (_ ← guard_exn (negb (MAX_KEY_FILE_SIZE <? zlen v)) invalid_key; decode_secret_file v) = Ok s -> zlen s = 32
  | Raise x => x <> read_fuel_error
  end /\
  forall s, fst (read_secret_file 67 posix euid expected_gid e) = Ok s -> zlen s = 32.
Proof.
  intros Hr. split.
  - pose proof (read_key_ends 67 [] e Hr ltac:(by vm_compute) ltac:(lia)) as Hend.
    destruct (fst (read_key 67 [] e)) as [v|x]; [|by intros ->].
    intros s (u & _ & H1)%bind_Ok. by eapply decode_secret_length.
  - intros s. unfold read_secret_file. destruct (key_open e) as [[u|x] e1]; [|done].
    destruct (key_fstat e1) as [[m|x] e2]; [|done]. destruct (_ ≫= _) as [u'|x]; [|done].
    destruct (read_key 67 [] e2) as [value e3]. cbn [fst]. intros (v & _ & H1)%bind_Ok.
    apply bind_Ok in H1 as (u2 & _ & H1). by eapply decode_secret_length.
Qed.

(** ** Concrete key files *)

Definition demo_key : bytes := map Z.of_nat (seq 100 32).

Lemma secret_forms_witness : Forall (fun b => 0 <= b < 256) demo_key /\ zlen demo_key = 32 /\
  decode_secret_file (hex demo_key ++ [10]) = Ok demo_key.
Proof.
  assert (H1 : Forall (fun b => 0 <= b < 256) demo_key).
  { apply List.Forall_forall. intros b Hb. vm_compute in Hb. repeat (destruct Hb as [<-|Hb]; [lia|]). destruct Hb. }
  assert (H2 : zlen demo_key = 32) by reflexivity.
  split; [exact H1|]. split; [exact H2|]. apply (secret_forms demo_key H1 H2).
Defined.

Lemma key_file_private_witness : (forall g, Some 987 = Some g -> 0 <= g) /\
  validate_key_metadata true 990 (mkStat 33184 990 987 1 50 65) (Some 987) = Ok tt.
Proof.
  assert (H : forall g, Some 987 = Some g -> 0 <= g) by (intros g [= <-]; lia).
  split; [exact H|]. apply (key_file_private 990 (mkStat 33184 990 987 1 50 65) (Some 987) H).
  split; [reflexivity|]. split; [reflexivity|]. split; [by vm_compute; auto|done].
Defined.
