(* ===== verification/Plans.v ===== *)
(** * Operation plans

    The rows that the approval and the execution of an operation plan share
    ([OperationPlan], [OpsSession], [OpsMessage], [Deployment] of
    backend/app/models.py, the audit log of audit.py), the digest that binds an
    approval to the steps it was given for (services/diagnostics.py), and the
    two decisions of an administrator: [approve_plan] and [reject_plan] of
    api/diagnostics.py. *)
From Stdlib Require Import ZArith Lia Bool String.
From stdpp Require Import prelude gmap.
From S2P Require Import Prelude PyValue Utf8 Sha256 Json Protocol Policy PyTime TaskEngine.
Open Scope Z_scope.

(** ** Rows *)

(** [OperationPlan]: the columns that the modelled code reads or writes.  The
    JSON columns hold what the code writes there: [result_json] an object or
    null, [steps] any JSON value. *)
Record OperationPlan := mkPlan {
  pl_summary : pystr;
  pl_steps : pyval;
  pl_status : pystr;
  pl_approved_by : option pystr;
  pl_approved_at : option datetime;
  pl_result_json : option pydict;
}.

(** [Deployment]: what a deployment step reads *)
Record DeploymentRow := mkDeployment { dp_container_id : option pystr; dp_container_name : option pystr }.

(** [AuditEvent] *)
Record AuditEvent := mkAudit {
  au_actor : pystr;
  au_action : pystr;
  au_resource_type : pystr;
  au_resource_id : option pystr;
  au_outcome : pystr;
  au_details : pydict;
}.

(** The tables: rows by id; of a session its status, of a message its session
    and its plan *)
Record tables := mkTables {
  tb_plans : gmap pystr OperationPlan;
  tb_sessions : gmap pystr pystr;
  tb_messages : list (pystr * option pystr);
  tb_deployments : gmap pystr DeploymentRow;
  tb_tasks : list TaskRecord;
  tb_audit : list AuditEvent;
}.

Definition put_plan (id : pystr) (p : OperationPlan) (d : tables) : tables :=
  mkTables (<[id := p]> (tb_plans d)) (tb_sessions d) (tb_messages d) (tb_deployments d) (tb_tasks d) (tb_audit d).
Definition put_session (id status : pystr) (d : tables) : tables :=
  mkTables (tb_plans d) (<[id := status]> (tb_sessions d)) (tb_messages d) (tb_deployments d) (tb_tasks d) (tb_audit d).
Definition put_tasks (l : list TaskRecord) (d : tables) : tables :=
  mkTables (tb_plans d) (tb_sessions d) (tb_messages d) (tb_deployments d) l (tb_audit d).
(** [record_audit] *)
Definition record_audit (e : AuditEvent) (d : tables) : tables :=
  mkTables (tb_plans d) (tb_sessions d) (tb_messages d) (tb_deployments d) (tb_tasks d) (tb_audit d ++ [e]).

(** A row that is written at the commit must still be there. *)
Definition stale_data : exn := OtherException (str "StaleDataError").

(** What a session writes back of a plan.  The mapper writes a column only when
    its value was changed. *)
Definition write_status (seen written : pystr) (p : OperationPlan) : OperationPlan :=
  mkPlan (pl_summary p) (pl_steps p) (if str_eqb seen written then pl_status p else written) (pl_approved_by p)
    (pl_approved_at p) (pl_result_json p).
Definition write_result (r : pydict) (p : OperationPlan) : OperationPlan :=
  mkPlan (pl_summary p) (pl_steps p) (pl_status p) (pl_approved_by p) (pl_approved_at p) (Some r).
Definition write_approval (by_ : pystr) (at_ : datetime) (p : OperationPlan) : OperationPlan :=
  mkPlan (pl_summary p) (pl_steps p) (pl_status p) (Some by_) (Some at_) (pl_result_json p).

Definition update_plan (id : pystr) (f : OperationPlan -> OperationPlan) (d : tables) : result tables :=
  match tb_plans d !! id with Some p => Ok (put_plan id (f p) d) | None => Raise stale_data end.
Definition update_session (id seen written : pystr) (d : tables) : result tables :=
  match tb_sessions d !! id with
  | Some s => Ok (put_session id (if str_eqb seen written then s else written) d)
  | None => Raise stale_data
  end.

(** The sessions of a plan: [set(select(OpsMessage.session_id).where(...))] *)
Definition plan_sessions (plan_id : pystr) (d : tables) : list pystr :=
  remove_dups (omap (fun m => if bool_decide (snd m = Some plan_id) then Some (fst m) else None) (tb_messages d)).

(** [{**(plan.result_json or {}), ...}] *)
Definition result_with (more : pydict) (p : OperationPlan) : pydict := dict_update (default [] (pl_result_json p)) more.

(** ** The digest *)

Definition steps_invalid : exn := ValueError (str "Operation plan steps are invalid").

(** [operation_plan_digest]; the canonical text is ASCII, so its code points
    are its bytes *)
Definition canonical_steps (steps : pyval) : result pystr :=
  match steps with
  | PList _ =>
      except (dumps (compact true) steps)
        (fun e => match e with TypeError _ => Some (Raise steps_invalid)
                          | _ => if is_ValueError e then Some (Raise steps_invalid) else None end)
  | _ => Raise steps_invalid
  end.
Definition operation_plan_digest (steps : pyval) : result pystr :=
  text ← canonical_steps steps; Ok (hex (sha256 text)).

(** ** The administrator's decisions *)

Definition not_found : exn := HTTPException 404 (str "Operation plan not found").
Definition already (status : pystr) : exn := HTTPException 409 (str "Plan is already " ++ status).

(** The title of the task: the prefix in Chinese, then the summary *)
Definition task_title (summary : pystr) : pystr :=
  [25191; 34892; 35786; 26029; 26041; 26696; 65306] ++ take 80 summary.

(** The part of [create_task] that [approve_plan] depends on besides its
    result: whether the insertion failed, which rolls the session back. *)
Definition create_rolls_back (key : pystr) (task : TaskRecord) (seen held : list TaskRecord) : bool :=
  match with_key key seen with
  | Some _ => false
  | None => insert_conflicts task held
  end.

(** [approve_plan].  [meanwhile] is what other sessions commit between this
    session's first query of the task table and its first write. *)
Definition approve_plan (meanwhile : tables -> tables) (username task_id : pystr) (now : Z) (plan_id : pystr)
    (d : tables) : result TaskRecord * tables :=
  match tb_plans d !! plan_id with
  | None => (Raise not_found, d)
  | Some plan =>
      if negb (str_eqb (pl_status plan) (str "pending")) then (Raise (already (pl_status plan)), d)
      else
        match operation_plan_digest (pl_steps plan) with
        | Raise e =>
            (Raise (if is_ValueError e then HTTPException 409 (str "Operation plan steps are invalid") else e), d)
        | Ok approval_digest =>
            let changes p :=
              write_result (result_with [(str "approval_digest", PStr approval_digest)] plan)
                (write_approval username (utc now) (write_status (pl_status plan) (str "approved") p)) in
            let key := str "operation-plan:" ++ plan_id in
            let input := [(str "plan_id", PStr plan_id)] in
            let title := task_title (pl_summary plan) in
            let d1 := match with_key key (tb_tasks d) with Some _ => d | None => meanwhile d end in
            let '(created, tasks) := create_task (fun _ => tb_tasks (meanwhile d)) task_id (str "operation.execute")
                                       title input (Some key) (now / MICROSECONDS) (tb_tasks d) in
            let lost := create_rolls_back key
                          (new_task task_id (str "operation.execute") title input (Some key) (now / MICROSECONDS))
                          (tb_tasks d) (tb_tasks d1) in
            let event := mkAudit username (str "operation_plan.approve") (str "operation_plan") (Some plan_id)
                           (str "success") [] in
            match created with
            | Raise e => (Raise e, d1)
            | Ok task =>
                if lost then (Ok task, record_audit event d1)
                else match update_plan plan_id changes d1 with
                     | Raise e => (Raise e, d1)
                     | Ok d2 => (Ok task, record_audit event (put_tasks tasks d2))
                     end
            end
        end
  end.

(** [reject_plan] *)
Fixpoint reactivate (ids : list pystr) (d : tables) : tables :=
  match ids with
  | [] => d
  | id :: rest =>
      reactivate rest
        (match tb_sessions d !! id with
         | Some s => if str_eqb s (str "approval_required") then put_session id (str "active") d else d
         | None => d
         end)
  end.

Definition reject_plan (username plan_id : pystr) (d : tables) : result OperationPlan * tables :=
  match tb_plans d !! plan_id with
  | None => (Raise not_found, d)
  | Some plan =>
      if negb (str_eqb (pl_status plan) (str "pending")) then (Raise (already (pl_status plan)), d)
      else
        let rejected := write_status (pl_status plan) (str "rejected") plan in
        let event := mkAudit username (str "operation_plan.reject") (str "operation_plan") (Some plan_id)
                       (str "success") [] in
        (Ok rejected, record_audit event (reactivate (plan_sessions plan_id d) (put_plan plan_id rejected d)))
  end.

(** ** Properties *)

Lemma canonical_steps_Ok steps text : canonical_steps steps = Ok text ->
  exists l, steps = PList l /\ dumps (compact true) steps = Ok text.
Proof.
  unfold canonical_steps. destruct steps as [| | | | |l|]; try done. destruct (dumps _ _) as [t|e]; cbn [except].
  - intros [= ->]. eauto.
  - destruct e; done.
Qed.

(** An approval binds the steps: two lists of steps with the same digest are
    the same up to the order of the keys in their objects, or they are a
    collision of SHA-256.  (For steps whose strings, integers and floats are
    such that their text reads back, as everything decoded from JSON.) *)
Theorem digest_binds_steps a b h : json_value_ok a = true -> json_value_ok b = true ->
  operation_plan_digest a = Ok h -> operation_plan_digest b = Ok h ->
  sort_value a = sort_value b \/ exists x y, x <> y /\ hex (sha256 x) = hex (sha256 y).
Proof.
  intros Ha Hb Da Db. apply bind_Ok in Da as (x & Cx & [= Hx]). apply bind_Ok in Db as (y & Cy & [= Hy]).
  destruct (decide (x = y)) as [<-|]; [left|right; exists x, y; by rewrite Hx, Hy].
  assert (reads : forall v, json_value_ok v = true -> canonical_steps v = Ok x -> loads strict_hooks x = Some (sort_value v)).
  { intros v Hv (l & -> & Hd)%canonical_steps_Ok. unfold dumps in Hd. change (Json.sort_keys (compact true)) with true in Hd.
    cbn iota in Hd. destruct (encodable _ _); [|done].
    assert (x = value_text (compact true) (sort_value (PList l))) as -> by congruence.
    eapply loads_value_text; [apply compact_plain|apply strict_rebuilding|by apply sort_value_ok]. }
  apply reads in Cx, Cy; [congruence|done|done].
Qed.

(** What an approval records.  [approve_plan] succeeds only for a pending plan
    whose steps have a digest; running alone it then leaves the plan approved,
    with the same steps, this administrator, this moment and this digest, every
    other plan as it was, and a task for the plan that is not finished. *)
Theorem approval_recorded username task_id now plan_id d task d' :
  approve_plan (fun d => d) username task_id now plan_id d = (Ok task, d') ->
  exists plan h, tb_plans d !! plan_id = Some plan /\ pl_status plan = str "pending" /\
    operation_plan_digest (pl_steps plan) = Ok h /\
    tb_plans d' = <[plan_id := mkPlan (pl_summary plan) (pl_steps plan) (str "approved") (Some username) (Some (utc now))
      (Some (dict_set (str "approval_digest") (PStr h) (default [] (pl_result_json plan))))]> (tb_plans d) /\
    t_idempotency_key task = Some (str "operation-plan:" ++ plan_id) /\ TaskEngine.is_terminal task = false /\
    In task (tb_tasks d') /\ tb_sessions d' = tb_sessions d.
Proof.
  unfold approve_plan. destruct (tb_plans d !! plan_id) as [plan|] eqn:Hp; [|done].
  destruct (str_eqb_spec (pl_status plan) (str "pending")) as [Hs|]; [|done]. cbn [negb].
  destruct (operation_plan_digest (pl_steps plan)) as [h|e] eqn:Hd; [|by destruct (is_ValueError e)].
  set (key := str "operation-plan:" ++ plan_id). unfold create_task.
  change (usable_key (Some key)) with (Some key). cbn [mbind option_bind].
  set (task0 := new_task task_id _ _ _ _ _). unfold create_rolls_back. rewrite Hs.
  intros Hrun. exists plan, h. split; [done|]. split; [done|]. split; [done|].
  assert (Hkey : forall t, with_key key (tb_tasks d) = Some t -> t_idempotency_key t = Some key /\ In t (tb_tasks d)).
  { intros t [Hin Hk]%find_some. split; [|done]. destruct (t_idempotency_key t); [|done].
    by apply str_eqb_eq in Hk as <-. }
  assert (new : forall d0 tasks, tb_plans d0 = tb_plans d -> tb_sessions d0 = tb_sessions d ->
    forall t, t_idempotency_key t = Some key -> TaskEngine.is_terminal t = false -> In t tasks ->
    match update_plan plan_id (fun p => write_result (result_with [(str "approval_digest", PStr h)] plan)
        (write_approval username (utc now) (write_status (str "pending") (str "approved") p))) d0 with
    | Ok d2 => (Ok t, record_audit (mkAudit username (str "operation_plan.approve") (str "operation_plan") (Some plan_id) (str "success") [])
                 (put_tasks tasks d2))
    | Raise e => (Raise e, d0)
    end = (Ok task, d') ->
    tb_plans d' = <[plan_id := mkPlan (pl_summary plan) (pl_steps plan) (str "approved") (Some username) (Some (utc now))
      (Some (dict_set (str "approval_digest") (PStr h) (default [] (pl_result_json plan))))]> (tb_plans d) /\
    t_idempotency_key task = Some key /\ TaskEngine.is_terminal task = false /\ In task (tb_tasks d') /\ tb_sessions d' = tb_sessions d).
  { intros d0 tasks Hd0 Hses t Htk Htt Hin. unfold update_plan. rewrite Hd0, Hp. intros [= <- <-]. cbn. by rewrite Hd0. }
  destruct (with_key key (tb_tasks d)) as [t|] eqn:Hk.
  - destruct (Hkey t eq_refl) as [Htk Hin]. destruct (TaskEngine.is_terminal t) eqn:Ht; cbn [negb] in Hrun.
    + destruct (insert_conflicts task0 _); [done|]. eapply new; [| | | | |exact Hrun]; try done. apply in_app_iff. by right; left.
    + by eapply new; [| | | | |exact Hrun].
  - destruct (insert_conflicts task0 (tb_tasks d)) eqn:Hc; [done|]. cbn iota in Hrun.
    eapply new; [| | | | |exact Hrun]; try done. apply in_app_iff. by right; left.
Qed.

Definition demo_steps : pyval :=
  PList [PDict [(str "operation", PStr (str "rescan_inventory")); (str "executable", PBool true)]].
Definition demo_plan : OperationPlan := mkPlan (str "Rescan") demo_steps (str "pending") None None (Some []).
Definition demo_tables : tables := mkTables {[ str "p-1" := demo_plan ]} {[ str "s-1" := str "approval_required" ]}
  [(str "s-1", Some (str "p-1"))] ∅ [] [].

Lemma approval_recorded_witness :
  let '(r, d') := approve_plan (fun d => d) (str "admin") (str "t-1") 1719835200000000 (str "p-1") demo_tables in
  exists task plan, r = Ok task /\ In task (tb_tasks d') /\ tb_plans d' !! str "p-1" = Some plan /\
    pl_status plan = str "approved" /\ pl_steps plan = demo_steps.
Proof.
  pose proof (approval_recorded (str "admin") (str "t-1") 1719835200000000 (str "p-1") demo_tables) as Hw.
  destruct (approve_plan _ _ _ _ _ _) as [[task|e] d'] eqn:Hr; [|exfalso; revert Hr; vm_compute; congruence].
  destruct (Hw _ _ eq_refl) as (plan & h & Hp & _ & _ & Hd & _ & _ & Hin & _). exists task. eexists. split; [done|].
  split; [done|]. rewrite Hd, lookup_insert_eq. split; [done|]. split; [done|]. cbn. vm_compute in Hp. by injection Hp as <-.
Defined.

Lemma digest_binds_steps_witness :
  let a := PList [PDict [(str "operation", PStr (str "shell")); (str "timeout", PInt 5)]] in
  let b := PList [PDict [(str "timeout", PInt 5); (str "operation", PStr (str "shell"))]] in
  sort_value a = sort_value b \/ exists x y, x <> y /\ hex (sha256 x) = hex (sha256 y).
Proof.
  cbn zeta. eapply (digest_binds_steps _ _ (match operation_plan_digest
    (PList [PDict [(str "operation", PStr (str "shell")); (str "timeout", PInt 5)]]) with Ok h => h | Raise _ => [] end));
    vm_compute; reflexivity.
Defined.
