(* ===== verification/OpsClient.v ===== *)
(** * The backend's client of the host agent

    [OpsAgentClient] of [backend/app/services/ops_agent.py]: one authenticated
    connection for each call.  The client is a traced program over an interface
    to the clock, the key file and the socket, [Network]; what it sends, and the
    response it reads, is in its trace.  The end of the file composes it with
    the agent (Agent: handle). *)
From Stdlib Require Import ZArith Lia Bool String.
From Stdlib Require Import SpecFloat.
From stdpp Require Import prelude.
From S2P Require Import Prelude PyValue PyFloat Utf8 Sha256 Json Protocol Traced SocketHost KeyFile JobStore Agent.
Open Scope Z_scope.

Definition RESPONSE_FIELDS : list pystr :=
  [str "protocol_version"; str "request_id"; str "ok"; str "result"; str "error"; str "timestamp"; str "signature"].
Definition RESPONSE_SIGNATURE_LENGTH : Z := 64.
Definition MAX_RESPONSE_AGE_SECONDS : Z := 30.
Definition MAX_ERROR_CODE_LENGTH : Z := 128.
Definition MAX_ERROR_MESSAGE_LENGTH : Z := 1024.
Definition REMOTE_ERROR_CODES : list pystr :=
  [str "approval_required"; str "authentication_failed"; str "expired_request"; str "frame_too_large";
   str "invalid_frame"; str "invalid_parameters"; str "invalid_request"; str "job_not_found";
   str "operation_failed"; str "operation_timeout"; str "policy_rejected"; str "read_timeout";
   str "replay_detected"; str "unknown_action"].
Definition MAX_CLIENT_KEY_FILE_SIZE : Z := 65.

(** [_is_remote_error_code] *)
Definition is_remote_error_code (value : pyval) : bool :=
  match value with
  | PStr s => truthy value && (zlen s <=? MAX_ERROR_CODE_LENGTH) && is_ascii s && str_in s REMOTE_ERROR_CODES
  | _ => false
  end.

(** Constructing an [OpsAgentRemoteError]: the exception that results *)
Definition remote_error (code : pyval) : exn :=
  match code with
  | PStr s => if is_remote_error_code code then OpsAgentRemoteError s else OpsAgentProtocolError
  | _ => OpsAgentProtocolError
  end.

Record OpsAgentHealth := mkHealth { health_status : pystr; health_version : Z }.

(** ** Validation of a response *)

(** The items of a dictionary on the stack of [_validate_output_limit]: the new
    total and the new stack, whose head is the end of Python's list *)
Fixpoint scan_items (limit total : Z) (d : pydict) (stack : list pyval) : result (Z * list pyval) :=
  match d with
  | [] => Ok (total, stack)
  | (key, value) :: rest =>
      if str_eqb key (str "output") then
        match value with
        | PStr s =>
            match utf8_encode s with
            | None => Raise OpsAgentProtocolError
            | Some encoded =>
                let total := total + zlen encoded in
                if limit <? total then Raise OpsAgentProtocolError else scan_items limit total rest stack
            end
        | _ => Raise OpsAgentProtocolError
        end
      else scan_items limit total rest (value :: stack)
  end.

Fixpoint output_loop (fuel : nat) (limit total : Z) (stack : list pyval) : result unit :=
  match stack, fuel with
  | [], _ => Ok tt
  | _, O => Raise out_of_fuel
  | current :: rest, S k =>
      match current with
      | PDict d =>
          match scan_items limit total d rest with
          | Raise e => Raise e
          | Ok (total, stack) => output_loop k limit total stack
          end
      | PList l => output_loop k limit total (rev l ++ rest)
      | _ => output_loop k limit total rest
      end
  end.

(** [_validate_output_limit] *)
Definition validate_output_limit (limit : Z) (result : pyval) : Prelude.result unit :=
  if is_none result then Ok tt else output_loop (json_size result) limit 0 [result].

(** [hmac.compare_digest] on strings *)
Definition compare_digest (a b : pystr) : result bool :=
  if is_ascii a && is_ascii b then Ok (str_eqb a b)
  else Raise (TypeError (str "comparing strings with non-ASCII characters is not supported")).

Definition require (b : bool) : result unit := guard_exn b OpsAgentProtocolError.

(** The error of a response whose "ok" is false: what is raised *)
Definition response_error (error : pyval) : exn :=
  match error with
  | PDict d =>
      let code := item d "code" in
      match item d "message" with
      | PStr m =>
          if keys_equal d [str "code"; str "message"] && is_remote_error_code code && truthy (PStr m)
             && (zlen m <=? MAX_ERROR_MESSAGE_LENGTH)
          then remote_error code else OpsAgentProtocolError
      | _ => OpsAgentProtocolError
      end
  | _ => OpsAgentProtocolError
  end.

(** [_validate_response]; [now] is [int(time.time())] *)
Definition validate_response (limit now : Z) (response : pydict) (secret : bytes) (request_id : pystr)
    : result pydict :=
  _ ← require (keys_equal response RESPONSE_FIELDS);
  _ ← require match item response "protocol_version" with PInt n => n =? PROTOCOL_VERSION | _ => false end;
  _ ← require match item response "request_id" with PStr s => str_eqb s request_id | _ => false end;
  _ ← require match item response "timestamp" with
              | PInt t => Z.abs (now - t) <=? MAX_RESPONSE_AGE_SECONDS | _ => false end;
  signature ← of_option (s ← as_str (item response "signature");
                         if zlen s =? RESPONSE_SIGNATURE_LENGTH then Some s else None) OpsAgentProtocolError;
  expected ← except (body ← canonical_bytes (PDict response); Ok (hmac_hexdigest secret body))
               (fun e => if is_ProtocolError e then Some (Raise OpsAgentProtocolError) else None);
  same ← compare_digest signature expected;
  _ ← require same;
  let result := item response "result" in
  let error := item response "error" in
  match item response "ok" with
  | PBool ok =>
      _ ← require (is_none result || match result with PDict _ => true | _ => false end);
      _ ← validate_output_limit limit result;
      if ok then
        match result with
        | PDict d => if is_none error then Ok d else Raise OpsAgentProtocolError
        | _ => Raise OpsAgentProtocolError
        end
      else Raise (response_error error)
  | _ => Raise OpsAgentProtocolError
  end.

(** ** The network and the key file *)
Class Network (N : Type) := {
  (** [monotonic()], [int(time.time())], [secrets.token_hex(16)], [uuid.uuid4()] *)
  net_monotonic : N -> spec_float * N;
  net_time : N -> Z * N;
  net_token : N -> pystr * N;
  net_uuid : N -> pystr * N;
  (** opening the key file and reading so many bytes of it *)
  net_read_key : Z -> N -> result bytes * N;
  (** [_connection_factory], if it is given; whether there is [AF_UNIX] *)
  net_factory : option (N -> result unit * N);
  net_unix : bool;
  net_socket : N -> result unit * N;
  (** [settimeout] and [connect], [send], [recv] *)
  net_connect : spec_float -> N -> result unit * N;
  net_send : spec_float -> bytes -> N -> result Z * N;
  net_recv : spec_float -> Z -> N -> result bytes * N;
  net_close : N -> result unit * N;
}.

(** [_DeadlineReader], with the exception its last [recv] raised *)
Record response_reader (N : Type) := mkReader { rr_net : N; rr_deadline : spec_float; rr_cause : option exn }.
Arguments mkReader {N}.
Arguments rr_net {N}.
Arguments rr_deadline {N}.
Arguments rr_cause {N}.

#[export] Instance response_recv {N} `{Network N} : Reader (response_reader N) := fun size d =>
  let '(now, n) := net_monotonic (rr_net d) in
  let remaining := minus (rr_deadline d) now in
  let '(x, n) := if SFleb remaining (float_of_Z 0)
                 then (Raise (TimeoutError (str "Agent response deadline exceeded")), n)
                 else net_recv remaining size n in
  (x, mkReader n (rr_deadline d) (match x with Raise e => Some e | Ok _ => None end)).

(** The key, read at the first call and then remembered *)
Record key_state := mkKeyState { key_loaded : bool; key_unavailable : bool; key_secret : option bytes }.

Inductive client_event :=
  | CKeyRead
  | CTime (now : Z)
  | COpened
  | CSent (data : bytes)
  | CReceived (response : pydict)
  | CClosed.

Section Client.
Context {N : Type} `{Network N}.
(** [connect_timeout_seconds], [read_timeout_seconds], [output_limit_bytes] *)
Context (connect_timeout read_timeout : spec_float) (output_limit : Z).

Abbreviation prog := (tprogram key_state client_event N).

(** [_read_key_file] on the bytes that were read *)
Definition decode_key (value : bytes) : result bytes :=
  if zlen value =? 32 then Ok value
  else
    let value := if (zlen value =? 65) && endswith [10] value then removelast value else value in
    if negb (zlen value =? 64) || negb (forallb hex_byte value)
    then Raise (ValueError (str "invalid Agent key"))
    else of_option (fromhex value) (ValueError (str "non-hexadecimal number found in fromhex() arg")).

Definition read_key_file : prog bytes :=
  _ ← log CKeyRead;
  value ← ask_result (net_read_key (MAX_CLIENT_KEY_FILE_SIZE + 1));
  lift (decode_key value).

(** [_get_secret] *)
Definition get_secret : prog bytes :=
  s ← get_state;
  _ ← (if key_loaded s then mret tt : prog unit
       else
         x ← attempt read_key_file (fun e => is_OSError e || is_ValueError e);
         update (fun s => match x with
                          | inl v => mkKeyState true (key_unavailable s) (Some v)
                          | inr _ => mkKeyState true true (key_secret s)
                          end));
  s ← get_state;
  match key_secret s with
  | Some v => if key_unavailable s then raise OpsAgentUnavailable else mret v
  | None => raise OpsAgentUnavailable
  end.

(** [except (OSError, TimeoutError): raise OpsAgentUnavailable() from None] *)
Definition unavailable_on_OSError {A} (m : prog A) : prog A :=
  catch m is_OSError (fun _ => raise OpsAgentUnavailable).

(** [_connect] *)
Definition connect (deadline : spec_float) : prog unit :=
  now ← ask net_monotonic;
  let remaining := minus deadline now in
  if SFleb remaining (float_of_Z 0) then raise OpsAgentUnavailable
  else unavailable_on_OSError (ask_result (net_connect (float_min connect_timeout remaining))).

Definition close : prog unit := _ ← ask_result net_close; log CClosed.

(** [_open_connection] *)
Definition open_connection (deadline : spec_float) : prog unit :=
  match net_factory with
  | Some factory => _ ← unavailable_on_OSError (ask_result factory); log COpened
  | None =>
      if negb net_unix then raise OpsAgentUnavailable
      else
        _ ← unavailable_on_OSError (ask_result net_socket);
        _ ← log COpened;
        catch (connect deadline) (fun _ => true) (fun e => _ ← close; raise e)
  end.

(** The loop of [_write] *)
Fixpoint client_write_loop (fuel : nat) (deadline : spec_float) (view : bytes) : prog unit :=
  match view, fuel with
  | [], _ => mret tt
  | _, O => raise out_of_fuel
  | _, S k =>
      now ← ask net_monotonic;
      let remaining := minus deadline now in
      if SFleb remaining (float_of_Z 0) then raise (TimeoutError [])
      else
        count ← ask_result (net_send remaining view);
        if count <=? 0 then raise (OSError (str "Agent connection closed"))
        else
          _ ← log (CSent (take (Z.to_nat count) view));
          client_write_loop k deadline (drop (Z.to_nat count) view)
  end.

(** [_write] *)
Definition client_write (frame : bytes) (deadline : spec_float) : prog unit :=
  unavailable_on_OSError (client_write_loop (length frame) deadline frame).

(** [_read] *)
Definition client_read (deadline : spec_float) : prog pydict :=
  now ← ask net_monotonic;
  if SFleb (minus deadline now) (float_of_Z 0) then raise (TimeoutError [])
  else
    answer ← ask (fun n => let '(x, d) := read_frame (mkReader n deadline None) in ((x, rr_cause d), rr_net d));
    match fst answer with
    | Ok response => _ ← log (CReceived response); mret response
    | Raise e =>
        if is_ProtocolError e
        then raise (match snd answer with
                    | Some cause => if is_OSError cause then OpsAgentUnavailable else OpsAgentProtocolError
                    | None => OpsAgentProtocolError
                    end)
        else raise e
    end.

(** [int(time.time())] *)
Definition read_time : prog Z := now ← ask net_time; _ ← log (CTime now); mret now.

(** The request of a call, its identifier and its frame *)
Definition prepare (clock : Z) (token uuid : pystr) (action : pystr) (parameters : pydict) (approval : option pydict)
    (secret : bytes) : result (pydict * bytes) :=
  except (unsigned ← new_request clock token uuid (PStr action) (PDict parameters) (PDict <$> approval) None None None;
          request ← sign_message (PDict unsigned) secret;
          frame ← encode_frame (PDict request);
          Ok (request, frame))
    (fun e => if is_ProtocolError e then Some (Raise OpsAgentProtocolError) else None).

(** [call] *)
Definition call (action : pystr) (parameters : pydict) (approval : option pydict) (timeout_seconds : option spec_float)
    : prog pydict :=
  let timeout := default read_timeout timeout_seconds in
  start ← ask net_monotonic;
  let deadline := plus start (float_max (float_of_Z 0) timeout) in
  secret ← get_secret;
  clock ← read_time;
  token ← ask net_token;
  uuid ← ask net_uuid;
  prepared ← lift (prepare clock token uuid action parameters approval secret);
  let '(request, frame) := prepared in
  _ ← open_connection deadline;
  response ← finally (_ ← client_write frame deadline; client_read deadline) close;
  now ← read_time;
  lift (validate_response output_limit now response secret
          match item request "request_id" with PStr s => s | _ => [] end).

(** [health] *)
Definition health : prog OpsAgentHealth :=
  result ← call (str "agent.health") [] None None;
  if negb (keys_equal result [str "status"; str "protocol_version"]) then raise OpsAgentProtocolError
  else
    match item result "status", item result "protocol_version" with
    | PStr status, PInt version =>
        if str_eqb status (str "ok") && (version =? PROTOCOL_VERSION) then mret (mkHealth status version)
        else raise OpsAgentProtocolError
    | _, _ => raise OpsAgentProtocolError
    end.

(** [agent_health] of [backend/app/api/ops_agent.py] *)
Definition agent_health : prog pydict :=
  x ← attempt health (fun e => match e with
                               | OpsAgentUnavailable | OpsAgentProtocolError | OpsAgentRemoteError _ => true
                               | _ => false end);
  mret match x with
       | inl h => [(str "status", PStr (str "ok")); (str "protocol_version", PInt (health_version h))]
       | inr OpsAgentUnavailable =>
           [(str "status", PStr (str "unavailable")); (str "detail", PStr (str "Host operations agent is unavailable"))]
       | inr OpsAgentProtocolError =>
           [(str "status", PStr (str "error"));
            (str "detail", PStr (str "Host operations agent returned an invalid response"))]
       | inr _ =>
           [(str "status", PStr (str "error"));
            (str "detail", PStr (str "Host operations agent rejected the health check"))]
       end.
End Client.

(** ** The output limit *)

Definition oadd (a b : option Z) : option Z := x ← a; y ← b; Some (x + y).
Definition osum (l : list (option Z)) : option Z := foldr oadd (Some 0) l.

(** The bytes under all "output" keys of a value; [None] when one of them is
    not a string that can be encoded *)
Fixpoint output_size (v : pyval) : option Z :=
  match v with
  | PList l => osum (map output_size l)
  | PDict d =>
      osum (map (fun p => if str_eqb (fst p) (str "output")
                          then match snd p with PStr s => zlen <$> utf8_encode s | _ => None end
                          else output_size (snd p)) d)
  | _ => Some 0
  end.

Definition within (limit : Z) (o : option Z) : bool := match o with Some t => t <=? limit | None => false end.

Lemma oadd_comm a b : oadd a b = oadd b a.
Proof. destruct a, b; cbn; try done. f_equal. lia. Qed.
Lemma oadd_assoc a b c : oadd a (oadd b c) = oadd (oadd a b) c.
Proof. destruct a, b, c; cbn; try done. f_equal. lia. Qed.
Lemma oadd_0 a : oadd (Some 0) a = a.
Proof. by destruct a. Qed.
Lemma osum_app l k : osum (l ++ k) = oadd (osum l) (osum k).
Proof.
  induction l as [|a l IH]; [symmetry; apply oadd_0|].
  change (oadd a (osum (l ++ k)) = oadd (oadd a (osum l)) (osum k)). by rewrite IH, oadd_assoc.
Qed.
Lemma osum_perm l k : Permutation l k -> osum l = osum k.
Proof.
  induction 1 as [|x l k Hp IH|x y l|]; [done| | |congruence].
  - change (oadd x (osum l) = oadd x (osum k)). by rewrite IH.
  - change (oadd y (oadd x (osum l)) = oadd x (oadd y (osum l))). by rewrite !oadd_assoc, (oadd_comm y).
Qed.
Lemma osum_nonneg l t : (forall a x, In a l -> a = Some x -> 0 <= x) -> osum l = Some t -> 0 <= t.
Proof.
  revert t. induction l as [|a l IH]; intros t Hl; cbn; [intros [= <-]; done|].
  destruct a as [x|]; [|done]. fold (osum l). destruct (osum l) as [y|]; [|done]. cbn. intros [= <-].
  assert (0 <= x) by (eapply Hl; [by left|done]).
  assert (0 <= y) by (apply IH; [intros a z Ha; apply Hl; by right|done]). lia.
Qed.

Lemma output_size_nonneg v t : output_size v = Some t -> 0 <= t.
Proof.
  revert t. induction v as [| | | | |l Hl|d Hd] using pyval_induction; intros t; cbn [output_size]; try by intros [= <-].
  - apply osum_nonneg. intros a x (v & <- & Hv)%in_map_iff. rewrite List.Forall_forall in Hl. by apply Hl.
  - apply osum_nonneg. intros a x (p & <- & Hp)%in_map_iff. rewrite List.Forall_forall in Hd.
    destruct (str_eqb _ _); [|by apply Hd]. destruct (snd p); try done.
    destruct (utf8_encode s); [|done]. intros [= <-]. apply zlen_nonneg.
Qed.

Lemma stack_nonneg stack t : osum (map output_size stack) = Some t -> 0 <= t.
Proof. apply osum_nonneg. intros a x (v & <- & _)%in_map_iff. apply output_size_nonneg. Qed.

Lemma scan_items_spec limit d : forall total stack, 0 <= total <= limit ->
  match scan_items limit total d stack with
  | Raise e => e = OpsAgentProtocolError /\
      within limit (oadd (Some total) (oadd (output_size (PDict d)) (osum (map output_size stack)))) = false
  | Ok (total', stack') => 0 <= total' <= limit /\
      oadd (Some total') (osum (map output_size stack'))
        = oadd (Some total) (oadd (output_size (PDict d)) (osum (map output_size stack))) /\
      (list_sum (map json_size stack') <= list_sum (map (fun p => json_size (snd p)) d) + list_sum (map json_size stack))%nat
  end.
Proof.
  induction d as [|[key value] d IH]; intros total stack Ht; cbn [scan_items].
  { cbn [output_size map osum foldr]. by rewrite oadd_0. }
  change (output_size (PDict ((key, value) :: d)))
    with (oadd (if str_eqb key (str "output") then match value with PStr s => zlen <$> utf8_encode s | _ => None end
                else output_size value) (output_size (PDict d))).
  destruct (str_eqb key (str "output")).
  - destruct value as [| | | |s| |]; try (by rewrite ?oadd_assoc).
    destruct (utf8_encode s) as [b|]; [|done]. cbn [fmap option_fmap option_map].
    pose proof (zlen_nonneg b). destruct (Z.ltb_spec limit (total + zlen b)) as [Hlt|Hle].
    + split; [done|]. destruct (oadd (oadd _ _) _) as [x|] eqn:E; [|done]. cbn. apply Z.leb_gt.
      destruct (output_size (PDict d)) as [y|] eqn:Ey; [|done]. cbn in E.
      destruct (osum (map output_size stack)) as [z|] eqn:Ez; [|done]. cbn in E. injection E as <-.
      apply output_size_nonneg in Ey. apply stack_nonneg in Ez. lia.
    + specialize (IH (total + zlen b) stack). destruct (scan_items _ _ _ _) as [[t' k']|e].
      * destruct IH as (H1 & H2 & H3); [lia|]. split; [done|]. split.
        { rewrite H2, !oadd_assoc. done. }
        cbn [map list_sum foldr snd]. unfold list_sum in *. lia.
      * destruct IH as (-> & H2); [lia|]. split; [done|]. rewrite <- H2, !oadd_assoc. done.
  - specialize (IH total (value :: stack)). cbn [map] in IH. change (osum (?a :: ?l)) with (oadd a (osum l)) in IH.
    assert (E : oadd (Some total) (oadd (output_size (PDict d)) (oadd (output_size value) (osum (map output_size stack))))
      = oadd (Some total) (oadd (oadd (output_size value) (output_size (PDict d))) (osum (map output_size stack)))).
    { f_equal. by rewrite oadd_assoc, (oadd_comm (output_size (PDict d))). }
    rewrite E in IH. destruct (scan_items _ _ _ _) as [[t' k']|e]; [|by apply IH].
    destruct IH as (H1 & H2 & H3); [done|]. split; [done|]. split; [done|].
    cbn [map list_sum foldr snd] in *. unfold list_sum in *. lia.
Qed.

Lemma output_loop_spec limit fuel : forall total stack, 0 <= total <= limit ->
  (list_sum (map json_size stack) <= fuel)%nat ->
  output_loop fuel limit total stack
  = if within limit (oadd (Some total) (osum (map output_size stack))) then Ok tt else Raise OpsAgentProtocolError.
Proof.
  induction fuel as [|k IH]; intros total stack Ht Hf.
  { destruct stack as [|v rest]; [|cbn in Hf; pose proof (json_size_pos v); unfold list_sum in Hf; lia].
    cbn. by rewrite (proj2 (Z.leb_le _ _)) by lia. }
  destruct stack as [|v rest]; [cbn; by rewrite (proj2 (Z.leb_le _ _)) by lia|].
  cbn [output_loop]. cbn [map list_sum foldr] in Hf. change (foldr _ _ (map json_size rest)) with (list_sum (map json_size rest)) in Hf.
  cbn [map]. change (osum (?a :: ?l)) with (oadd a (osum l)).
  assert (simple : json_size v = 1%nat -> output_size v = Some 0 ->
    output_loop k limit total rest = if within limit (oadd (Some total) (oadd (output_size v) (osum (map output_size rest))))
      then Ok tt else Raise OpsAgentProtocolError).
  { intros Hv ->. rewrite oadd_0. apply IH; [done|lia]. }
  destruct v as [| | | | |l|d]; try by apply simple. clear simple.
  - rewrite IH; [|done|]; cycle 1.
    { rewrite map_app, list_sum_app, map_rev, list_sum_rev. cbn [json_size] in Hf. lia. }
    rewrite map_app, osum_app, map_rev, (osum_perm (rev _) (map output_size l)) by (symmetry; apply Permutation_rev).
    done.
  - pose proof (scan_items_spec limit d total rest Ht) as Hs. destruct (scan_items _ _ _ _) as [[t' k']|e].
    + destruct Hs as (H1 & <- & H3). apply IH; [done|]. cbn [json_size] in Hf. lia.
    + destruct Hs as (-> & ->). done.
Qed.

(** The stack of [_validate_output_limit] computes what the recursive reading
    of the limit says. *)
Lemma output_limit_spec limit v : 0 <= limit ->
  validate_output_limit limit v = if within limit (output_size v) then Ok tt else Raise OpsAgentProtocolError.
Proof.
  intros Hl. unfold validate_output_limit. destruct (is_none v) eqn:E.
  - destruct v; try done. cbn. by rewrite (proj2 (Z.leb_le _ _)) by lia.
  - rewrite output_loop_spec; [|lia|cbn; unfold list_sum; cbn; lia].
    cbn [map osum foldr]. destruct (output_size v) as [x|]; [|done]. cbn. by rewrite Z.add_0_r.
Qed.

(** ** Responses that are accepted *)

(** A response that the holder of the secret made, lately, for this request *)
Record authentic_response (now : Z) (secret : bytes) (request_id : pystr) (response : pydict) : Prop := {
  ar_fields : forall k, In k (keys response) <-> In k RESPONSE_FIELDS;
  ar_version : item response "protocol_version" = PInt PROTOCOL_VERSION;
  ar_request : item response "request_id" = PStr request_id;
  ar_fresh : exists t, item response "timestamp" = PInt t /\ Z.abs (now - t) <= MAX_RESPONSE_AGE_SECONDS;
  ar_signature : signed_by secret response;
}.

(** The outcome that the fields of an authentic response say *)
Definition response_outcome (limit : Z) (response : pydict) : result pydict :=
  let result := item response "result" in
  match item response "ok" with
  | PBool ok =>
      if negb (is_none result || match result with PDict _ => true | _ => false end)
         || negb (within limit (output_size result)) then Raise OpsAgentProtocolError
      else if ok then
        match result with
        | PDict d => if is_none (item response "error") then Ok d else Raise OpsAgentProtocolError
        | _ => Raise OpsAgentProtocolError
        end
      else Raise (response_error (item response "error"))
  | _ => Raise OpsAgentProtocolError
  end.

Lemma digest_ascii secret body :
  zlen (hmac_hexdigest secret body) = 64 /\ is_ascii (hmac_hexdigest secret body) = true.
Proof.
  destruct (hmac_hexdigest_shape secret body) as [Hl Hh]. split; [unfold zlen; by rewrite Hl|].
  pose proof (lower_hex_signature _ Hl Hh) as H. unfold is_valid_signature in H. cbn in H.
  destruct (_ && _) eqn:E; [|done]. by split_bools.
Qed.

(** A response is judged by its outcome when it is authentic, and otherwise
    rejected. *)
Lemma validate_response_cases limit now response secret rid : 0 <= limit ->
  authentic_response now secret rid response /\
    validate_response limit now response secret rid = response_outcome limit response \/
  ~ authentic_response now secret rid response /\
    (validate_response limit now response secret rid = Raise OpsAgentProtocolError \/
     exists s m, item response "signature" = PStr s /\ zlen s = RESPONSE_SIGNATURE_LENGTH /\ is_ascii s = false /\
       validate_response limit now response secret rid = Raise (TypeError m)).
Proof.
  intros Hlimit. unfold validate_response.
  assert (reject : forall b, (authentic_response now secret rid response -> b = true) -> b = false -> forall k,
    ~ authentic_response now secret rid response /\
    ((_ ← require b; k) = Raise (A := pydict) OpsAgentProtocolError \/
     exists s m, item response "signature" = PStr s /\ zlen s = RESPONSE_SIGNATURE_LENGTH /\ is_ascii s = false /\
       (_ ← require b; k) = Raise (TypeError m))).
  { intros b Hb -> k. split; [intros Ha; by discriminate (Hb Ha)|by left]. }
  destruct (keys_equal response RESPONSE_FIELDS) eqn:E1;
    [|right; apply reject; [|done]; intros Ha; rewrite <- E1; apply (proj2 (keys_equal_spec _ _)), Ha].
  cbn [require guard_exn mbind result_bind].
  match goal with |- _ /\ (require ?b ≫= _) = _ \/ _ => destruct b eqn:E2 end;
    [|right; apply reject; [|done]; intros Ha; rewrite <- E2; by rewrite (ar_version _ _ _ _ Ha)].
  cbn [require guard_exn mbind result_bind].
  match goal with |- _ /\ (require ?b ≫= _) = _ \/ _ => destruct b eqn:E3 end;
    [|right; apply reject; [|done]; intros Ha; rewrite <- E3; by rewrite (ar_request _ _ _ _ Ha), str_eqb_refl].
  cbn [require guard_exn mbind result_bind].
  match goal with |- _ /\ (require ?b ≫= _) = _ \/ _ => destruct b eqn:E4 end;
    [|right; apply reject; [|done]; intros Ha; rewrite <- E4; destruct (ar_fresh _ _ _ _ Ha) as (t & -> & Ht); by apply Z.leb_le].
  cbn [require guard_exn mbind result_bind].
  set (signature := item response "signature") in *.
  assert (Hsig : forall s body, signature = PStr s -> canonical_bytes (PDict response) = Ok body ->
    authentic_response now secret rid response <-> s = hmac_hexdigest secret body).
  { intros s body Hs Hb. split.
    - intros Ha. destruct (ar_signature _ _ _ _ Ha) as (b & Hb' & Hd). change (signature = PStr (hmac_hexdigest secret b)) in Hd.
      congruence.
    - intros ->. constructor.
      + by apply keys_equal_spec.
      + destruct (item response "protocol_version"); try done. apply Z.eqb_eq in E2. by rewrite E2.
      + destruct (item response "request_id"); try done. apply str_eqb_eq in E3. by rewrite E3.
      + destruct (item response "timestamp"); try done. apply Z.leb_le in E4. eauto.
      + by exists body. }
  assert (Hunsigned : (forall s, signature = PStr s -> zlen s <> RESPONSE_SIGNATURE_LENGTH) ->
    ~ authentic_response now secret rid response).
  { intros Hs Ha. destruct (ar_signature _ _ _ _ Ha) as (b & _ & Hd). apply (Hs _ Hd). apply digest_ascii. }
  destruct (as_str signature) as [s|] eqn:Es; cbn [mbind option_bind].
  2:{ right. split; [|by left]. apply Hunsigned. intros s ->. done. }
  destruct signature; try done. injection Es as ->.
  destruct (Z.eqb_spec (zlen s) RESPONSE_SIGNATURE_LENGTH) as [Hlen|Hlen]; cbn [of_option mbind result_bind].
  2:{ right. split; [|by left]. apply Hunsigned. by intros s' [= <-]. }
  destruct (canonical_bytes (PDict response)) as [body|e] eqn:Eb; cbn [except mbind result_bind].
  2:{ right. split.
      - intros Ha. destruct (ar_signature _ _ _ _ Ha) as (b & Hb & _). congruence.
      - left. unfold canonical_bytes in Eb. cbn [as_dict] in Eb.
        pose proof (tree_dumps_failure (compact true) (PDict (dict_del SIGNATURE response))) as Hf.
        unfold except_json in *. destruct (_ ≫= _) as [|e0]; [done|]. cbn in *. destruct (json_failure e0); cbn in *.
        + by injection Eb as <-.
        + subst e0. injection Eb as <-. done. }
  destruct (digest_ascii secret body) as [_ Hd]. unfold compare_digest. rewrite Hd, andb_true_r.
  destruct (is_ascii s) eqn:Ea; cbn [mbind result_bind].
  2:{ right. split; [|right; eauto 10]. rewrite (Hsig s body) by done. intros ->. congruence. }
  destruct (str_eqb_spec s (hmac_hexdigest secret body)) as [Hs|Hs]; cbn [require guard_exn mbind result_bind].
  2:{ right. split; [|by left]. by rewrite (Hsig s body). }
  left. split; [by apply (Hsig s body)|]. unfold response_outcome.
  destruct (item response "ok"); try done. rewrite output_limit_spec by done.
  destruct (is_none _ || _); [|done]. cbn [require guard_exn mbind result_bind negb orb].
  by destruct (within _ _).
Qed.

(** ** What a call sends and accepts *)

(** The bytes that were given to the socket *)
Definition sent (l : list client_event) : bytes :=
  concat (omap (fun e => match e with CSent b => Some b | _ => None end) l).

Lemma sent_app l k : sent (l ++ k) = sent l ++ sent k.
Proof. unfold sent. by rewrite omap_app, concat_app. Qed.

(** The times that were read *)
Definition readings (l : list client_event) : list Z := omap (fun e => match e with CTime t => Some t | _ => None end) l.

Lemma readings_app l k : readings (l ++ k) = readings l ++ readings k.
Proof. apply omap_app. Qed.

Definition silent_event (e : client_event) : Prop := match e with CSent _ | CTime _ => False | _ => True end.
Abbreviation silent := (Forall silent_event).

Lemma silent_sent l : silent l -> sent l = [].
Proof. unfold sent. induction 1 as [|e l He _ IH]; [done|]. by destruct e. Qed.

Lemma silent_readings l : silent l -> readings l = [].
Proof. unfold readings. induction 1 as [|e l He _ IH]; [done|]. by destruct e. Qed.

Definition any_state : key_state -> key_state -> Prop := fun _ _ => True.
#[export] Instance any_state_preorder : PreOrder any_state.
Proof. by split. Qed.

Section Calls.
Context {N : Type} `{Network N}.
Context (connect_timeout read_timeout : spec_float) (output_limit : Z).
Abbreviation prog := (tprogram key_state client_event N).
Abbreviation call' := (call connect_timeout read_timeout output_limit).

Ltac quiet_log := apply emits_log; by repeat constructor.

Lemma get_secret_silent : emits any_state silent (get_secret (N := N)).
Proof.
  unfold get_secret, read_key_file. apply emits_bind; [auto with emits|]. intros s.
  apply emits_bind.
  - apply emits_if; [auto with emits|]. apply emits_bind; [|intros x; by apply emits_update].
    apply emits_attempt, emits_bind; [quiet_log|]. auto with emits.
  - intros _. apply emits_bind; [auto with emits|]. intros s'.
    destruct (key_secret s'); [apply emits_if|]; auto with emits.
Qed.

Lemma close_silent : emits eq silent (close (N := N)).
Proof. apply emits_bind; [auto with emits|]. intros _. quiet_log. Qed.

Lemma open_silent deadline : emits eq silent (open_connection connect_timeout deadline).
Proof.
  unfold open_connection, connect, unavailable_on_OSError.
  destruct net_factory as [f|].
  - apply emits_bind; [auto with emits|]. intros _. quiet_log.
  - apply emits_if; [auto with emits|]. apply emits_bind; [auto with emits|]. intros _.
    apply emits_bind; [quiet_log|]. intros _. apply emits_catch.
    + apply emits_bind; [auto with emits|]. intros now. apply emits_if; auto with emits.
    + intros e. apply emits_bind; [apply close_silent|auto with emits].
Qed.

Lemma write_loop_sends deadline fuel : forall view w,
  wp (client_write_loop fuel deadline view)
     (fun r w' => state w' = state w /\ exists l, trace w' = trace w ++ l /\ readings l = [] /\
        exists rest, view = sent l ++ rest /\ (r = Ok tt -> rest = [])) w.
Proof.
  assert (none : forall (r : result unit) view (w w' : tworld key_state client_event N), state w' = state w -> trace w' = trace w ->
    (r = Ok tt -> view = []) -> state w' = state w /\ exists l, trace w' = trace w ++ l /\ readings l = [] /\
      exists rest, view = sent l ++ rest /\ (r = Ok tt -> rest = [])).
  { intros r view w w' Hst Ht Hr. split; [done|]. exists []. rewrite app_nil_r. split; [done|]. split; [done|]. by exists view. }
  induction fuel as [|k IH]; intros view w; (destruct view as [|b view]; [by apply wp_ret, none|]); cbn [client_write_loop].
  { by apply none. }
  apply wp_bind, wp_ask. intros now n _. apply wp_if; intros _; [by apply none|].
  apply wp_bind, wp_ask_result. intros [count|e] n' _; [|by apply none].
  apply wp_if; intros Hc; [by apply none|].
  apply wp_bind. unfold wp, log. cbn [fst snd state env trace].
  eapply wp_mono; [|apply IH]. cbn [trace state]. intros r w' (Hst & l & Ht & Hl & rest & Hv & Hr). split; [done|].
  exists (CSent (take (Z.to_nat count) (b :: view)) :: l). rewrite Ht, <- app_assoc. split; [done|]. split; [done|].
  exists rest. split; [|done]. change (sent (CSent ?x :: l)) with (x ++ sent l).
  by rewrite <- app_assoc, <- Hv, take_drop.
Qed.

Lemma read_silent deadline w :
  wp (client_read deadline) (fun r w' => state w' = state w /\ exists l, trace w' = trace w ++ l /\ silent l /\
        forall response, r = Ok response -> In (CReceived response) l) w.
Proof.
  assert (none : forall (e : exn) (w w' : tworld key_state client_event N), state w' = state w -> trace w' = trace w ->
    state w' = state w /\ exists l, trace w' = trace w ++ l /\ silent l /\ forall response, Raise e = Ok response -> In (CReceived response) l).
  { intros e w1 w2 Hst ->. split; [done|]. exists []. by rewrite app_nil_r. }
  unfold client_read. apply wp_bind, wp_ask. intros now n _. apply wp_if; intros _; [by apply none|].
  apply wp_bind, wp_ask. intros [x cause] n' _. cbn [fst snd]. destruct x as [response|e].
  - apply wp_bind. unfold wp, log. cbn. split; [done|]. exists [CReceived response]. split; [done|]. split; [by repeat constructor|].
    intros ? [= <-]. by left.
  - apply wp_if; intros _; by apply none.
Qed.

(** The request of a call has the identifier that the client chose. *)
Lemma prepare_Ok clock token uuid action parameters approval secret request frame :
  prepare clock token uuid action parameters approval secret = Ok (request, frame) ->
  item request "request_id" = PStr uuid /\ encode_frame (PDict request) = Ok frame /\
  exists unsigned, new_request clock token uuid (PStr action) (PDict parameters) (PDict <$> approval) None None None = Ok unsigned /\
    sign_message (PDict unsigned) secret = Ok request.
Proof.
  unfold prepare. destruct (_ ≫= _) as [p|e] eqn:E; [|by cbn; destruct (is_ProtocolError e)]. intros [= ->].
  apply bind_Ok in E as (unsigned & Hu & E). apply bind_Ok in E as (req & Hs & E). apply bind_Ok in E as (fr & Hf & [= -> ->]).
  split; [|split; [done|eauto]].
  assert (Hid : item unsigned "request_id" = PStr uuid).
  { unfold new_request in Hu. inv_ok. destruct a4; reflexivity. }
  apply bind_Ok in Hs as (u & _ & Hs). apply bind_Ok in Hs as (d & [= ->]%of_option_Ok & Hs).
  apply bind_Ok in Hs as (body & _ & [= <-]). unfold item in *. by rewrite dict_get_set_other.
Qed.

(** The key of a client: the one it has loaded, or else what it reads from the
    key file *)
Definition own_key (k : key_state) (secret : bytes) : Prop :=
  key_loaded k = true /\ key_unavailable k = false /\ key_secret k = Some secret \/
  key_loaded k = false /\ exists n n' value, net_read_key (MAX_CLIENT_KEY_FILE_SIZE + 1) n = (Ok value, n') /\ decode_key value = Ok secret.

Lemma get_secret_own w secret w' : get_secret (N := N) w = (Ok secret, w') -> own_key (state w) secret.
Proof.
  unfold get_secret, own_key, mbind, program_bind, get_state. cbn. destruct (key_loaded (state w)) eqn:Hl.
  - cbn. destruct (key_secret (state w)) as [v|]; [|done]. destruct (key_unavailable (state w)); [done|]. intros [= <- _]. by left.
  - unfold attempt, read_key_file, mbind, program_bind, log, ask_result, lift. cbn.
    destruct (net_read_key _ (env w)) as [[value|e] n] eqn:Hr; cbn.
    + destruct (decode_key value) as [v|e] eqn:Hd; cbn.
      * destruct (key_unavailable (state w)); [done|]. intros [= <- _]. right. eauto 10.
      * destruct (is_OSError e || is_ValueError e); [|done]. cbn. by destruct (key_secret (state w)).
    + destruct (is_OSError e || is_ValueError e); [|done]. cbn. by destruct (key_secret (state w)).
Qed.

(** What a call that is given [parameters] may send and accept; [readings] are
    the answers of the clock during the call, and [k] is what the client knew of
    its key when the call began *)
Definition faithful_call (action : pystr) (parameters : pydict) (approval : option pydict) (k : key_state) (r : result pydict)
    (l : list client_event) : Prop :=
  sent l = [] /\ (forall d, r <> Ok d) \/
  exists clock token uuid secret request frame,
    prepare clock token uuid action parameters approval secret = Ok (request, frame) /\
    own_key k secret /\ head (readings l) = Some clock /\
    (exists rest, frame = sent l ++ rest) /\
    forall d, r = Ok d -> sent l = frame /\ exists response now, readings l = [clock; now] /\ In (CReceived response) l /\
      authentic_response now secret uuid response /\ response_outcome output_limit response = Ok d.

(** One quiet step of a program *)
Lemma wp_quiet {A B} (R : key_state -> key_state -> Prop) (m : prog A) (f : A -> prog B) Q w t l0 :
  emits R silent m -> trace w = t ++ l0 ->
  (forall a w' l, m w = (Ok a, w') -> trace w' = t ++ l0 ++ l -> silent l -> wp (f a) Q w') ->
  (forall e w' l, trace w' = t ++ l0 ++ l -> silent l -> Q (Raise e) w') -> wp (m ≫= f) Q w.
Proof.
  intros Hm Ht Hf He. eapply wp_emits_step; [exact Hm| |].
  - intros a w' l Hl Hs Hw. apply (Hf a w' l Hw); [|done]. by rewrite Hl, Ht, <- app_assoc.
  - intros e w' l Hl Hs. apply (He e w' l); [|done]. by rewrite Hl, Ht, <- app_assoc.
Qed.

Lemma wp_read_time {A} (f : Z -> prog A) Q w :
  (forall now w', trace w' = trace w ++ [CTime now] -> wp (f now) Q w') -> wp (read_time ≫= f) Q w.
Proof.
  intros Hf. unfold wp, mbind, program_bind, read_time, mbind, program_bind, ask, log, mret, program_ret.
  destruct (net_time (env w)) as [now n]. cbn. by apply (Hf now (mkWorld _ _ _)).
Qed.

Section Sending.
Context (action : pystr) (parameters : pydict) (approval : option pydict) (k : key_state) (t : list client_event).
Notation post := (fun (r : result pydict) (w' : tworld key_state client_event N) => exists l, trace w' = t ++ l /\ faithful_call action parameters approval k r l).

Lemma nothing_sent e w l : trace w = t ++ l -> silent l -> post (Raise e) w.
Proof. intros Ht Hl. exists l. split; [done|]. left. split; [by apply silent_sent|done]. Qed.

Lemma sending_faithful clock token uuid secret request frame deadline w l0 : 0 <= output_limit ->
  prepare clock token uuid action parameters approval secret = Ok (request, frame) -> own_key k secret ->
  trace w = t ++ l0 -> sent l0 = [] -> readings l0 = [clock] ->
  wp (response ← finally (_ ← client_write frame deadline; client_read deadline) close;
      now ← read_time;
      lift (validate_response output_limit now response secret
              match item request "request_id" with PStr s => s | _ => [] end)) post w.
Proof.
  intros Hlimit Hprep Hkey Hw Hl0 Hc0. destruct (prepare_Ok _ _ _ _ _ _ _ _ _ Hprep) as (Hid & _). rewrite Hid.
  assert (failed : forall e l rest w', trace w' = t ++ l0 ++ l -> frame = sent l ++ rest -> readings l = [] -> post (Raise e) w').
  { intros e l rest w' Ht Hf Hr. exists (l0 ++ l). split; [done|]. right. exists clock, token, uuid, secret, request, frame.
    rewrite sent_app, readings_app, Hl0, Hc0, Hr. split_and!; [done|done|done|eauto|done]. }
  apply wp_bind, wp_finally, wp_bind. unfold client_write, unavailable_on_OSError. apply wp_catch.
  eapply wp_mono; [|apply write_loop_sends]. cbn beta.
  assert (closing : forall (e : exn) (w1 : tworld key_state client_event N) l rest, trace w1 = t ++ l0 ++ l ->
    frame = sent l ++ rest -> readings l = [] ->
    wp close (fun x w2 => match match x with Ok _ => Raise (A := pydict) e | Raise e => Raise e end with
      | Ok a => wp (now ← read_time; lift (validate_response output_limit now a secret uuid)) post w2
      | Raise e => post (Raise e) w2
      end) w1).
  { intros e w1 l rest Ht Hf Hr. eapply wp_mono; [|apply close_silent]. cbn beta. intros x w2 (_ & lc & Htc & Hlc).
    assert (forall e, post (Raise e) w2) as Hfail.
    { intros e'. apply (failed e' (l ++ lc) rest); [by rewrite Htc, Ht, <- !app_assoc| |].
      - by rewrite sent_app, (silent_sent lc Hlc), app_nil_r.
      - by rewrite readings_app, (silent_readings lc Hlc), Hr. }
    destruct x; apply Hfail. }
  intros [[]|e] w1 (_ & l & Ht & Hrl & rest & Hf & Hdone); rewrite Hw, <- app_assoc in Ht.
  - rewrite (Hdone eq_refl), app_nil_r in Hf. clear Hdone.
    eapply wp_mono; [|apply read_silent]. cbn beta. intros x w2 (_ & lr & Htr & Hlr & Hx).
    assert (Ht2 : trace w2 = t ++ l0 ++ (l ++ lr)) by (rewrite Htr, Ht, <- !app_assoc; done).
    assert (Hs2 : sent (l ++ lr) = frame) by (rewrite sent_app, (silent_sent lr), app_nil_r by done; done).
    assert (Hr2 : readings (l ++ lr) = []) by (rewrite readings_app, (silent_readings lr), Hrl by done; done).
    destruct x as [response|e]; [|eapply closing; [done|by rewrite Hs2, app_nil_r|done]].
    eapply wp_mono; [|apply close_silent]. cbn beta. intros x w3 (_ & lc & Htc & Hlc).
    assert (Ht3 : trace w3 = t ++ l0 ++ ((l ++ lr) ++ lc)) by (rewrite Htc, Ht2, <- !app_assoc; done).
    assert (Hs3 : sent ((l ++ lr) ++ lc) = frame) by (rewrite sent_app, (silent_sent lc), app_nil_r by done; done).
    assert (Hr3 : readings ((l ++ lr) ++ lc) = []) by (rewrite readings_app, Hr2, (silent_readings lc) by done; done).
    destruct x as [[]|e]; [|eapply failed; [exact Ht3|by rewrite Hs3, app_nil_r|done]].
    apply wp_read_time. intros now w4 Ht4. apply wp_lift. exists (l0 ++ ((l ++ lr) ++ lc) ++ [CTime now]).
    split; [by rewrite Ht4, Ht3, <- !app_assoc|]. right. exists clock, token, uuid, secret, request, frame.
    rewrite !sent_app, !readings_app, Hl0, Hc0, !app_nil_l. rewrite sent_app in Hs3. rewrite !readings_app in Hr3.
    rewrite sent_app in Hs3. rewrite Hs3, app_nil_r, Hr3. split_and!; [done|done|done|by exists []; rewrite app_nil_r|].
    intros d Hd. split; [done|]. exists response, now. split; [done|].
    destruct (validate_response_cases output_limit now response secret uuid Hlimit) as [[Ha Hv]|[_ [Hv|(? & ? & _ & _ & _ & Hv)]]];
      rewrite Hv in Hd; [|done|done].
    split; [|done]. rewrite !in_app_iff. right. left. left. right. by apply Hx.
  - destruct (is_OSError e); [|by eapply closing]. unfold wp at 1. cbn. by eapply closing.
Qed.
End Sending.

(** A call never sends anything but (a prefix of) the frame of its own request,
    signed with its own key and stamped with its clock, and a result that it
    returns was in an authentic response. *)
Lemma call_is_faithful action parameters approval timeout w : 0 <= output_limit ->
  wp (call' action parameters approval timeout)
     (fun r w' => exists l, trace w' = trace w ++ l /\ faithful_call action parameters approval (state w) r l) w.
Proof.
  intros Hlimit. unfold call. pose proof (nothing_sent action parameters approval (state w) (trace w)) as none.
  apply wp_bind, wp_ask. intros start n _.
  eapply wp_quiet; [apply get_secret_silent|symmetry; apply app_nil_r| |]; [|intros e w2 l Ht Hl; by eapply none].
  intros secret w2 l2 Hkey%get_secret_own Ht2 Hl2. cbn [state] in Hkey. rewrite app_nil_l in Ht2.
  apply wp_read_time. intros clock w3 Ht3. rewrite Ht2, <- app_assoc in Ht3.
  apply wp_bind, wp_ask. intros token n4 _. apply wp_bind, wp_ask. intros uuid n5 _.
  assert (Hs3 : sent (l2 ++ [CTime clock]) = []) by (by rewrite sent_app, (silent_sent l2)).
  assert (Hr3 : readings (l2 ++ [CTime clock]) = [clock]) by (by rewrite readings_app, (silent_readings l2)).
  apply wp_bind, wp_lift. destruct (prepare _ _ _ _ _ _ _) as [[request frame]|e] eqn:Hp.
  - eapply wp_quiet; [apply open_silent|exact Ht3| |].
    + intros _ w6 l6 _ Ht6 Hl6. eapply sending_faithful; [done|exact Hp|done|exact Ht6|by rewrite sent_app, Hs3, silent_sent|
        by rewrite readings_app, Hr3, silent_readings].
    + intros e w6 l6 Ht6 Hl6. eexists. split; [exact Ht6|]. left. split; [by rewrite sent_app, Hs3, silent_sent|done].
  - eexists. split; [exact Ht3|]. by left.
Qed.
End Calls.

(** ** Which exceptions a call raises *)

(** Files and sockets raise [OSError]; closing a socket succeeds. *)
Class NetworkSpec (N : Type) `{Network N} : Prop := {
  key_errors : forall size n e, fst (net_read_key size n) = Raise e -> is_OSError e = true;
  factory_errors : forall f n e, net_factory = Some f -> fst (f n) = Raise e -> is_OSError e = true;
  socket_errors : forall n e, fst (net_socket n) = Raise e -> is_OSError e = true;
  connect_errors : forall t n e, fst (net_connect t n) = Raise e -> is_OSError e = true;
  send_errors : forall t data n e, fst (net_send t data n) = Raise e -> is_OSError e = true;
  recv_errors : forall t size n e, fst (net_recv t size n) = Raise e -> is_OSError e = true;
  close_succeeds : forall n e, fst (net_close n) <> Raise e;
}.

(** The exceptions of [_validate_response] *)
Definition response_exception (e : exn) : Prop :=
  match e with
  | OpsAgentProtocolError | TypeError _ => True
  | OpsAgentRemoteError code => In code REMOTE_ERROR_CODES
  | _ => False
  end.

(** The exceptions of [call]: beside those of the class [OpsAgentError], a
    [TimeoutError] and a [TypeError] *)
Definition call_exception (e : exn) : Prop :=
  e = OpsAgentUnavailable \/ e = TimeoutError [] \/ response_exception e.

Lemma response_error_class error : response_exception (response_error error).
Proof.
  unfold response_error. destruct error as [| | | | | |d]; try done. destruct (item d "message"); try done.
  destruct (_ && _) eqn:E; [|done]. split_bools. unfold remote_error.
  destruct (item d "code") as [| | | |c| |]; try done. destruct (is_remote_error_code (PStr c)) eqn:Ec; [|done].
  cbn in Ec. split_bools. by apply str_in_In.
Qed.

Lemma validate_response_raises limit now response secret rid e : 0 <= limit ->
  validate_response limit now response secret rid = Raise e -> response_exception e.
Proof.
  intros Hl. destruct (validate_response_cases limit now response secret rid Hl)
    as [[_ ->]|[_ [-> |(s & m & _ & _ & _ & ->)]]]; [|by intros [= <-]..].
  unfold response_outcome. destruct (item response "ok") as [|ok| | | | |]; try by intros [= <-].
  destruct (_ || _); [by intros [= <-]|]. destruct ok; [|intros [= <-]; apply response_error_class].
  destruct (item response "result"); try by intros [= <-]. destruct (is_none _); [done|by intros [= <-]].
Qed.

Lemma prepare_raises clock token uuid action parameters approval secret e :
  prepare clock token uuid action parameters approval secret = Raise e -> e = OpsAgentProtocolError.
Proof.
  unfold prepare. destruct (_ ≫= _) as [p|x] eqn:E; [done|]. cbn. destruct (is_ProtocolError x) eqn:Ep; [by intros [= <-]|].
  intros [= <-]. exfalso. apply not_true_iff_false in Ep. apply Ep. clear Ep.
  apply bind_Raise in E as [E|(u & Hu & E)].
  { unfold new_request, validate_timestamp in E. cbn zeta in E. cbn [default as_dict of_option] in E.
    apply bind_Raise in E as [E|(? & _ & E)]; [by eapply bounded_Raise|].
    apply bind_Raise in E as [E|(? & _ & E)]; [done|].
    apply bind_Raise in E as [E|(? & _ & E)]; [by eapply bounded_int_Raise|].
    apply bind_Raise in E as [E|(? & _ & E)]; [by eapply bounded_Raise|].
    apply bind_Raise in E as [E|(? & _ & E)]; [by eapply bounded_Raise|].
    apply bind_Raise in E as [E|(? & _ & E)]; [by destruct approval|done]. }
  apply bind_Raise in E as [E|(req & Hr & E)].
  { unfold sign_message, validate_secret in E. apply bind_Raise in E as [[_ <-]%guard_exn_Raise|(? & _ & E)]; [done|].
    cbn [as_dict of_option mbind result_bind] in E. apply bind_Raise in E as [E|(? & _ & E)]; [|done].
    by rewrite (canonical_bytes_Raise _ _ E). }
  apply bind_Raise in E as [E|(? & _ & E)]; [|done].
  unfold encode_frame in E. apply bind_Raise in E as [E|(? & _ & E)]; [|done].
  unfold json_payload in E. cbn [as_dict] in E. apply bind_Raise in E as [E|(? & _ & E)].
  - pose proof (tree_dumps_failure (compact false) (PDict req)) as Hf. unfold except_json in *.
    destruct (_ ≫= _) as [|e0]; [done|]. cbn in *. destruct (json_failure e0); cbn in *; [by injection E as <-|].
    subst e0. by injection E as <-.
  - destruct (_ <? _); [by injection E as <-|done].
Qed.

Section Errors.
Context {N : Type} `{NetworkSpec N}.
Context (connect_timeout read_timeout : spec_float) (output_limit : Z).
Abbreviation prog := (tprogram key_state client_event N).

Lemma decode_key_errors value e : decode_key value = Raise e -> is_ValueError e = true.
Proof.
  unfold decode_key. destruct (_ =? 32); [done|]. cbn zeta. destruct (_ || _); [by intros [= <-]|].
  destruct (fromhex _); [done|by intros [= <-]].
Qed.

Lemma get_secret_raises : raises (fun e => e = OpsAgentUnavailable) (get_secret (N := N)).
Proof.
  unfold get_secret. apply raises_bind; [auto with raises|]. intros s. apply raises_bind.
  - apply raises_if; [auto with raises|]. apply raises_bind; [|auto with raises].
    apply (raises_attempt _ (fun e => is_OSError e || is_ValueError e = true)); [|congruence].
    unfold read_key_file. apply raises_bind; [auto with raises|]. intros _. apply raises_bind.
    + apply raises_ask_result. intros x e He. by rewrite (key_errors _ _ _ He).
    + intros value. apply raises_lift. intros e He%decode_key_errors. by rewrite He, orb_true_r.
  - intros _. apply raises_bind; [auto with raises|]. intros s'. destruct (key_secret s'); auto with raises.
Qed.

Lemma unavailable_raises {A} (m : prog A) : raises (fun e => is_OSError e = true) m ->
  raises (fun e => e = OpsAgentUnavailable) (unavailable_on_OSError m).
Proof. intros Hm. eapply raises_catch; [exact Hm|congruence|]. intros e _ _. by apply raises_raise. Qed.

Lemma close_raises (P : exn -> Prop) : raises P (close (N := N)).
Proof.
  apply raises_bind; [|auto with raises]. apply raises_ask_result. intros n e He. by apply close_succeeds in He.
Qed.

Lemma open_raises deadline : raises (fun e => e = OpsAgentUnavailable) (open_connection connect_timeout deadline).
Proof.
  unfold open_connection. destruct net_factory as [f|] eqn:Ef.
  - apply raises_bind; [|auto with raises]. apply unavailable_raises, raises_ask_result.
    intros n e He. by eapply factory_errors.
  - apply raises_if; [by apply raises_raise|]. apply raises_bind.
    { apply unavailable_raises, raises_ask_result, socket_errors. }
    intros _. apply raises_bind; [auto with raises|]. intros _.
    apply (raises_catch _ (fun e => e = OpsAgentUnavailable)); [|done|].
    + unfold connect. apply raises_bind; [auto with raises|]. intros now. apply raises_if; [by apply raises_raise|].
      apply unavailable_raises, raises_ask_result. intros n e He. by eapply connect_errors.
    + intros e -> _. apply raises_bind; [apply close_raises|]. intros _. by apply raises_raise.
Qed.

Lemma write_loop_raises deadline fuel : forall view, (length view <= fuel)%nat ->
  raises (fun e => is_OSError e = true) (client_write_loop fuel deadline view).
Proof.
  induction fuel as [|k IH]; intros view Hf; (destruct view as [|b view]; [by apply raises_ret|]); [cbn in Hf; lia|].
  cbn [client_write_loop]. apply raises_bind; [auto with raises|]. intros now.
  apply raises_if; [by apply raises_raise|]. apply raises_bind.
  { apply raises_ask_result. intros n e He. by eapply send_errors. }
  intros count. destruct (Z.leb_spec count 0); [by apply raises_raise|].
  apply raises_bind; [auto with raises|]. intros _. apply IH. rewrite length_drop. cbn in *. lia.
Qed.

Lemma read_raises deadline : raises call_exception (client_read (N := N) deadline).
Proof.
  unfold client_read. apply raises_bind; [auto with raises|]. intros now.
  apply raises_if; [apply raises_raise; unfold call_exception; auto|].
  intros w. unfold mbind at 1, program_bind, ask.
  pose proof (read_frame_errors (R := response_reader N)) as Hr.
  assert (Herr : forall n (r : response_reader N) e, fst (recv n r) = Raise e -> is_OSError e || is_ValueError e = true).
  { intros n r e. unfold recv, response_recv. destruct (net_monotonic _) as [t x].
    destruct (SFleb _ _); [by intros [= <-]|].
    destruct (net_recv _ n x) as [[y|y] x'] eqn:E; [done|]. cbn. intros [= <-].
    by rewrite (recv_errors (minus (rr_deadline r) t) n x y) by by rewrite E. }
  specialize (Hr Herr (mkReader (env w) deadline None)).
  destruct (read_frame (mkReader (env w) deadline None)) as [[response|e] d]; cbn [fst snd] in *; [done|].
  rewrite Hr. cbn. unfold call_exception. destruct (rr_cause d) as [c|]; [destruct (is_OSError c)|]; cbn; auto.
Qed.

Lemma call_raises_only action parameters approval timeout : 0 <= output_limit ->
  raises call_exception (call connect_timeout read_timeout output_limit action parameters approval timeout).
Proof.
  intros Hl. assert (unavail : forall e, e = OpsAgentUnavailable -> call_exception e) by (intros e ->; by left).
  assert (protocol : call_exception OpsAgentProtocolError) by (right; by right).
  unfold call. apply raises_bind; [auto with raises|]. intros start.
  apply raises_bind; [eapply raises_mono; [exact unavail|apply get_secret_raises]|]. intros secret.
  do 3 (apply raises_bind; [unfold read_time; auto with raises|]; intros ?).
  apply raises_bind; [apply raises_lift; intros e ->%prepare_raises; done|]. intros [request frame].
  apply raises_bind; [eapply raises_mono; [exact unavail|apply open_raises]|]. intros _.
  apply raises_bind.
  - apply raises_finally; [|apply close_raises]. apply raises_bind; [|intros _; apply read_raises].
    eapply raises_mono; [exact unavail|]. by apply unavailable_raises, write_loop_raises.
  - intros response. apply raises_bind; [unfold read_time; auto with raises|]. intros now. apply raises_lift.
    intros e He%validate_response_raises; [|done]. right. by right.
Qed.
End Errors.

(** ** The client and the agent *)

(** The response fields that the agent signs are authentic to the client. *)
Lemma agent_response_authentic secret rid result error now later resp :
  MIN_SECRET_SIZE <= zlen secret -> Z.abs (later - now) <= MAX_RESPONSE_AGE_SECONDS ->
  signed_by secret resp -> dict_del SIGNATURE resp = response_fields (PStr rid) result error now ->
  authentic_response later secret rid resp /\
  forall key, key <> "signature"%string -> item resp key = item (response_fields (PStr rid) result error now) key.
Proof.
  intros Hs Hnow Hsigned Hf.
  assert (Hget : forall key, key <> "signature"%string ->
    item resp key = item (response_fields (PStr rid) result error now) key).
  { intros key Hk. unfold item, get_or_none. rewrite <- Hf, dict_get_del_ne; [done|]. intros E%str_inj. done. }
  split; [|exact Hget]. constructor.
  - intros k. destruct Hsigned as (body & _ & Hd).
    assert (Hsig : In SIGNATURE (keys resp)).
    { apply dict_get_keys. unfold get_or_none in Hd. by destruct (dict_get SIGNATURE resp). }
    destruct (str_eqb_spec k SIGNATURE) as [->|Hk].
    + split; [|done]. intros _. by do 6 right; left.
    + rewrite <- !dict_get_keys, <- (dict_get_del_ne k SIGNATURE resp Hk), Hf, dict_get_keys. cbn. clear -Hk.
      unfold SIGNATURE in Hk. naive_solver.
  - by rewrite Hget.
  - by rewrite Hget.
  - exists now. by rewrite Hget.
  - done.
Qed.

Definition dispatch_error_codes : list pystr :=
  [str "unknown_action"; str "approval_required"; str "policy_rejected"; str "operation_timeout";
   str "job_not_found"; str "invalid_parameters"; str "operation_failed"].

(** The error of a failed action is one that the client reports. *)
Lemma dispatch_error_reported e limit : 0 <= limit ->
  let '(res, (code, detail)) := dispatch_error e in
  In code dispatch_error_codes /\
  within limit (output_size (opt_dict res)) = true /\
  response_error (error_value (Some (code, detail))) = OpsAgentRemoteError code.
Proof.
  intros Hl. unfold dispatch_error.
  assert (H0 : within limit (Some 0) = true) by by apply Z.leb_le.
  assert (H1 : forall jid, within limit (output_size (opt_dict (Some [(job_id_key, PStr jid)]))) = true) by done.
  assert (H2 : within limit (output_size (opt_dict None)) = true) by done.
  assert (Hin : forall c, str_in c dispatch_error_codes = true -> In c dispatch_error_codes) by (intros c; apply str_in_In).
  destruct e; try destruct (is_ValueError _); (split; [by apply Hin|]); (split; [first [apply H1|apply H2]|]);
    vm_compute; reflexivity.
Qed.

Lemma response_outcome_fields limit resp rid result error now :
  (forall key, key <> "signature"%string -> item resp key = item (response_fields (PStr rid) result error now) key) ->
  response_outcome limit resp
  = if within limit (output_size (opt_dict result)) then
      match error with
      | None => match result with Some d => Ok d | None => Raise OpsAgentProtocolError end
      | Some _ => Raise (response_error (error_value error))
      end
    else Raise OpsAgentProtocolError.
Proof.
  intros Hget. unfold response_outcome. rewrite !Hget by done.
  change (item (response_fields (PStr rid) result error now) "ok")
    with (PBool (match error with None => true | Some _ => false end)).
  change (item (response_fields (PStr rid) result error now) "result") with (opt_dict result).
  change (item (response_fields (PStr rid) result error now) "error") with (error_value error).
  assert (is_none (opt_dict result) || match opt_dict result with PDict _ => true | _ => false end = true) as ->
    by by destruct result.
  cbn [negb orb]. destruct (within _ _); [|done]. cbn [negb].
  destruct error as [[code detail]|]; [done|]. by destruct result.
Qed.

(** ** Properties *)

(** C7.  A call never sends anything but (a prefix of) the frame of its own
    request, stamped with the time it read first and signed with its own key
    (the one it had loaded, or the one in the key file); and when it returns a
    result, it has sent the whole frame and has read a response that the holder
    of this key signed for this very request, at most thirty seconds away from
    the only other time that it read, and whose "result" is what it returns. *)
Theorem call_faithful {N} `{Network N} connect_timeout read_timeout output_limit action parameters approval timeout
    (w : tworld key_state client_event N) : 0 <= output_limit ->
  wp (call connect_timeout read_timeout output_limit action parameters approval timeout)
     (fun r w' => exists l, trace w' = trace w ++ l /\
        faithful_call output_limit action parameters approval (state w) r l) w.
Proof. apply call_is_faithful. Qed.

(** The exceptions of a call.  Files and sockets that raise [OSError] make it
    raise [OpsAgentUnavailable], [OpsAgentProtocolError] or an
    [OpsAgentRemoteError] with one of the fourteen codes, but also two
    exceptions that are not of the class [OpsAgentError]: a [TimeoutError],
    which it does raise when the deadline passes between writing and reading,
    and a [TypeError], which it does raise for a signature of 64 characters
    that are not all ASCII. *)
Theorem call_errors {N} `{NetworkSpec N} connect_timeout read_timeout output_limit action parameters approval timeout :
  0 <= output_limit ->
  raises (S := key_state) (Ev := client_event) (E := N) call_exception
    (call connect_timeout read_timeout output_limit action parameters approval timeout) /\
  (forall deadline (w : tworld key_state client_event N),
     SFleb (minus deadline (fst (net_monotonic (env w)))) (float_of_Z 0) = true ->
     fst (client_read deadline w) = Raise (TimeoutError [])) /\
  (forall now response body secret s rid, authentic_response now secret rid (dict_set SIGNATURE (PStr (hmac_hexdigest secret body)) response) ->
     canonical_bytes (PDict response) = Ok body -> zlen s = RESPONSE_SIGNATURE_LENGTH -> is_ascii s = false ->
     exists m, validate_response output_limit now (dict_set SIGNATURE (PStr s) response) secret rid = Raise (TypeError m)).
Proof.
  intros Hl. split; [by apply call_raises_only|]. split.
  { intros deadline w Hlate. unfold client_read, mbind, program_bind, ask. destruct (net_monotonic (env w)) as [now n].
    cbn in *. by rewrite Hlate. }
  intros now response body secret s rid Ha Hb Hlen Hs.
  assert (Hget : forall key, key <> "signature"%string ->
    item (dict_set SIGNATURE (PStr s) response) key = item (dict_set SIGNATURE (PStr (hmac_hexdigest secret body)) response) key).
  { intros key Hk. unfold item. rewrite !dict_get_set_other; [done|apply str_eqb_neq; intros E%str_inj; done..]. }
  assert (Hkeys : forall k v v', In k (keys (dict_set SIGNATURE v response)) -> In k (keys (dict_set SIGNATURE v' response)) ).
  { intros k v v'. rewrite !keys_dict_set. done. }
  unfold validate_response.
  rewrite (proj2 (keys_equal_spec _ _)); [|intros k; rewrite <- (ar_fields _ _ _ _ Ha); split; apply Hkeys].
  cbn [require guard_exn mbind result_bind].
  rewrite (Hget "protocol_version"%string), (Hget "request_id"%string), (Hget "timestamp"%string) by done.
  rewrite (ar_version _ _ _ _ Ha), (ar_request _ _ _ _ Ha).
  destruct (ar_fresh _ _ _ _ Ha) as (t & -> & Ht). rewrite Z.eqb_refl, str_eqb_refl, (proj2 (Z.leb_le _ _) Ht).
  cbn [require guard_exn mbind result_bind].
  assert (item (dict_set SIGNATURE (PStr s) response) "signature" = PStr s) as ->.
  { unfold item, get_or_none. change (str "signature") with SIGNATURE. by rewrite dict_get_set_eq. }
  cbn [as_str mbind option_bind of_option result_bind]. rewrite (proj2 (Z.eqb_eq _ _) Hlen).
  cbn [of_option mbind result_bind].
  assert (canonical_bytes (PDict (dict_set SIGNATURE (PStr s) response)) = Ok body) as ->.
  { rewrite <- Hb. unfold canonical_bytes. cbn [as_dict]. by rewrite dict_del_set_any. }
  cbn [except mbind result_bind]. unfold compare_digest. rewrite Hs. cbn. by eexists.
Qed.

(** The client and the agent agree: the request that a call builds and signs
    is accepted by an agent with the same secret, a clock at most thirty seconds
    away and a nonce cache that has room and does not hold the nonce; the agent
    dispatches exactly the request that was built, and the call returns exactly
    what the action returned (if its output is within the limit), or raises
    [OpsAgentRemoteError] with exactly the code of its failure. *)
Theorem remote_call_agrees {R} `{JobServiceSpec R} fuel limit clock token uuid action parameters approval secret
    unsigned signed (a : agent R) later :
  new_request clock token uuid action parameters approval None None None = Ok unsigned ->
  sign_message (PDict unsigned) secret = Ok signed -> 0 <= limit ->
  let '(now, r) := svc_clock (service a) in
  Z.abs (now - clock) <= DEFAULT_MAX_AGE -> Z.abs (later - now) <= MAX_RESPONSE_AGE_SECONDS ->
  dict_mem token (entries (drop_expired now (nonces a))) = false ->
  zlen (entries (drop_expired now (nonces a))) < max_entries (nonces a) ->
  exists resp, fst (handle fuel secret (PDict signed) a) = Ok resp /\
    validate_response limit later resp secret uuid
    = match fst (dispatch fuel now unsigned r) with
      | Ok d => if within limit (output_size (PDict d)) then Ok d else Raise OpsAgentProtocolError
      | Raise e => Raise (OpsAgentRemoteError (fst (snd (dispatch_error e))))
      end.
Proof.
  intros Hreq Hsign Hlimit. pose proof (clock_range (service a)) as Hclock.
  assert (Hsec : MIN_SECRET_SIZE <= zlen secret).
  { unfold sign_message, validate_secret in Hsign. apply bind_Ok in Hsign as (u & Hs%guard_exn_Ok & _). by apply Z.leb_le. }
  pose proof (handle_answer fuel secret (PDict signed) a Hsec) as Hans.
  destruct (svc_clock (service a)) as [now r]. cbn [fst] in Hclock. intros Hn Hlater Hfresh Hroom.
  assert (Hitems : item unsigned "request_id" = PStr uuid /\ item unsigned "nonce" = PStr token /\
    item unsigned "timestamp" = PInt clock).
  { unfold new_request in Hreq. inv_ok. destruct a5; split_and!; reflexivity. }
  destruct Hitems as (Hid & Htoken & Htime).
  assert (Hage : 0 <= DEFAULT_MAX_AGE <= MAX_AGE) by (unfold DEFAULT_MAX_AGE, MAX_AGE; lia).
  assert (Hwin : now - DEFAULT_MAX_AGE <= clock <= now + DEFAULT_MAX_AGE) by lia.
  destruct (sign_then_verify _ _ _ _ _ _ _ _ _ unsigned secret signed now DEFAULT_MAX_AGE (nonces a) token clock
    Hreq Hsign Htoken Htime Hclock Hage Hwin Hfresh Hroom) as (c' & Hv).
  destruct Hans as (resp & Hresp & Hsigned & Hfields). exists resp. split; [done|].
  rewrite Hv in Hfields. cbn [fst] in Hfields. change (Policy.item unsigned "request_id") with (item unsigned "request_id") in Hfields.
  rewrite Hid in Hfields.
  destruct (fst (dispatch fuel now unsigned r)) as [d|e];
    destruct (agent_response_authentic secret uuid _ _ now later resp Hsec Hlater Hsigned Hfields) as [Ha Hget];
    (destruct (validate_response_cases limit later resp secret uuid Hlimit) as [[_ ->]|[Hna _]]; [|done]);
    rewrite (response_outcome_fields limit resp _ _ _ _ Hget).
  - done.
  - pose proof (dispatch_error_reported e limit Hlimit) as He. destruct (dispatch_error e) as [res [code detail]].
    destruct He as (_ & Hw & He). cbn [fst snd]. by rewrite Hw, He.
Qed.

(** The agent's refusals never reach the caller: a response to a message that
    the agent did not accept names no request, so that no call accepts it,
    whatever its time and its request, although seven of the codes that the
    client knows ("authentication_failed", "replay_detected" and so on) are only
    sent in such responses; an accepted request is answered with one of the
    seven other codes. *)
Theorem refusals_unreadable {R} `{JobServiceSpec R} fuel secret message (a : agent R) :
  MIN_SECRET_SIZE <= zlen secret ->
  let '(now, r) := svc_clock (service a) in
  (forall e, fst (verify_message message secret (PInt now) (PInt DEFAULT_MAX_AGE) (nonces a)) = Raise e ->
     exists resp, fst (handle fuel secret message a) = Ok resp /\ signed_by secret resp /\
       forall limit later rid, 0 <= limit -> validate_response limit later resp secret rid = Raise OpsAgentProtocolError) /\
  (forall e, In (fst (snd (dispatch_error e))) dispatch_error_codes).
Proof.
  intros Hs. pose proof (handle_answer fuel secret message a Hs) as Hans.
  destruct (svc_clock (service a)) as [now r]. split.
  - intros e He. rewrite He in Hans. destruct Hans as (resp & Hresp & Hsigned & Hfields).
    exists resp. split; [done|]. split; [done|]. intros limit later rid Hlimit.
    destruct (validate_response_cases limit later resp secret rid Hlimit) as [[Ha _]|[_ [Hv|(s & m & Hsig & _ & Hascii & _)]]].
    + exfalso. pose proof (ar_request _ _ _ _ Ha) as Hid. unfold item, get_or_none in Hid.
      rewrite <- (dict_get_del_ne (str "request_id") SIGNATURE resp) in Hid by (intros E%str_inj; done).
      by rewrite Hfields in Hid.
    + done.
    + exfalso. destruct Hsigned as (body & _ & Hd). change (item resp "signature" = PStr (hmac_hexdigest secret body)) in Hd.
      rewrite Hd in Hsig. injection Hsig as <-. by rewrite (proj2 (digest_ascii secret body)) in Hascii.
  - intros e. pose proof (dispatch_error_reported e 0 ltac:(lia)) as He.
    destruct (dispatch_error e) as [res [code detail]]. apply He.
Qed.

(** The client and the agent accept the same key files, and read the same
    secret from them. *)
Theorem key_files_agree value s : decode_key value = Ok s <-> decode_secret_file value = Ok s.
Proof.
  unfold decode_key, decode_secret_file. destruct (zlen value =? 32); [done|]. cbn zeta.
  generalize (if (zlen value =? 65) && endswith [10] value then removelast value else value). intros v. destruct (zlen v =? 64), (forallb hex_byte v); cbn [negb orb andb guard_exn mbind result_bind];
    try done; by rewrite ?of_option_Ok.
Qed.

(** The explicit stack of the output limit computes what the recursive reading
    of the limit says: a result passes exactly when all its "output" values are
    strings that can be encoded and their bytes together are within the limit. *)
Theorem output_limit_exact limit v : 0 <= limit ->
  validate_output_limit limit v = Ok tt <-> exists t, output_size v = Some t /\ t <= limit.
Proof.
  intros Hl. rewrite output_limit_spec by done. destruct (output_size v) as [t|]; cbn.
  - destruct (Z.leb_spec t limit); split; eauto; [done|]. intros (t' & [= <-] & ?). lia.
  - split; [done|]. by intros (t & ? & _).
Qed.

(** ** Witnesses *)

(** A network whose clock moves one second at each reading; nothing is sent. *)
#[export] Instance demo_network : Network nat := {|
  net_monotonic n := (float_of_Z (Z.of_nat n), S n);
  net_time n := (1000, n);
  net_token n := (str "n-1", n);
  net_uuid n := (str "r-1", n);
  net_read_key _ n := (Ok Protocol.demo_secret, n);
  net_factory := None;
  net_unix := true;
  net_socket n := (Ok tt, n);
  net_connect _ n := (Ok tt, n);
  net_send _ _ n := (Raise (OSError []), n);
  net_recv _ _ n := (Ok [], n);
  net_close n := (Ok tt, n);
|}.

#[export] Instance demo_network_spec : NetworkSpec nat.
Proof. split; try done. by intros t data n e [= <-]. Qed.

Definition demo_world : tworld key_state client_event nat := mkWorld (mkKeyState false false None) 0%nat [].

(** A network that answers with the response of an agent that has the same key *)
Record replay := mkReplay { rp_pending : bytes }.

#[export] Instance replay_network : Network replay := {|
  net_monotonic n := (float_of_Z 0, n);
  net_time n := (1000, n);
  net_token n := (str "n-1", n);
  net_uuid n := (str "r-1", n);
  net_read_key _ n := (Ok Protocol.demo_secret, n);
  net_factory := None;
  net_unix := true;
  net_socket n := (Ok tt, n);
  net_connect _ n := (Ok tt, n);
  net_send _ view n := (Ok (zlen view), n);
  net_recv _ size n := (Ok (take (Z.to_nat size) (rp_pending n)), mkReplay (drop (Z.to_nat size) (rp_pending n)));
  net_close n := (Ok tt, n);
|}.

Definition demo_reply : bytes :=
  match (prepared ← prepare 1000 (str "n-1") (str "r-1") (str "agent.health") [] None Protocol.demo_secret;
         resp ← fst (handle 10 Protocol.demo_secret (PDict (fst prepared)) (mkAgent demo_cache 0%nat));
         encode_frame (PDict resp)) with
  | Ok frame => frame
  | Raise _ => []
  end.
Definition replay_world : tworld key_state client_event replay := mkWorld (mkKeyState false false None) (mkReplay demo_reply) [].

Lemma call_faithful_witness : 0 <= 1000000 /\ exists d w',
  call (float_of_Z 3) (float_of_Z 30) 1000000 (str "agent.health") [] None None replay_world = (Ok d, w') /\
  readings (trace w') = [1000; 1000] /\
  exists response, In (CReceived response) (trace w') /\ response_outcome 1000000 response = Ok d.
Proof.
  split; [lia|].
  pose proof (call_faithful (float_of_Z 3) (float_of_Z 30) 1000000 (str "agent.health") [] None None replay_world ltac:(lia)) as Hf.
  unfold wp in Hf.
  set (run := call _ _ _ _ _ _ _ replay_world) in *.
  assert (Hrun : match run with (Ok d, w') => readings (trace w') = [1000; 1000] | _ => False end) by (vm_compute; reflexivity).
  clearbody run. destruct run as [[d|e] w']; [|destruct Hrun]. exists d, w'. split; [reflexivity|]. split; [exact Hrun|]. cbn [fst snd] in Hf.
  destruct Hf as (l & Ht & [[_ Hnone]|(? & ? & ? & ? & ? & ? & _ & _ & _ & _ & Hd)]); [by destruct (Hnone d)|].
  destruct (Hd d eq_refl) as (_ & response & now & _ & Hin & _ & Ho). change (trace w' = l) in Ht. rewrite Ht. exists response. by split.
Defined.

Lemma call_errors_witness : 0 <= 1000000 /\ NetworkSpec nat /\
  fst (client_read (float_of_Z 0) demo_world) = Raise (TimeoutError []).
Proof.
  split; [lia|]. split; [exact demo_network_spec|].
  apply (proj1 (proj2 (call_errors (N := nat) (float_of_Z 3) (float_of_Z 30) 1000000 (str "gpu.status") [] None None ltac:(lia)))).
  reflexivity.
Defined.

Lemma demo_signed_request :
  new_request 1000 (str "n-1") (str "r-1") (PStr (str "gpu.status")) (PDict []) None None None None = Ok demo_request /\
  sign_message (PDict demo_request) Protocol.demo_secret = Ok demo_signed.
Proof. split; vm_compute; reflexivity. Qed.

Lemma remote_call_agrees_witness :
  sign_message (PDict demo_request) Protocol.demo_secret = Ok demo_signed /\
  exists resp, fst (handle 10 Protocol.demo_secret (PDict demo_signed) (mkAgent demo_cache 0%nat)) = Ok resp /\
    validate_response 1000000 1010 resp Protocol.demo_secret (str "r-1")
    = match fst (dispatch 10 1000 demo_request 0%nat) with
      | Ok d => if within 1000000 (output_size (PDict d)) then Ok d else Raise OpsAgentProtocolError
      | Raise e => Raise (OpsAgentRemoteError (fst (snd (dispatch_error e))))
      end.
Proof.
  destruct demo_signed_request as [Hreq Hsign]. split; [exact Hsign|].
  pose proof (remote_call_agrees 10 1000000 1000 (str "n-1") (str "r-1") (PStr (str "gpu.status")) (PDict []) None
    Protocol.demo_secret demo_request demo_signed (mkAgent demo_cache 0%nat) 1010 Hreq Hsign ltac:(lia)) as Hw.
  assert (Hc : svc_clock (service (mkAgent demo_cache 0%nat)) = (1000, 0%nat)) by reflexivity.
  rewrite Hc in Hw. apply Hw; [by vm_compute|by vm_compute|reflexivity|reflexivity].
Defined.

Lemma refusals_unreadable_witness : MIN_SECRET_SIZE <= zlen Protocol.demo_secret /\
  exists resp, fst (handle 10 Protocol.demo_secret (PDict []) (mkAgent demo_cache 0%nat)) = Ok resp /\
    validate_response 1000000 1010 resp Protocol.demo_secret (str "r-1") = Raise OpsAgentProtocolError.
Proof.
  assert (Hs : MIN_SECRET_SIZE <= zlen Protocol.demo_secret) by (by vm_compute). split; [exact Hs|].
  pose proof (refusals_unreadable 10 Protocol.demo_secret (PDict []) (mkAgent demo_cache 0%nat) Hs) as Hw.
  assert (Hc : svc_clock (service (mkAgent demo_cache 0%nat)) = (1000, 0%nat)) by reflexivity.
  rewrite Hc in Hw. destruct Hw as [Hw _].
  destruct (Hw (protocol_error "invalid signature")) as (resp & H1 & _ & H2); [by vm_compute|].
  exists resp. split; [exact H1|]. apply H2. lia.
Defined.

Lemma output_limit_exact_witness :
  0 <= 10 /\ validate_output_limit 10 (PDict [(str "output", PStr (str "hello"))]) = Ok tt.
Proof. split; [lia|]. apply (output_limit_exact 10); [lia|]. exists 5. by split. Defined.

