(* ===== verification/Sse.v ===== *)
(** * Server-sent events in the model gateway

    The event framing shared by [gateway/responses_stream.py]
    ([parse_chat_sse_frames]), [gateway/proxy.py] ([UsageScanner] and
    [stream_body] of [proxy_openai_request]), [gateway/responses.py]
    ([sse_event]) and [api/gateway.py].  Buffers are lists of bytes;
    [json.loads] of a byte string is a parameter of the functions that read
    events. *)
From Stdlib Require Import ZArith Lia Bool String.
From stdpp Require Import prelude.
From S2P Require Import Prelude PyValue PyFloat Utf8 Json.
Open Scope Z_scope.

Definition LF2 : bytes := [10; 10].
Definition CRLF2 : bytes := [13; 10; 13; 10].

(** [s.find(p)] *)
Fixpoint find_sub (p s : bytes) : option nat :=
  if startswith p s then Some 0%nat
  else match s with
       | [] => None
       | _ :: r => S <$> find_sub p r
       end.

(** The first blank line: [min(positions)], its index and its length *)
Definition next_delimiter (buffer : bytes) : option (nat * nat) :=
  match find_sub LF2 buffer, find_sub CRLF2 buffer with
  | None, None => None
  | Some i, None => Some (i, 2%nat)
  | None, Some j => Some (j, 4%nat)
  | Some i, Some j => if (j <? i)%nat then Some (j, 4%nat) else Some (i, 2%nat)
  end.

(** The [while True] loop: the frames, each with the length of the blank line
    after it, and the rest of the buffer *)
Fixpoint split_fuel (fuel : nat) (buffer : bytes) : list (bytes * nat) * bytes :=
  match fuel with
  | O => ([], buffer)
  | S k =>
      match next_delimiter buffer with
      | None => ([], buffer)
      | Some (i, n) =>
          let '(frames, rest) := split_fuel k (drop (i + n) buffer) in
          ((take i buffer, n) :: frames, rest)
      end
  end.

Definition split_frames (buffer : bytes) : list (bytes * nat) * bytes := split_fuel (length buffer) buffer.

(** A frame with its blank line *)
Definition raw_frame (f : bytes * nat) : bytes := fst f ++ (if (snd f =? 4)%nat then CRLF2 else LF2).

(** [frame.replace(b'\r\n', b'\n')] *)
Fixpoint crlf_to_lf (s : bytes) : bytes :=
  match s with
  | [] => []
  | c :: r =>
      match r with
      | d :: r' => if (c =? 13) && (d =? 10) then 10 :: crlf_to_lf r' else c :: crlf_to_lf r
      | [] => [c]
      end
  end.

(** [bytes.strip()] *)
Definition ascii_space (c : Z) : bool := (c =? 32) || ((9 <=? c) && (c <=? 13)).

Inductive sse_item := Done | Event (event : pyval).

(** [except (json.JSONDecodeError, UnicodeDecodeError)] *)
Definition decode_failure (e : exn) : bool :=
  match e with JSONDecodeError | UnicodeError _ => true | _ => false end.

Definition DATA : bytes := str "data:".
Definition DONE : bytes := str "[DONE]".

Section Events.
Variable loads : bytes -> result pyval.

(** What a line contributes; an exception other than a decoding error leaves
    the loop *)
Definition line_item (line : bytes) : option (result sse_item) :=
  if startswith DATA line then
    let payload := strip_with ascii_space (drop 5 line) in
    if str_eqb payload DONE then Some (Ok Done)
    else match loads payload with
         | Ok v => Some (Ok (Event v))
         | Raise e => if decode_failure e then None else Some (Raise e)
         end
  else None.

Definition frame_items (frame : bytes) : list (result sse_item) :=
  omap line_item (split_on 10 (crlf_to_lf frame)).

(** The dictionaries among the events *)
Fixpoint collect (items : list (result sse_item)) : result (list pydict) :=
  match items with
  | [] => Ok []
  | Raise e :: _ => Raise e
  | Ok item :: rest =>
      events ← collect rest;
      Ok (match item with Event (PDict d) => d :: events | _ => events end)
  end.

Definition all_items (frames : list (bytes * nat)) : list (result sse_item) :=
  concat (map (fun f => frame_items (fst f)) frames).

(** [parse_chat_sse_frames] *)
Definition parse_chat_sse_frames (buffer : bytes) : result (list pydict * bytes) :=
  let '(frames, rest) := split_frames buffer in
  events ← collect (all_items frames);
  Ok (events, rest).

(** ** Metering usage *)

Definition MAX_BUFFER : Z := 64 * 1024.

Record scanner := mkScanner { sc_buffer : bytes; sc_usage : option pydict }.

Definition new_scanner : scanner := mkScanner [] None.

(** The usage an event carries *)
Definition event_usage (v : pyval) : option pydict :=
  match v with
  | PDict d => as_dict (get_or_none (str "usage") d)
  | _ => None
  end.

(** The usage after some events, and the exception that stopped them *)
Fixpoint scan_usage (usage : option pydict) (items : list (result sse_item)) : option pydict * result unit :=
  match items with
  | [] => (usage, Ok tt)
  | Raise e :: _ => (usage, Raise e)
  | Ok item :: rest =>
      let usage := match item with
                   | Event v => match event_usage v with Some u => Some u | None => usage end
                   | Done => usage
                   end in
      scan_usage usage rest
  end.

(** [buffer[-n:]] *)
Definition last_bytes (n : Z) (s : bytes) : bytes := drop (length s - Z.to_nat n) s.

(** The loop over the frames of the buffer; an exception leaves the frames
    after its own in the buffer *)
Fixpoint scan_frames (usage : option pydict) (frames : list (bytes * nat)) (rest : bytes) : scanner * result unit :=
  match frames with
  | [] => (mkScanner rest usage, Ok tt)
  | f :: more =>
      match scan_usage usage (frame_items (fst f)) with
      | (usage, Raise e) => (mkScanner (concat (map raw_frame more) ++ rest) usage, Raise e)
      | (usage, Ok _) => scan_frames usage more rest
      end
  end.

(** [UsageScanner.feed] *)
Definition scanner_feed (s : scanner) (chunk : bytes) : scanner * result unit :=
  let '(frames, rest) := split_frames (sc_buffer s ++ chunk) in
  match scan_frames (sc_usage s) frames rest with
  | (s, Raise e) => (s, Raise e)
  | (s, Ok _) =>
      (mkScanner (if MAX_BUFFER <? zlen (sc_buffer s) then last_bytes MAX_BUFFER (sc_buffer s) else sc_buffer s)
         (sc_usage s), Ok tt)
  end.

(** [extract_usage_from_json] *)
Definition extract_usage_from_json (content : bytes) : result (option pydict) :=
  match loads content with
  | Ok v => Ok (event_usage v)
  | Raise e => if decode_failure e then Ok None else Raise e
  end.

(** ** Forwarding a stream *)

(** What the loop of [stream_body] sees: a chunk, fifteen seconds without one,
    an error of the connection *)
Inductive upstream_event :=
  | Chunk (chunk : bytes)
  | Quiet
  | Broken (e : exn).

Inductive downstream := Frame (frame : bytes) | Keepalive.

Definition KEEPALIVE : bytes := str ": keepalive" ++ [10; 10].

Record relay := mkRelay {
  rl_usage : option pydict;
  rl_done : bool;
  rl_pending : bytes;
  rl_tail : bytes;
  rl_boundary : bool;
}.

Definition new_relay : relay := mkRelay None false [] [] true.

(** The lines of one frame: the usage and the end marker *)
Fixpoint relay_items (usage : option pydict) (saw_done : bool) (items : list (result sse_item))
    : option pydict * bool * result unit :=
  match items with
  | [] => (usage, saw_done, Ok tt)
  | Raise e :: _ => (usage, saw_done, Raise e)
  | Ok Done :: rest => relay_items usage true rest
  | Ok (Event v) :: rest =>
      relay_items (match event_usage v with Some u => Some u | None => usage end) saw_done rest
  end.

(** The frames of a chunk, each forwarded after its lines were read *)
Fixpoint relay_frames (r : relay) (frames : list (bytes * nat)) (rest : bytes) : list downstream * relay * result unit :=
  match frames with
  | [] => ([], mkRelay (rl_usage r) (rl_done r) rest (rl_tail r) (rl_boundary r), Ok tt)
  | f :: more =>
      match relay_items (rl_usage r) (rl_done r) (frame_items (fst f)) with
      | (u, d, Raise e) =>
          ([], mkRelay u d (concat (map raw_frame more) ++ rest) (rl_tail r) (rl_boundary r), Raise e)
      | (u, d, Ok _) =>
          let '(out, r, res) := relay_frames (mkRelay u d (rl_pending r) (rl_tail r) (rl_boundary r)) more rest in
          (Frame (raw_frame f) :: out, r, res)
      end
  end.

Definition relay_step (r : relay) (e : upstream_event) : list downstream * relay * result unit :=
  match e with
  | Quiet => (if rl_boundary r then [Keepalive] else [], r, Ok tt)
  | Broken e => ([], r, Raise e)
  | Chunk chunk =>
      let tail := last_bytes 4 (rl_tail r ++ chunk) in
      let '(frames, rest) := split_frames (rl_pending r ++ chunk) in
      relay_frames (mkRelay (rl_usage r) (rl_done r) (rl_pending r) tail (endswith LF2 tail || endswith CRLF2 tail)) frames rest
  end.

(** [stream_body], up to its [finally] *)
Fixpoint stream_body (r : relay) (events : list upstream_event) : list downstream * relay * result unit :=
  match events with
  | [] => ([], r, Ok tt)
  | e :: more =>
      match relay_step r e with
      | (out, r, Raise x) => (out, r, Raise x)
      | (out, r, Ok _) => let '(out', r, res) := stream_body r more in (out ++ out', r, res)
      end
  end.

(** The status code that is recorded for the request *)
Definition recorded_status (upstream_status : Z) (r : relay) : Z :=
  if (400 <=? upstream_status) || rl_done r then upstream_status else 499.
End Events.

(** ** Writing events *)

(** [sse_event]: the event's name and its payload with the name as "type" *)
Definition event_body (event_type : pystr) (payload : pydict) : pydict :=
  if dict_mem (str "type") payload then payload else payload ++ [(str "type", PStr event_type)].

Definition sse_event (event : pystr * pydict) : result bytes :=
  text ← dumps (default_style false) (PDict (event_body (fst event) (snd event)));
  of_option (utf8_encode (str "event: " ++ fst event ++ [10] ++ str "data: " ++ text ++ [10; 10]))
    (UnicodeError (str "surrogates not allowed")).

(** ** The first blank line *)

(** The same search in one pass *)
Fixpoint first_delim (s : bytes) : option (nat * nat) :=
  if startswith LF2 s then Some (0%nat, 2%nat)
  else if startswith CRLF2 s then Some (0%nat, 4%nat)
  else match s with
       | [] => None
       | _ :: r => (fun p => (S (fst p), snd p)) <$> first_delim r
       end.

Lemma startswith_both s : startswith LF2 s = true -> startswith CRLF2 s = true -> False.
Proof. intros (r & ->)%startswith_app (t & E)%startswith_app. done. Qed.

Lemma next_delimiter_first s : next_delimiter s = first_delim s.
Proof.
  unfold next_delimiter. induction s as [|c s IH]; [reflexivity|]. cbn [find_sub first_delim].
  destruct (startswith LF2 (c :: s)) eqn:H1.
  { destruct (startswith CRLF2 (c :: s)) eqn:H2; [by destruct (startswith_both _ H1 H2)|].
    by destruct (find_sub CRLF2 s). }
  destruct (startswith CRLF2 (c :: s)) eqn:H2; [by destruct (find_sub LF2 s)|].
  rewrite <- IH. destruct (find_sub LF2 s) as [i|], (find_sub CRLF2 s) as [j|]; cbn -[Nat.ltb]; try done.
  destruct (Nat.ltb_spec (S j) (S i)), (Nat.ltb_spec j i); done || lia.
Qed.

Lemma first_delim_Some s i n : first_delim s = Some (i, n) ->
  s = raw_frame (take i s, n) ++ drop (i + n) s /\ (i + n <= length s)%nat /\ (2 <= n)%nat.
Proof.
  revert i n. induction s as [|c s IH]; intros i n; [done|]. cbn [first_delim].
  destruct (startswith LF2 (c :: s)) eqn:H1.
  { intros [= <- <-]. apply startswith_app in H1 as (r & E). rewrite E. cbn. split; [done|lia]. }
  destruct (startswith CRLF2 (c :: s)) eqn:H2.
  { intros [= <- <-]. apply startswith_app in H2 as (r & E). rewrite E. cbn. split; [done|lia]. }
  destruct (first_delim s) as [[j m]|]; [|done]. cbn. intros [= <- <-].
  destruct (IH j m eq_refl) as (E & Hl & Hm). unfold raw_frame in *. cbn [fst snd take drop app] in *.
  split; [by f_equal|lia].
Qed.

Lemma first_delim_app s t i n : first_delim s = Some (i, n) -> first_delim (s ++ t) = Some (i, n).
Proof.
  revert i n. induction s as [|c s IH]; intros i n; [done|]. intros H.
  assert (H0 : first_delim (c :: s) = Some (i, n)) by done. cbn [first_delim app] in H |- *.
  destruct (startswith LF2 (c :: s)) eqn:H1.
  { apply startswith_app in H1 as (r & E). injection E as -> ->. done. }
  destruct (startswith CRLF2 (c :: s)) eqn:H2.
  { apply startswith_app in H2 as (r & E). injection E as -> ->. done. }
  destruct (first_delim s) as [[j m]|] eqn:Hs; [|done].
  rewrite (IH j m eq_refl). apply first_delim_Some in Hs as (E & Hl & Hm).
  assert (HL : startswith LF2 (c :: s ++ t) = false).
  { destruct s as [|d s]; [cbn in Hl; lia|]. cbn in H1 |- *. done. }
  assert (HC : startswith CRLF2 (c :: s ++ t) = false).
  { destruct s as [|d [|e [|f s]]]; cbn in Hl; try lia; [|exact H2].
    assert (j = 0%nat /\ m = 2%nat) as [-> ->] by lia.
    unfold raw_frame in E. cbn in E. injection E as -> ->. cbn. by rewrite !andb_false_r. }
  by rewrite HL, HC.
Qed.

(** ** Cutting a buffer into frames *)

Lemma split_fuel_enough k : forall m s, (length s <= k)%nat -> (length s <= m)%nat -> split_fuel k s = split_fuel m s.
Proof.
  induction k as [|k IH]; intros m s Hk Hm.
  { destruct s; [|cbn in Hk; lia]. by destruct m. }
  destruct m as [|m]; [destruct s; [done|cbn in Hm; lia]|]. cbn [split_fuel]. rewrite next_delimiter_first.
  destruct (first_delim s) as [[i n]|] eqn:E; [|done]. apply first_delim_Some in E as (_ & Hl & Hn).
  rewrite (IH m); [done| |]; rewrite length_drop; lia.
Qed.

Lemma split_frames_eq s : split_frames s =
  match first_delim s with
  | None => ([], s)
  | Some (i, n) =>
      ((take i s, n) :: fst (split_frames (drop (i + n) s)), snd (split_frames (drop (i + n) s)))
  end.
Proof.
  unfold split_frames at 1. destruct s as [|c s]; [done|]. cbn [length split_fuel]. rewrite next_delimiter_first.
  destruct (first_delim (c :: s)) as [[i n]|] eqn:E; [|done]. apply first_delim_Some in E as (_ & Hl & Hn).
  unfold split_frames. rewrite (split_fuel_enough (length s) (length (drop (i + n) (c :: s))) (drop (i + n) (c :: s)));
    [|rewrite length_drop; cbn in *; lia|lia].
  by destruct (split_fuel _ _).
Qed.

Lemma buffer_induction (P : bytes -> Prop) :
  (forall s, first_delim s = None -> P s) ->
  (forall s i n, first_delim s = Some (i, n) -> P (drop (i + n) s) -> P s) -> forall s, P s.
Proof.
  intros Hn Hs s. remember (length s) as k eqn:Hk. revert s Hk. induction (lt_wf k) as [k _ IH]. intros s ->.
  destruct (first_delim s) as [[i n]|] eqn:E; [|by apply Hn].
  eapply Hs; [exact E|]. apply first_delim_Some in E as (_ & Hl & Hn2). eapply IH; [|done]. rewrite length_drop. lia.
Qed.

(** The frames and the rest are the buffer *)
Lemma split_frames_raw s : concat (map raw_frame (fst (split_frames s))) ++ snd (split_frames s) = s.
Proof.
  induction s as [s Hs|s i n Hs IH] using buffer_induction; rewrite split_frames_eq, Hs; [done|].
  cbn [fst snd map concat]. rewrite <- app_assoc, IH. by destruct (first_delim_Some _ _ _ Hs) as [<- _].
Qed.

(** Cutting a buffer is independent of where a chunk ends *)
Lemma split_frames_app s t :
  split_frames (s ++ t) =
    (fst (split_frames s) ++ fst (split_frames (snd (split_frames s) ++ t)),
     snd (split_frames (snd (split_frames s) ++ t))).
Proof.
  induction s as [s Hs|s i n Hs IH] using buffer_induction.
  - rewrite (split_frames_eq s), Hs. cbn [fst snd app]. by destruct (split_frames (s ++ t)).
  - rewrite (split_frames_eq (s ++ t)), (first_delim_app _ _ _ _ Hs), (split_frames_eq s), Hs.
    destruct (first_delim_Some _ _ _ Hs) as (_ & Hl & _). cbn [fst snd].
    rewrite (take_app_le s t i), (drop_app_le s t (i + n)) by lia. by rewrite IH.
Qed.

(** ** Reading a stream in chunks *)
Section Reading.
Variable loads : bytes -> result pyval.

Lemma collect_app a b : collect (a ++ b) = x ← collect a; y ← collect b; Ok (x ++ y).
Proof.
  induction a as [|[item|e] a IH]; cbn [collect app]; [by destruct (collect b)| |done].
  rewrite IH. destruct (collect a) as [x|e]; [|done]. cbn [mbind result_bind]. destruct (collect b) as [y|e]; [|done].
  cbn. by destruct item as [|[]].
Qed.

Lemma all_items_app f g : all_items loads (f ++ g) = all_items loads f ++ all_items loads g.
Proof. unfold all_items. by rewrite map_app, concat_app. Qed.

Lemma parse_app s t : parse_chat_sse_frames loads (s ++ t) =
  '(ev, rest) ← parse_chat_sse_frames loads s;
  '(ev', rest') ← parse_chat_sse_frames loads (rest ++ t);
  Ok (ev ++ ev', rest').
Proof.
  unfold parse_chat_sse_frames. rewrite split_frames_app.
  destruct (split_frames s) as [f r]. cbn [fst snd]. destruct (split_frames (r ++ t)) as [g r'] eqn:E. cbn [fst snd].
  rewrite all_items_app, collect_app. destruct (collect (all_items loads f)) as [x|e]; [|done]. cbn [mbind result_bind].
  rewrite E. by destruct (collect (all_items loads g)) as [y|e].
Qed.

(** The reading loop of [_translate_responses_stream]: the events of each
    chunk, and the buffer at the end *)
Fixpoint read_chunks (buffer : bytes) (chunks : list bytes) : result (list pydict * bytes) :=
  match chunks with
  | [] => Ok ([], buffer)
  | chunk :: more =>
      '(events, buffer) ← parse_chat_sse_frames loads (buffer ++ chunk);
      '(events', buffer) ← read_chunks buffer more;
      Ok (events ++ events', buffer)
  end.

Lemma parse_rest s ev rest : parse_chat_sse_frames loads s = Ok (ev, rest) ->
  parse_chat_sse_frames loads rest = Ok ([], rest).
Proof.
  unfold parse_chat_sse_frames. destruct (split_frames s) as [f r] eqn:E. intros (x & _ & [= <- <-])%bind_Ok.
  pose proof (split_frames_app s []) as H. rewrite app_nil_r, E in H. cbn [fst snd] in H. rewrite app_nil_r in H.
  destruct (split_frames r) as [g r']. cbn [fst snd] in H. injection H as H ->.
  assert (g = []) as -> by (apply (f_equal length) in H; rewrite length_app in H; destruct g; [done|cbn in H; lia]).
  done.
Qed.

Lemma read_chunks_parse chunks : forall buffer, parse_chat_sse_frames loads buffer = Ok ([], buffer) ->
  read_chunks buffer chunks = parse_chat_sse_frames loads (buffer ++ concat chunks).
Proof.
  induction chunks as [|chunk more IH]; intros buffer Hb; cbn [read_chunks concat]; [by rewrite app_nil_r|].
  rewrite app_assoc, (parse_app (buffer ++ chunk)).
  destruct (parse_chat_sse_frames loads (buffer ++ chunk)) as [[ev rest]|e] eqn:E; [|done]. cbn [mbind result_bind].
  rewrite IH by (by eapply parse_rest). done.
Qed.

(** What the gateway reads from a stream does not depend on how the
    network cut it into chunks: reading chunk by chunk, with the unfinished
    tail carried over, gives the events, the rest and the exception of
    reading everything at once, and only the rest is still in the buffer. *)
Theorem chunking_irrelevant chunks :
  read_chunks [] chunks = parse_chat_sse_frames loads (concat chunks) /\
  forall events rest, read_chunks [] chunks = Ok (events, rest) -> first_delim rest = None /\
    exists read, concat chunks = read ++ rest.
Proof.
  assert (E : read_chunks [] chunks = parse_chat_sse_frames loads (concat chunks)) by (by apply read_chunks_parse).
  split; [exact E|]. rewrite E. intros events rest. unfold parse_chat_sse_frames.
  destruct (split_frames (concat chunks)) as [f r] eqn:Es. intros (x & _ & [= <- <-])%bind_Ok.
  pose proof (split_frames_raw (concat chunks)) as Hr. rewrite Es in Hr. cbn [fst snd] in Hr.
  split; [|by exists (concat (map raw_frame f))].
  pose proof (split_frames_app (concat chunks) []) as H. rewrite app_nil_r, Es in H. cbn [fst snd] in H.
  rewrite app_nil_r, (split_frames_eq r) in H. destruct (first_delim r) as [[i n]|]; [|done].
  injection H as H _. apply (f_equal length) in H. rewrite length_app in H. cbn in H. lia.
Qed.

(** ** Forwarding *)

Definition frames_of (out : list downstream) : bytes :=
  concat (omap (fun o => match o with Frame f => Some f | Keepalive => None end) out).

Definition chunks_of (events : list upstream_event) : bytes :=
  concat (omap (fun e => match e with Chunk c => Some c | _ => None end) events).

(** Bytes that hold no blank line: what is before the first one, and what is
    after the last *)
Definition unterminated (s : bytes) : Prop := forall a b, s <> a ++ LF2 ++ b /\ s <> a ++ CRLF2 ++ b.

Lemma first_delim_skip a b n : (n = 2 \/ n = 4)%nat -> is_Some (first_delim (a ++ (if (n =? 4)%nat then CRLF2 else LF2) ++ b)).
Proof.
  intros Hn. induction a as [|c a [[i m] IH]].
  - destruct Hn as [-> | ->]; cbn; by eexists.
  - cbn [app first_delim]. destruct (startswith LF2 _); [by eexists|]. destruct (startswith CRLF2 _); [by eexists|].
    rewrite IH. by eexists.
Qed.
Lemma first_delim_None s : first_delim s = None -> unterminated s.
Proof.
  intros Hs a b. split; intros ->.
  - destruct (first_delim_skip a b 2) as [x Hx]; [by left|]. cbn [Nat.eqb] in Hx. congruence.
  - destruct (first_delim_skip a b 4) as [x Hx]; [by right|]. cbn [Nat.eqb] in Hx. congruence.
Qed.
Lemma first_delim_before s i n : first_delim s = Some (i, n) -> unterminated (take i s).
Proof.
  intros Hs. apply first_delim_None. destruct (first_delim (take i s)) as [[j m]|] eqn:E; [|done]. exfalso.
  pose proof (first_delim_app _ (drop i s) _ _ E) as Ha. rewrite take_drop in Ha. rewrite Hs in Ha. injection Ha as <- <-.
  destruct (first_delim_Some _ _ _ E) as (_ & Hl & _). destruct (first_delim_Some _ _ _ Hs) as (_ & _ & Hn).
  rewrite length_take in Hl. lia.
Qed.
Lemma split_unterminated s : Forall (fun f => unterminated (fst f)) (fst (split_frames s)) /\ unterminated (snd (split_frames s)).
Proof.
  induction s as [s Hs|s i n Hs [IH1 IH2]] using buffer_induction; rewrite split_frames_eq, Hs; cbn [fst snd].
  - split; [constructor|by apply first_delim_None].
  - split; [|done]. constructor; [by eapply first_delim_before|done].
Qed.

(** A frame that is forwarded is one whole event *)
Definition whole (o : downstream) : Prop :=
  match o with Frame f => exists s, unterminated s /\ (f = s ++ LF2 \/ f = s ++ CRLF2) | Keepalive => True end.

Lemma frames_of_app a b : frames_of (a ++ b) = frames_of a ++ frames_of b.
Proof. unfold frames_of. by rewrite omap_app, concat_app. Qed.
Lemma chunks_of_app a b : chunks_of (a ++ b) = chunks_of a ++ chunks_of b.
Proof. unfold chunks_of. by rewrite omap_app, concat_app. Qed.

Lemma raw_frame_whole f : unterminated (fst f) -> whole (Frame (raw_frame f)).
Proof. unfold raw_frame, whole. exists (fst f). split; [done|]. destruct (snd f =? 4)%nat; auto. Qed.

(** What is forwarded of some bytes when an exception comes: the frames before
    one that could not be read *)
Definition stopped_at (x : exn) (out : list downstream) (received : bytes) : Prop := exists f after,
  frames_of out ++ raw_frame f ++ after = received /\ unterminated (fst f) /\ In (Raise x) (frame_items loads (fst f)).

Lemma relay_items_raise items : forall u d u' d' x, relay_items u d items = (u', d', Raise x) -> In (Raise x) items.
Proof.
  induction items as [|[[|v]|e] items IH]; intros u d u' d' x; cbn [relay_items]; [done| | |].
  all: first [intros [= <- <- <-]; by left | intros Hx; right; by eapply IH].
Qed.

Lemma relay_frames_spec frames rest : Forall (fun f => unterminated (fst f)) frames -> forall r,
  let '(out, r', res) := relay_frames loads r frames rest in
  Forall whole out /\
  match res with
  | Ok _ => rl_pending r' = rest /\ frames_of out ++ rest = concat (map raw_frame frames) ++ rest
  | Raise x => stopped_at x out (concat (map raw_frame frames) ++ rest)
  end.
Proof.
  induction 1 as [|f more Hf _ IH]; intros r; cbn [relay_frames]; [done|].
  destruct (relay_items _ _ _) as [[u d] [[]|e]] eqn:Ei.
  - specialize (IH (mkRelay u d (rl_pending r) (rl_tail r) (rl_boundary r))).
    destruct (relay_frames _ _ more rest) as [[out r'] res]. destruct IH as (Hw & Hres).
    split; [constructor; [by apply raw_frame_whole|done]|]. cbn [map concat]. unfold stopped_at in *.
    change (frames_of (Frame (raw_frame f) :: out)) with (raw_frame f ++ frames_of out).
    destruct res as [[]|x].
    + destruct Hres as [-> Hres]. split; [done|]. by rewrite <- !app_assoc, Hres.
    + destruct Hres as (g & after & Hg & Hi). exists g, after. by rewrite <- !app_assoc, Hg.
  - split; [constructor|]. exists f, (concat (map raw_frame more) ++ rest). cbn [map concat]. rewrite <- app_assoc.
    split; [done|]. split; [done|]. by eapply relay_items_raise.
Qed.

(** What the consumer has of a stream that was read so far, or that broke off *)
Definition forwarded (before : bytes) (events : list upstream_event) (out : list downstream) (r : relay) (res : result unit) : Prop :=
  match res with
  | Ok _ => frames_of out ++ rl_pending r = before ++ chunks_of events /\ unterminated (rl_pending r)
  | Raise x => exists done e after, events = done ++ e :: after /\
      (e = Broken x /\ frames_of out ++ rl_pending r = before ++ chunks_of done /\ unterminated (rl_pending r) \/
       exists chunk, e = Chunk chunk /\ stopped_at x out (before ++ chunks_of done ++ chunk))
  end.

Lemma relay_step_forwards e r : unterminated (rl_pending r) ->
  let '(out, r', res) := relay_step loads r e in Forall whole out /\ forwarded (rl_pending r) [e] out r' res.
Proof.
  intros Hr. destruct e as [chunk| |x]; cbn [relay_step].
  - destruct (split_frames (rl_pending r ++ chunk)) as [f rest] eqn:E.
    pose proof (split_unterminated (rl_pending r ++ chunk)) as [Hf Hrest]. pose proof (split_frames_raw (rl_pending r ++ chunk)) as Hraw.
    rewrite E in Hf, Hrest, Hraw. cbn [fst snd] in *.
    match goal with |- context [relay_frames loads ?r0 f rest] => pose proof (relay_frames_spec f rest Hf r0) as H;
      destruct (relay_frames loads r0 f rest) as [[out r'] res] end. destruct H as (Hw & H). split; [done|].
    rewrite Hraw in H. unfold forwarded. assert (chunks_of [Chunk chunk] = chunk) as -> by (unfold chunks_of; cbn; apply app_nil_r).
    destruct res as [[]|x]; [by destruct H as [-> <-]|]. exists [], (Chunk chunk), []. split; [done|]. right. by exists chunk.
  - split; [by destruct (rl_boundary r); repeat constructor|]. unfold forwarded, chunks_of. cbn. rewrite app_nil_r.
    by destruct (rl_boundary r).
  - split; [done|]. exists [], (Broken x), []. split; [done|]. left. unfold chunks_of. cbn. by rewrite app_nil_r.
Qed.

(** C40.  The streaming proxy forwards what it received, event by event: every
    frame that it yields is one whole event (bytes without a blank line, and the
    blank line that ends it), so that a keepalive never splits an event; the
    frames and the tail in [pending], which holds no blank line, are together
    the bytes of the chunks, so that at any time only an unfinished event has
    not been forwarded; and an exception comes from the connection, with all
    that was received before it forwarded in the same way, or from an event
    that cannot be read, with every event before that one forwarded. *)
Theorem stream_forwarded events :
  let '(out, r, res) := stream_body loads new_relay events in
  Forall whole out /\
  match res with
  | Ok _ => frames_of out ++ rl_pending r = chunks_of events /\ unterminated (rl_pending r)
  | Raise x => exists done e after, events = done ++ e :: after /\
      (e = Broken x /\ frames_of out ++ rl_pending r = chunks_of done /\ unterminated (rl_pending r) \/
       exists chunk f rest, e = Chunk chunk /\ frames_of out ++ raw_frame f ++ rest = chunks_of done ++ chunk /\
         unterminated (fst f) /\ In (Raise x) (frame_items loads (fst f)))
  end.
Proof.
  assert (Hgen : forall events r, unterminated (rl_pending r) ->
    let '(out, r', res) := stream_body loads r events in Forall whole out /\ forwarded (rl_pending r) events out r' res).
  { clear events. induction events as [|e events IH]; intros r Hr; cbn [stream_body].
    { split; [done|]. unfold forwarded, chunks_of. cbn. by rewrite app_nil_r. }
    pose proof (relay_step_forwards e r Hr) as Hstep. destruct (relay_step loads r e) as [[out r1] [[]|x]]; destruct Hstep as [Hw Hs].
    - destruct Hs as [Hs Hr1]. specialize (IH r1 Hr1). destruct (stream_body loads r1 events) as [[out' r2] res].
      destruct IH as [Hw2 Hf]. split; [by apply Forall_app_2|]. unfold forwarded, stopped_at in *. rewrite frames_of_app.
      destruct res as [[]|x].
      + destruct Hf as [Hf ?]. split; [|done]. by rewrite <- app_assoc, Hf, app_assoc, Hs, <- app_assoc, <- chunks_of_app.
      + destruct Hf as (d & y & after & -> & Hf). exists (e :: d), y, after. split; [done|].
        change (chunks_of (e :: d)) with (chunks_of ([e] ++ d)). rewrite chunks_of_app.
        destruct Hf as [(-> & Hf & ?)|(chunk & -> & f & rest & Hf & ?)]; [left|right; exists chunk]; (split; [done|]).
        * split; [|done]. by rewrite app_assoc, <- Hs, <- !app_assoc, Hf.
        * exists f, rest. split; [|done]. rewrite <- !app_assoc, Hf. by rewrite (app_assoc (rl_pending r)), <- Hs, <- app_assoc.
    - split; [done|]. destruct Hs as (d & y & after & Heq & Hf). exists d, y, (after ++ events).
      split; [change (e :: events) with ([e] ++ events); by rewrite Heq, <- app_assoc|done]. }
  specialize (Hgen events new_relay). destruct (stream_body loads new_relay events) as [[out r] res].
  destruct Hgen as [Hw Hf]; [intros a b; split; by destruct a|]. split; [done|]. destruct res as [[]|x]; [done|].
  destruct Hf as (d & e & after & -> & [Hf|(chunk & -> & f & rest & Hf)]); exists d, e, after || exists d, (Chunk chunk), after;
    (split; [done|]); [by left|right]. by exists chunk, f, rest.
Qed.

(** Found while modelling: a last event that the upstream does not end
    with a blank line is read but never forwarded, and if it is the end
    marker the request is recorded as one the client broke off. *)
Theorem unterminated_tail_dropped :
  let events := [Chunk (str "data: [DONE]" ++ [10])] in
  let '(out, r, res) := stream_body loads new_relay events in
  res = Ok tt /\ out = [] /\ rl_pending r = chunks_of events /\ recorded_status 200 r = 499.
Proof. by vm_compute. Qed.
End Reading.

(** ** Text without control characters *)

Definition printable (s : list Z) : bool := forallb (fun c => 32 <=? c) s.

Lemma printable_app a b : printable (a ++ b) = printable a && printable b.
Proof. apply forallb_app. Qed.

Lemma printable_In s : (forall c, In c s -> 32 <= c) -> printable s = true.
Proof. intros H. apply forallb_forall. intros c Hc. apply Z.leb_le. by apply H. Qed.

Lemma printable_digits s : forallb is_digit s = true -> printable s = true.
Proof.
  rewrite forallb_forall. intros H. apply printable_In. intros c Hc%H. unfold is_digit in Hc. split_bools. lia.
Qed.

Lemma printable_dec n : printable (dec n) = true.
Proof. apply printable_In. intros c [H| ->]%dec_chars; [|lia]. unfold is_digit in H. split_bools. lia. Qed.

Lemma printable_u_escape u : printable (u_escape u) = true.
Proof.
  apply printable_In. unfold u_escape, hex4_text, Sha256.hex_digit. cbn [In].
  assert (Hm : forall a, 0 <= a mod 16 < 16) by (intros a; apply Z.mod_pos_bound; lia).
  intros c [<-|[<-|[<-|[<-|[<-|[<-|[]]]]]]]; try lia;
    match goal with |- context [?a mod 16] => pose proof (Hm a); destruct (a mod 16 <? 10); lia end.
Qed.

Lemma printable_escape ascii c : printable (escape_char ascii c) = true.
Proof.
  unfold escape_char. destruct (short_escape c) as [l|] eqn:Hs.
  { unfold short_escape in Hs. repeat case_match; simplify_eq; done. }
  destruct ((32 <=? c) && (c <? 127)) eqn:H1; [split_bools; cbn; rewrite andb_true_r; by apply Z.leb_le|].
  destruct ((127 <=? c) && negb ascii) eqn:H2; [split_bools; cbn; rewrite andb_true_r; apply Z.leb_le; lia|].
  destruct (c <? 65536); rewrite ?printable_app, ?printable_u_escape; done.
Qed.

Lemma printable_quote ascii s : printable (quote ascii s) = true.
Proof.
  unfold quote. change (34 :: ?x) with ([34] ++ x). rewrite !printable_app. change (printable [34]) with true.
  cbn [andb]. rewrite andb_true_r. induction s as [|c s IH]; [done|]. cbn [map concat]. by rewrite printable_app, printable_escape, IH.
Qed.

Lemma span_digits s : forallb is_digit (fst (span is_digit s)) = true.
Proof. induction s as [|c s IH]; [done|]. cbn. destruct (is_digit c) eqn:E; [|done]. destruct (span is_digit s). cbn in *. by rewrite E. Qed.

Lemma printable_number s sg ip tail r : match_number s = Some (sg, ip, tail, r) -> printable (sg ++ ip ++ tail) = true.
Proof.
  unfold match_number. destruct (optional _ s) as [sg' s1] eqn:Ho.
  assert (Hopt : forall p, (forall c, p c = true -> 32 <= c) -> forall t, printable (fst (optional p t)) = true).
  { intros p Hp [|c t]; [done|]. cbn. destruct (p c) eqn:E; [|done]. cbn. rewrite andb_true_r. by apply Z.leb_le, Hp. }
  assert (H1 : printable sg' = true).
  { replace sg' with (fst (optional (fun x => x =? 45) s)) by (by rewrite Ho). apply Hopt. intros c ->%Z.eqb_eq. lia. }
  destruct (match_integer s1) as [[ip' s2]|] eqn:Hi; [|done]. cbn [mbind option_bind].
  assert (H2 : printable ip' = true).
  { unfold match_integer in Hi. destruct s1 as [|c s1]; [done|]. destruct (c =? 48); [by injection Hi as <- <-|].
    destruct (is_digit c); [|done]. pose proof (span_digits (c :: s1)) as Hd.
    destruct (span is_digit (c :: s1)) as [a b]. injection Hi as <- <-. by apply printable_digits. }
  destruct (match_fraction s2) as [fp s3] eqn:Hf.
  assert (H3 : printable fp = true).
  { unfold match_fraction in Hf. destruct s2 as [|c s2]; [by injection Hf as <- <-|].
    destruct (c =? 46); [|by injection Hf as <- <-]. pose proof (span_digits s2) as Hd.
    destruct (span is_digit s2) as [[|d ds] t]; injection Hf as <- <-; [done|]. by apply (printable_digits _) in Hd. }
  destruct (match_exponent s3) as [ep s4] eqn:He.
  assert (H4 : printable ep = true).
  { unfold match_exponent in He. destruct s3 as [|c s3]; [by injection He as <- <-|].
    destruct ((c =? 101) || (c =? 69)) eqn:Hc; [|by injection He as <- <-].
    destruct (optional _ s3) as [sg2 r1] eqn:Ho2. pose proof (span_digits r1) as Hd.
    assert (H5 : printable sg2 = true).
    { replace sg2 with (fst (optional (fun x => (x =? 43) || (x =? 45)) s3)) by (by rewrite Ho2).
      apply Hopt. intros x [->%Z.eqb_eq| ->%Z.eqb_eq]%orb_true_iff; lia. }
    destruct (span is_digit r1) as [[|d ds] t]; injection He as <- <-; [done|].
    change (c :: sg2 ++ d :: ds) with ([c] ++ sg2 ++ (d :: ds)). rewrite !printable_app, H5.
    apply printable_digits in Hd. cbn [fst] in Hd. rewrite Hd, andb_true_r. cbn. rewrite andb_true_r. apply Z.leb_le.
    apply orb_true_iff in Hc as [->%Z.eqb_eq| ->%Z.eqb_eq]; lia. }
  intros [= <- <- <- <-]. by rewrite !printable_app, H1, H2, H3, H4.
Qed.

Lemma printable_join sep l : printable sep = true -> forallb printable l = true -> printable (join sep l) = true.
Proof.
  intros Hs. induction l as [|x l IH]; [done|]. intros [Hx Hl]%andb_true_iff. destruct l as [|y l]; [done|].
  rewrite join_cons by done. by rewrite !printable_app, Hx, Hs, (IH Hl).
Qed.

(** The text of a JSON value has no control characters *)
Lemma printable_value ascii v : json_value_ok v = true -> printable (value_text (default_style ascii) v) = true.
Proof.
  induction v as [| | | | |l IH|d IH] using pyval_induction; cbn [json_value_ok]; intros Hv.
  - done.
  - by destruct b.
  - apply printable_dec.
  - cbn [value_text]. unfold float_reads_back in Hv. destruct (isfinite f) eqn:Hf; [|done]. cbn [andb] in Hv.
    destruct (match_number (float_repr f)) as [[[[sg ip] [|c tail]] [|? ?]]|] eqn:E; try done.
    apply andb_true_iff in Hv as [Ht%str_eqb_eq _]. apply printable_number in E. rewrite Ht in E. by destruct f.
  - apply printable_quote.
  - cbn [value_text]. change (91 :: ?x) with ([91] ++ x). rewrite !printable_app.
    change (printable [91]) with true. change (printable [93]) with true. cbn [andb]. rewrite andb_true_r. apply printable_join; [done|]. apply forallb_forall. intros t (x & <- & Hx)%in_map_iff.
    rewrite forallb_forall in Hv. rewrite List.Forall_forall in IH. by apply IH, Hv.
  - cbn [value_text]. change (123 :: ?x) with ([123] ++ x). rewrite !printable_app.
    change (printable [123]) with true. change (printable [125]) with true. cbn [andb]. rewrite andb_true_r. apply printable_join; [done|]. apply forallb_forall. intros t (x & <- & Hx)%in_map_iff.
    apply andb_true_iff in Hv as [Hv _]. rewrite forallb_forall in Hv. rewrite List.Forall_forall in IH.
    specialize (Hv x Hx). apply andb_true_iff in Hv as [_ Hv]. rewrite !printable_app, printable_quote. cbn. by apply IH.
Qed.

(** ** A written event is read back *)

Lemma utf8_encode_app a b x y : utf8_encode a = Some x -> utf8_encode b = Some y -> utf8_encode (a ++ b) = Some (x ++ y).
Proof.
  unfold utf8_encode. rewrite forallb_app, map_app, concat_app.
  destruct (forallb is_scalar a), (forallb is_scalar b); try done. by intros [= <-] [= <-].
Qed.

Lemma utf8_encode_split a b z : utf8_encode (a ++ b) = Some z ->
  exists x y, utf8_encode a = Some x /\ utf8_encode b = Some y /\ z = x ++ y.
Proof.
  unfold utf8_encode. rewrite forallb_app, map_app, concat_app.
  destruct (forallb is_scalar a), (forallb is_scalar b); try done. intros [= <-]. by eauto.
Qed.

Lemma printable_encoded s b : printable s = true -> utf8_encode s = Some b -> printable b = true.
Proof.
  unfold utf8_encode. destruct (forallb is_scalar s); [|done]. intros Hs [= <-].
  induction s as [|c s IH]; [done|]. apply andb_true_iff in Hs as [Hc%Z.leb_le Hs]. cbn [map concat].
  rewrite printable_app, (IH Hs), andb_true_r. apply printable_In. unfold encode_char. intros x Hx.
  assert (Hm : forall a, 0 <= a mod 64) by (intros a; apply Z.mod_pos_bound; lia).
  repeat case_match; cbn in Hx; repeat (destruct Hx as [<-|Hx]; [try lia|]); try done;
    try match goal with |- context [?a mod 64] => pose proof (Hm a); lia end.
  all: try (assert (0 <= c / 64) by (apply Z.div_pos; lia); lia).
  all: try (assert (0 <= c / 4096) by (apply Z.div_pos; lia); lia).
  all: try (assert (0 <= c / 262144) by (apply Z.div_pos; lia); lia).
Qed.

Lemma startswith_lf2 c s : c <> 10 -> c <> 13 -> startswith LF2 (c :: s) = false /\ startswith CRLF2 (c :: s) = false.
Proof.
  intros H1 H2. unfold LF2, CRLF2. cbn [startswith].
  rewrite (proj2 (Z.eqb_neq 10 c)), (proj2 (Z.eqb_neq 13 c)) by lia. done.
Qed.

Lemma printable_head l : printable l = true -> Forall (fun c => 32 <= c) l.
Proof. unfold printable. rewrite forallb_Forall. intros H. eapply Forall_impl; [exact H|]. cbn. intros c. apply Z.leb_le. Qed.

Lemma first_delim_cons c s : startswith LF2 (c :: s) = false -> startswith CRLF2 (c :: s) = false ->
  first_delim (c :: s) = (fun p => (S (fst p), snd p)) <$> first_delim s.
Proof. intros H1 H2. cbn [first_delim]. by rewrite H1, H2. Qed.

(** No blank line inside a printable line *)
Lemma first_delim_line l s : printable l = true ->
  first_delim (l ++ s) = (fun p => ((length l + fst p)%nat, snd p)) <$> first_delim s.
Proof.
  intros Hl%printable_head. induction Hl as [|c l Hc Hl IH]; cbn [app length].
  { cbn. by destruct (first_delim s) as [[]|]. }
  destruct (startswith_lf2 c (l ++ s)) as [H1 H2]; [lia..|]. cbn [first_delim]. rewrite H1, H2, IH.
  by destruct (first_delim s) as [[i n]|].
Qed.

Lemma crlf_printable l s : printable l = true -> crlf_to_lf (l ++ s) = l ++ crlf_to_lf s.
Proof.
  intros Hl%printable_head. induction Hl as [|c l Hc Hl IH]; [done|].
  assert (Hne : c =? 13 = false) by (apply Z.eqb_neq; lia). cbn [app].
  destruct (l ++ s) as [|d r] eqn:E.
  - apply app_eq_nil in E as [-> ->]. done.
  - rewrite <- IH. cbn [crlf_to_lf]. rewrite Hne. done.
Qed.

(** One frame of two lines *)
Lemma split_two_lines l1 l2 s : printable l1 = true -> printable l2 = true -> l2 <> [] ->
  split_frames (l1 ++ [10] ++ l2 ++ LF2 ++ s) =
    ((l1 ++ [10] ++ l2, 2%nat) :: fst (split_frames s), snd (split_frames s)).
Proof.
  intros H1 H2 Hne. rewrite split_frames_eq, first_delim_line by done.
  assert (E : first_delim ([10] ++ l2 ++ LF2 ++ s) = Some ((1 + length l2)%nat, 2%nat)).
  { destruct l2 as [|c l2]; [done|]. pose proof (printable_head _ H2) as Hc. apply Forall_cons in Hc as [Hc _].
    change ([10] ++ (c :: l2) ++ LF2 ++ s) with (10 :: ((c :: l2) ++ LF2 ++ s)). rewrite first_delim_cons.
    - rewrite (first_delim_line (c :: l2)) by done. change (first_delim (LF2 ++ s)) with (Some (0%nat, 2%nat)).
      cbn [fmap option_fmap option_map fst snd]. by rewrite Nat.add_0_r.
    - unfold LF2 at 1. cbn [startswith app]. rewrite (proj2 (Z.eqb_neq 10 c)) by lia. by rewrite andb_false_r.
    - done. }
  rewrite E. cbn [fmap option_fmap option_map fst snd].
  replace (l1 ++ [10] ++ l2 ++ LF2 ++ s) with ((l1 ++ [10] ++ l2) ++ LF2 ++ s) by (by rewrite <- !app_assoc).
  assert (Hlen : (length l1 + (1 + length l2))%nat = length (l1 ++ [10] ++ l2)) by (rewrite !length_app; cbn; lia).
  rewrite Hlen, take_app_length.
  replace (drop (length (l1 ++ [10] ++ l2) + 2) ((l1 ++ [10] ++ l2) ++ LF2 ++ s)) with s; [done|].
  rewrite <- drop_drop, drop_app_length. done.
Qed.

Definition event_ok (event : pystr * pydict) : Prop :=
  printable (fst event) = true /\ json_value_ok (PDict (event_body (fst event) (snd event))) = true.

(** What [json.loads] promises for the texts of [json.dumps] *)
Definition reads_back (loads : bytes -> result pyval) : Prop := forall v text b,
  json_value_ok v = true -> dumps (default_style false) v = Ok text -> utf8_encode text = Some b -> loads b = Ok v.

Lemma dumps_text v text : dumps (default_style false) v = Ok text -> text = value_text (default_style false) v.
Proof. unfold dumps. destruct (encodable _ _); [|done]. intros [= <-]. reflexivity. Qed.

Lemma dumps_dict d text : dumps (default_style false) (PDict d) = Ok text ->
  exists t, text = 123 :: t ++ [125].
Proof.
  unfold dumps. destruct (encodable _ _); [|done]. cbn [sort_keys default_style]. intros [= <-].
  cbn [value_text]. eexists. reflexivity.
Qed.

Lemma rstrip_last p l d : p d = false -> rstrip_with p (l ++ [d]) = l ++ [d].
Proof.
  intros Hd. unfold rstrip_with. rewrite rev_app_distr. cbn [rev app lstrip_with]. rewrite Hd. cbn [rev].
  by rewrite rev_involutive.
Qed.

Lemma strip_braces t b : utf8_encode (123 :: t ++ [125]) = Some b ->
  strip_with ascii_space (32 :: b) = b /\ str_eqb b DONE = false /\ b <> [].
Proof.
  intros H. change (123 :: t ++ [125]) with ([123] ++ t ++ [125]) in H.
  apply utf8_encode_split in H as (x & y & Hx & H & ->). apply utf8_encode_split in H as (y1 & z & _ & Hz & ->).
  injection Hx as <-. injection Hz as <-. split; [|done].
  unfold strip_with. cbn [app]. change (lstrip_with ascii_space (32 :: 123 :: y1 ++ [125])) with ((123 :: y1) ++ [125]).
  by rewrite rstrip_last.
Qed.

Lemma parse_event loads event b s : reads_back loads -> event_ok event -> sse_event event = Ok b ->
  parse_chat_sse_frames loads (b ++ s) =
    '(events, rest) ← parse_chat_sse_frames loads s;
    Ok (event_body (fst event) (snd event) :: events, rest).
Proof.
  intros Hloads [Hname Hok] H. unfold sse_event in H. apply bind_Ok in H as (text & Ht & H%of_option_Ok).
  assert (Hp : printable text = true).
  { rewrite (dumps_text _ _ Ht). by apply printable_value. }
  set (body := event_body (fst event) (snd event)) in *.
  apply utf8_encode_split in H as (x1 & y & Hx1 & H & ->). apply utf8_encode_split in H as (x2 & y2 & Hx2 & H & ->).
  apply utf8_encode_split in H as (x3 & y3 & Hx3 & H & ->). apply utf8_encode_split in H as (x4 & y4 & Hx4 & H & ->).
  apply utf8_encode_split in H as (x5 & x6 & Hx5 & Hx6 & ->).
  assert (x1 = str "event: ") as -> by (vm_compute in Hx1; injection Hx1 as <-; reflexivity).
  assert (x3 = [10]) as -> by (vm_compute in Hx3; injection Hx3 as <-; reflexivity).
  assert (x4 = str "data: ") as -> by (vm_compute in Hx4; injection Hx4 as <-; reflexivity).
  assert (x6 = [10; 10]) as -> by (vm_compute in Hx6; injection Hx6 as <-; reflexivity).
  destruct (dumps_dict _ _ Ht) as (t & ->). destruct (strip_braces t x5 Hx5) as (Hstrip & Hdone & Hne5).
  pose proof (printable_encoded _ _ Hname Hx2) as P2. pose proof (printable_encoded _ _ Hp Hx5) as P5.
  assert (E : split_frames ((str "event: " ++ x2 ++ [10] ++ str "data: " ++ x5 ++ [10; 10]) ++ s) =
    (((str "event: " ++ x2) ++ [10] ++ (str "data: " ++ x5), 2%nat) :: fst (split_frames s), snd (split_frames s))).
  { rewrite <- (split_two_lines (str "event: " ++ x2) (str "data: " ++ x5) s).
    - by rewrite <- !app_assoc.
    - rewrite printable_app, P2. done.
    - rewrite printable_app, P5. done.
    - by destruct x5. }
  assert (Hframe : frame_items loads ((str "event: " ++ x2) ++ [10] ++ (str "data: " ++ x5)) = [Ok (Event (PDict body))]).
  { unfold frame_items. set (l1 := str "event: " ++ x2). set (l2 := str "data: " ++ x5).
    assert (P1 : printable l1 = true) by (unfold l1; by rewrite printable_app, P2).
    assert (P3 : printable l2 = true) by (unfold l2; by rewrite printable_app, P5).
    assert (Hnl : forall l, printable l = true -> ~ In 10 l).
    { intros l Hl%printable_head Hin. rewrite List.Forall_forall in Hl. specialize (Hl 10 Hin). lia. }
    rewrite crlf_printable by done. change (crlf_to_lf ([10] ++ l2)) with (crlf_to_lf (10 :: l2)).
    assert (Hlf : crlf_to_lf (10 :: l2) = 10 :: l2).
    { pose proof (crlf_printable l2 [] P3) as Hc. rewrite app_nil_r in Hc. cbn [crlf_to_lf] in Hc |- *.
      rewrite app_nil_r in Hc. destruct l2; [done|]. change (10 =? 13) with false. cbn [andb]. f_equal. exact Hc. }
    rewrite Hlf, split_on_app_sep by (by apply Hnl). rewrite split_on_none by (by apply Hnl).
    cbn [omap list_omap]. change (line_item loads l1) with (@None (result sse_item)).
    unfold line_item. change (startswith DATA l2) with true. cbn [drop]. unfold l2.
    change (drop 5 (str "data: " ++ x5)) with (32 :: x5). cbn zeta. rewrite Hstrip, Hdone.
    by rewrite (Hloads (PDict body) _ x5 Hok Ht Hx5). }
  unfold parse_chat_sse_frames. rewrite E. unfold all_items. cbn [map concat fst]. rewrite Hframe. cbn [app collect].
  destruct (split_frames s) as [f r]. cbn [fst snd].
  by destruct (collect (concat (map (fun f => frame_items loads (fst f)) f))).
Qed.

(** What the gateway writes, an event-stream client reads back: the
    frames of any sequence of events, concatenated, parse into exactly the
    payloads, in order, each with the event's name as "type", and nothing is
    left over; no value can break the framing. *)
Theorem events_roundtrip loads events frames : reads_back loads -> Forall event_ok events ->
  mapM_result sse_event events = Ok frames ->
  parse_chat_sse_frames loads (concat frames) = Ok (map (fun e => event_body (fst e) (snd e)) events, []).
Proof.
  intros Hloads Hok H%mapM_result_Ok. revert Hok. induction H as [|event b events frames Hb _ IH]; intros Hok; [done|].
  apply Forall_cons in Hok as [Ho Hok]. cbn [concat map].
  rewrite (parse_event loads event b _ Hloads Ho Hb), (IH Hok). done.
Qed.

(** ** [json.loads] of UTF-8 *)
Definition json_bytes (b : bytes) : result pyval :=
  text ← of_option (utf8_decode b) (UnicodeError (str "invalid utf-8"));
  of_option (loads default_hooks text) JSONDecodeError.

Lemma json_bytes_reads_back : reads_back json_bytes.
Proof.
  intros v text b Hv Ht Hb. unfold json_bytes. rewrite (utf8_roundtrip _ _ Hb). cbn [of_option mbind result_bind].
  rewrite (dumps_text _ _ Ht).
  rewrite (loads_value_text (default_style false) [32] [32] (default_plain false) default_hooks default_rebuilding v Hv). done.
Qed.

Definition demo_events : list (pystr * pydict) :=
  [(str "response.created", [(str "n", PInt 0)]); (str "response.output_text.delta", [(str "delta", PStr [104; 233; 10; 10])])].

Lemma events_roundtrip_witness : Forall event_ok demo_events /\
  exists frames, mapM_result sse_event demo_events = Ok frames /\
    parse_chat_sse_frames json_bytes (concat frames) = Ok (map (fun e => event_body (fst e) (snd e)) demo_events, []).
Proof.
  assert (H : Forall event_ok demo_events) by (repeat constructor).
  split; [exact H|].
  destruct (mapM_result sse_event demo_events) as [frames|e] eqn:E; [|vm_compute in E; discriminate E].
  exists frames. split; [reflexivity|].
  exact (events_roundtrip json_bytes demo_events frames json_bytes_reads_back H E).
Defined.

(** ** Metering *)
Section Metering.
Variable loads : bytes -> result pyval.

(** The chunks of a response, fed to a scanner *)
Fixpoint scanner_run (s : scanner) (chunks : list bytes) : scanner * result unit :=
  match chunks with
  | [] => (s, Ok tt)
  | chunk :: more =>
      match scanner_feed loads s chunk with
      | (s, Raise e) => (s, Raise e)
      | (s, Ok _) => scanner_run s more
      end
  end.

Lemma scan_usage_app a b : forall u, scan_usage u (a ++ b) =
  match scan_usage u a with (u, Ok _) => scan_usage u b | (u, Raise e) => (u, Raise e) end.
Proof. induction a as [|[item|e] a IH]; intros u; cbn [scan_usage app]; [done|apply IH|done]. Qed.

Lemma scan_frames_Ok frames rest : forall u s r, scan_frames loads u frames rest = (s, Ok r) ->
  sc_buffer s = rest /\ scan_usage u (all_items loads frames) = (sc_usage s, Ok tt).
Proof.
  induction frames as [|f more IH]; intros u s r; cbn [scan_frames]; [by intros [= <- <-]|].
  unfold all_items. cbn [map concat]. rewrite scan_usage_app.
  destruct (scan_usage u (frame_items loads (fst f))) as [u' [[]|e]]; [|done]. intros H. by apply IH in H.
Qed.

Lemma scanner_feed_Ok s chunk s' r : scanner_feed loads s chunk = (s', Ok r) ->
  let tail := snd (split_frames (sc_buffer s ++ chunk)) in
  sc_buffer s' = (if MAX_BUFFER <? zlen tail then last_bytes MAX_BUFFER tail else tail) /\
  scan_usage (sc_usage s) (all_items loads (fst (split_frames (sc_buffer s ++ chunk)))) = (sc_usage s', Ok tt).
Proof.
  unfold scanner_feed. destruct (split_frames _) as [frames rest]. cbn [fst snd].
  destruct (scan_frames loads (sc_usage s) frames rest) as [s1 [[]|e]] eqn:E; [|done].
  apply scan_frames_Ok in E as [<- E]. by intros [= <- _].
Qed.

Lemma last_bytes_length n s : 0 <= n -> zlen (last_bytes n s) <= n.
Proof. intros Hn. unfold last_bytes, zlen. rewrite length_drop. lia. Qed.

(** Metering reads the stream without keeping it: the scanner never holds
    more than 64 KiB after a chunk, and as long as no single unfinished event
    outgrows that, the usage it reports is that of the last complete event
    with one, however the stream was cut. *)
Theorem metering_exact chunks s : scanner_run new_scanner chunks = (s, Ok tt) ->
  (forall chunk s' r, scanner_feed loads s chunk = (s', Ok r) -> zlen (sc_buffer s') <= MAX_BUFFER) /\
  ((forall k, k `prefix_of` chunks -> zlen (snd (split_frames (concat k))) <= MAX_BUFFER) ->
   scan_usage None (all_items loads (fst (split_frames (concat chunks)))) = (sc_usage s, Ok tt)).
Proof.
  intros Hrun. split.
  { intros chunk s' r [Hb _]%scanner_feed_Ok. cbn zeta in Hb. rewrite Hb.
    destruct (Z.ltb_spec MAX_BUFFER (zlen (snd (split_frames (sc_buffer s ++ chunk))))); [|done].
    by apply last_bytes_length. }
  assert (Hgen : forall chunks s0, split_frames (sc_buffer s0) = ([], sc_buffer s0) -> scanner_run s0 chunks = (s, Ok tt) ->
    (forall k, k `prefix_of` chunks -> zlen (snd (split_frames (sc_buffer s0 ++ concat k))) <= MAX_BUFFER) ->
    scan_usage (sc_usage s0) (all_items loads (fst (split_frames (sc_buffer s0 ++ concat chunks)))) = (sc_usage s, Ok tt)).
  { clear. induction chunks as [|chunk more IH]; intros s0 Hs0; cbn [scanner_run concat].
    { intros [= ->] _. by rewrite app_nil_r, Hs0. }
    destruct (scanner_feed loads s0 chunk) as [s1 [[]|e]] eqn:E; [|done]. intros Hrun Hk.
    apply scanner_feed_Ok in E as [Hb Hu]. cbn zeta in Hb.
    assert (H1 : zlen (snd (split_frames (sc_buffer s0 ++ chunk))) <= MAX_BUFFER).
    { specialize (Hk [chunk]). cbn in Hk. rewrite app_nil_r in Hk. apply Hk. by exists more. }
    rewrite (proj2 (Z.ltb_ge _ _)) in Hb by lia. rewrite app_assoc, split_frames_app. cbn [fst].
    unfold all_items. rewrite map_app, concat_app, scan_usage_app. fold (all_items loads (fst (split_frames (sc_buffer s0 ++ chunk)))).
    rewrite Hu, <- Hb. apply IH; [|done|].
    - rewrite Hb. pose proof (split_frames_app (sc_buffer s0 ++ chunk) []) as Ha. rewrite app_nil_r in Ha.
      destruct (split_frames (sc_buffer s0 ++ chunk)) as [f r]. cbn [fst snd] in *. rewrite app_nil_r in Ha.
      destruct (split_frames r) as [g r']. cbn [fst snd] in Ha. injection Ha as Ha ->.
      apply (f_equal length) in Ha. rewrite length_app in Ha. destruct g; [done|cbn in Ha; lia].
    - intros k Hp. rewrite Hb. specialize (Hk (chunk :: k)). cbn [concat] in Hk. rewrite app_assoc, split_frames_app in Hk.
      cbn [snd] in Hk. apply Hk. by apply prefix_cons. }
  intros Hk. apply (Hgen chunks new_scanner); done.
Qed.
End Metering.

Lemma metering_exact_witness :
  let chunks := [str "data: {}" ++ [10]; [10] ++ str "data: [DONE]" ++ [10; 10]] in
  scanner_run json_bytes new_scanner chunks = (new_scanner, Ok tt) /\
  (forall chunk s' r, scanner_feed json_bytes new_scanner chunk = (s', Ok r) -> zlen (sc_buffer s') <= MAX_BUFFER).
Proof.
  assert (H : scanner_run json_bytes new_scanner [str "data: {}" ++ [10]; [10] ++ str "data: [DONE]" ++ [10; 10]] = (new_scanner, Ok tt))
    by (vm_compute; reflexivity).
  split; [exact H|]. exact (proj1 (metering_exact json_bytes _ new_scanner H)).
Defined.
