(* ===== verification/PyText.v ===== *)
(** * Text of values

    [str(v)] and [repr(v)] of the values that JSON has, the idiom
    [str(v or default)], [int(v)], and what the code takes from the Unicode
    database ([str.lower], [str.isprintable] of one character, [int] of a
    string), which is an interface: its tables are data of the standard library
    that no theorem depends on. *)
From Stdlib Require Import ZArith Lia Bool String.
From Stdlib Require Import SpecFloat.
From stdpp Require Import prelude.
From S2P Require Import Prelude PyValue PyFloat Sha256 Json.
Open Scope Z_scope.

Class UnicodeData := {
  isprintable : Z -> bool;
  lower : pystr -> pystr;
  int_of_text : pystr -> result Z;
}.

(** What the documentation says of ASCII text *)
Definition lower_char (c : Z) : Z := if is_upper c then c + 32 else c.

Class UnicodeSpec `{UnicodeData} := {
  lower_ascii : forall s, is_ascii s = true -> lower s = map lower_char s;
  int_of_digits : forall s, s <> [] -> forallb is_digit s = true -> zlen s <= MAX_STR_DIGITS ->
    int_of_text s = Ok (digits_value s);
}.

(** The values of a program in which every string is ASCII: what the witnesses
    run with *)
Definition ascii_data : UnicodeData := {|
  isprintable := fun c => (32 <=? c) && (c <? 127);
  lower := map lower_char;
  int_of_text := fun s =>
    if forallb is_digit s && negb (zlen s =? 0) && (zlen s <=? MAX_STR_DIGITS) then Ok (digits_value s)
    else Raise (ValueError (str "invalid literal for int() with base 10"));
|}.

Lemma ascii_spec : UnicodeSpec (H := ascii_data).
Proof.
  split; [done|]. intros s Hn Hd Hl. cbn. rewrite Hd. destruct (Z.eqb_spec (zlen s) 0) as [E|_].
  - destruct s; [done|]. rewrite zlen_cons in E. pose proof (zlen_nonneg s). lia.
  - by rewrite (proj2 (Z.leb_le _ _) Hl).
Qed.

(** [a or b] *)
Definition py_or (a b : pyval) : pyval := if truthy a then a else b.

(** A dictionary display with literal keys *)
Declare Scope dict_scope.
Delimit Scope dict_scope with dict.
Notation "k :-> v" := (str k%string, v) (at level 60, only parsing) : dict_scope.
Notation text s := (PStr (str s%string)) (only parsing).
Definition get (k : string) (d : pydict) : pyval := get_or_none (str k) d.
Definition has (k : string) (d : pydict) : bool := dict_mem (str k) d.

(** A set of strings as a list without repetitions *)
Definition set_add (x : pystr) (l : list pystr) : list pystr := if str_in x l then l else l ++ [x].
Definition set_union (l k : list pystr) : list pystr := fold_left (fun acc x => set_add x acc) k l.

Section Text.
Context `{UnicodeData}.

Definition hex_text (digits : nat) (c : Z) : pystr :=
  map (fun i => hex_digit (c / 16 ^ Z.of_nat i mod 16)) (rev (seq 0 digits)).

(** One character of [repr(s)] between quotes [q] *)
Definition repr_char (q c : Z) : pystr :=
  if (c =? q) || (c =? 92) then [92; c]
  else if c =? 10 then [92; 110]
  else if c =? 13 then [92; 114]
  else if c =? 9 then [92; 116]
  else if (c <? 32) || (c =? 127) then [92; 120] ++ hex_text 2 c
  else if (c <? 127) || isprintable c then [c]
  else if c <=? 255 then [92; 120] ++ hex_text 2 c
  else if c <=? 65535 then [92; 117] ++ hex_text 4 c
  else [92; 85] ++ hex_text 8 c.

Definition str_repr (s : pystr) : pystr :=
  let q := if existsb (Z.eqb 39) s && negb (existsb (Z.eqb 34) s) then 34 else 39 in
  q :: concat (map (repr_char q) s) ++ [q].

Fixpoint py_repr (v : pyval) : pystr :=
  match v with
  | PNone => str "None"
  | PBool b => if b then str "True" else str "False"
  | PInt n => dec n
  | PFloat f => float_repr f
  | PStr s => str_repr s
  | PList l => 91 :: join (str ", ") (map py_repr l) ++ [93]
  | PDict d => 123 :: join (str ", ") (map (fun p => str_repr (fst p) ++ str ": " ++ py_repr (snd p)) d) ++ [125]
  end.

(** [str(v)]; an integer that was decoded from JSON has at most 4300 digits,
    the limit of this conversion *)
Definition py_str (v : pyval) : pystr := match v with PStr s => s | _ => py_repr v end.

(** [str(v or default)] and [str(v or "")] *)
Definition str_or (v : pyval) (default : pystr) : pystr := py_str (py_or v (PStr default)).
Definition str_or_empty (v : pyval) : pystr := str_or v [].

(** [int(v)] *)
Definition py_int (v : pyval) : result Z :=
  match v with
  | PInt n => Ok n
  | PBool b => Ok (Z.b2z b)
  | PFloat S754_nan => Raise (ValueError (str "cannot convert float NaN to integer"))
  | PFloat (S754_infinity _) => Raise (OverflowError (str "cannot convert float infinity to integer"))
  | PFloat f =>
      match float_fraction f with
      | Some (n, k) => Ok (Z.quot n (2 ^ k))
      | None => Ok 0
      end
  | PStr s => int_of_text s
  | _ => Raise (TypeError (str "int() argument must be a string, a bytes-like object or a real number"))
  end.

Lemma str_or_str s default : s <> [] -> str_or (PStr s) default = s.
Proof. by destruct s. Qed.
Lemma str_or_empty_str s : str_or_empty (PStr s) = s.
Proof. by destruct s. Qed.
End Text.

Lemma set_add_In x y l : In x (set_add y l) <-> x = y \/ In x l.
Proof.
  unfold set_add. destruct (str_in y l) eqn:E; [apply str_in_In in E; naive_solver|].
  rewrite in_app_iff. cbn. naive_solver.
Qed.

Lemma set_union_In x k : forall l, In x (set_union l k) <-> In x l \/ In x k.
Proof.
  induction k as [|y k IH]; intros l; cbn; [tauto|]. unfold set_union in IH. rewrite IH, set_add_In. naive_solver.
Qed.

Example repr_value : py_repr (H := ascii_data)
  (PDict [(str "a'b", PList [PNone; PBool true; PInt (-3); PStr [10; 233]])]) =
  str "{" ++ [34] ++ str "a'b" ++ [34] ++ str ": [None, True, -3, '\n\xe9']}".
Proof. reflexivity. Qed.
