(* ===== verification/PurePath.v ===== *)
(** * Paths

    [PurePosixPath] of the standard library's [pathlib], as the runtime
    adapters and the model library use it: parsing, rendering, joining, the
    name, suffix and parents of a path, and the relative path to an ancestor. *)
From Stdlib Require Import ZArith Lia Bool String.
From stdpp Require Import prelude.
From S2P Require Import Prelude PyValue PosixPath.
Open Scope Z_scope.

(** [root] is empty, ["/"] or ["//"]; [tail] has the other parts. *)
Record path := mkPurePath { root : pystr; tail : list pystr }.

#[export] Instance path_eq_dec : EqDecision path.
Proof. solve_decision. Defined.

Definition path_eqb (p q : path) : bool := bool_decide (p = q).

Definition part_ok (c : pystr) : bool := negb (str_eqb c []) && negb (str_eqb c DOT).

(** [PurePosixPath(s)] *)
Definition parse_path (s : pystr) : path :=
  let root := if startswith (str "//") s && negb (startswith (str "///") s) then str "//"
              else if startswith (str "/") s then str "/" else [] in
  mkPurePath root (List.filter part_ok (split_on SLASH s)).

(** [str(p)] *)
Definition path_str (p : path) : pystr :=
  match root p ++ join (str "/") (tail p) with [] => DOT | s => s end.

Definition is_absolute (p : path) : bool := negb (str_eqb (root p) []).

(** [p / q] *)
Definition join_path (p q : path) : path :=
  if is_absolute q then q else mkPurePath (root p) (tail p ++ tail q).
Definition child (p : path) (name : pystr) : path := join_path p (parse_path name).

(** [p.name], [p.parent], [p.parents[n]] and [p.parts] *)
Definition path_name (p : path) : pystr := List.last (tail p) [].
Definition parent (p : path) : path := mkPurePath (root p) (removelast (tail p)).
Definition parents (n : nat) (p : path) : result path :=
  if (n <? length (tail p))%nat then Ok (mkPurePath (root p) (take (length (tail p) - n - 1) (tail p)))
  else Raise (OtherException (str "IndexError")).
Definition path_parts (p : path) : list pystr := if is_absolute p then root p :: tail p else tail p.

(** [name.rfind(".")], counted from the end *)
Definition rdot (name : pystr) : option nat := fst <$> list_find (Z.eq 46) (rev name).

(** [p.suffix] *)
Definition suffix (p : path) : pystr :=
  let name := path_name p in
  match rdot name with
  | Some k => if (0 <? k)%nat && (k + 1 <? length name)%nat then drop (length name - k - 1) name else []
  | None => []
  end.

Fixpoint strip_parts (prefix l : list pystr) : option (list pystr) :=
  match prefix, l with
  | [], _ => Some l
  | a :: prefix', b :: l' => if str_eqb a b then strip_parts prefix' l' else None
  | _, [] => None
  end.

(** [p.relative_to(r)] and [p.is_relative_to(r)] *)
Definition relative_to (p r : path) : result path :=
  if str_eqb (root p) (root r) then
    match strip_parts (tail r) (tail p) with
    | Some rest => Ok (mkPurePath [] rest)
    | None => Raise (ValueError (str "path is not in the subpath"))
    end
  else Raise (ValueError (str "path is not in the subpath")).
Definition is_relative_to (p r : path) : bool := match relative_to p r with Ok _ => true | Raise _ => false end.

(** ** Paths that [parse_path] gives *)

Definition well_parsed (p : path) : Prop :=
  (root p = [] \/ root p = str "/" \/ root p = str "//") /\
  Forall (fun c => part_ok c = true /\ ~ In SLASH c) (tail p).

Lemma parse_path_ok s : well_parsed (parse_path s).
Proof.
  split; cbn.
  - repeat case_match; tauto.
  - apply List.Forall_forall. intros c [Hc Hok]%filter_In. split; [done|]. by eapply split_on_no_sep.
Qed.

Lemma parent_ok p : well_parsed p -> well_parsed (parent p).
Proof.
  intros [Hr Hf]. split; [done|]. cbn. apply List.Forall_forall. intros c Hc.
  rewrite List.Forall_forall in Hf. apply Hf.
  destruct (tail p) as [|x l] using rev_ind; [done|]. rewrite removelast_last in Hc. apply in_app_iff. by left.
Qed.

Lemma join_path_ok p q : well_parsed p -> well_parsed q -> well_parsed (join_path p q).
Proof.
  intros [Hr Hf] [Hr2 Hf2]. unfold join_path. case_match; [done|]. split; [done|]. cbn. by apply Forall_app.
Qed.

Lemma strip_parts_spec prefix : forall l rest, strip_parts prefix l = Some rest <-> l = prefix ++ rest.
Proof.
  induction prefix as [|a prefix IH]; intros l rest; cbn; [naive_solver|].
  destruct l as [|b l]; [naive_solver|]. destruct (str_eqb_spec a b) as [->|Hne]; [|naive_solver].
  rewrite IH. naive_solver.
Qed.

(** The relative path is what leads from the ancestor to the path. *)
Lemma relative_to_join p r q : relative_to p r = Ok q -> root q = [] /\ join_path r q = p.
Proof.
  unfold relative_to. destruct (str_eqb_spec (root p) (root r)) as [Hr|]; [|done].
  destruct (strip_parts (tail r) (tail p)) as [rest|] eqn:Es; [|done]. injection 1 as <-.
  apply strip_parts_spec in Es. split; [done|]. unfold join_path. cbn. rewrite <- Es, <- Hr. by destruct p.
Qed.

Lemma relative_to_ok p r q : well_parsed p -> relative_to p r = Ok q -> well_parsed q.
Proof.
  intros [_ Hf] Hq. destruct (relative_to_join p r q Hq) as [Hr Hj]. split; [by left|].
  revert Hq. unfold relative_to. case_match; [|done]. case_match eqn:Es; [|done]. injection 1 as <-.
  apply strip_parts_spec in Es. rewrite Es in Hf. cbn. by apply Forall_app in Hf as [_ ?].
Qed.

(** Rendering and parsing *)

Lemma filter_all {A} (f : A -> bool) l : Forall (fun x => f x = true) l -> List.filter f l = l.
Proof. induction 1 as [|x l Hx _ IH]; cbn; [done|]. by rewrite Hx, IH. Qed.

Lemma split_join_parts l : l <> [] -> Forall (fun c => ~ In SLASH c) l -> split_on SLASH (join (str "/") l) = l.
Proof.
  induction l as [|x l IH]; [done|]. intros _ Hf. inversion_clear Hf as [|? ? Hx Hl].
  destruct l as [|y l]; [by apply split_on_none|].
  rewrite join_cons by done. change (str "/" ++ ?w) with (SLASH :: w).
  rewrite split_on_app_sep by done. f_equal. by apply IH.
Qed.

Lemma startswith_slash c w : ~ In SLASH c -> c <> [] -> startswith (str "/") (c ++ w) = false.
Proof.
  intros Hc Hn. destruct c as [|x c]; [done|].
  change (startswith (str "/") ((x :: c) ++ w)) with ((SLASH =? x) && true). rewrite andb_true_r.
  apply Z.eqb_neq. intros <-. apply Hc. cbn. by left.
Qed.

Lemma rendered_tail l : l <> [] -> Forall (fun c => part_ok c = true /\ ~ In SLASH c) l ->
  startswith (str "/") (join (str "/") l) = false /\ List.filter part_ok (split_on SLASH (join (str "/") l)) = l.
Proof.
  intros Hn Hf. split.
  - destruct l as [|x l]; [done|]. inversion_clear Hf as [|? ? [Hx Hs] Hl].
    assert (Hx0 : x <> []) by (by intros ->).
    destruct l as [|y l]; [rewrite <- (app_nil_r x)|rewrite join_cons by done]; by apply startswith_slash.
  - rewrite split_join_parts; [|done|eapply Forall_impl; [done|]; naive_solver].
    apply filter_all. eapply Forall_impl; [done|]. naive_solver.
Qed.

Lemma parse_path_str p : well_parsed p -> parse_path (path_str p) = p.
Proof.
  destruct p as [r l]. intros [Hr Hf]. cbn in Hr, Hf. unfold path_str. cbn [root tail].
  destruct (decide (l = [])) as [->|Hn]; [by destruct Hr as [->|[->| ->]]|].
  destruct (rendered_tail l Hn Hf) as [Hs Ht]. set (t := join (str "/") l) in *.
  assert (Htn : t <> []).
  { intros E. rewrite E in Ht. cbn in Ht. by rewrite <- Ht in Hn. }
  destruct t as [|c t']; [done|]. change ((SLASH =? c) && true = false) in Hs. rewrite andb_true_r in Hs.
  destruct Hr as [->|[->| ->]]; unfold parse_path.
  - change ([] ++ c :: t') with (c :: t'). cbv iota.
    change (startswith (str "//") (c :: t')) with ((SLASH =? c) && startswith (str "/") t').
    change (startswith (str "/") (c :: t')) with ((SLASH =? c) && true). rewrite !Hs. cbn -[split_on]. by rewrite Ht.
  - change (str "/" ++ c :: t') with (SLASH :: c :: t'). cbv iota.
    change (SLASH :: c :: t') with ([] ++ SLASH :: c :: t'). rewrite split_on_app_sep by (intros []).
    change (startswith (str "//") ([] ++ SLASH :: c :: t')) with ((SLASH =? c) && true).
    cbn -[split_on Z.eqb]. by rewrite Hs, Ht.
  - change (str "//" ++ c :: t') with (SLASH :: SLASH :: c :: t'). cbv iota.
    change (SLASH :: SLASH :: c :: t') with ([] ++ SLASH :: [] ++ SLASH :: c :: t').
    rewrite !split_on_app_sep by (intros []).
    change (startswith (str "///") ([] ++ SLASH :: [] ++ SLASH :: c :: t')) with ((SLASH =? c) && true).
    rewrite Hs. cbn -[split_on Z.eqb]. by rewrite Ht.
Qed.
