(* ===== verification/RuntimeSpec.v ===== *)
(** * Deployment specifications

    The data of [backend/app/runtime/base.py] (what an operator asks for when a
    model is deployed), their validators, and the functions that only compute
    on them: the speculative-decoding settings, the managed chat template, the
    parser tables and the name of the container. *)
From Stdlib Require Import ZArith Lia Bool String SpecFloat.
From stdpp Require Import prelude.
From S2P Require Import Prelude PyValue PosixPath PyFloat Utf8 Sha256 Json PyTime Secrets PyText PurePath.
Open Scope Z_scope.

Definition QUANTIZATION_METHODS : list pystr :=
  map str ["auto"; "awq"; "gptq"; "fp8"; "bitsandbytes"; "marlin"; "gguf"; "modelopt"; "modelopt_fp4";
           "nvfp4_online"; "compressed-tensors"]%string.
Definition RECOMMENDATION_SOURCES : list pystr :=
  map str ["model_card"; "local_config"; "runtime_default"; "device_rule"; "ai"]%string.

Definition QWEN_FIXED_CHAT_TEMPLATE_PROFILE : pystr := str "qwen-fixed-v22.4".
Definition QWEN_FIXED_CHAT_TEMPLATE_VERSION : pystr := str "qwen3.8-froggeric-v22.4".
Definition QWEN_FIXED_CHAT_TEMPLATE_FILENAME : pystr := str ".dgx-qwen-fixed-v22.4.jinja".
Definition CHAT_TEMPLATE_PROFILES : list pystr := [str "model"; QWEN_FIXED_CHAT_TEMPLATE_PROFILE].

(** ** Field constraints *)

Definition opt_ok {A} (ok : A -> bool) (o : option A) : bool := match o with Some a => ok a | None => true end.
Definition is_some {A} (o : option A) : bool := match o with Some _ => true | None => false end.
Definition int_in (lo hi n : Z) : bool := (lo <=? n) && (n <=? hi).
Definition length_in (lo hi : Z) (s : pystr) : bool := int_in lo hi (zlen s).
Definition num_text (s : string) : spec_float := parse_float (str s).
(** [Field(ge=lo, le=hi)] and [Field(gt=0, le=hi)] *)
Definition float_in (lo hi x : spec_float) : bool := SFleb lo x && SFleb x hi.
Definition float_above0 (hi x : spec_float) : bool := SFltb (num_text "0") x && SFleb x hi.

(** A field whose constraint does not hold *)
Definition field_error : exn := ValueError (str "validation error").

(** ** llama.cpp settings *)

Inductive GpuLayers := all_layers | layers (n : Z).

Record LlamaCppConfig := mkLlamaCpp {
  model_file : option pystr;
  mmproj_file : option pystr;
  gpu_layers : GpuLayers;
  jinja : bool;
  continuous_batching : bool;
  mtp_enabled : bool;
  mtp_tokens : Z;
  flash_attention : pystr;
  cache_type_k : pystr;
  cache_type_v : pystr;
  batch_size : Z;
  ubatch_size : Z;
  cache_ram_mib : Z;
  context_checkpoints : Z;
}.

(** [LlamaCppConfig()] *)
Definition default_llama_cpp : LlamaCppConfig :=
  mkLlamaCpp None None all_layers true true false 3 (str "auto") (str "f16") (str "f16") 2048 512 8192 32.

Section Validators.
Context `{UnicodeData}.

Definition validate_gguf_filename (value : option pystr) : result unit :=
  match value with
  | None => Ok tt
  | Some v =>
      guard_exn (negb (str_eqb v [] || str_in v [DOT; DOTDOT] || existsb (Z.eqb 47) v || existsb (Z.eqb 92) v
                       || existsb (Z.eqb 0) v || negb (endswith (str ".gguf") (lower v))))
        (ValueError (str "llama.cpp files must be GGUF basenames"))
  end.

Definition validate_gpu_layers (value : GpuLayers) : result unit :=
  match value with
  | all_layers => Ok tt
  | layers n => guard_exn (int_in 0 10000 n) (ValueError (str "gpu_layers must be 'all' or an integer from 0 to 10000"))
  end.

Definition validate_cache_settings (c : LlamaCppConfig) : result unit :=
  _ ← guard_exn (ubatch_size c <=? batch_size c) (ValueError (str "ubatch_size cannot exceed batch_size"));
  guard_exn (str_eqb (cache_type_v c) (str "f16") || str_eqb (flash_attention c) (str "on"))
    (ValueError (str "Quantized V cache requires flash_attention='on'")).

Definition llama_cpp_fields_ok (c : LlamaCppConfig) : bool :=
  opt_ok (length_in 0 255) (model_file c) && opt_ok (length_in 0 255) (mmproj_file c)
  && int_in 1 64 (mtp_tokens c)
  && str_in (flash_attention c) (map str ["auto"; "on"; "off"]%string)
  && str_in (cache_type_k c) (map str ["f16"; "q8_0"; "q4_0"]%string)
  && str_in (cache_type_v c) (map str ["f16"; "q8_0"; "q4_0"]%string)
  && int_in 32 8192 (batch_size c) && int_in 32 8192 (ubatch_size c)
  && int_in 0 65536 (cache_ram_mib c) && int_in 0 64 (context_checkpoints c).

(** Construction: the constraints of the fields and their validators, then the
    validator of the model *)
Definition new_LlamaCppConfig (c : LlamaCppConfig) : result LlamaCppConfig :=
  _ ← guard_exn (llama_cpp_fields_ok c) field_error;
  _ ← validate_gguf_filename (model_file c);
  _ ← validate_gguf_filename (mmproj_file c);
  _ ← validate_gpu_layers (gpu_layers c);
  _ ← validate_cache_settings c;
  Ok c.
End Validators.

(** ** Generation defaults *)

Inductive Stop := stop_one (s : pystr) | stop_list (l : list pystr).

Record GenerationDefaults := mkGeneration {
  temperature : option spec_float;
  top_p : option spec_float;
  top_k : option Z;
  min_p : option spec_float;
  repetition_penalty : option spec_float;
  presence_penalty : option spec_float;
  frequency_penalty : option spec_float;
  max_tokens : option Z;
  stop : option Stop;
}.

Definition no_defaults : GenerationDefaults := mkGeneration None None None None None None None None None.

Definition validate_stop (value : option Stop) : result unit :=
  let values := match value with Some (stop_one s) => [s] | Some (stop_list l) => l | None => [] end in
  guard_exn (negb ((16 <? zlen values) || existsb (fun item => str_eqb item [] || (500 <? zlen item)) values))
    (ValueError (str "stop must contain 1-16 non-empty strings of at most 500 characters")).

Definition generation_fields_ok (g : GenerationDefaults) : bool :=
  opt_ok (float_in (num_text "0") (num_text "2")) (temperature g)
  && opt_ok (float_above0 (num_text "1")) (top_p g)
  && opt_ok (int_in 0 1000000) (top_k g)
  && opt_ok (float_in (num_text "0") (num_text "1")) (min_p g)
  && opt_ok (float_above0 (num_text "2")) (repetition_penalty g)
  && opt_ok (float_in (num_text "-2") (num_text "2")) (presence_penalty g)
  && opt_ok (float_in (num_text "-2") (num_text "2")) (frequency_penalty g)
  && opt_ok (int_in 1 1048576) (max_tokens g).

Definition new_GenerationDefaults (g : GenerationDefaults) : result GenerationDefaults :=
  _ ← guard_exn (generation_fields_ok g) field_error;
  _ ← validate_stop (stop g);
  Ok g.

Definition set_field {A} (name : string) (f : A -> pyval) (o : option A) : pydict :=
  match o with Some a => [(str name, f a)] | None => [] end.

(** [generation_defaults.model_dump(exclude_none=True)] *)
Definition dump_generation (g : GenerationDefaults) : pydict :=
  set_field "temperature" PFloat (temperature g) ++ set_field "top_p" PFloat (top_p g)
  ++ set_field "top_k" PInt (top_k g) ++ set_field "min_p" PFloat (min_p g)
  ++ set_field "repetition_penalty" PFloat (repetition_penalty g)
  ++ set_field "presence_penalty" PFloat (presence_penalty g)
  ++ set_field "frequency_penalty" PFloat (frequency_penalty g)
  ++ set_field "max_tokens" PInt (max_tokens g)
  ++ set_field "stop" (fun s => match s with stop_one t => PStr t | stop_list l => PList (map PStr l) end) (stop g).

(** ** Speculative decoding *)

Inductive SpeculativeMethod := draft_model | dflash | dspark | eagle | eagle3 | mtp.

#[export] Instance method_eq_dec : EqDecision SpeculativeMethod.
Proof. solve_decision. Defined.

Definition method_text (m : SpeculativeMethod) : pystr :=
  match m with
  | draft_model => str "draft_model" | dflash => str "dflash" | dspark => str "dspark"
  | eagle => str "eagle" | eagle3 => str "eagle3" | mtp => str "mtp"
  end.

Record SpeculativeConfig := mkSpeculative {
  draft_model_id : option pystr;
  method : SpeculativeMethod;
  num_speculative_tokens : option Z;
  num_steps : option Z;
  eagle_top_k : option Z;
  num_draft_tokens : option Z;
  manual_review_acknowledged : bool;
}.

Definition is_method (m : SpeculativeMethod) (c : SpeculativeConfig) : bool := bool_decide (method c = m).

Definition validate_tuning_group (c : SpeculativeConfig) : result unit :=
  _ ← guard_exn (is_method mtp c || is_some (draft_model_id c))
        (ValueError (str "draft_model_id is required for external Draft Models"));
  if is_method dflash c then
    guard_exn (negb (is_some (num_steps c) || is_some (eagle_top_k c)))
      (ValueError (str "DFlash tuning only accepts num_draft_tokens"))
  else
    let values := [num_steps c; eagle_top_k c; num_draft_tokens c] in
    guard_exn (negb (existsb is_some values && negb (forallb is_some values)))
      (ValueError (str "set num_steps, eagle_top_k and num_draft_tokens together")).

Definition speculative_fields_ok (c : SpeculativeConfig) : bool :=
  opt_ok (length_in 1 64) (draft_model_id c)
  && opt_ok (int_in 1 64) (num_speculative_tokens c) && opt_ok (int_in 1 32) (num_steps c)
  && opt_ok (int_in 1 32) (eagle_top_k c) && opt_ok (int_in 1 256) (num_draft_tokens c).

Definition new_SpeculativeConfig (c : SpeculativeConfig) : result SpeculativeConfig :=
  _ ← guard_exn (speculative_fields_ok c) field_error;
  _ ← validate_tuning_group c;
  Ok c.

(** ** The provenance of a recommendation *)

Record ResourceSnapshot := mkSnapshot { total_bytes : Z; available_bytes : Z; reserved_bytes : Z }.

Record RecommendationProvenance := mkProvenance {
  generated_at : datetime;
  evidence_hash : pystr;
  provider_id : option pystr;
  resource_snapshot : ResourceSnapshot;
  modified_fields : list pystr;
  sources : list (pystr * pystr);
}.

Definition lower_hex (c : Z) : bool := is_digit c || int_in 97 102 c.

Definition provenance_fields_ok (r : RecommendationProvenance) : bool :=
  (zlen (evidence_hash r) =? 64) && forallb lower_hex (evidence_hash r)
  && opt_ok (length_in 0 64) (provider_id r)
  && (0 <=? total_bytes (resource_snapshot r)) && (0 <=? available_bytes (resource_snapshot r))
  && (0 <=? reserved_bytes (resource_snapshot r))
  && (zlen (modified_fields r) <=? 64)
  && forallb (fun p => str_in (snd p) RECOMMENDATION_SOURCES) (sources r).

(** ** The specification of a deployment *)

(** What [ResolvedDeploymentSpec] adds *)
Record Resolution := mkResolution {
  base_model_root : option pystr;
  base_host_model_root : option pystr;
  base_container_model_path : option pystr;
  resolved_draft_model_path : option pystr;
  draft_model_root : option pystr;
  draft_host_model_root : option pystr;
  draft_container_model_path : option pystr;
  speculative_runtime_method : option pystr;
}.

(** [DeploymentSpec]; with [sp_resolution], a [ResolvedDeploymentSpec] *)
Record DeploymentSpec := mkSpec {
  sp_name : pystr;
  sp_model_id : option pystr;
  sp_model_path : pystr;
  sp_api_model_name : pystr;
  sp_route_alias : option pystr;
  sp_runtime : pystr;
  sp_image : pystr;
  sp_port : option Z;
  sp_context_length : Z;
  sp_max_total_tokens : option Z;
  sp_memory_fraction : spec_float;
  sp_max_concurrency : Z;
  sp_max_batched_tokens : option Z;
  sp_disable_cuda_graph : bool;
  sp_quantization : option pystr;
  sp_trust_remote_code : bool;
  sp_generation_defaults : GenerationDefaults;
  sp_chat_template : option pystr;
  sp_chat_template_kwargs : option pydict;
  sp_speculative : option SpeculativeConfig;
  sp_llama_cpp : option LlamaCppConfig;
  sp_recommendation : option RecommendationProvenance;
  sp_resource_warning_acknowledged : bool;
  sp_resolution : option Resolution;
}.

Definition with_kwargs (kwargs : option pydict) (s : DeploymentSpec) : DeploymentSpec :=
  mkSpec (sp_name s) (sp_model_id s) (sp_model_path s) (sp_api_model_name s) (sp_route_alias s) (sp_runtime s)
    (sp_image s) (sp_port s) (sp_context_length s) (sp_max_total_tokens s) (sp_memory_fraction s)
    (sp_max_concurrency s) (sp_max_batched_tokens s) (sp_disable_cuda_graph s) (sp_quantization s)
    (sp_trust_remote_code s) (sp_generation_defaults s) (sp_chat_template s) kwargs (sp_speculative s)
    (sp_llama_cpp s) (sp_recommendation s) (sp_resource_warning_acknowledged s) (sp_resolution s).

Definition identifier_first (c : Z) : bool := is_alpha c || (c =? 95).
Definition identifier_next (c : Z) : bool := is_alnum c || (c =? 95).

(** [re.fullmatch(r"[A-Za-z_][A-Za-z0-9_]{0,63}", key)] *)
Definition kwarg_name (key : pystr) : bool :=
  match key with c :: r => identifier_first c && forallb identifier_next r && (zlen r <=? 63) | [] => false end.

Definition kwarg_value_ok (v : pyval) : bool :=
  match v with PStr s => length_in 1 200 s | _ => true end.

Section Spec.
Context `{UnicodeData}.

Fixpoint check_kwargs (items : pydict) : result unit :=
  match items with
  | [] => Ok tt
  | (key, item) :: rest =>
      _ ← guard_exn (kwarg_name key) (ValueError (str "Unsupported chat template kwarg name: " ++ str_repr key));
      _ ← guard_exn (kwarg_value_ok item)
            (ValueError (str "chat template kwarg " ++ str_repr key ++ str " must be 1-200 characters"));
      check_kwargs rest
  end.

Definition validate_chat_template_kwargs (value : option pydict) : result (option pydict) :=
  match value with
  | None | Some [] => Ok None
  | Some items =>
      _ ← guard_exn (zlen items <=? 16) (ValueError (str "chat_template_kwargs accepts at most 16 entries"));
      _ ← check_kwargs items;
      Ok (Some items)
  end.

Definition api_name_next (c : Z) : bool := is_alnum c || existsb (Z.eqb c) [46; 95; 58; 47; 45].

(** [re.fullmatch(r"[A-Za-z0-9][A-Za-z0-9._:/-]*", value)] *)
Definition api_name_ok (value : pystr) : bool :=
  match value with c :: r => is_alnum c && forallb api_name_next r | [] => false end.

Definition validate_api_model_name (value : option pystr) : result unit :=
  guard_exn (opt_ok api_name_ok value) (ValueError (str "API model name contains unsupported characters")).

Definition in_quantization (allowed : list pystr) (s : DeploymentSpec) : bool :=
  opt_ok (fun q => str_in q allowed) (sp_quantization s).

Definition validate_runtime_specific_settings (s : DeploymentSpec) : result unit :=
  _ ← guard_exn (opt_ok (fun n => n <=? sp_context_length s) (sp_max_total_tokens s))
        (ValueError (str "max_total_tokens cannot exceed context_length"));
  if str_eqb (sp_runtime s) (str "llama_cpp") then
    _ ← guard_exn (in_quantization [str "auto"; str "gguf"] s)
          (ValueError (str "llama.cpp deployments require GGUF quantization"));
    _ ← guard_exn (negb (sp_trust_remote_code s)) (ValueError (str "llama.cpp does not support trust_remote_code"));
    guard_exn (negb (is_some (sp_speculative s))) (ValueError (str "llama.cpp MTP must use llama_cpp settings"))
  else
    guard_exn (negb (is_some (sp_llama_cpp s))) (ValueError (str "llama_cpp settings require the llama_cpp runtime")).

Definition is_scalar_kwarg (v : pyval) : bool :=
  match v with PStr _ | PBool _ | PInt _ | PFloat _ => true | _ => false end.

Definition spec_fields_ok (s : DeploymentSpec) : bool :=
  length_in 1 120 (sp_name s) && length_in 1 255 (sp_api_model_name s)
  && opt_ok (length_in 1 255) (sp_route_alias s)
  && opt_ok (int_in 1024 65535) (sp_port s)
  && int_in 1024 1048576 (sp_context_length s)
  && opt_ok (int_in 1024 1048576) (sp_max_total_tokens s)
  && float_in (num_text "0.05") (num_text "0.98") (sp_memory_fraction s)
  && int_in 1 1024 (sp_max_concurrency s)
  && opt_ok (int_in 1024 1048576) (sp_max_batched_tokens s)
  && in_quantization QUANTIZATION_METHODS s
  && opt_ok (fun p => str_in p CHAT_TEMPLATE_PROFILES) (sp_chat_template s)
  && opt_ok (forallb (fun p => is_scalar_kwarg (snd p))) (sp_chat_template_kwargs s)
  && opt_ok provenance_fields_ok (sp_recommendation s).

(** Construction of a specification, of validated parts *)
Definition new_DeploymentSpec (s : DeploymentSpec) : result DeploymentSpec :=
  _ ← guard_exn (spec_fields_ok s) field_error;
  _ ← match sp_llama_cpp s with Some c => new_LlamaCppConfig c | None => Ok default_llama_cpp end;
  _ ← new_GenerationDefaults (sp_generation_defaults s);
  _ ← match sp_speculative s with Some c => _ ← new_SpeculativeConfig c; Ok tt | None => Ok tt end;
  kwargs ← validate_chat_template_kwargs (sp_chat_template_kwargs s);
  _ ← validate_api_model_name (Some (sp_api_model_name s));
  _ ← validate_api_model_name (sp_route_alias s);
  _ ← validate_runtime_specific_settings s;
  Ok (with_kwargs kwargs s).
End Spec.

(** ** Settings resolved before the launch *)

Definition has_nul (s : pystr) : bool := existsb (Z.eqb 0) s.

Definition require_draft_container_path (s : DeploymentSpec) : result pystr :=
  match sp_speculative s with
  | None => Ok []
  | Some _ =>
      match r ← sp_resolution s; draft_container_model_path r with
      | Some path =>
          _ ← guard_exn (negb (str_eqb path []) && is_absolute (parse_path path) && negb (has_nul path))
                (ValueError (str "resolved draft container path is required"));
          Ok path
      | None => Raise (ValueError (str "resolved draft container path is required"))
      end
  end.

(** [re.fullmatch(r"[A-Za-z][A-Za-z0-9_]*", method)] *)
Definition runtime_method_ok (m : pystr) : bool :=
  match m with c :: r => is_alpha c && forallb identifier_next r | [] => false end.

Definition require_speculative_runtime_method (s : DeploymentSpec) : result pystr :=
  match sp_speculative s with
  | None => Ok []
  | Some _ =>
      match r ← sp_resolution s; speculative_runtime_method r with
      | Some ((_ :: _) as method) =>
          _ ← guard_exn (runtime_method_ok method) (ValueError (str "resolved speculative runtime method is invalid"));
          Ok method
      | _ => Raise (ValueError (str "resolved speculative runtime method is required"))
      end
  end.

(** ** The managed chat template *)

Definition slug_char (c : Z) : bool := is_lower c || is_digit c.

Definition is_qwen38_identifier `{CaseFolding} (value : option pystr) : bool :=
  let normalized := List.filter slug_char (casefold (default [] value)) in
  contains_text (str "qwen38") normalized.

Definition recommended_chat_template_profile `{CaseFolding} (s : DeploymentSpec) (identifiers : list (option pystr))
    : option pystr :=
  match sp_chat_template s with
  | Some p => Some p
  | None =>
      let candidates := [Some (sp_name s); sp_model_id s; Some (sp_model_path s); Some (sp_api_model_name s);
                         sp_route_alias s] ++ identifiers in
      if existsb is_qwen38_identifier candidates then Some QWEN_FIXED_CHAT_TEMPLATE_PROFILE else None
  end.

Definition container_chat_template_path (container_model_path : pystr) (template_path : path) : pystr :=
  path_str (child (parse_path container_model_path) (path_name template_path)).

Definition template_flag (runtime : pystr) : option pystr :=
  if str_eqb runtime (str "vllm") || str_eqb runtime (str "sglang") then Some (str "--chat-template")
  else if str_eqb runtime (str "llama_cpp") then Some (str "--chat-template-file") else None.

(** The flags that are replaced, with the argument after each *)
Definition flags_to_replace (runtime : pystr) : list pystr :=
  [str "--chat-template"; str "--chat-template-file"]
  ++ (if str_eqb runtime (str "llama_cpp") then [str "--reasoning-format"] else []).

Fixpoint without_flags (flags command : list pystr) : list pystr :=
  match command with
  | [] => []
  | item :: rest =>
      if str_in item flags then match rest with _ :: rest' => without_flags flags rest' | [] => [] end
      else item :: without_flags flags rest
  end.

Definition command_with_managed_chat_template (runtime : pystr) (command : list pystr) (container_model_path : pystr)
    : result (list pystr) :=
  template_flag ← of_option (template_flag runtime)
    (ValueError (str "Unsupported runtime for managed chat template: " ++ runtime));
  let container_root := parse_path container_model_path in
  _ ← guard_exn (is_absolute container_root && negb (has_nul container_model_path))
        (ValueError (str "Managed chat template requires an absolute container model path"));
  let upgraded := without_flags (flags_to_replace runtime) command in
  let template_path := path_str (child container_root QWEN_FIXED_CHAT_TEMPLATE_FILENAME) in
  Ok (upgraded ++ [template_flag; template_path]
      ++ (if str_eqb runtime (str "llama_cpp") then [str "--reasoning-format"; str "deepseek"] else [])).

(** ** Parsers *)

Definition marker_table := list (pystr * list pystr).

Fixpoint match_parser (template : pystr) (markers : marker_table) : option pystr :=
  match markers with
  | [] => None
  | (name, required) :: rest =>
      if forallb (fun marker => contains_text marker template) required then Some name else match_parser template rest
  end.

(** ** Launch flags and the name of the container *)

(** [separators=(",", ":"), sort_keys=True] with the encoder's other defaults *)
Definition flag_style : dump_style :=
  {| item_separator := str ","; key_separator := str ":"; ensure_ascii := true; sort_keys := true; allow_nan := true |}.

Definition default_chat_template_kwargs_flags (s : DeploymentSpec) : result (list pystr) :=
  match sp_chat_template_kwargs s with
  | None | Some [] => Ok []
  | Some kwargs => text ← dumps flag_style (PDict kwargs); Ok [str "--default-chat-template-kwargs"; text]
  end.

(** [re.sub(r"[^a-z0-9]+", "-", s)]; [inside]: in a run that was replaced *)
Fixpoint dashed (inside : bool) (s : pystr) : pystr :=
  match s with
  | [] => []
  | c :: r => if slug_char c then c :: dashed false r else (if inside then [] else [45]) ++ dashed true r
  end.

Definition deterministic_container_name `{UnicodeData} (name : pystr) : pystr :=
  let slug := strip_with (Z.eqb 45) (dashed false (lower name)) in
  str "dgx-" ++ match take 55 slug with [] => str "model" | s => s end.

(** ** The upgrade of a command *)

Definition flag_free (flags command : list pystr) : Prop := Forall (fun item => str_in item flags = false) command.

Lemma without_flags_free flags : forall command, flag_free flags (without_flags flags command).
Proof.
  unfold flag_free. intros command. remember (length command) as n eqn:Hn.
  revert command Hn. induction (lt_wf n) as [n _ IH]. intros [|item rest] ->; cbn; [constructor|].
  destruct (str_in item flags) eqn:Ei.
  - destruct rest as [|value rest]; [constructor|]. eapply IH; [|done]. cbn. lia.
  - constructor; [done|]. eapply IH; [|done]. cbn. lia.
Qed.

Lemma without_flags_app flags a b : flag_free flags a -> without_flags flags (a ++ b) = a ++ without_flags flags b.
Proof. induction 1 as [|item a Hi _ IH]; cbn; [done|]. by rewrite Hi, IH. Qed.

Lemma template_flag_replaced runtime flag : template_flag runtime = Some flag ->
  str_in flag (flags_to_replace runtime) = true.
Proof. unfold template_flag, flags_to_replace. repeat case_match; by intros [= <-]. Qed.

(** An upgraded command is left alone. *)
Lemma upgraded_again runtime command container_model_path upgraded :
  command_with_managed_chat_template runtime command container_model_path = Ok upgraded ->
  command_with_managed_chat_template runtime upgraded container_model_path = Ok upgraded.
Proof.
  unfold command_with_managed_chat_template.
  destruct (template_flag runtime) as [flag|] eqn:Ef; [|done]. cbn [of_option mbind result_bind].
  destruct (is_absolute _ && _); [|done]. cbn [guard_exn mbind result_bind]. intros [= <-].
  f_equal. rewrite without_flags_app by apply without_flags_free. rewrite <- app_assoc. f_equal.
  cbn [without_flags app]. rewrite template_flag_replaced by done.
  destruct (str_eqb runtime (str "llama_cpp")) eqn:Er; [|done].
  unfold flags_to_replace. by rewrite Er.
Qed.

(** Upgrading a command with the managed chat template removes every template
    flag with its argument, keeps the other arguments in their order, ends in
    the flag of the runtime with the template's path, and changes nothing when
    it is done again. *)
Theorem managed_template_idempotent runtime command container_model_path upgraded :
  command_with_managed_chat_template runtime command container_model_path = Ok upgraded ->
  command_with_managed_chat_template runtime upgraded container_model_path = Ok upgraded /\
  exists flag rest, template_flag runtime = Some flag /\
    upgraded = without_flags (flags_to_replace runtime) command
               ++ [flag; path_str (child (parse_path container_model_path) QWEN_FIXED_CHAT_TEMPLATE_FILENAME)] ++ rest /\
    flag_free (flags_to_replace runtime) (without_flags (flags_to_replace runtime) command) /\
    (rest = [] \/ rest = [str "--reasoning-format"; str "deepseek"]).
Proof.
  intros Hu. split; [by eapply upgraded_again|]. revert Hu. unfold command_with_managed_chat_template.
  destruct (template_flag runtime) as [flag|] eqn:Ef; [|done]. cbn [of_option mbind result_bind].
  destruct (is_absolute _ && _); [|done]. cbn [guard_exn mbind result_bind]. intros [= <-].
  pose proof (without_flags_free (flags_to_replace runtime) command) as Hfree.
  eexists _, _; split_and!; [done..|destruct (str_eqb runtime (str "llama_cpp")); tauto].
Qed.

Definition demo_upgrade : result (list pystr) :=
  command_with_managed_chat_template (str "llama_cpp")
    (map str ["--model"; "/models/m/a.gguf"; "--reasoning-format"; "none"; "--jinja"]%string) (str "/models/m").

Lemma managed_template_idempotent_witness : exists upgraded,
  demo_upgrade = Ok upgraded /\
  command_with_managed_chat_template (str "llama_cpp") upgraded (str "/models/m") = Ok upgraded /\
  upgraded = map str ["--model"; "/models/m/a.gguf"; "--jinja"; "--chat-template-file";
                      "/models/m/.dgx-qwen-fixed-v22.4.jinja"; "--reasoning-format"; "deepseek"]%string.
Proof.
  destruct demo_upgrade as [upgraded|e] eqn:Eu; [|discriminate Eu].
  exists upgraded. split; [done|].
  destruct (managed_template_idempotent (str "llama_cpp") _ (str "/models/m") upgraded Eu) as [Hi _].
  split; [exact Hi|]. vm_compute in Eu. by injection Eu as <-.
Defined.

(** ** The name of a container *)

Lemma dashed_chars s : forall inside, forallb (fun c => slug_char c || (c =? 45)) (dashed inside s) = true.
Proof.
  induction s as [|c s IH]; intros inside; cbn; [done|].
  destruct (slug_char c) eqn:Ec; [cbn; by rewrite Ec, IH|]. by destruct inside; cbn; rewrite IH.
Qed.

Lemma lstrip_with_sub p s : exists a, s = a ++ lstrip_with p s.
Proof.
  induction s as [|c s [a IH]]; [by exists []|]. cbn. destruct (p c); [|by exists []].
  exists (c :: a). cbn. by rewrite <- IH.
Qed.

Lemma strip_with_forallb p q s : forallb q s = true -> forallb q (strip_with p s) = true.
Proof.
  intros Hs. unfold strip_with, rstrip_with. rewrite forallb_rev.
  destruct (lstrip_with_sub p (rev (lstrip_with p s))) as [a Ha].
  destruct (lstrip_with_sub p s) as [b Hb].
  rewrite Hb, forallb_app in Hs. apply andb_true_iff in Hs as [_ Hs].
  rewrite <- forallb_rev, Ha, forallb_app in Hs. by apply andb_true_iff in Hs as [_ Hs].
Qed.

(** The name of a container is a valid one whatever the name of the deployment
    is: a prefix and at most 55 lower-case letters, digits and dashes, not
    none. *)
Theorem container_name_valid `{UnicodeData} name : exists slug,
  deterministic_container_name name = str "dgx-" ++ slug /\ 1 <= zlen slug <= 55 /\
  forallb (fun c => slug_char c || (c =? 45)) slug = true.
Proof.
  unfold deterministic_container_name. set (s := strip_with _ _).
  assert (Hs : forallb (fun c => slug_char c || (c =? 45)) s = true) by apply strip_with_forallb, dashed_chars.
  clearbody s. destruct (take 55 s) as [|c r] eqn:Et; [by exists (str "model")|]. exists (c :: r). split; [done|]. split.
  - split; [rewrite zlen_cons; pose proof (zlen_nonneg r); lia|]. rewrite <- Et. unfold zlen. rewrite length_take. lia.
  - rewrite <- Et. rewrite <- (take_drop 55 s), forallb_app in Hs. by apply andb_true_iff in Hs as [Hs _].
Qed.

(** ** The defaults of the chat template *)

Lemma flag_style_plain : plain_style flag_style [] [].
Proof. by constructor. Qed.

Lemma sort_scalars d : forallb (fun p => is_scalar_kwarg (snd p)) d = true ->
  sort_value (PDict d) = PDict (sort_items d).
Proof.
  intros Hd. cbn. do 2 f_equal. induction d as [|[k v] d IH]; [done|]. cbn in *.
  apply andb_true_iff in Hd as [Hv Hd]. rewrite IH by done. by destruct v.
Qed.

(** The argument of the launch flag for the template's defaults is read back
    by a JSON decoder as the mapping of the specification, with the names in
    order. *)
Theorem kwargs_flag_roundtrip s kwargs : sp_chat_template_kwargs s = Some kwargs -> kwargs <> [] ->
  forallb (fun p => is_scalar_kwarg (snd p)) kwargs = true -> json_value_ok (PDict kwargs) = true ->
  exists text, default_chat_template_kwargs_flags s = Ok [str "--default-chat-template-kwargs"; text] /\
    loads default_hooks text = Some (PDict (sort_items kwargs)) /\ Permutation (sort_items kwargs) kwargs.
Proof.
  intros Hs Hn Hd Hok. unfold default_chat_template_kwargs_flags. rewrite Hs. destruct kwargs as [|p kwargs']; [done|].
  set (kwargs := p :: kwargs') in *. clearbody kwargs. unfold dumps. rewrite json_value_encodable by done.
  eexists. split; [done|]. split; [|apply sort_items_perm].
  cbn [sort_keys flag_style]. rewrite <- sort_scalars by done.
  eapply loads_value_text; [apply flag_style_plain|apply default_rebuilding|by apply sort_value_ok].
Qed.

Definition demo_spec : DeploymentSpec :=
  mkSpec (str "Qwen chat") None (str "/srv/models/qwen") (str "qwen") None (str "vllm") (str "vllm/image:1") (Some 8001)
    32768 None (num_text "0.8") 8 None false None false no_defaults None
    (Some [(str "reasoning_effort", text "low"); (str "enable_thinking", PBool false)]) None None None false None.

Lemma kwargs_flag_roundtrip_witness : exists text,
  default_chat_template_kwargs_flags demo_spec = Ok [str "--default-chat-template-kwargs"; text] /\
  text = str "{" ++ [34] ++ str "enable_thinking" ++ [34] ++ str ":false," ++ [34] ++ str "reasoning_effort" ++ [34]
         ++ str ":" ++ [34] ++ str "low" ++ [34] ++ str "}".
Proof.
  destruct (kwargs_flag_roundtrip demo_spec _ eq_refl ltac:(discriminate) eq_refl eq_refl) as (t & Ht & _).
  exists t. split; [exact Ht|]. vm_compute in Ht. by injection Ht as <-.
Defined.

(** ** The parser tables are ordered *)

Definition covers (a b : list pystr) : bool := forallb (fun m => str_in m a) b.

(** No entry is reached before one that asks for more markers *)
Fixpoint most_specific_first (t : marker_table) : bool :=
  match t with
  | [] => true
  | (_, required) :: rest =>
      forallb (fun e => negb (covers (snd e) required) || covers required (snd e)) rest && most_specific_first rest
  end.

Definition present (template : pystr) (required : list pystr) : bool :=
  forallb (fun marker => contains_text marker template) required.

Lemma match_parser_split template t name : match_parser template t = Some name ->
  exists a required b, t = a ++ (name, required) :: b /\ present template required = true /\
    Forall (fun e => present template (snd e) = false) a.
Proof.
  induction t as [|[n required] t IH]; [done|]. cbn. destruct (forallb _ required) eqn:E.
  - intros [= ->]. exists [], required, t. by split_and!.
  - intros (a & r & b & -> & Hr & Ha)%IH. exists ((n, required) :: a), r, b. by split_and!; [|done|constructor].
Qed.

(** In an ordered table, the parser that is chosen is the most specific one:
    another entry whose markers are all in the template does not ask for more
    markers than it. *)
Theorem chosen_parser_most_specific template t name :
  most_specific_first t = true -> match_parser template t = Some name ->
  exists required, In (name, required) t /\ present template required = true /\
    forall other more, In (other, more) t -> present template more = true -> covers more required = true ->
      covers required more = true.
Proof.
  intros Ht (a & required & b & -> & Hr & Ha)%match_parser_split. exists required.
  split; [apply in_app_iff; right; by left|]. split; [done|]. intros other more Hin Hp Hc.
  apply in_app_iff in Hin as [Hin|[[= -> ->]|Hin]].
  - rewrite List.Forall_forall in Ha. apply Ha in Hin. cbn [snd] in Hin. congruence.
  - apply forallb_forall. intros m Hm. by apply str_in_In.
  - assert (Hs : most_specific_first ((name, required) :: b) = true).
    { clear -Ht. induction a as [|[n r] a IH]; [exact Ht|]. cbn in Ht. apply andb_true_iff in Ht as [_ Ht]. auto. }
    cbn in Hs. apply andb_true_iff in Hs as [Hs _]. rewrite forallb_forall in Hs. apply Hs in Hin. cbn in Hin.
    rewrite Hc in Hin. by apply orb_true_iff in Hin as [Hin|Hin].
Qed.

(** ** Validated specifications *)

Record valid_spec `{UnicodeData} (s : DeploymentSpec) : Prop := {
  valid_fields : spec_fields_ok s = true;
  valid_name : api_name_ok (sp_api_model_name s) = true;
  valid_alias : opt_ok api_name_ok (sp_route_alias s) = true;
  valid_llama : opt_ok llama_cpp_fields_ok (sp_llama_cpp s) = true;
  valid_generation : generation_fields_ok (sp_generation_defaults s) = true;
  valid_kwargs : validate_chat_template_kwargs (sp_chat_template_kwargs s) = Ok (sp_chat_template_kwargs s);
  valid_settings : validate_runtime_specific_settings s = Ok tt;
}.

Lemma bind_result_inv {A B} (m : result A) (k : A -> result B) b : (m ≫= k) = Ok b -> exists a, m = Ok a /\ k a = Ok b.
Proof. destruct m as [a|e]; [by exists a|done]. Qed.

Ltac binds Hm :=
  repeat match type of Hm with
  | (guard_exn ?b ?e ≫= _) = Ok _ =>
      let E := fresh "Hg" in apply bind_result_inv in Hm as ([] & E & Hm); apply guard_exn_Ok in E
  | (?m ≫= _) = Ok _ => let x := fresh "x" in let E := fresh "Hb" in apply bind_result_inv in Hm as (x & E & Hm)
  end.

Lemma validate_kwargs_idem `{UnicodeData} o k : validate_chat_template_kwargs o = Ok k -> validate_chat_template_kwargs k = Ok k.
Proof.
  unfold validate_chat_template_kwargs at 1. destruct o as [[|p items]|]; [by intros [= <-]| |by intros [= <-]].
  intros Hm. binds Hm. injection Hm as <-. unfold validate_chat_template_kwargs. rewrite Hg. cbn [guard_exn mbind result_bind].
  by rewrite Hb.
Qed.

Lemma spec_fields_kwargs `{UnicodeData} s kwargs : validate_chat_template_kwargs (sp_chat_template_kwargs s) = Ok kwargs ->
  spec_fields_ok s = true -> spec_fields_ok (with_kwargs kwargs s) = true.
Proof.
  intros Hk Hs. unfold spec_fields_ok in *. rewrite !andb_true_iff in Hs. destruct_and! Hs.
  assert (Hkw : opt_ok (forallb (fun p => is_scalar_kwarg (snd p))) kwargs = true).
  { revert Hk. unfold validate_chat_template_kwargs.
    destruct (sp_chat_template_kwargs s) as [[|p items]|]; [by intros [= <-]| |by intros [= <-]].
    intros Hm. binds Hm. by injection Hm as <-. }
  rewrite !andb_true_iff. split_and!; assumption.
Qed.

(** A specification that was built is valid, and building it again gives it
    back. *)
Theorem built_spec_valid `{UnicodeData} s s' : new_DeploymentSpec s = Ok s' ->
  valid_spec s' /\ new_DeploymentSpec s' = Ok s'.
Proof.
  unfold new_DeploymentSpec at 1. intros Hm. binds Hm. injection Hm as <-.
  destruct x3, x4, x5. pose proof (spec_fields_kwargs _ _ Hb2 Hg) as Hf. split.
  - split; cbn.
    + done.
    + by apply guard_exn_Ok in Hb3.
    + by apply guard_exn_Ok in Hb4.
    + destruct (sp_llama_cpp s) as [c|]; [|done]. unfold new_LlamaCppConfig in Hb. by binds Hb.
    + unfold new_GenerationDefaults in Hb0. by binds Hb0.
    + by eapply validate_kwargs_idem.
    + exact Hb5.
  - unfold new_DeploymentSpec. rewrite Hf. cbn [guard_exn mbind result_bind with_kwargs sp_llama_cpp sp_generation_defaults
      sp_speculative sp_chat_template_kwargs sp_api_model_name sp_route_alias].
    rewrite Hb. cbn [mbind result_bind]. rewrite Hb0. cbn [mbind result_bind]. change (result_bind ?A ?B ?f ?m) with (m ≫= f).
    rewrite Hb1. cbn [mbind result_bind]. rewrite (validate_kwargs_idem _ _ Hb2). cbn [mbind result_bind].
    rewrite Hb3. cbn [mbind result_bind]. rewrite Hb4. cbn [mbind result_bind].
    change (validate_runtime_specific_settings (with_kwargs x2 s)) with (validate_runtime_specific_settings s). by rewrite Hb5.
Qed.
