(* ===== verification/RuntimeBase.v ===== *)
(** * Runtime adapters

    What all adapters of [backend/app/runtime/base.py] share: the checks of the
    model path and of the image, the path of the model in the container, sizes
    and compatibility of a model directory, its chat template, and the preview
    of a deployment.  The file system is an interface ([ModelFiles]); programs
    read it and change it only to install the managed chat template.  An
    adapter is a record of the methods it overrides, with the law
    ([AdapterSpec]) that its checks include the common ones. *)
From Stdlib Require Import ZArith Lia Bool String SpecFloat.
From stdpp Require Import prelude.
From S2P Require Import Prelude PyValue PosixPath PyFloat Utf8 Sha256 Json Secrets PyText PurePath RuntimeSpec Resources.
Open Scope Z_scope.

(** ** The file system *)

Class ModelFiles (F : Type) := {
  (** [Path.resolve()] *)
  fs_resolve : path -> F -> result path;
  fs_exists : path -> F -> bool;
  fs_is_file : path -> F -> bool;
  fs_is_dir : path -> F -> bool;
  fs_is_symlink : path -> F -> bool;
  (** [os.access(path, os.X_OK)] *)
  fs_executable : path -> F -> bool;
  fs_read : path -> F -> result bytes;
  (** [stat().st_size] *)
  fs_size : path -> F -> result Z;
  fs_iterdir : path -> F -> result (list path);
  (** [rglob("*")] *)
  fs_rglob : path -> F -> list path;
  (** [NamedTemporaryFile(dir=..., prefix=..., suffix=..., delete=False)],
      its [write] and [close] *)
  fs_create : path -> pystr -> pystr -> F -> result path * F;
  fs_write : path -> bytes -> F -> result unit * F;
  fs_close : path -> F -> result unit * F;
  (** [Path.replace] and [Path.unlink(missing_ok=True)] *)
  fs_replace : path -> path -> F -> result unit * F;
  fs_unlink : path -> F -> result unit * F;
}.

(** Programs over the file system *)
Definition files (F A : Type) := F -> result A * F.

#[export] Instance files_ret {F} : MRet (files F) := fun A a f => (Ok a, f).
#[export] Instance files_bind {F} : MBind (files F) := fun A B k m f =>
  match m f with
  | (Ok a, f') => k a f'
  | (Raise e, f') => (Raise e, f')
  end.

Section Files.
Context {F : Type}.
Definition lift {A} (r : result A) : files F A := fun f => (r, f).
Definition reads {A} (q : F -> result A) : files F A := fun f => (q f, f).
Definition tests (q : F -> bool) : files F bool := fun f => (Ok (q f), f).
Definition raise {A} (e : exn) : files F A := fun f => (Raise e, f).
(** [try: m except (...): h] *)
Definition catch {A} (m : files F A) (covers : exn -> bool) (h : exn -> files F A) : files F A := fun f =>
  match m f with
  | (Raise e, f') => if covers e then h e f' else (Raise e, f')
  | x => x
  end.
End Files.

Definition is_config_error (e : exn) : bool := is_OSError e || match e with JSONDecodeError => true | _ => false end.

(** The text layer of [Path.read_text]: universal newlines *)
Fixpoint universal_newlines (s : pystr) : pystr :=
  match s with
  | [] => []
  | 13 :: 10 :: r => 10 :: universal_newlines r
  | 13 :: r => 10 :: universal_newlines r
  | c :: r => c :: universal_newlines r
  end.

(** [for x in v] *)
Definition py_iter (v : pyval) : result (list pyval) :=
  match v with
  | PList l => Ok l
  | PStr s => Ok (map (fun c => PStr [c]) s)
  | PDict d => Ok (map (fun p => PStr (fst p)) d)
  | _ => Raise (TypeError (str "object is not iterable"))
  end.

Section Base.
Context {F : Type} `{ModelFiles F} `{UnicodeData} `{CaseFolding}.

(** [path.read_text(encoding="utf-8")], also with [errors="replace"] *)
Definition read_text (p : path) : files F pystr := reads (fun f =>
  content ← fs_read p f;
  text ← of_option (utf8_decode content) (UnicodeError (str "invalid utf-8"));
  Ok (universal_newlines text)).
Definition read_text_replace (p : path) : files F pystr := reads (fun f =>
  content ← fs_read p f; Ok (universal_newlines (utf8_decode_replace content))).

(** [json.loads(path.read_text(encoding="utf-8"))] *)
Definition read_json (p : path) : files F pyval :=
  text ← read_text p;
  lift (of_option (loads default_hooks text) JSONDecodeError).

(** A JSON file that may be absent or malformed: [None] then *)
Definition read_config (p : path) : files F (option pyval) :=
  present ← tests (fs_is_file p);
  if negb present : bool then mret None
  else catch (v ← read_json p; mret (Some v)) is_config_error (fun _ => mret None).

(** ** The path of a model *)

Definition outside_roots : exn := ValueError (str "Model path is outside configured model roots").

Definition under_root (resolved resolved_root : path) : bool :=
  path_eqb resolved resolved_root || is_relative_to resolved resolved_root.

Fixpoint check_roots (resolved : path) (model_roots : list path) : files F path :=
  match model_roots with
  | [] => raise outside_roots
  | root :: rest =>
      resolved_root ← reads (fs_resolve root);
      if under_root resolved resolved_root then
        found ← tests (fs_exists resolved);
        if found : bool then mret resolved else raise (ValueError (str "Model path does not exist"))
      else check_roots resolved rest
  end.

Definition validate_model_path (p : path) (model_roots : list path) : files F path :=
  resolved ← reads (fs_resolve p);
  check_roots resolved model_roots.

(** [RuntimeAdapter.validate] *)
Definition base_validate (runtime : pystr) (allowed_images : list pystr) (model_roots : list path) (s : DeploymentSpec)
    : files F path :=
  _ ← lift (guard_exn (str_eqb (sp_runtime s) runtime)
        (ValueError (str "Adapter " ++ runtime ++ str " cannot deploy runtime " ++ sp_runtime s)));
  _ ← lift (guard_exn (str_in (sp_image s) allowed_images)
        (ValueError (str "Image is not allowed for " ++ runtime)));
  validate_model_path (parse_path (sp_model_path s)) model_roots.

Definition MODELS : path := parse_path (str "/models").

Definition forward_slashes (s : pystr) : pystr := map (fun c => if c =? 92 then 47 else c) s.

Fixpoint container_path_under (model_path : path) (model_roots : list path) : files F pystr :=
  match model_roots with
  | [] => raise outside_roots
  | root :: rest =>
      resolved_root ← reads (fs_resolve root);
      if under_root model_path resolved_root then
        relative ← lift (relative_to model_path resolved_root);
        mret (forward_slashes (path_str (join_path MODELS relative)))
      else container_path_under model_path rest
  end.

(** [RuntimeAdapter.container_model_path] *)
Definition container_model_path (validate : DeploymentSpec -> files F path) (model_roots : list path) (s : DeploymentSpec)
    : files F pystr :=
  model_path ← validate s;
  container_path_under model_path model_roots.

(** ** Sizes and compatibility *)

Fixpoint sum_sizes (paths seen : list path) (total : Z) (f : F) : Z :=
  match paths with
  | [] => total
  | p :: rest =>
      if negb (fs_is_file p f) then sum_sizes rest seen total f
      else match fs_resolve p f with
           | Raise _ => sum_sizes rest seen total f
           | Ok resolved =>
               if existsb (path_eqb resolved) seen then sum_sizes rest seen total f
               else match fs_size p f with
                    | Ok size => sum_sizes rest (resolved :: seen) (total + size) f
                    | Raise _ => sum_sizes rest (resolved :: seen) total f
                    end
           end
  end.

(** [RuntimeAdapter.model_size]; the exceptions of [resolve] and [stat] are
    [OSError] here *)
Definition model_size (model_path : path) : files F Z := reads (fun f =>
  Ok (sum_sizes (fs_rglob model_path f) [] 0 f)).

(** [path.rglob("*" + ending)], files only *)
Definition files_ending (ending : pystr) (model_path : path) (f : F) : list path :=
  List.filter (fun p => fs_is_file p f) (List.filter (fun p => endswith ending (path_name p)) (fs_rglob model_path f)).

(** [str(exc)] of an exception of reading or decoding a configuration *)
Class ErrorText := error_text : exn -> pystr.
Context `{ErrorText}.

Definition compatibility (architectures : pyval) (weight_files : option Z) (reasons : list pystr) : pydict :=
  [(str "compatible", PBool (match reasons with [] => true | _ => false end)); (str "architectures", architectures)]
  ++ match weight_files with Some n => [(str "weight_files", PInt n)] | None => [] end
  ++ [(str "reasons", PList (map PStr reasons))].

Definition architectures_of (payload : pyval) : list pyval :=
  match payload with
  | PDict d => match get "architectures" d with PList l => map (fun item => PStr (py_str item)) (take 20 l) | _ => [] end
  | _ => []
  end.

(** [RuntimeAdapter.check_model_compatibility] *)
Definition base_compatibility (model_path : path) : files F pydict :=
  let config_path := child model_path (str "config.json") in
  has_config ← tests (fs_is_file config_path);
  let config : files F (list pyval * option pystr) :=
    if has_config : bool
    then catch (payload ← read_json config_path; mret (architectures_of payload, None)) is_config_error
           (fun e => mret ([], Some (error_text e)))
    else mret ([], None) in
  '(architectures, config_error) ← config;
  weight_files ← reads (fun f => Ok (files_ending (str ".safetensors") model_path f ++ files_ending (str ".bin") model_path f));
  let reasons :=
    (if has_config : bool then [] else [str "config.json was not found"])
    ++ match config_error with
       | Some ((_ :: _) as e) => [str "config.json is invalid: " ++ e]
       | _ => []
       end
    ++ match weight_files with [] => [str "No Safetensors or PyTorch weight files were found"] | _ => [] end in
  mret (compatibility (PList architectures) (Some (zlen weight_files)) reasons).

(** ** The chat template *)

(** Where the program keeps the template that it manages *)
Class Bundled := QWEN_FIXED_CHAT_TEMPLATE_SOURCE : path.
Context `{Bundled}.

Definition not_installed : exn := ValueError (str "Qwen fixed chat template could not be installed").

(** The content goes to a temporary file that then replaces the target; the
    name is known, and removed at the end, only after the write. *)
Definition install_template (content : bytes) (model_path target : path) : files F unit :=
  let cleanup (name : path) (r : result unit) : files F unit := _ ← fs_unlink name; lift r in
  temporary ← fs_create model_path (str "." ++ QWEN_FIXED_CHAT_TEMPLATE_FILENAME ++ str ".") (str ".tmp");
  let opened : files F (result unit) := fun f =>
    match fs_write temporary content f with
    | (Raise e, f') => let '(closed, f'') := fs_close temporary f' in (match closed with Ok _ => Raise e | Raise e' => Raise e' end, f'')
    | (Ok _, f') =>
        match fs_close temporary f' with
        | (Raise e, f'') => (Ok (Raise e), f'')
        | (Ok _, f'') => let '(r, f3) := fs_replace temporary target f'' in (Ok r, f3)
        end
    end in
  r ← opened;
  cleanup temporary r.

Definition ensure_managed_chat_template (s : DeploymentSpec) (model_path : path) : files F (option path) :=
  match recommended_chat_template_profile s [] with
  | Some profile =>
      if negb (str_eqb profile QWEN_FIXED_CHAT_TEMPLATE_PROFILE) then mret None
      else
        content ← catch (reads (fs_read QWEN_FIXED_CHAT_TEMPLATE_SOURCE)) is_OSError
                    (fun _ => raise (ValueError (str "Bundled Qwen fixed chat template is unavailable")));
        _ ← lift (guard_exn (contains_text QWEN_FIXED_CHAT_TEMPLATE_VERSION content)
              (ValueError (str "Bundled Qwen fixed chat template has an unexpected version")));
        let target := child model_path QWEN_FIXED_CHAT_TEMPLATE_FILENAME in
        catch
          (same ← reads (fun f =>
             if negb (fs_is_symlink target f) && fs_is_file target f
             then present ← fs_read target f; Ok (str_eqb present content) else Ok false);
           if same : bool then mret (Some target)
           else _ ← install_template content model_path target; mret (Some target))
          is_OSError (fun _ => raise not_installed)
  | None => mret None
  end.

Definition CHAT_TEMPLATE_FILES : list pystr := map str ["chat_template.jinja"; "chat_template.json"]%string.

(** [item.get("template", "")] of the named templates of a list *)
Fixpoint named_templates (items : list pyval) : result (list pystr) :=
  match items with
  | [] => Ok []
  | PDict d :: rest =>
      t ← match dict_get (str "template") d with
          | None => Ok []
          | Some (PStr t) => Ok t
          | Some _ => Raise (TypeError (str "sequence item: expected str instance"))
          end;
      ts ← named_templates rest; Ok (t :: ts)
  | _ :: rest => named_templates rest
  end.

Definition tokenizer_template (model_path : path) : files F pystr :=
  payload ← read_config (child model_path (str "tokenizer_config.json"));
  match payload with
  | Some (PDict d) =>
      match get "chat_template" d with
      | PStr t => mret t
      | PList l => ts ← lift (named_templates l); mret (concat ts)
      | _ => mret []
      end
  | _ => mret []
  end.

Fixpoint template_file (model_path : path) (filenames : list pystr) : files F (option pystr) :=
  match filenames with
  | [] => mret None
  | filename :: rest =>
      let candidate := child model_path filename in
      present ← tests (fs_is_file candidate);
      if present : bool
      then catch (t ← read_text_replace candidate; mret (Some t)) is_OSError (fun _ => mret (Some []))
      else template_file model_path rest
  end.

Definition chat_template_text (model_path : path) : files F pystr :=
  found ← template_file model_path CHAT_TEMPLATE_FILES;
  match found with Some t => mret t | None => tokenizer_template model_path end.

Definition effective_chat_template (s : DeploymentSpec) (model_path : path) : files F (pystr * option path) :=
  managed ← ensure_managed_chat_template s model_path;
  match managed with
  | Some m =>
      t ← catch (read_text m) is_OSError
            (fun _ => raise (ValueError (str "Qwen fixed chat template could not be read")));
      mret (t, Some m)
  | None => t ← chat_template_text model_path; mret (t, None)
  end.
End Base.

(** ** Adapters *)

Record Adapter (F : Type) := mkAdapter {
  ad_runtime : pystr;
  ad_images : list pystr;
  ad_roots : list path;
  ad_validate : DeploymentSpec -> files F path;
  ad_compatibility : path -> files F pydict;
  ad_resident : path -> files F Z;
  ad_capabilities : list pystr;
  ad_command : DeploymentSpec -> files F (list pystr);
}.
Arguments mkAdapter {F}.
Arguments ad_runtime {F}. Arguments ad_images {F}. Arguments ad_roots {F}. Arguments ad_validate {F}.
Arguments ad_compatibility {F}. Arguments ad_resident {F}. Arguments ad_capabilities {F}. Arguments ad_command {F}.

(** [platform.machine()] and pydantic's [model_dump(mode="json")] of the
    public fields *)
Class Platform := { machine : pystr; public_dump : DeploymentSpec -> pyval }.

Section Preview.
Context {F : Type} `{ModelFiles F} `{UnicodeData} `{Platform} (a : Adapter F).

Definition adapter_container_path (s : DeploymentSpec) : files F pystr :=
  container_model_path (ad_validate a) (ad_roots a) s.

(** [RuntimeAdapter.detect_environment] *)
Definition detect_environment (s : DeploymentSpec) : pydict :=
  [(str "runtime", PStr (ad_runtime a)); (str "architecture", PStr machine); (str "image", PStr (sp_image s));
   (str "image_allowed", PBool (str_in (sp_image s) (ad_images a)))].

Definition opt_value {A} (f : A -> pyval) (o : option A) : pyval := match o with Some x => f x | None => PNone end.
Definition str_list (l : list pystr) : pyval := PList (map PStr l).
Definition port_text (s : DeploymentSpec) : pystr := py_str (opt_value PInt (sp_port s)).

(** [spec.route_alias or spec.api_model_name] *)
Definition route_name (s : DeploymentSpec) : pystr :=
  match sp_route_alias s with Some ((_ :: _) as alias) => alias | _ => sp_api_model_name s end.

(** [int(size * 1.2)] *)
Definition estimated_memory (size : Z) : result Z :=
  x ← float_of_int size; int_of_float (float_mul x (num_text "1.2")).

Definition api_example (s : DeploymentSpec) : pystr :=
  str "client.chat.completions.create(model=" ++ [34] ++ route_name s ++ [34] ++ str ", messages=[{" ++ [34]
  ++ str "role" ++ [34] ++ str ": " ++ [34] ++ str "user" ++ [34] ++ str ", " ++ [34] ++ str "content" ++ [34]
  ++ str ": " ++ [34] ++ str "Hello" ++ [34] ++ str "}])".

(** [RuntimeAdapter.preview] *)
Definition preview (s : DeploymentSpec) : files F pydict :=
  model_path ← ad_validate a s;
  compatibility ← ad_compatibility a model_path;
  size ← model_size model_path;
  resident ← ad_resident a model_path;
  container_path ← adapter_container_path s;
  command ← ad_command a s;
  memory ← lift (estimated_memory resident);
  let container_name := deterministic_container_name (sp_name s) in
  mret [(str "spec", public_dump s);
    (str "container_name", PStr container_name);
    (str "runtime", PStr (ad_runtime a));
    (str "image", PStr (sp_image s));
    (str "model_path", PStr (path_str model_path));
    (str "container_model_path", PStr container_path);
    (str "port", opt_value PInt (sp_port s));
    (str "route_alias", opt_value PStr (sp_route_alias s));
    (str "command", str_list command);
    (str "estimated_memory_fraction", PFloat (sp_memory_fraction s));
    (str "estimated_disk_bytes", PInt size);
    (str "estimated_memory_bytes", PInt memory);
    (str "environment", PDict (detect_environment s));
    (str "compatibility", PDict compatibility);
    (str "capabilities", str_list (ad_capabilities a));
    (str "operations", str_list [
       str "Create manager-owned container " ++ container_name;
       str "Mount the selected model root read-only";
       str "Publish runtime port 8000 on host port " ++ port_text s;
       str "Wait for runtime startup with cancellation enabled";
       str "Probe /v1/models and register the gateway route"]);
    (str "api_example", PStr (api_example s));
    (str "rollback", text "Remove the newly created manager-owned container and retain model files.")].
End Preview.

(** ** Laws *)

(** The checks of an adapter change nothing and include the common ones. *)
Class AdapterSpec {F} `{ModelFiles F} (a : Adapter F) : Prop := {
  validate_base : forall s f p f', ad_validate a s f = (Ok p, f') ->
    f' = f /\ base_validate (ad_runtime a) (ad_images a) (ad_roots a) s f = (Ok p, f);
}.

(** What the documentation says of the file system's functions: [resolve]
    gives an absolute path without links and [".."] components, [stat] follows
    links, a temporary file has the given prefix and suffix, and every change
    is to the named paths. *)
Definition same_at {F} `{ModelFiles F} (p : path) (f f' : F) : Prop :=
  fs_read p f' = fs_read p f /\ fs_is_file p f' = fs_is_file p f /\ fs_is_symlink p f' = fs_is_symlink p f.

Class ModelFilesSpec (F : Type) `{ModelFiles F} : Prop := {
  resolve_normal : forall p f q, fs_resolve p f = Ok q -> well_parsed q /\ is_absolute q = true /\ ~ In DOTDOT (tail q);
  size_resolved : forall p f q, fs_resolve p f = Ok q -> fs_size p f = fs_size q f;
  create_name : forall d prefix ending f t f', fs_create d prefix ending f = (Ok t, f') ->
    (exists x, t = mkPurePath (root d) (tail d ++ [prefix ++ x ++ ending])) /\ forall p, p <> t -> same_at p f f';
  write_close : forall t c f f1 f2, fs_write t c f = (Ok tt, f1) -> fs_close t f1 = (Ok tt, f2) ->
    fs_read t f2 = Ok c;
  write_other : forall t c f r f', fs_write t c f = (r, f') -> forall p, p <> t -> same_at p f f';
  close_other : forall t f r f', fs_close t f = (r, f') -> forall p, p <> t -> same_at p f f';
  replace_read : forall t p f f', fs_replace t p f = (Ok tt, f') ->
    fs_read p f' = fs_read t f /\ fs_is_file p f' = true /\ fs_is_symlink p f' = false;
  replace_other : forall t p f r f', fs_replace t p f = (r, f') -> forall q, q <> t -> q <> p -> same_at q f f';
  unlink_other : forall t f r f', fs_unlink t f = (r, f') -> forall p, p <> t -> same_at p f f';
}.

(** ** Programs that only read *)

Section Reading.
Context {F : Type}.

Lemma bind_Ok_inv {A B} (m : files F A) (k : A -> files F B) f b f' :
  (m ≫= k) f = (Ok b, f') -> exists a f1, m f = (Ok a, f1) /\ k a f1 = (Ok b, f').
Proof. unfold mbind, files_bind. destruct (m f) as [[a|e] f1]; [eauto|done]. Qed.

Lemma lift_Ok_inv {A} (r : result A) (f : F) a f' : lift r f = (Ok a, f') -> r = Ok a /\ f' = f.
Proof. unfold lift. by intros [= -> ->]. Qed.
Lemma reads_Ok_inv {A} (q : F -> result A) f a f' : reads q f = (Ok a, f') -> q f = Ok a /\ f' = f.
Proof. unfold reads. by intros [= -> ->]. Qed.
Lemma ret_Ok_inv {A} (a b : A) (f f' : F) : (mret a : files F A) f = (Ok b, f') -> b = a /\ f' = f.
Proof. by intros [= -> ->]. Qed.
Lemma catch_Ok_inv {A} (m : files F A) covers h f a f' : catch m covers h f = (Ok a, f') ->
  m f = (Ok a, f') \/ exists e f1, m f = (Raise e, f1) /\ covers e = true /\ h e f1 = (Ok a, f').
Proof.
  unfold catch. destruct (m f) as [[x|e] f1] eqn:Em; [by left|]. destruct (covers e) eqn:Ec; [|done].
  intros Hh. right. by exists e, f1.
Qed.

(** A program that leaves the file system as it is *)
Definition still {A} (m : files F A) : Prop := forall f, snd (m f) = f.

Lemma still_ret {A} (a : A) : still (mret a).
Proof. done. Qed.
Lemma still_lift {A} (r : result A) : still (lift r).
Proof. done. Qed.
Lemma still_raise {A} e : still (raise (A := A) e).
Proof. done. Qed.
Lemma still_reads {A} (q : F -> result A) : still (reads q).
Proof. done. Qed.
Lemma still_tests q : still (tests q).
Proof. done. Qed.
Lemma still_bind {A B} (m : files F A) (k : A -> files F B) : still m -> (forall a, still (k a)) -> still (m ≫= k).
Proof.
  intros Hm Hk f. specialize (Hm f). unfold mbind, files_bind. destruct (m f) as [[a|e] f1]; cbn in Hm; subst f1; [apply Hk|done].
Qed.
Lemma still_catch {A} (m : files F A) covers h : still m -> (forall e, still (h e)) -> still (catch m covers h).
Proof.
  intros Hm Hh f. specialize (Hm f). unfold catch. destruct (m f) as [[a|e] f1]; cbn in Hm; subst f1; [done|].
  destruct (covers e); [apply Hh|done].
Qed.
Lemma still_run {A} (m : files F A) f r f' : still m -> m f = (r, f') -> f' = f.
Proof. intros Hm E. specialize (Hm f). by rewrite E in Hm. Qed.
End Reading.

Create HintDb still discriminated.
#[export] Hint Resolve still_ret still_lift still_raise still_reads still_tests : still.
(** The rules of [still], through the branches of a program *)
Ltac steady :=
  repeat match goal with
  | |- forall _, _ => intro
  | |- still (_ ≫= _) => apply still_bind
  | |- still (catch _ _ _) => apply still_catch
  | |- still (match ?x with _ => _ end) => destruct x
  | |- still _ => solve [eauto 2 with still]
  end.

(** One step of a program that returned *)
Ltac step Hm :=
  let x := fresh "x" in let g := fresh "g" in let E := fresh "E" in
  apply bind_Ok_inv in Hm as (x & g & E & Hm).
Ltac step_pure Hm :=
  let x := fresh "x" in let g := fresh "g" in let E := fresh "E" in
  apply bind_Ok_inv in Hm as (x & g & E & Hm);
  first [apply lift_Ok_inv in E as [E ->] | apply reads_Ok_inv in E as [E ->]].

Section Paths.
Context {F : Type} `{ModelFilesSpec F}.

Lemma check_roots_inv resolved roots f p f' : check_roots resolved roots f = (Ok p, f') ->
  p = resolved /\ f' = f /\ fs_exists p f = true /\
  exists root r, In root roots /\ fs_resolve root f = Ok r /\ under_root p r = true.
Proof.
  induction roots as [|root roots IH]; cbn; [done|]. intros Hm. step_pure Hm.
  destruct (under_root resolved x) eqn:Eu.
  - unfold tests in Hm. cbn in Hm. unfold mbind, files_bind in Hm. cbn in Hm.
    destruct (fs_exists resolved f) eqn:Ee; [|done]. apply ret_Ok_inv in Hm as [-> ->]. split_and!; [done..|].
    exists root, x. by split_and!; [left| |].
  - destruct (IH Hm) as (-> & -> & He & r & y & Hin & Hr & Hu). split_and!; [done..|].
    exists r, y. by split_and!; [right| |].
Qed.

Lemma under_root_relative p r : under_root p r = true -> exists q, relative_to p r = Ok q.
Proof.
  unfold under_root, path_eqb, is_relative_to. intros [->%bool_decide_eq_true|Hu]%orb_true_iff.
  - unfold relative_to. rewrite str_eqb_refl. destruct (strip_parts (tail r) (tail r)) eqn:E; [by eexists|].
    assert (Hs : strip_parts (tail r) (tail r) = Some []) by (apply strip_parts_spec; by rewrite app_nil_r). congruence.
  - destruct (relative_to p r) as [q|]; [by exists q|done].
Qed.

(** A path that passed the check has a path in the container. *)
Lemma container_path_found p roots f p' f' : check_roots p roots f = (Ok p', f') ->
  exists x y q, In x roots /\ fs_resolve x f = Ok y /\ relative_to p y = Ok q /\
    container_path_under p roots f = (Ok (forward_slashes (path_str (join_path MODELS q))), f).
Proof.
  induction roots as [|x roots IH]; [done|]. cbn [check_roots container_path_under]. intros Hm. step_pure Hm.
  unfold reads, mbind, files_bind. rewrite E.
  destruct (under_root p x0) eqn:Eu.
  - destruct (under_root_relative p x0 Eu) as [q Hq]. exists x, x0, q.
    split_and!; [by left|done..|]. unfold lift. by rewrite Hq.
  - destruct (IH Hm) as (x' & y' & q & Hin' & Hy' & Hq & Hc). exists x', y', q. by split_and!; [right| | |].
Qed.

Lemma base_validate_inv runtime images roots s f p f' : base_validate runtime images roots s f = (Ok p, f') ->
  f' = f /\ sp_runtime s = runtime /\ In (sp_image s) images /\
  fs_resolve (parse_path (sp_model_path s)) f = Ok p /\ fs_exists p f = true /\ check_roots p roots f = (Ok p, f).
Proof.
  unfold base_validate. intros Hm. step_pure Hm. step_pure Hm. unfold validate_model_path in Hm.
  destruct (str_eqb_spec (sp_runtime s) runtime) as [Hr|]; [|done].
  destruct (str_in (sp_image s) images) eqn:Ei; [|done]. apply str_in_In in Ei. step_pure Hm.
  destruct (check_roots_inv _ _ _ _ _ Hm) as (-> & -> & He & _). by split_and!.
Qed.
End Paths.

Lemma forward_slashes_id s : ~ In 92 s -> forward_slashes s = s.
Proof.
  unfold forward_slashes. induction s as [|c s IH]; cbn [map In]; [done|]. intros Hn. rewrite IH by tauto.
  destruct (Z.eqb_spec c 92); [exfalso; tauto|done].
Qed.

Lemma in_join (x : Z) sep l : In x (join sep l) -> In x sep \/ exists c, In c l /\ In x c.
Proof.
  induction l as [|a l IH]; [done|]. destruct l as [|b l]; [cbn; eauto|].
  rewrite join_cons by done. intros [Hx|[Hx|Hx]%in_app_iff]%in_app_iff; [right; exists a; cbn; eauto|by left|].
  destruct (IH Hx) as [?|(c & ? & ?)]; [by left|right; exists c; split; [by right|done]].
Qed.

(** C16.  The path of a model in its container, for every adapter and for a model
    path none of whose names holds a backslash (the conversion to forward
    slashes splits such a name into components, and one of these may be a step
    upwards): a deployment that passes the adapter's checks has one; the model
    is then an existing path below a configured root, and the container path
    names under /models what the model path names below that root, without a
    step upwards. *)
Theorem container_path_contained {F} `{ModelFilesSpec F} (a : Adapter F) `{!AdapterSpec a} s f p f' :
  ad_validate a s f = (Ok p, f') -> Forall (fun c => ~ In 92 c) (tail p) ->
  In (sp_image s) (ad_images a) /\ fs_exists p f = true /\
  exists x y q, In x (ad_roots a) /\ fs_resolve x f = Ok y /\ join_path y q = p /\
    container_model_path (ad_validate a) (ad_roots a) s f = (Ok (path_str (join_path MODELS q)), f) /\
    parse_path (path_str (join_path MODELS q)) = mkPurePath (str "/") (str "models" :: tail q) /\
    ~ In DOTDOT (tail q).
Proof.
  intros Hv Hslash. pose proof (validate_base s f p f' Hv) as [-> Hb].
  destruct (base_validate_inv _ _ _ _ _ _ _ Hb) as (_ & _ & Hi & Hr & He & Hc). split; [done|]. split; [done|].
  destruct (container_path_found _ _ _ _ _ Hc) as (x & y & q & Hin & Hy & Hq & Hcp).
  destruct (relative_to_join _ _ _ Hq) as [Hrq Hj].
  destruct (resolve_normal _ _ _ Hr) as (Hok & _ & Hdd).
  pose proof (relative_to_ok _ _ _ Hok Hq) as Hqok.
  assert (Hm : well_parsed (join_path MODELS q)).
  { apply join_path_ok; [apply parse_path_ok|done]. }
  assert (Htail : tail p = tail y ++ tail q).
  { rewrite <- Hj. unfold join_path, is_absolute. by rewrite Hrq. }
  assert (Hmq : join_path MODELS q = mkPurePath (str "/") (str "models" :: tail q)).
  { unfold join_path, is_absolute. by rewrite Hrq. }
  exists x, y, q. split_and!; [done..| | |].
  - unfold container_model_path, mbind, files_bind. rewrite Hv, Hcp. do 2 f_equal. apply forward_slashes_id.
    rewrite Hmq. cbn [path_str root tail]. intros Hin92. change (In 92 (str "/" ++ join (str "/") (str "models" :: tail q))) in Hin92.
    apply in_app_iff in Hin92 as [Hin92|Hin92]; [by destruct Hin92 as [|[]]|].
    apply in_join in Hin92 as [Hin92|(c & [<-|Hc92] & Hin92)]; [by destruct Hin92 as [|[]]| |].
    + vm_compute in Hin92. naive_solver.
    + rewrite Htail in Hslash. apply Forall_app in Hslash as [_ Hslash]. rewrite List.Forall_forall in Hslash. by eapply Hslash.
  - rewrite parse_path_str by done. done.
  - intros Hd. apply Hdd. rewrite Htail. apply in_app_iff. by right.
Qed.

(** ** Sizes *)

Definition sum_Z (l : list Z) : Z := foldr Z.add 0 l.

Section Sizes.
Context {F : Type} `{ModelFilesSpec F}.

Definition size_or_zero (f : F) (p : path) : Z := match fs_size p f with Ok n => n | Raise _ => 0 end.

(** The files that a list of paths leads to *)
Definition leads_to (paths : list path) (f : F) (x : path) : Prop :=
  exists p, In p paths /\ fs_is_file p f = true /\ fs_resolve p f = Ok x.

Lemma leads_to_cons p paths f x :
  leads_to (p :: paths) f x <-> (fs_is_file p f = true /\ fs_resolve p f = Ok x) \/ leads_to paths f x.
Proof. unfold leads_to. cbn. naive_solver. Qed.

Lemma sum_sizes_spec paths f : forall seen total, exists counted,
  NoDup counted /\ (forall x, In x counted <-> leads_to paths f x /\ ~ In x seen) /\
  sum_sizes paths seen total f = total + sum_Z (map (size_or_zero f) counted).
Proof.
  induction paths as [|p paths IH]; intros seen total.
  - exists []. split; [constructor|]. split; [|cbn; lia]. intros x. unfold leads_to. cbn. naive_solver.
  - cbn [sum_sizes]. destruct (fs_is_file p f) eqn:Ef; cbn [negb].
    2:{ destruct (IH seen total) as (l & Hnd & Hin & Hs). exists l. split_and!; [done| |done].
        intros x. rewrite Hin, leads_to_cons. intuition congruence. }
    destruct (fs_resolve p f) as [r|e] eqn:Er.
    2:{ destruct (IH seen total) as (l & Hnd & Hin & Hs). exists l. split_and!; [done| |done].
        intros x. rewrite Hin, leads_to_cons. intuition congruence. }
    destruct (existsb (path_eqb r) seen) eqn:Es.
    { destruct (IH seen total) as (l & Hnd & Hin & Hs). exists l. split_and!; [done| |done].
      apply existsb_exists in Es as (y & Hy & ->%bool_decide_eq_true).
      intros x. rewrite Hin, leads_to_cons. intuition congruence. }
    assert (Hr : ~ In r seen).
    { intros Hin. assert (existsb (path_eqb r) seen = true); [|congruence]. apply existsb_exists.
      exists r. split; [done|]. by apply bool_decide_eq_true. }
    assert (Hp : forall amount, amount = size_or_zero f r -> exists counted, NoDup counted /\
      (forall x, In x counted <-> leads_to (p :: paths) f x /\ ~ In x seen) /\
      sum_sizes paths (r :: seen) (total + amount) f = total + sum_Z (map (size_or_zero f) counted)).
    { intros amount ->. destruct (IH (r :: seen) (total + size_or_zero f r)) as (l & Hnd & Hin & Hs).
      exists (r :: l). split_and!.
      - constructor; [|done]. intros Hl%list_elem_of_In%Hin. destruct Hl as [_ Hl]. apply Hl. by left.
      - intros x. rewrite leads_to_cons. cbn. rewrite Hin. cbn.
        destruct (decide (r = x)) as [->|Hne]; intuition congruence.
      - rewrite Hs. cbn [map]. unfold sum_Z. cbn [foldr]. lia. }
    assert (Hsz : size_or_zero f r = match fs_size p f with Ok n => n | Raise _ => 0 end).
    { unfold size_or_zero. by rewrite (size_resolved _ _ _ Er). }
    destruct (fs_size p f) as [n|e]; [by apply Hp|].
    destruct (Hp 0 (eq_sym Hsz)) as (l & Hnd & Hin & Hs). exists l. by rewrite Z.add_0_r in Hs.
Qed.
End Sizes.

(** The size of a model directory is the sum of the sizes of the distinct
    files that its entries lead to: a file reached by several links counts
    once, and a file that cannot be examined counts nothing. *)
Theorem model_size_counts_once {F} `{ModelFilesSpec F} model_path (f : F) : exists counted,
  NoDup counted /\ (forall x, In x counted <-> leads_to (fs_rglob model_path f) f x) /\
  model_size model_path f = (Ok (sum_Z (map (size_or_zero f) counted)), f).
Proof.
  destruct (sum_sizes_spec (fs_rglob model_path f) f [] 0) as (l & Hnd & Hin & Hs). exists l.
  split_and!; [done| |unfold model_size, reads; by rewrite Hs]. intros x. rewrite Hin. naive_solver.
Qed.

(** ** The managed chat template *)

Section Install.
Context {F : Type} `{ModelFilesSpec F} `{UnicodeData} `{CaseFolding} `{Bundled}.

Definition managed_target (d : path) : path := child d QWEN_FIXED_CHAT_TEMPLATE_FILENAME.

Lemma managed_target_parts d : managed_target d = mkPurePath (root d) (tail d ++ [QWEN_FIXED_CHAT_TEMPLATE_FILENAME]).
Proof. done. Qed.

Definition hidden (p : path) : bool := startswith DOT (path_name p).

Lemma hidden_last r l c : hidden (mkPurePath r (l ++ [c])) = startswith DOT c.
Proof. unfold hidden, path_name. cbn [tail]. by rewrite last_last. Qed.

Lemma temporary_not_target d x :
  managed_target d <> mkPurePath (root d) (tail d ++ [(str "." ++ QWEN_FIXED_CHAT_TEMPLATE_FILENAME ++ str ".") ++ x ++ str ".tmp"]).
Proof.
  rewrite managed_target_parts. generalize QWEN_FIXED_CHAT_TEMPLATE_FILENAME. intros name Hl.
  apply (f_equal tail), (app_inv_head (tail d)), (f_equal (fun l => length (concat l))) in Hl. cbn [concat] in Hl.
  rewrite !length_app in Hl. change (length (str ".")) with 1%nat in Hl. cbn [length] in Hl. lia.
Qed.

Lemma same_at_trans p f f1 f2 : same_at p f f1 -> same_at p f1 f2 -> same_at p f f2.
Proof. intros (A & B & C) (A' & B' & C'). unfold same_at. by rewrite A', A, B', B, C', C. Qed.

(** A path that is neither the target nor a temporary file keeps its content. *)
Lemma install_template_spec content d f f' : install_template content d (managed_target d) f = (Ok tt, f') ->
  fs_read (managed_target d) f' = Ok content /\ fs_is_file (managed_target d) f' = true /\
  fs_is_symlink (managed_target d) f' = false /\ forall p, hidden p = false -> same_at p f f'.
Proof.
  unfold install_template. intros Hm. step Hm.
  destruct (create_name _ _ _ _ _ _ E) as [[x' ->] Hcreate].
  set (temporary := mkPurePath _ _) in *.
  assert (Hne : managed_target d <> temporary) by apply temporary_not_target.
  assert (Ht : hidden temporary = true) by apply hidden_last.
  assert (Htarget : hidden (managed_target d) = true) by apply hidden_last.
  clearbody temporary. step Hm.
  destruct (fs_write temporary content g) as [[[]|e] f1] eqn:Ew; [|by destruct (fs_close temporary f1) as [[]]].
  destruct (fs_close temporary f1) as [[[]|e] f2] eqn:Ec; [|injection E0 as <- <-; by step Hm].
  destruct (fs_replace temporary (managed_target d) f2) as [r f3] eqn:Er. injection E0 as <- <-.
  step Hm. unfold lift in Hm. injection Hm as -> ->.
  destruct (replace_read _ _ _ _ Er) as (Hread & Hfile & Hlink).
  destruct (unlink_other _ _ _ _ E0 _ Hne) as (Hr4 & Hf4 & Hl4).
  rewrite Hr4, Hf4, Hl4, Hread, Hfile, Hlink. split; [by eapply write_close|]. split_and!; [done..|].
  intros p Hp. assert (p <> temporary) by congruence. assert (p <> managed_target d) by congruence.
  eapply same_at_trans; [by apply Hcreate|]. eapply same_at_trans; [by eapply write_other|].
  eapply same_at_trans; [by eapply close_other|]. eapply same_at_trans; [by eapply replace_other|].
  by eapply unlink_other.
Qed.
End Install.

(** A model that takes the managed chat template has it after the call, with
    the content that the program ships, and the next call changes nothing. *)
Theorem managed_template_installed {F} `{ModelFilesSpec F} `{UnicodeData} `{CaseFolding} `{Bundled} s d (f f' : F) t :
  hidden QWEN_FIXED_CHAT_TEMPLATE_SOURCE = false ->
  ensure_managed_chat_template s d f = (Ok (Some t), f') ->
  t = managed_target d /\
  exists content, fs_read QWEN_FIXED_CHAT_TEMPLATE_SOURCE f = Ok content /\
    contains_text QWEN_FIXED_CHAT_TEMPLATE_VERSION content = true /\
    fs_read t f' = Ok content /\ ensure_managed_chat_template s d f' = (Ok (Some t), f').
Proof.
  intros Hs Hm.
  assert (Hagain : forall content, fs_read QWEN_FIXED_CHAT_TEMPLATE_SOURCE f' = Ok content ->
    contains_text QWEN_FIXED_CHAT_TEMPLATE_VERSION content = true -> fs_read (managed_target d) f' = Ok content ->
    fs_is_file (managed_target d) f' = true -> fs_is_symlink (managed_target d) f' = false ->
    recommended_chat_template_profile s [] = Some QWEN_FIXED_CHAT_TEMPLATE_PROFILE ->
    ensure_managed_chat_template s d f' = (Ok (Some (managed_target d)), f')).
  { intros content Hsrc Hv Hr Hfile Hlink Hp. unfold ensure_managed_chat_template. rewrite Hp, str_eqb_refl. cbn [negb].
    unfold mbind, files_bind, catch, reads, lift. rewrite Hsrc, Hv. cbn [guard_exn].
    fold (managed_target d). rewrite Hlink, Hfile. cbn [negb andb]. rewrite Hr. cbn. by rewrite str_eqb_refl. }
  revert Hm. unfold ensure_managed_chat_template at 1.
  destruct (recommended_chat_template_profile s []) as [profile|] eqn:Ep; [|done].
  destruct (str_eqb_spec profile QWEN_FIXED_CHAT_TEMPLATE_PROFILE) as [->|]; [|done]. cbn [negb]. intros Hm.
  step Hm. apply catch_Ok_inv in E as [E|(e & g' & _ & _ & E)]; [|done]. apply reads_Ok_inv in E as [Hsrc ->].
  step_pure Hm. apply guard_exn_Ok in E. fold (managed_target d) in Hm.
  apply catch_Ok_inv in Hm as [Hm|(e & g' & _ & _ & Hm)]; [|done]. apply bind_Ok_inv in Hm as (same & g & E2 & Hm).
  apply reads_Ok_inv in E2 as [E2 ->].
  destruct same; [|apply bind_Ok_inv in Hm as ([] & g & Hi & Hm); destruct (install_template_spec _ _ _ _ Hi) as (Hr & Hf' & Hl' & Hother)];
    injection Hm as <- <-; (split; [done|]); exists x; split_and!; try done.
  3: { destruct (Hother _ Hs) as (Hsame & _ & _). eapply Hagain; try done. congruence. }
  all: destruct (negb (fs_is_symlink (managed_target d) f) && fs_is_file (managed_target d) f) eqn:Ef; [|done];
    apply andb_true_iff in Ef as [Hl%negb_true_iff Hfile];
    destruct (fs_read (managed_target d) f) as [present|e] eqn:Er; [|done];
    injection E2 as ->%str_eqb_eq; (done || by eapply Hagain).
Qed.
