(* ===== verification/RuntimeDisk.v ===== *)
(** * A file system to run the adapters on

    A table of files by path, without links: an instance of [ModelFiles] that
    satisfies its laws, with the examples of RuntimeBase's theorems. *)
From Stdlib Require Import ZArith Lia Bool String SpecFloat.
From stdpp Require Import prelude.
From S2P Require Import Prelude PyValue PosixPath PyFloat Utf8 Json Secrets PyText PurePath RuntimeSpec RuntimeBase.
Open Scope Z_scope.

Definition disk := list (path * bytes).

Fixpoint find (p : path) (f : disk) : option bytes :=
  match f with
  | [] => None
  | (q, c) :: rest => if path_eqb p q then Some c else find p rest
  end.
Definition remove (p : path) (f : disk) : disk := List.filter (fun e => negb (path_eqb p (fst e))) f.
Definition put (p : path) (c : bytes) (f : disk) : disk := (p, c) :: remove p f.

Lemma path_eqb_refl p : path_eqb p p = true.
Proof. by apply bool_decide_eq_true. Qed.
Lemma path_eqb_ne p q : p <> q -> path_eqb p q = false.
Proof. by apply bool_decide_eq_false. Qed.

Lemma find_remove_ne p q f : q <> p -> find q (remove p f) = find q f.
Proof.
  intros Hq. induction f as [|[r c] f IH]; cbn; [done|]. destruct (decide (p = r)) as [<-|Hpr].
  - rewrite path_eqb_refl, (path_eqb_ne q p) by done. exact IH.
  - rewrite (path_eqb_ne p r) by done. cbn. destruct (path_eqb q r); [done|exact IH].
Qed.
Lemma find_put_eq p c f : find p (put p c f) = Some c.
Proof. cbn. by rewrite path_eqb_refl. Qed.
Lemma find_put_ne p q c f : q <> p -> find q (put p c f) = find q f.
Proof. intros Hq. cbn. rewrite path_eqb_ne by done. by apply find_remove_ne. Qed.

Definition no_such_file : exn := OSError (str "No such file or directory").
Definition is_file_at (p : path) (f : disk) : bool := is_some (find p f).

Definition below (p q : path) : bool := is_relative_to q p && negb (path_eqb p q).
Definition under (p : path) (f : disk) : list path := List.filter (below p) (map fst f).

(** The first entry below a directory on the way to a file *)
Definition entry_of (p q : path) : option path :=
  match relative_to q p with
  | Ok r => match tail r with c :: _ => Some (mkPurePath (root p) (tail p ++ [c])) | [] => None end
  | Raise _ => None
  end.

Definition normal_path (p : path) : bool :=
  path_eqb (parse_path (path_str p)) p && is_absolute p && negb (str_in DOTDOT (tail p)).

#[export] Instance disk_files : ModelFiles disk := {|
  fs_resolve p f := if normal_path p then Ok p else Raise (OSError (str "not an absolute path"));
  fs_exists p f := is_file_at p f || negb (match under p f with [] => true | _ => false end);
  fs_is_file p f := is_file_at p f;
  fs_is_dir p f := negb (match under p f with [] => true | _ => false end);
  fs_is_symlink _ _ := false;
  fs_executable p f := is_file_at p f;
  fs_read p f := of_option (find p f) no_such_file;
  fs_size p f := zlen <$> of_option (find p f) no_such_file;
  fs_iterdir p f := Ok (remove_dups (omap (entry_of p) (map fst f)));
  fs_rglob p f := under p f;
  fs_create d prefix ending f :=
    let t := mkPurePath (root d) (tail d ++ [prefix ++ str "x1y2z3" ++ ending]) in (Ok t, put t [] f);
  fs_write t c f := (Ok tt, put t c f);
  fs_close _ f := (Ok tt, f);
  fs_replace t p f :=
    match find t f with
    | Some c => (Ok tt, put p c (remove t f))
    | None => (Raise no_such_file, f)
    end;
  fs_unlink t f := (Ok tt, remove t f);
|}.

Lemma same_at_find p (f f' : disk) : find p f' = find p f -> same_at p f f'.
Proof. intros E. unfold same_at. cbn. unfold is_file_at. by rewrite E. Qed.

#[export] Instance disk_spec : ModelFilesSpec disk.
Proof.
  split; cbn -[put].
  - intros p f q. destruct (normal_path p) eqn:E; [|done]. intros [= <-]. unfold normal_path in E.
    apply andb_true_iff in E as [[E Ha]%andb_true_iff Hd%negb_true_iff]. apply bool_decide_eq_true in E. split_and!.
    + rewrite <- E. apply parse_path_ok.
    + done.
    + intros Hin%str_in_In. congruence.
  - intros p f q. destruct (normal_path p); [|done]. by intros [= <-].
  - intros d prefix ending f t f' E. injection E as <- <-. split; [by exists (str "x1y2z3")|]. intros p Hp.
    by apply same_at_find, find_put_ne.
  - intros t c f f1 f2 E1 E2. simplify_eq. by rewrite find_put_eq.
  - intros t c f r f' E p Hp. simplify_eq. by apply same_at_find, find_put_ne.
  - intros t f r f' E p Hp. simplify_eq. by apply same_at_find.
  - intros t p f f'. destruct (find t f) as [c|] eqn:E; [|done]. intros E'. simplify_eq. unfold is_file_at.
    by rewrite find_put_eq.
  - intros t p f r f'. destruct (find t f) as [c|] eqn:E; intros E' q Hq Hqp; simplify_eq; apply same_at_find; [|done].
    rewrite find_put_ne by done. by apply find_remove_ne.
  - intros t f r f' E p Hp. simplify_eq. by apply same_at_find, find_remove_ne.
Qed.

(** ** The common part of the adapters, as an adapter *)

Section Plain.
Context {F : Type} `{ModelFiles F}.

Definition plain_adapter (runtime : pystr) (images : list pystr) (roots : list path) : Adapter F :=
  mkAdapter runtime images roots (base_validate runtime images roots) (fun _ => mret []) model_size [] (fun _ => mret []).

#[export] Instance plain_spec `{!ModelFilesSpec F} runtime images roots : AdapterSpec (plain_adapter runtime images roots).
Proof. split. cbn. intros s f p f' Hm. by destruct (base_validate_inv _ _ _ _ _ _ _ Hm) as (-> & _). Qed.
End Plain.

Definition at_ (s : string) : path := parse_path (str s).
Definition demo_roots : list path := [at_ "/data/other"; at_ "/srv/models"].
Definition demo_config : bytes := str "{" ++ [34] ++ str "model_type" ++ [34] ++ str ":" ++ [34] ++ str "qwen3" ++ [34] ++ str "}".
Definition demo_disk : disk :=
  [(at_ "/srv/models/qwen/config.json", demo_config);
               (at_ "/srv/models/qwen/model.safetensors", repeat 7 100);
               (at_ "/srv/models/qwen/chat_template.jinja", str "{% if tools %}<tool_call>{% endif %}<think>");
               (at_ "/app/app/chat_templates/qwen_fixed_v22_4.jinja",
                str "{# qwen3.8-froggeric-v22.4 #}<tool_call><function=<parameter=<think>")].

Lemma container_path_contained_witness :
  fs_exists (at_ "/srv/models/qwen") demo_disk = true /\
  exists x y q, In x demo_roots /\ join_path y q = at_ "/srv/models/qwen" /\ ~ In DOTDOT (tail q) /\
    container_model_path (base_validate (str "vllm") [str "vllm/image:1"] demo_roots) demo_roots demo_spec demo_disk
      = (Ok (path_str (join_path MODELS q)), demo_disk).
Proof.
  assert (Hv : ad_validate (plain_adapter (str "vllm") [str "vllm/image:1"] demo_roots) demo_spec demo_disk
               = (Ok (at_ "/srv/models/qwen"), demo_disk)) by (vm_compute; reflexivity).
  assert (Hn : Forall (fun c => ~ In 92 c) (tail (at_ "/srv/models/qwen")))
    by (repeat constructor; vm_compute; intros Hx; repeat destruct Hx as [Hx|Hx]; (discriminate Hx || exact Hx)).
  destruct (container_path_contained _ _ _ _ _ Hv Hn) as (_ & He & x & y & q & Hx & _ & Hq & Hc & _ & Hd).
  split; [exact He|]. exists x, y, q. exact (conj Hx (conj Hq (conj Hd Hc))).
Defined.

Lemma model_size_demo : fst (model_size (at_ "/srv/models/qwen") demo_disk) = Ok 165.
Proof. vm_compute. reflexivity. Qed.

(** A specification for the managed template, and the template's source *)
Definition fixed_spec : DeploymentSpec :=
  mkSpec (str "Qwen 3.8") None (str "/srv/models/qwen") (str "qwen") None (str "vllm") (str "vllm/image:1") (Some 8001)
    32768 None (num_text "0.8") 8 None false None false no_defaults None None None None None false None.
#[export] Instance demo_bundled : Bundled := at_ "/app/app/chat_templates/qwen_fixed_v22_4.jinja".
#[export] Instance demo_unicode : UnicodeData := ascii_data.
#[export] Instance demo_folding : CaseFolding := ascii_fold.

Lemma managed_template_installed_witness : exists t f',
  ensure_managed_chat_template fixed_spec (at_ "/srv/models/qwen") demo_disk = (Ok (Some t), f') /\
  t = at_ "/srv/models/qwen/.dgx-qwen-fixed-v22.4.jinja" /\
  ensure_managed_chat_template fixed_spec (at_ "/srv/models/qwen") f' = (Ok (Some t), f').
Proof.
  destruct (ensure_managed_chat_template fixed_spec (at_ "/srv/models/qwen") demo_disk) as [r f'] eqn:Em.
  assert (Hr : r = Ok (Some (at_ "/srv/models/qwen/.dgx-qwen-fixed-v22.4.jinja"))).
  { change r with (fst (r, f')). rewrite <- Em. vm_compute. reflexivity. }
  rewrite Hr in Em.
  assert (Hs : hidden QWEN_FIXED_CHAT_TEMPLATE_SOURCE = false) by (vm_compute; reflexivity).
  destruct (managed_template_installed _ _ _ _ _ Hs Em) as (_ & content & _ & _ & _ & Hagain).
  exists (at_ "/srv/models/qwen/.dgx-qwen-fixed-v22.4.jinja"), f'. rewrite Hr. exact (conj eq_refl (conj eq_refl Hagain)).
Defined.
