(* ===== verification/JsonBytes.v ===== *)
(** * JSON in bytes

    [json.loads(b)] of the standard library for bytes: the encoding is found
    from the first bytes ([json.detect_encoding]) and decoded with
    [errors="surrogatepass"]. *)
From Stdlib Require Import ZArith Lia Bool String.
From stdpp Require Import prelude.
From S2P Require Import Prelude PyValue Utf8 Json.
Open Scope Z_scope.

Inductive encoding := utf_8 | utf_8_sig | utf_16 (big : bool) (mark : bool) | utf_32 (big : bool) (mark : bool).

(** [json.detect_encoding]; with a mark, "utf-16" and "utf-32" *)
Definition detect_encoding (b : bytes) : encoding :=
  if startswith [0; 0; 254; 255] b then utf_32 true true
  else if startswith [255; 254; 0; 0] b then utf_32 false true
  else if startswith [254; 255] b then utf_16 true true
  else if startswith [255; 254] b then utf_16 false true
  else if startswith [239; 187; 191] b then utf_8_sig
  else
    match b with
    | b0 :: b1 :: b2 :: b3 :: _ =>
        if b0 =? 0 then (if b1 =? 0 then utf_32 true false else utf_16 true false)
        else if b1 =? 0 then (if (b2 =? 0) && (b3 =? 0) then utf_32 false false else utf_16 false false)
        else utf_8
    | [b0; b1] => if b0 =? 0 then utf_16 true false else if b1 =? 0 then utf_16 false false else utf_8
    | _ => utf_8
    end.

(** UTF-8 with lone surrogates let through *)
Fixpoint utf8_pass (fuel : nat) (s : bytes) : option pystr :=
  match s, fuel with
  | [], _ => Some []
  | _, O => None
  | _, S k =>
      match utf8_step s with
      | (Some c, n) => cons c <$> utf8_pass k (drop n s)
      | (None, _) =>
          let b1 := nth_byte 1 s in let b2 := nth_byte 2 s in
          if (nth_byte 0 s =? 237) && between 160 191 b1 && continuation b2
          then cons (53248 + (b1 - 128) * 64 + (b2 - 128)) <$> utf8_pass k (drop 3 s)
          else None
      end
  end.

Definition unit16 (big : bool) (a b : Z) : Z := if big then a * 256 + b else b * 256 + a.

Fixpoint units16 (big : bool) (s : bytes) : option (list Z) :=
  match s with
  | [] => Some []
  | a :: b :: r => cons (unit16 big a b) <$> units16 big r
  | _ => None
  end.

(** Surrogate pairs are joined, lone surrogates are let through. *)
Fixpoint join16 (l : list Z) : pystr :=
  match l with
  | [] => []
  | u :: ((v :: r) as l') =>
      if is_high u && is_low v then (65536 + (u - 55296) * 1024 + (v - 56320)) :: join16 r else u :: join16 l'
  | [u] => [u]
  end.

Fixpoint units32 (big : bool) (s : bytes) : option pystr :=
  match s with
  | [] => Some []
  | a :: b :: c :: d :: r =>
      let u := if big then unit16 true a b * 65536 + unit16 true c d else unit16 false c d * 65536 + unit16 false a b in
      if u <=? 1114111 then cons u <$> units32 big r else None
  | _ => None
  end.

Definition decode_json (b : bytes) : option pystr :=
  match detect_encoding b with
  | utf_8 => utf8_pass (length b) b
  | utf_8_sig => utf8_pass (length b) (drop 3 b)
  | utf_16 big mark => join16 <$> units16 big (if mark then drop 2 b else b)
  | utf_32 big mark => units32 big (if mark then drop 4 b else b)
  end.

(** [json.loads(b)] *)
Definition loads_bytes (b : bytes) : result pyval :=
  text ← of_option (decode_json b) (UnicodeError (str "cannot be decoded"));
  of_option (loads default_hooks text) JSONDecodeError.

(** Bytes that no encoding with wide units claims are read as UTF-8. *)
Lemma utf8_pass_ascii s : is_ascii s = true -> forall k, (length s <= k)%nat -> utf8_pass k s = Some s.
Proof.
  induction s as [|c s IH]; intros Hs k Hk; [by destruct k|].
  destruct k as [|k]; [cbn in Hk; lia|]. cbn in Hs. apply andb_true_iff in Hs as [Hc Hs].
  cbn [utf8_pass]. unfold utf8_step, nth_byte. cbn [nth].
  replace (between 0 127 c) with true.
  - cbn [drop]. by rewrite IH by (done || cbn in Hk; lia).
  - symmetry. apply between_spec. apply andb_true_iff in Hc as [H1%Z.leb_le H2%Z.ltb_lt]. lia.
Qed.
