(* ===== verification/RuntimeVllm.v ===== *)
(** * The vLLM adapter

    [backend/app/runtime/vllm.py]: what the adapter reads from a checkpoint,
    the checkpoints and images it binds together, and the command, environment
    and volumes of a vLLM container. *)
From Stdlib Require Import ZArith Lia Bool String SpecFloat.
From stdpp Require Import prelude.
From S2P Require Import Prelude PyValue PosixPath PyFloat Utf8 Sha256 Json JsonBytes Secrets PyText PurePath RuntimeSpec RuntimeBase.
Open Scope Z_scope.

Definition strs (l : list string) : list pystr := map str l.

Definition TOOL_CALL_PARSER_MARKERS : marker_table :=
  [(str "muse_glimmer", strs ["<atem:function_calls>"; "<atem:invoke name="]);
   (str "qwen3_xml", strs ["<tool_call>"; "<function="; "<parameter="]);
   (str "minicpm5", strs ["<function name="; "<param name="]);
   (str "hermes", strs ["<tool_call>"])]%string.

Definition REASONING_PARSER_MARKERS : marker_table :=
  [(str "muse_glimmer", strs ["<|start|>assistant to=self<|message|>"]); (str "qwen3", strs ["<think>"])]%string.

Definition NEMOTRON_H_FLAGS : list pystr :=
  strs ["--moe-backend"; "marlin"; "--kv-cache-dtype"; "fp8"; "--enable-prefix-caching"; "--mamba-backend"; "flashinfer";
        "--mamba-cache-mode"; "align"; "--mamba-ssm-cache-dtype"; "float16"]%string.

Definition AEON_MIXED_SPARK_IMAGE : pystr := str "ghcr.io/aeon-7/aeon-vllm-ultimate:2026-09-07-reasoning-eos".
Definition AEON_MIXED_SPARK_OMNI_IMAGE : pystr := str "ghcr.io/aeon-7/aeon-vllm-ultimate:2026-09-11-v0.29.0-omni".
Definition AEON_MIXED_SPARK_DFLASH_FIXED_IMAGE : pystr := str "dgx-local/aeon-vllm-ultimate:2026-09-11-dflash2-fix".
Definition AEON_MIXED_SPARK_0918_IMAGE : pystr := str "ghcr.io/aeon-7/aeon-vllm-ultimate:2026-09-18-v0.29.0-omni".
Definition AEON_MIXED_SPARK_0918_FIXED_IMAGE : pystr := str "dgx-local/aeon-vllm-ultimate:2026-09-18-dflash2-fix".
Definition AEON_MIXED_SPARK_0918_IMAGES : list pystr := [AEON_MIXED_SPARK_0918_IMAGE; AEON_MIXED_SPARK_0918_FIXED_IMAGE].
Definition AEON_MIXED_SPARK_OMNI_IMAGES : list pystr :=
  [AEON_MIXED_SPARK_OMNI_IMAGE; AEON_MIXED_SPARK_DFLASH_FIXED_IMAGE] ++ AEON_MIXED_SPARK_0918_IMAGES.
Definition AEON_MIXED_SPARK_IMAGES : list pystr := AEON_MIXED_SPARK_IMAGE :: AEON_MIXED_SPARK_OMNI_IMAGES.

Definition AEON_MIXED_SPARK_DFLASH_BATCH_TOKENS : list (list Z) :=
  [[1; 1; 10]; [2; 2; 10]; [3; 4; 8]; [5; 8; 7]; [9; 10; 6]; [11; 12; 5]; [13; 14; 4]; [15; 16; 3]].

Definition ORCA_FLASH_REPOSITORY : pystr := str "models--orcarouter--Qwen3.8-Flash-Next-Uncensored-NVFP4".
Definition ORCA_FLASH_REVISION : pystr := str "cddc6ec5a218d26a81c57353dead52839c6ab2b9".
Definition ORCA_FLASH_PLE_BYTES : Z := 102400491520.
Definition ORCA_FLASH_KV_BYTES : Z := 8 * 1024 ^ 3.
Definition ORCA_FLASH_SPARK_IMAGE : pystr := str "dgx-local/orcarouter-flash-next:v030-spark-20261010".

Definition LONG_CONTEXT_FP8_KV_THRESHOLD : Z := 131072.

(** ** What a checkpoint is *)

(** [any(predicate(str(name).lower()) for name in d.get("architectures") or [])] *)
Definition some_architecture `{UnicodeData} (predicate : pystr -> bool) (d : pydict) : result bool :=
  names ← py_iter (py_or (get "architectures" d) (PList []));
  Ok (existsb (fun name => predicate (lower (py_str name))) names).

Section Checkpoints.
Context {F : Type} `{ModelFiles F} `{UnicodeData}.

Definition config_of (model_path : path) : files F (option pyval) := read_config (child model_path (str "config.json")).

Definition is_model_type (name : string) (d : pydict) : bool :=
  match get "model_type" d with PStr t => str_eqb t (str name) | _ => false end.

Definition is_nemotron_h (model_path : path) : files F bool :=
  payload ← config_of model_path;
  match payload with
  | Some (PDict d) =>
      if is_model_type "nemotron_h" d then mret true
      else lift (some_architecture (startswith (str "nemotronh")) d)
  | _ => mret false
  end.

(** [json.dumps(quantization, sort_keys=True)] *)
Definition sorted_style : dump_style :=
  {| item_separator := str ", "; key_separator := str ": "; ensure_ascii := true; sort_keys := true; allow_nan := true |}.

Definition is_qwen35_nvfp4 (model_path : path) : files F bool :=
  payload ← config_of model_path;
  match payload with
  | Some (PDict d) =>
      is_qwen35 ← (if is_model_type "qwen3_5" d then mret true
                   else lift (some_architecture (startswith (str "qwen3_5")) d) : files F bool);
      match py_or (get "quantization_config" d) (PDict []) with
      | PDict quantization =>
          if is_qwen35 : bool then
            quantization_text ← lift (dumps sorted_style (PDict quantization));
            mret (match get "quant_method" quantization with
                  | PStr m => str_eqb m (str "compressed-tensors")
                  | _ => false
                  end && contains_text (str "nvfp4") (lower quantization_text))
          else mret false
      | _ => mret false
      end
  | _ => mret false
  end.

Definition orca_mmap_checkpoint (p : path) : bool :=
  str_eqb (path_name p) ORCA_FLASH_REVISION && str_eqb (path_name (parent p)) (str "snapshots")
  && str_eqb (path_name (parent (parent p))) ORCA_FLASH_REPOSITORY.
End Checkpoints.

(** ** The table on disk of the Orca checkpoint *)

(** [a == b] and [a - b] of JSON numbers *)
Definition num_eqb (a b : num) : bool :=
  match a, b with
  | NFloat S754_nan, _ | _, NFloat S754_nan => false
  | _, _ => negb (num_ltb a b) && negb (num_ltb b a)
  end.
Definition num_float (a : num) : result spec_float := match a with NInt n => Resources.float_of_int n | NFloat f => Ok f end.
Definition num_sub (a b : num) : result num :=
  match a, b with
  | NInt x, NInt y => Ok (NInt (x - y))
  | _, _ => x ← num_float a; y ← num_float b; Ok (NFloat (SFsub float_prec float_emax x y))
  end.

Definition number_of (v : pyval) : result num := of_option (as_num v) (TypeError (str "not a number")).

Definition PLE_ROWS : Z := 2500012.
Definition PLE_SHARD_BYTES : Z := PLE_ROWS * 160 * 2.

(** [d[key]] of a value of the header *)
Definition item_of (key : string) (v : pyval) : result pyval :=
  match v with
  | PDict d => of_option (dict_get (str key) d) (KeyError (str key))
  | _ => Raise (TypeError (str "indices must be integers"))
  end.

(** [value["shape"] != [2500012, 160]] *)
Definition is_ple_shape (v : pyval) : bool :=
  match v with
  | PList [a; b] =>
      match as_num a, as_num b with
      | Some x, Some y => num_eqb x (NInt PLE_ROWS) && num_eqb y (NInt 160)
      | _, _ => false
      end
  | _ => false
  end.

Definition bad_layout : exn := ValueError (str "Orca BF16 PLE tensor layout is invalid").

(** The byte range of one tensor *)
Definition ple_range (value : pyval) : result (num * num) :=
  offsets ← item_of "data_offsets" value;
  offsets ← py_iter offsets;
  '(b, e) ← match offsets with
            | [b; e] => Ok (b, e)
            | _ => Raise (ValueError (str "wrong number of values to unpack"))
            end;
  dtype ← item_of "dtype" value;
  _ ← guard_exn (match dtype with PStr t => str_eqb t (str "BF16") | _ => false end) bad_layout;
  shape ← item_of "shape" value;
  _ ← guard_exn (is_ple_shape shape) bad_layout;
  first ← number_of b;
  _ ← guard_exn (negb (num_ltb first (NInt 0))) bad_layout;
  last ← number_of e;
  size ← num_sub last first;
  _ ← guard_exn (num_eqb size (NInt PLE_SHARD_BYTES)) bad_layout;
  Ok (first, last).

Definition range_leb (a b : num * num) : bool :=
  if num_eqb (fst a) (fst b) then negb (num_ltb (snd b) (snd a)) else num_ltb (fst a) (fst b).

Fixpoint insert_range (x : num * num) (l : list (num * num)) : list (num * num) :=
  match l with
  | [] => [x]
  | y :: r => if range_leb x y then x :: l else y :: insert_range x r
  end.

(** [sorted(ranges)] *)
Definition sort_ranges (l : list (num * num)) : list (num * num) := foldr insert_range [] l.

(** The loop that follows the ranges from the start *)
Fixpoint follow (cursor : num) (l : list (num * num)) : result num :=
  match l with
  | [] => Ok cursor
  | (b, e) :: rest =>
      _ ← guard_exn (num_eqb b cursor) (ValueError (str "Orca BF16 PLE tensor ranges are not contiguous"));
      follow e rest
  end.

Definition PLE_PREFIX : pystr := str "model.language_model.layers.1.ple.ple_embedding.ngram_embedding.shard_".
Definition ple_name (i : Z) : pystr := PLE_PREFIX ++ dec i ++ str ".weight".
Definition ple_names : list pystr := map ple_name (seqZ 0 128).

(** [struct.unpack("<Q", b)[0]] *)
Definition little_endian (b : bytes) : Z := foldr (fun x acc => x + 256 * acc) 0 b.
Definition unpack_u64 (b : bytes) : result Z :=
  if zlen b =? 8 then Ok (little_endian b) else Raise (OtherException (str "unpack requires a buffer of 8 bytes")).

(** The header of the shard: its length and its entries *)
Definition ple_header (content : bytes) : result (Z * pydict) :=
  size ← unpack_u64 (take 8 content);
  _ ← guard_exn ((0 <? size) && (size <=? 256 * 1024)) (ValueError (str "Invalid Orca BF16 PLE header size"));
  header ← loads_bytes (take (Z.to_nat size) (drop 8 content));
  match header with
  | PDict d => Ok (size, dict_del (str "__metadata__") d)
  | PList _ => Raise (TypeError (str "pop expected at most 1 argument"))
  | _ => Raise (OtherException (str "AttributeError"))
  end.

(** [_orca_ple_bytes] *)
Definition orca_ple_bytes {F} `{ModelFiles F} (p : path) : files F Z := reads (fun f =>
  let shard := child p (str "model-00002-of-00017.safetensors") in
  content ← fs_read shard f;
  '(size, header) ← ple_header content;
  _ ← guard_exn (keys_equal header ple_names) (ValueError (str "Orca BF16 PLE tensors are missing or unexpected"));
  ranges ← mapM_result (fun e => ple_range (snd e)) header;
  cursor ← follow (NInt 0) (sort_ranges ranges);
  let incomplete := ValueError (str "Orca BF16 PLE shard is incomplete") in
  _ ← guard_exn (num_eqb cursor (NInt ORCA_FLASH_PLE_BYTES)) incomplete;
  st_size ← fs_size shard f;
  _ ← guard_exn (st_size =? 8 + size + ORCA_FLASH_PLE_BYTES) incomplete;
  Ok ORCA_FLASH_PLE_BYTES).

(** ** The adapter *)

Section Vllm.
Context {F : Type} `{ModelFiles F} `{UnicodeData} `{CaseFolding} `{Bundled} (images : list pystr) (roots : list path).

Definition image_in (l : list pystr) (s : DeploymentSpec) : bool := str_in (sp_image s) l.
Definition is_orca_image (s : DeploymentSpec) : bool := str_eqb (sp_image s) ORCA_FLASH_SPARK_IMAGE.

(** [VllmAdapter.validate] *)
Definition vllm_validate (s : DeploymentSpec) : files F path :=
  p ← base_validate (str "vllm") images roots s;
  if orca_mmap_checkpoint p || is_orca_image s then
    _ ← lift (guard_exn (orca_mmap_checkpoint p && is_orca_image s)
          (ValueError (str "This Orca checkpoint requires its pinned Spark mmap runtime")));
    _ ← orca_ple_bytes p;
    mret p
  else mret p.

(** [VllmAdapter.resident_model_size] *)
Definition vllm_resident (model_path : path) : files F Z :=
  total ← model_size model_path;
  if orca_mmap_checkpoint model_path then n ← orca_ple_bytes model_path; mret (total - n) else mret total.

(** [VllmAdapter.kv_cache_budget] *)
Definition vllm_kv_cache_budget (s : DeploymentSpec) : option Z :=
  if is_orca_image s then Some ORCA_FLASH_KV_BYTES else None.

Definition env (l : list (string * string)) : pydict := map (fun p => (str (fst p), PStr (str (snd p)))) l.

(** [VllmAdapter.environment] *)
Definition vllm_environment (s : DeploymentSpec) : files F pydict :=
  model_path ← vllm_validate s;
  let environment :=
    (if is_orca_image s
     then env [("VLLM_USE_DEEP_GEMM", "0"); ("HF_HUB_OFFLINE", "1"); ("TRANSFORMERS_OFFLINE", "1")]%string else [])
    ++ (if image_in AEON_MIXED_SPARK_IMAGES s then env [("VLLM_USE_V2_MODEL_RUNNER", "1")]%string else [])
    ++ (if image_in AEON_MIXED_SPARK_OMNI_IMAGES s
        then env [("VLLM_ENABLE_CUDA_COMPATIBILITY", "0"); ("VLLM_ALLOW_LONG_MAX_MODEL_LEN", "1")]%string else []) in
  nvfp4 ← is_qwen35_nvfp4 model_path;
  if nvfp4 : bool
  then mret (environment ++ env [("VLLM_USE_FLASHINFER_SAMPLER", "0"); ("VLLM_USE_TRITON_FP8_GEMM", "1")]%string)
  else mret environment.

Definition MODELOPT_TARGET : pystr :=
  str "/usr/local/lib/python3.12/site-packages/vllm/model_executor/layers/quantization/modelopt.py".

Definition volume (source bind : pystr) : pydict :=
  [(source, PDict [(str "bind", PStr bind); (str "mode", text "ro")])].

Definition nonempty (o : option pystr) : option pystr := match o with Some ((_ :: _) as s) => Some s | _ => None end.

(** [VllmAdapter.extra_volumes] *)
Definition vllm_extra_volumes (s : DeploymentSpec) : files F pydict :=
  model_path ← vllm_validate s;
  if image_in AEON_MIXED_SPARK_0918_IMAGES s then mret []
  else if image_in AEON_MIXED_SPARK_IMAGES s then
    r ← lift (of_option (sp_resolution s) (ValueError (str "Resolved deployment spec is required for AEON ModelOpt patch")));
    '(model_root, host_root) ←
      lift (match nonempty (base_model_root r), nonempty (base_host_model_root r) with
            | Some a, Some b => Ok (a, b)
            | _, _ => Raise (ValueError (str "Resolved model roots are required for AEON ModelOpt patch"))
            end);
    patch ← reads (fs_resolve (child model_path (str "modelopt-54367.py")));
    found ← tests (fs_is_file patch);
    _ ← lift (guard_exn found
          (ValueError (str "AEON MIXED requires modelopt-54367.py from its model repository")));
    resolved_root ← reads (fs_resolve (parse_path model_root));
    relative ← lift (relative_to patch resolved_root);
    let source := join_path (parse_path host_root) relative in
    mret (volume (path_str source) MODELOPT_TARGET)
  else mret [].

(** [VllmAdapter.entrypoint] *)
Definition vllm_entrypoint (s : DeploymentSpec) : option (list pystr) :=
  if image_in AEON_MIXED_SPARK_IMAGES s then Some [] else None.

(** ** The command *)

Definition q (s : string) : pystr := 34 :: str s ++ [34].

Definition flag_if (b : bool) (l : list pystr) : list pystr := if b then l else [].
Definition flag_opt {A B} (o : option A) (f : A -> list B) : list B := match o with Some a => f a | None => [] end.

Definition orca_flags : list pystr :=
  [str "--tensor-parallel-size"; str "1"; str "--engram-config"; str "{" ++ q "cpu_offload" ++ str ":true}";
   str "--kv-cache-memory-bytes"; dec ORCA_FLASH_KV_BYTES; str "--kv-cache-dtype"; str "auto";
   str "--enable-prefix-caching"; str "--enable-prompt-tokens-details"; str "--enable-chunked-prefill";
   str "--mamba-cache-mode"; str "align"; str "--no-enable-flashinfer-autotune"; str "--compilation-config";
   str "{" ++ q "cudagraph_mode" ++ str ":" ++ q "FULL_DECODE_ONLY" ++ str "," ++ q "cudagraph_capture_sizes"
   ++ str ":[1,2,3,4,5,6,8,12,16,20]}"].

Definition aeon_flags (s : DeploymentSpec) (is_aeon_0918 : bool) : result (list pystr) :=
  defaults ← dumps (default_style true) (PDict (dump_generation (sp_generation_defaults s)));
  Ok [str "--kv-cache-dtype"; str "fp8"; str "--enable-chunked-prefill";
      (if is_aeon_0918 then str "--enable-prefix-caching" else str "--no-enable-prefix-caching");
      str "--attention-backend"; str "TRITON_ATTN"; str "--limit-mm-per-prompt";
      str "{" ++ q "image" ++ str ":4," ++ q "video" ++ str ":2}";
      str "--override-generation-config"; defaults].

(** The flags that name the model and its limits *)
Definition base_flags (s : DeploymentSpec) (model_path : pystr) (is_aeon_mixed : bool) : list pystr :=
  (if is_aeon_mixed then [str "vllm"; str "serve"; model_path] else [str "--model"; model_path])
  ++ [str "--served-model-name"; sp_api_model_name s; str "--host"; str "0.0.0.0"; str "--port"; str "8000";
      str "--max-model-len"; dec (sp_context_length s);
      str "--gpu-memory-utilization"; float_repr (sp_memory_fraction s);
      str "--max-num-seqs"; dec (sp_max_concurrency s)]
  ++ flag_opt (sp_max_batched_tokens s) (fun n => [str "--max-num-batched-tokens"; dec n]).

Definition unsupported_tuning : exn := ValueError (str "grouped speculative tuning fields are not supported by vLLM").
Definition method_mismatch : exn := ValueError (str "resolved runtime method does not match speculative method").

Definition ints (l : list Z) : pyval := PList (map PInt l).

(** The schedule of draft tokens by batch size *)
Definition batch_tokens (is_aeon_0918 : bool) (draft_tokens : Z) : pyval :=
  PList (map ints
    (if is_aeon_0918
     then map (fun '(first, last, tokens) => [first; last; Z.min tokens draft_tokens])
            [(1, 2, 9); (3, 4, 8); (5, 8, 7); (9, 12, 6); (13, 16, 5)]
     else AEON_MIXED_SPARK_DFLASH_BATCH_TOKENS)).

Definition among (n : option Z) (l : list Z) : bool := match n with Some x => existsb (Z.eqb x) l | None => false end.

(** The object of [--speculative-config] *)
Definition vllm_speculative (s : DeploymentSpec) (c : SpeculativeConfig) : result pydict :=
  let is_aeon_omni := image_in AEON_MIXED_SPARK_OMNI_IMAGES s in
  let is_aeon_0918 := image_in AEON_MIXED_SPARK_0918_IMAGES s in
  _ ← guard_exn (negb (existsb is_some [num_steps c; eagle_top_k c; num_draft_tokens c])) unsupported_tuning;
  runtime_method ← require_speculative_runtime_method s;
  _ ← guard_exn (str_eqb runtime_method (method_text (method c))) method_mismatch;
  let payload := [(str "method", PStr runtime_method)] in
  payload ← (if is_some (draft_model_id c)
             then m ← require_draft_container_path s; Ok (payload ++ [(str "model", PStr m)]) else Ok payload);
  let payload := payload ++ flag_opt (num_speculative_tokens c) (fun n => [(str "num_speculative_tokens", PInt n)]) in
  if is_aeon_omni && str_eqb runtime_method (str "dflash") then
    let required_tokens := if is_aeon_0918 then 9 else 10 in
    let draft_tokens := num_speculative_tokens c in
    _ ← guard_exn (negb is_aeon_0918 || among draft_tokens [7; 9])
          (ValueError (str "AEON September 18 DFlash supports 7 or 9 speculative tokens"));
    _ ← guard_exn (is_aeon_0918 || among draft_tokens [required_tokens])
          (ValueError (str "AEON Omni DFlash recipe requires num_speculative_tokens=" ++ dec required_tokens));
    _ ← guard_exn (sp_max_concurrency s <=? 16)
          (ValueError (str "AEON Omni DFlash recipe supports at most 16 concurrent requests"));
    Ok (payload ++ [(str "attention_backend", text "TRITON_ATTN");
                    (str "num_speculative_tokens_per_batch_size", batch_tokens is_aeon_0918 (default 0 draft_tokens))])
  else Ok payload.

Definition vllm_speculative_flags (s : DeploymentSpec) : result (list pystr) :=
  match sp_speculative s with
  | None => Ok []
  | Some c =>
      payload ← vllm_speculative s c;
      text ← dumps flag_style (PDict payload);
      Ok [str "--speculative-config"; text]
  end.

(** [spec.quantization] unless it is absent or "auto" *)
Definition quantization_flags (s : DeploymentSpec) : list pystr :=
  match nonempty (sp_quantization s) with
  | Some method => if str_eqb method (str "auto") then [] else [str "--quantization"; method]
  | None => []
  end.

Definition template_flags (model_path : pystr) (template_path : option path) : list pystr :=
  flag_opt template_path (fun t => [str "--chat-template"; container_chat_template_path model_path t]).

(** [VllmAdapter.command] *)
Definition vllm_command (s : DeploymentSpec) : files F (list pystr) :=
  validated_model_path ← vllm_validate s;
  model_path ← container_model_path vllm_validate roots s;
  nemotron_h ← is_nemotron_h validated_model_path;
  qwen35_nvfp4 ← is_qwen35_nvfp4 validated_model_path;
  let is_aeon_mixed := image_in AEON_MIXED_SPARK_IMAGES s in
  let is_aeon_omni := image_in AEON_MIXED_SPARK_OMNI_IMAGES s in
  let is_aeon_0918 := image_in AEON_MIXED_SPARK_0918_IMAGES s in
  _ ← lift (guard_exn (negb (is_aeon_mixed && negb (in_quantization [str "auto"] s)))
        (ValueError (str "AEON MIXED must auto-detect quantization from hf_quant_config.json")));
  aeon ← lift (if is_aeon_mixed then aeon_flags s is_aeon_0918 else Ok []);
  '(template, template_path) ← effective_chat_template s validated_model_path;
  let tool_call_parser :=
    if nemotron_h || is_aeon_mixed || is_orca_image s then Some (str "qwen3_coder")
    else match_parser template TOOL_CALL_PARSER_MARKERS in
  let reasoning_parser :=
    if is_aeon_mixed || is_orca_image s then Some (str "qwen3")
    else if nemotron_h then Some (str "nemotron_v3")
    else match_parser template REASONING_PARSER_MARKERS in
  kwargs ← lift (default_chat_template_kwargs_flags s);
  speculative ← lift (vllm_speculative_flags s);
  mret (base_flags s model_path is_aeon_mixed
        ++ flag_if (is_orca_image s) orca_flags
        ++ aeon
        ++ flag_if is_aeon_omni
             [str "--compilation-config"; str "{" ++ q "cudagraph_mode" ++ str ":" ++ q "FULL_AND_PIECEWISE" ++ str "}"]
        ++ flag_if is_aeon_0918 [str "--enable-prompt-tokens-details"]
        ++ flag_if qwen35_nvfp4 ([str "--generation-config"; str "auto"]
             ++ flag_if (LONG_CONTEXT_FP8_KV_THRESHOLD <=? sp_context_length s) [str "--kv-cache-dtype"; str "fp8"])
        ++ flag_if nemotron_h NEMOTRON_H_FLAGS
        ++ template_flags model_path template_path
        ++ flag_opt tool_call_parser (fun p => [str "--enable-auto-tool-choice"; str "--tool-call-parser"; p])
        ++ flag_opt reasoning_parser (fun p => [str "--reasoning-parser"; p])
        ++ quantization_flags s
        ++ kwargs
        ++ flag_if (sp_trust_remote_code s) [str "--trust-remote-code"]
        ++ speculative).

Context `{ErrorText}.

Definition vllm_adapter : Adapter F :=
  mkAdapter (str "vllm") images roots vllm_validate base_compatibility vllm_resident
    [str "chat"; str "completion"] vllm_command.
End Vllm.

(** ** The checks of the adapter *)

Section VllmSpec.
Context {F : Type} `{ModelFilesSpec F} `{UnicodeData} `{CaseFolding} `{Bundled} `{ErrorText}.

Lemma orca_ple_bytes_const p (f : F) n f' : orca_ple_bytes p f = (Ok n, f') -> n = ORCA_FLASH_PLE_BYTES /\ f' = f.
Proof.
  unfold orca_ple_bytes. intros Hm. apply reads_Ok_inv in Hm as [Hm ->]. split; [|done]. revert Hm. cbn zeta.
  unfold mbind, result_bind. repeat (case_match; try done). by intros [= <-].
Qed.

#[export] Instance vllm_spec images roots : AdapterSpec (F := F) (vllm_adapter images roots).
Proof.
  split. cbn. intros s f p f' Hm. unfold vllm_validate in Hm. step Hm.
  destruct (base_validate_inv _ _ _ _ _ _ _ E) as (-> & _).
  destruct (_ || _); [|by apply ret_Ok_inv in Hm as [-> ->]].
  step_pure Hm. step Hm. apply orca_ple_bytes_const in E1 as [_ ->]. by apply ret_Ok_inv in Hm as [-> ->].
Qed.
End VllmSpec.
