(* ===== verification/RuntimeSglang.v ===== *)
(** * The SGLang adapter

    [backend/app/runtime/sglang.py]: hybrid, mixture-of-experts and SSD-streamed
    checkpoints, the draft models of speculative decoding, and the command and
    environment of an SGLang container. *)
From Stdlib Require Import ZArith Lia Bool String SpecFloat.
From stdpp Require Import prelude.
From S2P Require Import Prelude PyValue PosixPath PyFloat Utf8 Sha256 Json Secrets PyText PurePath RuntimeSpec RuntimeBase RuntimeVllm.
Open Scope Z_scope.

Definition SGLANG_SPECULATIVE_METHODS (m : SpeculativeMethod) : pystr :=
  match m with
  | draft_model => str "STANDALONE" | dflash => str "DFLASH" | dspark => str "DSPARK"
  | eagle => str "EAGLE" | eagle3 => str "EAGLE3" | mtp => str "NEXTN"
  end.

Definition SGLANG_DSPARK_FLAGS : list pystr :=
  strs ["--kv-cache-dtype"; "fp8_e4m3"; "--attention-backend"; "flashinfer"; "--chunked-prefill-size"; "2048";
        "--mamba-ssm-dtype"; "float32"]%string.

Definition SGLANG_TOOL_MARKERS : marker_table :=
  [(str "qwen3_coder", strs ["<tool_call>"; "<function="; "<parameter="]);
   (str "minicpm5", strs ["<function name="; "<param name="]);
   (str "hermes", strs ["<tool_call>"])]%string.
Definition SGLANG_REASONING_MARKERS : marker_table := [(str "qwen3", strs ["<think>"])]%string.

Definition MAMBA_STATE_SLOTS_PER_REQUEST : Z := 5.
Definition MAMBA_RADIX_CACHE_STRATEGY : pystr := str "extra_buffer".
Definition SGLANG_SSD_STREAM_IMAGE : pystr := str "dgx-local/sglang-ssd-stream:5aeffa3-sm121-r3".
Definition SGLANG_ORNITH_DFLASH_IMAGE : pystr := str "dgx-local/sglang-ornith-dflash:0.5.18-cu130-r2".
Definition SSD_STREAM_MANIFEST : pystr := str "ssd-stream.json".
Definition SSD_STREAM_MAMBA_STATE_SLOTS_PER_REQUEST : Z := 5.

(** ** Paths of the Hugging Face cache *)

Definition MODELS_PREFIX : pystr := str "models--".

(** [s.replace("--", "/", 1)] *)
Fixpoint first_dashes (s : pystr) : pystr :=
  match s with
  | [] => []
  | c :: r =>
      if (c =? 45) && match r with d :: _ => d =? 45 | [] => false end then 47 :: List.tl r else c :: first_dashes r
  end.

Fixpoint repo_of_parts (parts : list pystr) : option pystr :=
  match parts with
  | [] => None
  | part :: rest =>
      if startswith MODELS_PREFIX part && negb (match rest with [] => true | _ => false end)
      then Some (first_dashes (drop (length MODELS_PREFIX) part))
      else repo_of_parts rest
  end.

Definition hf_repo_id_from_cache_path (p : pystr) : option pystr := repo_of_parts (split_on SLASH p).

Fixpoint parts_before (acc parts : list pystr) : option (list pystr) :=
  match parts with
  | [] => None
  | part :: rest => if startswith MODELS_PREFIX part then Some acc else parts_before (acc ++ [part]) rest
  end.

Definition hf_cache_root_from_container_path (p : pystr) : option pystr :=
  match parts_before [] (split_on SLASH p) with
  | Some before => Some (match join (str "/") before with [] => str "/" | s => s end)
  | None => None
  end.

Section Sglang.
Context {F : Type} `{ModelFiles F} `{UnicodeData} `{CaseFolding} `{Bundled} (images : list pystr) (roots : list path).

(** ** What a checkpoint is *)

Definition has_linear_attention (v : pyval) : bool :=
  match v with PList l => existsb (fun x => match x with PStr s => str_eqb s (str "linear_attention") | _ => false end) l | _ => false end.

(** The sections of a configuration: the whole and its [text_config] *)
Definition sections (d : pydict) : list pydict :=
  d :: match get "text_config" d with PDict t => [t] | _ => [] end.

Definition is_hybrid_gdn (model_path : path) : files F bool :=
  payload ← config_of model_path;
  mret (match payload with
        | Some (PDict d) =>
            existsb (fun section => has_linear_attention (get "layer_types" section)
                                    || truthy (get "linear_num_value_heads" section)) (sections d)
        | _ => false
        end).

Definition is_nvfp4_moe (model_path : path) : files F bool :=
  let quant_config := child model_path (str "hf_quant_config.json") in
  present ← tests (fs_is_file quant_config);
  nvfp4 ← (if present : bool
           then catch (t ← read_text_replace quant_config; mret (contains_text (str "NVFP4") t)) is_OSError (fun _ => mret false)
           else mret false : files F bool);
  if negb nvfp4 : bool then mret false
  else
    payload ← config_of model_path;
    match payload with
    | Some (PDict d) =>
        moe ← lift (some_architecture (contains_text (str "moe")) d);
        mret (moe || existsb (fun section => truthy (get "num_experts" section)) (sections d))
    | _ => mret false
    end.

(** [payload.get("version") != 1]: [1], [1.0] and [True] are equal *)
Definition is_one (v : pyval) : bool := match as_num v with Some n => num_eqb n (NInt 1) | None => false end.

Definition valid_manifest (v : pyval) : option pydict :=
  match v with
  | PDict d =>
      if match get "format" d with PStr s => str_eqb s (str "sglang-ssd-stream") | _ => false end
         && is_one (get "version" d) && match get "tables" d with PList _ => true | _ => false end
      then Some d else None
  | _ => None
  end.

Definition ssd_stream_manifest (model_path : path) : files F (option pydict) :=
  payload ← read_config (child model_path SSD_STREAM_MANIFEST);
  mret (v ← payload; valid_manifest v).

(** [declared] is an [int], [bool] included *)
Definition int_like (v : pyval) : option Z := match v with PInt n => Some n | PBool b => Some (Z.b2z b) | _ => None end.

(** The loop over the tables: [None] is the [return 0] of a bad entry *)
Fixpoint streamed_tables (model_path resolved_root : path) (tables : list pyval) (streamed : Z) (f : F) : result Z :=
  match tables with
  | [] => Ok streamed
  | PDict d :: rest =>
      match get "path" d with
      | PStr name =>
          candidate ← fs_resolve (child model_path name) f;
          if negb (is_relative_to candidate resolved_root) || negb (fs_is_file candidate f) then Ok 0
          else match fs_size candidate f with
               | Raise e => if is_OSError e then Ok 0 else Raise e
               | Ok size =>
                   match int_like (get "bytes" d) with
                   | Some declared =>
                       if (declared <=? 0) || negb (size =? declared) then Ok 0
                       else streamed_tables model_path resolved_root rest (streamed + size) f
                   | None => Ok 0
                   end
               end
      | _ => Ok 0
      end
  | _ => Ok 0
  end.

Definition ssd_streamed_bytes (model_path : path) : files F Z :=
  manifest ← ssd_stream_manifest model_path;
  match manifest with
  | None => mret 0
  | Some d =>
      resolved_root ← reads (fs_resolve model_path);
      match get "tables" d with
      | PList tables => reads (streamed_tables model_path resolved_root tables 0)
      | _ => mret 0
      end
  end.

(** ** The adapter *)

Definition sglang_validate (s : DeploymentSpec) : files F path :=
  model_path ← base_validate (str "sglang") images roots s;
  manifest ← ssd_stream_manifest model_path;
  present ← tests (fs_is_file (child model_path SSD_STREAM_MANIFEST));
  bad ← (if present : bool
         then match manifest with
              | None => mret true
              | Some _ => n ← ssd_streamed_bytes model_path; mret (n <=? 0)
              end
         else mret false : files F bool);
  _ ← lift (guard_exn (negb bad) (ValueError (str "SSD Stream manifest or sidecar is invalid")));
  _ ← lift (guard_exn (negb (is_some manifest) || str_eqb (sp_image s) SGLANG_SSD_STREAM_IMAGE)
        (ValueError (str "SSD Stream models require the reviewed image " ++ SGLANG_SSD_STREAM_IMAGE)));
  mret model_path.

Definition sglang_resident (model_path : path) : files F Z :=
  total ← model_size model_path;
  streamed ← ssd_streamed_bytes model_path;
  mret (Z.max (total - streamed) 0).

Definition is_dspark (s : DeploymentSpec) : bool := match sp_speculative s with Some c => is_method dspark c | None => false end.

Definition THREADS : pydict :=
  env [("OMP_NUM_THREADS", "20"); ("MKL_NUM_THREADS", "20"); ("OPENBLAS_NUM_THREADS", "20");
       ("NUMEXPR_NUM_THREADS", "20"); ("VECLIB_MAXIMUM_THREADS", "20")]%string.

Definition sglang_environment (s : DeploymentSpec) : files F pydict :=
  cache_root ← lift (if is_dspark s
                     then draft_path ← require_draft_container_path s;
                          Ok (default (str "/models") (hf_cache_root_from_container_path draft_path))
                     else Ok (str "/models"));
  model_path ← sglang_validate s;
  manifest ← ssd_stream_manifest model_path;
  mret (THREADS ++ [(str "HF_HOME", PStr cache_root); (str "HF_HUB_CACHE", PStr cache_root)]
        ++ (if str_eqb (sp_image s) SGLANG_ORNITH_DFLASH_IMAGE then env [("SGLANG_MAX_THINK_TOKENS", "8191")]%string else [])
        ++ (if is_some manifest then env [("SGLANG_PLUGINS", "ssd_stream")]%string else [])).

Definition sglang_security_options (s : DeploymentSpec) : files F (list pystr) :=
  model_path ← sglang_validate s;
  manifest ← ssd_stream_manifest model_path;
  mret (if is_some manifest then [str "no-new-privileges=true"; str "seccomp=unconfined"] else []).

Definition sglang_ulimits (s : DeploymentSpec) : files F (list pydict) :=
  model_path ← sglang_validate s;
  manifest ← ssd_stream_manifest model_path;
  mret (if is_some manifest then [[(str "name", text "memlock"); (str "soft", PInt (-1)); (str "hard", PInt (-1))]] else []).

(** ** The command *)

Definition EFFICIENTTHINK_REPOSITORY : pystr :=
  str "models--nerkyor--Qwen3.8-27B-EfficientThink-Uncensored-K3-Opus5-Grok4.6-GPT5.6Sol-SFT-SimPO-MTP-NVFP4".

Definition attribute_error : exn := OtherException (str "AttributeError").

(** [d.get(key, {})] of a value *)
Definition get_object (key : string) (v : pyval) : result pyval :=
  match v with
  | PDict d => Ok (match dict_get (str key) d with Some x => x | None => PDict [] end)
  | _ => Raise attribute_error
  end.

Definition is_mixed_precision (resolved_model_path : path) : files F bool :=
  if str_in EFFICIENTTHINK_REPOSITORY (path_parts resolved_model_path) then
    payload ← read_json (child resolved_model_path (str "config.json"));
    quantization ← lift (get_object "quantization_config" payload);
    match quantization with
    | PDict d => mret (match get "quant_algo" d with PStr a => str_eqb a (str "MIXED_PRECISION") | _ => false end)
    | _ => raise attribute_error
    end
  else mret false.

Definition sglang_base_flags (s : DeploymentSpec) (model_path : pystr) : list pystr :=
  [str "python3"; str "-m"; str "sglang.launch_server"; str "--model-path"; model_path;
   str "--served-model-name"; sp_api_model_name s; str "--host"; str "0.0.0.0"; str "--port"; str "8000";
   str "--context-length"; dec (sp_context_length s); str "--mem-fraction-static"; float_repr (sp_memory_fraction s);
   str "--max-running-requests"; dec (sp_max_concurrency s);
   str "--weight-loader-prefetch-num-threads"; str "20"; str "--enable-cache-report"].

Definition efficientthink_flags : list pystr :=
  strs ["--quantization"; "modelopt_mixed"; "--dtype"; "bfloat16"; "--kv-cache-dtype"; "bfloat16";
        "--enable-linear-replayssm-spec"; "--enable-metrics"]%string.

Definition ssd_stream_flags (s : DeploymentSpec) : list pystr :=
  strs ["--fp4-gemm-backend"; "flashinfer_cutlass"; "--kv-cache-dtype"; "bfloat16"; "--page-size"; "64";
        "--mamba-radix-cache-strategy"; "extra_buffer_lazy"; "--mamba-track-interval"; "64";
        "--mamba-ssm-dtype"; "float32"; "--max-mamba-cache-size"]%string
  ++ [dec (sp_max_concurrency s * SSD_STREAM_MAMBA_STATE_SLOTS_PER_REQUEST)]
  ++ strs ["--chunked-prefill-size"; "8192"; "--max-total-tokens"]%string
  ++ [dec (match sp_max_total_tokens s with Some n => if n =? 0 then sp_context_length s else n | None => sp_context_length s end)]
  ++ [str "--cuda-graph-max-bs-decode"; dec (sp_max_concurrency s); str "--disable-prefill-cuda-graph";
      str "--allow-auto-truncate"; str "--enable-multimodal"].

(** The size of the state pool or of the token pool *)
Definition pool_flags (s : DeploymentSpec) (ssd_stream hybrid : bool) : list pystr :=
  if ssd_stream then ssd_stream_flags s
  else match sp_max_total_tokens s with
       | Some n => [str "--max-total-tokens"; dec n]
       | None =>
           flag_if hybrid [str "--mamba-radix-cache-strategy"; MAMBA_RADIX_CACHE_STRATEGY;
                           str "--max-mamba-cache-size"; dec (sp_max_concurrency s * MAMBA_STATE_SLOTS_PER_REQUEST)]
       end.

Definition native_mtp_flags (model_path : pystr) : list pystr :=
  [str "--speculative-algorithm"; str "NEXTN"; str "--speculative-draft-model-path"; model_path ++ str "/mtp";
   str "--speculative-num-steps"; str "3"; str "--speculative-eagle-topk"; str "1";
   str "--speculative-num-draft-tokens"; str "4"].

(** The draft model of a method *)
Definition draft_flags (s : DeploymentSpec) (c : SpeculativeConfig) (runtime_method : pystr) : result (list pystr) :=
  if is_method dspark c then
    draft ← require_draft_container_path s;
    Ok [str "--speculative-algorithm"; runtime_method; str "--speculative-draft-model-path";
        match nonempty (hf_repo_id_from_cache_path draft) with Some repo => repo | None => draft end]
  else if is_method mtp c && negb (is_some (draft_model_id c)) then Ok [str "--speculative-algorithm"; runtime_method]
  else
    draft ← require_draft_container_path s;
    Ok [str "--speculative-algorithm"; runtime_method; str "--speculative-draft-model-path"; draft].

Definition opt_text (o : option Z) : pystr := match o with Some n => dec n | None => str "None" end.

Definition tuning_flags (c : SpeculativeConfig) : list pystr :=
  if is_method dflash c then flag_opt (num_draft_tokens c) (fun n => [str "--speculative-num-draft-tokens"; dec n])
  else flag_opt (num_steps c) (fun n =>
    [str "--speculative-num-steps"; dec n; str "--speculative-eagle-topk"; opt_text (eagle_top_k c);
     str "--speculative-num-draft-tokens"; opt_text (num_draft_tokens c)]).

Definition sglang_speculative (s : DeploymentSpec) (c : SpeculativeConfig) : result (list pystr) :=
  runtime_method ← require_speculative_runtime_method s;
  _ ← guard_exn (str_eqb runtime_method (SGLANG_SPECULATIVE_METHODS (method c))) method_mismatch;
  _ ← guard_exn (negb (is_some (num_speculative_tokens c)))
        (ValueError (str "num_speculative_tokens is not supported by SGLang"));
  draft ← draft_flags s c runtime_method;
  Ok (draft
      ++ flag_if (is_method dspark c)
           [str "--speculative-draft-attention-backend"; str "flashinfer"; str "--speculative-draft-model-quantization";
            str "unquant"]
      ++ tuning_flags c).

Definition sglang_speculative_flags (s : DeploymentSpec) (ssd_stream : bool) (model_path : pystr) : result (list pystr) :=
  match sp_speculative s with
  | None => Ok (flag_if ssd_stream (native_mtp_flags model_path))
  | Some c => sglang_speculative s c
  end.

(** [SGLangAdapter.command] *)
Definition sglang_command (s : DeploymentSpec) : files F (list pystr) :=
  model_path ← container_model_path sglang_validate roots s;
  resolved_model_path ← sglang_validate s;
  mixed ← is_mixed_precision resolved_model_path;
  manifest ← ssd_stream_manifest resolved_model_path;
  let ssd_stream := is_some manifest in
  hybrid ← (if negb ssd_stream && negb (is_some (sp_max_total_tokens s)) then is_hybrid_gdn resolved_model_path
            else mret false : files F bool);
  moe ← (if ssd_stream then mret false else is_nvfp4_moe resolved_model_path : files F bool);
  '(template, template_path) ← effective_chat_template s resolved_model_path;
  let tool_call_parser := if ssd_stream then Some (str "auto") else match_parser template SGLANG_TOOL_MARKERS in
  let reasoning_parser := if ssd_stream then Some (str "auto") else match_parser template SGLANG_REASONING_MARKERS in
  kwargs ← lift (default_chat_template_kwargs_flags s);
  speculative ← lift (sglang_speculative_flags s ssd_stream model_path);
  dspark_hybrid ← (if is_dspark s then is_hybrid_gdn resolved_model_path else mret false : files F bool);
  mret (sglang_base_flags s model_path
        ++ flag_if mixed efficientthink_flags
        ++ pool_flags s ssd_stream hybrid
        ++ flag_if (sp_disable_cuda_graph s) [str "--disable-cuda-graph"]
        ++ flag_if moe [str "--moe-runner-backend"; str "flashinfer_cutlass"]
        ++ template_flags model_path template_path
        ++ flag_opt tool_call_parser (fun p => [str "--tool-call-parser"; p])
        ++ flag_if (bool_decide (tool_call_parser = Some (str "minicpm5"))) [str "--dtype"; str "bfloat16"]
        ++ flag_opt reasoning_parser (fun p => [str "--reasoning-parser"; p])
        ++ quantization_flags s
        ++ kwargs
        ++ flag_if (sp_trust_remote_code s) [str "--trust-remote-code"]
        ++ flag_if (str_eqb (sp_image s) SGLANG_ORNITH_DFLASH_IMAGE) [str "--enable-strict-thinking"]
        ++ speculative
        ++ flag_if dspark_hybrid SGLANG_DSPARK_FLAGS).

Context `{ErrorText}.

Definition sglang_adapter : Adapter F :=
  mkAdapter (str "sglang") images roots sglang_validate base_compatibility sglang_resident
    [str "chat"; str "completion"] sglang_command.

(** [SGLangAdapter.preview] *)
Definition sglang_preview `{Platform} (s : DeploymentSpec) : files F pydict :=
  shown ← preview sglang_adapter s;
  model_path ← sglang_validate s;
  manifest ← ssd_stream_manifest model_path;
  match manifest with
  | None => mret shown
  | Some d =>
      streamed ← ssd_streamed_bytes model_path;
      resident ← sglang_resident model_path;
      mret (shown ++ [(str "ssd_stream",
        PDict [(str "enabled", PBool true); (str "streamed_bytes", PInt streamed);
               (str "resident_model_bytes", PInt resident); (str "source", get "source" d);
               (str "native_mtp", PBool (negb (is_some (sp_speculative s))))])])
  end.
End Sglang.

(** ** The checks of the adapter *)

Section SglangSpec.
Context {F : Type} `{ModelFilesSpec F} `{UnicodeData} `{CaseFolding} `{Bundled} `{ErrorText}.

Lemma read_config_still p : still (F := F) (read_config p).
Proof. unfold read_config, read_json, read_text. steady. Qed.
#[local] Hint Resolve read_config_still : still.

Lemma manifest_still p : still (F := F) (ssd_stream_manifest p).
Proof. unfold ssd_stream_manifest. steady. Qed.
#[local] Hint Resolve manifest_still : still.

Lemma streamed_still p : still (F := F) (ssd_streamed_bytes p).
Proof. unfold ssd_streamed_bytes. steady. Qed.
#[local] Hint Resolve streamed_still : still.

Lemma sglang_validate_inv images roots s (f f' : F) p : sglang_validate images roots s f = (Ok p, f') ->
  f' = f /\ base_validate (str "sglang") images roots s f = (Ok p, f) /\
  exists manifest, ssd_stream_manifest p f = (Ok manifest, f) /\
    (is_some manifest = true -> sp_image s = SGLANG_SSD_STREAM_IMAGE).
Proof.
  unfold sglang_validate. intros Hm. step Hm. destruct (base_validate_inv _ _ _ _ _ _ _ E) as (-> & _).
  step Hm. pose proof (still_run _ _ _ _ (manifest_still _) E0) as ->.
  step Hm. unfold tests in E1. injection E1 as <- <-.
  step Hm. assert (g = f) as ->.
  { eapply still_run; [|exact E1]. steady. }
  step_pure Hm. apply guard_exn_Ok in E2. step_pure Hm. apply guard_exn_Ok in E3.
  apply ret_Ok_inv in Hm as [-> ->]. split_and!; [done..|]. exists x0. split; [done|]. intros Hs. rewrite Hs in E3.
  by apply str_eqb_eq in E3.
Qed.

#[export] Instance sglang_spec images roots : AdapterSpec (F := F) (sglang_adapter images roots).
Proof. split. cbn. intros s f p f' Hm. by destruct (sglang_validate_inv _ _ _ _ _ _ Hm) as (-> & ? & _). Qed.
End SglangSpec.
