(* ===== verification/RuntimeLlamaCpp.v ===== *)
(** * The llama.cpp adapter

    [backend/app/runtime/llama_cpp.py]: the selection of the GGUF files, the
    runtime directory shared with the host, and the command of a llama-server
    container. *)
From Stdlib Require Import ZArith Lia Bool String SpecFloat.
From stdpp Require Import prelude.
From S2P Require Import Prelude PyValue PosixPath PyFloat Utf8 Sha256 Json Secrets PyText PurePath RuntimeSpec RuntimeBase RuntimeVllm.
Open Scope Z_scope.

Definition DEFAULT_CONTAINER_RUNTIME_DIR : path := parse_path (str "/opt/llamacpp").

Section LlamaCpp.
Context {F : Type} `{ModelFiles F} `{UnicodeData} `{CaseFolding} `{Bundled} (images : list pystr) (roots : list path).
(** the arguments of the constructor *)
Context (host_runtime_dir : pystr) (manager_runtime_dir container_runtime_dir : path).

(** [self.host_runtime_dir] *)
Definition host_dir : pystr := forward_slashes host_runtime_dir.

Definition unavailable (filename : pystr) : exn := ValueError (str "GGUF file is unavailable: " ++ filename).

(** [LlamaCppAdapter._contained_file] *)
Definition contained_file (model_path : path) (filename : pystr) : files F path :=
  let candidate := child model_path filename in
  resolved_root ← reads (fs_resolve model_path);
  resolved ← reads (fs_resolve candidate);
  is_file ← tests (fs_is_file candidate);
  if negb is_file || negb (is_relative_to resolved resolved_root) || negb (str_eqb (path_name candidate) filename)
  then raise (unavailable filename) else mret candidate.

Definition config (s : DeploymentSpec) : LlamaCppConfig := match sp_llama_cpp s with Some c => c | None => default_llama_cpp end.

Definition is_mmproj (name : pystr) : bool := startswith (str "mmproj") (lower name).

(** The primary GGUF files of a directory *)
Definition gguf_files (model_path : path) : files F (list path) := reads (fun f =>
  entries ← fs_iterdir model_path f;
  Ok (List.filter (fun p => fs_is_file p f && str_eqb (lower (suffix p)) (str ".gguf") && negb (is_mmproj (path_name p))) entries)).

Fixpoint insert_by_name (p : path) (l : list path) : list path :=
  match l with
  | [] => [p]
  | x :: r => if str_leb (lower (path_name p)) (lower (path_name x)) then p :: l else x :: insert_by_name p r
  end.
Definition sort_by_name (l : list path) : list path := foldr insert_by_name [] l.

Definition mmproj_error : exn := ValueError (str "The llama.cpp model file cannot be an mmproj file").
Definition projector_error : exn := ValueError (str "The llama.cpp projector must be an mmproj GGUF file").

(** [LlamaCppAdapter._select_files]: the model file *)
Definition select_model (s : DeploymentSpec) (model_path : path) : files F path :=
  candidates ← gguf_files model_path;
  match model_file (config s) with
  | Some name =>
      model ← contained_file model_path name;
      if is_mmproj (path_name model) then raise mmproj_error else mret model
  | None =>
      match sort_by_name candidates with
      | [only] => contained_file model_path (path_name only)
      | [] => raise (ValueError (str "No primary GGUF model file was found"))
      | _ => raise (ValueError (str "Multiple GGUF model files require an explicit model_file"))
      end
  end.

(** [LlamaCppAdapter._select_files]: the projector *)
Definition select_mmproj (s : DeploymentSpec) (model_path : path) : files F (option path) :=
  match mmproj_file (config s) with
  | Some name =>
      projector ← contained_file model_path name;
      if is_mmproj (path_name projector) then mret (Some projector) else raise projector_error
  | None =>
      let preferred := child model_path (str "mmproj-F16.gguf") in
      present ← tests (fs_is_file preferred);
      if present : bool then projector ← contained_file model_path (path_name preferred); mret (Some projector)
      else mret None
  end.

Definition select_files (s : DeploymentSpec) (model_path : path) : files F (path * option path) :=
  model ← select_model s model_path;
  projector ← select_mmproj s model_path;
  mret (model, projector).

(** [LlamaCppAdapter._validate_runtime] *)
Definition validate_runtime : files F unit :=
  let binary := child manager_runtime_dir (str "llama-server") in
  is_file ← tests (fs_is_file binary);
  executable ← tests (fs_executable binary);
  _ ← lift (guard_exn (is_file && executable) (ValueError (str "The configured llama-server binary is unavailable")));
  library ← tests (fs_is_dir (child manager_runtime_dir (str "lib")));
  _ ← lift (guard_exn library (ValueError (str "The configured llama.cpp library directory is unavailable")));
  lift (guard_exn (is_absolute (parse_path host_dir)) (ValueError (str "The llama.cpp host runtime directory must be absolute"))).

(** [LlamaCppAdapter.validate] *)
Definition llama_validate (s : DeploymentSpec) : files F path :=
  model_path ← base_validate (str "llama_cpp") images roots s;
  _ ← validate_runtime;
  _ ← select_files s model_path;
  mret model_path.

(** [LlamaCppAdapter.check_model_compatibility] *)
Definition llama_compatibility (model_path : path) : files F pydict :=
  found ← gguf_files model_path;
  let reasons := match found with [] => [str "No primary GGUF model file was found"] | _ => [] end in
  mret (compatibility (PList []) (Some (zlen found)) reasons).

Definition llama_extra_volumes (s : DeploymentSpec) : files F pydict :=
  _ ← llama_validate s; mret (volume host_dir (path_str container_runtime_dir)).
Definition llama_environment (s : DeploymentSpec) : files F pydict :=
  _ ← llama_validate s; mret [(str "LD_LIBRARY_PATH", PStr (path_str container_runtime_dir ++ str "/lib"))].
Definition llama_entrypoint (s : DeploymentSpec) : files F (list pystr) :=
  _ ← llama_validate s; mret [path_str (child container_runtime_dir (str "llama-server"))].

(** ** The command *)

Definition layers_text (g : GpuLayers) : pystr := match g with all_layers => str "all" | layers n => dec n end.

Definition llama_base_flags (s : DeploymentSpec) (container_model : pystr) : list pystr :=
  let c := config s in
  [str "--model"; container_model; str "--alias"; sp_api_model_name s; str "--host"; str "0.0.0.0"; str "--port"; str "8000";
   str "--ctx-size"; dec (sp_context_length s * sp_max_concurrency s); str "--no-kv-unified";
   str "--gpu-layers"; layers_text (gpu_layers c); str "--parallel"; dec (sp_max_concurrency s)].

Definition llama_cache_flags (c : LlamaCppConfig) : list pystr :=
  [str "--flash-attn"; flash_attention c; str "--cache-type-k"; cache_type_k c; str "--cache-type-v"; cache_type_v c;
   str "--batch-size"; dec (batch_size c); str "--ubatch-size"; dec (ubatch_size c);
   str "--cache-ram"; dec (cache_ram_mib c); str "--ctx-checkpoints"; dec (context_checkpoints c)].

Definition mtp_flags (c : LlamaCppConfig) : list pystr :=
  [str "--spec-type"; str "draft-mtp"; str "--spec-draft-type-k"; cache_type_k c; str "--spec-draft-type-v"; cache_type_v c;
   str "--spec-draft-n-max"; dec (mtp_tokens c)].

Definition generation_flags (g : GenerationDefaults) : list pystr :=
  let of_float (flag : string) (o : option spec_float) := flag_opt o (fun x => [str flag; float_repr x]) in
  of_float "--temp"%string (temperature g) ++ of_float "--top-p"%string (top_p g)
  ++ flag_opt (top_k g) (fun n => [str "--top-k"; dec n])
  ++ of_float "--min-p"%string (min_p g) ++ of_float "--repeat-penalty"%string (repetition_penalty g)
  ++ of_float "--presence-penalty"%string (presence_penalty g) ++ of_float "--frequency-penalty"%string (frequency_penalty g).

(** The template's defaults, under the shorter flag of llama-server *)
Definition llama_kwargs (kwargs : list pystr) (jinja : bool) : list pystr :=
  match kwargs with
  | _ :: value :: _ => flag_if jinja [str "--chat-template-kwargs"; value]
  | _ => []
  end.

(** [LlamaCppAdapter.command] *)
Definition llama_command (s : DeploymentSpec) : files F (list pystr) :=
  model_path ← llama_validate s;
  '(model, projector) ← select_files s model_path;
  container ← container_model_path llama_validate roots s;
  let root := parse_path container in
  let in_container (p : path) := path_str (child root (path_name p)) in
  let c := config s in
  template_path ← (if jinja c : bool then '(_, t) ← effective_chat_template s model_path; mret t
                   else mret None : files F (option path));
  kwargs ← lift (default_chat_template_kwargs_flags s);
  mret (llama_base_flags s (in_container model)
        ++ llama_cache_flags c
        ++ flag_opt projector (fun p => [str "--mmproj"; in_container p])
        ++ [if jinja c then str "--jinja" else str "--no-jinja"]
        ++ flag_opt template_path (fun t =>
             [str "--chat-template-file"; container_chat_template_path (path_str root) t; str "--reasoning-format"; str "deepseek"])
        ++ [if continuous_batching c then str "--cont-batching" else str "--no-cont-batching"]
        ++ flag_if (mtp_enabled c) (mtp_flags c)
        ++ llama_kwargs kwargs (jinja c)
        ++ generation_flags (sp_generation_defaults s)).

Definition llama_adapter : Adapter F :=
  mkAdapter (str "llama_cpp") images roots llama_validate llama_compatibility model_size
    [str "chat"; str "completion"] llama_command.
End LlamaCpp.

(** ** The checks of the adapter *)

Section LlamaSpec.
Context {F : Type} `{ModelFilesSpec F} `{UnicodeData} (images : list pystr) (roots : list path).
Context `{CaseFolding} `{Bundled} (host : pystr) (manager container : path).

Lemma contained_still p name : still (F := F) (contained_file p name).
Proof. unfold contained_file. steady. Qed.
#[local] Hint Resolve contained_still : still.

Lemma select_files_still s p : still (F := F) (select_files s p).
Proof. unfold select_files, select_model, select_mmproj, gguf_files. steady. Qed.
#[local] Hint Resolve select_files_still : still.

Lemma validate_runtime_still : still (F := F) (validate_runtime host manager).
Proof. unfold validate_runtime. steady. Qed.

Lemma llama_validate_inv s (f f' : F) p : llama_validate images roots host manager s f = (Ok p, f') ->
  f' = f /\ base_validate (str "llama_cpp") images roots s f = (Ok p, f) /\ exists r, select_files s p f = (Ok r, f).
Proof.
  unfold llama_validate. intros Hm. step Hm. destruct (base_validate_inv _ _ _ _ _ _ _ E) as (-> & _).
  step Hm. pose proof (still_run _ _ _ _ validate_runtime_still E0) as ->.
  step Hm. pose proof (still_run _ _ _ _ (select_files_still _ _) E1) as ->.
  apply ret_Ok_inv in Hm as [-> ->]. eauto.
Qed.

#[export] Instance llama_spec : AdapterSpec (F := F) (llama_adapter images roots host manager).
Proof. split. cbn. intros s f p f' Hm. by destruct (llama_validate_inv _ _ _ _ Hm) as (-> & ? & _). Qed.
End LlamaSpec.
