(* ===== verification/RuntimeOther.v ===== *)
(** * The Laya and Viggle adapters

    [backend/app/runtime/laya.py] (typed decisions) and
    [backend/app/runtime/viggle.py] (image generation). *)
From Stdlib Require Import ZArith Lia Bool String SpecFloat.
From stdpp Require Import prelude.
From S2P Require Import Prelude PyValue PosixPath PyFloat Utf8 Sha256 Json Secrets PyText PurePath RuntimeSpec RuntimeBase RuntimeVllm.
Open Scope Z_scope.

Definition LORA_FILE : pystr := str "Qwen-Image-2.1-viggle-turbo-v0.2.1-6step-lora-r256.safetensors".
Definition BASE_REVISION : pystr := str "d26bb61231c349cf6b7896fa83353113880e1ba3".

(** [bool(kwargs)] *)
Definition has_kwargs (s : DeploymentSpec) : bool := match sp_chat_template_kwargs s with Some (_ :: _) => true | _ => false end.
Definition has_template (s : DeploymentSpec) : bool := is_some (nonempty (sp_chat_template s)).
Definition has_generation (s : DeploymentSpec) : bool :=
  match dump_generation (sp_generation_defaults s) with [] => false | _ => true end.

Section Other.
Context {F : Type} `{ModelFiles F} `{UnicodeData} (images : list pystr) (roots : list path).

(** ** Laya *)

Definition laya_settings : exn := ValueError (str "Laya uses typed decisions, without generation or speculative settings").
Definition laya_limits : exn := ValueError (str "Laya Router uses checkpoint defaults (512/1024 tokens), concurrency 1").

Definition laya_validate (s : DeploymentSpec) : files F path :=
  p ← base_validate (str "laya") images roots s;
  _ ← lift (guard_exn (negb (is_some (sp_speculative s) || has_generation s || has_template s || has_kwargs s
                             || negb (in_quantization [str "auto"] s))) laya_settings);
  _ ← lift (guard_exn ((sp_context_length s =? 1024) && (sp_max_concurrency s =? 1)) laya_limits);
  mret p.

Definition LAYA_PARTS : list pystr := strs [""; "multilingual"; "typed-decisions"]%string.
Definition LAYA_FILES : list pystr :=
  strs ["model.safetensors"; "rl_agent_config.json"; "encoder/config.json"; "tokenizer/tokenizer.json";
        "tokenizer/tokenizer_config.json"]%string.

(** The required files, relative to the model *)
Definition laya_required : list pystr :=
  flat_map (fun sub => map (fun name => path_str (child (parse_path sub) name)) LAYA_FILES) LAYA_PARTS.

Definition laya_compatibility (model_path : path) : files F pydict := reads (fun f =>
  let missing := List.filter (fun name => negb (fs_is_file (child model_path name) f)) laya_required in
  Ok (compatibility (str_list [str "LayaDecisionModel"]) None (map (fun name => str "Missing " ++ name) missing))).

Definition laya_resident (model_path : path) : files F Z := reads (fun f =>
  sizes ← mapM_result (fun sub => fs_size (child (child model_path sub) (str "model.safetensors")) f) LAYA_PARTS;
  Ok (2 * sum_Z sizes)).

Definition laya_entrypoint : list pystr := [str "python3"; str "/opt/laya/server.py"].

(** [LayaAdapter.command] and [ViggleAdapter.command] *)
Definition server_command (validate : DeploymentSpec -> files F path) (s : DeploymentSpec) : files F (list pystr) :=
  model_path ← container_model_path validate roots s;
  mret [str "--model-path"; model_path; str "--served-model-name"; sp_api_model_name s; str "--port"; str "8000"].

Definition laya_adapter : Adapter F :=
  mkAdapter (str "laya") images roots laya_validate laya_compatibility laya_resident [str "decision"]
    (server_command laya_validate).

Definition replace_entry (key : string) (v : pyval) (d : pydict) : pydict := dict_set (str key) v d.

Definition laya_preview `{Platform} (s : DeploymentSpec) : files F pydict :=
  shown ← preview laya_adapter s;
  mret (replace_entry "api_example" (PStr (
    str "POST /v1/decisions: {" ++ q "model" ++ str ":" ++ [34] ++ route_name s ++ [34] ++ str "," ++ q "state" ++ str ":"
    ++ q "Please refund me." ++ str "," ++ q "questions" ++ str ":{" ++ q "refund" ++ str ":{" ++ q "type" ++ str ":"
    ++ q "noul" ++ str "," ++ q "instructions" ++ str ":" ++ q "Is a refund requested?" ++ str "}}}")) shown).

(** ** Viggle *)

Definition VIGGLE_REPOSITORY : pystr := str "models--Viggle--Qwen-Image-2.1-viggle-turbo".

Definition viggle_validate (s : DeploymentSpec) : files F path :=
  p ← base_validate (str "viggle") images roots s;
  _ ← lift (guard_exn (negb (is_some (sp_speculative s) || has_generation s || negb (in_quantization [str "auto"] s)))
        (ValueError (str "Viggle uses image-generation settings from the image studio")));
  _ ← lift (guard_exn (negb (negb (sp_max_concurrency s =? 1) || has_template s || has_kwargs s))
        (ValueError (str "Viggle requires concurrency 1 and the original image pipeline")));
  _ ← lift (guard_exn (str_eqb (path_name (parent p)) (str "snapshots")
                       && str_eqb (path_name (parent (parent p))) VIGGLE_REPOSITORY)
        (ValueError (str "Select the downloaded Viggle adapter snapshot")));
  mret p.

(** [ViggleAdapter.base_path] *)
Definition viggle_base_path (model_path : path) : result path :=
  hub ← parents 2 model_path;
  Ok (child (child (child hub (str "models--Qwen--Qwen-Image-2.1")) (str "snapshots")) BASE_REVISION).

(** [d.glob("*" + ending)] *)
Definition glob_ending (ending : pystr) (d : path) (f : F) : result (list path) :=
  if fs_is_dir d f then entries ← fs_iterdir d f; Ok (List.filter (fun p => endswith ending (path_name p)) entries)
  else Ok [].

(** The elements of a set of the given values, in the order in which Python
    goes through it *)
Class SetOrder := set_elements : list pyval -> list pyval.
Context `{SetOrder}.

Definition hashable (v : pyval) : bool := match v with PList _ | PDict _ => false | _ => true end.
Definition expected_str : exn := TypeError (str "expected str").

(** [set(json.loads(...)["weight_map"].values())] *)
Definition weight_shards (index : pyval) : result (list pyval) :=
  match index with
  | PDict d =>
      weight_map ← of_option (dict_get (str "weight_map") d) (KeyError (str "weight_map"));
      match weight_map with
      | PDict m =>
          let values := map snd m in
          _ ← guard_exn (forallb hashable values) (TypeError (str "unhashable type"));
          Ok (set_elements values)
      | _ => Raise (OtherException (str "AttributeError"))
      end
  | _ => Raise (TypeError (str "indices must be integers"))
  end.

(** [missing.extend(...)]: the names that were added, and the exception that
    stopped it *)
Fixpoint missing_shards (sub : pystr) (directory : path) (shards : list pyval) (f : F) : list pystr * option exn :=
  match shards with
  | [] => ([], None)
  | PStr name :: rest =>
      let '(names, failure) := missing_shards sub directory rest f in
      (if fs_is_file (child directory name) f then names else (str "base/" ++ sub ++ str "/" ++ name) :: names, failure)
  | _ :: _ => ([], Some expected_str)
  end.

Definition is_index_error (e : exn) : bool :=
  is_OSError e || is_ValueError e || match e with KeyError _ | TypeError _ => true | _ => false end.

(** One weight index: what it adds to the missing files *)
Definition check_index (sub : pystr) (index : path) : files F (list pystr) := fun f =>
  let invalid := str "base/" ++ sub ++ str " valid weight index" in
  match (v ← read_json index; lift (weight_shards v)) f with
  | (Ok shards, f') =>
      match missing_shards sub (parent index) shards f with
      | (names, None) => (Ok names, f')
      | (names, Some e) => (if is_index_error e then Ok (names ++ [invalid]) else Raise e, f')
      end
  | (Raise e, f') => (if is_index_error e then Ok [invalid] else Raise e, f')
  end.

Fixpoint check_indexes (sub : pystr) (indexes : list path) : files F (list pystr) :=
  match indexes with
  | [] => mret []
  | index :: rest => a ← check_index sub index; b ← check_indexes sub rest; mret (a ++ b)
  end.

Fixpoint check_parts (base : path) (subs : list pystr) : files F (list pystr) :=
  match subs with
  | [] => mret []
  | sub :: rest =>
      let directory := child base sub in
      weights ← reads (glob_ending (str ".safetensors") directory);
      indexes ← reads (glob_ending (str ".safetensors.index.json") directory);
      found ← check_indexes sub indexes;
      others ← check_parts base rest;
      mret (match weights with [] => [str "base/" ++ sub ++ str " weights"] | _ => [] end ++ found ++ others)
  end.

Definition viggle_compatibility (model_path : path) : files F pydict :=
  base ← lift (viggle_base_path model_path);
  let required := [child model_path LORA_FILE; child model_path (str "scheduler/scheduler_config.json");
                   child base (str "model_index.json")] in
  missing ← reads (fun f => Ok (map path_str (List.filter (fun p => negb (fs_is_file p f)) required)));
  parts ← check_parts base (strs ["transformer"; "text_encoder"; "vae"]%string);
  mret (compatibility (str_list [str "QwenImage21Pipeline"]) None
          (map (fun name => str "Missing " ++ name) (missing ++ parts))).

Definition viggle_resident (model_path : path) : files F Z :=
  base ← lift (viggle_base_path model_path);
  a ← model_size model_path; b ← model_size base; mret (a + b).

Definition viggle_entrypoint : list pystr := [str "python3"; str "/opt/viggle/server.py"].

Definition viggle_environment (runtime_token : pystr) (s : DeploymentSpec) : files F pydict :=
  container ← container_model_path viggle_validate roots s;
  cache ← lift (parents 2 (parse_path container));
  mret [(str "HF_HUB_CACHE", PStr (path_str cache)); (str "VIGGLE_API_KEY", PStr runtime_token)].

Definition viggle_adapter : Adapter F :=
  mkAdapter (str "viggle") images roots viggle_validate viggle_compatibility viggle_resident
    (strs ["image_generation"; "image_editing"; "image"]%string) (server_command viggle_validate).

(** The Chinese text of [result["api_example"]], by its code points *)
Definition VIGGLE_EXAMPLE : pystr :=
  [22312; 12300; 22270; 29255; 29983; 25104; 12301; 39029; 38754; 36755; 20837; 25552; 31034; 35789; 65292; 25110; 19978;
   20256; 32; 49; 8211; 51; 32; 24352; 21442; 32771; 22270; 36827; 34892; 32534; 36753; 12290].

Definition viggle_preview `{Platform} (s : DeploymentSpec) : files F pydict :=
  shown ← preview viggle_adapter s;
  mret (replace_entry "warnings"
          (str_list [str "Large image generations may temporarily need 60" ++ [8211] ++ str "70 GiB unified memory"])
          (replace_entry "api_example" (PStr VIGGLE_EXAMPLE) shown)).
End Other.

(** ** The checks of the adapters *)

Section OtherSpec.
Context {F : Type} `{ModelFilesSpec F} (images : list pystr) (roots : list path).

Lemma guarded_validate (runtime : pystr) (k : path -> files F path) s f p f' :
  (forall x g y g', k x g = (Ok y, g') -> y = x /\ g' = g) ->
  (x ← base_validate runtime images roots s; k x) f = (Ok p, f') ->
  f' = f /\ base_validate runtime images roots s f = (Ok p, f).
Proof.
  intros Hk Hm. step Hm. destruct (base_validate_inv _ _ _ _ _ _ _ E) as (-> & _).
  by destruct (Hk _ _ _ _ Hm) as [-> ->].
Qed.

#[export] Instance laya_spec : AdapterSpec (F := F) (laya_adapter images roots).
Proof.
  split. cbn. intros s f p f' Hm. eapply guarded_validate; [|exact Hm]. intros x g y g' Hk.
  step_pure Hk. step_pure Hk. by apply ret_Ok_inv in Hk as [-> ->].
Qed.

#[export] Instance viggle_spec `{UnicodeData} `{SetOrder} : AdapterSpec (F := F) (viggle_adapter images roots).
Proof.
  split. cbn. intros s f p f' Hm. eapply guarded_validate; [|exact Hm]. intros x g y g' Hk.
  step_pure Hk. step_pure Hk. step_pure Hk. by apply ret_Ok_inv in Hk as [-> ->].
Qed.
End OtherSpec.
