(* ===== verification/RuntimeChecks.v ===== *)
(** * What the adapters insist on

    Theorems about single settings of the vLLM and SGLang adapters: the draft
    schedule of the DFlash images, the table on disk of the Orca checkpoint,
    the containers without seccomp profile, the names of draft repositories,
    and the order of the parser tables. *)
From Stdlib Require Import ZArith Lia Bool String SpecFloat.
From stdpp Require Import prelude.
From S2P Require Import Prelude PyValue PosixPath PyFloat Utf8 Sha256 Json Secrets PyText PurePath RuntimeSpec RuntimeBase RuntimeDisk RuntimeVllm RuntimeSglang.
Open Scope Z_scope.

(** ** The parser tables *)

Definition parser_tables : list marker_table :=
  [RuntimeVllm.TOOL_CALL_PARSER_MARKERS; RuntimeVllm.REASONING_PARSER_MARKERS; SGLANG_TOOL_MARKERS; SGLANG_REASONING_MARKERS].

Lemma parser_tables_ordered : forallb most_specific_first parser_tables = true.
Proof. vm_compute. reflexivity. Qed.

Definition demo_template : pystr := str "<tool_call><function=f><parameter=p>1</parameter></function></tool_call>".

Lemma chosen_parser_most_specific_witness :
  match_parser demo_template SGLANG_TOOL_MARKERS = Some (str "qwen3_coder") /\
  exists required, In (str "qwen3_coder", required) SGLANG_TOOL_MARKERS /\ present demo_template required = true /\
    (forall other more, In (other, more) SGLANG_TOOL_MARKERS -> present demo_template more = true ->
       covers more required = true -> covers required more = true).
Proof.
  assert (Hm : match_parser demo_template SGLANG_TOOL_MARKERS = Some (str "qwen3_coder")) by (vm_compute; reflexivity).
  split; [exact Hm|].
  exact (chosen_parser_most_specific demo_template SGLANG_TOOL_MARKERS _ ltac:(vm_compute; reflexivity) Hm).
Defined.

(** ** The draft schedule *)

(** The tokens that the rows of a schedule give to a batch of [n] requests *)
Definition tokens_at (n : Z) (schedule : list (list Z)) : list Z :=
  omap (fun row => match row with
                   | [first; last; tokens] => if (first <=? n) && (n <=? last) then Some tokens else None
                   | _ => None
                   end) schedule.

Definition schedule_ok (draft : Z) (schedule : list (list Z)) : bool :=
  forallb (fun n => match tokens_at n schedule with [t] => (1 <=? t) && (t <=? draft) | _ => false end) (seqZ 1 16).

(** When the DFlash recipe of an AEON Omni image is accepted, the schedule
    that is sent has exactly one entry for every batch that can form, and it
    never asks for more draft tokens than the configured number. *)
Theorem dflash_schedule_covers s c payload :
  image_in AEON_MIXED_SPARK_OMNI_IMAGES s = true -> method c = dflash -> vllm_speculative s c = Ok payload ->
  exists draft schedule, num_speculative_tokens c = Some draft /\
    dict_get (str "num_speculative_tokens_per_batch_size") payload = Some (PList (map ints schedule)) /\
    sp_max_concurrency s <= 16 /\
    forall n, 1 <= n <= sp_max_concurrency s -> exists t, tokens_at n schedule = [t] /\ 1 <= t <= draft.
Proof.
  intros Hi Hmethod. unfold vllm_speculative. intros Hm. binds Hm. rewrite Hi in Hm.
  rewrite Hmethod in Hg0. apply str_eqb_eq in Hg0. subst x. cbn [andb method_text] in Hm.
  rewrite str_eqb_refl in Hm. binds Hm. apply Z.leb_le in Hg2.
  destruct (num_speculative_tokens c) as [draft|]; [|by destruct (image_in AEON_MIXED_SPARK_0918_IMAGES s)].
  assert (Hs : exists schedule, batch_tokens (image_in AEON_MIXED_SPARK_0918_IMAGES s) draft = PList (map ints schedule) /\
    schedule_ok draft schedule = true).
  { destruct (image_in AEON_MIXED_SPARK_0918_IMAGES s); cbn in Hg0, Hg1.
    - eexists. split; [reflexivity|]. rewrite orb_false_r in Hg0.
      apply orb_true_iff in Hg0 as [->%Z.eqb_eq| ->%Z.eqb_eq]; vm_compute; reflexivity.
    - eexists. split; [reflexivity|]. rewrite orb_false_r in Hg1. apply Z.eqb_eq in Hg1 as ->. vm_compute. reflexivity. }
  destruct Hs as (schedule & Hbatch & Hok). exists draft, schedule. split; [done|]. injection Hm as <-.
  split; [|split; [done|]].
  - rewrite <- Hbatch. destruct (is_some (draft_model_id c)); [binds Hb0|]; injection Hb0 as <-; reflexivity.
  - intros n Hn. unfold schedule_ok in Hok. rewrite forallb_forall in Hok.
    specialize (Hok n ltac:(apply list_elem_of_In, elem_of_seqZ; lia)).
    destruct (tokens_at n schedule) as [|t [|]]; try done. apply andb_true_iff in Hok as [Ha%Z.leb_le Hb'%Z.leb_le]. eauto.
Qed.

Definition aeon_spec : DeploymentSpec :=
  mkSpec (str "Aeon") None (str "/srv/models/qwen") (str "aeon") None (str "vllm") AEON_MIXED_SPARK_0918_IMAGE None
    32768 None (num_text "0.8") 12 None false None false no_defaults None None
    (Some (mkSpeculative (Some (str "draft-1")) dflash (Some 7) None None None false)) None None false
    (Some (mkResolution None None None None None None (Some (str "/models/draft")) (Some (str "dflash")))).

Definition aeon_config : SpeculativeConfig := mkSpeculative (Some (str "draft-1")) dflash (Some 7) None None None false.

Lemma dflash_schedule_covers_witness : exists payload schedule,
  vllm_speculative aeon_spec aeon_config = Ok payload /\
  dict_get (str "num_speculative_tokens_per_batch_size") payload = Some (PList (map ints schedule)) /\
  exists t, tokens_at 12 schedule = [t] /\ 1 <= t <= 7.
Proof.
  destruct (vllm_speculative aeon_spec aeon_config) as [payload|e] eqn:E; [|vm_compute in E; discriminate E].
  destruct (dflash_schedule_covers aeon_spec aeon_config payload ltac:(vm_compute; reflexivity) eq_refl E)
    as (draft & schedule & Hd & Hs & _ & Ht).
  exists payload, schedule. split; [exact eq_refl|]. split; [exact Hs|]. injection Hd as Hd. rewrite Hd.
  exact (Ht 12 ltac:(vm_compute; split; discriminate)).
Defined.

(** ** Containers without a seccomp profile *)

Definition UNCONFINED : pystr := str "seccomp=unconfined".

(** A container runs without the seccomp profile only on the reviewed image,
    for a model that has a valid manifest of SSD streaming, and it cannot gain
    privileges. *)
Theorem unconfined_only_reviewed {F} `{ModelFilesSpec F} images roots s (f f' : F) options :
  sglang_security_options images roots s f = (Ok options, f') -> In UNCONFINED options ->
  sp_image s = SGLANG_SSD_STREAM_IMAGE /\ In (sp_image s) images /\ In (str "no-new-privileges=true") options /\
  exists p manifest, fs_resolve (parse_path (sp_model_path s)) f = Ok p /\ ssd_stream_manifest p f = (Ok (Some manifest), f).
Proof.
  unfold sglang_security_options. intros Hm Hin. step Hm.
  destruct (sglang_validate_inv _ _ _ _ _ _ E) as (-> & Hb & manifest & Hman & Himage).
  destruct (base_validate_inv _ _ _ _ _ _ _ Hb) as (_ & _ & Hi & Hr & _). step Hm. rewrite Hman in E0. injection E0 as <- <-.
  apply ret_Ok_inv in Hm as [-> _]. destruct manifest as [d|]; [|done]. split; [by apply Himage|]. split; [done|].
  split; [by left|]. by exists x, d.
Qed.

Definition q_text (s : string) : bytes := 34 :: str s ++ [34].
Definition ssd_manifest : bytes :=
  str "{" ++ q_text "format" ++ str ":" ++ q_text "sglang-ssd-stream" ++ str "," ++ q_text "version" ++ str ":1,"
  ++ q_text "tables" ++ str ":[{" ++ q_text "path" ++ str ":" ++ q_text "table.bin" ++ str "," ++ q_text "bytes" ++ str ":3}]}".
Definition ssd_disk : disk :=
  [(at_ "/srv/models/ssd/ssd-stream.json", ssd_manifest); (at_ "/srv/models/ssd/table.bin", [1; 2; 3])].
Definition ssd_spec : DeploymentSpec :=
  mkSpec (str "Streamed") None (str "/srv/models/ssd") (str "streamed") None (str "sglang") SGLANG_SSD_STREAM_IMAGE None
    8192 None (num_text "0.7") 4 None false None false no_defaults None None None None None false None.

Lemma unconfined_only_reviewed_witness : exists options f',
  sglang_security_options [SGLANG_SSD_STREAM_IMAGE] demo_roots ssd_spec ssd_disk = (Ok options, f') /\
  In UNCONFINED options /\ In (str "no-new-privileges=true") options.
Proof.
  assert (Hok : fst (sglang_security_options [SGLANG_SSD_STREAM_IMAGE] demo_roots ssd_spec ssd_disk)
                = Ok [str "no-new-privileges=true"; UNCONFINED]) by (vm_compute; reflexivity).
  destruct (sglang_security_options _ _ _ _) as [r f'] eqn:E. cbn [fst] in Hok. rewrite Hok in E.
  exists [str "no-new-privileges=true"; UNCONFINED], f'. rewrite Hok.
  assert (Hin : In UNCONFINED [str "no-new-privileges=true"; UNCONFINED]) by (right; left; reflexivity).
  destruct (unconfined_only_reviewed _ _ _ _ _ _ E Hin) as (_ & _ & Hn & _).
  exact (conj eq_refl (conj Hin Hn)).
Defined.

(** ** The table on disk of the Orca checkpoint *)

(** The byte ranges of consecutive shards *)
Definition tiles (n : nat) : list (num * num) :=
  map (fun i => (NInt (Z.of_nat i * PLE_SHARD_BYTES), NInt ((Z.of_nat i + 1) * PLE_SHARD_BYTES))) (seq 0 n).

Definition int_range (r : num * num) : Prop := exists a, r = (NInt a, NInt (a + PLE_SHARD_BYTES)).

Lemma num_eqb_int a b : num_eqb (NInt a) (NInt b) = true <-> a = b.
Proof. cbn. rewrite andb_true_iff, !negb_true_iff, !Z.ltb_ge. lia. Qed.

Lemma insert_range_perm x l : Permutation (insert_range x l) (x :: l).
Proof.
  induction l as [|y l IH]; cbn; [done|]. destruct (range_leb x y); [done|]. rewrite IH. apply Permutation_swap.
Qed.

Lemma sort_ranges_perm l : Permutation (sort_ranges l) l.
Proof. induction l as [|x l IH]; cbn; [done|]. by rewrite insert_range_perm, IH. Qed.

Lemma follow_tiles l : forall k c, Forall int_range l -> follow (NInt (Z.of_nat k * PLE_SHARD_BYTES)) l = Ok c ->
  l = map (fun i => (NInt (Z.of_nat i * PLE_SHARD_BYTES), NInt ((Z.of_nat i + 1) * PLE_SHARD_BYTES))) (seq k (length l)) /\
  c = NInt (Z.of_nat (k + length l) * PLE_SHARD_BYTES).
Proof.
  induction l as [|r l IH]; intros k c Hl Hf.
  - cbn in Hf. injection Hf as <-. by rewrite Nat.add_0_r.
  - inversion_clear Hl as [|? ? [a ->] Hl']. cbn [follow] in Hf.
    apply bind_result_inv in Hf as ([] & Hg%guard_exn_Ok & Hf). apply num_eqb_int in Hg. subst a.
    replace (Z.of_nat k * PLE_SHARD_BYTES + PLE_SHARD_BYTES) with (Z.of_nat (S k) * PLE_SHARD_BYTES) in * by lia.
    destruct (IH (S k) c Hl' Hf) as [Hr ->]. cbn [length seq map]. split.
    + f_equal; [|exact Hr]. do 2 f_equal; lia.
    + do 2 f_equal. lia.
Qed.

(** The shard of the Orca checkpoint that is accepted, with whole numbers as
    offsets, has exactly the 128 tables, laid out one after the other without
    gap or overlap, and nothing else but the header. *)
Theorem orca_table_exact {F} `{ModelFiles F} p (f f' : F) n content size header ranges :
  orca_ple_bytes p f = (Ok n, f') ->
  fs_read (child p (str "model-00002-of-00017.safetensors")) f = Ok content ->
  ple_header content = Ok (size, header) -> mapM_result (fun e => ple_range (snd e)) header = Ok ranges ->
  Forall int_range ranges ->
  n = 128 * PLE_SHARD_BYTES /\ keys_equal header ple_names = true /\ Permutation ranges (tiles 128) /\
  fs_size (child p (str "model-00002-of-00017.safetensors")) f = Ok (8 + size + n).
Proof.
  intros Hm Hc Hh Hr Hint. apply reads_Ok_inv in Hm as [Hm ->]. cbn zeta in Hm.
  rewrite Hc in Hm. cbn [mbind result_bind] in Hm. rewrite Hh in Hm. cbn [mbind result_bind] in Hm.
  binds Hm. rewrite Hr in Hb. injection Hb as <-. apply Z.eqb_eq in Hg1. injection Hm as <-.
  pose proof (sort_ranges_perm ranges) as Hp.
  destruct (follow_tiles (sort_ranges ranges) 0 x0) as [Hl ->].
  { by rewrite Hp. } { done. }
  apply num_eqb_int in Hg0. rewrite Nat.add_0_l in Hg0.
  assert (Hlen : length (sort_ranges ranges) = 128%nat) by (unfold PLE_SHARD_BYTES, PLE_ROWS, ORCA_FLASH_PLE_BYTES in Hg0; lia).
  split; [reflexivity|]. split; [done|]. split; [|congruence]. rewrite <- Hp, Hl, Hlen. reflexivity.
Qed.

(** ** A configuration that is not text *)

(** The check of a model's compatibility reports a config.json that is no JSON
    as a reason, but a config.json that is no UTF-8 ends the check with an
    exception. *)
Lemma undecodable_config_raises {F} `{ModelFiles F} `{UnicodeData} `{ErrorText} model_path (f : F) content :
  fs_is_file (child model_path (str "config.json")) f = true ->
  fs_read (child model_path (str "config.json")) f = Ok content -> utf8_decode content = None ->
  base_compatibility model_path f = (Raise (UnicodeError (str "invalid utf-8")), f).
Proof.
  intros Hfile Hread Hdec. unfold base_compatibility, tests, mbind, files_bind. rewrite Hfile.
  unfold catch, read_json, read_text, reads, mbind, files_bind. rewrite Hread. cbn. by rewrite Hdec.
Qed.
