(* ===== verification/RuntimeCommands.v ===== *)
(** * What a launch command says

    The commands of the vLLM, SGLang and llama.cpp adapters give every setting
    of the deployment exactly once, whatever the other settings are: no value
    of the specification or of the checkpoint is taken for a flag. *)
From Stdlib Require Import ZArith Lia Bool String SpecFloat.
From stdpp Require Import prelude.
From S2P Require Import Prelude PyValue PosixPath PyFloat Utf8 Sha256 Json Secrets PyText PurePath RuntimeSpec RuntimeBase RuntimeDisk RuntimeVllm RuntimeSglang RuntimeLlamaCpp.
Open Scope Z_scope.

(** ** Flags and their arguments *)

(** The items that follow the occurrences of a flag *)
Fixpoint arguments (flag : pystr) (command : list pystr) : list pystr :=
  match command with
  | [] => []
  | item :: rest =>
      if str_eqb item flag then match rest with value :: _ => value :: arguments flag rest | [] => [] end
      else arguments flag rest
  end.

Definition foreign (flags command : list pystr) : bool := forallb (fun item => negb (str_in item flags)) command.

Definition flatten (settings : list (pystr * pystr)) : list pystr := flat_map (fun p => [fst p; snd p]) settings.

Lemma foreign_app flags a b : foreign flags (a ++ b) = foreign flags a && foreign flags b.
Proof. apply forallb_app. Qed.

Lemma arguments_foreign flags flag a b : In flag flags -> foreign flags a = true -> arguments flag (a ++ b) = arguments flag b.
Proof.
  intros Hin. induction a as [|x a IH]; [done|]. cbn. intros [Hx Ha]%andb_true_iff.
  destruct (str_eqb_spec x flag) as [->|]; [|by apply IH].
  rewrite (proj2 (str_in_In flag flags) Hin) in Hx. done.
Qed.

Lemma arguments_flatten flags flag settings b : In flag flags -> foreign flags (map snd settings) = true ->
  arguments flag (flatten settings ++ b)
  = map snd (List.filter (fun p => str_eqb (fst p) flag) settings) ++ arguments flag b.
Proof.
  intros Hin. induction settings as [|[k v] settings IH]; [done|].
  cbn [map snd foreign forallb]. intros [Hv Hs]%andb_true_iff. specialize (IH Hs).
  change (flatten ((k, v) :: settings) ++ b) with (k :: v :: flatten settings ++ b). cbn [arguments].
  assert (Hne : str_eqb v flag = false).
  { apply str_eqb_neq. intros ->. by rewrite (proj2 (str_in_In flag flags) Hin) in Hv. }
  rewrite Hne, IH. cbn [List.filter fst]. by destruct (str_eqb k flag).
Qed.

Lemma filter_key settings (k v : pystr) : base.NoDup (map fst settings) -> In (k, v) settings ->
  map snd (List.filter (fun p => str_eqb (fst p) k) settings) = [v].
Proof.
  induction settings as [|[k' v'] settings IH]; [done|]. cbn. intros Hnd Hin. inversion_clear Hnd as [|? ? Hnot Hnd'].
  destruct Hin as [[= -> ->]|Hin].
  - rewrite str_eqb_refl. cbn. f_equal. clear -Hnot. induction settings as [|[k' v'] settings IH]; [done|]. cbn in *.
    destruct (str_eqb_spec k' k) as [->|]; [exfalso; apply Hnot; left|]. apply IH. intros Hk. apply Hnot. by right.
  - destruct (str_eqb_spec k' k) as [->|]; [|by apply IH].
    exfalso. apply Hnot. apply list_elem_of_In, in_map_iff. by exists (k, v).
Qed.

(** A command of settings between items that are no settings *)
Lemma settings_exact settings1 settings2 pre mid post :
  let settings := settings1 ++ settings2 in
  base.NoDup (map fst settings) -> foreign (map fst settings) (map snd settings) = true ->
  foreign (map fst settings) (pre ++ mid ++ post) = true ->
  Forall (fun p => arguments (fst p) (pre ++ flatten settings1 ++ mid ++ flatten settings2 ++ post) = [snd p]) settings.
Proof.
  intros settings Hnd Hv Ho. rewrite !foreign_app in Ho. apply andb_true_iff in Ho as [Hpre [Hmid Hpost]%andb_true_iff].
  subst settings. rewrite (map_app snd), foreign_app in Hv. apply andb_true_iff in Hv as [Hv1 Hv2].
  apply List.Forall_forall. intros [k v] Hin. cbn [fst snd].
  assert (Hk : In k (map fst (settings1 ++ settings2))) by (apply in_map_iff; by exists (k, v)).
  rewrite (arguments_foreign _ k _ _ Hk Hpre), (arguments_flatten _ k _ _ Hk Hv1), (arguments_foreign _ k _ _ Hk Hmid),
    (arguments_flatten _ k _ _ Hk Hv2).
  rewrite <- (app_nil_r post), (arguments_foreign _ k _ _ Hk Hpost), app_nil_r, <- map_app, <- List.filter_app.
  by apply filter_key.
Qed.

(** ** Values that are no flags *)

(** [--...] *)
Definition dashes (s : pystr) : bool := startswith (str "--") s.

Definition numeric_char (c : Z) : bool := is_digit c || existsb (Z.eqb c) [43; 45; 46; 97; 101; 102; 105; 110].

Lemma dec_numeric n : forallb numeric_char (dec n) = true.
Proof.
  apply forallb_forall. intros c Hc. unfold numeric_char. destruct (dec_chars n c Hc) as [->| ->]; [done|reflexivity].
Qed.

Lemma forallb_sub {A} (p : A -> bool) a b : (forall x, In x a -> In x b) -> forallb p b = true -> forallb p a = true.
Proof. intros Hs Hb. apply forallb_forall. intros x Hx. rewrite forallb_forall in Hb. auto. Qed.

Lemma layout_numeric digits decpt : forallb numeric_char digits = true -> forallb numeric_char (layout digits decpt) = true.
Proof.
  intros Hd. assert (Hz : forall n, forallb numeric_char (zeros n) = true).
  { intros n. apply forallb_forall. intros c Hc%repeat_spec. by subst c. }
  assert (Ht : forall n, forallb numeric_char (two_digits n) = true).
  { intros n. unfold two_digits. case_match; cbn; by rewrite dec_numeric. }
  unfold layout. repeat case_match; rewrite ?forallb_app, ?Hz, ?Ht, ?Hd; try done.
  - rewrite (forallb_sub _ _ digits) by (done || intros x Hx; rewrite <- (take_drop (Z.to_nat decpt) digits); apply in_app_iff; by left).
    rewrite (forallb_sub _ (drop _ _) digits); [done| |done].
    intros x Hx; rewrite <- (take_drop (Z.to_nat decpt) digits); apply in_app_iff; by right.
  - cbn [forallb] in *. by destruct (numeric_char z), (numeric_char z0), (forallb numeric_char l0).
  - cbn [forallb] in *. by destruct (numeric_char z), (numeric_char z0), (forallb numeric_char l0).
Qed.

Lemma shortest_numeric fuel x num den E : forall n, forallb numeric_char (fst (shortest fuel x num den E n)) = true.
Proof.
  induction fuel as [|fuel IH]; intros n; cbn; case_match; try done; cbn; apply dec_numeric || apply IH.
Qed.

Lemma float_repr_numeric x : forallb numeric_char (float_repr x) = true.
Proof.
  destruct x as [[]|[]| |s m e]; [reflexivity..|]. unfold float_repr. cbv zeta.
  pose proof (shortest_numeric 20 (S754_finite false m e) (if 0 <=? e then Z.pos m * 2 ^ e else Z.pos m)
                (if 0 <=? e then 1 else 2 ^ - e)
                (decimal_exponent (if 0 <=? e then Z.pos m * 2 ^ e else Z.pos m) (if 0 <=? e then 1 else 2 ^ - e)) 1) as Hs.
  destruct (shortest _ _ _ _ _ _) as [digits decpt]. cbn in Hs.
  assert (Ht : forallb numeric_char (layout (rstrip_with (fun c => c =? 48) digits) decpt) = true).
  { apply layout_numeric. unfold rstrip_with. rewrite forallb_rev.
    destruct (lstrip_with_sub (fun c => c =? 48) (rev digits)) as [a Ha].
    rewrite <- forallb_rev, Ha, forallb_app in Hs. by apply andb_true_iff in Hs as [_ Hs]. }
  destruct s; [cbn [forallb]; by rewrite Ht|done].
Qed.

(** A value that may be given: a number, or a text that does not begin like a
    flag *)
Definition value_ok (s : pystr) : bool := forallb numeric_char s || negb (dashes s).

(** A flag that no value is taken for *)
Definition proper_flag (s : pystr) : bool := dashes s && negb (forallb numeric_char s).

Lemma value_foreign flags v : forallb proper_flag flags = true -> value_ok v = true -> foreign flags [v] = true.
Proof.
  intros Hf Hv. cbn. rewrite andb_true_r. apply negb_true_iff, str_in_false. intros Hin.
  rewrite forallb_forall in Hf. specialize (Hf v Hin). unfold proper_flag in Hf. unfold value_ok in Hv.
  apply andb_true_iff in Hf as [Hd Hn%negb_true_iff]. rewrite Hn, Hd in Hv. done.
Qed.

Lemma dec_ok n : value_ok (dec n) = true.
Proof. unfold value_ok. by rewrite dec_numeric. Qed.
Lemma float_ok x : value_ok (float_repr x) = true.
Proof. unfold value_ok. by rewrite float_repr_numeric. Qed.

(** A text whose first character is not a dash *)
Lemma head_ok c r : c <> 45 -> value_ok (c :: r) = true.
Proof.
  intros Hc. unfold value_ok, dashes. change (startswith (str "--") (c :: r)) with ((45 =? c) && startswith (str "-") r).
  destruct (Z.eqb_spec 45 c); [congruence|]. apply orb_true_r.
Qed.

Lemma dumps_object style d t : dumps style (PDict d) = Ok t -> value_ok t = true.
Proof.
  unfold dumps. destruct (encodable _ _); [|done]. intros [= <-]. destruct (sort_keys style); by apply head_ok.
Qed.

(** ** The parts of a command *)

Section Parts.
Context (flags : list pystr) (Hflags : forallb proper_flag flags = true).

Lemma foreign_cons x l : foreign flags (x :: l) = negb (str_in x flags) && foreign flags l.
Proof. done. Qed.
Lemma foreign_value v l : value_ok v = true -> foreign flags l = true -> foreign flags (v :: l) = true.
Proof. intros Hv Hl. change (v :: l) with ([v] ++ l). by rewrite foreign_app, value_foreign. Qed.
Lemma foreign_literal x l : negb (str_in x flags) = true -> foreign flags l = true -> foreign flags (x :: l) = true.
Proof. intros Hx Hl. by rewrite foreign_cons, Hx. Qed.
Lemma foreign_join a b : foreign flags a = true -> foreign flags b = true -> foreign flags (a ++ b) = true.
Proof. intros Ha Hb. by rewrite foreign_app, Ha. Qed.
Lemma foreign_if (b : bool) l : (b = true -> foreign flags l = true) -> foreign flags (flag_if b l) = true.
Proof. destruct b; cbn; auto. Qed.
Lemma foreign_opt {A} (o : option A) k : (forall a, o = Some a -> foreign flags (k a) = true) -> foreign flags (flag_opt o k) = true.
Proof. destruct o as [a|]; [intros Hk; by apply Hk|done]. Qed.

Lemma foreign_values l : forallb value_ok l = true -> foreign flags l = true.
Proof. induction l as [|v l IH]; [done|]. cbn [forallb]. intros [Hv Hl]%andb_true_iff. by apply foreign_value; [|apply IH]. Qed.
End Parts.

Lemma opt_text_ok o : value_ok (opt_text o) = true.
Proof. destruct o; [apply dec_ok|reflexivity]. Qed.

Create HintDb values discriminated.
#[export] Hint Resolve dec_ok float_ok opt_text_ok : values.

(** The parts of a command: flags by evaluation, values by the hints *)
Ltac segment :=
  repeat match goal with
  | |- foreign _ (_ ++ _) = true => first [assumption | simple apply foreign_join]
  | |- foreign _ (flag_if _ _) = true => first [assumption | simple apply foreign_if; intros _]
  | |- foreign _ (flag_opt _ _) = true => first [assumption | simple apply foreign_opt; intros ? ?]
  | |- foreign _ (_ :: _) = true =>
      first [ simple apply foreign_value; [solve [trivial with values]|solve [trivial with values]|]
            | simple apply foreign_literal; [vm_compute; reflexivity|] ]
  | |- foreign _ [] = true => reflexivity
  | |- foreign _ _ = true => first [assumption | reflexivity]
  end.

Lemma match_parser_In template t name : match_parser template t = Some name -> In name (map fst t).
Proof. intros (a & r & b & -> & _)%match_parser_split. rewrite map_app. apply in_app_iff. right. by left. Qed.

Lemma parser_ok template t name : forallb value_ok (map fst t) = true -> match_parser template t = Some name -> value_ok name = true.
Proof. intros Ht Hm%match_parser_In. rewrite forallb_forall in Ht. auto. Qed.

Lemma kwargs_foreign flags s l : forallb proper_flag flags = true ->
  negb (str_in (str "--default-chat-template-kwargs") flags) = true ->
  default_chat_template_kwargs_flags s = Ok l -> foreign flags l = true.
Proof.
  intros Hf Hx. unfold default_chat_template_kwargs_flags.
  destruct (sp_chat_template_kwargs s) as [[|p d]|]; [by intros [= <-]| |by intros [= <-]].
  intros (t & Ht & [= <-])%bind_result_inv. apply foreign_literal; [done|]. apply foreign_value; [done| |done].
  by eapply dumps_object.
Qed.

Lemma quantization_foreign `{UnicodeData} flags s : forallb proper_flag flags = true ->
  negb (str_in (str "--quantization") flags) = true -> valid_spec s -> foreign flags (quantization_flags s) = true.
Proof.
  intros Hf Hx Hv. unfold quantization_flags, nonempty.
  assert (Hq : in_quantization QUANTIZATION_METHODS s = true).
  { pose proof (valid_fields s Hv) as Hs. unfold spec_fields_ok in Hs. rewrite !andb_true_iff in Hs. tauto. }
  unfold in_quantization in Hq. destruct (sp_quantization s) as [[|c r]|]; [done| |done].
  destruct (str_eqb _ _); [done|]. apply foreign_literal; [done|]. apply foreign_value; [done| |done].
  cbn [opt_ok] in Hq. apply str_in_In in Hq.
  assert (Hall : forallb value_ok QUANTIZATION_METHODS = true) by (vm_compute; reflexivity).
  rewrite forallb_forall in Hall. auto.
Qed.

(** Paths that begin with a slash *)
Definition rooted (s : pystr) : Prop := exists r, s = 47 :: r.

Lemma rooted_ok s : rooted s -> value_ok s = true.
Proof. intros [r ->]. by apply head_ok. Qed.

Lemma parse_rooted s : rooted s -> is_absolute (parse_path s) = true.
Proof.
  intros [r ->]. unfold parse_path, is_absolute. cbn [root]. case_match; [done|].
  change (startswith (str "/") (47 :: r)) with true. done.
Qed.

Lemma absolute_rooted s : is_absolute (parse_path s) = true -> rooted s.
Proof.
  unfold parse_path, is_absolute, rooted. cbn [root]. destruct s as [|c r]; [done|].
  change (startswith (str "//") (c :: r)) with ((47 =? c) && startswith (str "/") r).
  change (startswith (str "/") (c :: r)) with ((47 =? c) && true).
  destruct (Z.eqb_spec 47 c) as [<-|]; [by exists r|done].
Qed.

Lemma path_str_rooted p : is_absolute p = true -> well_parsed p -> rooted (path_str p).
Proof.
  intros Ha [[Hr|[Hr|Hr]] _]; unfold is_absolute in Ha; rewrite Hr in Ha; [done| |]; unfold path_str, rooted; rewrite Hr; by eexists.
Qed.

Lemma child_absolute p name : is_absolute p = true -> is_absolute (child p name) = true.
Proof. intros Hp. unfold child, join_path. by destruct (is_absolute (parse_path name)) eqn:E. Qed.

Lemma child_rooted p name : is_absolute p = true -> well_parsed p -> rooted (path_str (child p name)).
Proof. intros Ha Hp. apply path_str_rooted; [by apply child_absolute|]. apply join_path_ok; [done|apply parse_path_ok]. Qed.

Lemma container_rooted {F} `{ModelFilesSpec F} p roots (f f' : F) c : container_path_under p roots f = (Ok c, f') ->
  rooted c /\ f' = f.
Proof.
  induction roots as [|x roots IH]; [done|]. cbn [container_path_under]. intros Hm. step_pure Hm.
  destruct (under_root p x0); [|by apply IH]. step_pure Hm. apply ret_Ok_inv in Hm as [-> ->]. split; [|done].
  destruct (relative_to_join _ _ _ E0) as [Hr _]. unfold join_path, is_absolute. rewrite Hr. by eexists.
Qed.

Lemma template_foreign flags model_path t : forallb proper_flag flags = true ->
  negb (str_in (str "--chat-template") flags) = true -> rooted model_path -> foreign flags (template_flags model_path t) = true.
Proof.
  intros Hf Hx Hm. unfold template_flags. apply foreign_opt. intros p _. apply foreign_literal; [done|].
  apply foreign_value; [done| |done]. apply rooted_ok, child_rooted; [by apply parse_rooted|apply parse_path_ok].
Qed.

Definition TRUST : pystr := str "--trust-remote-code".

Lemma in_foreign flags x l : In x flags -> foreign flags l = true -> ~ In x l.
Proof.
  intros Hx Hl Hin. unfold foreign in Hl. rewrite forallb_forall in Hl. specialize (Hl x Hin).
  by rewrite (proj2 (str_in_In x flags) Hx) in Hl.
Qed.

Lemma trust_iff (b : bool) a c : ~ In TRUST a -> ~ In TRUST c -> In TRUST (a ++ flag_if b [TRUST] ++ c) <-> b = true.
Proof.
  intros Ha Hc. rewrite !in_app_iff. destruct b; cbn; [|naive_solver].
  split; [done|]. intros _. right. left. by left.
Qed.

Lemma foreign_incl small big l : incl small big -> foreign big l = true -> foreign small l = true.
Proof.
  intros Hi Hl. unfold foreign in *. rewrite forallb_forall in *. intros x Hx. specialize (Hl x Hx).
  apply negb_true_iff, str_in_false in Hl. apply negb_true_iff, str_in_false. auto.
Qed.

(** The shape of a command and what it says *)
Lemma settings_and_trust flags settings pre post1 post2 (b : bool) :
  forallb proper_flag flags = true -> flags = map fst settings ++ [TRUST] -> base.NoDup flags ->
  forallb value_ok (map snd settings) = true ->
  foreign flags pre = true -> foreign flags post1 = true -> foreign flags post2 = true ->
  let c := pre ++ flatten settings ++ post1 ++ flag_if b [TRUST] ++ post2 in
  Forall (fun p => arguments (fst p) c = [snd p]) settings /\ (In TRUST c <-> b = true).
Proof.
  intros Hproper Hflags Hnd Hvalues Hpre H1 H2 c.
  assert (Hincl : incl (map fst settings) flags) by (rewrite Hflags; apply incl_appl; intros x; tauto).
  assert (Htrust : In TRUST flags) by (rewrite Hflags; apply in_app_iff; right; by left).
  assert (Hnd' : base.NoDup (map fst settings) /\ ~ In TRUST (map fst settings)).
  { rewrite Hflags in Hnd. apply NoDup_app in Hnd as (Hk & Hd & _). split; [done|].
    intros Hin%list_elem_of_In. apply (Hd _ Hin). left. }
  destruct Hnd' as [Hkeys Hno]. split.
  - pose proof (settings_exact settings [] pre [] (post1 ++ flag_if b [TRUST] ++ post2)) as He. cbn zeta in He.
    rewrite app_nil_r in He. apply He; [done| |].
    + eapply foreign_incl; [exact Hincl|]. by apply foreign_values.
    + cbn [app]. rewrite !foreign_app, (foreign_incl _ _ _ Hincl Hpre), (foreign_incl _ _ _ Hincl H1), (foreign_incl _ _ _ Hincl H2).
      destruct b; [|done]. cbn. by rewrite (proj2 (str_in_false _ _) Hno).
  - subst c. rewrite !app_assoc. rewrite <- (app_assoc _ _ post2). apply trust_iff; [|by eapply in_foreign].
    intros [[Hin|Hin]%in_app_iff|Hin]%in_app_iff;
      [by apply (in_foreign _ _ _ Htrust Hpre)| |by apply (in_foreign _ _ _ Htrust H1)].
    unfold flatten in Hin. apply in_flat_map in Hin as ([k v] & Hkv & [Hk|[Hk|[]]]); cbn in Hk.
    + apply Hno, in_map_iff. exists (k, v). split; [exact Hk|done].
    + apply foreign_values with (flags := flags) in Hvalues; [|done]. eapply in_foreign; [exact Htrust|exact Hvalues|].
      rewrite <- Hk. apply in_map_iff. by exists (k, v).
Qed.

Lemma api_name_value `{UnicodeData} s : valid_spec s -> value_ok (sp_api_model_name s) = true.
Proof.
  intros Hv. pose proof (valid_name s Hv) as Hn. destruct (sp_api_model_name s) as [|c r]; [done|].
  cbn in Hn. apply andb_true_iff in Hn as [Hc _]. apply head_ok. intros ->. done.
Qed.

(** ** vLLM *)

Section VllmCommand.
Context {F : Type} `{ModelFilesSpec F} `{UnicodeData} `{CaseFolding} `{Bundled} (images : list pystr) (roots : list path).

Definition vllm_settings (s : DeploymentSpec) : list (pystr * pystr) :=
  [(str "--served-model-name", sp_api_model_name s); (str "--host", str "0.0.0.0"); (str "--port", str "8000");
   (str "--max-model-len", dec (sp_context_length s)); (str "--gpu-memory-utilization", float_repr (sp_memory_fraction s));
   (str "--max-num-seqs", dec (sp_max_concurrency s))].

Definition VLLM_FLAGS : list pystr :=
  strs ["--served-model-name"; "--host"; "--port"; "--max-model-len"; "--gpu-memory-utilization"; "--max-num-seqs";
        "--trust-remote-code"]%string.

Lemma vllm_proper : forallb proper_flag VLLM_FLAGS = true.
Proof. vm_compute. reflexivity. Qed.

#[local] Hint Resolve vllm_proper : values.

Lemma aeon_foreign s b l : aeon_flags s b = Ok l -> foreign VLLM_FLAGS l = true.
Proof.
  unfold aeon_flags. intros (t & Ht & [= <-])%bind_result_inv.
  apply dumps_object in Ht. destruct b; segment.
Qed.

Lemma vllm_speculative_foreign s l : vllm_speculative_flags s = Ok l -> foreign VLLM_FLAGS l = true.
Proof.
  unfold vllm_speculative_flags. destruct (sp_speculative s) as [c|]; [|by intros [= <-]].
  intros (d & _ & Hm)%bind_result_inv. apply bind_result_inv in Hm as (t & Ht & [= <-]).
  apply foreign_literal; [vm_compute; reflexivity|]. apply foreign_value; [apply vllm_proper|by eapply dumps_object|done].
Qed.

Lemma vllm_shape (p s o a b d e g h i j k l m t z : list pystr) :
  (p ++ s ++ o) ++ a ++ b ++ d ++ e ++ g ++ h ++ i ++ j ++ k ++ l ++ m ++ t ++ z
  = p ++ s ++ (o ++ a ++ b ++ d ++ e ++ g ++ h ++ i ++ j ++ k ++ l ++ m) ++ t ++ z.
Proof. by rewrite <- !app_assoc. Qed.

Lemma vllm_command_shape s (f f' : F) c : valid_spec s -> vllm_command images roots s f = (Ok c, f') ->
  exists pre post1 post2, c = pre ++ flatten (vllm_settings s) ++ post1 ++ flag_if (sp_trust_remote_code s) [TRUST] ++ post2 /\
    foreign VLLM_FLAGS pre = true /\ foreign VLLM_FLAGS post1 = true /\ foreign VLLM_FLAGS post2 = true.
Proof.
  intros Hv Hm. unfold vllm_command in Hm. step Hm. step Hm. step Hm. step Hm.
  step_pure Hm. step_pure Hm. step Hm. destruct x5 as [template template_path]. step_pure Hm. step_pure Hm.
  apply ret_Ok_inv in Hm as [-> _].
  assert (Hroot : rooted x0).
  { unfold container_model_path in E0. step E0. by apply container_rooted in E0 as [? _]. }
  assert (Hmixed : exists pre, base_flags s x0 (image_in AEON_MIXED_SPARK_IMAGES s)
            = pre ++ flatten (vllm_settings s) ++ flag_opt (sp_max_batched_tokens s) (fun n => [str "--max-num-batched-tokens"; dec n])
            /\ foreign VLLM_FLAGS pre = true).
  { unfold base_flags. eexists. split; [reflexivity|].
    destruct (image_in AEON_MIXED_SPARK_IMAGES s); segment;
      (apply foreign_value; [apply vllm_proper|by apply rooted_ok|done]). }
  destruct Hmixed as (pre & -> & Hpre).
  eexists pre, _, x6. split; [apply vllm_shape|]. split; [done|]. split; [|by apply (vllm_speculative_foreign s)].
  assert (Haeon : foreign VLLM_FLAGS x4 = true).
  { destruct (image_in AEON_MIXED_SPARK_IMAGES s); [by eapply aeon_foreign|by injection E4 as <-]. }
  pose proof (template_foreign VLLM_FLAGS x0 template_path vllm_proper eq_refl Hroot) as Ht.
  pose proof (quantization_foreign VLLM_FLAGS s vllm_proper eq_refl Hv) as Hq.
  pose proof (kwargs_foreign VLLM_FLAGS s x5 vllm_proper eq_refl E6) as Hk.
  clear E4 E6 E7 Hpre. segment; (apply foreign_value; [apply vllm_proper| |done]).
  - destruct (x1 || _ || _); [match goal with E : Some _ = Some _ |- _ => injection E as <- end; reflexivity|].
    eapply parser_ok; [|eassumption]. reflexivity.
  - destruct (_ || _); [match goal with E : Some _ = Some _ |- _ => injection E as <- end; reflexivity|].
    destruct x1; [match goal with E : Some _ = Some _ |- _ => injection E as <- end; reflexivity|].
    eapply parser_ok; [|eassumption]. reflexivity.
Qed.
End VllmCommand.

(** C15.  The command of a vLLM container gives the served name, the address, the
    port, the context length, the share of the memory and the concurrency
    exactly once and as the specification has them, and asks for remote code
    only when the specification does; no other setting, nor the checkpoint,
    can add to them. *)
Theorem vllm_settings_exact {F} `{ModelFilesSpec F} `{UnicodeData} `{CaseFolding} `{Bundled} images roots s (f f' : F) c :
  valid_spec s -> vllm_command images roots s f = (Ok c, f') ->
  Forall (fun p => arguments (fst p) c = [snd p]) (vllm_settings s) /\
  (In TRUST c <-> sp_trust_remote_code s = true).
Proof.
  intros Hv Hm. destruct (vllm_command_shape _ _ _ _ _ _ Hv Hm) as (pre & post1 & post2 & -> & Hpre & H1' & H2').
  apply (settings_and_trust VLLM_FLAGS); try done; [|cbn [map snd forallb vllm_settings]].
  - apply distinct_NoDup. vm_compute. reflexivity.
  - rewrite (api_name_value s Hv), !dec_ok, float_ok. reflexivity.
Qed.

(** ** SGLang *)

Section SglangCommand.
Context {F : Type} `{ModelFilesSpec F} `{UnicodeData} `{CaseFolding} `{Bundled} (images : list pystr) (roots : list path).

Definition sglang_settings (s : DeploymentSpec) (model_path : pystr) : list (pystr * pystr) :=
  [(str "--model-path", model_path); (str "--served-model-name", sp_api_model_name s); (str "--host", str "0.0.0.0");
   (str "--port", str "8000"); (str "--context-length", dec (sp_context_length s));
   (str "--mem-fraction-static", float_repr (sp_memory_fraction s));
   (str "--max-running-requests", dec (sp_max_concurrency s))].

Definition SGLANG_FLAGS : list pystr :=
  strs ["--model-path"; "--served-model-name"; "--host"; "--port"; "--context-length"; "--mem-fraction-static";
        "--max-running-requests"; "--trust-remote-code"]%string.

Lemma sglang_proper : forallb proper_flag SGLANG_FLAGS = true.
Proof. vm_compute. reflexivity. Qed.

#[local] Hint Resolve sglang_proper : values.

Lemma first_dashes_ok s : value_ok (first_dashes s) = true.
Proof.
  destruct s as [|c r]; [done|]. cbn [first_dashes]. destruct (Z.eqb_spec c 45) as [->|Hc]; [|by apply head_ok].
  destruct r as [|d r]; [reflexivity|]. cbn [andb]. destruct (Z.eqb_spec d 45) as [->|Hd]; [by apply head_ok|].
  cbn [first_dashes]. rewrite (proj2 (Z.eqb_neq d 45) Hd). cbn [andb].
  unfold value_ok, dashes. change (startswith (str "--") (45 :: d :: first_dashes r)) with ((45 =? d) && true).
  rewrite (proj2 (Z.eqb_neq 45 d)) by congruence. apply orb_true_r.
Qed.

Lemma runtime_method_value s m : sp_speculative s <> None -> require_speculative_runtime_method s = Ok m -> value_ok m = true.
Proof.
  unfold require_speculative_runtime_method. destruct (sp_speculative s); [|done]. intros _.
  destruct (r ← sp_resolution s; speculative_runtime_method r) as [[|c r]|]; [done| |done].
  intros (u & Hg%guard_exn_Ok & [= <-])%bind_result_inv. cbn in Hg. apply andb_true_iff in Hg as [Hc _].
  apply head_ok. intros ->. done.
Qed.

Lemma draft_path_value s p : sp_speculative s <> None -> require_draft_container_path s = Ok p -> value_ok p = true.
Proof.
  unfold require_draft_container_path. destruct (sp_speculative s); [|done]. intros _.
  destruct (r ← sp_resolution s; draft_container_model_path r) as [d|]; [|done].
  intros (u & Hg%guard_exn_Ok & [= <-])%bind_result_inv. rewrite !andb_true_iff in Hg. destruct Hg as [[_ Ha] _].
  by apply rooted_ok, absolute_rooted.
Qed.

Lemma repo_value draft : value_ok draft = true ->
  value_ok (match nonempty (hf_repo_id_from_cache_path draft) with Some repo => repo | None => draft end) = true.
Proof.
  intros Hd. unfold nonempty, hf_repo_id_from_cache_path.
  assert (Hr : forall parts r, repo_of_parts parts = Some r -> value_ok r = true).
  { induction parts as [|part parts IH]; intros r; [done|]. cbn [repo_of_parts]. destruct (_ && _); [|apply IH].
    intros [= <-]. apply first_dashes_ok. }
  destruct (repo_of_parts _) as [[|c r]|] eqn:E; [done| |done]. by eapply Hr.
Qed.

Lemma draft_foreign s c m l : sp_speculative s = Some c -> value_ok m = true -> draft_flags s c m = Ok l ->
  foreign SGLANG_FLAGS l = true.
Proof.
  intros Hs Hm. assert (Hsome : sp_speculative s <> None) by (by rewrite Hs). unfold draft_flags.
  destruct (is_method dspark c); [|destruct (is_method mtp c && negb (is_some (draft_model_id c)))].
  - intros (d & Hd & [= <-])%bind_result_inv. apply draft_path_value, repo_value in Hd; [|done]. segment.
  - intros [= <-]. segment.
  - intros (d & Hd & [= <-])%bind_result_inv. apply draft_path_value in Hd; [|done]. segment.
Qed.

Lemma tuning_foreign c : foreign SGLANG_FLAGS (tuning_flags c) = true.
Proof. unfold tuning_flags. destruct (is_method dflash c); segment. Qed.

Lemma sglang_speculative_foreign s b model_path l : rooted model_path ->
  sglang_speculative_flags s b model_path = Ok l -> foreign SGLANG_FLAGS l = true.
Proof.
  intros Hr. unfold sglang_speculative_flags. destruct (sp_speculative s) as [c|] eqn:Es.
  - unfold sglang_speculative. intros Hm. binds Hm. injection Hm as <-.
    apply runtime_method_value in Hb; [|by rewrite Es]. apply draft_foreign in Hb0; [|done..].
    pose proof (tuning_foreign c) as Ht. segment.
  - intros [= <-]. assert (Hv : value_ok (model_path ++ str "/mtp") = true).
    { apply rooted_ok. destruct Hr as [r ->]. by exists (r ++ str "/mtp"). }
    unfold native_mtp_flags. segment.
Qed.

Lemma pool_foreign s a b : foreign SGLANG_FLAGS (pool_flags s a b) = true.
Proof. unfold pool_flags. destruct a; [unfold ssd_stream_flags|destruct (sp_max_total_tokens s)]; segment. Qed.

Lemma sglang_shape (p s o a b d e g h i j k l t z y x : list pystr) :
  (p ++ s ++ o) ++ a ++ b ++ d ++ e ++ g ++ h ++ i ++ j ++ k ++ l ++ t ++ z ++ y ++ x
  = p ++ s ++ (o ++ a ++ b ++ d ++ e ++ g ++ h ++ i ++ j ++ k ++ l) ++ t ++ (z ++ y ++ x).
Proof. by rewrite <- !app_assoc. Qed.

Lemma sglang_command_shape s (f f' : F) c : valid_spec s -> sglang_command images roots s f = (Ok c, f') ->
  exists model_path pre post1 post2,
    container_model_path (sglang_validate images roots) roots s f = (Ok model_path, f) /\ rooted model_path /\
    c = pre ++ flatten (sglang_settings s model_path) ++ post1 ++ flag_if (sp_trust_remote_code s) [TRUST] ++ post2 /\
    foreign SGLANG_FLAGS pre = true /\ foreign SGLANG_FLAGS post1 = true /\ foreign SGLANG_FLAGS post2 = true.
Proof.
  intros Hv Hm. unfold sglang_command in Hm. step Hm.
  assert (Hroot : rooted x /\ g = f).
  { unfold container_model_path in E. step E. destruct (sglang_validate_inv _ _ _ _ _ _ E0) as (-> & _).
    by apply container_rooted in E. }
  destruct Hroot as [Hroot ->]. step Hm. step Hm. step Hm. step Hm. step Hm. step Hm. destruct x5 as [template template_path].
  step_pure Hm. step_pure Hm. step Hm. apply ret_Ok_inv in Hm as [-> _].
  assert (Hbase : sglang_base_flags s x = strs ["python3"; "-m"; "sglang.launch_server"]%string ++ flatten (sglang_settings s x)
            ++ strs ["--weight-loader-prefetch-num-threads"; "20"; "--enable-cache-report"]%string) by reflexivity.
  exists x. eexists _, _, _. rewrite Hbase. split; [done|]. split; [done|]. split; [apply sglang_shape|].
  pose proof (template_foreign SGLANG_FLAGS x template_path eq_refl eq_refl Hroot) as Ht.
  pose proof (quantization_foreign SGLANG_FLAGS s eq_refl eq_refl Hv) as Hq.
  pose proof (kwargs_foreign SGLANG_FLAGS s x5 eq_refl eq_refl E6) as Hk.
  pose proof (pool_foreign s (is_some x2) x3) as Hp.
  pose proof (sglang_speculative_foreign _ _ _ _ Hroot E7) as Hsp.
  clear E6 E7 Hbase. split; [reflexivity|]. split; [|segment].
  assert (Hparser : forall t k p, forallb value_ok (map fst t) = true ->
    (if is_some x2 then Some (str "auto") else match_parser k t) = Some p -> value_ok p = true).
  { intros t k p Ht' Hp'. destruct (is_some x2); [injection Hp' as <-; reflexivity|by eapply parser_ok]. }
  segment; (apply foreign_value; [reflexivity|eapply Hparser; [|eassumption]; reflexivity|reflexivity]).
Qed.
End SglangCommand.

(** The command of an SGLang container gives the model path, the served name,
    the address, the port, the context length, the share of the memory and the
    concurrency exactly once and as the specification has them, and asks for
    remote code only when the specification does. *)
Theorem sglang_settings_exact {F} `{ModelFilesSpec F} `{UnicodeData} `{CaseFolding} `{Bundled} images roots s (f f' : F) c :
  valid_spec s -> sglang_command images roots s f = (Ok c, f') ->
  exists model_path, container_model_path (sglang_validate images roots) roots s f = (Ok model_path, f) /\
    Forall (fun p => arguments (fst p) c = [snd p]) (sglang_settings s model_path) /\
    (In TRUST c <-> sp_trust_remote_code s = true).
Proof.
  intros Hv Hm.
  destruct (sglang_command_shape _ _ _ _ _ _ Hv Hm) as (model_path & pre & post1 & post2 & Hc & Hr & -> & Hpre & H1' & H2').
  exists model_path. split; [done|]. apply (settings_and_trust SGLANG_FLAGS); try done.
  - apply distinct_NoDup. vm_compute. reflexivity.
  - cbn [map snd forallb sglang_settings]. rewrite (rooted_ok _ Hr), (api_name_value s Hv), !dec_ok, float_ok. reflexivity.
Qed.

(** ** llama.cpp *)

Section LlamaCommand.
Context {F : Type} `{ModelFilesSpec F} `{UnicodeData} `{CaseFolding} `{Bundled} (images : list pystr) (roots : list path).
Context (host : pystr) (manager : path).

Definition llama_settings1 (s : DeploymentSpec) (model : pystr) : list (pystr * pystr) :=
  [(str "--model", model); (str "--alias", sp_api_model_name s); (str "--host", str "0.0.0.0"); (str "--port", str "8000");
   (str "--ctx-size", dec (sp_context_length s * sp_max_concurrency s))].

Definition llama_settings2 (s : DeploymentSpec) : list (pystr * pystr) :=
  let c := config s in
  [(str "--gpu-layers", layers_text (gpu_layers c)); (str "--parallel", dec (sp_max_concurrency s));
   (str "--flash-attn", flash_attention c); (str "--cache-type-k", cache_type_k c); (str "--cache-type-v", cache_type_v c);
   (str "--batch-size", dec (batch_size c)); (str "--ubatch-size", dec (ubatch_size c));
   (str "--cache-ram", dec (cache_ram_mib c)); (str "--ctx-checkpoints", dec (context_checkpoints c))].

Definition LLAMA_FLAGS : list pystr :=
  strs ["--model"; "--alias"; "--host"; "--port"; "--ctx-size"; "--gpu-layers"; "--parallel"; "--flash-attn"; "--cache-type-k";
        "--cache-type-v"; "--batch-size"; "--ubatch-size"; "--cache-ram"; "--ctx-checkpoints"]%string.

Lemma llama_proper : forallb proper_flag LLAMA_FLAGS = true.
Proof. vm_compute. reflexivity. Qed.
#[local] Hint Resolve llama_proper : values.

Lemma config_ok s : valid_spec s -> llama_cpp_fields_ok (config s) = true.
Proof. intros Hv. pose proof (valid_llama s Hv) as Hl. unfold config. destruct (sp_llama_cpp s); [done|reflexivity]. Qed.

Lemma literal_ok v l : str_in v l = true -> forallb value_ok l = true -> value_ok v = true.
Proof. intros Hin%str_in_In Hl. rewrite forallb_forall in Hl. auto. Qed.

Lemma config_values s : valid_spec s ->
  value_ok (flash_attention (config s)) = true /\ value_ok (cache_type_k (config s)) = true /\
  value_ok (cache_type_v (config s)) = true.
Proof.
  intros Hv%config_ok. unfold llama_cpp_fields_ok in Hv. rewrite !andb_true_iff in Hv. destruct_and! Hv.
  split_and!; (eapply literal_ok; [eassumption|reflexivity]).
Qed.

Lemma layers_ok g : value_ok (layers_text g) = true.
Proof. destruct g; [reflexivity|apply dec_ok]. Qed.

Lemma generation_foreign g : foreign LLAMA_FLAGS (generation_flags g) = true.
Proof. unfold generation_flags. segment. Qed.

Lemma llama_kwargs_foreign s l b : default_chat_template_kwargs_flags s = Ok l -> foreign LLAMA_FLAGS (llama_kwargs l b) = true.
Proof.
  unfold default_chat_template_kwargs_flags. destruct (sp_chat_template_kwargs s) as [[|p d]|]; [by intros [= <-]| |by intros [= <-]].
  intros (t & Ht & [= <-])%bind_result_inv. apply dumps_object in Ht. unfold llama_kwargs. segment.
Qed.

Lemma llama_command_inv s (f f' : F) c : llama_command images roots host manager s f = (Ok c, f') ->
  exists container model projector kwargs template,
    container_model_path (llama_validate images roots host manager) roots s f = (Ok container, f) /\ rooted container /\
    default_chat_template_kwargs_flags s = Ok kwargs /\
    c = [] ++ flatten (llama_settings1 s (path_str (child (parse_path container) (path_name model))))
        ++ [str "--no-kv-unified"] ++ flatten (llama_settings2 s)
        ++ (flag_opt projector (fun p => [str "--mmproj"; path_str (child (parse_path container) (path_name p))])
            ++ [if jinja (config s) then str "--jinja" else str "--no-jinja"]
            ++ flag_opt template (fun t =>
                 [str "--chat-template-file"; container_chat_template_path (path_str (parse_path container)) t;
                  str "--reasoning-format"; str "deepseek"])
            ++ [if continuous_batching (config s) then str "--cont-batching" else str "--no-cont-batching"]
            ++ flag_if (mtp_enabled (config s)) (mtp_flags (config s))
            ++ llama_kwargs kwargs (jinja (config s))
            ++ generation_flags (sp_generation_defaults s)).
Proof.
  unfold llama_command. intros Hm. step Hm. destruct (llama_validate_inv _ _ _ _ _ _ _ _ E) as (-> & _).
  step Hm. pose proof (still_run _ _ _ _ (select_files_still _ _) E0) as ->. destruct x0 as [model projector].
  step Hm. assert (Hroot : rooted x0 /\ g = f).
  { unfold container_model_path in E1. step E1. destruct (llama_validate_inv _ _ _ _ _ _ _ _ E2) as (-> & _).
    by apply container_rooted in E1. }
  destruct Hroot as [Hroot ->]. step Hm. step_pure Hm. apply ret_Ok_inv in Hm as [-> _].
  exists x0, model, projector, x2, x1. split; [exact E1|]. split; [exact Hroot|]. split; [assumption|]. reflexivity.
Qed.
End LlamaCommand.

(** C14.  The command of a llama-server container gives the model, its alias, the
    address, the port, the sizes and the cache types exactly once.  The pool of
    the context holds the context length of the specification for each of the
    parallel slots among which llama-server divides it, and stays within
    2^30 tokens. *)
Theorem llama_settings_exact {F} `{ModelFilesSpec F} `{UnicodeData} `{CaseFolding} `{Bundled} images roots host manager s
    (f f' : F) c :
  valid_spec s -> llama_command images roots host manager s f = (Ok c, f') ->
  exists model, Forall (fun p => arguments (fst p) c = [snd p]) (llama_settings1 s model ++ llama_settings2 s) /\
    exists pool, arguments (str "--ctx-size") c = [dec pool] /\
      arguments (str "--parallel") c = [dec (sp_max_concurrency s)] /\
      pool / sp_max_concurrency s = sp_context_length s /\ pool mod sp_max_concurrency s = 0 /\ 0 < pool <= 2 ^ 30.
Proof.
  intros Hv Hm.
  destruct (llama_command_inv _ _ _ _ _ _ _ _ Hm) as (container & model & projector & kwargs & template & _ & Hr & Hk & Hc).
  set (m := path_str (child (parse_path container) (path_name model))). exists m.
  assert (Hcontainer : is_absolute (parse_path container) = true) by by apply parse_rooted.
  assert (Hchild : forall name, value_ok (path_str (child (parse_path container) name)) = true).
  { intros name. apply rooted_ok, child_rooted; [done|apply parse_path_ok]. }
  assert (Htemplate : forall t, value_ok (container_chat_template_path (path_str (parse_path container)) t) = true).
  { intros t. unfold container_chat_template_path. rewrite parse_path_str by apply parse_path_ok. apply Hchild. }
  destruct (config_values s Hv) as (Hflash & Hck & Hcv).
  assert (Hexact : Forall (fun p => arguments (fst p) c = [snd p]) (llama_settings1 s m ++ llama_settings2 s)).
  { rewrite Hc. apply settings_exact.
    - apply distinct_NoDup. vm_compute. reflexivity.
    - apply foreign_values; [reflexivity|].
      cbn [map snd fst forallb llama_settings1 llama_settings2 app].
      rewrite (Hchild (path_name model) : value_ok m = true), (api_name_value s Hv), !dec_ok, layers_ok, Hflash, Hck, Hcv. reflexivity.
    - change (map fst (llama_settings1 s m ++ llama_settings2 s)) with LLAMA_FLAGS. cbn [app].
      pose proof (generation_foreign (sp_generation_defaults s)) as Hgen.
      pose proof (llama_kwargs_foreign s kwargs (jinja (config s)) Hk) as Hkw. clear Hk Hr.
      destruct (jinja (config s)), (continuous_batching (config s)); unfold mtp_flags; segment. }
  split; [exact Hexact|]. exists (sp_context_length s * sp_max_concurrency s).
  assert (Hlookup : forall k v, In (k, v) (llama_settings1 s m ++ llama_settings2 s) -> arguments k c = [v]).
  { intros k v Hin. rewrite List.Forall_forall in Hexact. exact (Hexact (k, v) Hin). }
  split; [apply Hlookup; do 4 right; by left|]. split; [apply Hlookup; do 6 right; by left|].
  pose proof (valid_fields s Hv) as Hf. unfold spec_fields_ok in Hf. rewrite !andb_true_iff in Hf. destruct_and! Hf.
  unfold int_in in *. rewrite !andb_true_iff, !Z.leb_le in *.
  split; [by apply Z.div_mul; lia|]. split; [by apply Z.mod_mul; lia|]. nia.
Qed.

(** ** On a model directory *)

Lemma demo_spec_valid : valid_spec demo_spec.
Proof. by destruct (built_spec_valid demo_spec demo_spec ltac:(vm_compute; reflexivity)). Qed.

Notation demo_vllm := (vllm_command [str "vllm/image:1"] demo_roots demo_spec demo_disk).

Lemma vllm_settings_exact_witness : exists c f',
  demo_vllm = (Ok c, f') /\ arguments (str "--max-model-len") c = [str "32768"] /\ ~ In TRUST c /\
  take 2 c = [str "--model"; str "/models/qwen"].
Proof.
  assert (Hhead : exists c, fst demo_vllm = Ok c /\ take 2 c = [str "--model"; str "/models/qwen"])
    by (eexists; split; vm_compute; reflexivity).
  destruct demo_vllm as [r f'] eqn:E. destruct Hhead as (c & Hc & Hhead). cbn [fst] in Hc. rewrite Hc in E.
  destruct (vllm_settings_exact _ _ _ _ _ _ demo_spec_valid E) as [Hs Ht]. exists c, f'. rewrite Hc.
  split; [exact eq_refl|]. rewrite List.Forall_forall in Hs.
  split; [exact (Hs (str "--max-model-len", str "32768") ltac:(do 3 right; left; vm_compute; reflexivity))|].
  split; [intros Hin; apply Ht in Hin; discriminate Hin|exact Hhead].
Defined.

Definition sglang_spec_demo : DeploymentSpec :=
  mkSpec (str "Qwen chat") None (str "/srv/models/qwen") (str "qwen") None (str "sglang") (str "sglang/image:1") None
    8192 (Some 4096) (num_text "0.7") 4 None false (Some (str "fp8")) true no_defaults None None None None None false None.

Lemma sglang_spec_valid : valid_spec sglang_spec_demo.
Proof. by destruct (built_spec_valid sglang_spec_demo sglang_spec_demo ltac:(vm_compute; reflexivity)). Qed.

Notation demo_sglang := (sglang_command [str "sglang/image:1"] demo_roots sglang_spec_demo demo_disk).

Lemma sglang_settings_exact_witness : exists c f',
  demo_sglang = (Ok c, f') /\ arguments (str "--context-length") c = [str "8192"] /\ In TRUST c.
Proof.
  assert (Hok : exists c, fst demo_sglang = Ok c) by (eexists; vm_compute; reflexivity).
  destruct demo_sglang as [r f'] eqn:E. destruct Hok as (c & Hc). cbn [fst] in Hc. rewrite Hc in E.
  destruct (sglang_settings_exact _ _ _ _ _ _ sglang_spec_valid E) as (m & _ & Hs & Ht). exists c, f'. rewrite Hc.
  split; [exact eq_refl|]. rewrite List.Forall_forall in Hs.
  split; [exact (Hs (str "--context-length", str "8192") ltac:(do 4 right; left; vm_compute; reflexivity))|].
  apply Ht. exact eq_refl.
Defined.

Definition llama_spec_demo : DeploymentSpec :=
  mkSpec (str "Gemma") None (str "/srv/models/gemma") (str "gemma") None (str "llama_cpp") (str "llama/image:1") None
    4096 None (num_text "0.5") 8 None false None false no_defaults None None None None None false None.

Definition llama_disk : disk :=
  [(at_ "/srv/models/gemma/gemma.gguf", [1; 2; 3]); (at_ "/opt/llama/llama-server", [127]);
   (at_ "/opt/llama/lib/libllama.so", [127])] ++ demo_disk.

Lemma llama_spec_valid : valid_spec llama_spec_demo.
Proof. by destruct (built_spec_valid llama_spec_demo llama_spec_demo ltac:(vm_compute; reflexivity)). Qed.

Notation demo_llama :=
  (llama_command [str "llama/image:1"] demo_roots (str "/opt/host/llama") (at_ "/opt/llama") llama_spec_demo llama_disk).

Lemma llama_settings_exact_witness : exists c f' pool,
  demo_llama = (Ok c, f') /\ arguments (str "--ctx-size") c = [dec pool] /\ pool / 8 = 4096 /\ take 1 c = [str "--model"].
Proof.
  assert (Hok : exists c, fst demo_llama = Ok c /\ take 1 c = [str "--model"]) by (eexists; split; vm_compute; reflexivity).
  destruct demo_llama as [r f'] eqn:E. destruct Hok as (c & Hc & Hhead). cbn [fst] in Hc. rewrite Hc in E.
  destruct (llama_settings_exact _ _ _ _ _ _ _ _ llama_spec_valid E) as (m & _ & pool & Hp & _ & Hd & _).
  exists c, f', pool. rewrite Hc. exact (conj eq_refl (conj Hp (conj Hd Hhead))).
Defined.
