(* ===== verification/DeployHost.v ===== *)
(** * The host of the deployments

    What [DeploymentService] of backend/app/services/deployments.py works on:
    the rows of the tables [deployments] and [model_assets] (models.py), the
    containers of Docker, the task it runs in and the clock.  The environment
    (class [Host]) answers for all of them; other sessions may commit whatever
    they like whenever this program opens a session.

    A container object of the Docker client holds what the server said when it
    was loaded: [reload] gives a new one, every other method leaves the object
    as it is.  The file also has the helpers that all handlers use: statuses and
    identities of containers, the logs of a start ([redact_log] of
    services/diagnostics.py) and the wait for a healthy runtime. *)
From Stdlib Require Import ZArith Lia Bool String SpecFloat.
From stdpp Require Import prelude gmap.
From S2P Require Import Prelude PyValue PyFloat Utf8 PyTime Redaction Secrets Traced PyText Resources RuntimeSpec RuntimeBase.
Import Traced.
Open Scope Z_scope.

(** Both are state monads: the instance of one is not to be found for the other. *)
#[export] Typeclasses Opaque files tprogram.

(** ** Rows *)

(** The columns [benchmark_*] of [Deployment] *)
Record Benchmark := mkBenchmark {
  bm_status : option pystr;
  bm_tps : option spec_float;
  bm_completion_tokens : option Z;
  bm_duration_seconds : option spec_float;
  bm_tested_at : option datetime;
  bm_error : option pystr;
}.

Record Deployment := mkDeployment {
  dp_name : pystr;
  dp_model_id : option pystr;
  dp_runtime : pystr;
  dp_container_id : option pystr;
  dp_container_name : option pystr;
  dp_endpoint_url : pystr;
  dp_api_model_name : pystr;
  dp_status : pystr;
  dp_health : pystr;
  dp_managed : bool;
  dp_image : option pystr;
  dp_port : option Z;
  dp_benchmark : Benchmark;
  dp_config : pyval;
  dp_capabilities : list pystr;
  dp_updated_at : datetime;
}.

(** [ModelAsset]: the columns that this service reads or writes *)
Record ModelAsset := mkAsset {
  ma_name : pystr;
  ma_repository_id : option pystr;
  ma_local_path : pystr;
  ma_status : pystr;
  ma_size_bytes : Z;
  ma_capabilities : list pystr;
  ma_benchmark_tps : option spec_float;
  ma_benchmark_tested_at : option datetime;
}.

Record database := mkDatabase {
  deployments : gmap pystr Deployment;
  assets : gmap pystr ModelAsset;
}.

Definition put_deployment (id : pystr) (row : option Deployment) (d : database) : database :=
  mkDatabase (match row with Some r => <[id := r]> (deployments d) | None => delete id (deployments d) end) (assets d).
Definition put_asset (id : pystr) (a : ModelAsset) (d : database) : database :=
  mkDatabase (deployments d) (<[id := a]> (assets d)).

Definition with_status (status health : pystr) (r : Deployment) : Deployment :=
  mkDeployment (dp_name r) (dp_model_id r) (dp_runtime r) (dp_container_id r) (dp_container_name r) (dp_endpoint_url r)
    (dp_api_model_name r) status health (dp_managed r) (dp_image r) (dp_port r) (dp_benchmark r) (dp_config r)
    (dp_capabilities r) (dp_updated_at r).
Definition with_benchmark (b : Benchmark) (r : Deployment) : Deployment :=
  mkDeployment (dp_name r) (dp_model_id r) (dp_runtime r) (dp_container_id r) (dp_container_name r) (dp_endpoint_url r)
    (dp_api_model_name r) (dp_status r) (dp_health r) (dp_managed r) (dp_image r) (dp_port r) b (dp_config r)
    (dp_capabilities r) (dp_updated_at r).
(** [onupdate=utc_now] *)
Definition touched (now : datetime) (r : Deployment) : Deployment :=
  mkDeployment (dp_name r) (dp_model_id r) (dp_runtime r) (dp_container_id r) (dp_container_name r) (dp_endpoint_url r)
    (dp_api_model_name r) (dp_status r) (dp_health r) (dp_managed r) (dp_image r) (dp_port r) (dp_benchmark r)
    (dp_config r) (dp_capabilities r) now.

(** ** Containers *)

Record Container := mkContainer {
  ct_id : pystr;
  ct_name : pystr;
  ct_status : pystr;
  ct_attrs : pydict;
}.

(** [docker.errors.NotFound] *)
Definition NotFound : exn := OtherException (str "docker.errors.NotFound").
Definition is_NotFound (e : exn) : bool :=
  match e with OtherException m => str_eqb m (str "docker.errors.NotFound") | _ => false end.

Inductive container_call :=
  | CStart
  | CStop (timeout : Z)
  | CRestart (timeout : Z)
  | CRename (name : pystr)
  | CRemove (force : bool).

(** The arguments of [containers.run]: the image, the name, where the mounts
    are bound ([bind], [mode]), the labels, and the other keywords *)
Record RunOptions := mkRunOptions {
  ru_image : pyval;
  ru_name : pystr;
  ru_volumes : list (pystr * (pystr * pystr));
  ru_labels : list (pystr * pystr);
  ru_options : pydict;
}.

(** What the program does, in order *)
Inductive event :=
  | ECall (id : pystr) (call : container_call) (answer : result unit)
  | ERun (options : RunOptions) (answer : result Container)
  | EReload (before : Container) (answer : result Container)
  | EGet (identifier : pystr) (answer : result Container)
  | EInspect (hostname : pystr) (container : Container)
  | EWrite (id : pystr) (before after : option Deployment)
  | EAsset (id : pystr) (after : ModelAsset)
  | EReport (message : option pystr).

(** ** The environment *)

Class Host (E : Type) := {
  (** opening a session: the tables as other sessions have left them *)
  ho_session : database -> E -> result database * E;
  (** whether a commit succeeds: constraints of the tables may fail it *)
  ho_commit : E -> result unit * E;
  ho_now : E -> datetime * E;
  ho_new_id : E -> pystr * E;
  (** [os.environ.get("HOSTNAME", "")] *)
  ho_hostname : E -> pystr * E;
  (** [context.check_control()] and [context.update(progress=..., message=...)] *)
  ho_check : E -> result unit * E;
  ho_update : option num -> option pystr -> E -> result unit * E;
  (** [httpx.get(endpoint + "/v1/models", timeout=3).is_success] *)
  ho_probe : pystr -> E -> result bool * E;
  ho_sleep : E -> E;
  (** [docker.from_env()] *)
  dk_client : E -> result unit * E;
  dk_get : pystr -> E -> result Container * E;
  dk_list : E -> result (list Container) * E;
  dk_reload : Container -> E -> result Container * E;
  dk_call : Container -> container_call -> E -> result unit * E;
  dk_run : RunOptions -> E -> result Container * E;
  dk_logs : Container -> Z -> E -> result bytes * E;
}.

(** An object that is loaded again is of the same container. *)
Class HostSpec (E : Type) `{Host E} : Prop := {
  reload_same : forall c e c' e', dk_reload c e = (Ok c', e') -> ct_id c' = ct_id c;
}.

(** [httpx.HTTPError] *)
Definition is_HTTPError (e : exn) : bool :=
  match e with OtherException m => str_eqb m (str "httpx.HTTPError") | _ => false end.
Definition anything (e : exn) : bool := true.

Definition PROTECTED_CONTAINER_NAMES : list pystr := [str "dgx-spark-web-manager"; str "dgx-spark-ops-agent"].
Definition concurrent_change : exn := ValueError (str "Deployment container identity changed concurrently").
Definition missing_snapshot : exn :=
  ValueError (str "Deployment action is missing its container snapshot; retry the action").
Definition no_deployment : exn := ValueError (str "Deployment or container was not found").

(** ** [redact_log] *)

(** A group that is kept, before a value of at least one character of [p] *)
Definition keep_group (group : matcher) (p : Z -> bool) (previous : option Z) (s : pystr) : option (pystr * pystr) :=
  match List.filter (fun rest => match rest with c :: _ => p c | [] => false end) (group s) with
  | rest :: _ => Some (take (length s - length rest) s ++ REDACTED, snd (PyFloat.span p rest))
  | [] => None
  end.

Definition BEARER_LOG : option Z -> pystr -> option (pystr * pystr) :=
  keep_group (m_seqs [m_lit "authorization:"; m_star is_space; m_lit "bearer"; m_plus is_space]) nonspace.
Definition API_KEY_LOG : option Z -> pystr -> option (pystr * pystr) :=
  keep_group (m_seqs [m_lit "api"; m_opt (m_char (fun c => (c =? 95) || (c =? 45))); m_lit "key";
                      m_char (fun c => (c =? 61) || (c =? 58)); m_star is_space])
    (fun c => nonspace c && negb (c =? 44)).
Definition HF_TOKEN_LOG (previous : option Z) (s : pystr) : option (pystr * pystr) :=
  match m_lit "hf_" s with
  | rest :: _ =>
      let '(token, after) := PyFloat.span ci_alnum rest in
      if 10 <=? zlen token then Some (str "[REDACTED_HF_TOKEN]", after) else None
  | [] => None
  end.

(** [s[-n:]] *)
Definition last_chars (n : Z) (s : pystr) : pystr := drop (Z.to_nat (zlen s - n)) s.

Definition redact_log (value : pystr) : pystr :=
  last_chars 30000 (pattern_sub HF_TOKEN_LOG (pattern_sub API_KEY_LOG (pattern_sub BEARER_LOG value))).

(** ** Identities and statuses of containers *)

Section Identity.
Context `{UnicodeData}.

(** [str(value or "").lstrip("/")] *)
Definition normalized_container_name (value : pystr) : pystr := lstrip_with (Z.eqb 47) value.

Definition hex_char (c : Z) : bool := is_digit c || ((97 <=? c) && (c <=? 102)).

(** [_container_ids_equivalent]; an id is the text that the row, Docker or the
    environment has, or nothing *)
Definition container_ids_equivalent (recorded_id actual_id : pystr) : bool :=
  let recorded := lower (strip recorded_id) in
  let actual := lower (strip actual_id) in
  if str_eqb recorded [] || str_eqb actual [] then false
  else if str_eqb recorded actual then true
  else
    let '(shorter, longer) := if zlen actual <? zlen recorded then (actual, recorded) else (recorded, actual) in
    (12 <=? zlen shorter) && forallb hex_char shorter && forallb hex_char longer && startswith shorter longer.

(** [_stable_container_status] *)
Definition stable_container_status (status : option pystr) (fallback : pystr) : pystr :=
  let normalized := lower (default [] status) in
  if str_eqb normalized (str "running") then str "running"
  else if str_in normalized [str "dead"; str "exited"; str "stopped"] then str "exited"
  else if negb (str_eqb normalized []) then str "unknown"
  else if str_in fallback [str "running"; str "exited"] then fallback
  else str "unknown".
End Identity.

(** [_backup_container_name] *)
Definition backup_container_name (deployment_id : pystr) : pystr := take 63 (str "dgx-backup-" ++ deployment_id).

(** ** Programs *)

(** [attempts = max(1, math.ceil(timeout / 2))] *)
Definition health_attempts (startup_timeout_seconds : Z) : nat := Z.to_nat (Z.max 1 ((startup_timeout_seconds + 1) / 2)).

(** [min(start + (attempt + 1) / attempts * (end - start), end)] *)
Definition health_progress (attempt attempts : nat) (progress_start progress_end : Z) : num :=
  let fraction := SFdiv float_prec float_emax (float_of_Z (Z.of_nat attempt + 1)) (float_of_Z (Z.of_nat attempts)) in
  let span := SFmul float_prec float_emax fraction (float_of_Z (progress_end - progress_start)) in
  num_min (NFloat (SFadd float_prec float_emax (float_of_Z progress_start) span)) (NInt progress_end).

Section Programs.
Context {E : Type} `{Host E} `{UnicodeData} `{ErrorText}.
Notation prog := (tprogram database event E).

Definition set_database (d : database) : prog unit := update (fun _ => d).

(** [with self.session_factory() as db:], up to its first query *)
Definition session : prog database := d ← get_state; d ← ask_result (ho_session d); set_database d;; mret d.

Definition commit (change : database -> database) (e : event) : prog unit :=
  ask_result ho_commit;; update change;; log e.

(** [update(Deployment)] or [delete(Deployment)] of the row with an id, when the
    row is as [matches] says: [values] of the row, or nothing.  The statement
    sees the committed rows and is one transaction with its commit. *)
Definition write_where (id : pystr) (matches : Deployment -> bool) (values : Deployment -> option Deployment) : prog bool :=
  d ← session;
  match deployments d !! id with
  | Some row =>
      if matches row then
        now ← ask ho_now;
        let row' := touched now <$> values row in
        commit (put_deployment id row') (EWrite id (Some row) row');; mret true
      else mret false
  | None => mret false
  end.

(** *** The task *)

Definition check_control : prog unit := ask_result ho_check.
Definition report (progress : option num) (message : option pystr) : prog unit :=
  log (EReport message);; ask_result (ho_update progress message).

(** *** Containers *)

Definition docker_client : prog unit := ask_result dk_client.

Definition get_container (identifier : pystr) : prog Container :=
  fun w => let '(r, e) := dk_get identifier (env w) in (r, mkWorld (state w) e (trace w ++ [EGet identifier r])).

(** [_get_container_optional] *)
Definition get_container_optional (identifier : pystr) : prog (option Container) :=
  catch (c ← get_container identifier; mret (Some c)) is_NotFound (fun _ => mret None).

Definition reload (c : Container) : prog Container :=
  fun w => let '(r, e) := dk_reload c (env w) in (r, mkWorld (state w) e (trace w ++ [EReload c r])).

Definition call (c : Container) (k : container_call) : prog unit :=
  fun w => let '(r, e) := dk_call c k (env w) in (r, mkWorld (state w) e (trace w ++ [ECall (ct_id c) k r])).

Definition run (o : RunOptions) : prog Container :=
  fun w => let '(r, e) := dk_run o (env w) in (r, mkWorld (state w) e (trace w ++ [ERun o r])).

(** [RuntimeAdapter.start], [stop], [restart] and [uninstall] *)
Definition adapter_start (c : Container) : prog unit := call c CStart.
Definition adapter_stop (c : Container) : prog unit := call c (CStop 30).
Definition adapter_restart (c : Container) : prog unit := call c (CRestart 30).
Definition adapter_uninstall (c : Container) : prog unit :=
  (if str_eqb (ct_status c) (str "running") then adapter_stop c else mret tt : prog unit);;
  call c (CRemove false).

(** [RuntimeAdapter.logs] *)
Definition adapter_logs (c : Container) (tail : Z) : prog pystr :=
  value ← ask_result (dk_logs c (Z.min (Z.max tail 1) 5000));
  mret (last_chars 500000 (utf8_decode_replace value)).

(** [RuntimeAdapter.health_check] *)
Definition health_check (endpoint : pystr) : prog bool :=
  catch (ask_result (ho_probe endpoint)) is_HTTPError (fun _ => mret false).

(** [_startup_logs] *)
Definition startup_logs (c : Container) : prog pystr :=
  catch (text ← adapter_logs c 200; mret (last_chars 4000 (redact_log text))) anything
    (fun e => mret (str "Container logs unavailable: " ++ error_text e)).

(** [_remove_owned_container] *)
Definition remove_owned_container (c : Container) : prog unit :=
  catch (call c (CRemove true)) anything (fun _ => mret tt).

(** [wait_for_health]: the attempts that are left *)
Fixpoint health_loop (left attempts : nat) (endpoint : pystr) (progress_start progress_end : Z) : prog bool :=
  match left with
  | O => mret false
  | S k =>
      check_control;;
      healthy ← health_check endpoint;
      if healthy : bool then mret true
      else
        report (Some (health_progress (attempts - left) attempts progress_start progress_end)) None;;
        ask (fun e => (tt, ho_sleep e));;
        health_loop k attempts endpoint progress_start progress_end
  end.

Definition wait_for_health (startup_timeout_seconds : Z) (endpoint : pystr) (progress_start progress_end : Z) : prog bool :=
  let attempts := health_attempts startup_timeout_seconds in
  health_loop attempts attempts endpoint progress_start progress_end.
End Programs.
