(* ===== verification/DeployContract.v ===== *)
(** * Launch contracts

    A deployment that was taken over from outside the manager carries the
    contract its container was launched with.  This file models the checks of
    [_launch_contract_snapshot], the comparison of a container with its contract
    ([_container_matches_launch_contract]) and the arguments that
    [_run_launch_contract_container] starts a new one with
    (backend/app/services/deployments.py). *)
From Stdlib Require Import ZArith Lia Bool String SpecFloat.
From stdpp Require Import prelude.
From S2P Require Import Prelude PyValue PosixPath PyFloat Json PyText RuntimeBase RuntimeVllm DeployHost.
Open Scope Z_scope.

Definition attribute_error : exn := OtherException (str "AttributeError").

(** ** [==] of values: numbers by value, dictionaries without their order *)

Fixpoint py_eqb (a b : pyval) {struct a} : bool :=
  match a, b with
  | PNone, PNone => true
  | PStr s, PStr t => str_eqb s t
  | PList l, PList k =>
      (fix elements (l k : list pyval) {struct l} : bool :=
         match l, k with
         | [], [] => true
         | x :: l, y :: k => py_eqb x y && elements l k
         | _, _ => false
         end) l k
  | PDict d, PDict e =>
      (length d =? length e)%nat
      && (fix items (d : pydict) {struct d} : bool :=
            match d with
            | [] => true
            | (key, x) :: d => match dict_get key e with Some y => py_eqb x y | None => false end && items d
            end) d
  | _, _ => match as_num a, as_num b with Some x, Some y => num_eqb x y | _, _ => false end
  end.

(** [v.get(key)] and [v.get(key, default)] *)
Definition py_get (key : string) (v : pyval) : result pyval :=
  match v with PDict d => Ok (get key d) | _ => Raise attribute_error end.
Definition py_get_default (key : string) (default : pyval) (v : pyval) : result pyval :=
  match v with
  | PDict d => Ok (match dict_get (str key) d with Some x => x | None => default end)
  | _ => Raise attribute_error
  end.

(** [d[key]] *)
Definition item (key : string) (d : pydict) : result pyval := of_option (dict_get (str key) d) (KeyError (str key)).

(** [v.items()] *)
Definition py_items (v : pyval) : result pydict := match v with PDict d => Ok d | _ => Raise attribute_error end.

(** [for x in v or []] *)
Definition each (v : pyval) : result (list pyval) := if truthy v then py_iter v else Ok [].

(** [sorted(l)] by an order *)
Fixpoint insert_by {A} (leb : A -> A -> bool) (x : A) (l : list A) : list A :=
  match l with
  | [] => [x]
  | y :: r => if leb y x then y :: insert_by leb x r else x :: l
  end.
Definition sorted_by {A} (leb : A -> A -> bool) (l : list A) : list A := foldl (fun acc x => insert_by leb x acc) [] l.

(** ** The checks of a contract *)

Definition CONTRACT_FIELDS : list string :=
  ["command"; "device_requests"; "entrypoint"; "environment"; "image"; "ipc_mode"; "mounts"; "network_mode"; "port";
   "restart_policy"]%string.

(** [_launch_contract_snapshot] *)
Definition launch_contract_snapshot (contract : pydict) : result pydict :=
  let missing := List.filter (fun key => negb (dict_mem key contract)) (map str CONTRACT_FIELDS) in
  _ ← guard_exn (match missing with [] => true | _ => false end)
        (ValueError (str "launch_contract is missing fields: " ++ join (str ", ") missing));
  port ← item "port" contract;
  _ ← guard_exn (match port with
                 | PDict p => keys_superset p [str "container_port"; str "host_port"; str "protocol"]
                 | _ => false
                 end) (ValueError (str "launch_contract.port is invalid"));
  let decoded :=
    text ← dumps (default_style true) (PDict contract);
    of_option (loads default_hooks text) JSONDecodeError in
  snapshot ← except decoded (fun e =>
    if is_ValueError e || match e with TypeError _ => true | _ => false end
    then Some (Raise (ValueError (str "launch_contract must contain JSON-compatible values"))) else None);
  match snapshot with
  | PDict d => Ok d
  | _ => Raise (ValueError (str "launch_contract must be an object"))
  end.

(** ** A container and its contract *)

Section Match.
Context `{UnicodeData}.

Definition text_or (v : pyval) (default : string) : pystr := py_str (py_or v (PStr (str default))).

(** [str(item).partition("=")] *)
Fixpoint partition_equals (s : pystr) : pystr * pystr :=
  match s with
  | [] => ([], [])
  | 61 :: r => ([], r)
  | c :: r => let '(k, v) := partition_equals r in (c :: k, v)
  end.

Definition environment_of (items : list pyval) : pydict :=
  foldl (fun d v => let '(k, x) := partition_equals (py_str v) in dict_set k (PStr x) d) [] items.

Definition texts_of (d : pydict) : pydict := map (fun p => (fst p, PStr (py_str (snd p)))) d.

Definition mount := (pystr * pystr * pystr * bool)%type.
Definition str_ltb (a b : pystr) : bool := str_leb a b && negb (str_eqb a b).
Definition mount_leb (a b : mount) : bool :=
  let '(t, s, d, r) := a in let '(t', s', d', r') := b in
  if negb (str_eqb t t') then str_ltb t t'
  else if negb (str_eqb s s') then str_ltb s s'
  else if negb (str_eqb d d') then str_ltb d d'
  else implb r r'.
Definition mount_eqb (a b : mount) : bool :=
  let '(t, s, d, r) := a in let '(t', s', d', r') := b in
  str_eqb t t' && str_eqb s s' && str_eqb d d' && eqb r r'.

Definition actual_mount (v : pyval) : result mount :=
  t ← py_get "Type" v; s ← py_get "Source" v; d ← py_get "Destination" v; rw ← py_get_default "RW" (PBool false) v;
  Ok (text_or t "", text_or s "", text_or d "", negb (truthy rw)).
Definition expected_mount (v : pyval) : result mount :=
  t ← py_get "type" v; s ← py_get "source" v; d ← py_get "target" v; ro ← py_get_default "read_only" (PBool false) v;
  Ok (text_or t "bind", text_or s "", text_or d "", truthy ro).

Definition list_eqb {A} (eqb : A -> A -> bool) (l k : list A) : bool :=
  (length l =? length k)%nat && forallb (fun p => eqb (fst p) (snd p)) (combine l k).

Definition binding := (pystr * pystr)%type.
Definition binding_leb (a b : binding) : bool :=
  if negb (str_eqb (fst a) (fst b)) then str_ltb (fst a) (fst b) else str_leb (snd a) (snd b).
Definition binding_eqb (a b : binding) : bool := str_eqb (fst a) (fst b) && str_eqb (snd a) (snd b).
Definition actual_binding (v : pyval) : result binding :=
  ip ← py_get "HostIp" v; port ← py_get "HostPort" v; Ok (text_or ip "", text_or port "").

(** [f"{int(port['container_port'])}/{port['protocol']}"] *)
Definition binding_key (port : pydict) : result pystr :=
  container_port ← item "container_port" port; n ← py_int container_port;
  protocol ← item "protocol" port;
  Ok (dec n ++ str "/" ++ py_str protocol).

(** [normalize_device_requests] *)
Definition normalize_device_request (v : pyval) : result pyval :=
  driver ← py_get "Driver" v; count ← py_get_default "Count" (PInt 0) v; n ← py_int count;
  ids ← py_get "DeviceIDs" v; capabilities ← py_get "Capabilities" v; options ← py_get "Options" v;
  Ok (PDict [(str "Driver", py_or driver (PStr [])); (str "Count", PInt n); (str "DeviceIDs", py_or ids (PList []));
             (str "Capabilities", py_or capabilities (PList [])); (str "Options", py_or options (PDict []))]).
Definition normalize_device_requests (v : pyval) : result pyval :=
  items ← each v; l ← mapM_result normalize_device_request items; Ok (PList l).

(** [all(actual.get(key) == value for key, value in expected.items())] *)
Definition includes (actual expected : pydict) : bool :=
  forallb (fun p => match dict_get (fst p) actual with Some v => py_eqb v (snd p) | None => is_none (snd p) end) expected.

(** [_container_matches_launch_contract] *)
Definition container_matches_launch_contract (attrs contract : pydict) : result bool :=
  let config := py_or (get "Config" attrs) (PDict []) in
  let host := py_or (get "HostConfig" attrs) (PDict []) in
  env_items ← py_get "Env" config; env_items ← each env_items;
  actual_mounts ← each (get "Mounts" attrs); actual_mounts ← mapM_result actual_mount actual_mounts;
  mounts ← item "mounts" contract; mounts ← py_iter mounts; expected_mounts ← mapM_result expected_mount mounts;
  port ← item "port" contract; port ← py_items port;
  key ← binding_key port;
  bindings ← py_get "PortBindings" host;
  bindings ← match py_or bindings (PDict []) with
             | PDict d => each (get_or_none key d)
             | _ => Raise attribute_error
             end;
  actual_bindings ← mapM_result actual_binding bindings;
  host_port ← item "host_port" port; host_port ← py_int host_port;
  environment ← item "environment" contract; environment ← py_items environment;
  labels ← py_items (match dict_get (str "labels") contract with Some v => v | None => PDict [] end);
  actual_labels ← py_get "Labels" config; actual_labels ← py_items (py_or actual_labels (PDict []));
  image ← py_get "Image" config; expected_image ← item "image" contract;
  entrypoint ← py_get "Entrypoint" config; expected_entrypoint ← item "entrypoint" contract;
  command ← py_get "Cmd" config; expected_command ← item "command" contract;
  network ← py_get "NetworkMode" host; expected_network ← item "network_mode" contract;
  ipc ← py_get "IpcMode" host; expected_ipc ← item "ipc_mode" contract;
  policy ← py_get "RestartPolicy" host; expected_policy ← item "restart_policy" contract;
  devices ← py_get "DeviceRequests" host; devices ← normalize_device_requests devices;
  expected_devices ← item "device_requests" contract; expected_devices ← normalize_device_requests expected_devices;
  Ok (py_eqb image expected_image
      && py_eqb (py_or entrypoint (PList [])) (py_or expected_entrypoint (PList []))
      && py_eqb (py_or command (PList [])) (py_or expected_command (PList []))
      && includes (environment_of env_items) (texts_of environment)
      && includes (texts_of actual_labels) (texts_of labels)
      && list_eqb mount_eqb (sorted_by mount_leb actual_mounts) (sorted_by mount_leb expected_mounts)
      && py_eqb network expected_network
      && py_eqb ipc expected_ipc
      && py_eqb (py_or policy (PDict [])) expected_policy
      && py_eqb devices expected_devices
      && list_eqb binding_eqb (sorted_by binding_leb actual_bindings)
           [(text_or (get "host_ip" port) "", dec host_port)]).

(** ** Running a contract *)

Definition contract_volume (v : pyval) : result (pyval * (pyval * pystr)) :=
  match v with
  | PDict d =>
      source ← item "source" d; target ← item "target" d;
      let ro := match dict_get (str "read_only") d with Some b => truthy b | None => false end in
      Ok (source, (target, if ro then str "ro" else str "rw"))
  | _ => Raise (TypeError (str "indices must be integers"))
  end.

(** The volumes by their source, the last mount of a source winning; the
    contract names sources and targets by text, other values are refused by
    Docker's client *)
Fixpoint contract_volumes (l : list (pyval * (pyval * pystr))) (acc : list (pystr * (pystr * pystr)))
    : result (list (pystr * (pystr * pystr))) :=
  match l with
  | [] => Ok acc
  | (PStr source, (PStr target, mode)) :: rest => contract_volumes rest (dict_set source (target, mode) acc)
  | _ => Raise (TypeError (str "volumes must be text"))
  end.

(** [DeviceRequest(driver=..., count=..., ...)] of an entry of the contract *)
Definition device_request (v : pyval) : result pyval :=
  driver ← py_get_default "Driver" (PStr []) v; count ← py_get_default "Count" (PInt 0) v;
  ids ← py_get "DeviceIDs" v; capabilities ← py_get "Capabilities" v; options ← py_get "Options" v;
  Ok (PDict [(str "Driver", driver); (str "Count", count); (str "DeviceIDs", py_or ids (PList []));
             (str "Capabilities", py_or capabilities (PList [])); (str "Options", py_or options (PDict []))]).

(** The arguments of [containers.run] in [_run_launch_contract_container] *)
Definition contract_run_options (contract : pydict) (name : pystr) : result RunOptions :=
  mounts ← item "mounts" contract; mounts ← py_iter mounts;
  volumes ← mapM_result contract_volume mounts; volumes ← contract_volumes volumes [];
  port ← item "port" contract; port ← py_items port;
  devices ← item "device_requests" contract; devices ← py_iter devices; devices ← mapM_result device_request devices;
  image ← item "image" contract; entrypoint ← item "entrypoint" contract; command ← item "command" contract;
  environment ← item "environment" contract; network ← item "network_mode" contract; ipc ← item "ipc_mode" contract;
  policy ← item "restart_policy" contract;
  key ← binding_key port;
  host_port ← item "host_port" port; host_port ← py_int host_port;
  labels ← py_items (match dict_get (str "labels") contract with Some v => v | None => PDict [] end);
  Ok (mkRunOptions image name volumes (map (fun p => (fst p, py_str (snd p))) labels)
        [(str "entrypoint", entrypoint); (str "command", command); (str "environment", environment);
         (str "network_mode", network); (str "ipc_mode", ipc); (str "restart_policy", policy);
         (str "device_requests", PList devices);
         (str "ports", PDict [(key, PList [PStr (text_or (get "host_ip" port) ""); PInt host_port])])]).
End Match.
