(* ===== verification/DeployTraces.v ===== *)
(** * Reasoning about programs over the deployments' host

    Three views of a program of DeployHost: what it returns ([returns]), which
    events it adds to the trace ([emits], the tactic [traces]), and a triple of
    precondition, postcondition and condition of its exceptions ([triple]). *)
From Stdlib Require Import ZArith Lia Bool String SpecFloat.
From stdpp Require Import prelude gmap.
From S2P Require Import Prelude PyValue Traced PyText RuntimeBase DeployHost.
Import Traced.
Open Scope Z_scope.

(** ** Results *)

(** What a program returns, whatever the environment answers *)
Definition returns {E B} (P : B -> Prop) (m : tprogram database event E B) : Prop := forall w,
  match fst (m w) with Ok b => P b | Raise _ => True end.

Section Returns.
Context {E : Type}.
Notation prog := (tprogram database event E).
Lemma returns_ret {B} (P : B -> Prop) b : P b -> returns (E := E) P (mret b).
Proof. by intros Hb w. Qed.
Lemma returns_raise {B} (P : B -> Prop) e : returns (E := E) P (raise (A := B) e).
Proof. by intros w. Qed.
Lemma returns_bind {A B} (P : B -> Prop) (m : prog A) f : (forall a, returns P (f a)) -> returns P (m ≫= f).
Proof. intros Hf w. unfold mbind, program_bind. destruct (m w) as [[a|e] w1]; [apply Hf|done]. Qed.

Lemma returns_then {A B} (Q : A -> Prop) (P : B -> Prop) (m : prog A) f :
  returns Q m -> (forall a, Q a -> returns P (f a)) -> returns P (m ≫= f).
Proof.
  intros Hm Hf w. unfold mbind, program_bind. specialize (Hm w). destruct (m w) as [[a|e] w1]; [by apply Hf|done].
Qed.
Lemma returns_bind_lift {A B} (P : B -> Prop) a (f : A -> prog B) : returns P (f a) -> returns P (lift (Ok a) ≫= f).
Proof. intros Hf w. exact (Hf w). Qed.

End Returns.

Lemma returns_catch {E B} (P : B -> Prop) (m : tprogram database event E B) covers h :
  returns P m -> (forall e, returns P (h e)) -> returns P (catch m covers h).
Proof.
  intros Hm Hh w. unfold catch. specialize (Hm w). destruct (m w) as [[b|e] w1]; [done|]. destruct (covers e); [apply Hh|done].
Qed.

(** Every way through a program, down to what it returns *)
Ltac settle_step := first
  [ apply returns_raise
  | apply returns_ret; first [exact I | discriminate | done]
  | lazymatch goal with
    | |- returns _ (mbind _ _) => apply returns_bind; intros ?
    | |- returns _ (catch _ _ _) => apply returns_catch; [|intros ?]
    | |- returns _ (if ?b then _ else _) => destruct b
    | |- returns _ (match ?x with _ => _ end) => destruct x
    end ].
Ltac settled := repeat settle_step.

(** ** Traces *)

(** The state is left open. *)
Definition any_state (a b : database) : Prop := True.
#[export] Instance any_state_order : PreOrder any_state.
Proof. by split. Qed.

Section Events.
Context {E : Type} `{Host E} `{UnicodeData} `{ErrorText}.
Notation prog := (tprogram database event E).

Lemma emits_returns {B C} (P : event -> Prop) (T : B -> Prop) (m : prog B) (f : B -> prog C) :
  emits any_state (Forall P) m -> returns T m -> (forall b, T b -> emits any_state (Forall P) (f b)) ->
  emits any_state (Forall P) (m ≫= f).
Proof.
  intros Hm HT Hf w. apply wp_bind. destruct (Hm w) as (_ & l & Ht & Hl). specialize (HT w). unfold wp.
  destruct (m w) as [[b|e] w1]; cbn in *; [|by eauto].
  destruct (Hf b HT w1) as (_ & l2 & Ht2 & Hl2). split; [done|]. exists (l ++ l2).
  split; [by rewrite Ht2, Ht, app_assoc|by apply Forall_app].
Qed.

Lemma emits_bind_lift {B C} (P : event -> Prop) b (f : B -> prog C) :
  emits any_state (Forall P) (f b) -> emits any_state (Forall P) (lift (Ok b) ≫= f).
Proof. intros Hf w. exact (Hf w). Qed.

Section Only.
Context (P : event -> Prop).
Notation only := (emits any_state (Forall P)).

Lemma only_reload c : (forall r, P (EReload c r)) -> only (reload (E := E) c).
Proof.
  intros HP w. unfold wp, reload. destruct (dk_reload c (env w)) as [r e]. split; [done|].
  eexists; split; [done|]. by constructor.
Qed.
Lemma only_call c k : (forall r, P (ECall (ct_id c) k r)) -> only (call (E := E) c k).
Proof.
  intros HP w. unfold wp, call. destruct (dk_call c k (env w)) as [r e]. split; [done|].
  eexists; split; [done|]. by constructor.
Qed.
Lemma only_run o : (forall r, P (ERun o r)) -> only (run (E := E) o).
Proof.
  intros HP w. unfold wp, run. destruct (dk_run o (env w)) as [r e]. split; [done|].
  eexists; split; [done|]. by constructor.
Qed.
Lemma only_get_container i : (forall r, P (EGet i r)) -> only (get_container (E := E) i).
Proof.
  intros HP w. unfold wp, get_container. destruct (dk_get i (env w)) as [r e]. split; [done|].
  eexists; split; [done|]. by constructor.
Qed.
Lemma only_log x : P x -> only (log (E := E) x).
Proof. intros Hx. apply emits_log. by constructor. Qed.
Lemma only_update f : only (update (E := E) f).
Proof. by apply emits_update. Qed.
Lemma only_session : only (session (E := E)).
Proof. unfold session, set_database. eauto 8 using only_update with emits. Qed.

Lemma only_write_where id matches values :
  (forall row now, matches row = true -> P (EWrite id (Some row) (touched now <$> values row))) ->
  only (write_where (E := E) id matches values).
Proof.
  intros HP. unfold write_where, commit. apply emits_bind; [apply only_session|intros d].
  destruct (_ !! _) as [row|]; [|auto with emits]. destruct (matches row) eqn:Hm; [|auto with emits].
  eauto 10 using only_update, only_log with emits.
Qed.
End Only.
End Events.

Ltac traces := repeat first
  [ solve [eauto 3 with emits nocore]
  | apply only_session | apply only_update
  | apply only_reload; intros; exact I | apply only_call; intros; exact I | apply only_run; intros; exact I
  | apply only_get_container; intros; exact I | apply only_log; exact I
  | lazymatch goal with
    | |- emits _ _ (mbind _ _) => apply emits_bind; [|intros ?]
    | |- emits _ _ (catch _ _ _) => apply emits_catch; [|intros ?]
    | |- emits _ _ (attempt _ _) => apply emits_attempt
    | |- emits _ _ (if ?b then _ else _) => destruct b eqn:?
    | |- emits _ _ (match ?x with _ => _ end) => destruct x eqn:?
    end ].

(** ** Triples *)

Section Triples.
Context {E : Type}.
Notation world := (tworld database event E).
Notation prog := (tprogram database event E).

(** From a world with [P], [m] returns with [Q] or raises with [R]. *)
Definition triple {A} (P : world -> Prop) (m : prog A) (Q : A -> world -> Prop) (R : exn -> world -> Prop) : Prop :=
  forall w, P w -> wp m (fun r w' => match r with Ok a => Q a w' | Raise e => R e w' end) w.

Lemma triple_bind {A B} P (m : prog A) (f : A -> prog B) Q R T :
  triple P m Q R -> (forall a, triple (Q a) (f a) T R) -> triple P (m ≫= f) T R.
Proof.
  intros Hm Hf w Hw. apply wp_bind. eapply wp_mono; [|by apply Hm]. intros [a|e] w' H; [by apply Hf|done].
Qed.
Lemma triple_mono {A} (P P' : world -> Prop) (m : prog A) (Q Q' : A -> world -> Prop) (R R' : exn -> world -> Prop) :
  triple P m Q R -> (forall w, P' w -> P w) -> (forall a w, Q a w -> Q' a w) -> (forall e w, R e w -> R' e w) ->
  triple P' m Q' R'.
Proof. intros Hm HP HQ HR w Hw. eapply wp_mono; [|by apply Hm, HP]. intros [a|e] w'; auto. Qed.
Lemma triple_ret {A} (P : world -> Prop) (a : A) Q R : (forall w, P w -> Q a w) -> triple P (mret a) Q R.
Proof. intros HQ w Hw. by apply HQ. Qed.
Lemma triple_raise {A} (P : world -> Prop) e (Q : A -> world -> Prop) (R : exn -> world -> Prop) :
  (forall w, P w -> R e w) -> triple P (raise e) Q R.
Proof. intros HR w Hw. by apply HR. Qed.
Lemma triple_catch {A} P (m : prog A) covers h Q R T : triple P m Q R ->
  (forall e, covers e = true -> triple (R e) (h e) Q T) -> (forall e w, covers e = false -> R e w -> T e w) ->
  triple P (catch m covers h) Q T.
Proof.
  intros Hm Hh HR w Hw. apply wp_catch. eapply wp_mono; [|by apply Hm]. intros [a|e] w' H; [done|].
  destruct (covers e) eqn:Ec; [by apply Hh|by apply HR].
Qed.
Lemma triple_attempt {A} P (m : prog A) Q R T : triple P m Q R ->
  triple P (attempt m anything) (fun x => match x with inl a => Q a | inr e => R e end) T.
Proof. intros Hm w Hw. apply wp_attempt. eapply wp_mono; [|by apply Hm]. by intros [a|e] w' H. Qed.
Lemma triple_if {A} P (b : bool) (m k : prog A) Q R :
  (b = true -> triple P m Q R) -> (b = false -> triple P k Q R) -> triple P (if b then m else k) Q R.
Proof. destruct b; auto. Qed.
Lemma triple_returns {A} P (m : prog A) Q R (T : A -> Prop) : triple P m Q R -> returns T m ->
  triple P m (fun a w => Q a w /\ T a) R.
Proof.
  intros Hm HT w Hw. specialize (Hm w Hw). specialize (HT w). unfold wp in *. by destruct (m w) as [[a|e] w'].
Qed.
(** What holds of a run whatever the world was *)
Lemma triple_pure {A} P (m : prog A) (Q : A -> world -> Prop) R (X : Prop) : (X -> triple P m Q R) ->
  triple (fun w => P w /\ X) m Q R.
Proof. intros Hm w [Hw HX]. by apply Hm. Qed.

(** Programs that neither change the rows nor take back events *)
Definition quietly {A} (m : prog A) : Prop := forall w,
  state (snd (m w)) = state w /\ exists l, trace (snd (m w)) = trace w ++ l.

Lemma quietly_triple {A} (I : world -> Prop) (m : prog A) : quietly m ->
  (forall w w', state w' = state w -> (exists l, trace w' = trace w ++ l) -> I w -> I w') ->
  triple I m (fun _ => I) (fun _ => I).
Proof.
  intros Hm HI w Hw. unfold wp. destruct (Hm w) as [Hs Ht]. destruct (m w) as [[a|e] w']; cbn in *; by eapply HI.
Qed.
Lemma quietly_emits {A} (m : prog A) : emits eq (fun _ => True) m -> quietly m.
Proof. intros Hm w. destruct (Hm w) as (Hs & l & Hl & _). eauto. Qed.
End Triples.
