(* ===== verification/DeployActions.v ===== *)
(** * Deployment actions

    [action_handler] of backend/app/services/deployments.py, the handler of the
    tasks that start, stop, restart or delete the container of a deployment.
    It claims the row by a conditional update (the container that the request
    saw, the status that the handler saw), checks that the container is the
    recorded one and none of the manager's own, acts on it, waits for the
    runtime, and writes the final status by a conditional update again.  A
    container that drifted from its launch contract, or is gone, is rebuilt with
    the old one as a backup. *)
From Stdlib Require Import ZArith Lia Bool String SpecFloat.
From stdpp Require Import prelude gmap.
From S2P Require Import Prelude PyValue PosixPath PyTime Secrets Traced PyText Resources RuntimeBase DeployHost DeployContract.
Import Traced.
Open Scope Z_scope.

(** [isinstance(config, Mapping)] and its [launch_contract] *)
Definition stored_contract (config : pyval) : result (option pydict) :=
  match config with
  | PDict d =>
      match get "launch_contract" d with
      | PNone => Ok None
      | PDict contract => c ← launch_contract_snapshot contract; Ok (Some c)
      | _ => Raise (ValueError (str "launch_contract must be an object"))
      end
  | _ => Ok None
  end.

(** [recorded == expected] of a column and a value of the request *)
Definition same_text (recorded : option pystr) (expected : pyval) : bool :=
  match recorded, expected with
  | Some s, PStr t => str_eqb s t
  | None, PNone => true
  | _, _ => false
  end.

Definition ACTIONS : list pystr := [str "start"; str "stop"; str "restart"; str "delete"].
Definition is_action (name : string) (action : pystr) : bool := str_eqb action (str name).
Definition starts (action : pystr) : bool := is_action "start" action || is_action "restart" action.

Definition transient_of (action : pystr) : pystr :=
  if starts action then str "starting" else if is_action "stop" action then str "stopping" else str "deleting".

(** [_action_result] *)
Record ActionResult := mkActionResult {
  ar_deployment_id : pystr;
  ar_action : pystr;
  ar_status : pystr;
  ar_health : pystr;
  ar_container_missing : bool;
}.

(** What a claimed action knows of its deployment *)
Record Claim := mkClaim {
  cl_deployment_id : pystr;
  cl_action : pystr;
  cl_container_id : option pystr;
  cl_container_name : option pystr;
  cl_endpoint_url : pystr;
  cl_runtime : pystr;
  cl_original_status : pystr;
  cl_contract : option pydict;
}.
Definition cl_transient (c : Claim) : pystr := transient_of (cl_action c).

(** [_deployment_identity_filters] and the status *)
Definition opt_eqb (a b : option pystr) : bool :=
  match a, b with Some s, Some t => str_eqb s t | None, None => true | _, _ => false end.
Definition same_identity (container_id container_name : option pystr) (row : Deployment) : bool :=
  opt_eqb (dp_container_id row) container_id && opt_eqb (dp_container_name row) container_name.
Definition claimed (c : Claim) (row : Deployment) : bool :=
  same_identity (cl_container_id c) (cl_container_name c) row && str_eqb (dp_status row) (cl_transient c).

Section Actions.
Context {E : Type} `{Host E} `{UnicodeData} `{ErrorText} `{CaseFolding}.
(** The runtimes that have an adapter, and [startup_timeout_seconds] *)
Context (runtimes : list pystr) (startup_timeout_seconds : Z).
Notation prog := (tprogram database event E).

(** [self.adapter(runtime)] *)
Definition adapter (runtime : pystr) : prog unit :=
  if str_in runtime runtimes then mret tt else raise (ValueError (str "Unsupported runtime: " ++ runtime)).

(** [_validate_action_container]: the object as it is after [reload] *)
Definition validate_action_container (c : Container) (recorded_id recorded_name : option pystr) : prog Container :=
  c ← reload c;
  let actual_name := normalized_container_name (ct_name c) in
  let expected_name := default [] recorded_name in
  if negb (container_ids_equivalent (default [] recorded_id) (ct_id c)) || negb (str_eqb actual_name expected_name)
  then raise (ValueError (str "Container identity does not match deployment record"))
  else
    hostname ← ask ho_hostname;
    log (EInspect (strip hostname) c);;
    if str_in actual_name PROTECTED_CONTAINER_NAMES
       || str_in (normalized_container_name (default [] recorded_name)) PROTECTED_CONTAINER_NAMES
       || container_ids_equivalent (strip hostname) (ct_id c)
    then raise (ValueError (str "Refusing to operate on a protected manager container"))
    else mret c.

(** [_recover_action_failure] *)
Definition recover_action_failure (c : Claim) (container : option Container) : prog bool :=
  actual_status ← match container with
                  | Some ct => catch (ct' ← reload ct; mret (Some (ct_status ct'))) anything (fun _ => mret None)
                  | None => mret None : prog (option pystr)
                  end;
  write_where (cl_deployment_id c) (claimed c)
    (fun row => Some (with_status (stable_container_status actual_status (cl_original_status c)) (str "unhealthy") row)).

(** [_best_effort_recover_action_failure] *)
Definition best_effort_recover (c : Claim) (container : option Container) : prog (option bool) :=
  catch (b ← recover_action_failure c container; mret (Some b)) anything (fun _ => mret None).

(** [_delete_stale_deployment] *)
Definition delete_stale_deployment (c : Claim) : prog unit :=
  written ← write_where (cl_deployment_id c) (claimed c) (fun _ => None);
  if written : bool then mret tt else raise concurrent_change.

(** [_finalize_action] *)
Definition finalize_action (c : Claim) (status health : pystr) : prog unit :=
  written ← write_where (cl_deployment_id c) (claimed c)
    (fun row => if is_action "delete" (cl_action c) then None else Some (with_status status health row));
  if written : bool then mret tt else raise concurrent_change.

(** *** [_rebuild_action_container_from_contract] *)

(** The row after a rebuild *)
Definition rebuilt_row (replacement : Container) (name : option pystr) (row : Deployment) : Deployment :=
  mkDeployment (dp_name row) (dp_model_id row) (dp_runtime row) (Some (ct_id replacement)) name (dp_endpoint_url row)
    (dp_api_model_name row) (str "running") (str "healthy") true (dp_image row) (dp_port row) (dp_benchmark row)
    (dp_config row) (dp_capabilities row) (dp_updated_at row).

Definition unhealthy_start (logs : pystr) : exn :=
  RuntimeError (str "Runtime did not become healthy within " ++ dec startup_timeout_seconds
                ++ str " seconds. Last logs:" ++ [10] ++ logs).

(** The variables of the block that its handler reads: the old container's
    object, and the replacement once it is there *)
Record Rebuild := mkRebuild { rb_old : option Container; rb_replacement : option Container }.

(** The part of the block up to a point, with the variables at that point when
    it raises *)
Definition rebuild_body (c : Claim) (contract : pydict) (old : option Container) (was_running : bool)
    : prog (Rebuild * result unit) :=
  let stop_here (r : Rebuild) (e : exn) : prog (Rebuild * result unit) := mret (r, Raise e) in
  moved ← attempt
    match old with
    | Some ct =>
        (if was_running then adapter_stop ct else mret tt : prog unit);;
        call ct (CRename (backup_container_name (cl_deployment_id c)));;
        ct' ← reload ct; mret (Some ct')
    | None => mret None
    end anything;
  match moved : option Container + exn with
  | inr e => stop_here (mkRebuild old None) e
  | inl old' =>
      started ← attempt
        (report (Some (NInt 20)) (Some (str "Rebuilding drifted container " ++ default (str "None") (cl_container_name c)));;
         options ← lift (contract_run_options contract (default [] (cl_container_name c)));
         run options) anything;
      match started : Container + exn with
      | inr e => stop_here (mkRebuild old' None) e
      | inl replacement =>
          done ← attempt
            (healthy ← wait_for_health startup_timeout_seconds (cl_endpoint_url c) 30 95;
             (if healthy : bool then mret tt
              else logs ← startup_logs replacement; raise (unhealthy_start logs) : prog unit);;
             replacement ← reload replacement;
             written ← write_where (cl_deployment_id c) (claimed c)
               (fun row => Some (rebuilt_row replacement (cl_container_name c) row));
             if written : bool then mret tt else raise concurrent_change) anything;
          mret (mkRebuild old' (Some replacement), match done with inl _ => Ok tt | inr e => Raise e end)
      end
  end.

(** The old container as it was *)
Definition restore_old (c : Claim) (old : Container) (was_running : bool) : prog unit :=
  catch
    (old ← (if str_eqb (ct_name old) (backup_container_name (cl_deployment_id c))
            then call old (CRename (default [] (cl_container_name c)));; reload old
            else mret old : prog Container);
     if was_running && negb (str_eqb (ct_status old) (str "running")) then adapter_start old else mret tt)
    anything (fun _ => mret tt).

Definition rebuild_from_contract (c : Claim) (contract : pydict) (old : option Container) : prog ActionResult :=
  docker_client;;
  let was_running := match old with Some ct => str_eqb (ct_status ct) (str "running") | None => false end in
  '(vars, r) ← rebuild_body c contract old was_running;
  match r : result unit with
  | Ok _ =>
      match rb_old vars with Some ct => remove_owned_container ct | None => mret tt end;;
      mret (mkActionResult (cl_deployment_id c) (cl_action c) (str "running") (str "healthy")
              (match old with Some _ => false | None => true end))
  | Raise e =>
      match rb_replacement vars with Some ct => remove_owned_container ct | None => mret tt end;;
      match rb_old vars with Some ct => restore_old c ct was_running | None => mret tt end;;
      best_effort_recover c (rb_old vars);;
      raise e
  end.

(** *** The claim *)

(** The checks of the request and the first session *)
Definition claim_action (payload : pydict) : prog Claim :=
  id ← lift (item "deployment_id" payload); action ← lift (item "action" payload);
  let deployment_id := py_str id in
  let action := py_str action in
  if negb (str_in action ACTIONS) then raise (ValueError (str "Unsupported deployment action")) else
  match dict_get (str "expected_container_id") payload, dict_get (str "expected_container_name") payload with
  | Some expected_id, Some expected_name =>
      d ← session;
      match deployments d !! deployment_id with
      | None => raise (ValueError (str "Deployment was not found"))
      | Some row =>
          if negb (same_text (dp_container_id row) expected_id && same_text (dp_container_name row) expected_name)
          then raise concurrent_change
          else
            contract ← (if starts action then lift (stored_contract (dp_config row)) else mret None : prog (option pydict));
            if negb (is_action "delete" action) && match dp_container_id row with Some (_ :: _) => false | _ => true end
            then raise no_deployment
            else
              let c := mkClaim deployment_id action (dp_container_id row) (dp_container_name row) (dp_endpoint_url row)
                         (dp_runtime row) (dp_status row) contract in
              written ← write_where deployment_id
                (fun row => same_identity (cl_container_id c) (cl_container_name c) row
                            && str_eqb (dp_status row) (cl_original_status c))
                (fun row => Some (with_status (cl_transient c) (str "unknown") row));
              if written : bool then mret c else raise concurrent_change
      end
  | _, _ => raise missing_snapshot
  end.

(** *** The work on the container *)

(** A finished action, or the status that the rest of the handler writes *)
Inductive Worked := Finished (r : ActionResult) | Acted (container : Container) (status : pystr).

Definition act (c : Claim) (ct : Container) : prog pystr :=
  if is_action "start" (cl_action c) then adapter_start ct;; mret (str "running")
  else if is_action "stop" (cl_action c) then adapter_stop ct;; mret (str "exited")
  else if is_action "restart" (cl_action c) then adapter_restart ct;; mret (str "running")
  else adapter_uninstall ct;; mret (str "deleted").

(** The body of the [try] block; the container that its handlers see is the
    object once [containers.get] has returned it *)
Definition work_body (c : Claim) (ct : Container) : prog Worked :=
  ct ← validate_action_container ct (cl_container_id c) (cl_container_name c);
  matches ← match cl_contract c with
            | Some contract => lift (container_matches_launch_contract (ct_attrs ct) contract)
            | None => mret true : prog bool
            end;
  match cl_contract c, matches with
  | Some contract, false => r ← rebuild_from_contract c contract (Some ct); mret (Finished r)
  | _, _ =>
      (if starts (cl_action c) then mret tt else adapter (cl_runtime c) : prog unit);;
      report (Some (NInt 20)) (Some (str "Executing " ++ cl_action c ++ str " on " ++ ct_name ct));;
      status ← act c ct; mret (Acted ct status)
  end.

Definition recover_and_raise (c : Claim) (container : option Container) (e : exn) : prog Worked :=
  recovered ← best_effort_recover c container;
  (match recovered : option bool with
   | Some false => catch (report None (Some (str "Deployment container identity changed concurrently"))) anything (fun _ => mret tt)
   | _ => mret tt : prog unit
   end);;
  raise e.

Definition missing_result (c : Claim) : ActionResult :=
  mkActionResult (cl_deployment_id c) (cl_action c) (str "deleted") (str "unknown") true.

(** The handlers of the block *)
Definition work_failed (c : Claim) (container : option Container) (e : exn) : prog Worked :=
  if is_NotFound e then
    match cl_contract c with
    | Some contract => r ← rebuild_from_contract c contract None; mret (Finished r)
    | None =>
        if is_action "delete" (cl_action c)
        then delete_stale_deployment c;; mret (Finished (missing_result c))
        else recover_and_raise c container e
    end
  else recover_and_raise c container e.

Definition work (c : Claim) : prog Worked :=
  found ← attempt
    ((if starts (cl_action c) then adapter (cl_runtime c) else mret tt : prog unit);;
     docker_client;; get_container (default [] (cl_container_id c))) anything;
  match found : Container + exn with
  | inr e => work_failed c None e
  | inl ct => catch (work_body c ct) anything (work_failed c (Some ct))
  end.

(** *** The rest of the handler *)

Definition settle (c : Claim) (container : Container) (status : pystr) : prog ActionResult :=
  health ← (if starts (cl_action c) then
              report (Some (NInt 30)) (Some (str "Waiting for runtime health"));;
              healthy ← wait_for_health startup_timeout_seconds (cl_endpoint_url c) 30 95;
              if healthy : bool then mret (str "healthy")
              else
                logs ← startup_logs container;
                recovered ← recover_action_failure c (Some container);
                if negb recovered : bool then raise concurrent_change
                else
                  report None (Some (str "Runtime health check failed:" ++ [10] ++ logs));;
                  raise (unhealthy_start logs)
            else mret (str "unknown") : prog pystr);
  finalize_action c status health;;
  mret (mkActionResult (cl_deployment_id c) (cl_action c) status health false).

(** [action_handler] *)
Definition action_handler (payload : pydict) : prog ActionResult :=
  c ← claim_action payload;
  if is_action "delete" (cl_action c) && match cl_container_id c with Some (_ :: _) => false | _ => true end then
    delete_stale_deployment c;; mret (missing_result c)
  else
    worked ← work c;
    match worked with
    | Finished r => mret r
    | Acted container status => settle c container status
    end.
End Actions.
