(* ===== verification/DeployActionSafety.v ===== *)
(** * What an action may touch

    Theorems about [action_handler] (DeployActions): it calls containers only
    after it has verified them or when it has created them itself, and it writes
    only the row it was asked for while that row names the container that the
    request saw. *)
From Stdlib Require Import ZArith Lia Bool String SpecFloat.
From stdpp Require Import prelude gmap.
From S2P Require Import Prelude PyValue PosixPath PyTime Secrets Traced PyText RuntimeBase DeployHost DeployContract DeployTraces DeployActions.
Import Traced.
Open Scope Z_scope.

(** ** Containers *)

Section Touch.
Context `{UnicodeData}.
(** The recorded container *)
Context (recorded_id recorded_name : option pystr).

(** The container with an id was looked at, has the recorded identity and is
    none of the manager's own. *)
Definition verified (t : list event) (id : pystr) : Prop := exists hostname ct,
  In (EInspect hostname ct) t /\ ct_id ct = id
  /\ container_ids_equivalent (default [] recorded_id) id = true
  /\ normalized_container_name (ct_name ct) = default [] recorded_name
  /\ ~ In (normalized_container_name (ct_name ct)) PROTECTED_CONTAINER_NAMES
  /\ container_ids_equivalent hostname id = false.

(** The program has started the container with an id itself. *)
Definition created (t : list event) (id : pystr) : Prop := exists o ct, In (ERun o (Ok ct)) t /\ ct_id ct = id.

Definition may_touch (t : list event) (id : pystr) : Prop := verified t id \/ created t id.

Definition touches_allowed (t : list event) : Prop := forall t1 id k r t2,
  t = t1 ++ ECall id k r :: t2 -> may_touch t1 id.

Lemma may_touch_app t l id : may_touch t id -> may_touch (t ++ l) id.
Proof.
  intros [(h & ct & Hin & Hrest)|(o & ct & Hin & Hrest)]; [left; exists h, ct|right; exists o, ct];
    (split; [apply in_app_iff; by left|done]).
Qed.

Lemma touches_nil : touches_allowed [].
Proof. by intros [|] id k r t2. Qed.

Lemma touches_snoc t e : touches_allowed t -> match e with ECall id _ _ => may_touch t id | _ => True end ->
  touches_allowed (t ++ [e]).
Proof.
  intros Ht He t1 id k r t2 E.
  destruct t2 as [|x t2 _] using rev_ind.
  - apply app_inj_tail in E as [-> ->]. done.
  - rewrite app_comm_cons, app_assoc in E. apply app_inj_tail in E as [E _]. by eapply Ht.
Qed.

Context {E : Type} `{HostSpec E}.
Notation prog := (tprogram database event E).

(** [m] keeps to the containers of [A] and to those it verifies or creates;
    those of its result are such ones. *)
Definition within {B} (A : list pystr) (m : prog B) (gain : B -> list pystr) : Prop := forall w,
  touches_allowed (trace w) -> (forall id, In id A -> may_touch (trace w) id) ->
  wp m (fun r w' => touches_allowed (trace w') /\ (exists l, trace w' = trace w ++ l)
                    /\ match r with Ok b => forall id, In id (gain b) -> may_touch (trace w') id | Raise _ => True end) w.

Definition nothing {B} (b : B) : list pystr := [].

Lemma within_less {B} A (m : prog B) g : within A m g -> within A m nothing.
Proof.
  intros Hm w Ht HA. eapply wp_mono; [|by apply Hm]. intros r w' (Ht' & Hl & _). split_and!; [done|done|].
  destruct r; [by intros id []|done].
Qed.

Lemma within_incl {B} A A' (m : prog B) g : (forall id, In id A -> In id A') -> within A m g -> within A' m g.
Proof. intros Hi Hm w Ht HA. apply Hm; auto. Qed.

Lemma within_bind {B C} A (m : prog B) (f : B -> prog C) g h :
  within A m g -> (forall b, within (g b ++ A) (f b) h) -> within A (m ≫= f) h.
Proof.
  intros Hm Hf w Ht HA. apply wp_bind. eapply wp_mono; [|by apply Hm].
  intros [b|e] w1 (Ht1 & [l1 Hl1] & Hb); [|by eauto].
  eapply wp_mono; [|apply Hf; [done|]].
  - intros r w2 (Ht2 & [l2 Hl2] & Hr). split_and!; [done| |done]. exists (l1 ++ l2). by rewrite Hl2, Hl1, app_assoc.
  - intros id [Hi|Hi]%in_app_iff; [by apply Hb|]. rewrite Hl1. apply may_touch_app. by apply HA.
Qed.

Lemma within_seq {B C} A (m : prog B) (f : B -> prog C) h :
  within A m nothing -> (forall b, within A (f b) h) -> within A (m ≫= f) h.
Proof. intros Hm Hf. by eapply within_bind. Qed.

Lemma within_attempt {B} A (m : prog B) covers g : within A m g ->
  within A (attempt m covers) (fun x => match x with inl b => g b | inr _ => [] end).
Proof.
  intros Hm w Ht HA. apply wp_attempt. eapply wp_mono; [|by apply Hm].
  intros [b|e] w' (Ht' & Hl & Hb); [done|]. destruct (covers e); [|done]. split_and!; [done|done|by intros id []].
Qed.

Lemma within_catch {B} A (m : prog B) covers h g : within A m g -> (forall e, within A (h e) g) ->
  within A (catch m covers h) g.
Proof.
  intros Hm Hh w Ht HA. apply wp_catch. eapply wp_mono; [|by apply Hm].
  intros [b|e] w1 (Ht1 & [l1 Hl1] & Hb); [by eauto|]. destruct (covers e); [|by eauto].
  eapply wp_mono; [|apply Hh; [done|]].
  - intros r w2 (Ht2 & [l2 Hl2] & Hr). split_and!; [done| |done]. exists (l1 ++ l2). by rewrite Hl2, Hl1, app_assoc.
  - intros id Hi. rewrite Hl1. apply may_touch_app. by apply HA.
Qed.

Lemma within_still {B} A (m : prog B) : (forall w, trace (snd (m w)) = trace w) -> within A m nothing.
Proof.
  intros Hm w Ht HA. unfold wp. rewrite Hm. split_and!; [done|exists []; by rewrite app_nil_r|].
  destruct (fst (m w)); [by intros id []|done].
Qed.

Lemma within_ret {B} A (b : B) g : (forall id, In id (g b) -> In id A) -> within A (mret b) g.
Proof. intros Hg w Ht HA. split_and!; [done|exists []; cbn; by rewrite app_nil_r|]. cbn. auto. Qed.
Lemma within_raise {B} A e (g : B -> list pystr) : within A (raise e) g.
Proof. intros w Ht HA. split_and!; [done|exists []; cbn; by rewrite app_nil_r|done]. Qed.
Lemma within_lift {B} A (r : result B) : within A (lift r) nothing.
Proof. by apply within_still. Qed.
Lemma within_ask_result {B} A (q : E -> result B * E) : within A (ask_result q) nothing.
Proof. apply within_still. intros w. unfold ask_result. by destruct (q (env w)). Qed.
Lemma within_ask {B} A (q : E -> B * E) : within A (ask q) nothing.
Proof. apply within_still. intros w. unfold ask. by destruct (q (env w)). Qed.
Lemma within_get A : within A get_state nothing.
Proof. by apply within_still. Qed.
Lemma within_update A f : within A (update f) nothing.
Proof. by apply within_still. Qed.
Lemma within_log A e : match e with ECall _ _ _ => False | _ => True end -> within A (log e) nothing.
Proof.
  intros He w Ht HA. split_and!; [cbn; apply touches_snoc; [done|by destruct e]|by exists [e]|by intros id []].
Qed.
Lemma within_call A c k : In (ct_id c) A -> within A (call c k) nothing.
Proof.
  intros Hc w Ht HA. unfold wp, call. destruct (dk_call c k (env w)) as [r e]. cbn.
  split_and!; [apply touches_snoc; [done|by apply HA]|by eexists|]. destruct r; [by intros id []|done].
Qed.
Lemma within_run A o : within A (run o) (fun ct => [ct_id ct]).
Proof.
  intros w Ht HA. unfold wp, run. destruct (dk_run o (env w)) as [r e]. cbn.
  split_and!; [by apply touches_snoc|by eexists|]. destruct r as [ct|]; [|done].
  intros id [<-|[]]. right. exists o, ct. split; [apply in_app_iff; right; by left|done].
Qed.
Lemma within_reload A c : In (ct_id c) A -> within A (reload c) (fun c' => [ct_id c']).
Proof.
  intros Hc w Ht HA. unfold wp, reload. destruct (dk_reload c (env w)) as [r e] eqn:Er. cbn.
  split_and!; [by apply touches_snoc|by eexists|]. destruct r as [c'|]; [|done].
  intros id [<-|[]]. apply may_touch_app. apply HA. apply reload_same in Er. by rewrite Er.
Qed.
Lemma within_reload_any A c : within A (reload c) nothing.
Proof.
  intros w Ht HA. unfold wp, reload. destruct (dk_reload c (env w)) as [r e] eqn:Er. cbn.
  split_and!; [by apply touches_snoc|by eexists|]. destruct r as [c'|]; [by intros id []|done].
Qed.
Lemma within_get_container A i : within A (get_container i) nothing.
Proof.
  intros w Ht HA. unfold wp, get_container. destruct (dk_get i (env w)) as [r e]. cbn.
  split_and!; [by apply touches_snoc|by eexists|]. destruct r as [c'|]; [by intros id []|done].
Qed.
End Touch.

Section Returning.
Context {E : Type}.
Notation prog := (tprogram database event E).
Lemma within_returns `{Host E} `{UnicodeData} i n {B C} A (m : prog B) (P : B -> Prop) (f : B -> prog C) g :
  within i n A m nothing -> returns P m -> (forall b, P b -> within i n A (f b) g) -> within i n A (m ≫= f) g.
Proof.
  intros Hm HP Hf w Ht HA. apply wp_bind. destruct (Hm w Ht HA) as (Ht1 & [l1 Hl1] & _). unfold wp.
  specialize (HP w). destruct (m w) as [[b|e] w1]; cbn in *; [|by eauto].
  eapply wp_mono; [|apply (Hf b HP w1 Ht1)].
  - intros r w2 (Ht2 & [l2 Hl2] & Hr). split_and!; [done| |done]. exists (l1 ++ l2). by rewrite Hl2, Hl1, app_assoc.
  - intros id Hi. rewrite Hl1. apply may_touch_app. by apply HA.
Qed.
End Returning.

Create HintDb touch discriminated.
#[export] Hint Resolve within_raise within_lift within_ask_result within_ask within_get within_update within_reload_any
  within_get_container : touch.
#[export] Hint Extern 1 (within _ _ _ (log _) _) => apply within_log; exact I : touch.
#[export] Hint Extern 1 (within _ _ _ (call _ _) _) => apply within_call; cbn [app]; by auto using in_eq, in_cons : touch.
#[export] Hint Extern 1 (within _ _ _ (mret _) _) => apply within_ret; by intros ? [] : touch.
#[export] Hint Extern 4 (within _ _ _ (adapter_start _) _) => unfold adapter_start : touch.
#[export] Hint Extern 4 (within _ _ _ (adapter_stop _) _) => unfold adapter_stop : touch.
#[export] Hint Extern 4 (within _ _ _ (adapter_restart _) _) => unfold adapter_restart : touch.

(** Programs whose results name no container *)
Ltac touch := repeat first
  [ solve [eauto with touch nocore]
  | lazymatch goal with
    | |- within _ _ _ (mbind _ _) _ => eapply within_seq; [|intros ?]
    | |- within _ _ _ (catch _ _ _) _ => apply within_catch; [|intros ?]
    | |- within _ _ _ (attempt _ _) _ => eapply within_less, within_attempt
    | |- within _ _ _ (if ?b then _ else _) _ => destruct b
    | |- within _ _ _ (match ?x with _ => _ end) _ => destruct x
    end ].

Section Actions.
Context {E : Type} `{HostSpec E} `{UnicodeData} `{ErrorText} `{CaseFolding}.
Context (runtimes : list pystr) (startup_timeout_seconds : Z).
Context (recorded_id recorded_name : option pystr).
Notation prog := (tprogram database event E).
Notation within := (within recorded_id recorded_name).

Lemma within_session A : within A session nothing.
Proof. unfold session, set_database. touch. Qed.
Lemma within_commit A change e : match e with ECall _ _ _ => False | _ => True end -> within A (commit change e) nothing.
Proof. intros He. unfold commit. touch. by apply within_log. Qed.
Lemma within_write_where A id matches values : within A (write_where id matches values) nothing.
Proof.
  unfold write_where. eapply within_seq; [apply within_session|intros d]. touch. by apply within_commit.
Qed.
Lemma within_report A p m : within A (report p m) nothing.
Proof. unfold report. touch. Qed.
Lemma within_client A : within A docker_client nothing.
Proof. unfold docker_client. touch. Qed.
Lemma within_logs A c : within A (startup_logs c) nothing.
Proof. unfold startup_logs, adapter_logs. touch. Qed.
Lemma within_remove A c : In (ct_id c) A -> within A (remove_owned_container c) nothing.
Proof. intros Hc. unfold remove_owned_container. touch. Qed.
Lemma within_health A attempts endpoint ps pe : forall left, within A (health_loop left attempts endpoint ps pe) nothing.
Proof.
  induction left as [|left IH]; cbn [health_loop]; unfold check_control, health_check; touch. apply within_report.
Qed.

Hint Resolve within_session within_write_where within_report within_client within_logs within_health within_remove : touch.

Lemma within_wait A t endpoint ps pe : within A (wait_for_health t endpoint ps pe) nothing.
Proof. unfold wait_for_health. touch. Qed.
Hint Resolve within_wait : touch.

Lemma within_recover A c container : within A (recover_action_failure c container) nothing.
Proof. unfold recover_action_failure. touch. Qed.
Lemma within_best_effort A c container : within A (best_effort_recover c container) nothing.
Proof. unfold best_effort_recover. touch. apply within_recover. Qed.
Lemma within_stale A c : within A (delete_stale_deployment c) nothing.
Proof. unfold delete_stale_deployment. touch. Qed.
Lemma within_finalize A c s h : within A (finalize_action c s h) nothing.
Proof. unfold finalize_action. touch. Qed.
Hint Resolve within_recover within_best_effort within_stale within_finalize : touch.

(** The checked container is one that may be touched. *)
Lemma within_validate A c : within A (validate_action_container c recorded_id recorded_name) (fun ct => [ct_id ct]).
Proof.
  unfold validate_action_container. eapply within_seq; [touch|intros ct].
  destruct (_ || _) eqn:E1; [apply within_raise|]. split_bools.
  eapply within_seq; [touch|intros hostname].
  intros w Ht HA. unfold wp, log, raise, mbind, program_bind. cbn.
  destruct (_ || _) eqn:E2; cbn; (split_and!; [by apply touches_snoc|by eexists|]); [done|].
  intros id [<-|[]]. left. exists (strip hostname), ct.
  apply orb_false_iff in E2 as [[E2 E2']%orb_false_iff E3].
  split_and!; [apply in_app_iff; right; by left|done|done|by apply str_eqb_eq| |done].
  intros Hin%str_in_In. unfold str_in, PROTECTED_CONTAINER_NAMES in Hin. cbn in Hin. by rewrite E2 in Hin.
Qed.

Lemma within_restore A c old b : In (ct_id old) A -> within A (restore_old c old b) nothing.
Proof.
  intros Hold. unfold restore_old. apply within_catch; [|intros e; touch].
  eapply (within_bind _ _ _ _ _ (fun old' : Container => [ct_id old'])).
  - destruct (str_eqb _ _); [|apply within_ret; by intros id [<-|[]]].
    eapply within_seq; [touch|intros _]. by apply within_reload.
  - intros old'. touch.
Qed.

Definition rebuild_gain (x : Rebuild * result unit) : list pystr :=
  match rb_old (fst x) with Some ct => [ct_id ct] | None => [] end
  ++ match rb_replacement (fst x) with Some ct => [ct_id ct] | None => [] end.

Lemma within_rebuild_body A c contract old b : match old with Some ct => In (ct_id ct) A | None => True end ->
  within A (rebuild_body startup_timeout_seconds c contract old b) rebuild_gain.
Proof.
  intros Hold. unfold rebuild_body.
  eapply within_bind.
  { apply (within_attempt _ _ _ _ _ (fun o : option Container => match o with Some ct => [ct_id ct] | None => [] end)).
    destruct old as [ct|]; [|apply within_ret; by intros ? []].
    eapply within_seq; [touch|intros _]. eapply within_seq; [touch|intros _].
    eapply within_bind; [by apply within_reload|]. intros ct'. apply within_ret. intros id [<-|[]]. by left. }
  intros [old'|e]; [|apply within_ret; unfold rebuild_gain; cbn; rewrite app_nil_r; destruct old; [|done]; by intros id [<-|[]]].
  eapply within_bind.
  { apply (within_attempt _ _ _ _ _ (fun ct : Container => [ct_id ct])).
    do 2 (eapply within_seq; [touch|intros ?]). apply within_run. }
  intros [replacement|e].
  - eapply within_seq; [touch|intros done]. apply within_ret. unfold rebuild_gain. cbn.
    intros id [Hi|[<-|[]]]%in_app_iff; [right|by left]. apply in_app_iff. by left.
  - apply within_ret. unfold rebuild_gain. cbn. rewrite app_nil_r. intros id Hi. apply in_app_iff. by left.
Qed.

Lemma within_rebuild A c contract old : match old with Some ct => In (ct_id ct) A | None => True end ->
  within A (rebuild_from_contract startup_timeout_seconds c contract old) nothing.
Proof.
  intros Hold. unfold rebuild_from_contract. eapply within_seq; [touch|intros _].
  eapply within_bind; [by apply within_rebuild_body|]. intros [[old' replacement] r]. unfold rebuild_gain. cbn.
  assert (Hr : forall ct, replacement = Some ct -> In (ct_id ct)
    ((match old' with Some ct => [ct_id ct] | None => [] end ++ match replacement with Some ct => [ct_id ct] | None => [] end) ++ A)).
  { intros ct ->. apply in_app_iff. left. apply in_app_iff. right. by left. }
  assert (Ho : forall ct, old' = Some ct -> In (ct_id ct)
    ((match old' with Some ct => [ct_id ct] | None => [] end ++ match replacement with Some ct => [ct_id ct] | None => [] end) ++ A)).
  { intros ct ->. apply in_app_iff. left. apply in_app_iff. left. by left. }
  destruct r; repeat (eapply within_seq; [|intros ?]); touch; eauto using within_remove, within_restore.
Qed.

Hint Extern 2 (within _ (rebuild_from_contract _ _ _ _) _) => apply within_rebuild; by auto using in_eq : touch.
Hint Extern 2 (within _ (remove_owned_container _) _) => apply within_remove; cbn [app]; by auto using in_eq, in_cons : touch.

(** The rest of the handler, for a claim of the recorded container *)
Section Claimed.
Context (c : Claim) (Hid : cl_container_id c = recorded_id) (Hname : cl_container_name c = recorded_name).

Lemma within_act A ct : In (ct_id ct) A -> within A (act c ct) nothing.
Proof.
  intros Hc. unfold act, adapter_uninstall. touch.
Qed.

Hint Extern 2 (within _ (act _ _) _) => apply within_act; by auto using in_eq : touch.

Lemma within_failed A container e : within A (work_failed startup_timeout_seconds c container e) nothing.
Proof.
  unfold work_failed, recover_and_raise. touch.
Qed.

Lemma within_work_body A ct : within A (work_body runtimes startup_timeout_seconds c ct) nothing.
Proof.
  unfold work_body. rewrite Hid, Hname. eapply within_bind; [apply within_validate|]. intros ct'. cbn [app].
  eapply within_seq; [touch|intros matches].
  destruct (cl_contract c) as [contract|]; [destruct matches|]; unfold adapter; touch.
Qed.

Lemma within_work A : within A (work runtimes startup_timeout_seconds c) nothing.
Proof.
  unfold work. eapply within_seq; [unfold adapter; touch|]. intros [ct|e]; [|apply within_failed].
  apply within_catch; [apply within_work_body|intros e; apply within_failed].
Qed.

Lemma within_settle A ct status : within A (settle startup_timeout_seconds c ct status) nothing.
Proof. unfold settle. touch. Qed.
End Claimed.

(** The text that a request gives for a column *)
Definition expected (key : string) (payload : pydict) : option pystr :=
  match dict_get (str key) payload with Some (PStr s) => Some s | _ => None end.

Lemma same_text_expected o key payload v : dict_get (str key) payload = Some v -> same_text o v = true ->
  o = expected key payload.
Proof.
  intros Hv Hs. unfold expected. rewrite Hv. destruct o as [s|], v; cbn in Hs; try done.
  apply str_eqb_eq in Hs. by subst.
Qed.

Definition claims (payload : pydict) (c : Claim) : Prop :=
  cl_container_id c = expected "expected_container_id" payload
  /\ cl_container_name c = expected "expected_container_name" payload
  /\ cl_deployment_id c = py_str (get "deployment_id" payload) /\ cl_action c = py_str (get "action" payload)
  /\ In (cl_action c) ACTIONS.

Lemma claim_identity payload : returns (claims payload) (claim_action (E := E) payload).
Proof.
  unfold claims, claim_action, item, get, get_or_none.
  destruct (dict_get (str "deployment_id") payload) as [id|]; [|by apply returns_raise].
  destruct (dict_get (str "action") payload) as [action|]; [|by apply returns_raise].
  apply returns_bind_lift. apply returns_bind_lift.
  destruct (negb (str_in (py_str action) ACTIONS)) eqn:Ha; [apply returns_raise|].
  apply negb_false_iff, str_in_In in Ha.
  destruct (dict_get (str "expected_container_id") payload) as [expected_id|] eqn:Hi; [|apply returns_raise].
  destruct (dict_get (str "expected_container_name") payload) as [expected_name|] eqn:Hn; [|apply returns_raise].
  apply returns_bind; intros d. destruct (_ !! _) as [row|]; [|apply returns_raise].
  destruct (negb (_ && _)) eqn:Hs; [apply returns_raise|]. split_bools.
  apply returns_bind; intros contract. destruct (_ && _); [apply returns_raise|].
  apply returns_bind; intros []; [|apply returns_raise]. apply returns_ret.
  split; [by eapply same_text_expected|]. split; [by eapply same_text_expected|]. done.
Qed.

Lemma within_claim A payload : within A (claim_action payload) nothing.
Proof. unfold claim_action. touch. Qed.

End Actions.

(** C8.  Whatever a deployment action does to containers (start, stop, restart,
    rename, remove), it does to the container that the request names, after it
    has looked at it: its id is the recorded one (or one is the beginning of the
    other, of at least twelve hexadecimal digits), its name is the recorded one,
    and it is neither one of the manager's own services nor the container the
    manager runs in; or to a container that the handler has started itself. *)
Theorem action_touches_verified {E} `{HostSpec E} `{UnicodeData} `{ErrorText} `{CaseFolding} runtimes timeout payload
    (w : tworld database event E) : trace w = [] ->
  touches_allowed (expected "expected_container_id" payload) (expected "expected_container_name" payload)
    (trace (snd (action_handler runtimes timeout payload w))).
Proof.
  intros Hw. set (rid := expected _ payload). set (rname := expected "expected_container_name" payload).
  assert (Hall : within rid rname [] (action_handler runtimes timeout payload) nothing).
  { eapply within_returns; [apply within_claim|apply claim_identity|].
    intros c (Hid & Hname & _). destruct (_ && _).
    - apply within_seq; [apply within_stale|intros _]. by apply within_ret.
    - apply within_seq; [by apply within_work|]. intros [r|ct status]; [by apply within_ret|by apply within_settle]. }
  destruct (Hall w) as (Ht & _); [by rewrite Hw; apply touches_nil|by intros ? []|done].
Qed.

(** ** Rows *)

(** All columns but the container, the status and the time of the change *)
Definition same_settings (a b : Deployment) : Prop :=
  dp_name a = dp_name b /\ dp_model_id a = dp_model_id b /\ dp_runtime a = dp_runtime b
  /\ dp_endpoint_url a = dp_endpoint_url b /\ dp_api_model_name a = dp_api_model_name b /\ dp_image a = dp_image b
  /\ dp_port a = dp_port b /\ dp_benchmark a = dp_benchmark b /\ dp_config a = dp_config b
  /\ dp_capabilities a = dp_capabilities b.

(** A write of the row of the request, while it names the container of the
    request; it goes only when it is to be deleted, and keeps its settings. *)
Definition own_write (deployment_id action : pystr) (container_id container_name : option pystr) (ev : event) : Prop :=
  match ev with
  | EWrite id before after =>
      id = deployment_id /\ exists row, before = Some row
      /\ dp_container_id row = container_id /\ dp_container_name row = container_name
      /\ match after with
         | None => action = str "delete"
         | Some row' => same_settings row row' /\ (dp_status row' = str "deleting" -> action = str "delete")
         end
  | EAsset _ _ => False
  | _ => True
  end.

Lemma opt_eqb_eq a b : opt_eqb a b = true -> a = b.
Proof. destruct a, b; cbn; try done. by intros ->%str_eqb_eq. Qed.

Lemma same_identity_eq i n row : same_identity i n row = true -> dp_container_id row = i /\ dp_container_name row = n.
Proof. unfold same_identity. intros H. split_bools. split; by apply opt_eqb_eq. Qed.

Lemma transient_deleting action : In action ACTIONS -> transient_of action = str "deleting" -> action = str "delete".
Proof.
  intros Hin Ht. apply str_eqb_eq. apply str_eqb_eq in Ht. revert Ht.
  destruct Hin as [<-|[<-|[<-|[<-|[]]]]]; vm_compute; by intros.
Qed.

(** Programs whose traces have only events of a set *)
Section Rows.
Context {E : Type} `{Host E} `{UnicodeData} `{ErrorText} `{CaseFolding}.
Context (runtimes : list pystr) (startup_timeout_seconds : Z).
Notation prog := (tprogram database event E).


Section Own.
Context (c : Claim).
Notation P := (own_write (cl_deployment_id c) (cl_action c) (cl_container_id c) (cl_container_name c)).
Notation writes := (emits any_state (Forall P)).
Context (Hdeleting : cl_transient c = str "deleting" -> cl_action c = str "delete").

(** The conditional updates of a claim *)
Lemma writes_status status health : status <> str "deleting" ->
  writes (write_where (E := E) (cl_deployment_id c) (claimed c) (fun row => Some (with_status status health row))).
Proof.
  intros Hs. apply only_write_where. intros row now Hm. unfold claimed in Hm. split_bools.
  split; [done|]. exists row. edestruct same_identity_eq as [Hi Hn]; [eassumption|]. split_and!; try done.
Qed.

Lemma stable_status_cases o fallback : stable_container_status o fallback = str "running"
  \/ stable_container_status o fallback = str "exited" \/ stable_container_status o fallback = str "unknown".
Proof.
  unfold stable_container_status. destruct (str_eqb _ _); [by left|]. destruct (str_in _ _); [by right; left|].
  destruct (negb _); [by right; right|]. destruct (str_in fallback _) eqn:Hf; [|by right; right].
  apply str_in_In in Hf as [<-|[<-|[]]]; [by left|by right; left].
Qed.

Lemma stable_status_plain o fallback : stable_container_status o fallback <> str "deleting".
Proof.
  destruct (stable_status_cases o fallback) as [->|[->| ->]]; discriminate.
Qed.

Lemma writes_recover container : writes (recover_action_failure (E := E) c container).
Proof.
  unfold recover_action_failure. apply emits_bind; [traces|intros o]. apply writes_status. apply stable_status_plain.
Qed.
Lemma writes_best_effort container : writes (best_effort_recover (E := E) c container).
Proof. unfold best_effort_recover. traces. apply writes_recover. Qed.
Lemma writes_stale : cl_action c = str "delete" -> writes (delete_stale_deployment (E := E) c).
Proof.
  intros Hd. unfold delete_stale_deployment. traces. apply only_write_where. intros row now Hm. unfold claimed in Hm. split_bools.
  split; [done|]. exists row. edestruct same_identity_eq; [eassumption|]. done.
Qed.

Lemma writes_finalize status health : status <> str "deleting" -> writes (finalize_action (E := E) c status health).
Proof.
  intros Hs. unfold finalize_action. traces. apply only_write_where. intros row now Hm. unfold claimed in Hm. split_bools.
  split; [done|]. exists row. edestruct same_identity_eq; [eassumption|]. split_and!; try done;
    destruct (is_action "delete" (cl_action c)) eqn:Hd; first [by apply str_eqb_eq in Hd|by split].
Qed.

Lemma writes_health attempts endpoint ps pe : forall left, writes (health_loop (E := E) left attempts endpoint ps pe).
Proof. induction left as [|left IH]; cbn [health_loop]; unfold check_control, health_check, report; traces. Qed.

Lemma writes_wait t endpoint ps pe : writes (wait_for_health (E := E) t endpoint ps pe).
Proof. apply writes_health. Qed.

Lemma writes_rebuild contract old : writes (rebuild_from_contract (E := E) startup_timeout_seconds c contract old).
Proof.
  unfold rebuild_from_contract, docker_client. apply emits_bind; [traces|intros _]. apply emits_bind.
  - unfold rebuild_body, adapter_stop, report, startup_logs, adapter_logs. traces; try apply writes_wait.
    apply only_write_where. intros row now Hm. unfold claimed in Hm. split_bools.
    split; [done|]. exists row. edestruct same_identity_eq; [eassumption|]. done.
  - intros [vars r]. unfold remove_owned_container, restore_old, adapter_start. traces; apply writes_best_effort.
Qed.

Lemma writes_failed container e : writes (work_failed (E := E) startup_timeout_seconds c container e).
Proof.
  unfold work_failed, recover_and_raise, report. traces; try apply writes_best_effort; try apply writes_rebuild.
  apply writes_stale. by apply str_eqb_eq.
Qed.

Lemma writes_work : writes (work (E := E) runtimes startup_timeout_seconds c).
Proof.
  unfold work, adapter, docker_client. apply emits_bind; [traces|intros [ct|e]; [|apply writes_failed]].
  apply emits_catch; [|intros e; apply writes_failed].
  unfold work_body, validate_action_container, act, adapter, adapter_uninstall, report, adapter_start, adapter_stop,
    adapter_restart. traces; apply writes_rebuild.
Qed.

Lemma writes_settle ct status : status <> str "deleting" ->
  writes (settle (E := E) startup_timeout_seconds c ct status).
Proof.
  intros Hs. unfold settle, report, startup_logs, adapter_logs.
  apply emits_bind; [traces; first [apply writes_wait|apply writes_recover]|intros health].
  apply emits_bind; [by apply writes_finalize|traces].
Qed.

(** The status that an action on a container ends with *)
Lemma work_status : returns (fun x => match x with Acted _ status => status <> str "deleting" | Finished _ => True end)
  (work (E := E) runtimes startup_timeout_seconds c).
Proof.
  assert (Hact : forall ct, returns (fun status => status <> str "deleting") (act (E := E) c ct)) by (intros ct; unfold act; settled).
  assert (Hfailed : forall ct e, returns (fun x => match x with Acted _ status => status <> str "deleting" | Finished _ => True end)
    (work_failed (E := E) startup_timeout_seconds c ct e)) by (intros ct e; unfold work_failed, recover_and_raise; settled).
  unfold work, work_body.
  repeat first [apply Hfailed | eapply returns_then; [by apply Hact|intros ? ?; by apply returns_ret] | settle_step].
Qed.
End Own.

Lemma writes_claim payload : emits any_state
  (Forall (own_write (py_str (get "deployment_id" payload)) (py_str (get "action" payload))
     (expected "expected_container_id" payload) (expected "expected_container_name" payload)))
  (claim_action (E := E) payload).
Proof.
  unfold claim_action, item, get, get_or_none.
  destruct (dict_get (str "deployment_id") payload) as [id|]; [|traces].
  destruct (dict_get (str "action") payload) as [action|]; [|traces].
  do 2 apply emits_bind_lift.
  destruct (negb (str_in _ _)) eqn:Ha; [traces|]. apply negb_false_iff, str_in_In in Ha.
  destruct (dict_get (str "expected_container_id") payload) as [expected_id|] eqn:Hi; [|traces].
  destruct (dict_get (str "expected_container_name") payload) as [expected_name|] eqn:Hn; [|traces].
  apply emits_bind; [traces|intros d]. destruct (_ !! _) as [row|]; [|traces].
  destruct (negb (_ && _)) eqn:Hs; [traces|]. split_bools. traces.
  apply only_write_where. intros row' now Hm. split_bools. split; [done|]. exists row'.
  edestruct same_identity_eq as [Hi' Hn']; [eassumption|]. cbn [cl_container_id cl_container_name] in *.
  split; [done|]. split; [rewrite Hi'; by eapply same_text_expected|].
  split; [rewrite Hn'; by eapply same_text_expected|]. split; [done|].
  intros Ht.   by apply transient_deleting.
Qed.
End Rows.

(** C12.  A deployment action writes only the row it is asked for, and only while
    that row names the container that the request saw; it never changes the
    settings of a deployment, and the row goes, or is marked as being deleted,
    only in a deletion. *)
Theorem action_writes_own_row {E} `{Host E} `{UnicodeData} `{ErrorText} `{CaseFolding} runtimes timeout payload
    (w : tworld database event E) : exists l,
  trace (snd (action_handler runtimes timeout payload w)) = trace w ++ l
  /\ Forall (own_write (py_str (get "deployment_id" payload)) (py_str (get "action" payload))
       (expected "expected_container_id" payload) (expected "expected_container_name" payload)) l.
Proof.
  set (P := own_write _ _ _ _).
  assert (Hall : emits any_state (Forall P) (action_handler (E := E) runtimes timeout payload)).
  { eapply emits_returns; [apply writes_claim|apply claim_identity|].
    intros c (Hi & Hn & Hd & Ha & Hin). subst P. rewrite <- Hi, <- Hn, <- Hd, <- Ha.
    destruct (_ && _) eqn:Hdel; split_bools.
    - apply emits_bind; [|auto with emits]. apply writes_stale. by apply str_eqb_eq.
    - eapply emits_returns; [by apply writes_work|apply work_status|]. intros [r|ct status] Hs; [auto with emits|].
      by apply writes_settle. }
  destruct (Hall w) as (_ & l & Ht & Hl). by exists l.
Qed.
