(* ===== verification/DeployActionFailures.v ===== *)
(** * What a failed action leaves behind

    Theorems about [action_handler] (DeployActions): where a failed action
    leaves the row of its deployment when nobody else writes to the database
    meanwhile. *)
From Stdlib Require Import ZArith Lia Bool String SpecFloat.
From stdpp Require Import prelude gmap.
From S2P Require Import Prelude PyValue PosixPath PyTime Secrets Traced PyText RuntimeBase DeployHost DeployContract DeployTraces DeployActions DeployActionSafety.
Import Traced.
Open Scope Z_scope.

(** Nobody else writes to the database, and it takes the commits; Docker's
    client is created when it is first used (main.py: _LazyDockerClient). *)
Class QuietHost (E : Type) `{Host E} : Prop := {
  quiet_session : forall d e, fst (ho_session d e) = Ok d;
  quiet_commit : forall e, fst (ho_commit e) = Ok tt;
  quiet_client : forall e, fst (dk_client e) = Ok tt;
}.

(** ** What a settled row says *)

(** The status of the row after a failure, when Docker said [observed] of the
    container and the row had the status [before] before the action *)
Definition settles_as `{UnicodeData} (observed : option pystr) (before after : pystr) : Prop :=
  match lower (default [] observed) with
  | [] => after = if bool_decide (before = str "running" \/ before = str "exited") then before else str "unknown"
  | said => (said = str "running" -> after = str "running")
            /\ (In said [str "dead"; str "exited"; str "stopped"] -> after = str "exited")
            /\ (~ In said [str "running"; str "dead"; str "exited"; str "stopped"] -> after = str "unknown")
  end.

Lemma stable_settles `{UnicodeData} observed before :
  settles_as observed before (stable_container_status observed before).
Proof.
  unfold settles_as, stable_container_status. cbv zeta. destruct (lower (default [] observed)) as [|c said] eqn:Hl.
  - replace (str_eqb [] _) with false by done. replace (str_in [] _) with false by done. cbn [negb str_eqb].
    replace (str_eqb [] []) with true by done. cbn [negb].
    destruct (str_in before _) eqn:Hb; case_bool_decide as Hd; try done.
    + apply str_in_In in Hb. destruct Hb as [<-|[<-|[]]]; exfalso; apply Hd; auto.
    + exfalso. assert (str_in before [str "running"; str "exited"] = true); [|congruence].
      apply str_in_In. destruct Hd as [->| ->]; [by left|by right; left].
  - set (x := c :: said) in *. destruct (str_eqb x (str "running")) eqn:Hr.
    { apply str_eqb_eq in Hr. rewrite Hr. split_and!; [done| |].
      - intros [Hx|[Hx|[Hx|[]]]]; discriminate Hx.
      - intros Hn. exfalso. apply Hn. by left. }
    destruct (str_in x _) eqn:Hd.
    { apply str_in_In in Hd. split_and!; [|done|].
      - intros Hx. rewrite Hx in Hr. by rewrite (proj2 (str_eqb_eq _ _) eq_refl) in Hr.
      - intros Hn. exfalso. apply Hn. by right. }
    replace (str_eqb x []) with false by done. cbn [negb]. split_and!; [| |done].
    + intros Hx. rewrite Hx in Hr. by rewrite (proj2 (str_eqb_eq _ _) eq_refl) in Hr.
    + intros Hx. apply str_in_In in Hx. congruence.
Qed.

(** The container that Docker gave for an identifier, as it was then or as it
    was when it was loaded again *)
Inductive object_of (identifier : pystr) (l : list event) : Container -> Prop :=
  | object_got ct : In (EGet identifier (Ok ct)) l -> object_of identifier l ct
  | object_again ct ct' : object_of identifier l ct -> In (EReload ct (Ok ct')) l -> object_of identifier l ct'.

(** No container was there to ask: Docker gave none, or the container was being
    created again *)
Definition rebuilding (l : list event) : Prop :=
  exists name, In (EReport (Some (str "Rebuilding drifted container " ++ name))) l.
Definition unseen (l : list event) : Prop := (forall i ct, ~ In (EGet i (Ok ct)) l) \/ rebuilding l.

(** What Docker says of the container at the end of [l], when it is asked; a
    container that it does not find, or cannot load, has no status. *)
Definition seen_in (identifier : pystr) (l : list event) (observed : option pystr) : Prop :=
  (exists l' ct r, l = l' ++ [EReload ct r] /\ object_of identifier l' ct
     /\ observed = match r with Ok ct' => Some (ct_status ct') | Raise _ => None end)
  \/ (observed = None /\ unseen l).

Definition is_report (x : event) : Prop := exists message, x = EReport message.

(** The handler has started the container and waits for the runtime. *)
Definition waiting (l : list event) : Prop := exists l1 i k l2,
  l = l1 ++ ECall i k (Ok tt) :: EReport (Some (str "Waiting for runtime health")) :: l2
  /\ (k = CStart \/ k = CRestart 30) /\ Forall is_report l2.

Lemma object_of_app identifier l k ct : object_of identifier l ct -> object_of identifier (l ++ k) ct.
Proof.
  induction 1; [apply object_got|eapply object_again; [eassumption|]]; apply in_app_iff; by left.
Qed.

Section Quiet.
Context {E : Type} `{QuietHost E} `{UnicodeData} `{ErrorText} `{CaseFolding}.
Context (runtimes : list pystr) (startup_timeout_seconds : Z).
Notation world := (tworld database event E).
Notation prog := (tprogram database event E).
Notation calm := (emits eq (fun _ : list event => True)).

#[local] Instance any_trace : TraceSet (fun _ : list event => True).
Proof. by split. Qed.

Lemma calm_session : calm (session (E := E)).
Proof.
  intros w. unfold session, set_database, wp, get_state, ask_result, update, mbind, program_bind. cbn.
  pose proof (quiet_session (state w) (env w)) as Hs. destruct (ho_session (state w) (env w)) as [r e]. cbn in *.
  subst r. cbn. split; [done|]. exists []. by rewrite app_nil_r.
Qed.
Lemma calm_traced {A} (m : prog A) : (forall w, state (snd (m w)) = state w /\ exists l, trace (snd (m w)) = trace w ++ l) -> calm m.
Proof. intros Hm w. destruct (Hm w) as (Hs & l & Hl). split; [done|]. by exists l. Qed.
Lemma calm_reload c : calm (reload (E := E) c).
Proof. apply calm_traced. intros w. unfold reload. destruct (dk_reload c (env w)). eauto. Qed.
Lemma calm_call c k : calm (call (E := E) c k).
Proof. apply calm_traced. intros w. unfold call. destruct (dk_call c k (env w)). eauto. Qed.
Lemma calm_run o : calm (run (E := E) o).
Proof. apply calm_traced. intros w. unfold run. destruct (dk_run o (env w)). eauto. Qed.
Lemma calm_get i : calm (get_container (E := E) i).
Proof. apply calm_traced. intros w. unfold get_container. destruct (dk_get i (env w)). eauto. Qed.
Lemma calm_log x : calm (log (S := database) (E := E) x).
Proof. by apply emits_log. Qed.

Ltac calm := repeat first
  [ solve [eauto 3 with emits nocore]
  | apply calm_session | apply calm_reload | apply calm_call | apply calm_run | apply calm_get | apply calm_log
  | lazymatch goal with
    | |- emits _ _ (mbind _ _) => apply emits_bind; [|intros ?]
    | |- emits _ _ (catch _ _ _) => apply emits_catch; [|intros ?]
    | |- emits _ _ (attempt _ _) => apply emits_attempt
    | |- emits _ _ (if ?b then _ else _) => destruct b
    | |- emits _ _ (match ?x with _ => _ end) => destruct x
    end ].

Lemma calm_report p m : calm (report (E := E) p m).
Proof. unfold report. calm. Qed.
Lemma calm_health attempts endpoint ps pe : forall left, calm (health_loop (E := E) left attempts endpoint ps pe).
Proof.
  induction left as [|left IH]; cbn [health_loop]; unfold check_control, health_check; calm. apply calm_report.
Qed.
Lemma calm_wait t endpoint ps pe : calm (wait_for_health (E := E) t endpoint ps pe).
Proof. apply calm_health. Qed.
Lemma calm_logs ct : calm (startup_logs (E := E) ct).
Proof. unfold startup_logs, adapter_logs. calm. Qed.
Lemma calm_remove ct : calm (remove_owned_container (E := E) ct).
Proof. unfold remove_owned_container. calm. Qed.
Lemma calm_restore c ct b : calm (restore_old (E := E) c ct b).
Proof. unfold restore_old, adapter_start. calm. Qed.
Lemma calm_validate ct i n : calm (validate_action_container (E := E) ct i n).
Proof. unfold validate_action_container. calm. Qed.
Lemma calm_adapter r : calm (adapter (E := E) runtimes r).
Proof. unfold adapter. calm. Qed.

(** A conditional update sees and writes the rows as they are. *)
Lemma write_where_quiet id matches values w : exists e now,
  write_where (E := E) id matches values w =
  match deployments (state w) !! id with
  | Some row =>
      if matches row then
        let row' := touched now <$> values row in
        (Ok true, mkWorld (put_deployment id row' (state w)) e (trace w ++ [EWrite id (Some row) row']))
      else (Ok false, mkWorld (state w) e (trace w))
  | None => (Ok false, mkWorld (state w) e (trace w))
  end.
Proof.
  unfold write_where, session, set_database, commit, get_state, ask_result, ask, update, log, mbind, program_bind. cbn.
  pose proof (quiet_session (state w) (env w)) as Hs. destruct (ho_session (state w) (env w)) as [r e]. cbn in *.
  subst r. cbn. destruct (deployments (state w) !! id) as [row|]; [|by exists e, (utc 0)].
  destruct (matches row); [|by exists e, (utc 0)]. cbn. destruct (ho_now e) as [now e1]. cbn.
  pose proof (quiet_commit e1) as Hc. destruct (ho_commit e1) as [r e2]. cbn in *. subst r. by exists e2, now.
Qed.

Lemma lookup_put id row (d : database) : deployments (put_deployment id row d) !! id = row.
Proof. destruct row; cbn; [apply lookup_insert_eq|apply lookup_delete_eq]. Qed.

(** The trace before the handler, the row's identity in the claim *)
Context (t0 : list event).
Definition since (P : list event -> Prop) (w : world) : Prop := exists l, trace w = t0 ++ l /\ P l.

(** What stays true while the rows do not change and the trace grows *)
Class Stable (P : world -> Prop) : Prop := stable : forall w w',
  state w' = state w -> (exists l, trace w' = trace w ++ l) -> P w -> P w'.
Lemma calm_keeps {A} P `{Stable P} (m : prog A) : calm m -> triple P m (fun _ => P) (fun _ => P).
Proof. intros Hm. apply quietly_triple; [by apply quietly_emits|]. apply stable. Qed.

#[local] Instance stable_and P Q `{Stable P} `{Stable Q} : Stable (fun w => P w /\ Q w).
Proof. intros w w' Hs Hl [HP HQ]. split; [by apply (stable (P := P) w)|by apply (stable (P := Q) w)]. Qed.
#[local] Instance stable_or P Q `{Stable P} `{Stable Q} : Stable (fun w => P w \/ Q w).
Proof. intros w w' Hs Hl [HP|HQ]; [left; by apply (stable (P := P) w)|right; by apply (stable (P := Q) w)]. Qed.
Lemma stable_since (P : list event -> Prop) : (forall l k, P l -> P (l ++ k)) -> Stable (since P).
Proof.
  intros HP w w' _ [k Hk] (l & Hl & Hp). exists (l ++ k). rewrite Hk, Hl, app_assoc. split; [done|by apply HP].
Qed.

(** The row of a claim, while it is claimed and once a failure has settled it *)
Definition claimed_row (c : Claim) (w : world) : Prop :=
  (exists row, deployments (state w) !! cl_deployment_id c = Some row /\ claimed c row = true /\ dp_health row = str "unknown")
  /\ since (fun _ => True) w.
Definition container_of (c : Claim) : pystr := default [] (cl_container_id c).
(** The trace holds the write that settled a row, and before it what Docker said. *)
Definition settling (id identifier before : pystr) (row : Deployment) (l : list event) : Prop :=
  exists l1 row0 l2 observed, l = l1 ++ EWrite id (Some row0) (Some row) :: l2
    /\ seen_in identifier l1 observed /\ settles_as observed before (dp_status row).
Definition settled_row (c : Claim) (w : world) : Prop := exists row,
  deployments (state w) !! cl_deployment_id c = Some row /\ dp_health row = str "unhealthy"
  /\ since (settling (cl_deployment_id c) (container_of c) (cl_original_status c) row) w.

(** What is known of the container that a handler sees: the object is one of
    the recorded container; without one, there was none to ask, or one is being
    made. *)
Definition known (c : Claim) (o : option Container) (w : world) : Prop :=
  since (fun l => match o with Some ct => object_of (container_of c) l ct | None => unseen l end) w.
Definition making (c : Claim) (o : option Container) (w : world) : Prop :=
  since (fun l => match o with Some ct => object_of (container_of c) l ct | None => rebuilding l end) w.
Definition object_known (c : Claim) (o : option Container) (w : world) : Prop :=
  match o with Some ct => known c (Some ct) w | None => True end.
Definition held_with (K : world -> Prop) (c : Claim) (w : world) : Prop := (claimed_row c w /\ K w) \/ settled_row c w.
Notation held c o := (held_with (known c o) c).

#[local] Instance stable_claimed c : Stable (claimed_row c).
Proof.
  intros w w' Hs Hl [Hw Ht]. split; [by rewrite Hs|]. by apply (stable_since (fun _ => True) (fun _ _ _ => I) w).
Qed.
Lemma settling_app id i b row l k : settling id i b row l -> settling id i b row (l ++ k).
Proof.
  intros (l1 & row0 & l2 & o & -> & Hs). exists l1, row0, (l2 ++ k), o. by rewrite <- app_assoc.
Qed.
#[local] Instance stable_settled c : Stable (settled_row c).
Proof.
  intros w w' Hs Hl (row & Hr & Hh & Ht). exists row. rewrite Hs. split; [done|]. split; [done|].
  eapply stable_since; [apply settling_app|exact Hs|exact Hl|exact Ht].
Qed.
#[local] Instance stable_known c ct : Stable (known c (Some ct)).
Proof. apply stable_since. intros l k. apply object_of_app. Qed.
#[local] Instance stable_making c o : Stable (making c o).
Proof.
  apply stable_since. intros l k. destruct o; [apply object_of_app|]. intros [m Hm]. exists m. apply in_app_iff. by left.
Qed.
#[local] Instance stable_object c o : Stable (object_known c o).
Proof. destruct o; [apply stable_known|by intros w]. Qed.
#[local] Instance stable_held K c `{Stable K} : Stable (held_with K c).
Proof. unfold held_with. apply _. Qed.

Lemma making_known c o w : making c o w -> known c o w.
Proof. intros (l & Hl & Hm). exists l. split; [done|]. destruct o; [done|by right]. Qed.
Lemma held_mono (K K' : world -> Prop) c w : (K w -> K' w) -> held_with K c w -> held_with K' c w.
Proof. intros HK [[Hw Hk]|Hw]; [left; auto|by right]. Qed.


(** *** The writes of a claim *)

Lemma settled_not_claimed c row : In (dp_status row) [str "running"; str "exited"; str "unknown"] -> claimed c row = false.
Proof.
  intros Hin. apply andb_false_iff. right. unfold cl_transient, transient_of.
  destruct (starts (cl_action c)); [|destruct (is_action "stop" (cl_action c))];
    destruct Hin as [<-|[<-|[<-|[]]]]; reflexivity.
Qed.

Lemma settles_stable o before after : settles_as o before after -> In after [str "running"; str "exited"; str "unknown"].
Proof.
  unfold settles_as. destruct (lower _) as [|x said]; [intros ->; case_bool_decide as Hd; cbn; naive_solver|].
  intros (Hr & He & Hu). destruct (str_eqb (x :: said) (str "running")) eqn:Heq; [apply str_eqb_eq in Heq; left; symmetry; by apply Hr|]. apply not_true_iff_false in Heq. rewrite str_eqb_eq in Heq.
  destruct (str_in (x :: said) [str "dead"; str "exited"; str "stopped"]) eqn:Hin;
    [apply str_in_In in Hin|apply not_true_iff_false in Hin; rewrite str_in_In in Hin].
  - right; left. symmetry. by apply He.
  - do 2 right; left. symmetry. apply Hu. intros [Hi|Hi]; [by symmetry in Hi; apply Heq|by apply Hin].
Qed.

Lemma settled_unclaimed c w : settled_row c w -> exists row,
  deployments (state w) !! cl_deployment_id c = Some row /\ claimed c row = false.
Proof.
  intros (row & Hr & _ & l & _ & l1 & row0 & l2 & o & _ & _ & Hs). exists row. split; [done|].
  by eapply settled_not_claimed, settles_stable.
Qed.

Lemma write_claimed c matches values w : claimed_row c w ->
  (forall row, claimed c row = true -> dp_health row = str "unknown" -> matches row = true) ->
  wp (write_where (E := E) (cl_deployment_id c) matches values) (fun r w' => r = Ok true /\ exists row now,
    claimed c row = true /\ deployments (state w') !! cl_deployment_id c = touched now <$> values row
    /\ trace w' = trace w ++ [EWrite (cl_deployment_id c) (Some row) (touched now <$> values row)]) w.
Proof.
  intros [(row & Hrow & Hc & Hh) _] Hm. unfold wp.
  destruct (write_where_quiet (cl_deployment_id c) matches values w) as (e & now & ->). rewrite Hrow, (Hm row) by done.
  split; [done|]. exists row, now. cbn [state trace snd]. by rewrite lookup_put.
Qed.

Lemma write_settled c values w : settled_row c w ->
  wp (write_where (E := E) (cl_deployment_id c) (claimed c) values) (fun r w' => r = Ok false /\ settled_row c w') w.
Proof.
  intros Hw. destruct (settled_unclaimed c w Hw) as (row & Hrow & Hc). unfold wp.
  destruct (write_where_quiet (cl_deployment_id c) (claimed c) values w) as (e & now & ->). rewrite Hrow, Hc.
  split; [done|]. apply (stable w); [done| |done]. exists []. cbn. by rewrite app_nil_r.
Qed.

(** A write that the claim guards: it is made unless a failure has settled the row. *)
Lemma write_held c K values : triple (held_with K c) (write_where (E := E) (cl_deployment_id c) (claimed c) values)
  (fun b w => b = false -> settled_row c w) (fun _ _ => False).
Proof.
  intros w [[Hw _]|Hw].
  - eapply wp_mono; [|by apply write_claimed]. intros r w' [-> _]. done.
  - eapply wp_mono; [|by apply write_settled]. by intros r w' [-> Hs].
Qed.

(** *** Recovery *)

Lemma recover_settles c o : triple (held c o) (recover_action_failure (E := E) c o)
  (fun _ => settled_row c) (fun _ _ => False).
Proof.
  unfold recover_action_failure.
  eapply (triple_bind _ _ _ (fun status => held_with (since (fun l => seen_in (container_of c) l status)) c)).
  - destruct o as [ct|].
    2:{ apply triple_ret. intros w. apply held_mono. intros (l & Hl & Hu). exists l. split; [done|]. by right. }
    intros w Hw. unfold wp, catch, reload, mbind, program_bind. destruct (dk_reload ct (env w)) as [r e] eqn:Hr.
    assert (forall status, status = match r with Ok ct' => Some (ct_status ct') | Raise _ => None end ->
      held_with (since (fun l => seen_in (container_of c) l status)) c
        (mkWorld (state w) e (trace w ++ [EReload ct r]))) as Hh.
    { intros status ->. destruct Hw as [[Hw (l & Hl & Ho)]|Hw].
      - left. split; [by apply (stable w); [done|eexists|]|]. exists (l ++ [EReload ct r]). cbn. rewrite Hl, app_assoc.
        split; [done|]. left. by exists l, ct, r.
      - right. by apply (stable w); [done|eexists|]. }
    destruct r as [ct'|x]; by apply Hh.
  - intros status w [[Hw Hk]|Hw].
    + eapply wp_mono; [|by apply write_claimed]. intros r w' (-> & row & now & _ & Hl & Ht). eexists. split; [exact Hl|].
      split; [done|]. destruct Hk as (l & Hl' & Hs). rewrite Hl', <- app_assoc in Ht. eexists. split; [exact Ht|].
      exists l, row, [], status. split; [done|]. split; [done|]. apply stable_settles.
    + eapply wp_mono; [|by apply write_settled]. by intros r w' [-> Hs].
Qed.

Lemma best_effort_settles c o : triple (held c o) (best_effort_recover (E := E) c o)
  (fun _ => settled_row c) (fun _ _ => False).
Proof.
  unfold best_effort_recover. apply (triple_catch _ _ _ _ _ (fun _ _ => False)); [|by intros e _ w []|done].
  eapply triple_bind; [apply recover_settles|]. intros b. by apply triple_ret.
Qed.

Lemma stale_deletes c K : triple (held_with K c) (delete_stale_deployment (E := E) c) (fun _ _ => True) (fun _ => settled_row c).
Proof.
  unfold delete_stale_deployment. eapply triple_bind; [eapply triple_mono; [apply write_held|done|done|by intros]|].
  intros [|]; [by apply triple_ret|]. apply triple_raise. auto.
Qed.

Lemma finalize_writes c status health : triple (claimed_row c) (finalize_action (E := E) c status health)
  (fun _ _ => True) (fun _ _ => False).
Proof.
  unfold finalize_action. eapply (triple_bind _ _ _ (fun b _ => b = true)).
  - intros w Hw. eapply wp_mono; [|by apply write_claimed]. by intros r w' [-> _].
  - by intros b w ->.
Qed.

(** *** The container that is loaded again *)

Lemma reload_known P c ct `{Stable P} : triple (fun w => P w /\ known c (Some ct) w) (reload (E := E) ct)
  (fun ct' w => P w /\ known c (Some ct') w) (fun _ w => P w /\ known c (Some ct) w).
Proof.
  intros w [Hw Hk]. unfold wp, reload. destruct (dk_reload ct (env w)) as [r e].
  assert (HP : P (mkWorld (state w) e (trace w ++ [EReload ct r]))) by (apply (stable w); [done|by eexists|done]).
  assert (Hk' : known c (Some ct) (mkWorld (state w) e (trace w ++ [EReload ct r])))
    by (apply (stable w); [done|by eexists|done]).
  destruct r as [ct'|x]; cbn [fst snd]; [|done]. split; [done|].
  destruct Hk as (l & Hl & Ho). exists (l ++ [EReload ct (Ok ct')]). cbn. rewrite Hl, app_assoc. split; [done|].
  eapply object_again; [by apply object_of_app|]. apply in_app_iff. right. by left.
Qed.

Lemma held_split (K : world -> Prop) c {A} (m : prog A) Q R :
  triple (fun w => claimed_row c w /\ K w) m Q R -> triple (settled_row c) m Q R -> triple (held_with K c) m Q R.
Proof. intros H1' H2' w [Hw|Hw]; auto. Qed.

(** *** A rebuild *)

Lemma moved_keeps c old b : triple (held_with (object_known c old) c)
  (match old with
   | Some ct =>
       (if b : bool then adapter_stop (E := E) ct else mret tt : prog unit);;
       call ct (CRename (backup_container_name (cl_deployment_id c)));;
       ct' ← reload ct; mret (Some ct')
   | None => mret None
   end) (fun o => held_with (object_known c o) c) (fun _ w => held_with (object_known c old) c w /\ old <> None).
Proof.
  destruct old as [ct|]; [|by apply triple_ret].
  assert (Hc : forall A (m : prog A), calm m -> triple (held_with (object_known c (Some ct)) c) m
    (fun _ => held_with (object_known c (Some ct)) c) (fun _ w => held_with (object_known c (Some ct)) c w /\ Some ct <> None)).
  { intros A m Hm. eapply triple_mono; [by apply (calm_keeps (held_with (object_known c (Some ct)) c) m Hm)|done|done|by intros e w Hw]. }
  eapply triple_bind; [apply Hc; unfold adapter_stop; calm|]. intros u.
  eapply triple_bind; [apply Hc; calm|]. intros u'.
  eapply (triple_bind _ _ _ (fun ct' => held_with (object_known c (Some ct')) c)); [|intros ct'; by apply triple_ret].
  apply held_split.
  - eapply triple_mono; [apply (reload_known (claimed_row c) c ct)|done| |]; [by intros ct' w Hw; left|].
    intros e w Hw. split; [by left|done].
  - eapply triple_mono; [apply (calm_keeps (settled_row c)), calm_reload|done| |]; [by intros ct' w Hw; right|].
    intros e w Hw. split; [by right|done].
Qed.

Lemma start_making {A} c o name (m : prog A) : calm m ->
  triple (held_with (object_known c o) c)
    (report (E := E) (Some (NInt 20)) (Some (str "Rebuilding drifted container " ++ name));; m)
    (fun _ => held_with (making c o) c) (fun _ => held_with (making c o) c).
Proof.
  intros Hm. eapply (triple_bind _ _ _ (fun _ => held_with (making c o) c)).
  2:{ intros u. apply calm_keeps; [apply _|done]. }
  assert (Hl : triple (held_with (object_known c o) c) (log (E := E) (EReport (Some (str "Rebuilding drifted container " ++ name))))
    (fun _ => held_with (making c o) c) (fun _ => held_with (making c o) c)).
  { intros w Hw. unfold wp, log. cbn [fst snd]. set (w' := mkWorld _ _ _).
    assert (exists l, trace w' = trace w ++ l) as Hg by by eexists.
    destruct Hw as [[Hw Hk]|Hw]; [left|right; by apply (stable w)]. split; [by apply (stable w)|].
    destruct o as [ct|]; [by apply (stable (P := known c (Some ct)) w)|].
    destruct Hw as [_ (l & Hl & _)]. exists (l ++ [EReport (Some (str "Rebuilding drifted container " ++ name))]).
    subst w'. cbn [trace]. rewrite Hl, app_assoc. split; [done|]. exists name. apply in_app_iff. right. by left. }
  unfold report. eapply triple_bind; [apply Hl|]. intros u. apply calm_keeps; [apply _|]. calm.
Qed.

Lemma rebuild_body_holds c contract old b : triple (held_with (object_known c old) c)
  (rebuild_body (E := E) startup_timeout_seconds c contract old b)
  (fun x w => match snd x with Ok _ => True | Raise _ => held_with (making c (rb_old (fst x))) c w end) (fun _ _ => False).
Proof.
  unfold rebuild_body. eapply triple_bind; [apply triple_attempt, moved_keeps|].
  intros [old'|e].
  2:{ apply triple_ret. intros w [Hw Hn]. cbn. destruct old as [ct|]; [exact Hw|done]. }
  eapply triple_bind; [apply triple_attempt, start_making; calm; apply calm_run|].
  intros [replacement|e]; [|by apply triple_ret].
  eapply (triple_bind _ _ _ (fun x w => match x with inl _ => True | inr _ => held_with (making c old') c w end));
    [|by intros [u|e]; apply triple_ret].
  eapply triple_mono;
    [eapply (triple_attempt _ _ (fun _ _ => True) (fun _ => held_with (making c old') c) (fun _ _ => False))|done|by intros [u|e] w'|done].
  eapply triple_bind; [apply calm_keeps; [apply _|apply calm_wait]|]. intros healthy.
  eapply triple_bind.
  { apply calm_keeps; [apply _|]. destruct healthy; [calm|]. calm. apply calm_logs. }
  intros ?. eapply triple_bind; [apply calm_keeps; [apply _|apply calm_reload]|]. intros replacement'.
  eapply triple_bind; [eapply triple_mono; [apply write_held|done|done|by intros]|].
  intros [|]; [by apply triple_ret|]. apply triple_raise. intros w Hw. right. auto.
Qed.

Lemma rebuild_settles c contract old : triple (held_with (object_known c old) c)
  (rebuild_from_contract (E := E) startup_timeout_seconds c contract old) (fun _ _ => True) (fun _ => settled_row c).
Proof.
  unfold rebuild_from_contract, docker_client. eapply (triple_bind _ _ _ (fun _ => held_with (object_known c old) c)).
  { intros w Hw. unfold wp, ask_result. pose proof (quiet_client (env w)) as Hq.
    destruct (dk_client (env w)) as [r e]. cbn in Hq. subst r. cbn [fst snd].
    apply (stable w); [done|exists []; by rewrite app_nil_r|done]. }
  intros _. eapply triple_bind; [eapply triple_mono; [apply rebuild_body_holds|done|by intros|by intros]|].
  intros [vars [u|e]]; cbn [snd fst].
  - eapply (triple_bind _ _ _ (fun _ _ => True)); [|by intros; apply triple_ret].
    intros w _. destruct (rb_old vars) as [ct|]; [|done]. unfold wp, remove_owned_container, catch.
    destruct (call ct (CRemove true) w) as [[x|x] w']; done.
  - set (K := held_with (making c (rb_old vars)) c) in *.
    assert (Hn : forall (m : prog unit), calm m -> (forall w, fst (m w) = Ok tt) ->
      triple K m (fun _ => K) (fun _ => settled_row c)).
    { intros m Hm Hok w Hw. pose proof (calm_keeps _ m Hm w Hw) as Hk. unfold wp in *. rewrite Hok in Hk. by rewrite Hok. }
    assert (Hcatch : forall (m : prog unit) w, fst (catch m anything (fun _ => mret tt) w) = Ok tt).
    { intros m w. unfold catch. by destruct (m w) as [[[]|x] w']. }
    eapply (triple_bind _ _ _ (fun _ => K)).
    { apply Hn; [destruct (rb_replacement vars); [apply calm_remove|calm]|]. intros w.
      destruct (rb_replacement vars); [apply Hcatch|done]. }
    intros _. eapply (triple_bind _ _ _ (fun _ => K)).
    { apply Hn; [destruct (rb_old vars); [apply calm_restore|calm]|]. intros w.
      destruct (rb_old vars); [apply Hcatch|done]. }
    intros _. eapply (triple_bind _ _ _ (fun _ => settled_row c)).
    { eapply triple_mono; [apply best_effort_settles|intros w; apply held_mono, making_known|by intros|by intros]. }
    intros o. by apply triple_raise.
Qed.

(** *** The work on the container *)

(** A start or a restart was the last thing that happened. *)
Definition just_started (l : list event) : Prop := exists l1 i k, l = l1 ++ [ECall i k (Ok tt)] /\ (k = CStart \/ k = CRestart 30).
Definition running_claim (c : Claim) (w : world) : Prop :=
  claimed_row c w /\ (starts (cl_action c) = true -> since just_started w).

Lemma call_logged c ct k : triple (claimed_row c) (call (E := E) ct k)
  (fun _ w => claimed_row c w /\ since (fun l => exists l1, l = l1 ++ [ECall (ct_id ct) k (Ok tt)]) w) (fun _ => claimed_row c).
Proof.
  intros w Hw. pose proof (calm_keeps (claimed_row c) _ (calm_call ct k) w Hw) as Hk.
  unfold wp, call in *. destruct (dk_call ct k (env w)) as [[[]|e] e']; cbn in *; [|exact Hk].
  split; [exact Hk|]. destruct Hw as [_ (l & Hl & _)]. exists (l ++ [ECall (ct_id ct) k (Ok tt)]). cbn.
  rewrite Hl, app_assoc. split; [done|by eexists].
Qed.

Lemma act_holds c ct : triple (claimed_row c) (act (E := E) c ct) (fun _ => running_claim c) (fun _ => claimed_row c).
Proof.
  assert (Hcall : forall k (s : pystr), k = CStart \/ k = CRestart 30 ->
    triple (claimed_row c) ((call ct k;; mret s) : prog pystr) (fun _ => running_claim c) (fun _ => claimed_row c)).
  { intros k s Hk. eapply triple_bind; [apply call_logged|]. intros u. apply triple_ret. intros w [Hw (l & Hl & l1 & ->)].
    split; [done|]. intros _. eexists. split; [exact Hl|]. by exists l1, (ct_id ct), k. }
  unfold act. destruct (is_action "start" (cl_action c)) eqn:Hs; [apply Hcall; by left|].
  destruct (is_action "stop" (cl_action c)) eqn:Hp.
  - eapply triple_bind; [apply (calm_keeps (claimed_row c)); unfold adapter_stop; calm|]. intros u. apply triple_ret. intros w Hw.
    split; [done|]. unfold starts. rewrite Hs. intros Hr. apply str_eqb_eq in Hp, Hr. rewrite Hp in Hr. discriminate.
  - destruct (is_action "restart" (cl_action c)) eqn:Hr; [apply Hcall; by right|].
    eapply triple_bind; [apply (calm_keeps (claimed_row c)); unfold adapter_uninstall, adapter_stop; calm|]. intros u. apply triple_ret.
    intros w Hw. split; [done|]. unfold starts. by rewrite Hs, Hr.
Qed.

(** [act] does not forget the container. *)
Lemma act_calm c ct : calm (act (E := E) c ct).
Proof. unfold act, adapter_start, adapter_stop, adapter_restart, adapter_uninstall, adapter_stop. calm. Qed.

Lemma triple_and {A} P P' (m : prog A) Q Q' (R R' : exn -> world -> Prop) : triple P m Q R -> triple P' m Q' R' ->
  triple (fun w => P w /\ P' w) m (fun a w => Q a w /\ Q' a w) (fun e w => R e w /\ R' e w).
Proof.
  intros H1' H2' w [Hw Hw']. specialize (H1' w Hw). specialize (H2' w Hw'). unfold wp in *. by destruct (m w) as [[a|e] w'].
Qed.

Definition worked_row (c : Claim) (x : Worked) (w : world) : Prop :=
  match x with Finished _ => True | Acted ct _ => running_claim c w /\ known c (Some ct) w end.

Lemma failed_settles c o e : triple (held c o) (work_failed (E := E) startup_timeout_seconds c o e)
  (worked_row c) (fun _ => settled_row c).
Proof.
  assert (Hr : triple (held c o) (recover_and_raise (E := E) c o e) (worked_row c) (fun _ => settled_row c)).
  { unfold recover_and_raise. eapply triple_bind; [eapply triple_mono; [apply best_effort_settles|done|by intros|by intros]|].
    intros b. eapply (triple_bind _ _ _ (fun _ => settled_row c)); [|intros u; by apply triple_raise].
    apply calm_keeps; [apply _|]. destruct b as [[|]|]; [calm| |calm]. apply emits_catch; [apply calm_report|intros ?; calm]. }
  unfold work_failed. destruct (is_NotFound e); [|exact Hr]. destruct (cl_contract c) as [contract|].
  - eapply triple_bind; [eapply triple_mono; [apply rebuild_settles| |done|done]|intros r; by apply triple_ret].
    intros w. by apply held_mono.
  - destruct (is_action "delete" (cl_action c)); [|exact Hr].
    eapply triple_bind; [apply stale_deletes|]. intros r. by apply triple_ret.
Qed.

(** The container that the handler asks for *)
Lemma found_known c : triple (fun w => claimed_row c w /\ since (fun l => forall i ct, ~ In (EGet i (Ok ct)) l) w)
  (attempt ((if starts (cl_action c) then adapter runtimes (cl_runtime c) else mret tt : prog unit);;
     docker_client;; get_container (E := E) (default [] (cl_container_id c))) anything)
  (fun x w => claimed_row c w /\ match x with inl ct => known c (Some ct) w | inr _ => known c None w end) (fun _ _ => False).
Proof.
  set (none := since (fun l => forall i ct, ~ In (EGet i (Ok ct)) l)).
  eapply triple_mono; [eapply (triple_attempt (fun w => claimed_row c w /\ none w) _
    (fun ct w => claimed_row c w /\ known c (Some ct) w) (fun _ w => claimed_row c w /\ none w) (fun _ _ => False))|done| |done].
  2:{ intros [ct|e] w [Hw Hn]; [done|]. split; [done|]. destruct Hn as (l & Hl & Hn). exists l. split; [done|by left]. }
  assert (Hm : forall A (m : prog A), emits eq (fun l => l = []) m ->
    triple (fun w => claimed_row c w /\ none w) m (fun _ w => claimed_row c w /\ none w) (fun _ w => claimed_row c w /\ none w)).
  { intros A m Hm w [Hw Hn]. destruct (Hm w) as (Hs & l & Hl & ->). unfold wp. rewrite app_nil_r in Hl.
    destruct (m w) as [r w']. cbn [fst snd] in *. enough (claimed_row c w' /\ none w') by by destruct r.
    split; [apply (stable w); [done|exists []; by rewrite app_nil_r|done]|].
    destruct Hn as (l & Hl' & Hn). exists l. by rewrite Hl. }
  assert (TraceSet (fun l : list event => l = [])) by (split; [done|by intros ? ? -> ->]).
  apply (triple_bind _ _ _ (fun _ w => claimed_row c w /\ none w)).
  { apply Hm. unfold adapter. destruct (starts _); [destruct (str_in _ _)|]; first [apply emits_ret|apply emits_raise]. }
  intros _. apply (triple_bind _ _ _ (fun _ w => claimed_row c w /\ none w)).
  { apply Hm. unfold docker_client. by apply emits_ask_result. }
  intros _.
    intros w [Hw Hn]. unfold wp, get_container. destruct (dk_get _ (env w)) as [r e]. cbn [fst snd].
    assert (Hw' : forall x, claimed_row c (mkWorld (state w) e (trace w ++ [x])))
      by (intros x; apply (stable w); [done|by eexists|done]).
    destruct Hn as (l & Hl & Hn). destruct r as [ct|x]; (split; [by apply Hw'|]); eexists; cbn; rewrite Hl, <- app_assoc;
      (split; [reflexivity|]).
    - apply object_got. apply in_app_iff. right. by left.
    - intros i ct [Hi|[Hi|[]]]%in_app_iff; [by eapply Hn|done].
Qed.

Lemma work_settles c : triple (fun w => claimed_row c w /\ since (fun l => forall i ct, ~ In (EGet i (Ok ct)) l) w)
  (work (E := E) runtimes startup_timeout_seconds c) (worked_row c) (fun _ => settled_row c).
Proof.
  unfold work. eapply triple_bind; [eapply triple_mono; [apply found_known|done|done|by intros]|].
  intros [ct|e]; [|eapply triple_mono; [apply failed_settles| |done|done]; by intros w Hw; left].
  apply (triple_catch _ _ _ _ _ (fun _ => held c (Some ct))); [|intros e _; apply failed_settles|done].
  set (K := fun w => claimed_row c w /\ known c (Some ct) w).
  unfold work_body. eapply (triple_bind _ _ _ (fun ct' w => K w /\ known c (Some ct') w)).
  { unfold validate_action_container. eapply (triple_bind _ _ _ (fun ct' w => K w /\ known c (Some ct') w)).
    - eapply triple_mono; [apply (reload_known K c ct)|intros w Hw; split; [done|apply Hw]|done|].
      intros e w [Hw _]. by left.
    - intros ct'. assert (Hc : forall A (m : prog A), calm m -> triple (fun w => K w /\ known c (Some ct') w) m
        (fun _ w => K w /\ known c (Some ct') w) (fun _ => held c (Some ct))).
      { intros A m Hm. eapply triple_mono; [apply (calm_keeps (fun w => K w /\ known c (Some ct') w) m Hm)|done|done|].
        intros e w [Hw _]. by left. }
      destruct (_ || _); [apply triple_raise; intros w [Hw _]; by left|].
      eapply triple_bind; [apply Hc; calm|]. intros h. eapply triple_bind; [apply Hc; apply calm_log|]. intros u.
      destruct (_ || _); [apply triple_raise; intros w [Hw _]; by left|]. by apply triple_ret. }
  intros ct'. set (J := fun w => K w /\ known c (Some ct') w).
  assert (Hc : forall A (m : prog A), calm m -> triple J m (fun _ => J) (fun _ => held c (Some ct))).
  { intros A m Hm. eapply triple_mono; [apply (calm_keeps J m Hm)|done|done|]. intros e w [Hw _]. by left. }
  eapply triple_bind; [apply Hc; destruct (cl_contract c); calm|]. intros matches.
  assert (Hgo : triple J
    ((if starts (cl_action c) then mret tt else adapter runtimes (cl_runtime c) : prog unit);;
     report (Some (NInt 20)) (Some (str "Executing " ++ cl_action c ++ str " on " ++ ct_name ct'));;
     status ← act c ct'; mret (Acted ct' status)) (worked_row c) (fun _ => held c (Some ct))).
  { eapply triple_bind; [apply Hc; destruct (starts _); [calm|apply calm_adapter]|]. intros u.
    eapply triple_bind; [apply Hc, calm_report|]. intros u'.
    eapply (triple_bind _ _ _ (fun _ w => running_claim c w /\ known c (Some ct') w)); [|intros status; by apply triple_ret].
    eapply triple_mono; [apply triple_and; [apply act_holds|apply (calm_keeps (fun w => known c (Some ct) w /\ known c (Some ct') w)), act_calm]| | |].
    - intros w [[Hw Hk] Hk']. done.
    - intros s w [Hw [_ Hk]]. done.
    - intros e w [Hw [Hk _]]. by left. }
  destruct (cl_contract c) as [contract|]; [destruct matches|]; [exact Hgo| |exact Hgo].
  eapply triple_bind; [eapply triple_mono; [apply rebuild_settles| |done|]|intros r; by apply triple_ret].
  - intros w [[Hw _] Hk]. by left.
  - intros e w Hw. by right.
Qed.

(** *** Waiting *)

Definition left_row (c : Claim) (w : world) : Prop :=
  settled_row c w \/ (claimed_row c w /\ starts (cl_action c) = true /\ since waiting w).
(** The state of a handler that waits *)
Definition waits (c : Claim) (ct : Container) (w : world) : Prop :=
  (claimed_row c w /\ known c (Some ct) w) /\ since waiting w.

Notation reports := (emits eq (Forall is_report)).
Lemma reports_report p m : reports (report (E := E) p m).
Proof.
  unfold report. apply emits_bind; [|intros ?; apply emits_ask_result].
  apply emits_log. apply Forall_singleton. by eexists.
Qed.
Lemma reports_wait endpoint ps pe t : reports (wait_for_health (E := E) t endpoint ps pe).
Proof.
  unfold wait_for_health. generalize (health_attempts t) at 2 as attempts. intros attempts.
  induction (health_attempts t) as [|left IH]; cbn [health_loop]; [apply emits_ret|].
  apply emits_bind; [apply emits_ask_result|]. intros u. apply emits_bind.
  { unfold health_check. apply emits_catch; [apply emits_ask_result|intros e; apply emits_ret]. }
  intros [|]; [apply emits_ret|]. apply emits_bind; [apply reports_report|]. intros u'.
  apply emits_bind; [apply emits_ask|]. intros u''. apply IH.
Qed.
Lemma reports_logs ct : reports (startup_logs (E := E) ct).
Proof.
  unfold startup_logs, adapter_logs. apply emits_catch; [|intros e; apply emits_ret].
  apply emits_bind; [apply emits_bind; [apply emits_ask_result|intros ?; apply emits_ret]|intros ?; apply emits_ret].
Qed.

Lemma reports_waits {A} c ct (m : prog A) : reports m -> triple (waits c ct) m (fun _ => waits c ct) (fun _ => waits c ct).
Proof.
  intros Hm w [Hw (l & Hl & l1 & i & k & l2 & -> & Hk & Hl2)]. destruct (Hm w) as (Hs & l' & Hl' & Hr). unfold wp.
  enough (waits c ct (snd (m w))) by by destruct (fst (m w)). split.
  - apply (stable (P := fun w => claimed_row c w /\ known c (Some ct) w) w); [done|by eexists|done].
  - eexists. split; [rewrite Hl', Hl, <- app_assoc; reflexivity|]. exists l1, i, k, (l2 ++ l'). split; [by rewrite <- app_assoc|].
    split; [done|]. by apply Forall_app.
Qed.

Lemma settle_settles c ct status : triple (fun w => running_claim c w /\ known c (Some ct) w)
  (settle (E := E) startup_timeout_seconds c ct status) (fun _ _ => True) (fun _ => left_row c).
Proof.
  unfold settle. eapply (triple_bind _ _ _ (fun _ => claimed_row c)).
  2:{ intros health. eapply triple_bind; [eapply triple_mono; [apply finalize_writes|done|done|by intros]|].
      intros u. by apply triple_ret. }
  destruct (starts (cl_action c)) eqn:Hs; [|apply triple_ret; by intros w [[] _]].
  assert (Hleft : forall w, waits c ct w -> left_row c w) by (intros w [[Hw _] Hk]; by right).
  assert (Hc : forall A (m : prog A), reports m -> triple (waits c ct) m (fun _ => waits c ct) (fun _ => left_row c)).
  { intros A m Hm. eapply triple_mono; [by apply reports_waits|done|done|]. intros e. apply Hleft. }
  eapply (triple_bind _ _ _ (fun _ => waits c ct)).
  { unfold report. eapply (triple_bind _ _ _ (fun _ => waits c ct)); [|intros u; apply Hc, emits_ask_result].
    intros w [[Hw Hst] Hk]. destruct (Hst Hs) as (l & Hl & l1 & i & k & -> & Hik). unfold wp, log. cbn [fst snd]. split.
    - apply (stable (P := fun w => claimed_row c w /\ known c (Some ct) w) w); [done|by eexists|done].
    - eexists. cbn [trace]. split; [rewrite Hl, <- app_assoc; reflexivity|]. exists l1, i, k, []. by rewrite <- app_assoc. }
  intros u. eapply triple_bind; [apply Hc, reports_wait|]. intros [|]; [apply triple_ret; by intros w [[] _]|].
  eapply triple_bind; [apply Hc, reports_logs|]. intros logs.
  eapply (triple_bind _ _ _ (fun _ => settled_row c)).
  { eapply triple_mono; [apply recover_settles|intros w [Hw _]; by left|done|by intros]. }
  intros [|]; cbn [negb]; [|apply triple_raise; by left].
  eapply (triple_bind _ _ _ (fun _ => settled_row c)); [|intros u'; apply triple_raise; by left].
  eapply triple_mono; [apply (calm_keeps (settled_row c)), calm_report|done|done|by left].
Qed.

(** *** The claim *)

(** What a claim knows of the row that it found *)
Definition found_row (s : database) (c : Claim) : Prop := exists row, deployments s !! cl_deployment_id c = Some row
  /\ cl_original_status c = dp_status row /\ cl_container_id c = dp_container_id row.

Lemma claim_claims payload s : triple (fun w => state w = s /\ trace w = t0) (claim_action (E := E) payload)
  (fun c w => (claimed_row c w /\ since (fun l => forall i ct, ~ In (EGet i (Ok ct)) l) w) /\ found_row s c)
  (fun _ w => state w = s /\ trace w = t0).
Proof.
  set (P := fun w => state w = s /\ trace w = t0).
  assert (Hc : forall A (m : prog A), emits eq (fun l => l = []) m -> triple P m (fun _ => P) (fun _ => P)).
  { intros A m Hm w [Hs Ht]. destruct (Hm w) as (Hs' & l & Hl & ->). unfold wp. rewrite app_nil_r in Hl.
    destruct (m w) as [r w']. cbn [fst snd] in *. enough (P w') by by destruct r. split; congruence. }
  assert (TraceSet (fun l : list event => l = [])) by (split; [done|by intros ? ? -> ->]).
  unfold claim_action. eapply triple_bind; [apply Hc; apply emits_lift|]. intros id.
  eapply triple_bind; [apply Hc; apply emits_lift|]. intros action.
  destruct (negb _); [by apply triple_raise|].
  destruct (dict_get (str "expected_container_id") payload) as [i|]; [|by apply triple_raise].
  destruct (dict_get (str "expected_container_name") payload) as [n|]; [|by apply triple_raise].
  eapply (triple_bind _ _ _ (fun d w => P w /\ d = s)).
  { intros w [Hs Ht]. unfold wp, session, set_database, get_state, ask_result, update, mbind, program_bind. cbn.
    pose proof (quiet_session (state w) (env w)) as Hq. destruct (ho_session (state w) (env w)) as [r e]. cbn in *.
    subst r. cbn. done. }
  intros d. apply triple_pure. intros ->. destruct (_ !! _) as [row|] eqn:Hrow; [|by apply triple_raise].
  destruct (negb _); [by apply triple_raise|].
  eapply triple_bind; [apply Hc; destruct (starts _); [apply emits_lift|apply emits_ret]|]. intros contract.
  destruct (_ && _); [by apply triple_raise|].
  set (c := mkClaim _ _ _ _ _ _ _ _).
  eapply (triple_bind _ _ _ (fun b w => if b : bool
    then claimed_row c w /\ since (fun l => forall i ct, ~ In (EGet i (Ok ct)) l) w else P w)).
  2:{ intros [|]; [|by apply triple_raise]. apply triple_ret. intros w Hw. split; [done|]. by exists row. }
  intros w [Hs Ht]. unfold wp.
  match goal with |- context[write_where ?i ?m ?v w] => destruct (write_where_quiet i m v w) as (e & now & ->) end.
  rewrite Hs, Hrow. destruct (_ && _) eqn:Hm; [|done].
  apply andb_true_iff in Hm as [Hm _]. cbn [fst snd]. rewrite Ht. split; [split|].
  - exists (touched now (with_status (cl_transient c) (str "unknown") row)).
    split; [apply lookup_insert_eq|]. split; [|done]. unfold claimed. apply andb_true_iff. split; [exact Hm|].
    by apply str_eqb_eq.
  - eexists. by split.
  - eexists. cbn [trace]. split; [reflexivity|]. intros i' ct [Hi|[]]. done.
Qed.
End Quiet.

(** C11.  A deployment action that fails, while nobody else writes to the
    database, either has done nothing at all, or leaves the row of its
    deployment settled: [unhealthy], with the status that Docker reported when
    the container was loaded again just before that write (running; exited for
    one that is dead, exited or stopped; unknown for any other), and, when Docker
    gives none (the container cannot be loaded, is not there, or was to be
    created again), the status from before the action if that was running or
    exited, else unknown; unless the failure came while the handler waited for
    the runtime: the container has just been started or restarted, nothing but
    reports of the waiting followed, and the row keeps the status [starting]
    that the handler gave it. *)
Theorem failed_action_settles {E} `{QuietHost E} `{UnicodeData} `{ErrorText} `{CaseFolding} runtimes timeout payload
    (w w' : tworld database event E) e : action_handler runtimes timeout payload w = (Raise e, w') ->
  (state w' = state w /\ trace w' = trace w) \/
  exists row0 row l, let id := py_str (get "deployment_id" payload) in
    deployments (state w) !! id = Some row0 /\ deployments (state w') !! id = Some row /\ trace w' = trace w ++ l /\
    ((dp_health row = str "unhealthy"
      /\ exists l1 before_write l2 observed, l = l1 ++ EWrite id (Some before_write) (Some row) :: l2
         /\ seen_in (default [] (dp_container_id row0)) l1 observed
         /\ settles_as observed (dp_status row0) (dp_status row)) \/
     (starts (py_str (get "action" payload)) = true /\ dp_status row = str "starting" /\ dp_health row = str "unknown"
      /\ waiting l)).
Proof.
  intros Hrun. set (t0 := trace w).
  assert (Ht : triple (fun x => state x = state w /\ trace x = t0) (action_handler (E := E) runtimes timeout payload)
    (fun _ _ => True) (fun _ x => (state x = state w /\ trace x = t0) \/ exists c,
       (claims payload c /\ found_row (state w) c) /\ left_row t0 c x)).
  { eapply (triple_bind _ _ _ (fun c x => (claimed_row t0 c x /\ since t0 (fun l => forall i ct, ~ In (EGet i (Ok ct)) l) x)
      /\ (claims payload c /\ found_row (state w) c))).
    { eapply triple_mono; [apply triple_returns; [apply (claim_claims t0 payload (state w))|apply claim_identity]|done| |].
      - by intros c x [[Hx Hf] Hc].
      - intros e' x Hx. by left. }
    intros c. apply triple_pure. intros Hc. destruct (_ && _).
    - eapply (triple_bind _ _ _ (fun _ _ => True)); [|by intros; apply triple_ret].
      eapply triple_mono; [apply (stale_deletes t0 c (fun _ => True))|intros x [Hx _]; by left|done|].
      intros x w1 Hx. right. exists c. split; [done|by left].
    - eapply triple_bind.
      { eapply triple_mono; [apply (work_settles runtimes timeout t0)|done|done|]. intros x w1 Hx. right. exists c. split; [done|by left]. }
      intros [r|ct status]; [by apply triple_ret|].
      eapply triple_mono; [apply (settle_settles timeout t0)|done|done|]. intros x w1 Hx. right. by exists c. }
  specialize (Ht w (conj eq_refl eq_refl)). unfold wp in Ht. rewrite Hrun in Ht.
  destruct Ht as [Ht|(c & [(_ & _ & Hd & Ha & _) (row0 & Hr0 & Ho & Hi)] & Hl)]; [by left|right].
  rewrite <- Hd, <- Ha. exists row0. destruct Hl as [(row & Hr & Hh & l & Hl & Hset)|([(row & Hr & Hs & Hh) _] & Hst & l & Hl & Hw)];
    exists row, l; (split; [done|]); (split; [done|]); (split; [exact Hl|]).
  - left. split; [done|]. destruct Hset as (l1 & r1 & l2 & o & Hl' & Hseen & Hset). exists l1, r1, l2, o.
    unfold container_of in Hseen. rewrite Hi in Hseen. rewrite Ho in Hset. done.
  - right. split_and!; try done. unfold claimed, cl_transient, transient_of in Hs. rewrite Hst in Hs. split_bools.
    by apply str_eqb_eq.
Qed.
