(* ===== verification/DeployActionResults.v ===== *)
(** * What an action leaves behind

    Theorems about [action_handler] (DeployActions): what the result of an
    action says is what the table holds, and it is the action and the deployment
    that the request named. *)
From Stdlib Require Import ZArith Lia Bool String SpecFloat.
From stdpp Require Import prelude gmap.
From S2P Require Import Prelude PyValue PosixPath PyTime Secrets Traced PyText RuntimeBase DeployHost DeployContract DeployTraces DeployActions DeployActionSafety DeployActionFailures.
Import Traced.
Open Scope Z_scope.

(** ** Results *)

Section Results.
Context {E : Type} `{Host E} `{UnicodeData} `{ErrorText} `{CaseFolding}.
Context (runtimes : list pystr) (startup_timeout_seconds : Z).
Notation world := (tworld database event E).
Notation prog := (tprogram database event E).

(** What a successful action ends with *)
Definition OUTCOMES : list (pystr * (pystr * pystr)) :=
  [(str "start", (str "running", str "healthy")); (str "restart", (str "running", str "healthy"));
   (str "stop", (str "exited", str "unknown")); (str "delete", (str "deleted", str "unknown"))].

(** A result of the action [action] on the deployment [id] says what the table
    holds: a deleted deployment has no row. *)
Definition recorded (id action : pystr) (r : ActionResult) (w : world) : Prop :=
  ar_deployment_id r = id /\ ar_action r = action /\ In (action, (ar_status r, ar_health r)) OUTCOMES /\
  if is_action "delete" action then deployments (state w) !! id = None
  else exists row, deployments (state w) !! id = Some row /\ dp_status row = ar_status r /\ dp_health row = ar_health r.
Notation recorded_for c := (recorded (cl_deployment_id c) (cl_action c)).

Lemma write_where_true id matches values : triple (E := E) (fun _ => True) (write_where id matches values)
  (fun b w => b = true -> exists row now, matches row = true /\ deployments (state w) !! id = touched now <$> values row)
  (fun _ _ => True).
Proof.
  intros w _. unfold write_where, session, set_database, commit, wp, get_state, ask_result, ask, update, log, mbind, program_bind.
  cbn. destruct (ho_session (state w) (env w)) as [[d|x] e]; cbn; [|done].
  destruct (deployments d !! id) as [row|]; cbn; [|done]. destruct (matches row) eqn:Hm; cbn; [|done].
  destruct (ho_now e) as [now e1]. cbn. destruct (ho_commit e1) as [[u|x] e2]; cbn; [|done].
  intros _. exists row, now. split; [done|]. apply lookup_put.
Qed.

Lemma delete_outcome c : is_action "delete" (cl_action c) = true -> In (cl_action c, (str "deleted", str "unknown")) OUTCOMES.
Proof. intros ->%str_eqb_eq. by do 3 right; left. Qed.

Lemma stale_recorded c : is_action "delete" (cl_action c) = true ->
  triple (E := E) (fun _ => True) (delete_stale_deployment c) (fun _ => recorded_for c (missing_result c)) (fun _ _ => True).
Proof.
  intros Hd. unfold delete_stale_deployment. eapply triple_bind; [apply write_where_true|].
  intros [|]; [|by apply triple_raise]. apply triple_ret. intros w Hw. destruct (Hw eq_refl) as (row & now & _ & Hl).
  cbn in Hl. split_and!; [done|done|by apply delete_outcome|]. by rewrite Hd.
Qed.

Lemma finalize_recorded c status health : In (cl_action c, (status, health)) OUTCOMES ->
  triple (E := E) (fun _ => True) (finalize_action c status health)
    (fun _ => recorded_for c (mkActionResult (cl_deployment_id c) (cl_action c) status health false)) (fun _ _ => True).
Proof.
  intros Hin. unfold finalize_action. eapply triple_bind; [apply write_where_true|].
  intros [|]; [|by apply triple_raise]. apply triple_ret. intros w Hw. destruct (Hw eq_refl) as (row & now & _ & Hl).
  split_and!; [done|done|done|]. destruct (is_action "delete" (cl_action c)) eqn:Hd; [exact Hl|by eexists].
Qed.

Lemma triple_any {A} (m : prog A) : triple (E := E) (fun _ => True) m (fun _ _ => True) (fun _ _ => True).
Proof. intros w _. unfold wp. by destruct (fst (m w)). Qed.

Definition runs_healthy (c : Claim) (w : world) : Prop := exists row,
  deployments (state w) !! cl_deployment_id c = Some row /\ dp_status row = str "running" /\ dp_health row = str "healthy".

Lemma rebuild_body_runs c contract old b : triple (E := E) (fun _ => True)
  (rebuild_body startup_timeout_seconds c contract old b)
  (fun x w => match snd x with Ok _ => runs_healthy c w | Raise _ => True end) (fun _ _ => True).
Proof.
  unfold rebuild_body. eapply triple_bind; [apply triple_any|]. intros [old'|e]; [|by apply triple_ret].
  eapply triple_bind; [apply triple_any|]. intros [replacement|e]; [|by apply triple_ret].
  eapply (triple_bind _ _ _ (fun x w => match x with inl _ => runs_healthy c w | inr _ => True end));
    [|by intros [u|e]; apply triple_ret].
  eapply triple_mono;
    [eapply (triple_attempt (fun _ => True) _ (fun _ => runs_healthy c) (fun _ _ => True) (fun _ _ => True))|done|by intros [u|e] w'|done].
  do 3 (eapply triple_bind; [apply triple_any|intros ?]).
  eapply triple_bind; [apply write_where_true|]. intros [|]; [|by apply triple_raise].
  apply triple_ret. intros w Hw. destruct (Hw eq_refl) as (row & now & _ & Hl). by eexists.
Qed.

Lemma start_outcome action : starts action = true -> In (action, (str "running", str "healthy")) OUTCOMES.
Proof. intros [->%str_eqb_eq| ->%str_eqb_eq]%orb_true_iff; [by left|by right; left]. Qed.

Lemma starts_not_delete action : starts action = true -> is_action "delete" action = false.
Proof. intros [->%str_eqb_eq| ->%str_eqb_eq]%orb_true_iff; reflexivity. Qed.

Lemma rebuild_recorded c contract old : starts (cl_action c) = true ->
  triple (E := E) (fun _ => True) (rebuild_from_contract startup_timeout_seconds c contract old) (recorded_for c) (fun _ _ => True).
Proof.
  intros Hs. unfold rebuild_from_contract. eapply triple_bind; [apply triple_any|]. intros u.
  eapply triple_bind; [apply rebuild_body_runs|]. intros [vars [v|e]]; cbn [snd].
  - eapply (triple_bind _ _ _ (fun _ => runs_healthy c)).
    + destruct (rb_old vars) as [ct|]; [|by apply triple_ret]. intros w Hw.
      unfold wp, remove_owned_container, catch, call.
      destruct (dk_call ct (CRemove true) (env w)) as [[x|x] e']; exact Hw.
    + intros u'. apply triple_ret. intros w (row & Hl & Hst & Hh). split_and!; [done|done|by apply start_outcome|]. rewrite starts_not_delete by done. by exists row.
  - do 3 (eapply triple_bind; [apply triple_any|intros ?]). by apply triple_raise.
Qed.

(** The contract is read for a start only. *)
Definition contract_starts (c : Claim) : Prop := forall contract, cl_contract c = Some contract -> starts (cl_action c) = true.

Lemma claim_contract payload : returns (E := E) (fun c => claims payload c /\ contract_starts c) (claim_action payload).
Proof.
  intros w. pose proof (claim_identity (E := E) payload w) as Hc.
  enough (Hr : returns (E := E) contract_starts (claim_action payload)).
  { specialize (Hr w). by destruct (fst (claim_action payload w)). }
  clear. unfold claim_action. apply returns_bind; intros id. apply returns_bind; intros action.
  destruct (negb _); [apply returns_raise|].
  destruct (dict_get (str "expected_container_id") payload); [|apply returns_raise].
  destruct (dict_get (str "expected_container_name") payload); [|apply returns_raise].
  apply returns_bind; intros d. destruct (_ !! _) as [row|]; [|apply returns_raise].
  destruct (negb _); [apply returns_raise|].
  apply (returns_then (fun o => starts (py_str action) = false -> o = None)).
  { destruct (starts _) eqn:Hs; [|by apply returns_ret]. intros w. cbn. by destruct (stored_contract _). }
  intros contract Hn. destruct (_ && _); [apply returns_raise|]. apply returns_bind; intros [|]; [|apply returns_raise].
  apply returns_ret. intros x Hx. cbn in *. destruct (starts (py_str action)) eqn:Hs; [done|]. by rewrite Hn in Hx.
Qed.

(** How an action on a container ends *)
Definition outcome_of (c : Claim) (x : Worked) : Prop :=
  match x with
  | Acted _ status => In (cl_action c, (status, if starts (cl_action c) then str "healthy" else str "unknown")) OUTCOMES
  | Finished _ => True
  end.

Lemma act_outcome c ct : In (cl_action c) ACTIONS -> returns (E := E)
  (fun status => In (cl_action c, (status, if starts (cl_action c) then str "healthy" else str "unknown")) OUTCOMES) (act c ct).
Proof.
  intros Hin. unfold act, starts, is_action, ACTIONS in *. apply (proj2 (str_in_In _ _)) in Hin. unfold str_in in Hin. cbn [existsb] in Hin.
  destruct (str_eqb (cl_action c) (str "start")) eqn:H1'.
  { apply str_eqb_eq in H1'. rewrite H1'. apply returns_bind; intros u. apply returns_ret. by left. }
  destruct (str_eqb (cl_action c) (str "stop")) eqn:H2'.
  { apply str_eqb_eq in H2'. rewrite H2'. apply returns_bind; intros u. apply returns_ret. by do 2 right; left. }
  destruct (str_eqb (cl_action c) (str "restart")) eqn:H3'.
  { apply str_eqb_eq in H3'. rewrite H3'. apply returns_bind; intros u. apply returns_ret. by right; left. }
  cbn [orb] in *. rewrite orb_false_r in Hin. apply str_eqb_eq in Hin. rewrite Hin.
  apply returns_bind; intros u. apply returns_ret. by do 3 right; left.
Qed.

Lemma work_recorded c : In (cl_action c) ACTIONS -> contract_starts c ->
  triple (E := E) (fun _ => True) (work runtimes startup_timeout_seconds c)
    (fun x w => match x with Finished r => recorded_for c r w | Acted _ _ => outcome_of c x end) (fun _ _ => True).
Proof.
  intros Hin Hk.
  assert (Hfailed : forall ct e, triple (E := E) (fun _ => True) (work_failed startup_timeout_seconds c ct e)
    (fun x w => match x with Finished r => recorded_for c r w | Acted _ _ => outcome_of c x end) (fun _ _ => True)).
  { intros ct e. assert (Hr : triple (E := E) (fun _ => True) (recover_and_raise c ct e)
      (fun x w => match x with Finished r => recorded_for c r w | Acted _ _ => outcome_of c x end) (fun _ _ => True)).
    { unfold recover_and_raise. do 2 (eapply triple_bind; [apply triple_any|intros ?]). by apply triple_raise. }
    unfold work_failed. destruct (is_NotFound e); [|done]. destruct (cl_contract c) as [contract|] eqn:Hc.
    - eapply triple_bind; [apply rebuild_recorded; by eapply Hk|]. intros r. by apply triple_ret.
    - destruct (is_action "delete" (cl_action c)) eqn:Hd; [|done].
      eapply triple_bind; [by apply stale_recorded|]. intros r. by apply triple_ret. }
  unfold work. eapply triple_bind; [apply triple_any|]. intros [ct|e]; [|apply Hfailed].
  apply (triple_catch _ _ _ _ _ (fun _ _ => True)); [|intros e _; apply Hfailed|done].
  assert (Hact : forall ct' (m : prog unit), triple (E := E) (fun _ => True) (m;; status ← act c ct'; mret (Acted ct' status))
    (fun x w => match x with Finished r => recorded_for c r w | Acted _ _ => outcome_of c x end) (fun _ _ => True)).
  { intros ct' m. eapply triple_bind; [apply triple_any|]. intros u.
    eapply triple_bind; [apply triple_returns; [apply triple_any|by apply act_outcome]|].
    intros status. apply triple_ret. by intros w [_ Ho]. }
  unfold work_body. do 2 (eapply triple_bind; [apply triple_any|intros ?]).
  destruct (cl_contract c) as [contract|] eqn:Hc; [destruct a0|].
  - eapply triple_bind; [apply triple_any|intros ?]. apply Hact.
  - eapply triple_bind; [apply rebuild_recorded; by eapply Hk|]. intros r. by apply triple_ret.
  - eapply triple_bind; [apply triple_any|intros ?]. apply Hact.
Qed.

Lemma settle_recorded c ct status : outcome_of c (Acted ct status) ->
  triple (E := E) (fun _ => True) (settle startup_timeout_seconds c ct status) (recorded_for c) (fun _ _ => True).
Proof.
  cbn. intros Ho. unfold settle.
  apply (triple_bind _ _ _ (fun health _ => In (cl_action c, (status, health)) OUTCOMES)).
  - destruct (starts (cl_action c)); [|by apply triple_ret].
    do 2 (eapply triple_bind; [apply triple_any|intros ?]). destruct a0; [by apply triple_ret|].
    do 2 (eapply triple_bind; [apply triple_any|intros ?]). destruct (negb _); [by apply triple_raise|].
    eapply triple_bind; [apply triple_any|intros ?]. by apply triple_raise.
  - intros health. intros w Hin. revert w Hin.
    assert (Hf : In (cl_action c, (status, health)) OUTCOMES -> triple (E := E) (fun _ => True)
      (finalize_action c status health;; mret (mkActionResult (cl_deployment_id c) (cl_action c) status health false))
      (recorded_for c) (fun _ _ => True)).
    { intros Hin. eapply triple_bind; [by apply finalize_recorded|]. intros u. by apply triple_ret. }
    intros w Hin. by apply Hf.
Qed.
End Results.

(** C13.  The result of a deployment action names the deployment and the action
    of the request, and what it says is what the table holds when it returns:
    after a delete there is no row; otherwise the row is there with the status
    and the health of the result: running and healthy after a start or a
    restart, exited and unknown after a stop. *)
Theorem action_result_recorded {E} `{Host E} `{UnicodeData} `{ErrorText} `{CaseFolding} runtimes timeout payload
    (w w' : tworld database event E) r : action_handler runtimes timeout payload w = (Ok r, w') ->
  recorded (py_str (get "deployment_id" payload)) (py_str (get "action" payload)) r w'.
Proof.
  intros Hrun. assert (Ht : triple (E := E) (fun _ => True) (action_handler runtimes timeout payload)
    (recorded (py_str (get "deployment_id" payload)) (py_str (get "action" payload))) (fun _ _ => True)).
  { eapply triple_bind; [apply triple_returns; [apply triple_any|apply claim_contract]|]. intros c. apply triple_pure.
    intros [(_ & _ & <- & <- & Hin) Hk]. destruct (_ && _) eqn:Hd.
    - apply andb_true_iff in Hd as [Hd _]. eapply triple_bind; [by apply stale_recorded|]. intros u. by apply triple_ret.
    - eapply triple_bind; [by apply work_recorded|]. intros [x|ct status].
      + apply triple_ret. by intros.
      + intros w1 Ho. by apply settle_recorded. }
  specialize (Ht w I). unfold wp in Ht. by rewrite Hrun in Ht.
Qed.
