(* ===== verification/DeploySim.v ===== *)
(** * A small Docker host

    An environment for concrete runs of the deployment service: a list of
    containers that the calls change, scripted answers of the health probe and
    of the task, no other sessions.  The theorems about the handlers are applied
    to runs in it. *)
From Stdlib Require Import ZArith Lia Bool String SpecFloat.
From stdpp Require Import prelude gmap.
From S2P Require Import Prelude PyValue PyTime Secrets Traced PyText RuntimeBase DeployHost DeployContract DeployActions DeployActionSafety DeployActionFailures DeployActionResults.
Import Traced.
Open Scope Z_scope.

Record Sim := mkSim {
  sm_containers : list Container;
  sm_probes : list bool;
  sm_checks : list (result unit);
  sm_created : Z;
}.

Definition with_containers (l : list Container) (s : Sim) : Sim := mkSim l (sm_probes s) (sm_checks s) (sm_created s).

Definition find_by (p : Container -> bool) (s : Sim) : result Container :=
  match find p (sm_containers s) with Some c => Ok c | None => Raise NotFound end.
Definition has_id (id : pystr) (c : Container) : bool := str_eqb id (ct_id c).

Definition set_container_status (status : pystr) (c : Container) : Container :=
  mkContainer (ct_id c) (ct_name c) status (ct_attrs c).
Definition set_container_name (name : pystr) (c : Container) : Container :=
  mkContainer (ct_id c) name (ct_status c) (ct_attrs c).

Definition sim_change (id : pystr) (f : Container -> Container) (s : Sim) : Sim :=
  with_containers (map (fun c => if has_id id c then f c else c) (sm_containers s)) s.

Definition sim_call (c : Container) (k : container_call) (s : Sim) : result unit * Sim :=
  let id := ct_id c in
  match find_by (has_id id) s with
  | Raise e => (Raise e, s)
  | Ok _ =>
      (Ok tt,
       match k with
       | CStart | CRestart _ => sim_change id (set_container_status (str "running")) s
       | CStop _ => sim_change id (set_container_status (str "exited")) s
       | CRename name => sim_change id (set_container_name name) s
       | CRemove _ => with_containers (List.filter (fun c => negb (has_id id c)) (sm_containers s)) s
       end)
  end.

Definition sim_run (o : RunOptions) (s : Sim) : result Container * Sim :=
  let labels := map (fun p => (fst p, PStr (snd p))) (ru_labels o) in
  let c := mkContainer (str "created-" ++ dec (sm_created s)) (ru_name o) (str "running")
             [(str "Config", PDict [(str "Labels", PDict labels)])] in
  (Ok c, mkSim (sm_containers s ++ [c]) (sm_probes s) (sm_checks s) (sm_created s + 1)).

Definition sim_probe (s : Sim) : result bool * Sim :=
  match sm_probes s with
  | [] => (Ok false, s)
  | b :: rest => (Ok b, mkSim (sm_containers s) rest (sm_checks s) (sm_created s))
  end.
Definition sim_check (s : Sim) : result unit * Sim :=
  match sm_checks s with
  | [] => (Ok tt, s)
  | r :: rest => (r, mkSim (sm_containers s) (sm_probes s) rest (sm_created s))
  end.

#[export] Instance sim_host : Host Sim := {|
  ho_session := fun d s => (Ok d, s);
  ho_commit := fun s => (Ok tt, s);
  ho_now := fun s => (utc 0, s);
  ho_new_id := fun s => (str "new-" ++ dec (sm_created s), s);
  ho_hostname := fun s => (str "manager0000f", s);
  ho_check := sim_check;
  ho_update := fun _ _ s => (Ok tt, s);
  ho_probe := fun _ s => sim_probe s;
  ho_sleep := fun s => s;
  dk_client := fun s => (Ok tt, s);
  dk_get := fun i s => (find_by (fun c => str_eqb i (ct_id c) || str_eqb i (ct_name c)) s, s);
  dk_list := fun s => (Ok (sm_containers s), s);
  dk_reload := fun c s => (find_by (has_id (ct_id c)) s, s);
  dk_call := sim_call;
  dk_run := sim_run;
  dk_logs := fun _ _ s => (Ok [], s);
|}.

#[export] Instance sim_spec : HostSpec Sim.
Proof.
  split. intros c e c' e'. cbn. unfold find_by. destruct (find _ _) as [x|] eqn:Hf; [|discriminate]. intros [= <- <-].
  apply find_some in Hf as [_ Hf]. by apply str_eqb_eq in Hf.
Qed.
#[export] Instance sim_quiet : QuietHost Sim.
Proof. by split. Qed.

(** ** Concrete actions *)

Definition demo_container_id : pystr := str "0123456789abcdef".
Definition demo_row : Deployment :=
  mkDeployment (str "demo") None (str "vllm") (Some demo_container_id) (Some (str "dgx-demo"))
    (str "http://127.0.0.1:8000") (str "demo") (str "exited") (str "unknown") true (Some (str "image")) (Some 8000)
    (mkBenchmark None None None None None None) (PDict []) [] (utc 0).
Definition demo_database : database := mkDatabase {[ str "d1" := demo_row ]} ∅.
Definition demo_stopped : Container := mkContainer demo_container_id (str "dgx-demo") (str "exited") [].
Definition demo_sim (probes : list bool) (checks : list (result unit)) : Sim := mkSim [demo_stopped] probes checks 0.
Definition demo_world (s : Sim) : tworld database event Sim := mkWorld demo_database s [].
Definition demo_payload (action : string) : pydict :=
  [(str "deployment_id", PStr (str "d1")); (str "action", PStr (str action));
   (str "expected_container_id", PStr demo_container_id); (str "expected_container_name", PStr (str "dgx-demo"))].
#[export] Instance demo_errors : ErrorText := fun _ => [].
#[export] Instance demo_folding : CaseFolding := fun s => s.
#[export] Existing Instance ascii_data.
Definition demo_action (action : string) (s : Sim) : result ActionResult * tworld database event Sim :=
  action_handler [str "vllm"] 4 (demo_payload action) (demo_world s).

Definition demo_health : Sim := demo_sim [false; true] [].
Definition demo_cancelled : Sim := demo_sim [false; true] [Ok tt; Raise TaskCancelled].

Lemma action_touches_verified_witness : exists t,
  trace (demo_world demo_health) = [] /\ t = trace (snd (demo_action "start" demo_health)) /\
  touches_allowed (Some demo_container_id) (Some (str "dgx-demo")) t /\
  In (ECall demo_container_id CStart (Ok tt)) t.
Proof.
  exists (trace (snd (demo_action "start" demo_health))). split; [done|]. split; [done|]. split.
  - exact (action_touches_verified [str "vllm"] 4 (demo_payload "start") (demo_world demo_health) eq_refl).
  - vm_compute. tauto.
Defined.

Lemma action_result_recorded_witness : exists r w' r2 w2,
  demo_action "start" demo_health = (Ok r, w') /\ recorded (str "d1") (str "start") r w' /\
  demo_action "delete" demo_health = (Ok r2, w2) /\ recorded (str "d1") (str "delete") r2 w2.
Proof.
  destruct (demo_action "start" demo_health) as [[r|e] w'] eqn:Hrun; [|exfalso; vm_compute in Hrun; discriminate Hrun].
  destruct (demo_action "delete" demo_health) as [[r2|e] w2] eqn:Hrun2; [|exfalso; vm_compute in Hrun2; discriminate Hrun2].
  exists r, w', r2, w2. split; [reflexivity|].
  split; [exact (action_result_recorded [str "vllm"] 4 (demo_payload "start") (demo_world demo_health) w' r Hrun)|].
  split; [reflexivity|].
  exact (action_result_recorded [str "vllm"] 4 (demo_payload "delete") (demo_world demo_health) w2 r2 Hrun2).
Defined.

(** How the theorem describes a run that fails *)
Definition left_behind (action : string) (s : Sim) (w' : tworld database event Sim) : Prop :=
  (state w' = state (demo_world s) /\ trace w' = []) \/
  exists row0 row l, deployments (state (demo_world s)) !! str "d1" = Some row0 /\
    deployments (state w') !! str "d1" = Some row /\ trace w' = [] ++ l /\
    ((dp_health row = str "unhealthy"
      /\ exists l1 before_write l2 observed, l = l1 ++ EWrite (str "d1") (Some before_write) (Some row) :: l2
         /\ seen_in (default [] (dp_container_id row0)) l1 observed
         /\ settles_as observed (dp_status row0) (dp_status row)) \/
     (starts (str action) = true /\ dp_status row = str "starting" /\ dp_health row = str "unknown" /\ waiting l)).

(** A start that is cancelled while the handler waits for the runtime: the
    container runs, and the row keeps the status [starting].  And a start after
    which the runtime never answers: the row says that the container runs and
    is unhealthy. *)
Definition demo_silent : Sim := demo_sim [] [].
Definition row_says (w' : tworld database event Sim) : option (pystr * pystr) :=
  option_map (fun row => (dp_status row, dp_health row)) (deployments (state w') !! str "d1").

Lemma failed_action_settles_witness : exists e w' e2 w2,
  demo_action "start" demo_cancelled = (Raise e, w') /\ row_says w' = Some (str "starting", str "unknown")
  /\ left_behind "start" demo_cancelled w' /\
  demo_action "start" demo_silent = (Raise e2, w2) /\ row_says w2 = Some (str "running", str "unhealthy")
  /\ left_behind "start" demo_silent w2.
Proof.
  destruct (demo_action "start" demo_cancelled) as [[r|e] w'] eqn:Hrun; [exfalso; vm_compute in Hrun; discriminate Hrun|].
  assert (Hs : row_says w' = Some (str "starting", str "unknown"))
    by (change w' with (snd (Raise (A := ActionResult) e, w')); rewrite <- Hrun; vm_compute; reflexivity).
  destruct (demo_action "start" demo_silent) as [[r|e2] w2] eqn:Hrun2; [exfalso; vm_compute in Hrun2; discriminate Hrun2|].
  assert (Hs2 : row_says w2 = Some (str "running", str "unhealthy"))
    by (change w2 with (snd (Raise (A := ActionResult) e2, w2)); rewrite <- Hrun2; vm_compute; reflexivity).
  exists e, w', e2, w2. split; [reflexivity|]. split; [exact Hs|]. split.
  - exact (failed_action_settles [str "vllm"] 4 (demo_payload "start") (demo_world demo_cancelled) w' e Hrun).
  - split; [reflexivity|]. split; [exact Hs2|].
    exact (failed_action_settles [str "vllm"] 4 (demo_payload "start") (demo_world demo_silent) w2 e2 Hrun2).
Defined.

Lemma cancelled_start_stays_starting :
  fst (demo_action "start" demo_cancelled) = Raise TaskCancelled /\
  option_map dp_status (deployments (state (snd (demo_action "start" demo_cancelled))) !! str "d1") = Some (str "starting") /\
  map ct_status (sm_containers (env (snd (demo_action "start" demo_cancelled)))) = [str "running"].
Proof. by vm_compute. Qed.
