(* ===== verification/ModelCapabilities.v ===== *)
(** * Capabilities of models

    [backend/app/services/model_capabilities.py]: what a model directory says it
    can do, from its configuration, its card and its files, and what a runtime
    makes of it.  Parsing a model card is the Hugging Face library's. *)
From Stdlib Require Import ZArith Lia Bool String.
From stdpp Require Import prelude.
From S2P Require Import Prelude PyValue Secrets PyText PurePath RuntimeSpec RuntimeBase.
Open Scope Z_scope.

Definition texts (l : list string) : list pystr := map str l.

Definition TEXT_GENERATION_PIPELINES : list pystr :=
  texts ["conversational"; "image-text-to-text"; "text-generation"; "text2text-generation"; "video-text-to-text";
         "visual-question-answering"]%string.
Definition IMAGE_INPUT_PIPELINES : list pystr :=
  texts ["image-text-to-text"; "visual-question-answering"; "video-text-to-text"]%string.
Definition VIDEO_INPUT_PIPELINES : list pystr := texts ["video-text-to-text"]%string.
Definition IMAGE_INPUT_TAGS : list pystr :=
  texts ["image-text-to-text"; "multimodal"; "vision"; "vision-language"; "vlm"]%string.
Definition VIDEO_INPUT_TAGS : list pystr := texts ["video"; "video-text-to-text"; "video-understanding"]%string.
Definition MULTIMODAL_CAPABILITIES : list pystr := texts ["image"; "video"]%string.
Definition DRAFT_ARCHITECTURE_MARKERS : list pystr := texts ["draftmodel"; "dsparkmodel"; "dflashmodel"]%string.
Definition RUNTIME_MULTIMODAL_PARAMETERS : list (pystr * list pystr) :=
  [(str "vllm", texts ["mm_processor_kwargs"; "media_io_kwargs"]%string);
   (str "sglang", texts ["images_config"; "use_audio_in_video"]%string); (str "llama_cpp", [])].

(** [ModelCard(text).data.to_dict()] *)
Class ModelCards := model_card : pystr -> result pyval.

Definition YAMLError : exn := OtherException (str "YAMLError").
Definition is_card_error (e : exn) : bool :=
  is_OSError e || is_ValueError e
  || match e with TypeError _ => true | OtherException m => str_eqb m (str "YAMLError") | _ => false end.

Definition intersects (a b : list pystr) : bool := existsb (fun x => str_in x b) a.
Definition some_contains (marker : pystr) (l : list pystr) : bool := existsb (contains_text marker) l.

(** [list(dict.fromkeys(values))] *)
Definition without_repeats (l : list pystr) : list pystr := set_union [] l.

Section Capabilities.
Context `{CaseFolding}.

Definition dashes (s : pystr) : pystr := map (fun c => if c =? 95 then 45 else c) s.

(** [_normalized_values] *)
Definition normalized_values (value : pyval) : list pystr :=
  omap (fun v => match v with
                 | PStr s => if str_eqb (strip s) [] then None else Some (dashes (casefold (strip s)))
                 | _ => None
                 end)
    (match value with PList l => l | v => [v] end).

Context {F : Type} `{ModelFiles F} `{ModelCards}.

(** [_model_card_data] *)
Definition model_card_data (model_path : path) : files F pydict :=
  catch
    (card_text ← read_text (child model_path (str "README.md"));
     serialized ← lift (model_card card_text);
     mret (match serialized with PDict d => d | _ => [] end))
    is_card_error (fun _ => mret []).

(** [_model_files] *)
Definition model_files (model_path : path) : files F (list pystr) :=
  catch
    (reads (fun f =>
       entries ← fs_iterdir model_path f;
       Ok (map (fun p => casefold (path_name p)) (List.filter (fun p => fs_is_file p f) entries))))
    is_OSError (fun _ => mret []).

Definition present_value (key : string) (config : pydict) : bool := negb (is_none (get key config)).
Definition is_mapping (key : string) (config : pydict) : bool := match get key config with PDict _ => true | _ => false end.

(** What the parts of a model directory say *)
Definition capabilities_of (config : pydict) (card : pydict) (files : list pystr) : list pystr :=
  let architectures := normalized_values (get "architectures" config) in
  let pipelines := normalized_values (get "pipeline_tag" card) in
  let tags := normalized_values (get "tags" card) in
  if existsb (fun marker => some_contains marker architectures) DRAFT_ARCHITECTURE_MARKERS then []
  else if str_in (str "rl_agent_config.json") files then [str "decision"]
  else
    let text_capabilities :=
      if some_contains (str "causallm") architectures || some_contains (str "conditionalgeneration") architectures
         || intersects pipelines TEXT_GENERATION_PIPELINES then [str "chat"; str "completion"]
      else if some_contains (str "embedding") architectures || some_contains (str "sequenceclassification") architectures
      then [str "embedding"] else [] in
    let image_input :=
      is_mapping "vision_config" config || present_value "image_token_id" config || present_value "image_token_index" config
      || intersects pipelines IMAGE_INPUT_PIPELINES || intersects tags IMAGE_INPUT_TAGS
      || some_contains (str "mmproj") files in
    let video_input :=
      is_mapping "video_config" config || present_value "video_token_id" config || present_value "video_token_index" config
      || str_in (str "video_preprocessor_config.json") files
      || intersects pipelines VIDEO_INPUT_PIPELINES || intersects tags VIDEO_INPUT_TAGS in
    text_capabilities ++ (if image_input then [str "image"] else []) ++ (if video_input then [str "video"] else []).

(** [infer_model_capabilities]; [config] is given or read from the directory *)
Definition infer_model_capabilities (model_path : path) (config : option pydict) : files F (list pystr) :=
  config ← match config with
           | Some c => mret c
           | None =>
               catch (loaded ← read_json (child model_path (str "config.json"));
                      mret (match loaded with PDict d => d | _ => [] end)) is_config_error (fun _ => mret [])
           end;
  card ← model_card_data model_path;
  files ← model_files model_path;
  mret (capabilities_of config card files).
End Capabilities.

(** [merge_runtime_model_capabilities], [input_modalities], [runtime_multimodal_parameters] *)
Definition merge_runtime_model_capabilities (runtime_capabilities model_capabilities : list pystr) : list pystr :=
  let runtime := without_repeats runtime_capabilities in
  if negb (str_in (str "chat") runtime) || negb (str_in (str "chat") model_capabilities) then runtime
  else runtime ++ List.filter (fun x => str_in x model_capabilities) MULTIMODAL_CAPABILITIES.

Definition input_modalities (capabilities : list pystr) : list pystr :=
  (if intersects capabilities (texts ["chat"; "completion"; "decision"]%string) then [str "text"] else [])
  ++ List.filter (fun x => str_in x capabilities) MULTIMODAL_CAPABILITIES.

Definition runtime_multimodal_parameters (runtime : pystr) : list pystr :=
  default [] (dict_get runtime RUNTIME_MULTIMODAL_PARAMETERS).

(** ** A runtime lends a model no input that the model does not have *)

Lemma without_repeats_In x l : In x (without_repeats l) <-> In x l.
Proof. unfold without_repeats. rewrite set_union_In. cbn. tauto. Qed.

Lemma merged_capability runtime_capabilities model_capabilities x :
  In x (merge_runtime_model_capabilities runtime_capabilities model_capabilities) <->
  In x runtime_capabilities \/
  (In x MULTIMODAL_CAPABILITIES /\ In x model_capabilities /\ In (str "chat") runtime_capabilities /\ In (str "chat") model_capabilities).
Proof.
  unfold merge_runtime_model_capabilities. destruct (_ || _) eqn:Hc.
  - rewrite without_repeats_In. split; [by left|]. intros [H|(_ & _ & Hr & Hm)]; [done|].
    rewrite orb_true_iff, !negb_true_iff in Hc. rewrite <- (without_repeats_In (str "chat")) in Hr.
    rewrite <- str_in_In in Hr, Hm. destruct Hc; congruence.
  - apply orb_false_iff in Hc as [Hr%negb_false_iff Hm%negb_false_iff].
    rewrite in_app_iff, filter_In, without_repeats_In, str_in_In. rewrite str_in_In in Hm. rewrite str_in_In, without_repeats_In in Hr.
    naive_solver.
Qed.
