(* ===== verification/DeployPorts.v ===== *)
(** * Ports, fingerprints and labels of deployments

    The parts of [DeploymentService] (backend/app/services/deployments.py) that
    only read: the host ports that rows and containers reserve, the lowest free
    one, the fingerprint of a specification, the labels that a container of the
    service carries and their check, and the generation defaults that the
    deployments of one route share. *)
From Stdlib Require Import ZArith Lia Bool String SpecFloat.
From stdpp Require Import prelude gmap.
From S2P Require Import Prelude PyValue PosixPath PyFloat Utf8 Sha256 Json Secrets Traced PyText RuntimeSpec RuntimeBase DeployHost DeployContract.
Import Traced.
Open Scope Z_scope.

(** ** Specifications *)

Definition with_port (port : option Z) (s : DeploymentSpec) : DeploymentSpec :=
  mkSpec (sp_name s) (sp_model_id s) (sp_model_path s) (sp_api_model_name s) (sp_route_alias s) (sp_runtime s)
    (sp_image s) port (sp_context_length s) (sp_max_total_tokens s) (sp_memory_fraction s) (sp_max_concurrency s)
    (sp_max_batched_tokens s) (sp_disable_cuda_graph s) (sp_quantization s) (sp_trust_remote_code s)
    (sp_generation_defaults s) (sp_chat_template s) (sp_chat_template_kwargs s) (sp_speculative s) (sp_llama_cpp s)
    (sp_recommendation s) (sp_resource_warning_acknowledged s) (sp_resolution s).

(** Pydantic's [model_validate] of the two models that stored data is read with *)
Class Pydantic := {
  parse_spec : pyval -> result DeploymentSpec;
  parse_generation : pydict -> result GenerationDefaults;
}.

(** ** Fingerprints *)

Definition FINGERPRINT_FIELDS_OMITTED_WHEN_UNSET : list pystr :=
  map str ["chat_template"; "chat_template_kwargs"; "max_total_tokens"]%string.

(** [sort_keys=True, separators=(",", ":"), ensure_ascii=True] *)
Definition fingerprint_style : dump_style :=
  {| item_separator := str ","; key_separator := str ":"; ensure_ascii := true; sort_keys := true; allow_nan := true |}.

Definition omit_unset (public : pydict) : pydict :=
  foldl (fun d field => if is_none (get_or_none field d) then dict_del field d else d) public
    FINGERPRINT_FIELDS_OMITTED_WHEN_UNSET.

Section Fingerprint.
Context `{Platform}.

(** [_deployment_spec_fingerprint]; [public] is the dump of a specification *)
Definition fingerprint_of (public : pydict) (include_model_path omit_unset_optional : bool) : result pystr :=
  let public := if include_model_path then public else dict_del (str "model_path") public in
  let public := if omit_unset_optional then omit_unset public else public in
  canonical ← dumps fingerprint_style (PDict public);
  encoded ← of_option (utf8_encode canonical) (UnicodeError []);
  Ok (hex (sha256 encoded)).

Definition spec_dump (s : DeploymentSpec) : pydict := match public_dump s with PDict d => d | _ => [] end.

(** [deployment_spec_fingerprint] *)
Definition deployment_spec_fingerprint (s : DeploymentSpec) : result pystr := fingerprint_of (spec_dump s) false true.

(** *** What a row says of its specification *)
Context `{Pydantic}.

Definition config_of (row : Deployment) : pydict := match dp_config row with PDict d => d | _ => [] end.

Definition is_type_or_value_error (e : exn) : bool := is_ValueError e || match e with TypeError _ => true | _ => false end.

(** The stored specification, if it still is one *)
Definition stored_spec (row : Deployment) : result (option DeploymentSpec) :=
  match get "spec" (config_of row) with
  | PDict stored =>
      match parse_spec (PDict stored) with
      | Ok s => Ok (Some s)
      | Raise e => if is_type_or_value_error e then Ok None else Raise e
      end
  | _ => Ok None
  end.

(** [_stored_spec_fingerprint]; [_stored_container_fingerprints] *)
Definition stored_spec_fingerprint (row : Deployment) : result (option pystr) :=
  match get "spec" (config_of row) with
  | PDict stored =>
      match (s ← parse_spec (PDict stored); deployment_spec_fingerprint s) with
      | Ok f => Ok (Some f)
      | Raise e => if is_type_or_value_error e then Ok None else Raise e
      end
  | _ => Ok None
  end.

Definition stored_container_fingerprints (row : Deployment) : result (list pystr) :=
  s ← stored_spec row;
  match s with
  | None => Ok []
  | Some s =>
      mapM_result (fun p => fingerprint_of (spec_dump s) (fst p) (snd p))
        [(false, false); (false, true); (true, false); (true, true)]
  end.

Definition opt_text_eqb (a : option pystr) (b : option pystr) : bool :=
  match a, b with Some s, Some t => str_eqb s t | None, None => true | _, _ => false end.
Definition opt_int_eqb (a b : option Z) : bool :=
  match a, b with Some s, Some t => s =? t | None, None => true | _, _ => false end.

(** [_deployment_matches_spec] *)
Definition deployment_matches_spec (row : Deployment) (s : DeploymentSpec) : result bool :=
  stored ← stored_spec_fingerprint row;
  fingerprint ← deployment_spec_fingerprint s;
  Ok (opt_text_eqb stored (Some fingerprint)
      && str_eqb (dp_name row) (sp_name s) && opt_text_eqb (dp_model_id row) (sp_model_id s)
      && str_eqb (dp_runtime row) (sp_runtime s) && str_eqb (dp_api_model_name row) (sp_api_model_name s)
      && opt_text_eqb (dp_image row) (Some (sp_image s)) && opt_int_eqb (dp_port row) (sp_port s)).
End Fingerprint.

(** ** Labels *)

Definition LABEL_PREFIX : pystr := str "com.dgx-spark-manager.".
Definition label (name : string) : pystr := LABEL_PREFIX ++ str name.

Section Labels.
Context `{UnicodeData}.

(** [_expected_container_labels] *)
Definition expected_container_labels (s : DeploymentSpec) (task_id spec_fingerprint : pystr)
    (deployment_id replaces_container_id : option pystr) : list (pystr * pystr) :=
  [(label "managed", str "true"); (label "task-id", task_id); (label "spec-fingerprint", spec_fingerprint);
   (label "runtime", sp_runtime s); (label "model-id", default [] (sp_model_id s)); (label "route", route_name s);
   (label "image", sp_image s); (label "port", port_text s)]
  ++ match deployment_id with Some id => [(label "deployment-id", id)] | None => [] end
  ++ match replaces_container_id with Some id => [(label "replaces-container-id", id)] | None => [] end.
End Labels.

Definition label_mismatch : exn := ValueError (str "Existing container labels do not match this task and spec").

(** [(container.attrs.get("Config") or {}).get("Labels") or {}] *)
Definition container_labels (c : Container) : result pydict :=
  config ← py_get "Labels" (py_or (get "Config" (ct_attrs c)) (PDict []));
  match py_or config (PDict []) with PDict d => Ok d | _ => Raise attribute_error end.

Definition label_is (labels : pydict) (key value : pystr) : bool :=
  match dict_get key labels with Some (PStr s) => str_eqb s value | _ => false end.

(** [_validate_container_labels] *)
Definition validate_container_labels (c : Container) (expected : list (pystr * pystr))
    (require_task require_deployment : bool) (accepted_fingerprints : option (list pystr)) : result unit :=
  labels ← container_labels c;
  let holds (p : pystr * pystr) : bool :=
    let '(key, value) := p in
    if negb require_task && str_eqb key (label "task-id") then true
    else if negb require_deployment && str_eqb key (label "deployment-id") && negb (dict_mem key labels) then true
    else match accepted_fingerprints with
         | Some accepted =>
             if str_eqb key (label "spec-fingerprint")
             then match dict_get key labels with Some (PStr s) => str_in s accepted | _ => false end
             else label_is labels key value
         | None => label_is labels key value
         end in
  guard_exn (forallb holds expected) label_mismatch.

(** ** Generation defaults of a route *)

Section Routes.
Context `{Pydantic}.

(** [_normalized_generation_defaults] *)
Definition normalized_generation_defaults (value : pyval) : result pydict :=
  match value with
  | PDict d =>
      match parse_generation d with
      | Ok g => Ok (dump_generation g)
      | Raise e => if is_type_or_value_error e then Ok [] else Raise e
      end
  | _ => Ok []
  end.

Definition is_dict (v : pyval) : bool := match v with PDict _ => true | _ => false end.

(** The route of a row, and the defaults that are stored with it *)
Definition stored_route (row : Deployment) : pyval :=
  let config := config_of row in
  let stored := match get "spec" config with PDict d => d | _ => [] end in
  py_or (get "route_alias" config) (py_or (get "route_alias" stored) (PStr (dp_api_model_name row))).
Definition stored_defaults (row : Deployment) : result pydict :=
  let config := config_of row in
  let stored := match get "spec" config with PDict d => d | _ => [] end in
  let generation := get "generation_defaults" stored in
  normalized_generation_defaults (if is_dict generation then generation else get "generation_defaults" config).

Definition shared_defaults : exn := ValueError (str "Shared route generation defaults must match").

Fixpoint check_routes (rows : list (pystr * Deployment)) (route : pystr) (current : pydict) (exclude : option pystr)
    : result unit :=
  match rows with
  | [] => Ok tt
  | (id, row) :: rest =>
      if opt_text_eqb exclude (Some id) || negb (py_eqb (stored_route row) (PStr route))
      then check_routes rest route current exclude
      else
        stored ← stored_defaults row;
        if py_eqb (PDict stored) (PDict current) then check_routes rest route current exclude else Raise shared_defaults
  end.

(** [_validate_route_defaults] *)
Definition validate_route_defaults (d : database) (s : DeploymentSpec) (exclude_deployment_id : option pystr) : result unit :=
  check_routes (map_to_list (deployments d)) (route_name s) (dump_generation (sp_generation_defaults s)) exclude_deployment_id.
End Routes.

(** ** Ports *)

(** [_db_reserved_ports] *)
Definition db_reserved_ports (d : database) (exclude_deployment_id : option pystr) : list Z :=
  omap (fun p => match exclude_deployment_id with
                 | Some ((_ :: _) as id) => if str_eqb (fst p) id then None else dp_port (snd p)
                 | _ => dp_port (snd p)
                 end) (map_to_list (deployments d)).

Section Ports.
Context `{UnicodeData}.

(** The host ports of one container; those before a malformed value count *)
Fixpoint binding_ports (values : list pyval) (acc : list Z) : list Z * bool :=
  match values with
  | [] => (acc, true)
  | PDict d :: rest =>
      let host_port := get "HostPort" d in
      if truthy host_port
      then match py_int host_port with Ok n => binding_ports rest (acc ++ [n]) | Raise _ => (acc, false) end
      else binding_ports rest acc
  | _ :: _ => (acc, false)
  end.
Fixpoint all_binding_ports (bindings : list pyval) (acc : list Z) : list Z :=
  match bindings with
  | [] => acc
  | v :: rest =>
      if truthy v
      then match py_iter v with
           | Ok values => let '(acc, more) := binding_ports values acc in if more then all_binding_ports rest acc else acc
           | Raise _ => acc
           end
      else all_binding_ports rest acc
  end.
Definition container_ports (c : Container) : list Z :=
  match (host ← Ok (match dict_get (str "HostConfig") (ct_attrs c) with Some v => v | None => PDict [] end);
         bindings ← py_get "PortBindings" host; py_items (py_or bindings (PDict []))) with
  | Ok bindings => all_binding_ports (map snd bindings) []
  | Raise _ => []
  end.

(** The loop [while port in reserved: port += 1] *)
Fixpoint next_port (fuel : nat) (reserved : list Z) (port : Z) : Z :=
  match fuel with
  | O => port
  | S k => if existsb (Z.eqb port) reserved then next_port k reserved (port + 1) else port
  end.
Definition lowest_port (reserved : list Z) : Z := next_port (S (length reserved)) reserved 8000.

Context {E : Type} `{Host E}.
Notation prog := (tprogram database event E).

(** [_docker_reserved_ports] *)
Definition docker_reserved_ports (excluded : list pystr) : prog (list Z) :=
  containers ← catch (docker_client;; ask_result dk_list) anything (fun _ => mret []);
  mret (flat_map (fun c => if str_in (ct_id c) excluded then [] else container_ports c) containers).

(** [_deployment_reserved_ports] *)
Definition deployment_reserved_ports (d : database) (exclude_deployment_id : option pystr) : prog (list Z) :=
  let excluded :=
    match exclude_deployment_id with
    | Some ((_ :: _) as id) =>
        match deployments d !! id with
        | Some row => match dp_container_id row with Some ((_ :: _) as c) => [c] | _ => [] end
        | None => []
        end
    | _ => []
    end in
  live ← docker_reserved_ports excluded;
  mret (db_reserved_ports d exclude_deployment_id ++ live).

(** [_allocate_deployment_port] *)
Definition allocate_deployment_port (d : database) (exclude_deployment_id : option pystr) : prog Z :=
  reserved ← deployment_reserved_ports d exclude_deployment_id;
  mret (lowest_port reserved).

Definition port_in_use (port : Z) : exn := ValueError (str "Host port " ++ dec port ++ str " is already in use").
Definition reserved_by (port : option Z) (reserved : list Z) : bool :=
  match port with Some p => existsb (Z.eqb p) reserved | None => false end.

(** [_prepare_spec_port] *)
Definition prepare_spec_port (d : database) (s : DeploymentSpec) (exclude_deployment_id : option pystr) (include_docker : bool)
    : prog DeploymentSpec :=
  match sp_port s with
  | None =>
      reserved ← (if include_docker then deployment_reserved_ports d exclude_deployment_id
                  else mret (db_reserved_ports d exclude_deployment_id) : prog (list Z));
      mret (with_port (Some (lowest_port reserved)) s)
  | Some port =>
      if existsb (Z.eqb port) (db_reserved_ports d exclude_deployment_id) then raise (port_in_use port)
      else mret (with_port (Some port) s)
  end.
End Ports.

(** ** The lowest free port *)

Lemma next_port_spec reserved : forall fuel port,
  port <= next_port fuel reserved port <= port + Z.of_nat fuel
  /\ (forall p, port <= p < next_port fuel reserved port -> In p reserved)
  /\ (In (next_port fuel reserved port) reserved -> next_port fuel reserved port = port + Z.of_nat fuel).
Proof.
  induction fuel as [|fuel IH]; intros port; cbn [next_port]; [split_and!; [lia|lia|by intros; lia|lia]|].
  destruct (existsb _ _) eqn:Hin.
  - destruct (IH (port + 1)) as (Hb & Hp & Hl). split; [lia|]. split; [|intros H; apply Hl in H; lia].
    intros p Hp'. destruct (decide (p = port)) as [->|]; [|by apply Hp; lia].
    apply existsb_exists in Hin as (q & Hq & ->%Z.eqb_eq). done.
  - split; [lia|]. split; [lia|]. intros Hr. exfalso.
    assert (existsb (Z.eqb port) reserved = true) by (apply existsb_exists; exists port; split; [done|lia]). congruence.
Qed.

(** A list that covers [n] consecutive numbers has at least [n] items. *)
Lemma covered_length (l : list Z) a n : (forall q, a <= q < a + Z.of_nat n -> In q l) -> (n <= length l)%nat.
Proof.
  intros Hc. replace n with (length (map (fun k : nat => (a + Z.of_nat k)%Z) (seq 0 n))) by by rewrite length_map, length_seq.
  apply NoDup_incl_length.
  - apply (Finite.Injective_map_NoDup (f := fun k : nat => (a + Z.of_nat k)%Z)); [intros x y; lia|apply List.seq_NoDup].
  - intros q (k & <- & Hk)%in_map_iff. apply in_seq in Hk. apply Hc. lia.
Qed.

Lemma lowest_port_free reserved :
  8000 <= lowest_port reserved <= 8000 + zlen reserved /\ ~ In (lowest_port reserved) reserved
  /\ forall q, 8000 <= q < lowest_port reserved -> In q reserved.
Proof.
  unfold lowest_port, zlen. destruct (next_port_spec reserved (S (length reserved)) 8000) as (Hb & Hp & Hl).
  set (p := next_port _ _ _) in *.
  assert (~ In p reserved) as Hfree.
  { intros Hin. specialize (Hl Hin). enough (S (S (length reserved)) <= length reserved)%nat by lia.
    apply (covered_length _ 8000). intros q Hq. destruct (Z.eq_dec q p) as [->|]; [done|]. apply Hp. lia. }
  split; [|done]. split; [lia|].
  enough (Z.to_nat (p - 8000) <= length reserved)%nat by lia. apply (covered_length _ 8000). intros q Hq. apply Hp. lia.
Qed.

(** ** The port of a specification *)

(** Another row than the excluded one has the port. *)
Definition row_takes (d : database) (exclude : option pystr) (port : Z) : Prop := exists id row,
  deployments d !! id = Some row /\ (exclude = Some id -> id = []) /\ dp_port row = Some port.

Lemma reserved_row d exclude p : In p (db_reserved_ports d exclude) <-> row_takes d exclude p.
Proof.
  unfold db_reserved_ports, row_takes. rewrite <- list_elem_of_In, list_elem_of_omap. split.
  - intros ([id row] & Hin & Hp). apply elem_of_map_to_list in Hin. exists id, row. cbn in Hp. split; [done|].
    destruct exclude as [[|c x]|]; [split; [by intros [= <-]|done]| |by split].
    revert Hp. destruct (str_eqb_spec id (c :: x)) as [->|Hne]; [done|]. intros Hp. split; [by intros [= <-]|done].
  - intros (id & row & Hrow & Hne & Hp). exists (id, row). split; [by apply elem_of_map_to_list|]. cbn.
    destruct exclude as [[|c x]|]; [done| |done].
    destruct (str_eqb_spec id (c :: x)) as [->|]; [by discriminate Hne|done].
Qed.

Section PreparePort.
Context `{UnicodeData} {E : Type} `{Host E}.
Notation prog := (tprogram database event E).

(** C18.  A port that a specification names is kept when no other row has it
    and is refused otherwise.  Without one, the specification gets the lowest
    port from 8000 on that neither another row nor, when Docker is asked, a
    container that Docker lists for another deployment has: it is free, and
    every port from 8000 up to it is taken.  Nothing else of the
    specification changes. *)
Theorem prepared_port_free d s exclude include_docker (w w' : tworld database event E) r :
  prepare_spec_port d s exclude include_docker w = (r, w') ->
  match sp_port s with
  | Some p =>
      w' = w /\ ((r = Ok (with_port (Some p) s) /\ ~ row_takes d exclude p)
                \/ (r = Raise (port_in_use p) /\ row_takes d exclude p))
  | None => forall s', r = Ok s' -> exists p live,
      s' = with_port (Some p) s
      /\ (if include_docker then docker_reserved_ports
             match exclude with
             | Some ((_ :: _) as id) => match deployments d !! id with
                                        | Some row => match dp_container_id row with Some ((_ :: _) as c) => [c] | _ => [] end
                                        | None => []
                                        end
             | _ => []
             end w = (Ok live, w')
          else live = [] /\ w' = w)
      /\ 8000 <= p /\ ~ row_takes d exclude p /\ ~ In p live
      /\ forall q, 8000 <= q < p -> row_takes d exclude q \/ In q live
  end.
Proof.
  unfold prepare_spec_port. intros Hrun. destruct (sp_port s) as [port|].
  - destruct (existsb _ _) eqn:Hin; injection Hrun as <- <-; (split; [done|]).
    + right. split; [done|]. apply reserved_row. apply existsb_exists in Hin as (q & Hq & ->%Z.eqb_eq). done.
    + left. split; [done|]. intros Hr%reserved_row.
      assert (existsb (Z.eqb port) (db_reserved_ports d exclude) = true); [|congruence].
      apply existsb_exists. exists port. split; [done|lia].
  - intros s' ->.
    assert (forall live, let p := lowest_port (db_reserved_ports d exclude ++ live) in
              8000 <= p /\ ~ row_takes d exclude p /\ ~ In p live
              /\ forall q, 8000 <= q < p -> row_takes d exclude q \/ In q live) as Hport.
    { intros live p. destruct (lowest_port_free (db_reserved_ports d exclude ++ live)) as (Hb & Hfree & Hlow).
      split_and!; [lia| | |].
      - intros Hr%reserved_row. apply Hfree, in_app_iff. by left.
      - intros Hin. apply Hfree, in_app_iff. by right.
      - intros q [Hq|Hq]%Hlow%in_app_iff; [left; by apply reserved_row|by right]. }
    destruct include_docker.
    + unfold deployment_reserved_ports, mbind, program_bind in Hrun.
      destruct (docker_reserved_ports _ w) as [[live|e] w2]; [|done]. injection Hrun as <- <-.
      exists (lowest_port (db_reserved_ports d exclude ++ live)), live. split_and!; [done|done|apply Hport..].
    + injection Hrun as <- <-. pose proof (Hport []) as Hp. rewrite app_nil_r in Hp.
      exists (lowest_port (db_reserved_ports d exclude)), []. split_and!; [done|done|done|apply Hp..].
Qed.
End PreparePort.
