(* ===== verification/DeployResolve.v ===== *)
(** * Resolving a specification before a launch

    [_resolve_spec_with_capabilities], [_preflight], [preview] and
    [_run_container] of backend/app/services/deployments.py: a specification is
    completed from the rows of its models, checked against the runtime, the
    files and the memory of the host, and turned into the arguments that Docker
    is called with.  The services it asks (capabilities of a runtime, evidence of
    a model, draft candidates, the system) answer through the class [Services];
    the adapters are those of the Runtime files, with the methods they add for a
    launch. *)
From Stdlib Require Import ZArith Lia Bool String SpecFloat.
From stdpp Require Import prelude gmap.
From S2P Require Import Prelude PyValue PosixPath PyFloat Utf8 Sha256 Json Secrets Traced PyText PurePath Resources RuntimeSpec RuntimeBase DeployHost DeployContract ModelCapabilities DeployPorts.
Import Traced.
Open Scope Z_scope.

(** ** Adapters at a launch *)

Record LaunchAdapter (F : Type) := mkLaunch {
  la_base : Adapter F;
  la_preview : DeploymentSpec -> files F pydict;
  la_kv_cache_budget : DeploymentSpec -> option Z;
  la_extra_volumes : DeploymentSpec -> files F pydict;
  la_environment : DeploymentSpec -> files F pydict;
  la_entrypoint : DeploymentSpec -> files F (option (list pystr));
  la_security_options : DeploymentSpec -> files F (list pystr);
  la_ulimits : DeploymentSpec -> files F (list pydict);
}.
Arguments mkLaunch {F}. Arguments la_base {F}. Arguments la_preview {F}. Arguments la_kv_cache_budget {F}.
Arguments la_extra_volumes {F}. Arguments la_environment {F}. Arguments la_entrypoint {F}.
Arguments la_security_options {F}. Arguments la_ulimits {F}.

(** ** The services *)

(** [RuntimeCapabilities], [ModelEvidence] and [DraftCandidate], as far as they
    are read here *)
Record RuntimeCapabilities := mkCapabilities {
  rc_speculative_methods : list pystr;
  rc_method_mapping : list (pystr * pystr);
  rc_warnings : list pystr;
  rc_dump : pyval;
}.
Record ModelEvidence := mkEvidence { ev_config : pydict; ev_embedded_mtp_available : bool }.
Record DraftCandidate := mkCandidate {
  dc_model_id : pystr;
  dc_method : option SpeculativeMethod;
  dc_status : pystr;
  dc_dump : pyval;
}.

(** Answers of the services; one that is not configured raises *)
Class Services (E F : Type) := {
  se_files : E -> F;
  se_put_files : F -> E -> E;
  se_capabilities : pystr -> pystr -> E -> result RuntimeCapabilities * E;
  se_evidence : pystr -> E -> result ModelEvidence * E;
  se_candidates : database -> pystr -> RuntimeCapabilities -> pyval -> E -> result (list DraftCandidate) * E;
  se_snapshot : E -> result pyval * E;
  (** [benchmark_runner(endpoint, api_model_name, runtime)] *)
  se_benchmark : pystr -> pystr -> pystr -> E -> result pydict * E;
}.

Definition with_resolution (model_path : pystr) (r : Resolution) (s : DeploymentSpec) : DeploymentSpec :=
  mkSpec (sp_name s) (sp_model_id s) model_path (sp_api_model_name s) (sp_route_alias s) (sp_runtime s)
    (sp_image s) (sp_port s) (sp_context_length s) (sp_max_total_tokens s) (sp_memory_fraction s) (sp_max_concurrency s)
    (sp_max_batched_tokens s) (sp_disable_cuda_graph s) (sp_quantization s) (sp_trust_remote_code s)
    (sp_generation_defaults s) (sp_chat_template s) (sp_chat_template_kwargs s) (sp_speculative s) (sp_llama_cpp s)
    (sp_recommendation s) (sp_resource_warning_acknowledged s) (Some r).
Definition with_template (template : option pystr) (s : DeploymentSpec) : DeploymentSpec :=
  mkSpec (sp_name s) (sp_model_id s) (sp_model_path s) (sp_api_model_name s) (sp_route_alias s) (sp_runtime s)
    (sp_image s) (sp_port s) (sp_context_length s) (sp_max_total_tokens s) (sp_memory_fraction s) (sp_max_concurrency s)
    (sp_max_batched_tokens s) (sp_disable_cuda_graph s) (sp_quantization s) (sp_trust_remote_code s)
    (sp_generation_defaults s) template (sp_chat_template_kwargs s) (sp_speculative s) (sp_llama_cpp s)
    (sp_recommendation s) (sp_resource_warning_acknowledged s) (sp_resolution s).

Definition value_error (s : string) : exn := ValueError (str s).

(** [_container_path] *)
Definition container_path (bind : pystr) (relative : path) : pystr :=
  match join (str "/") (path_parts relative) with [] => bind | suffix => bind ++ str "/" ++ suffix end.

(** [_system_memory] *)
Definition system_memory (snapshot : pyval) : result pydict :=
  match snapshot with
  | PDict d =>
      match (match dict_get (str "memory") d with Some m => m | None => PDict d end) with
      | PDict m => Ok m
      | _ => Raise (value_error "System resource snapshot is unavailable")
      end
  | _ => Raise (value_error "System resource snapshot is unavailable")
  end.

(** [estimate.model_dump(mode="json")] *)
Definition decision_text (d : decision) : pystr :=
  match d with d_ok => str "ok" | d_warning => str "warning" | d_blocked => str "blocked" end.
Definition dump_estimate (e : ResourceEstimate) : pyval :=
  PDict [(str "total_bytes", PInt (Resources.total_bytes e)); (str "available_bytes", PInt (Resources.available_bytes e));
         (str "reserved_bytes", PInt (Resources.reserved_bytes e)); (str "weight_bytes", PInt (weight_bytes e));
         (str "draft_weight_bytes", PInt (draft_weight_bytes e)); (str "kv_cache_bytes", PInt (estimate_kv_bytes e));
         (str "runtime_overhead_bytes", PInt (runtime_overhead_bytes e)); (str "required_bytes", PInt (required_bytes e));
         (str "decision", PStr (decision_text (estimate_decision e)));
         (str "confidence", PStr (match estimate_confidence e with c_high => str "high" | c_low => str "low" end));
         (str "reasons", str_list (reasons e))].

Definition opt_path (o : option pystr) : pyval := opt_value PStr o.

(** [_mount_preview] of a resolved specification *)
Definition has_draft (s : DeploymentSpec) : bool :=
  match sp_speculative s with Some c => is_some (draft_model_id c) | None => false end.
Definition mount_preview (s : DeploymentSpec) (r : Resolution) : pydict :=
  let shared := opt_text_eqb (draft_model_root r) (base_model_root r) in
  (str "base", PDict [(str "host_root", opt_path (base_host_model_root r)); (str "container_bind", text "/models");
                      (str "model_path", PStr (sp_model_path s));
                      (str "container_model_path", opt_path (base_container_model_path r)); (str "mode", text "ro")])
  :: if has_draft s
     then [(str "draft", PDict [(str "host_root", opt_path (draft_host_model_root r));
              (str "container_bind", PStr (if shared then str "/models" else str "/draft-models"));
              (str "model_path", opt_path (resolved_draft_model_path r));
              (str "container_model_path", opt_path (draft_container_model_path r)); (str "mode", text "ro");
              (str "reuses_base_mount", PBool shared)])]
     else [].

Section Resolve.
Context {E F : Type} `{Host E} `{Services E F} `{ModelFiles F} `{UnicodeData} `{CaseFolding} `{ModelCards} `{Platform} `{Pydantic}.
Context (adapters : list (pystr * LaunchAdapter F)) (roots : list (path * path)) (estimator : ResourceEstimator).
Notation prog := (tprogram database event E).

Definition model_roots : list path := map fst roots.

(** A program over the files *)
Definition on_files {A} (m : files F A) : prog A := fun w =>
  let '(r, f) := m (se_files (env w)) in (r, mkWorld (state w) (se_put_files f (env w)) (trace w)).

(** [self.adapter(runtime)] and [_adapter_for_spec] *)
Definition launch_adapter (runtime : pystr) : prog (LaunchAdapter F) :=
  lift (of_option (dict_get runtime adapters) (ValueError (str "Unsupported runtime: " ++ runtime))).
Definition adapter_for_spec (s : DeploymentSpec) : prog (LaunchAdapter F) :=
  a ← launch_adapter (sp_runtime s);
  if negb (str_eqb (sp_runtime s) (ad_runtime (la_base a)))
  then raise (ValueError (str "Adapter " ++ ad_runtime (la_base a) ++ str " cannot deploy runtime " ++ sp_runtime s))
  else if negb (str_in (sp_image s) (ad_images (la_base a)))
  then raise (ValueError (str "Image is not allowed for " ++ sp_runtime s))
  else mret a.

(** [_root_details]: the root, its host directory and the path below it *)
Fixpoint find_root (resolved : path) (l : list (path * path)) : files F (path * path * path) :=
  match l with
  | [] => RuntimeBase.raise outside_roots
  | (root, host_root) :: rest =>
      resolved_root ← reads (fs_resolve root);
      if under_root resolved resolved_root
      then relative ← RuntimeBase.lift (relative_to resolved resolved_root); mret (resolved_root, host_root, relative)
      else find_root resolved rest
  end.
Definition root_details (model_path : path) : files F (path * path * path) :=
  resolved ← validate_model_path model_path model_roots; find_root resolved roots.

(** [validate_model_path] and [_root_details], with one message for both *)
Definition located (local_path : pystr) (message : string) : prog (path * (path * path * path)) :=
  catch (on_files (p ← validate_model_path (parse_path local_path) model_roots; r ← root_details p; mret (p, r)))
    is_ValueError (fun _ => raise (value_error message)).

Definition available (d : database) (id : option pystr) (message : string) : prog (pystr * ModelAsset) :=
  match id with
  | Some ((_ :: _) as i) =>
      match assets d !! i with
      | Some a =>
          if str_eqb (ma_status a) (str "available") && negb (str_eqb (ma_local_path a) []) then mret (i, a)
          else raise (value_error message)
      | None => raise (value_error message)
      end
  | _ => raise (value_error message)
  end.

(** Embedded MTP heads, or a separate draft model *)
Definition resolve_draft (d : database) (s : DeploymentSpec) (c : SpeculativeConfig) (target : pystr) (base : path)
    (base_root : path) (runtime_method : pystr) (r : Resolution) : prog Resolution :=
  if is_method mtp c && negb (is_some (draft_model_id c)) then
    if negb (str_in (sp_runtime s) [str "vllm"; str "sglang"])
    then raise (value_error "Embedded MTP requires a supported vLLM or SGLang runtime")
    else
      evidence ← catch (ask_result (se_evidence (path_str base))) anything
                   (fun _ => raise (value_error "Embedded MTP evidence could not be verified"));
      if negb (ev_embedded_mtp_available evidence)
      then raise (value_error "Base model does not contain an embedded MTP head")
      else mret (mkResolution (base_model_root r) (base_host_model_root r) (base_container_model_path r) None None None None
                   (Some runtime_method))
  else
    '(id, draft) ← available d (draft_model_id c) "Draft Model is missing or unavailable";
    if str_eqb id target then raise (value_error "Base model and Draft Model must be different") else
    '(draft_path, (draft_root, draft_host_root, draft_relative)) ←
      located (ma_local_path draft) "Draft Model path is unavailable";
    let bind := if path_eqb draft_root base_root then str "/models" else str "/draft-models" in
    mret (mkResolution (base_model_root r) (base_host_model_root r) (base_container_model_path r)
            (Some (path_str draft_path)) (Some (path_str draft_root)) (Some (path_str draft_host_root))
            (Some (container_path bind draft_relative)) (Some runtime_method)).

(** [_resolve_spec_with_capabilities] *)
Definition resolve_spec_with_capabilities (d : database) (s : DeploymentSpec) : prog (DeploymentSpec * RuntimeCapabilities) :=
  a ← adapter_for_spec s;
  '(target_id, target) ← available d (sp_model_id s) "Base model is missing or unavailable";
  let chat_template :=
    recommended_chat_template_profile s [Some (ma_name target); ma_repository_id target; Some (ma_local_path target)] in
  let s := with_template chat_template s in
  '(base, (base_root, base_host_root, base_relative)) ← located (ma_local_path target) "Base model path is unavailable";
  capabilities ← catch (ask_result (se_capabilities (sp_runtime s) (sp_image s))) anything
                   (fun _ => raise (value_error "Runtime capabilities could not be verified"));
  let r := mkResolution (Some (path_str base_root)) (Some (path_str base_host_root))
             (Some (container_path (str "/models") base_relative)) None None None None None in
  r ← match sp_speculative s with
      | None => mret r
      | Some c =>
          if negb (str_in (method_text (method c)) (rc_speculative_methods capabilities))
          then raise (value_error "Speculative method is unsupported by the runtime")
          else match dict_get (method_text (method c)) (rc_method_mapping capabilities) with
               | Some ((_ :: _) as runtime_method) => resolve_draft d s c target_id base base_root runtime_method r
               | _ => raise (value_error "Speculative method mapping is unavailable")
               end : prog Resolution
      end;
  resolved ← lift (new_DeploymentSpec (with_resolution (path_str base) r s));
  mret (resolved, capabilities).

(** *** [_preflight] *)

(** The draft candidate of a specification that names a draft model *)
Definition check_candidate (d : database) (s : DeploymentSpec) (target : pystr) (capabilities : RuntimeCapabilities)
    (snapshot : pyval) (c : SpeculativeConfig) (draft : pystr) : prog DraftCandidate :=
  candidates ← ask_result (se_candidates d target capabilities snapshot);
  match find (fun x => str_eqb (dc_model_id x) draft) candidates with
  | None => raise (value_error "Draft Model compatibility could not be verified")
  | Some x =>
      if str_eqb (dc_status x) (str "incompatible") || negb (bool_decide (dc_method x = Some (method c)))
      then raise (value_error "Draft Model is incompatible")
      else if str_eqb (dc_status x) (str "review") && negb (manual_review_acknowledged c)
      then raise (value_error "Draft Model review acknowledgement is required")
      else mret x
  end.

Definition resource_estimate (a : LaunchAdapter F) (s : DeploymentSpec) (model_path : path) (draft_size : Z) (memory : pydict)
    : prog ResourceEstimate :=
  catch
    (evidence ← ask_result (se_evidence (sp_model_path s));
     resident ← on_files (ad_resident (la_base a) model_path);
     lift (estimate estimator (PInt resident) (PDict (ev_config evidence)) (PInt (sp_context_length s))
             (PInt (sp_max_concurrency s)) (PDict memory) (PInt draft_size)
             (opt_value PInt (la_kv_cache_budget a s))))
    anything (fun _ => raise (value_error "Deployment resource requirements could not be verified")).

Definition reason_of (e : ResourceEstimate) : pystr :=
  match join (str "; ") (take 4 (reasons e)) with [] => str "resource limit exceeded" | t => t end.

(** The port of a launch: taken in the meantime, it is chosen again or refused *)
Definition launch_port (d : database) (s : DeploymentSpec) (exclude : option pystr) (auto_port : bool) : prog DeploymentSpec :=
  reserved ← deployment_reserved_ports d exclude;
  if reserved_by (sp_port s) reserved then
    if auto_port then port ← allocate_deployment_port d exclude; mret (with_port (Some port) s)
    else raise (ValueError (str "Host port " ++ port_text s ++ str " is already in use"))
  else mret s.

Definition set_all (entries d : pydict) : pydict := foldl (fun acc p => dict_set (fst p) (snd p) acc) d entries.

(** What the preview adds to that of the adapter *)
Definition preflight_preview (a : LaunchAdapter F) (s : DeploymentSpec) (r : Resolution) (target : ModelAsset)
    (capabilities : RuntimeCapabilities) (e : ResourceEstimate) (candidate : option DraftCandidate) : prog pydict :=
  shown ← on_files (la_preview a s);
  inferred ← on_files (infer_model_capabilities (parse_path (sp_model_path s)) None);
  let inferred := set_union (set_union [] (ma_capabilities target)) inferred in
  let openai_capabilities := merge_runtime_model_capabilities (ad_capabilities (la_base a)) inferred in
  let parameters := if intersects inferred MULTIMODAL_CAPABILITIES then runtime_multimodal_parameters (sp_runtime s) else [] in
  let warnings := rc_warnings capabilities
    ++ if bool_decide (estimate_decision e = d_warning)
       then [str "Current available unified memory requires deployment review"] else [] in
  fingerprint ← lift (deployment_spec_fingerprint s);
  mret (set_all
    [(str "capabilities", str_list openai_capabilities); (str "input_modalities", str_list (input_modalities openai_capabilities));
     (str "multimodal_parameters", str_list parameters);
     (str "spec", PDict (spec_dump s)); (str "runtime_capabilities", rc_dump capabilities);
     (str "resource_estimate", dump_estimate e); (str "draft_candidate", opt_value dc_dump candidate);
     (str "mounts", PDict (mount_preview s r));
     (str "generation_defaults", PDict (dump_generation (sp_generation_defaults s)));
     (str "speculative", get "speculative" (spec_dump s)); (str "recommendation", get "recommendation" (spec_dump s));
     (str "warnings", str_list warnings); (str "spec_fingerprint", PStr fingerprint)] shown).

Definition draft_of (s : DeploymentSpec) : option (SpeculativeConfig * pystr) :=
  match sp_speculative s with
  | Some c => match draft_model_id c with Some id => Some (c, id) | None => None end
  | None => None
  end.

Definition preflight (d : database) (s : DeploymentSpec) (exclude : option pystr) (auto_port : bool)
    : prog (DeploymentSpec * pydict) :=
  '(s, capabilities) ← resolve_spec_with_capabilities d s;
  a ← launch_adapter (sp_runtime s);
  model_path ← on_files (ad_validate (la_base a) s);
  compatibility ← on_files (ad_compatibility (la_base a) model_path);
  if negb (truthy (get "compatible" compatibility)) then raise (value_error "Base model is incompatible") else
  lift (validate_route_defaults d s exclude);;
  '(snapshot, memory) ← catch (snapshot ← ask_result se_snapshot; memory ← lift (system_memory snapshot); mret (snapshot, memory))
                          anything (fun _ => raise (value_error "System resource snapshot is unavailable"));
  '(target_id, target) ← match sp_model_id s with
                         | Some id => match assets d !! id with
                                      | Some t => mret (id, t)
                                      | None => raise (value_error "Base model is missing or unavailable")
                                      end
                         | None => raise (value_error "Base model is missing or unavailable")
                         end : prog (pystr * ModelAsset);
  candidate ← match draft_of s with
              | Some (c, id) => x ← check_candidate d s target_id capabilities snapshot c id; mret (Some x)
              | None => mret None : prog (option DraftCandidate)
              end;
  let draft_size := match draft_of s with
                    | Some (_, id) => match assets d !! id with Some t => ma_size_bytes t | None => 0 end
                    | None => 0
                    end in
  e ← resource_estimate a s model_path draft_size memory;
  if bool_decide (estimate_decision e = d_blocked)
  then raise (ValueError (str "Deployment is blocked by current resources: " ++ reason_of e))
  else if bool_decide (estimate_decision e = d_warning) && negb (sp_resource_warning_acknowledged s)
  then raise (value_error "Resource warning acknowledgement is required")
  else
    s ← launch_port d s exclude auto_port;
    match sp_resolution s with
    | Some r => shown ← preflight_preview a s r target capabilities e candidate; mret (s, shown)
    | None => raise (value_error "Resolved deployment spec is required")
    end.

(** *** [_run_container] *)

Definition mounts_of (v : pydict) : result (list (pystr * (pystr * pystr))) :=
  mapM_result (fun p => match snd p with
                        | PDict m => bind ← item "bind" m; mode ← item "mode" m;
                                     match bind, mode with
                                     | PStr b, PStr x => Ok (fst p, (b, x))
                                     | _, _ => Raise (TypeError (str "mounts are text"))
                                     end
                        | _ => Raise (TypeError (str "mounts are dictionaries"))
                        end) v.

Fixpoint add_mounts (extra volumes : list (pystr * (pystr * pystr))) : result (list (pystr * (pystr * pystr))) :=
  match extra with
  | [] => Ok volumes
  | (source, (bind, mode)) :: rest =>
      if dict_mem source volumes || existsb (fun v => str_eqb (fst (snd v)) bind) volumes
      then Raise (value_error "Runtime mount conflicts with a model mount")
      else add_mounts rest (dict_set source (bind, mode) volumes)
  end.

Definition model_volumes (s : DeploymentSpec) : result (list (pystr * (pystr * pystr))) :=
  match sp_resolution s with
  | None => Raise (value_error "Resolved deployment spec is required")
  | Some r =>
      match base_host_model_root r, base_container_model_path r with
      | Some ((_ :: _) as host), Some (_ :: _) =>
          let volumes := [(host, (str "/models", str "ro"))] in
          if is_some (sp_speculative s) && is_some (draft_model_root r)
             && negb (opt_text_eqb (draft_model_root r) (base_model_root r)) then
            match draft_host_model_root r with
            | Some ((_ :: _) as draft) => Ok (dict_set draft (str "/draft-models", str "ro") volumes)
            | _ => Raise (value_error "Resolved Draft Model mount is required")
            end
          else Ok volumes
      | _, _ => Raise (value_error "Resolved base model mount is required")
      end
  end.

Definition keyword (b : bool) (name : string) (v : pyval) : pydict := if b then [(str name, v)] else [].

(** The arguments of [containers.run]; the device request and the log
    configuration are the same for every deployment. *)
Definition launch_options (a : LaunchAdapter F) (s : DeploymentSpec) (name task_id fingerprint : pystr)
    (deployment_id replaces_container_id : option pystr) : files F RunOptions :=
  volumes ← RuntimeBase.lift (model_volumes s);
  extra ← la_extra_volumes a s;
  extra ← RuntimeBase.lift (mounts_of extra);
  volumes ← RuntimeBase.lift (add_mounts extra volumes);
  security_opt ← la_security_options a s;
  ulimits ← la_ulimits a s;
  entrypoint ← la_entrypoint a s;
  command ← ad_command (la_base a) s;
  environment ← la_environment a s;
  mret (mkRunOptions (PStr (sp_image s)) name volumes
    (expected_container_labels s task_id fingerprint deployment_id replaces_container_id)
    ([(str "entrypoint", opt_value str_list entrypoint); (str "command", str_list command); (str "detach", PBool true);
      (str "ports", PDict [(str "8000/tcp", opt_value PInt (sp_port s))]);
      (str "restart_policy", PDict [(str "Name", text "unless-stopped")]);
      (str "log_config", PDict [(str "max-size", text "10m"); (str "max-file", text "5")]);
      (str "device_requests", PList [PDict [(str "Count", PInt (-1)); (str "Capabilities", PList [PList [text "gpu"]])]]);
      (str "environment", PDict (dict_update [(str "HF_HUB_OFFLINE", text "1")] environment))]
     ++ keyword (match security_opt with [] => false | _ => true end) "security_opt" (str_list security_opt)
     ++ keyword (match ulimits with [] => false | _ => true end) "ulimits" (PList (map PDict ulimits)))).

Definition run_container (a : LaunchAdapter F) (s : DeploymentSpec) (name task_id fingerprint : pystr)
    (deployment_id replaces_container_id : option pystr) : prog Container :=
  options ← on_files (launch_options a s name task_id fingerprint deployment_id replaces_container_id);
  run options.

(** *** [preview] *)
Definition preview_deployment (s : DeploymentSpec) (exclude : option pystr) : prog pydict :=
  d ← session;
  let auto_port := negb (is_some (sp_port s)) in
  s ← prepare_spec_port d s exclude (negb auto_port);
  '(_, shown) ← preflight d s exclude auto_port;
  mret shown.
End Resolve.
