(* ===== verification/DeployAdapters.v ===== *)
(** * The adapters at a launch

    The five runtimes with the methods that [_run_container] and [_preflight] of
    backend/app/services/deployments.py call (backend/app/runtime/): those an
    adapter does not override are the defaults of runtime/base.py.  Theorems: how
    the directories of a host are mounted. *)
From Stdlib Require Import ZArith Lia Bool String SpecFloat.
From stdpp Require Import prelude gmap.
From S2P Require Import Prelude PyValue PosixPath PyFloat Json JsonBytes Secrets PyText PurePath Resources RuntimeSpec RuntimeBase RuntimeVllm RuntimeSglang RuntimeLlamaCpp RuntimeOther DeployHost DeployContract DeployPorts DeployResolve.
Open Scope Z_scope.

Section Adapters.
Context {F : Type} `{ModelFiles F} `{UnicodeData} `{CaseFolding} `{Bundled} `{ErrorText} `{Platform} `{SetOrder}.
Context (images : list pystr) (roots : list path).

(** [RuntimeAdapter.extra_volumes], [environment], [entrypoint],
    [security_options] and [ulimits] *)
Definition no_volumes (s : DeploymentSpec) : files F pydict := mret [].
Definition no_environment (s : DeploymentSpec) : files F pydict := mret [].
Definition image_entrypoint (s : DeploymentSpec) : files F (option (list pystr)) := mret None.
Definition no_security_options (s : DeploymentSpec) : files F (list pystr) := mret [].
Definition no_ulimits (s : DeploymentSpec) : files F (list pydict) := mret [].
Definition no_kv_cache_budget (s : DeploymentSpec) : option Z := None.

Definition vllm_launch : LaunchAdapter F :=
  mkLaunch (vllm_adapter images roots) (preview (vllm_adapter images roots)) vllm_kv_cache_budget
    (vllm_extra_volumes images roots) (vllm_environment images roots) (fun s => mret (vllm_entrypoint s))
    no_security_options no_ulimits.
Definition sglang_launch : LaunchAdapter F :=
  mkLaunch (sglang_adapter images roots) (sglang_preview images roots) no_kv_cache_budget no_volumes
    (sglang_environment images roots) image_entrypoint (sglang_security_options images roots) (sglang_ulimits images roots).
Definition laya_launch : LaunchAdapter F :=
  mkLaunch (laya_adapter images roots) (laya_preview images roots) no_kv_cache_budget no_volumes no_environment
    (fun _ => mret (Some laya_entrypoint)) no_security_options no_ulimits.
Definition viggle_launch (runtime_token : pystr) : LaunchAdapter F :=
  mkLaunch (viggle_adapter images roots) (viggle_preview images roots) no_kv_cache_budget no_volumes
    (viggle_environment images roots runtime_token) (fun _ => mret (Some viggle_entrypoint)) no_security_options no_ulimits.
Definition llama_launch (host_dir : pystr) (manager_dir container_dir : path) : LaunchAdapter F :=
  let a := llama_adapter images roots host_dir manager_dir in
  mkLaunch a (preview a) no_kv_cache_budget (llama_extra_volumes images roots host_dir manager_dir container_dir)
    (llama_environment images roots host_dir manager_dir container_dir)
    (fun s => e ← llama_entrypoint images roots host_dir manager_dir container_dir s; mret (Some e))
    no_security_options no_ulimits.
End Adapters.

(** ** Mounts *)

Notation bind_of := (fun v : pystr * (pystr * pystr) => fst (snd v)).

Lemma dict_set_new {V} k (v : V) l : dict_mem k l = false -> dict_set k v l = l ++ [(k, v)].
Proof.
  induction l as [|[k' v'] l IH]; [done|]. unfold dict_mem in *. cbn. destruct (str_eqb k k') eqn:Hk; [done|].
  intros Hm. by rewrite IH.
Qed.
Lemma dict_set_one {V} k (v : V) k' v' : dict_set k v [(k', v')] = if str_eqb k k' then [(k', v)] else [(k', v'); (k, v)].
Proof. done. Qed.
Lemma not_member {V} k (l : list (pystr * V)) : dict_mem k l = false -> ~ In k (map fst l).
Proof.
  unfold dict_mem. induction l as [|[k' v'] l IH]; [by intros _ []|]. cbn. destruct (str_eqb_spec k k') as [->|Hne]; [done|].
  intros Hm [->|Hin]; [done|]. by apply IH.
Qed.

Lemma NoDup_snoc {A} (x : A) l : List.NoDup l -> ~ In x l -> List.NoDup (l ++ [x]).
Proof.
  intros Hl Hx. apply List.NoDup_app; [done|by repeat constructor; intros []|].
  intros y Hy [<-|[]]. done.
Qed.

(** Adding mounts keeps those that are there, and all directories apart. *)
Lemma add_mounts_spec extra : forall volumes out, add_mounts extra volumes = Ok out ->
  List.NoDup (map fst volumes) -> List.NoDup (map bind_of volumes) ->
  List.NoDup (map fst out) /\ List.NoDup (map bind_of out) /\ (exists more, out = volumes ++ more).
Proof.
  induction extra as [|[source [bind mode]] extra IH]; intros volumes out; cbn [add_mounts].
  - intros [= <-] H1 H2. split_and!; [done|done|]. exists []. by rewrite app_nil_r.
  - destruct (dict_mem source volumes || _) eqn:Hc; [done|]. apply orb_false_iff in Hc as [Hm Hb].
    rewrite (dict_set_new _ _ _ Hm). intros Hout H1 H2. apply not_member in Hm.
    apply IH in Hout as (Ha & Hd & more & ->).
    + split_and!; [done|done|]. exists ([(source, (bind, mode))] ++ more). by rewrite app_assoc.
    + rewrite map_app. by apply NoDup_snoc.
    + rewrite map_app. apply NoDup_snoc; [done|]. intros (v & Hv & Hin)%in_map_iff.
      assert (existsb (fun v => str_eqb (fst (snd v)) bind) volumes = true) as Ht; [|congruence].
      apply existsb_exists. exists v. split; [done|]. apply str_eqb_eq. done.
Qed.

Lemma opt_text_eqb_eq a b : opt_text_eqb a b = true <-> a = b.
Proof. destruct a, b; cbn; rewrite ?str_eqb_eq; split; congruence. Qed.

Lemma binds_apart : str "/models" <> str "/draft-models".
Proof. by vm_compute. Qed.

(** What the mounts of the models are *)
Definition models_mounted (s : DeploymentSpec) (volumes : list (pystr * (pystr * pystr))) : Prop :=
  exists r host, sp_resolution s = Some r /\ base_host_model_root r = Some host /\
    (In (host, (str "/models", str "ro")) volumes \/
     draft_model_root r <> base_model_root r /\ draft_host_model_root r = Some host /\
     In (host, (str "/draft-models", str "ro")) volumes) /\
    (sp_speculative s <> None -> draft_model_root r <> None -> draft_model_root r <> base_model_root r ->
     exists draft, draft_host_model_root r = Some draft /\ In (draft, (str "/draft-models", str "ro")) volumes).

Lemma model_volumes_spec s volumes : model_volumes s = Ok volumes ->
  List.NoDup (map fst volumes) /\ List.NoDup (map bind_of volumes) /\ models_mounted s volumes.
Proof.
  unfold model_volumes, models_mounted. destruct (sp_resolution s) as [r|]; [|done].
  destruct (base_host_model_root r) as [[|c host]|] eqn:Hhost; [done| |done].
  destruct (base_container_model_path r) as [[|]|]; [done| |done].
  destruct (is_some (sp_speculative s) && is_some (draft_model_root r) && _) eqn:Hdraft.
  - rewrite !andb_true_iff, negb_true_iff in Hdraft. destruct Hdraft as [[Hs Hr] Hne].
    assert (draft_model_root r <> base_model_root r) as Hne' by (intros Heq%opt_text_eqb_eq; congruence).
    destruct (draft_host_model_root r) as [[|c' draft]|] eqn:Hd; [done| |done].
    rewrite dict_set_one. destruct (str_eqb_spec (c' :: draft) (c :: host)) as [Heq|Hdh]; intros [= <-].
    + split_and!; [by repeat constructor; intros []|by repeat constructor; intros []|]. exists r, (c :: host).
      split_and!; [done|done| |]; [right; split_and!; [done|by rewrite <- Heq|by left]|]. intros _ _ _. eexists; split; [done|rewrite Heq; by left].
    + split_and!; [| |exists r, (c :: host); split_and!; [done|done|left; by left|]].
      * constructor; [intros [Heq|[]]; by apply Hdh|by repeat constructor; intros []].
      * constructor; [intros [Heq|[]]; by apply binds_apart|by repeat constructor; intros []].
      * intros _ _ _. eexists; split; [done|by right; left].
  - intros [= <-]. split_and!; [by repeat constructor; intros []|by repeat constructor; intros []|].
    exists r, (c :: host). split_and!; [done|done|left; by left|]. intros Hs Hr Hne. exfalso.
    destruct (sp_speculative s), (draft_model_root r); try done.
    destruct (opt_text_eqb _ _) eqn:Heq; [by apply opt_text_eqb_eq in Heq|done].
Qed.

(** C17.  The mounts of a launch: no host directory and no directory of the container
    is used twice, the models are read-only, and the base model's root is at
    [/models]; when the draft model has another root on the same host directory,
    only [/draft-models] is left. *)
Theorem launch_mounts {F : Type} `{ModelFiles F} `{UnicodeData} (a : LaunchAdapter F) s name task_id fingerprint d rep f o f' :
  launch_options a s name task_id fingerprint d rep f = (Ok o, f') ->
  List.NoDup (map fst (ru_volumes o)) /\ List.NoDup (map bind_of (ru_volumes o)) /\ models_mounted s (ru_volumes o).
Proof.
  unfold launch_options. intros Hrun.
  apply bind_Ok_inv in Hrun as (volumes & f1 & [Hv ->]%lift_Ok_inv & Hrun). apply bind_Ok_inv in Hrun as (e1 & f2 & _ & Hrun).
  apply bind_Ok_inv in Hrun as (extra & f3 & _ & Hrun). apply bind_Ok_inv in Hrun as (out & f4 & [Hout ->]%lift_Ok_inv & Hrun).
  do 5 (apply bind_Ok_inv in Hrun as (? & ? & _ & Hrun)). injection Hrun as <- _. cbn [ru_volumes].
  destruct (model_volumes_spec _ _ Hv) as (H1 & H2 & r & host & Hr & Hh & Hbase & Hdraft).
  destruct (add_mounts_spec _ _ _ Hout H1 H2) as (H3 & H4 & more & ->). split_and!; [done|done|].
  exists r, host. split_and!; [done|done| |].
  - destruct Hbase as [Hb|(Hne & Hd & Hb)]; [left|right; split_and!; [done|done|]]; apply in_app_iff; by left.
  - intros Hs Hd Hne. destruct (Hdraft Hs Hd Hne) as (draft & Hdh & Hin). exists draft. rewrite in_app_iff. auto.
Qed.
