(* ===== verification/DeployChanges.v ===== *)
(** * Creating and updating deployments

    [create_handler] and [update_handler] of backend/app/services/deployments.py
    with what they call: the recovery of a deployment that is already there, the
    benchmark after a start, the replacement of a container with the old one as a
    backup.  [create_handler] runs under a lock of the process
    ([_port_allocation_lock]); what other sessions write is the environment's. *)
From Stdlib Require Import ZArith Lia Bool String SpecFloat.
From stdpp Require Import prelude gmap.
From S2P Require Import Prelude PyValue PosixPath PyFloat Utf8 PyTime Secrets Traced PyText PurePath Resources RuntimeSpec RuntimeBase DeployHost DeployContract ModelCapabilities DeployPorts DeployResolve.
Import Traced.
Open Scope Z_scope.

(** The result of a creation or an update *)
Record ChangeResult := mkChange {
  cr_deployment_id : pystr;
  cr_container_name : pystr;
  cr_endpoint_url : pystr;
  cr_idempotent : bool;
  cr_benchmark : option pydict;
}.

Definition endpoint_of (port : option Z) : pystr :=
  str "http://127.0.0.1:" ++ match port with Some n => dec n | None => str "None" end.
Definition changed_meanwhile : exn := value_error "Deployment changed while recovery was running".
Definition invalid_measurement : exn := value_error "TPS benchmark returned invalid measurements".

Definition with_model_benchmark (tps : spec_float) (at_ : datetime) (a : ModelAsset) : ModelAsset :=
  mkAsset (ma_name a) (ma_repository_id a) (ma_local_path a) (ma_status a) (ma_size_bytes a) (ma_capabilities a)
    (Some tps) (Some at_).

(** The row of a new deployment, and of an updated one *)
Definition preview_capabilities (shown : pydict) : list pystr :=
  match get "capabilities" shown with PList l => omap as_str l | _ => [] end.

Definition launched_row (s : DeploymentSpec) (container_id container_name endpoint : pystr) (shown : pydict) (benchmark : Benchmark)
    (now : datetime) : Deployment :=
  mkDeployment (sp_name s) (sp_model_id s) (sp_runtime s) (Some container_id) (Some container_name) endpoint
    (sp_api_model_name s) (str "running") (str "healthy") true (Some (sp_image s)) (sp_port s) benchmark (PDict shown)
    (preview_capabilities shown) now.

(** An updated row keeps whether it is managed, and its benchmark *)
Definition updated_row (s : DeploymentSpec) (container_id container_name endpoint : pystr) (shown : pydict) (row : Deployment)
    : Deployment :=
  mkDeployment (sp_name s) (sp_model_id s) (sp_runtime s) (Some container_id) (Some container_name) endpoint
    (sp_api_model_name s) (str "running") (str "healthy") (dp_managed row) (Some (sp_image s)) (sp_port s)
    (dp_benchmark row) (PDict shown) (preview_capabilities shown) (dp_updated_at row).

(** A row whose container was recovered *)
Definition recovered_row (container_name endpoint : pystr) (row : Deployment) : Deployment :=
  mkDeployment (dp_name row) (dp_model_id row) (dp_runtime row) (dp_container_id row) (Some container_name) endpoint
    (dp_api_model_name row) (str "running") (str "healthy") (dp_managed row) (dp_image row) (dp_port row)
    (dp_benchmark row) (dp_config row) (dp_capabilities row) (dp_updated_at row).

Definition removed_meanwhile : exn := value_error "Deployment was removed while update was running".

Definition same_datetime (a b : datetime) : bool :=
  (wall a =? wall b) && opt_int_eqb (utcoffset a) (utcoffset b).

(** *** Numbers of a benchmark *)

(** [float(v)], [round(x, 3)] and [f"{x:.3f}"]: conversions of the standard
    library that no theorem depends on *)
Class Numbers := {
  py_float : pyval -> result spec_float;
  round3 : spec_float -> spec_float;
  format3 : spec_float -> pystr;
}.

Definition isoformat (t : datetime) : pystr := stamp (wall t).

Section Changes.
Context {E F : Type} `{Host E} `{Services E F} `{ModelFiles F} `{UnicodeData} `{CaseFolding} `{ModelCards} `{Platform} `{Pydantic}.
Context `{ErrorText} `{Numbers}.
Context (adapters : list (pystr * LaunchAdapter F)) (roots : list (path * path)) (estimator : ResourceEstimator).
(** [startup_timeout_seconds], whether there is a [benchmark_runner], and the
    id of the task *)
Context (startup_timeout_seconds : Z) (has_benchmark : bool) (task_id : pystr).
Notation prog := (tprogram database event E).

(** The session of an update that has its container: the row must still be there. *)
Definition write_row (id : pystr) (values : Deployment -> Deployment) : prog unit :=
  d ← session;
  match deployments d !! id with
  | Some row =>
      now ← ask ho_now;
      let row' := Some (touched now (values row)) in
      commit (put_deployment id row') (EWrite id (Some row) row')
  | None => raise removed_meanwhile
  end.

(** *** [_benchmark_deployment] *)

Definition benchmarked (runtime : pystr) : bool := negb (str_in runtime [str "laya"; str "viggle"]) && has_benchmark.

(** [tps <= 0] is false of a NaN *)
Definition not_positive (x : spec_float) : bool := SFleb x (S754_zero false).

Definition bench_number (key : string) (raw : pydict) : result spec_float := v ← item key raw; py_float v.

Definition run_benchmark (deployment_id endpoint api_model_name runtime : pystr) (tested_at : datetime) : prog pydict :=
  raw ← ask_result (se_benchmark endpoint api_model_name runtime);
  tps ← lift (bench_number "tps" raw);
  tokens ← lift (v ← item "completion_tokens" raw; py_int v);
  seconds ← lift (bench_number "duration_seconds" raw);
  if not_positive tps || (tokens <=? 0) || not_positive seconds then raise invalid_measurement else
  let benchmark := set_all
    [(str "status", text "succeeded"); (str "tps", PFloat (round3 tps)); (str "completion_tokens", PInt tokens);
     (str "duration_seconds", PFloat (round3 seconds)); (str "tested_at", PStr (isoformat tested_at))] raw in
  d ← session;
  match deployments d !! deployment_id with
  | Some row =>
      let measured := mkBenchmark (Some (str "succeeded")) (Some (round3 tps)) (Some tokens) (Some (round3 seconds))
                        (Some tested_at) None in
      now ← ask ho_now;
      let row' := Some (touched now (with_benchmark measured row)) in
      match match dp_model_id row with Some m => (fun a => (m, a)) <$> assets d !! m | None => None end with
      | Some (m, a) =>
          let a' := with_model_benchmark (round3 tps) tested_at a in
          commit (fun d => put_asset m a' (put_deployment deployment_id row' d)) (EWrite deployment_id (Some row) row');;
          log (EAsset m a')
      | None => commit (put_deployment deployment_id row') (EWrite deployment_id (Some row) row')
      end
  | None => mret tt
  end;;
  report (Some (NInt 99)) (Some (str "TPS benchmark completed at " ++ format3 (round3 tps) ++ str " tok/s"));;
  mret benchmark.

Definition benchmark_failed (deployment_id : pystr) (tested_at : datetime) (e : exn) : prog pydict :=
  let error := match take 2000 (strip (redact_log (error_text e))) with [] => str "TPS benchmark failed" | t => t end in
  d ← session;
  match deployments d !! deployment_id with
  | Some row =>
      now ← ask ho_now;
      let row' := Some (touched now (with_benchmark
        (mkBenchmark (Some (str "failed")) None None None (Some tested_at) (Some error)) row)) in
      commit (put_deployment deployment_id row') (EWrite deployment_id (Some row) row')
  | None => mret tt
  end;;
  report (Some (NInt 99)) (Some (str "TPS benchmark failed: " ++ error));;
  mret [(str "status", text "failed"); (str "error", PStr error); (str "tested_at", PStr (isoformat tested_at))].

Definition benchmark_deployment (deployment_id endpoint api_model_name runtime : pystr) : prog (option pydict) :=
  if negb (benchmarked runtime) then mret None else
  d ← session;
  match deployments d !! deployment_id with
  | None => mret None
  | Some row =>
      now ← ask ho_now;
      let row' := Some (touched now (with_benchmark (mkBenchmark (Some (str "running")) None None None None None) row)) in
      commit (put_deployment deployment_id row') (EWrite deployment_id (Some row) row');;
      report (Some (NInt 94)) (Some (str "Deployment healthy; running TPS benchmark"));;
      tested_at ← ask ho_now;
      r ← catch (run_benchmark deployment_id endpoint api_model_name runtime tested_at) anything
            (benchmark_failed deployment_id tested_at);
      mret (Some r)
  end.

(** *** [_recover_committed_deployment] *)

(** [_sync_recovered_deployment]: the row must be as it was seen *)
Definition as_seen (seen : Deployment) (row : Deployment) : bool :=
  opt_text_eqb (dp_container_id row) (dp_container_id seen) && dp_managed row
  && same_datetime (dp_updated_at row) (dp_updated_at seen) && str_eqb (dp_status row) (dp_status seen)
  && str_eqb (dp_health row) (dp_health seen) && opt_text_eqb (dp_container_name row) (dp_container_name seen)
  && str_eqb (dp_endpoint_url row) (dp_endpoint_url seen).
Definition same_settings_as (seen : Deployment) (row : Deployment) : bool :=
  str_eqb (dp_name row) (dp_name seen) && opt_text_eqb (dp_model_id row) (dp_model_id seen)
  && str_eqb (dp_runtime row) (dp_runtime seen) && str_eqb (dp_api_model_name row) (dp_api_model_name seen)
  && opt_text_eqb (dp_image row) (dp_image seen) && opt_int_eqb (dp_port row) (dp_port seen).

Definition sync_recovered_deployment (deployment_id : pystr) (seen : Deployment) (s : DeploymentSpec) (container_name endpoint : pystr)
    : prog unit :=
  d ← session;
  current ← match deployments d !! deployment_id with
            | Some row => if as_seen seen row then lift (deployment_matches_spec row s) else mret false
            | None => mret false : prog bool
            end;
  if negb current : bool then raise changed_meanwhile else
  d ← session;
  match deployments d !! deployment_id with
  | Some row =>
      if as_seen seen row && same_settings_as seen row then
        now ← ask ho_now;
        let row' := touched now (recovered_row container_name endpoint row) in
        matches ← lift (deployment_matches_spec row' s);
        if negb (opt_text_eqb (dp_container_id row') (dp_container_id seen) && dp_managed row' && matches)
        then raise changed_meanwhile
        else commit (put_deployment deployment_id (Some row')) (EWrite deployment_id (Some row) (Some row'))
      else raise changed_meanwhile
  | None => raise changed_meanwhile
  end.

(** [_coordinate_failed_recovery_start] *)
Definition coordinate_failed_recovery_start (target : Container) (deployment_id container_id : pystr) : prog unit :=
  catch
    (d ← session;
     let reference := find (fun p => opt_text_eqb (dp_container_id (snd p)) (Some container_id)) (map_to_list (deployments d)) in
     let should_stop :=
       match reference with
       | None => true
       | Some (id, row) =>
           str_eqb id deployment_id
           && (str_in (dp_status row) [str "deleted"; str "dead"; str "exited"; str "stopped"]
               || str_eqb (dp_health row) (str "unhealthy"))
       end in
     if should_stop then adapter_stop target else mret tt)
    anything (fun _ => mret tt).

(** [_cleanup_committed_backup] *)
Definition cleanup_committed_backup (target : Container) (deployment_id : pystr) : prog unit :=
  backup ← get_container_optional (backup_container_name deployment_id);
  match backup : option Container with
  | None => mret tt
  | Some b =>
      if str_eqb (ct_id b) (ct_id target) then mret tt
      else
        target_labels ← lift (container_labels target); backup_labels ← lift (container_labels b);
        let replaced := get_or_none (label "replaces-container-id") target_labels in
        if negb (label_is backup_labels (label "managed") (str "true")) || negb (truthy replaced)
           || negb (py_eqb (PStr (ct_id b)) replaced)
        then report None (Some (str "backup cleanup conflict: ownership could not be verified"))
        else remove_owned_container b
  end.

Definition recover_committed_deployment (deployment_id : pystr) (row : Deployment) (s : DeploymentSpec)
    (cleanup_backup benchmark_if_missing force_benchmark : bool) : prog ChangeResult :=
  let container_id := default [] (dp_container_id row) in
  let needs_benchmark := force_benchmark
    || benchmark_if_missing && negb (opt_text_eqb (bm_status (dp_benchmark row)) (Some (str "succeeded"))) in
  adapter_for_spec adapters s;;
  docker_client;;
  target ← get_container_optional container_id;
  match target : option Container with
  | None => raise (value_error "Persisted replacement container was not found")
  | Some target =>
      fingerprint ← lift (deployment_spec_fingerprint s);
      accepted ← lift (stored_container_fingerprints row);
      lift (validate_container_labels target
              (expected_container_labels s task_id fingerprint (Some deployment_id) None) false cleanup_backup (Some accepted));;
      let endpoint := endpoint_of (sp_port s) in
      let started_here := negb (str_eqb (ct_status target) (str "running")) in
      catch
        ((if started_here then adapter_start target else mret tt : prog unit);;
         healthy ← wait_for_health startup_timeout_seconds endpoint 25 90;
         if negb healthy : bool then raise (RuntimeError (str "Persisted replacement container is unhealthy"))
         else sync_recovered_deployment deployment_id row s (ct_name target) endpoint)
        anything
        (fun e =>
           (if started_here then coordinate_failed_recovery_start target deployment_id container_id else mret tt : prog unit);;
           raise e);;
      (if cleanup_backup then cleanup_committed_backup target deployment_id else mret tt : prog unit);;
      benchmark ← (if needs_benchmark
                   then benchmark_deployment deployment_id endpoint (sp_api_model_name s) (sp_runtime s)
                   else mret None : prog (option pydict));
      mret (mkChange deployment_id (ct_name target) endpoint true benchmark)
  end.

(** *** [create_handler] *)

Definition identity_conflict : exn := value_error "Deployment identity conflicts with existing deployments".
Definition same_name (s : DeploymentSpec) (row : Deployment) : bool :=
  str_eqb (dp_name row) (sp_name s) || str_eqb (dp_api_model_name row) (sp_api_model_name s).

Definition unhealthy_launch (prefix : string) (infix : string) (logs : pystr) : exn :=
  RuntimeError (str prefix ++ dec startup_timeout_seconds ++ str infix ++ logs).

(** The first session: a deployment that is there, or the resolved specification *)
Definition plan_create (payload : pyval)
    : prog ((pystr * Deployment * DeploymentSpec) + (DeploymentSpec * pydict * pystr)) :=
  d ← session;
  s ← lift (parse_spec payload);
  match List.filter (fun p => same_name s (snd p)) (map_to_list (deployments d)) with
  | [] =>
      let auto_port := negb (is_some (sp_port s)) in
      s ← prepare_spec_port d s None (negb auto_port);
      '(s, shown) ← preflight adapters roots estimator d s None auto_port;
      fingerprint ← lift (item "spec_fingerprint" shown);
      mret (inr (s, shown, py_str fingerprint))
  | [(id, row)] =>
      if negb (str_eqb (dp_name row) (sp_name s) && str_eqb (dp_api_model_name row) (sp_api_model_name s))
      then raise (value_error "Deployment identity conflicts with an existing deployment")
      else
        let s := match sp_port s, dp_port row with None, Some p => with_port (Some p) s | _, _ => s end in
        matches ← lift (deployment_matches_spec row s);
        if negb matches : bool then raise (value_error "Existing deployment uses a different deployment spec")
        else mret (inl (id, row, s))
  | _ => raise identity_conflict
  end.

(** The container with the name of the deployment, or a new one *)
Definition obtain_container (a : LaunchAdapter F) (s : DeploymentSpec) (name fingerprint : pystr) : prog (Container * bool) :=
  catch
    (c ← get_container name;
     lift (validate_container_labels c (expected_container_labels s task_id fingerprint None None) true true None);;
     (if negb (str_eqb (ct_status c) (str "running")) then adapter_start c else mret tt : prog unit);;
     mret (c, false))
    is_NotFound (fun _ => c ← run_container a s name task_id fingerprint None None; mret (c, true)).

(** Waiting for the container, and its row *)
Definition record_launch (c : Container) (s : DeploymentSpec) (name endpoint : pystr) (shown : pydict) : prog pystr :=
  report (Some (NInt 25)) (Some (str "Container " ++ name ++ str " started; waiting for health"));;
  healthy ← wait_for_health startup_timeout_seconds endpoint 25 90;
  if negb healthy : bool then
    logs ← startup_logs c;
    report None (Some (str "Startup failed. Last container logs:" ++ [10] ++ logs));;
    raise (unhealthy_launch "Deployment did not become healthy within "
             (" seconds."%string) (match logs with [] => [] | _ => str " Last container logs:" ++ [10] ++ logs end))
  else
    c ← reload c;
    session;;
    id ← ask ho_new_id; now ← ask ho_now;
    let benchmark := mkBenchmark (if benchmarked (sp_runtime s) then Some (str "pending") else None) None None None None None in
    let row := launched_row s (ct_id c) name endpoint shown benchmark now in
    commit (put_deployment id (Some row)) (EWrite id None (Some row));;
    mret id.

(** [db.refresh(deployment)] *)
Definition refresh (id : pystr) : prog unit :=
  d ← session;
  match deployments d !! id with
  | Some _ => mret tt
  | None => raise (OtherException (str "InvalidRequestError"))
  end.

Definition create_handler (payload : pyval) : prog ChangeResult :=
  planned ← plan_create payload;
  match planned : (pystr * Deployment * DeploymentSpec) + (DeploymentSpec * pydict * pystr) with
  | inl (id, row, s) => recover_committed_deployment id row s false true false
  | inr (s, shown, fingerprint) =>
      a ← launch_adapter adapters (sp_runtime s);
      docker_client;;
      let name := deterministic_container_name (sp_name s) in
      let endpoint := endpoint_of (sp_port s) in
      '(c, created) ← obtain_container a s name fingerprint;
      id ← catch (record_launch c s name endpoint shown) anything
             (fun e => (if created : bool then remove_owned_container c else mret tt : prog unit);; raise e);
      refresh id;;
      benchmark ← benchmark_deployment id endpoint (sp_api_model_name s) (sp_runtime s);
      mret (mkChange id name endpoint false benchmark)
  end.

(** *** [update_handler] *)

(** What an update knows once its first session has closed *)
Record UpdatePlan := mkUpdate {
  up_deployment_id : pystr;
  up_spec : DeploymentSpec;
  up_preview : pydict;
  up_fingerprint : pystr;
  up_container_id : pystr;
  up_container_name : pystr;
  up_status : pystr;
}.

Definition up_new_name (p : UpdatePlan) : pystr := deterministic_container_name (sp_name (up_spec p)).
Definition up_backup_name (p : UpdatePlan) : pystr := backup_container_name (up_deployment_id p).
Definition up_endpoint (p : UpdatePlan) : pystr := endpoint_of (sp_port (up_spec p)).

(** The first session: the deployment already is as asked for, or a plan *)
Definition plan_update (deployment_id : pystr) (s : DeploymentSpec) : prog ((Deployment * DeploymentSpec) + UpdatePlan) :=
  d ← session;
  match deployments d !! deployment_id with
  | None => raise no_deployment
  | Some row =>
      match dp_container_id row with
      | Some ((_ :: _) as container_id) =>
          if negb (dp_managed row) then raise (value_error "Discovered containers cannot be edited") else
          let auto_port := negb (is_some (sp_port s)) in
          s ← prepare_spec_port d s (Some deployment_id) (negb auto_port);
          if existsb (fun p => negb (str_eqb (fst p) deployment_id) && same_name s (snd p)) (map_to_list (deployments d))
          then raise (value_error "Another deployment uses this name or API model name")
          else
            matches ← lift (deployment_matches_spec row s);
            same ← (if matches : bool then
                      '(resolved, _) ← resolve_spec_with_capabilities adapters roots d s;
                      a ← launch_adapter adapters (sp_runtime resolved);
                      command ← on_files (ad_command (la_base a) resolved);
                      mret (py_eqb (match dp_config row with PDict c => get "command" c | _ => PNone end) (str_list command))
                    else mret false : prog bool);
            if same : bool then mret (inl (row, s)) else
            '(resolved, shown) ← preflight adapters roots estimator d s (Some deployment_id) auto_port;
            fingerprint ← lift (item "spec_fingerprint" shown);
            let name := match dp_container_name row with
                        | Some ((_ :: _) as n) => n
                        | _ => deterministic_container_name (dp_name row)
                        end in
            mret (inr (mkUpdate deployment_id resolved shown (py_str fingerprint) container_id name (dp_status row)))
      | _ => raise no_deployment
      end
  end.

(** Stopping the old container and giving it the name of a backup *)
Definition set_aside (p : UpdatePlan) (old : Container) (replacement : option Container) : prog unit :=
  match replacement with
  | Some c =>
      lift (validate_container_labels c
              (expected_container_labels (up_spec p) task_id (up_fingerprint p) (Some (up_deployment_id p)) (Some (up_container_id p)))
              true true None)
  | None => mret tt
  end;;
  if str_eqb (ct_name old) (up_container_name p) then
    (if str_eqb (ct_status old) (str "running") then adapter_stop old else mret tt : prog unit);;
    call old (CRename (up_backup_name p))
  else if negb (str_eqb (ct_name old) (up_backup_name p)) then raise (value_error "Existing backup container state is invalid")
  else mret tt.

(** The new container, once it is there *)
Definition start_replacement (p : UpdatePlan) (a : LaunchAdapter F) (replacement : option Container) : prog Container :=
  match replacement with
  | None =>
      report (Some (NInt 20)) (Some (str "Creating replacement container " ++ up_new_name p));;
      run_container a (up_spec p) (up_new_name p) task_id (up_fingerprint p) (Some (up_deployment_id p)) (Some (up_container_id p))
  | Some c => mret c
  end.

Definition start_existing (c : Container) (replacement : option Container) : prog unit :=
  match replacement with
  | Some _ => if negb (str_eqb (ct_status c) (str "running")) then adapter_start c else mret tt
  | None => mret tt
  end.

(** Its health, and the row *)
Definition record_update (p : UpdatePlan) (c : Container) : prog unit :=
  healthy ← wait_for_health startup_timeout_seconds (up_endpoint p) 30 92;
  (if negb healthy : bool then
     logs ← startup_logs c;
     raise (unhealthy_launch "Updated deployment did not become healthy within " (" seconds. Last logs:"%string) ([10] ++ logs))
   else mret tt : prog unit);;
  c ← reload c;
  write_row (up_deployment_id p) (updated_row (up_spec p) (ct_id c) (up_new_name p) (up_endpoint p) (up_preview p)).

(** The handler of the block: the new container goes, and the old one gets back
    its name and runs again, as far as its object says that it does not *)
Definition undo_update (p : UpdatePlan) (old : Container) (new : option Container) : prog unit :=
  match new with Some c => remove_owned_container c | None => mret tt end;;
  catch
    ((if str_eqb (ct_name old) (up_backup_name p) then call old (CRename (up_container_name p)) else mret tt : prog unit);;
     if str_eqb (up_status p) (str "running") && negb (str_eqb (ct_status old) (str "running")) then adapter_start old else mret tt)
    anything (fun _ => mret tt).

Definition undone {A} (p : UpdatePlan) (old : Container) (new : option Container) (m : prog A) : prog A :=
  catch m anything (fun e => undo_update p old new;; raise e).

(** The replacement of the container of [old]; the object [old] is as it was
    loaded before *)
Definition replace_container (p : UpdatePlan) (a : LaunchAdapter F) (old : Container) (replacement : option Container)
    : prog unit :=
  c ← undone p old None (set_aside p old replacement;; start_replacement p a replacement);
  undone p old (Some c) (start_existing c replacement;; record_update p c);;
  catch (call old (CRemove true)) anything
    (fun e => report None (Some (str "Old stopped container cleanup deferred: " ++ error_text e))).

Definition update_handler (payload : pydict) : prog ChangeResult :=
  id ← lift (item "deployment_id" payload);
  let deployment_id := py_str id in
  given ← lift (item "spec" payload);
  s ← lift (parse_spec given);
  planned ← plan_update deployment_id s;
  match planned : (Deployment * DeploymentSpec) + UpdatePlan with
  | inl (row, s) => recover_committed_deployment deployment_id row s true false true
  | inr p =>
      a ← launch_adapter adapters (sp_runtime (up_spec p));
      docker_client;;
      old ← get_container (up_container_id p);
      old ← reload old;
      found ← get_container_optional (up_new_name p);
      let replacement := match found : option Container with
                         | Some c => if str_eqb (ct_id c) (ct_id old) then None else Some c
                         | None => None
                         end in
      replace_container p a old replacement;;
      benchmark ← benchmark_deployment deployment_id (up_endpoint p) (sp_api_model_name (up_spec p)) (sp_runtime (up_spec p));
      mret (mkChange deployment_id (up_new_name p) (up_endpoint p) false benchmark)
  end.

(** *** [logs] *)
Definition logs (row : Deployment) (tail : Z) : prog pystr :=
  match dp_container_id row with
  | Some ((_ :: _) as id) =>
      docker_client;; c ← get_container id;
      launch_adapter adapters (dp_runtime row);;
      text ← adapter_logs c tail; mret (redact_log text)
  | _ => raise (value_error "Deployment has no container")
  end.
End Changes.
