(* ===== verification/DeployChangeSafety.v ===== *)
(** * What creating and updating a deployment does to containers

    Theorems about [create_handler] and [update_handler] (DeployChanges): which
    containers they remove and when, and what a failed run leaves behind.  They
    are about the part of the trace that a run adds, whatever the environment
    answers. *)
From Stdlib Require Import ZArith Lia Bool String SpecFloat.
From stdpp Require Import prelude gmap.
From S2P Require Import Prelude PyValue PosixPath PyFloat Utf8 PyTime Secrets Traced PyText PurePath Resources RuntimeSpec RuntimeBase DeployHost DeployContract ModelCapabilities DeployPorts DeployResolve DeployChanges DeployTraces.
Import Traced.
Open Scope Z_scope.

(** ** Claims about the part of a trace that is new *)

Section Since.
Context {E : Type}.
Notation prog := (tprogram database event E).
Notation world := (tworld database event E).

(** What has been added to [t0] satisfies [J]. *)
Definition grown (t0 : list event) (J : list event -> Prop) (w : world) : Prop :=
  exists l, trace w = t0 ++ l /\ J l.

(** [J] outlives events that satisfy [P]. *)
Definition stable (P : event -> Prop) (J : list event -> Prop) : Prop :=
  forall l k, J l -> Forall P k -> J (l ++ k).

Lemma stable_and P J K : stable P J -> stable P K -> stable P (fun l => J l /\ K l).
Proof. intros HJ HK l k [Hj Hk] Hf. split; auto. Qed.
Lemma stable_or P J K : stable P J -> stable P K -> stable P (fun l => J l \/ K l).
Proof. intros HJ HK l k [Hj|Hk] Hf; [left|right]; auto. Qed.
Lemma stable_const P (X : Prop) : stable P (fun _ => X).
Proof. by intros l k HX _. Qed.
Lemma stable_if P (X : Prop) J : (X -> stable P J) -> stable P (fun l => X -> J l).
Proof. intros HJ l k Hj Hf HX. apply HJ; auto. Qed.
Lemma stable_ex {A} P (J : A -> list event -> Prop) : (forall a, stable P (J a)) -> stable P (fun l => exists a, J a l).
Proof. intros HJ l k [a Ha] Hf. exists a. by apply HJ. Qed.
Lemma stable_In P e : stable P (In e).
Proof. intros l k He _. apply in_app_iff. by left. Qed.
Lemma stable_Forall (P Q : event -> Prop) : (forall e, P e -> Q e) -> stable P (Forall Q).
Proof. intros HPQ l k Hl Hk. apply Forall_app. split; [done|]. by eapply Forall_impl. Qed.

Context (t0 : list event).
Notation since := (grown t0).

Lemma since_emits {A} P J (m : prog A) : stable P J -> emits any_state (Forall P) m ->
  triple (since J) m (fun _ => since J) (fun _ => since J).
Proof.
  intros HJ Hm w (l & Hl & Hj). destruct (Hm w) as (_ & k & Hk & Hf). unfold wp.
  assert (since J (snd (m w))) as Hs by (exists (l ++ k); rewrite Hk, Hl, app_assoc; auto).
  by destruct (m w) as [[a|e] w'].
Qed.
Lemma since_mono {A} (J J' : list event -> Prop) (K K' : A -> list event -> Prop) (R R' : exn -> list event -> Prop) (m : prog A) :
  triple (since J) m (fun a => since (K a)) (fun e => since (R e)) ->
  (forall l, J' l -> J l) -> (forall a l, K a l -> K' a l) -> (forall e l, R e l -> R' e l) ->
  triple (since J') m (fun a => since (K' a)) (fun e => since (R' e)).
Proof.
  intros Hm HJ HK HR. eapply triple_mono; [exact Hm| | |].
  - intros w (l & Hl & Hj). exists l. auto.
  - intros a w (l & Hl & Hj). exists l. split; [done|by apply HK].
  - intros e w (l & Hl & Hj). exists l. split; [done|by apply HR].
Qed.

(** One event, of which the answer is known *)
Lemma since_step {A} (J : list event -> Prop) (K : A -> list event -> Prop) (R : exn -> list event -> Prop) (m : prog A)
    (ev : result A -> event) :
  (forall w, trace (snd (m w)) = trace w ++ [ev (fst (m w))]) ->
  (forall a l, J l -> K a (l ++ [ev (Ok a)])) -> (forall e l, J l -> R e (l ++ [ev (Raise e)])) ->
  triple (since J) m (fun a => since (K a)) (fun e => since (R e)).
Proof.
  intros Hm HK HR w (l & Hl & Hj). unfold wp. specialize (Hm w). destruct (m w) as [[a|e] w']; cbn in *;
    (eexists; split; [rewrite Hm, Hl, <- app_assoc; reflexivity|auto]).
Qed.

Context `{Host E}.
Lemma since_get J i : (forall l r, J l -> J (l ++ [EGet i r])) ->
  triple (since J) (get_container i) (fun c => since (fun l => J l /\ In (EGet i (Ok c)) l)) (fun _ => since J).
Proof.
  intros HJ. apply (since_step J (fun c l => J l /\ In (EGet i (Ok c)) l) (fun _ => J) _ (EGet i)).
  - intros w. unfold get_container. by destruct (dk_get i (env w)).
  - intros c l Hj. split; [by apply HJ|]. apply in_app_iff. right. by left.
  - intros e l Hj. by apply HJ.
Qed.
Lemma since_call J c k (K : list event -> Prop) : (forall l r, J l -> K (l ++ [ECall (ct_id c) k r])) ->
  triple (since J) (call c k) (fun _ => since K) (fun _ => since K).
Proof.
  intros HJ. apply (since_step J (fun _ => K) (fun _ => K) _ (ECall (ct_id c) k)).
  - intros w. unfold call. by destruct (dk_call c k (env w)).
  - intros [] l Hj. by apply HJ.
  - intros e l Hj. by apply HJ.
Qed.
Lemma since_run J o (K : Container -> list event -> Prop) (R : list event -> Prop) :
  (forall l c, J l -> K c (l ++ [ERun o (Ok c)])) -> (forall l e, J l -> R (l ++ [ERun o (Raise e)])) ->
  triple (since J) (run o) (fun c => since (K c)) (fun _ => since R).
Proof.
  intros HK HR. apply (since_step J K (fun _ => R) _ (ERun o)); [|auto|auto].
  intros w. unfold run. by destruct (dk_run o (env w)).
Qed.
(** What a triple says of the trace that a run adds *)
Lemma since_result {A} J (K : A -> list event -> Prop) (R : exn -> list event -> Prop) (m : prog A) w : trace w = t0 -> J [] ->
  triple (since J) m (fun a => since (K a)) (fun e => since (R e)) ->
  exists l, trace (snd (m w)) = t0 ++ l /\ match fst (m w) with Ok a => K a l | Raise e => R e l end.
Proof.
  intros Ht Hj Hm. specialize (Hm w). unfold wp in Hm.
  destruct (m w) as [[a|e] w']; apply Hm; exists []; by rewrite app_nil_r.
Qed.
End Since.

(** ** Which containers are removed *)

(** The program has started the container with an id itself. *)
Definition started_by_run (l : list event) (id : pystr) : Prop := exists o c, In (ERun o (Ok c)) l /\ ct_id c = id.
(** It has been loaded, and carries the label of the service. *)
Definition labelled (c : Container) : Prop := exists labels,
  container_labels c = Ok labels /\ label_is labels (label "managed") (str "true") = true.
Definition loaded (l : list event) (c : Container) : Prop := exists i, In (EGet i (Ok c)) l.
Definition ours (l : list event) (id : pystr) : Prop := exists c, loaded l c /\ ct_id c = id /\ labelled c.
(** A row has been written that records another container, healthy and running. *)
Definition replaced (l : list event) (id : pystr) : Prop := exists d before after,
  In (EWrite d before (Some after)) l /\ dp_container_id after <> Some id
  /\ dp_status after = str "running" /\ dp_health after = str "healthy".

Definition removable (l : list event) (id : pystr) : Prop := started_by_run l id \/ ours l id \/ replaced l id.
Definition removals_justified (l : list event) : Prop := forall l1 id force r l2,
  l = l1 ++ ECall id (CRemove force) r :: l2 -> removable l1 id.

Definition keeps (e : event) : Prop := match e with ECall _ (CRemove _) _ => False | _ => True end.
Notation lasting := (stable (fun _ => True)).

Lemma all_true l : Forall (fun _ : event => True) l.
Proof. by apply Forall_forall. Qed.
Lemma lasting_started id : lasting (fun l => started_by_run l id).
Proof. intros l k (o & c & Hin & Hid) _. exists o, c. rewrite in_app_iff. auto. Qed.
Lemma lasting_loaded c : lasting (fun l => loaded l c).
Proof. intros l k (i & Hin) _. exists i. rewrite in_app_iff. auto. Qed.
Lemma lasting_ours id : lasting (fun l => ours l id).
Proof. intros l k (c & Hl & Hc) _. exists c. split; [by apply lasting_loaded; [|apply all_true]|done]. Qed.
Lemma lasting_replaced id : lasting (fun l => replaced l id).
Proof. intros l k (d & b & a & Hin & Ha) _. exists d, b, a. rewrite in_app_iff. auto. Qed.
Lemma lasting_removable id : lasting (fun l => removable l id).
Proof. apply stable_or; [apply lasting_started|apply stable_or; [apply lasting_ours|apply lasting_replaced]]. Qed.

Create HintDb lasting discriminated.
#[export] Hint Resolve stable_and stable_or stable_const stable_if stable_ex stable_In lasting_started lasting_loaded lasting_ours
  lasting_replaced lasting_removable : lasting.

Lemma justified_snoc l e : removals_justified l -> match e with ECall id (CRemove _) _ => removable l id | _ => True end ->
  removals_justified (l ++ [e]).
Proof.
  intros Hl He l1 id f r l2 E. destruct l2 as [|x l2 _] using rev_ind.
  - apply app_inj_tail in E as [-> ->]. done.
  - rewrite app_comm_cons, app_assoc in E. apply app_inj_tail in E as [E _]. by eapply Hl.
Qed.
Lemma justified_nil : removals_justified [].
Proof. by intros [|] id f r l2. Qed.
Lemma stable_justified : stable keeps removals_justified.
Proof.
  intros l k Hl. revert l Hl. induction k as [|e k IH]; intros l Hl Hk; [by rewrite app_nil_r|].
  inversion Hk as [|? ? He Hk']; subst. rewrite cons_middle, app_assoc. apply IH; [|done].
  apply justified_snoc; [done|]. destruct e as [? [] ?| | | | | | |]; done.
Qed.
Lemma stable_less (P Q : event -> Prop) J : (forall e, P e -> Q e) -> stable Q J -> stable P J.
Proof. intros HPQ HJ l k Hl Hk. apply HJ; [done|]. by eapply Forall_impl. Qed.

Section Careful.
Context {E : Type} `{Host E}.
Notation prog := (tprogram database event E).
Context (t0 : list event).
Notation since := (grown t0).

(** [m] removes what it may, keeps [J], and ends with [K] when it returns. *)
Definition careful {A} (J : list event -> Prop) (m : prog A) (K : A -> list event -> Prop) : Prop :=
  triple (since (fun l => removals_justified l /\ J l)) m
    (fun a => since (fun l => removals_justified l /\ J l /\ K a l)) (fun _ => since (fun l => removals_justified l /\ J l)).
Definition whatever {A} (a : A) (l : list event) : Prop := True.

Lemma careful_mono {A} (J J' : list event -> Prop) (m : prog A) (K K' : A -> list event -> Prop) :
  careful J m K -> (forall l, J l <-> J' l) -> (forall a l, J l -> K a l -> K' a l) -> careful J' m K'.
Proof. intros Hm HJ HK. eapply since_mono; [exact Hm| | |]; cbn; intros; rewrite <- ?HJ in *; intuition. Qed.
Lemma careful_post {A} (J : list event -> Prop) (m : prog A) (K K' : A -> list event -> Prop) :
  careful J m K -> (forall a l, J l -> K a l -> K' a l) -> careful J m K'.
Proof. intros Hm HK. by eapply careful_mono. Qed.
Lemma careful_bind {A B} J (m : prog A) (f : A -> prog B) K T :
  careful J m K -> (forall a, careful (fun l => J l /\ K a l) (f a) T) -> careful J (m ≫= f) T.
Proof.
  intros Hm Hf. eapply triple_bind; [exact Hm|]. intros a. eapply since_mono; [apply Hf| | |]; cbn; intuition.
Qed.
Lemma careful_seq {A B} J (m : prog A) (f : A -> prog B) T :
  careful J m whatever -> (forall a, careful J (f a) T) -> careful J (m ≫= f) T.
Proof.
  intros Hm Hf. eapply careful_bind; [exact Hm|]. intros a. eapply careful_mono; [apply Hf| |done].
  unfold whatever. intuition.
Qed.
Lemma careful_catch {A} J (m : prog A) covers h K : careful J m K -> (forall e, careful J (h e) K) ->
  careful J (catch m covers h) K.
Proof. intros Hm Hh. eapply triple_catch; [exact Hm|by intros e _; apply Hh|by intros e w _]. Qed.
Lemma careful_ret {A} (J : list event -> Prop) (a : A) (K : A -> list event -> Prop) :
  (forall l, J l -> K a l) -> careful J (mret a) K.
Proof. intros HK. apply triple_ret. intros w (l & Hl & Hr & Hj). exists l. auto. Qed.
Lemma careful_raise {A} J e (K : A -> list event -> Prop) : careful J (raise e) K.
Proof. by apply triple_raise. Qed.
Lemma careful_lift {A} J (r : result A) : careful J (lift r) (fun a _ => r = Ok a).
Proof.
  intros w (l & Hl & Hr & Hj). unfold wp, lift. destruct r as [a|e]; exists l; auto.
Qed.
Lemma careful_quiet {A} J (m : prog A) : lasting J -> emits any_state (Forall keeps) m -> careful J m whatever.
Proof.
  intros HJ Hm. eapply since_mono; [eapply (since_emits t0 keeps (fun l => removals_justified l /\ J l)); [|exact Hm]|..];
    unfold whatever; [|intuition..].
  apply stable_and; [apply stable_justified|]. by eapply stable_less; [|exact HJ].
Qed.
Lemma careful_remove J c : lasting J -> (forall l, J l -> removable l (ct_id c)) ->
  careful J (call c (CRemove true)) whatever.
Proof.
  intros HJ HR. eapply since_mono; [apply (since_call t0 (fun l => removals_justified l /\ J l) c (CRemove true)
    (fun l => removals_justified l /\ J l))|..]; unfold whatever; [|intuition..].
  intros l r [Hr Hj]. split; [by apply justified_snoc; [|apply HR]|by apply HJ; [|apply all_true]].
Qed.
Lemma careful_remove_owned J c : lasting J -> (forall l, J l -> removable l (ct_id c)) ->
  careful J (remove_owned_container c) whatever.
Proof. intros HJ HR. apply careful_catch; [by apply careful_remove|]. intros e. by apply careful_ret. Qed.
Lemma careful_run J o : lasting J -> careful J (run o) (fun c l => started_by_run l (ct_id c)).
Proof.
  intros HJ. apply since_run.
  - intros l c [Hr Hj]. split; [by apply justified_snoc|]. split; [by apply HJ; [|apply all_true]|].
    exists o, c. rewrite in_app_iff. split; [right; by left|done].
  - intros l e [Hr Hj]. split; [by apply justified_snoc|by apply HJ; [|apply all_true]].
Qed.
Lemma careful_get J i : lasting J -> careful J (get_container i) (fun c l => loaded l c).
Proof.
  intros HJ. eapply since_mono; [apply (since_get t0 (fun l => removals_justified l /\ J l) i)|done| |done].
  - intros l r [Hr Hj]. split; [by apply justified_snoc|by apply HJ; [|apply all_true]].
  - intros c l [[Hr Hj] Hin]. split_and!; [done|done|by exists i].
Qed.
Lemma careful_get_optional J i : lasting J ->
  careful J (get_container_optional i) (fun o l => forall c, o = Some c -> loaded l c).
Proof.
  intros HJ. apply careful_catch; [|intros e; by apply careful_ret]. eapply careful_bind; [by apply careful_get|].
  intros c. apply careful_ret. by intros l [_ Hc] c' [= <-].
Qed.
End Careful.

(** ** Programs that remove nothing *)

Section Quiet.
Context {E F : Type} `{Host E} `{Services E F} `{ModelFiles F} `{UnicodeData} `{CaseFolding} `{ModelCards} `{Platform} `{Pydantic}.
Context `{ErrorText} `{Numbers}.
Context (adapters : list (pystr * LaunchAdapter F)) (roots : list (path * path)) (estimator : ResourceEstimator).
Context (startup_timeout_seconds : Z) (has_benchmark : bool) (task_id : pystr).
Notation prog := (tprogram database event E).
(** Events that are of none of the kinds that [P] leaves out *)
Context (P : event -> Prop).
Notation only := (emits any_state (Forall P)).

Lemma only_on_files {A} (m : files F A) : only (on_files m).
Proof.
  apply emits_still. intros w. unfold on_files. destruct (m (se_files (env w))) as [r f]. by split.
Qed.
Lemma only_run_container a s name t fp d rep : (forall o r, P (ERun o r)) -> only (run_container a s name t fp d rep).
Proof. intros HP. unfold run_container. apply emits_bind; [apply only_on_files|intros o]. apply only_run. auto. Qed.

Lemma only_commit f e : P e -> only (commit (E := E) f e).
Proof. intros He. unfold commit. traces; [apply only_log; done]. Qed.

Hypothesis HReport : forall m, P (EReport m).
Lemma only_report p m : only (report (E := E) p m).
Proof. unfold report. traces. apply only_log, HReport. Qed.
Lemma only_health_check url : only (health_check (E := E) url).
Proof. unfold health_check. traces. Qed.
Lemma only_wait seconds url a b : only (wait_for_health (E := E) seconds url a b).
Proof.
  unfold wait_for_health. generalize (health_attempts seconds) at 1 as left. intros left.
  induction left as [|left IH]; cbn [health_loop]; [auto with emits|]. unfold check_control.
  traces; first [apply only_health_check|apply only_report|apply IH].
Qed.
Lemma only_startup_logs c : only (startup_logs (E := E) c).
Proof. unfold startup_logs, adapter_logs. traces. Qed.

(** The sessions that resolve a specification read only. *)
Lemma only_reserved d x : only (deployment_reserved_ports (E := E) d x).
Proof. unfold deployment_reserved_ports, docker_reserved_ports, docker_client. traces. Qed.
Lemma only_prepare d s x b : only (prepare_spec_port (E := E) d s x b).
Proof. unfold prepare_spec_port. traces; apply only_reserved. Qed.
Lemma only_launch_adapter runtime : only (launch_adapter (E := E) adapters runtime).
Proof. unfold launch_adapter. traces. Qed.
Lemma only_adapter_for_spec s : only (adapter_for_spec (E := E) adapters s).
Proof. unfold adapter_for_spec. traces; apply only_launch_adapter. Qed.
Lemma only_resolve d s : only (resolve_spec_with_capabilities adapters roots d s).
Proof.
  unfold resolve_spec_with_capabilities, available, located, resolve_draft.
  traces; first [apply only_adapter_for_spec|apply only_on_files|unfold available, located; traces; apply only_on_files].
Qed.
Lemma only_launch_port d s x b : only (launch_port (E := E) d s x b).
Proof. unfold launch_port, allocate_deployment_port. traces; apply only_reserved. Qed.
Lemma only_preflight d s x b : only (preflight adapters roots estimator d s x b).
Proof.
  unfold preflight, check_candidate, resource_estimate, preflight_preview.
  traces; first [apply only_resolve|apply only_on_files|apply only_launch_adapter|apply only_launch_port].
Qed.
Lemma only_plan_create payload : only (plan_create adapters roots estimator payload).
Proof. unfold plan_create. traces; first [apply only_prepare|apply only_preflight]. Qed.
Lemma only_plan_update id s : only (plan_update adapters roots estimator id s).
Proof.
  unfold plan_update.
  traces; first [apply only_prepare|apply only_preflight|apply only_resolve|apply only_launch_adapter|apply only_on_files].
Qed.

(** The benchmark writes rows. *)
Hypothesis HWrite : forall d b a, P (EWrite d b a).
Hypothesis HAsset : forall d a, P (EAsset d a).
Lemma only_benchmark id url name runtime : only (benchmark_deployment has_benchmark id url name runtime).
Proof.
  unfold benchmark_deployment, run_benchmark, benchmark_failed.
  traces; first [apply only_report|apply only_commit; auto|apply only_log; auto].
Qed.
Lemma only_refresh id : only (refresh (E := E) id).
Proof. unfold refresh. traces. Qed.
Lemma only_sync id row s name url : only (sync_recovered_deployment (E := E) id row s name url).
Proof. unfold sync_recovered_deployment. traces; apply only_commit; auto. Qed.
Hypothesis HCall : forall c k r, (forall force, k <> CRemove force) -> P (ECall c k r).
Lemma only_start c : only (adapter_start (E := E) c).
Proof. apply only_call. intros r. by apply HCall. Qed.
Lemma only_stop c : only (adapter_stop (E := E) c).
Proof. apply only_call. intros r. by apply HCall. Qed.
Lemma only_coordinate c id cid : only (coordinate_failed_recovery_start (E := E) c id cid).
Proof. unfold coordinate_failed_recovery_start. traces; apply only_stop. Qed.
End Quiet.

(** ** Removals of the handlers *)

Section Handlers.
Context {E F : Type} `{HostSpec E} `{Services E F} `{ModelFiles F} `{UnicodeData} `{CaseFolding} `{ModelCards} `{Platform} `{Pydantic}.
Context `{ErrorText} `{Numbers}.
Context (adapters : list (pystr * LaunchAdapter F)) (roots : list (path * path)) (estimator : ResourceEstimator).
Context (startup_timeout_seconds : Z) (has_benchmark : bool) (task_id : pystr).
Notation prog := (tprogram database event E).
Context (t0 : list event).
Notation careful := (careful t0).

Lemma careful_benchmark J id url name runtime : lasting J ->
  careful J (benchmark_deployment has_benchmark id url name runtime) whatever.
Proof. intros HJ. apply careful_quiet; [done|]. by apply only_benchmark. Qed.
Lemma keeps_call c k r : (forall force, k <> CRemove force) -> keeps (ECall c k r).
Proof. intros Hk. destruct k; try done. by destruct (Hk force). Qed.
Lemma careful_start J c : lasting J -> careful J (adapter_start c) whatever.
Proof. intros HJ. apply careful_quiet; [done|]. apply only_start, keeps_call. Qed.
Lemma careful_wait J url a b : lasting J -> careful J (wait_for_health startup_timeout_seconds url a b) whatever.
Proof. intros HJ. apply careful_quiet; [done|]. by apply only_wait. Qed.
Lemma careful_run_container J a s name fp d rep : lasting J ->
  careful J (run_container a s name task_id fp d rep) (fun c l => started_by_run l (ct_id c)).
Proof.
  intros HJ. unfold run_container. apply careful_seq; [by apply careful_quiet, only_on_files|intros o].
  by apply careful_run.
Qed.
Lemma careful_reload J c : lasting J -> careful J (reload c) (fun c' _ => ct_id c' = ct_id c).
Proof.
  intros HJ w Hw. assert (Hq := careful_quiet t0 J (reload (E := E) c) HJ (only_reload keeps c (fun _ => I)) w Hw).
  unfold wp in *. destruct (reload c w) as [[c'|e] w'] eqn:Er; [|done].
  assert (ct_id c' = ct_id c) as Hid.
  { unfold reload in Er. destruct (dk_reload c (env w)) as [r e] eqn:Ed. injection Er as -> _. by eapply reload_same. }
  destruct Hq as (l & Hl & Hr & Hj & _). by exists l.
Qed.

(** What a check of labels says: the container is one of the service. *)
Lemma validated_labelled c s fp d rep rt rd acc :
  validate_container_labels c (expected_container_labels s task_id fp d rep) rt rd acc = Ok tt -> labelled c.
Proof.
  unfold validate_container_labels, labelled. destruct (container_labels c) as [labels|e]; [|done].
  intros Hg. exists labels. split; [done|].
  apply guard_exn_Ok in Hg. unfold expected_container_labels in Hg. cbn [app forallb] in Hg. apply andb_prop in Hg as [Hm _].
  replace (str_eqb (label "managed") (label "task-id")) with false in Hm by by vm_compute.
  replace (str_eqb (label "managed") (label "deployment-id")) with false in Hm by by vm_compute.
  replace (str_eqb (label "managed") (label "spec-fingerprint")) with false in Hm by by vm_compute.
  rewrite !andb_false_r in Hm. cbn in Hm. by destruct acc.
Qed.

Lemma careful_cleanup J c id : lasting J -> careful J (cleanup_committed_backup c id) whatever.
Proof.
  intros HJ. unfold cleanup_committed_backup. eapply careful_bind; [by apply careful_get_optional|].
  intros [b|]; [|by apply careful_ret]. destruct (str_eqb _ _); [by apply careful_ret|].
  assert (lasting (fun l => J l /\ (forall c0, Some b = Some c0 -> loaded l c0))) as HJ'.
  { intros l k [Hj Hb] Hk. split; [by apply HJ|]. intros c0 E0. apply lasting_loaded; auto. }
  apply careful_seq; [by apply careful_quiet; [|auto with emits]|intros tl].
  eapply careful_bind; [apply careful_lift|intros bl].
  destruct (negb (label_is bl (label "managed") (str "true")) || _ || _) eqn:Hbad.
  - apply careful_quiet; [apply stable_and; auto with lasting|]. by apply only_report.
  - apply careful_remove_owned; [apply stable_and; auto with lasting|].
    intros l [[Hj Hb] Hbl]. right. left. exists b. split; [by apply Hb|]. split; [done|]. exists bl. split; [done|].
    rewrite !orb_false_iff in Hbad. destruct Hbad as [[Hm _] _]. by apply negb_false_iff in Hm.
Qed.

Lemma careful_recover J id row s b1 b2 b3 : lasting J ->
  careful J (recover_committed_deployment adapters startup_timeout_seconds has_benchmark task_id id row s b1 b2 b3) whatever.
Proof.
  intros HJ. unfold recover_committed_deployment.
  apply careful_seq; [by apply careful_quiet, only_adapter_for_spec|intros _].
  apply careful_seq; [by apply careful_quiet, emits_ask_result; try typeclasses eauto|intros _].
  apply careful_seq; [eapply careful_post; [by apply careful_get_optional|done]|intros [c|]; [|apply careful_raise]].
  apply careful_seq; [by apply careful_quiet; [|auto with emits]|intros fp].
  apply careful_seq; [by apply careful_quiet; [|auto with emits]|intros acc].
  apply careful_seq; [by apply careful_quiet; [|auto with emits]|intros _].
  apply careful_seq; [|intros _; apply careful_seq; [|intros _; apply careful_seq; [|intros o; by apply careful_ret]]].
  - apply careful_quiet; [done|]. unfold whatever.
    traces; first [apply only_start, keeps_call|by apply only_wait|by apply only_sync|apply only_coordinate, keeps_call].
  - destruct b1; [by apply careful_cleanup|by apply careful_ret].
  - destruct (_ || _); [by apply careful_benchmark|by apply careful_ret].
Qed.

Lemma careful_obtain J a s name fp : lasting J ->
  careful J (obtain_container task_id a s name fp) (fun x l => snd x = true -> started_by_run l (ct_id (fst x))).
Proof.
  intros HJ. unfold obtain_container. apply careful_catch.
  - apply careful_seq; [eapply careful_post; [by apply careful_get|done]|intros c].
    apply careful_seq; [by apply careful_quiet; [|auto with emits]|intros _].
    apply careful_seq; [destruct (negb _); [by apply careful_start|by apply careful_ret]|intros _]. by apply careful_ret.
  - intros e. eapply careful_bind; [by apply careful_run_container|intros c]. by apply careful_ret; intros l [_ Hc].
Qed.

Lemma careful_record_launch J c s name url shown : lasting J ->
  careful J (record_launch startup_timeout_seconds has_benchmark c s name url shown) whatever.
Proof.
  intros HJ. apply careful_quiet; [done|]. unfold record_launch.
  traces; first [by apply only_report|by apply only_wait|apply only_startup_logs|by apply only_commit].
Qed.

Lemma careful_create payload :
  careful (fun _ => True) (create_handler adapters roots estimator startup_timeout_seconds has_benchmark task_id payload) whatever.
Proof.
  assert (lasting (fun _ => True)) as HT by done. unfold create_handler.
  apply careful_seq; [by apply careful_quiet, only_plan_create|intros [[[id row] s]|[[s shown] fp]]];
    [by apply careful_recover|].
  apply careful_seq; [by apply careful_quiet, only_launch_adapter|intros a].
  apply careful_seq; [by apply careful_quiet; [|unfold docker_client; auto with emits]|intros _].
  eapply careful_bind; [by apply careful_obtain|intros [c created]]. cbn [fst snd].
  assert (lasting (fun l => True /\ (created = true -> started_by_run l (ct_id c)))) as HJ by auto with lasting.
  apply careful_seq; [apply careful_catch; [by apply careful_record_launch|intros e]|intros id].
  - apply careful_seq; [|intros _; apply careful_raise]. destruct created; [|by apply careful_ret].
    apply careful_remove_owned; [done|]. intros l [_ Hc]. left. by apply Hc.
  - apply careful_seq; [by apply careful_quiet, only_refresh|intros _].
    apply careful_seq; [by apply careful_benchmark|intros o]. by apply careful_ret.
Qed.

(** *** [update_handler] *)

Lemma careful_write_row J id values : lasting J -> careful J (write_row id values)
  (fun _ l => exists before now, In (EWrite id (Some before) (Some (touched now (values before)))) l).
Proof.
  intros HJ. unfold write_row. apply careful_seq; [by apply careful_quiet, only_session|intros d].
  destruct (deployments d !! id) as [row|]; [|apply careful_raise].
  apply careful_seq; [by apply careful_quiet; [|auto with emits]|intros now]. unfold commit.
  apply careful_seq; [by apply careful_quiet; [|auto with emits]|intros _].
  apply careful_seq; [by apply careful_quiet, only_update|intros _].
  intros w (l & Hl & Hr & Hj). exists (l ++ [EWrite id (Some row) (Some (touched now (values row)))]).
  cbn. split; [by rewrite Hl, app_assoc|]. split; [by apply justified_snoc|].
  split; [by apply HJ; [|apply all_true]|]. exists row, now. apply in_app_iff. right. by left.
Qed.

Lemma careful_set_aside J p old rep : lasting J ->
  careful J (set_aside task_id p old rep) (fun _ _ => forall c, rep = Some c -> labelled c).
Proof.
  intros HJ. unfold set_aside.
  assert (forall X : Prop, lasting (fun l => J l /\ X)) as HX by (intros X; apply stable_and; [done|apply stable_const]).
  eapply (careful_bind t0 J _ _ (fun _ _ => forall c, rep = Some c -> labelled c)).
  - destruct rep as [c|]; [|by apply careful_ret]. eapply careful_post; [apply careful_lift|].
    intros [] l _ Hv c' [= <-]. by eapply validated_labelled.
  - intros u. eapply careful_post; [|intros u' l [_ Hl] _; exact Hl]. apply careful_quiet; [apply HX|].
    traces; apply keeps_call; discriminate.
Qed.

Lemma careful_start_replacement J p a rep : lasting J ->
  careful J (start_replacement task_id p a rep) (fun c l => started_by_run l (ct_id c) \/ rep = Some c).
Proof.
  intros HJ. unfold start_replacement. destruct rep as [c|]; [apply careful_ret; by right|].
  apply careful_seq; [by apply careful_quiet; [|apply only_report]|intros _].
  eapply careful_post; [by apply careful_run_container|by left].
Qed.

Lemma careful_undone {A} J p old new (m : prog A) K : lasting J ->
  (forall c, new = Some c -> forall l, J l -> removable l (ct_id c)) -> careful J m K -> careful J (undone p old new m) K.
Proof.
  intros HJ Hnew Hm. apply careful_catch; [done|intros e]. apply careful_seq; [|intros _; apply careful_raise].
  unfold undo_update. apply careful_seq; [|intros _].
  - destruct new as [c|]; first [by apply careful_ret|apply careful_remove_owned; [done|by apply Hnew]].
  - apply careful_quiet; [done|]. traces; first [apply only_start, keeps_call|apply keeps_call; discriminate].
Qed.

Lemma careful_record_update J p c : lasting J ->
  careful J (record_update startup_timeout_seconds p c) (fun _ l => forall id, id <> ct_id c -> replaced l id).
Proof.
  intros HJ. unfold record_update. apply careful_seq; [by apply careful_wait|intros h].
  apply careful_seq; [apply careful_quiet; [done|]; traces; apply only_startup_logs|intros _].
  eapply careful_bind; [by apply careful_reload|intros c'].
  eapply careful_post; [apply careful_write_row; apply stable_and; [done|apply stable_const]|].
  intros [] l [_ Hid] (before & now & Hin) id Hne. eexists _, _, _. split; [exact Hin|]. split; [|done].
  cbn. rewrite Hid. congruence.
Qed.

Lemma careful_replace J p a old rep : lasting J -> (forall c, rep = Some c -> forall l, J l -> loaded l c /\ ct_id c <> ct_id old) ->
  careful J (replace_container startup_timeout_seconds task_id p a old rep) whatever.
Proof.
  intros HJ Hrep. unfold replace_container.
  eapply (careful_bind t0 J _ _ (fun c l => started_by_run l (ct_id c) \/ (ours l (ct_id c) /\ ct_id c <> ct_id old))).
  - apply careful_undone; [done|done|]. eapply careful_bind; [by apply careful_set_aside|intros u].
    eapply careful_post; [apply careful_start_replacement; apply stable_and; [done|apply stable_const]|].
    intros c l [Hj Hlab] [Hrun|Hc]; [by left|right]. destruct (Hrep c Hc l Hj) as [Hl Hne]. split; [|done].
    exists c. split_and!; auto.
  - intros c. set (J' := fun l => J l /\ (started_by_run l (ct_id c) \/ (ours l (ct_id c) /\ ct_id c <> ct_id old))).
    assert (lasting J') as HJ' by (apply stable_and; [done|auto 6 with lasting]).
    eapply careful_bind; [apply careful_undone; [exact HJ'| |]|].
    + intros c' [= <-] l [_ [Hl|[Hl _]]]; [by left|by right; left].
    + apply careful_seq; [|intros _; by apply careful_record_update].
      unfold start_existing. destruct rep; [destruct (negb _)|]; [by apply careful_start|by apply careful_ret..].
    + intros u. assert (lasting (fun l => J' l /\ (forall id, id <> ct_id c -> replaced l id))) as HJ2.
      { intros l k [Hj Hr] Hk. split; [by apply HJ'|]. intros id Hne. apply lasting_replaced; auto. }
      apply careful_catch; [apply careful_remove; [done|]|intros e; by apply careful_quiet; [|apply only_report]].
      intros l [[_ [Hl|[Hl Hne]]] Hr]; [|right; right; apply Hr; congruence].
      destruct (decide (ct_id old = ct_id c)) as [->|Hne]; [by left|right; right; by apply Hr].
Qed.

Lemma careful_update payload :
  careful (fun _ => True) (update_handler adapters roots estimator startup_timeout_seconds has_benchmark task_id payload) whatever.
Proof.
  assert (lasting (fun _ => True)) as HT by done. unfold update_handler.
  apply careful_seq; [by apply careful_quiet; [|auto with emits]|intros v].
  apply careful_seq; [by apply careful_quiet; [|auto with emits]|intros given].
  apply careful_seq; [by apply careful_quiet; [|auto with emits]|intros s].
  apply careful_seq; [by apply careful_quiet, only_plan_update|intros [[row s']|p]]; [by apply careful_recover|].
  apply careful_seq; [by apply careful_quiet, only_launch_adapter|intros a].
  apply careful_seq; [by apply careful_quiet; [|unfold docker_client; auto with emits]|intros _].
  apply careful_seq; [eapply careful_post; [by apply careful_get|done]|intros old0].
  apply careful_seq; [eapply careful_post; [by apply careful_reload|done]|intros old].
  eapply careful_bind; [by apply careful_get_optional|intros o].
  assert (lasting (fun l => True /\ (forall c, o = Some c -> loaded l c))) as HJ.
  { intros l k [_ Ho] Hk. split; [done|]. intros c Hc. apply lasting_loaded; auto. }
  apply careful_seq; [|intros _; apply careful_seq; [by apply careful_benchmark|intros b; by apply careful_ret]].
  apply careful_replace; [done|]. intros c Hc l [_ Ho]. destruct o as [c'|]; [|done].
  destruct (str_eqb (ct_id c') (ct_id old)) eqn:Hid; [done|]. injection Hc as ->. split; [by apply Ho|].
  intros E0. rewrite E0 in Hid. by rewrite (proj2 (str_eqb_eq _ _) eq_refl) in Hid.
Qed.

(** Whatever [m] does, the containers that it removes are removable. *)
Definition removes_justly {A} (m : prog A) : Prop := forall w,
  exists l, trace (snd (m w)) = trace w ++ l /\ removals_justified l.
End Handlers.

(** C9.  Creating and updating a deployment remove a container only when this run
    has started it, when it was loaded with the label of the service, or when a
    row has been written that records another container as healthy and
    running. *)
Theorem changes_remove_justly {E F : Type} `{HostSpec E} `{Services E F} `{ModelFiles F} `{UnicodeData} `{CaseFolding} `{ModelCards}
    `{Platform} `{Pydantic} `{ErrorText} `{Numbers} (adapters : list (pystr * LaunchAdapter F)) roots estimator seconds
    has_benchmark task_id payload request :
  removes_justly (create_handler adapters roots estimator seconds has_benchmark task_id payload) /\
  removes_justly (update_handler adapters roots estimator seconds has_benchmark task_id request).
Proof.
  split; intros w;
    [assert (Hm := careful_create adapters roots estimator seconds has_benchmark task_id (trace w) payload)
    |assert (Hm := careful_update adapters roots estimator seconds has_benchmark task_id (trace w) request)];
    destruct (since_result (trace w) (fun l => removals_justified l /\ True) _ _ _ w eq_refl (conj justified_nil I) Hm)
      as (l & Hl & Hr); exists l; (split; [done|]); destruct (fst _); by destruct Hr.
Qed.
