(* ===== verification/DeployAccounting.v ===== *)
(** * No container of a creation or an update is lost

    Every container that [create_handler] or [update_handler] (DeployChanges)
    makes is recorded in a row, or the handler asks Docker to remove it before
    it ends, whatever fails in between. *)
From Stdlib Require Import ZArith Lia Bool String SpecFloat.
From stdpp Require Import prelude gmap.
From S2P Require Import Prelude PyValue PosixPath PyFloat Utf8 PyTime Secrets Traced PyText PurePath Resources RuntimeSpec RuntimeBase DeployHost DeployContract ModelCapabilities DeployPorts DeployResolve DeployChanges DeployTraces DeployChangeSafety.
Import Traced.
Open Scope Z_scope.

(** ** Containers that are accounted for *)

Definition recorded_in_row (l : list event) (c : Container) : Prop := exists d before after,
  In (EWrite d before (Some after)) l /\ dp_container_id after = Some (ct_id c).
Definition asked_to_go (l : list event) (c : Container) : Prop := exists r, In (ECall (ct_id c) (CRemove true) r) l.
Definition settled_in (l : list event) (c : Container) : Prop := recorded_in_row l c \/ asked_to_go l c.

(** Of the containers that were made, all but perhaps one are settled. *)
Definition pending (o : option Container) (l : list event) : Prop := forall opts c,
  In (ERun opts (Ok c)) l -> Some c = o \/ settled_in l c.
Definition accounted : list event -> Prop := pending None.

Definition starts_none (e : event) : Prop := match e with ERun _ (Ok _) => False | _ => True end.

Lemma settled_app l k c : settled_in l c -> settled_in (l ++ k) c.
Proof.
  intros [(d & b & a & Hin & Ha)|[r Hin]]; [left; exists d, b, a|right; exists r]; rewrite in_app_iff; auto.
Qed.
Lemma stable_pending o : stable starts_none (pending o).
Proof.
  intros l k Hl Hk opts c [Hin|Hin]%in_app_iff.
  - destruct (Hl _ _ Hin) as [Ho|Hs]; [by left|right; by apply settled_app].
  - rewrite List.Forall_forall in Hk. exfalso. by apply (Hk _ Hin).
Qed.
Lemma pending_settles c l l' : pending (Some c) l -> (exists k, l' = l ++ k /\ Forall starts_none k) -> settled_in l' c ->
  accounted l'.
Proof.
  intros Hl (k & -> & Hk) Hc opts c' Hin. destruct (stable_pending _ _ _ Hl Hk _ _ Hin) as [[= ->]|Hs]; by right.
Qed.
Lemma pending_more o l : accounted l -> pending o l.
Proof. intros Hl opts c Hin. destruct (Hl _ _ Hin) as [?|?]; [done|by right]. Qed.

Section Accounting.
Context {E F : Type} `{HostSpec E} `{Services E F} `{ModelFiles F} `{UnicodeData} `{CaseFolding} `{ModelCards} `{Platform} `{Pydantic}.
Context `{ErrorText} `{Numbers}.
Context (adapters : list (pystr * LaunchAdapter F)) (roots : list (path * path)) (estimator : ResourceEstimator).
Context (startup_timeout_seconds : Z) (has_benchmark : bool) (task_id : pystr).
Notation prog := (tprogram database event E).
Context (t0 : list event).
Notation since := (grown t0).

(** From [pending o], [m] returns with [K] and raises with [pending o']. *)
Definition accounts {A} (o : option Container) (m : prog A) (K : A -> option Container) (o' : option Container) : Prop :=
  triple (since (pending o)) m (fun a => since (pending (K a))) (fun _ => since (pending o')).

Lemma accounts_quiet {A} o (m : prog A) : emits any_state (Forall starts_none) m -> accounts o m (fun _ => o) o.
Proof. intros Hm. exact (since_emits t0 starts_none (pending o) m (stable_pending o) Hm). Qed.
Lemma accounts_bind {A B} o (m : prog A) (f : A -> prog B) K T o' :
  accounts o m K o' -> (forall a, accounts (K a) (f a) T o') -> accounts o (m ≫= f) T o'.
Proof. apply triple_bind. Qed.
Lemma accounts_ret {A} o o' (a : A) : accounts o (mret a) (fun _ => o) o'.
Proof. by apply triple_ret. Qed.
Lemma accounts_raise {A} o e K : accounts (A := A) o (raise e) K o.
Proof. by apply triple_raise. Qed.
Lemma accounts_catch {A} o (m : prog A) covers h K o1 : accounts o m K o1 -> (forall e, accounts o1 (h e) K o1) ->
  accounts o (catch m covers h) K o1.
Proof. intros Hm Hh. eapply triple_catch; [exact Hm|by intros e _; apply Hh|by intros e w _]. Qed.
Lemma accounts_weaken {A} o o1 o2 (m : prog A) K K' : accounts o m K o1 -> (forall a, K' a = K a \/ K a = None) ->
  o2 = o1 \/ o1 = None -> accounts o m K' o2.
Proof.
  intros Hm HK Ho. eapply since_mono; [exact Hm|done| |].
  - intros a l. destruct (HK a) as [->| ->]; [done|apply pending_more].
  - intros e l Hl. destruct Ho as [->| ->]; [done|by apply pending_more].
Qed.

(** Asking Docker to remove the container settles it, whatever the answer. *)
Lemma accounts_remove c : accounts (Some c) (remove_owned_container c) (fun _ => None) None.
Proof.
  apply accounts_catch; [|intros e; apply accounts_ret]. apply (since_call t0 (pending (Some c)) c (CRemove true) (pending None)). intros l r Hl.
  eapply pending_settles; [exact Hl|exists [ECall (ct_id c) (CRemove true) r]; by repeat constructor|].
  right. exists r. apply in_app_iff. right. by left.
Qed.
Lemma accounts_run o : accounts None (run o) Some None.
Proof.
  apply (since_run t0 (pending None) o (fun c => pending (Some c)) (pending None)).
  - intros l c Hl opts c' [Hin|[[= <- <-]|[]]]%in_app_iff; [|by left].
    destruct (Hl _ _ Hin) as [?|Hs]; [done|right; by apply settled_app].
  - intros l e Hl. apply stable_pending; [done|by repeat constructor].
Qed.
Lemma accounts_run_container a s name fp d rep : accounts None (run_container a s name task_id fp d rep) Some None.
Proof.
  unfold run_container. eapply accounts_bind; [by apply accounts_quiet, only_on_files|intros o]. apply accounts_run.
Qed.

(** A row that records the container settles it. *)
Lemma accounts_commit f c o d before after : dp_container_id after = Some (ct_id c) -> o = Some c \/ o = None ->
  accounts o (commit f (EWrite d before (Some after))) (fun _ => None) o.
Proof.
  intros Hid Ho. unfold commit. eapply accounts_bind; [apply accounts_quiet; auto with emits|intros u].
  eapply accounts_bind; [by apply accounts_quiet, only_update|intros u2].
  eapply (since_step t0 (pending o) (fun _ => pending None) (fun _ => pending o) _ (fun _ => EWrite d before (Some after))).
  - done.
  - intros _ l Hl. destruct Ho as [-> | ->]; [|apply stable_pending; [done|by repeat constructor]].
    eapply pending_settles; [exact Hl|eexists; split; [done|by repeat constructor]|].
    left. eexists _, _, _. split; [apply in_app_iff; right; by left|done].
  - intros e l Hl. apply stable_pending; [done|by repeat constructor].
Qed.
Lemma accounts_reload {A} o c (f : Container -> prog A) K o' : o = o' ->
  (forall c', ct_id c' = ct_id c -> accounts o (f c') K o') -> accounts o (reload c ≫= f) K o'.
Proof.
  intros <- Hf. eapply triple_bind; [eapply (triple_returns _ _ _ _ (fun c' => ct_id c' = ct_id c)); [apply accounts_quiet|]|].
  - apply only_reload. done.
  - intros w. unfold reload. destruct (dk_reload c (env w)) as [[c'|e] s] eqn:Ed; [|done]. by eapply reload_same.
  - intros c'. apply triple_pure. apply Hf.
Qed.

(** *** [create_handler] *)

Lemma starts_none_call c k r : (forall force, k <> CRemove force) -> starts_none (ECall c k r).
Proof. done. Qed.

Lemma accounts_recover o id row s b1 b2 b3 :
  accounts o (recover_committed_deployment adapters startup_timeout_seconds has_benchmark task_id id row s b1 b2 b3) (fun _ => o) o.
Proof.
  apply accounts_quiet. unfold recover_committed_deployment, get_container_optional, docker_client, cleanup_committed_backup,
    remove_owned_container.
  traces; first [by apply only_adapter_for_spec|apply only_start, starts_none_call|by apply only_wait|by apply only_sync
    |apply only_coordinate, starts_none_call|by apply only_benchmark|by apply only_report
    |unfold get_container_optional; traces].
Qed.

(** The container that [obtain_container] hands out, if it is a new one *)
Definition new_one (x : Container * bool) : option Container := if snd x then Some (fst x) else None.

Lemma accounts_obtain a s name fp : accounts None (obtain_container task_id a s name fp) new_one None.
Proof.
  unfold obtain_container. apply accounts_catch.
  - eapply (accounts_weaken _ _ _ _ (fun _ => None)); [apply accounts_quiet| |by left]; [|by intros [c [|]]; [right|left]].
    traces; apply only_start, starts_none_call.
  - intros e. eapply accounts_bind; [apply accounts_run_container|intros c]. by apply triple_ret.
Qed.

Lemma accounts_record_launch o c s name url shown : o = Some c \/ o = None ->
  accounts o (record_launch startup_timeout_seconds has_benchmark c s name url shown) (fun _ => None) o.
Proof.
  intros Ho. unfold record_launch. eapply accounts_bind; [by apply accounts_quiet, only_report|intros u].
  eapply accounts_bind; [by apply accounts_quiet, only_wait|intros [|]]; cbn [negb].
  - apply accounts_reload; [done|intros c' Hid].
    eapply accounts_bind; [by apply accounts_quiet, only_session|intros d].
    eapply accounts_bind; [apply accounts_quiet; auto with emits|intros id].
    eapply accounts_bind; [apply accounts_quiet; auto with emits|intros now].
    eapply accounts_bind; [apply (accounts_commit _ c); [cbn; by rewrite Hid|done]|intros u2]. apply accounts_ret.
  - eapply accounts_bind; [apply accounts_quiet, only_startup_logs|intros logs].
    eapply accounts_bind; [by apply accounts_quiet, only_report|intros u2]. apply accounts_raise.
Qed.

Lemma accounts_create payload :
  accounts None (create_handler adapters roots estimator startup_timeout_seconds has_benchmark task_id payload) (fun _ => None) None.
Proof.
  unfold create_handler.
  eapply accounts_bind; [by apply accounts_quiet, only_plan_create|intros [[[id row] s]|[[s shown] fp]]]; [by apply accounts_recover|].
  eapply accounts_bind; [by apply accounts_quiet, only_launch_adapter|intros a].
  eapply accounts_bind; [apply accounts_quiet; unfold docker_client; auto with emits|intros u].
  eapply accounts_bind; [apply accounts_obtain|intros [c created]].
  eapply (accounts_bind _ _ _ (fun _ => None)).
  - eapply triple_catch; [apply accounts_record_launch; destruct created; [by left|by right]| |by intros e w].
    intros e _. eapply accounts_bind; [|intros u2; apply accounts_raise].
    destruct created; [apply accounts_remove|by apply accounts_ret].
  - intros id. eapply accounts_bind; [by apply accounts_quiet, only_refresh|intros u2].
    eapply accounts_bind; [by apply accounts_quiet, only_benchmark|intros b]. apply accounts_ret.
Qed.

(** *** [update_handler] *)

Lemma accounts_undone {A} o p old (m : prog A) K : accounts o m K o ->
  accounts o (undone p old o m) K None.
Proof.
  intros Hm. eapply triple_catch; [exact Hm| |by intros e w]. intros e _.
  eapply (accounts_bind _ _ _ (fun _ => None)); [|intros u; apply accounts_raise]. unfold undo_update.
  eapply (accounts_bind _ _ _ (fun _ => None)); [destruct o; [apply accounts_remove|apply accounts_ret]|intros u].
  apply accounts_quiet. traces; first [apply only_start, starts_none_call|exact I].
Qed.

Lemma accounts_write_row o c id values : (forall row, dp_container_id (values row) = Some (ct_id c)) -> o = Some c \/ o = None ->
  accounts o (write_row id values) (fun _ => None) o.
Proof.
  intros Hv Ho. unfold write_row. eapply accounts_bind; [by apply accounts_quiet, only_session|intros d].
  destruct (deployments d !! id); [|apply accounts_raise].
  eapply accounts_bind; [apply accounts_quiet; auto with emits|intros now]. apply (accounts_commit _ c); [apply Hv|done].
Qed.

Lemma accounts_record_update p c : accounts (Some c) (record_update startup_timeout_seconds p c) (fun _ => None) (Some c).
Proof.
  unfold record_update. eapply accounts_bind; [by apply accounts_quiet, only_wait|intros h].
  eapply accounts_bind; [apply accounts_quiet; traces; apply only_startup_logs|intros u].
  apply accounts_reload; [done|intros c' Hid]. apply (accounts_write_row _ c); [intros row; cbn; by rewrite Hid|by left].
Qed.

Lemma accounts_replace p a old rep :
  accounts None (replace_container startup_timeout_seconds task_id p a old rep) (fun _ => None) None.
Proof.
  unfold replace_container. eapply (accounts_bind _ _ _ Some).
  - apply accounts_undone. eapply accounts_bind; [apply accounts_quiet; unfold set_aside; traces; exact I|intros u].
    unfold start_replacement. destruct rep as [c|].
    + eapply (accounts_weaken _ None); [apply accounts_ret|by right|by left].
    + eapply accounts_bind; [by apply accounts_quiet, only_report|intros u2]. apply accounts_run_container.
  - intros c. eapply (accounts_bind _ _ _ (fun _ => None)).
    + apply accounts_undone. eapply accounts_bind; [|intros u; apply accounts_record_update].
      apply accounts_quiet. unfold start_existing. traces; apply only_start, starts_none_call.
    + intros u. apply accounts_quiet. traces; by apply only_report.
Qed.

Lemma accounts_update payload :
  accounts None (update_handler adapters roots estimator startup_timeout_seconds has_benchmark task_id payload) (fun _ => None) None.
Proof.
  unfold update_handler. do 3 (eapply accounts_bind; [apply accounts_quiet; auto with emits|intros ?]).
  eapply accounts_bind; [by apply accounts_quiet, only_plan_update|intros [[row s']|p]]; [by apply accounts_recover|].
  eapply accounts_bind; [by apply accounts_quiet, only_launch_adapter|intros x].
  eapply accounts_bind; [apply accounts_quiet; unfold docker_client; auto with emits|intros u].
  eapply accounts_bind; [by apply accounts_quiet, only_get_container|intros old0].
  eapply accounts_bind; [by apply accounts_quiet, only_reload|intros old].
  eapply accounts_bind; [apply accounts_quiet; unfold get_container_optional; traces|intros found].
  eapply accounts_bind; [apply accounts_replace|intros u2].
  eapply accounts_bind; [by apply accounts_quiet, only_benchmark|intros b]. apply accounts_ret.
Qed.

(** Whatever [m] does, no container that it makes is forgotten. *)
Definition forgets_none {A} (m : prog A) : Prop := forall w,
  exists l, trace (snd (m w)) = trace w ++ l /\ forall opts c, In (ERun opts (Ok c)) l -> settled_in l c.
End Accounting.

(** C10.  Every container that a creation or an update makes (containers.run) is
    recorded in a row by the time the handler ends, or the handler has asked
    Docker to remove it: on success, on every failure and on a cancelled task.
    This is about containers that the handler makes: a labelled container that
    was there before and that it only starts again is left as it is when the
    handler then fails. *)
Theorem started_containers_settled {E F : Type} `{HostSpec E} `{Services E F} `{ModelFiles F} `{UnicodeData} `{CaseFolding}
    `{ModelCards} `{Platform} `{Pydantic} `{ErrorText} `{Numbers} (adapters : list (pystr * LaunchAdapter F)) roots estimator
    seconds has_benchmark task_id payload request :
  forgets_none (create_handler adapters roots estimator seconds has_benchmark task_id payload) /\
  forgets_none (update_handler adapters roots estimator seconds has_benchmark task_id request).
Proof.
  assert (pending None []) as Hnil by (by intros opts c []).
  split; intros w;
    [assert (Hm := accounts_create adapters roots estimator seconds has_benchmark task_id (trace w) payload)
    |assert (Hm := accounts_update adapters roots estimator seconds has_benchmark task_id (trace w) request)];
    destruct (since_result (trace w) _ _ _ _ w eq_refl Hnil Hm) as (l & Hl & Hr); exists l; (split; [done|]);
    intros opts c Hin; (destruct (fst _); cbn in Hr; by destruct (Hr opts c Hin)).
Qed.
