(* ===== verification/DeployChangeSim.v ===== *)
(** * Concrete creations and updates

    A host for runs of [create_handler] and [update_handler] from the request to
    the container: the containers of DeploySim, the disk of RuntimeDisk, the vLLM
    adapter, and services that answer for one model.  The theorems about the
    handlers are applied to these runs. *)
From Stdlib Require Import ZArith Lia Bool String SpecFloat.
From stdpp Require Import prelude gmap.
From S2P Require Import Prelude PyValue PosixPath PyFloat Utf8 PyTime Json Secrets Traced PyText PurePath Resources RuntimeSpec RuntimeBase RuntimeDisk RuntimeVllm DeployHost DeployContract DeployTraces DeploySim ModelCapabilities DeployPorts DeployResolve DeployAdapters DeployChanges DeployChangeSafety DeployAccounting.
Import Traced.
Open Scope Z_scope.

(** ** The site *)

Record Site := mkSite { site_host : Sim; site_disk : disk }.

Definition on_host {A} (q : Sim -> A * Sim) (s : Site) : A * Site :=
  let '(a, h) := q (site_host s) in (a, mkSite h (site_disk s)).

#[export] Instance site_docker : Host Site := {|
  ho_session := fun d => on_host (ho_session d);
  ho_commit := on_host ho_commit;
  ho_now := on_host ho_now;
  ho_new_id := on_host ho_new_id;
  ho_hostname := on_host ho_hostname;
  ho_check := on_host ho_check;
  ho_update := fun p m => on_host (ho_update p m);
  ho_probe := fun url => on_host (ho_probe url);
  ho_sleep := fun s => mkSite (ho_sleep (site_host s)) (site_disk s);
  dk_client := on_host dk_client;
  dk_get := fun i => on_host (dk_get i);
  dk_list := on_host dk_list;
  dk_reload := fun c => on_host (dk_reload c);
  dk_call := fun c k => on_host (dk_call c k);
  dk_run := fun o => on_host (dk_run o);
  dk_logs := fun c n => on_host (dk_logs c n);
|}.

#[export] Instance site_spec : HostSpec Site.
Proof.
  split. intros c s c' s'. cbn. unfold on_host. destruct (find_by _ _) as [x|e] eqn:Hf; cbn; [|done].
  intros [= <- <-]. by apply (reload_same c (site_host s) x (site_host s)); cbn; rewrite Hf.
Qed.

Definition site_config : pydict :=
  [(str "num_hidden_layers", PInt 4); (str "num_attention_heads", PInt 8); (str "num_key_value_heads", PInt 8);
   (str "head_dim", PInt 64); (str "hidden_size", PInt 512); (str "torch_dtype", text "bfloat16")].

#[export] Instance site_services : Services Site disk := {|
  se_files := site_disk;
  se_put_files := fun f s => mkSite (site_host s) f;
  se_capabilities := fun _ _ s => (Ok (mkCapabilities [] [] [] (PDict [])), s);
  se_evidence := fun _ s => (Ok (mkEvidence site_config false), s);
  se_candidates := fun _ _ _ _ s => (Ok [], s);
  se_snapshot := fun s => (Ok (PDict [(str "total_bytes", PInt (128 * 2 ^ 30)); (str "available_bytes", PInt (100 * 2 ^ 30))]), s);
  se_benchmark := fun _ _ _ s => (Ok [], s);
|}.

(** A request gives a name, a port and a template; everything else is fixed. *)
Definition site_template_spec (name : pystr) (port : option Z) (template : option pystr) : DeploymentSpec :=
  mkSpec name (Some (str "m1")) (str "/srv/models/qwen") (str "qwen") None (str "vllm") (str "vllm/image:1") port
    8192 None (num_text "0.8") 2 None false None false no_defaults template None None None None false None.
Definition site_spec_of (name : pystr) (port : option Z) : DeploymentSpec := site_template_spec name port None.
#[export] Instance site_pydantic : Pydantic := {|
  parse_spec := fun v => match v with
                         | PDict d => Ok (site_template_spec (py_str (get "name" d)) (match get "port" d with PInt n => Some n | _ => None end)
                                            (as_str (get "chat_template" d)))
                         | _ => Raise (TypeError [])
                         end;
  parse_generation := fun _ => Ok no_defaults;
|}.
#[export] Instance site_platform : Platform := {|
  machine := str "aarch64";
  public_dump := fun s => PDict [(str "name", PStr (sp_name s)); (str "port", opt_value PInt (sp_port s));
                              (str "chat_template", opt_value PStr (sp_chat_template s))];
|}.
#[export] Instance site_cards : ModelCards := fun _ => Ok (PDict []).
#[export] Instance site_numbers : Numbers := {|
  py_float := fun v => match v with PFloat x => Ok x | _ => Raise (TypeError []) end;
  round3 := fun x => x;
  format3 := fun _ => [];
|}.

Definition site_roots : list (path * path) := [(at_ "/srv/models", at_ "/host/models")].
Definition site_adapters : list (pystr * LaunchAdapter disk) :=
  [(str "vllm", vllm_launch [str "vllm/image:1"] (map fst site_roots))].
Definition site_estimator : ResourceEstimator := mkEstimator (num_text "0.1") (8 * 2 ^ 30).
Definition site_asset : ModelAsset := mkAsset (str "Qwen") None (str "/srv/models/qwen") (str "available") 165 [] None None.
Definition site_request (name : string) : pydict := [(str "name", PStr (str name))].

Definition site_world (rows : gmap pystr Deployment) (h : Sim) : tworld database event Site :=
  mkWorld (mkDatabase rows {[ str "m1" := site_asset ]}) (mkSite h demo_disk) [].
Definition site_create (w : tworld database event Site) : result ChangeResult * tworld database event Site :=
  create_handler site_adapters site_roots site_estimator 4 false (str "t1") (PDict (site_request "Qwen 3")) w.

(** ** A creation *)

Definition created_ok : tworld database event Site := site_world ∅ (mkSim [] [true] [] 0).
Definition created_sick : tworld database event Site := site_world ∅ (mkSim [] [false; false] [] 0).

Definition final_containers {A} (x : result A * tworld database event Site) : list (pystr * pystr) :=
  map (fun c => (ct_name c, ct_status c)) (sm_containers (site_host (env (snd x)))).

(** ** An update *)

Definition old_container : Container := mkContainer (str "old-1") (str "dgx-qwen-3") (str "running") [].
Definition old_row : Deployment :=
  mkDeployment (str "Qwen 3") (Some (str "m1")) (str "vllm") (Some (str "old-1")) (Some (str "dgx-qwen-3"))
    (str "http://127.0.0.1:8000") (str "qwen") (str "running") (str "healthy") true (Some (str "vllm/image:1")) (Some 8000)
    (mkBenchmark None None None None None None) (PDict []) [] (utc 0).
Definition update_world (probes : list bool) : tworld database event Site :=
  site_world {[ str "d1" := old_row ]} (mkSim [old_container] probes [] 0).
Definition site_update (w : tworld database event Site) : result ChangeResult * tworld database event Site :=
  update_handler site_adapters site_roots site_estimator 4 false (str "t1")
    [(str "deployment_id", text "d1"); (str "spec", PDict (site_request "Qwen 3"))] w.

(** A failed update: the old container is stopped and has the name of its
    backup, while the row still says that it runs. *)
Lemma failed_update_demo :
  final_containers (site_update (update_world [false; false])) = [(str "dgx-backup-d1", str "exited")] /\
  option_map dp_status (deployments (state (snd (site_update (update_world [false; false])))) !! str "d1") = Some (str "running").
Proof. by vm_compute. Qed.

(** Both handlers at work: a creation whose runtime never becomes healthy, and
    an update that succeeds *)
Lemma changes_remove_justly_witness : exists l k,
  trace (snd (site_create created_sick)) = l /\ removals_justified l /\
  trace (snd (site_update (update_world [true]))) = k /\ removals_justified k /\
  In (ECall (str "created-0") (CRemove true) (Ok tt)) l /\ In (ECall (str "old-1") (CRemove true) (Ok tt)) k.
Proof.
  destruct (changes_remove_justly site_adapters site_roots site_estimator 4 false (str "t1") (PDict (site_request "Qwen 3"))
              [(str "deployment_id", text "d1"); (str "spec", PDict (site_request "Qwen 3"))]) as [Hc Hu].
  destruct (Hc created_sick) as (l & Hl & Hlj). destruct (Hu (update_world [true])) as (k & Hk & Hkj).
  exists l, k. split; [exact Hl|]. split; [exact Hlj|]. split; [exact Hk|]. split; [exact Hkj|].
  cbn [trace created_sick update_world site_world app] in Hl, Hk. rewrite <- Hl, <- Hk. split; vm_compute; tauto.
Defined.

Lemma started_containers_settled_witness : exists l k c,
  trace (snd (site_create created_sick)) = l /\ In (ECall (str "created-0") (CRemove true) (Ok tt)) l /\
  trace (snd (site_update (update_world [true]))) = k /\ ct_id c = str "created-0" /\ settled_in k c.
Proof.
  destruct (started_containers_settled site_adapters site_roots site_estimator 4 false (str "t1") (PDict (site_request "Qwen 3"))
              [(str "deployment_id", text "d1"); (str "spec", PDict (site_request "Qwen 3"))]) as [Hc Hu].
  destruct (Hc created_sick) as (l & Hl & Hls). destruct (Hu (update_world [true])) as (k & Hk & Hks).
  cbn [trace created_sick update_world site_world app] in Hl, Hk.
  assert (exists o c, In (ERun o (Ok c)) k /\ ct_id c = str "created-0") as (o & c & Ho & Hid)
    by (rewrite <- Hk; eexists _, _; split; [vm_compute; right; right; tauto|reflexivity]).
  exists l, k, c.
  split; [exact Hl|]. split; [rewrite <- Hl; vm_compute; tauto|]. split; [exact Hk|]. split; [exact Hid|].
  exact (Hks o _ Ho).
Defined.

(** The port that a creation without one gets, when 8000 is taken: the range
    of the search is not empty. *)
Lemma prepared_port_free_witness : exists s' w' p,
  prepare_spec_port (mkDatabase {[ str "d1" := old_row ]} ∅) (site_spec_of (str "Other") None) None false (update_world [])
    = (Ok s', w') /\ s' = with_port (Some p) (site_spec_of (str "Other") None) /\ p = 8001 /\
  ~ row_takes (mkDatabase {[ str "d1" := old_row ]} ∅) None p /\
  row_takes (mkDatabase {[ str "d1" := old_row ]} ∅) None 8000.
Proof.
  assert (Hp : option_map sp_port (match fst (prepare_spec_port (mkDatabase {[ str "d1" := old_row ]} ∅)
            (site_spec_of (str "Other") None) None false (update_world [])) with Ok s => Some s | Raise _ => None end)
            = Some (Some 8001)) by (vm_compute; reflexivity).
  destruct (prepare_spec_port _ _ _ _ _) as [[s'|e] w'] eqn:Hrun; [|discriminate Hp]. cbn [fst option_map] in Hp.
  destruct (prepared_port_free _ _ _ _ _ _ _ Hrun s' eq_refl) as (p & live & Hs & [-> _] & Hlow & Hfree & _ & Hall).
  assert (p = 8001) as Hp8 by (rewrite Hs in Hp; by injection Hp).
  exists s', w', p. split; [reflexivity|]. split; [exact Hs|]. split; [exact Hp8|]. split; [exact Hfree|].
  destruct (Hall 8000) as [Ht|[]]; [lia|exact Ht].
Defined.

(** The mounts of the created container *)
Definition mounted_spec : DeploymentSpec :=
  with_resolution (str "/srv/models/qwen")
    (mkResolution (Some (str "/srv/models")) (Some (str "/host/models")) (Some (str "/models/qwen")) None None None None None)
    (site_spec_of (str "Qwen 3") (Some 8000)).
Definition result_value {A} (r : result A) : option A := match r with Ok a => Some a | Raise _ => None end.

Lemma launch_mounts_witness : exists o f',
  launch_options (snd (hd (str "", vllm_launch [] []) site_adapters)) mounted_spec (str "dgx-qwen-3") (str "t1") [] None None demo_disk
    = (Ok o, f') /\ ru_volumes o = [(str "/host/models", (str "/models", str "ro"))] /\
  List.NoDup (map fst (ru_volumes o)) /\ models_mounted mounted_spec (ru_volumes o).
Proof.
  assert (Hv : option_map ru_volumes (result_value (fst (launch_options (snd (hd (str "", vllm_launch [] []) site_adapters)) mounted_spec
            (str "dgx-qwen-3") (str "t1") [] None None demo_disk))) = Some [(str "/host/models", (str "/models", str "ro"))])
    by (vm_compute; reflexivity).
  destruct (launch_options _ _ _ _ _ _ _ _) as [[o|e] f'] eqn:Hrun; [|discriminate Hv]. cbn [fst result_value option_map] in Hv.
  destruct (launch_mounts _ _ _ _ _ _ _ _ _ _ Hrun) as (H1 & _ & H2). exists o, f'.
  injection Hv as Hv. exact (conj eq_refl (conj Hv (conj H1 H2))).
Defined.

(** ** The same creation again *)

(** The request of a creation that has ended, run again on what it has left *)
Definition create_again (name : string) : result ChangeResult :=
  let payload := PDict (site_request name) in
  let create := create_handler site_adapters site_roots site_estimator 4 false (str "t1") payload in
  let w := snd (create (site_world ∅ (mkSim [] [true; true] [] 0))) in
  fst (create w).

(** With a template that the request leaves open the deployment is found again;
    a model for which the managed template is chosen is refused: its row has the
    template that was chosen, and the request has none. *)
Lemma creation_repeated :
  match create_again "Qwen 3" with Ok r => cr_idempotent r = true | Raise _ => False end /\
  create_again "qwen3.8" = Raise (value_error "Existing deployment uses a different deployment spec").
Proof. by vm_compute. Qed.
