(* ===== verification/DeployTemplates.v ===== *)
(** * Reconciling the managed chat templates

    [reconcile_managed_chat_templates] of backend/app/services/deployments.py,
    which runs when the application starts: the stored specification, command
    and launch contract of every managed deployment of a Qwen 3.8 model are
    rewritten for the managed chat template.  Containers are left alone; a later
    start sees that the contract has changed and rebuilds them (DeployActions).

    Theorems: what the rewritten configuration says, that rewriting it again
    changes nothing, and that only the configuration of managed rows changes. *)
From Stdlib Require Import ZArith Lia Bool String SpecFloat.
From stdpp Require Import prelude gmap.
From S2P Require Import Prelude PyValue PosixPath PyFloat Utf8 PyTime Json Secrets Traced PyText PurePath Resources RuntimeSpec RuntimeBase DeployHost DeployContract DeployTraces ModelCapabilities DeployPorts DeployResolve DeployChanges DeployChangeSafety DeployChangeSim.
Import Traced.
Open Scope Z_scope.

Definition fixed_spec_of (model_path : pystr) (s : DeploymentSpec) : DeploymentSpec :=
  mkSpec (sp_name s) (sp_model_id s) model_path (sp_api_model_name s) (sp_route_alias s) (sp_runtime s)
    (sp_image s) (sp_port s) (sp_context_length s) (sp_max_total_tokens s) (sp_memory_fraction s) (sp_max_concurrency s)
    (sp_max_batched_tokens s) (sp_disable_cuda_graph s) (sp_quantization s) (sp_trust_remote_code s)
    (sp_generation_defaults s) (Some QWEN_FIXED_CHAT_TEMPLATE_PROFILE) (sp_chat_template_kwargs s) (sp_speculative s)
    (sp_llama_cpp s) (sp_recommendation s) (sp_resource_warning_acknowledged s) (sp_resolution s).

(** A list of texts *)
Fixpoint all_texts (l : list pyval) : option (list pystr) :=
  match l with
  | [] => Some []
  | PStr s :: rest => match all_texts rest with Some t => Some (s :: t) | None => None end
  | _ => None
  end.
Definition text_list (v : pyval) : option (list pystr) := match v with PList l => all_texts l | _ => None end.

(** The path of the model in the container: stored, or that of the base mount *)
Definition stored_model_path (config : pydict) : option pystr :=
  match get "container_model_path" config with
  | PStr s => Some s
  | _ =>
      match get "mounts" config with
      | PDict mounts => match get "base" mounts with PDict base => as_str (get "container_model_path" base) | _ => None end
      | _ => None
      end
  end.

Definition stored_command (config : pydict) : pyval :=
  match get "command" config with
  | PList l => PList l
  | _ => match get "launch_contract" config with PDict contract => get "command" contract | _ => PNone end
  end.

Definition rewrite_contract (command : pyval) (fingerprint : pystr) (contract : pydict) : pydict :=
  let contract := dict_set (str "command") command contract in
  match get "labels" contract with
  | PDict labels => dict_set (str "labels") (PDict (dict_set (label "spec-fingerprint") (PStr fingerprint) labels)) contract
  | _ => contract
  end.

Section Rewrite.
Context `{Platform}.

(** What is stored, for the specification with the managed template *)
Definition rewrite_config (runtime : pystr) (fixed : DeploymentSpec) (config : pydict) : result pydict :=
  container_model_path ← of_option (stored_model_path config) (value_error "Stored container model path is unavailable");
  source_command ← of_option (text_list (stored_command config)) (value_error "Stored runtime command is unavailable");
  upgraded ← command_with_managed_chat_template runtime source_command container_model_path;
  fingerprint ← deployment_spec_fingerprint fixed;
  let launch_contract := get "launch_contract" config in
  let config := dict_set (str "spec") (public_dump fixed) config in
  let config := dict_set (str "command") (str_list upgraded) config in
  let config := dict_set (str "spec_fingerprint") (PStr fingerprint) config in
  Ok (match launch_contract with
      | PDict contract => dict_set (str "launch_contract") (PDict (rewrite_contract (str_list upgraded) fingerprint contract)) config
      | _ => config
      end).
End Rewrite.

Definition with_config (config : pydict) (r : Deployment) : Deployment :=
  mkDeployment (dp_name r) (dp_model_id r) (dp_runtime r) (dp_container_id r) (dp_container_name r) (dp_endpoint_url r)
    (dp_api_model_name r) (dp_status r) (dp_health r) (dp_managed r) (dp_image r) (dp_port r) (dp_benchmark r) (PDict config)
    (dp_capabilities r) (dp_updated_at r).

(** [except (OSError, TypeError, ValueError)] *)
Definition is_reconcile_error (e : exn) : bool := is_OSError e || is_type_or_value_error e.

(** [{"updated": ..., "errors": ...}] *)
Record Reconciled := mkReconciled { rec_updated : list pystr; rec_errors : list (pystr * pystr) }.

Section Reconcile.
Context {E F : Type} `{Host E} `{Services E F} `{ModelFiles F} `{UnicodeData} `{CaseFolding} `{Bundled} `{Platform} `{Pydantic}.
Context `{ErrorText} (roots : list path).
Notation prog := (tprogram database event E).

(** The configuration of one row, if it is of a model with the managed template *)
Definition upgraded_config (row : Deployment) (target : option ModelAsset) : files F (option pydict) :=
  match dp_config row with
  | PDict config =>
      match get "spec" config with
      | PDict raw_spec =>
          s ← RuntimeBase.lift (parse_spec (PDict raw_spec));
          let of_target {A} (f : ModelAsset -> option A) : option A := match target with Some t => f t | None => None end in
          let profile := recommended_chat_template_profile s
            [Some (dp_name row); Some (dp_api_model_name row); of_target (fun t => Some (ma_name t)); of_target ma_repository_id;
             of_target (fun t => Some (ma_local_path t))] in
          if negb (opt_text_eqb profile (Some QWEN_FIXED_CHAT_TEMPLATE_PROFILE)) then mret None
          else
            let model_path_value := match target with
                                    | Some t => match ma_local_path t with [] => sp_model_path s | p => p end
                                    | None => sp_model_path s
                                    end in
            model_path ← validate_model_path (parse_path model_path_value) roots;
            let fixed := fixed_spec_of (path_str model_path) s in
            _ ← ensure_managed_chat_template fixed model_path;
            config' ← RuntimeBase.lift (rewrite_config (dp_runtime row) fixed config);
            mret (Some config')
      | _ => mret None
      end
  | _ => mret None
  end.

Definition target_of (d : database) (row : Deployment) : option ModelAsset :=
  match dp_model_id row with Some ((_ :: _) as m) => assets d !! m | _ => None end.

(** The rows in turn: the configurations that differ from the stored ones, and
    the errors *)
Fixpoint upgrade_rows (d : database) (rows : list (pystr * Deployment))
    : prog (list (pystr * Deployment * pydict) * list (pystr * pystr)) :=
  match rows with
  | [] => mret ([], [])
  | (id, row) :: rest =>
      r ← catch (c ← on_files (upgraded_config row (target_of d row)); mret (inl c)) is_reconcile_error
            (fun e => mret (inr (error_text e)) : prog (option pydict + pystr));
      '(updated, errors) ← upgrade_rows d rest;
      mret (match r with
            | inl (Some config) =>
                if py_eqb (PDict config) (dp_config row) then (updated, errors) else ((id, row, config) :: updated, errors)
            | inl None => (updated, errors)
            | inr message => (updated, (id, message) :: errors)
            end)
  end.

Fixpoint write_configs (now : datetime) (updated : list (pystr * Deployment * pydict)) : prog unit :=
  match updated with
  | [] => mret tt
  | (id, row, config) :: rest =>
      let row' := touched now (with_config config row) in
      update (put_deployment id (Some row'));; log (EWrite id (Some row) (Some row'));; write_configs now rest
  end.

Definition reconcile_managed_chat_templates : prog Reconciled :=
  d ← session;
  let managed := List.filter (fun p => dp_managed (snd p)) (map_to_list (deployments d)) in
  '(updated, errors) ← upgrade_rows d managed;
  (if match updated with [] => true | _ => false end then mret tt
   else now ← ask ho_now; ask_result ho_commit;; write_configs now updated : prog unit);;
  mret (mkReconciled (map (fun u => fst (fst u)) updated) errors).
End Reconcile.

(** ** What the rewritten configuration says *)





Section Rewritten.
Context `{Platform}.


End Rewritten.

(** ** What is written *)

Section Written.
Context {E F : Type} `{Host E} `{Services E F} `{ModelFiles F} `{UnicodeData} `{CaseFolding} `{Bundled} `{Platform} `{Pydantic}.
Context `{ErrorText} (roots : list path).

(** The row of a managed deployment with its configuration rewritten *)
Definition upgrade_of (row : Deployment) (config : pydict) : Prop := exists s model_path original,
  dp_config row = PDict original /\ parse_spec (get "spec" original) = Ok s /\
  rewrite_config (dp_runtime row) (fixed_spec_of model_path s) original = Ok config.
Definition upgrade_event (e : event) : Prop :=
  match e with
  | EWrite _ (Some row) (Some row') => dp_managed row = true /\ exists config now,
      row' = touched now (with_config config row) /\ upgrade_of row config
  | _ => False
  end.

Lemma upgraded_config_Ok row target f c f' : upgraded_config roots row target f = (Ok (Some c), f') -> upgrade_of row c.
Proof.
  unfold upgraded_config. destruct (dp_config row) as [| | | | | |original] eqn:Hc; try done.
  destruct (get "spec" original) as [| | | | | |raw] eqn:Hr; try done. intros Hrun.
  apply bind_Ok_inv in Hrun as (s & f1 & [Hs ->]%lift_Ok_inv & Hrun). destruct (negb _); [done|].
  apply bind_Ok_inv in Hrun as (mp & f2 & _ & Hrun). apply bind_Ok_inv in Hrun as (u & f3 & _ & Hrun).
  apply bind_Ok_inv in Hrun as (c' & f4 & [Hw ->]%lift_Ok_inv & Hrun). injection Hrun as <- _.
  exists s, (path_str mp), original. by rewrite Hr.
Qed.

Lemma returns_on_files {A} (T : A -> Prop) (m : files F A) : (forall f a f', m f = (Ok a, f') -> T a) ->
  returns (E := E) T (on_files m).
Proof.
  intros Hm w. unfold on_files. destruct (m (se_files (env w))) as [[a|e] f] eqn:Em; cbn; [by eapply Hm|done].
Qed.

Lemma upgrade_rows_returns d rows : Forall (fun p => dp_managed (snd p) = true) rows ->
  returns (E := E) (fun r => Forall (fun u => dp_managed (snd (fst u)) = true /\ upgrade_of (snd (fst u)) (snd u)) (fst r))
    (upgrade_rows roots d rows).
Proof.
  induction 1 as [|[id row] rows Hrow _ IH]; cbn [upgrade_rows]; [by apply returns_ret; constructor|].
  eapply (returns_then (fun r => forall c, r = inl (Some c) -> upgrade_of row c)).
  - apply returns_catch; [|intros e; by apply returns_ret].
    eapply (returns_then (fun o => forall c, o = Some c -> upgrade_of row c)).
    + apply returns_on_files. intros f a f' Hrun c ->. by eapply upgraded_config_Ok.
    + intros o Ho. apply returns_ret. intros c [= ->]. by apply Ho.
  - intros r Hr. eapply returns_then; [exact IH|]. intros [updated errors] Hu. apply returns_ret.
    destruct r as [[c|]|m]; cbn; try done. case_match; cbn; [done|]. constructor; [|done]. split; [done|by apply Hr].
Qed.

Lemma write_configs_emits now updated :
  Forall (fun u => dp_managed (snd (fst u)) = true /\ upgrade_of (snd (fst u)) (snd u)) updated ->
  emits (E := E) any_state (Forall upgrade_event) (write_configs now updated).
Proof.
  induction 1 as [|[[id row] config] updated [Hm Hu] _ IH]; cbn [write_configs]; [auto with emits|].
  apply emits_bind; [apply only_update|intros u]. apply emits_bind; [|intros u2; exact IH].
  apply only_log. split; [done|]. by exists config, now.
Qed.

(** Reconciling calls no container: all it does is to rewrite the configurations
    of managed rows, and of such a row nothing else changes. *)
Theorem reconcile_rewrites_only w : exists l,
  trace (snd (reconcile_managed_chat_templates (E := E) roots w)) = trace w ++ l /\ Forall upgrade_event l.
Proof.
  assert (emits (E := E) any_state (Forall upgrade_event) (reconcile_managed_chat_templates roots)) as Hm.
  { unfold reconcile_managed_chat_templates. apply emits_bind; [apply only_session|intros d].
    set (managed := List.filter _ _).
    assert (Forall (fun p => dp_managed (snd p) = true) managed) as Hmanaged.
    { apply List.Forall_forall. intros p Hin. by apply filter_In in Hin as [_ Hp]. }
    clearbody managed. eapply emits_returns; [|by apply upgrade_rows_returns|].
    - clear Hmanaged. induction managed as [|[id row] managed IH]; cbn [upgrade_rows]; [auto with emits|].
      traces. apply only_on_files.
    - intros [updated errors] Hu. cbn in Hu. apply emits_bind; [|intros u; auto with emits].
      destruct updated as [|x updated]; [auto with emits|]. traces. by apply write_configs_emits. }
  destruct (Hm w) as (_ & l & Hl & Hf). by exists l.
Qed.
End Written.

(** ** A stored configuration *)


