(* ===== verification/GatewayRouting.v ===== *)
(** * Which deployment serves a request, and with which body

    The part of backend/app/api/gateway.py that is decided before anything is
    sent, with merge_generation_defaults of gateway/proxy.py and
    gateway/adapters.py: the route of a deployment and the choice among the
    deployments of a route, the media parts of a chat request, reasoning effort,
    generation defaults and context limits. *)
From Stdlib Require Import ZArith Lia Bool String SpecFloat.
From stdpp Require Import prelude gmap.
From S2P Require Import Prelude PyValue PyFloat Utf8 PyTime Json JsonBytes Secrets PyText RuntimeSpec RuntimeBase DeployHost DeployContract ModelCapabilities DeployPorts.
Open Scope Z_scope.

(** ** Routes *)

(** A row of the table [deployments], with the column it is ordered by *)
Record GatewayRow := mkGatewayRow { gw_id : pystr; gw_created_at : Z; gw_row : Deployment }.

Definition is_healthy (r : GatewayRow) : bool :=
  str_eqb (dp_status (gw_row r)) (str "running") && str_eqb (dp_health (gw_row r)) (str "healthy").

Definition row_leb (a b : GatewayRow) : bool :=
  (gw_created_at a <? gw_created_at b) || (gw_created_at a =? gw_created_at b) && str_leb (gw_id a) (gw_id b).

Section Routes.
Context `{UnicodeData}.

(** [deployment_route_name] *)
Definition deployment_route_name (d : Deployment) : result pystr :=
  configured ← py_get "route_alias" (py_or (dp_config d) (PDict []));
  Ok (py_str (py_or configured (PStr (dp_api_model_name d)))).

Definition serves (model : pystr) (required : list pystr) (runtime : option pystr) (r : GatewayRow) : result bool :=
  name ← deployment_route_name (gw_row r);
  Ok (str_eqb name model && forallb (fun c => str_in c (dp_capabilities (gw_row r))) required
      && match runtime with Some x => str_eqb (dp_runtime (gw_row r)) x | None => true end).

Fixpoint filter_result {A} (p : A -> result bool) (l : list A) : result (list A) :=
  match l with
  | [] => Ok []
  | x :: r => b ← p x; rest ← filter_result p r; Ok (if b : bool then x :: rest else rest)
  end.

Definition route_candidates (table : list GatewayRow) (model : pystr) (required : list pystr) (runtime : option pystr)
    : result (list GatewayRow) :=
  filter_result (serves model required runtime) (sorted_by row_leb (List.filter is_healthy table)).

(** [_route_positions] *)
Definition positions := gmap pystr Z.

Definition NUL : pystr := [0].
Definition route_key (model : pystr) (required : list pystr) (runtime : option pystr) : pystr :=
  join NUL (model :: default [] runtime :: sorted_by str_leb required).

(** [select_routed_deployment] *)
Definition select_routed_deployment (table : list GatewayRow) (model : pystr) (required : list pystr) (runtime : option pystr)
    (ps : positions) : result (option GatewayRow * positions) :=
  candidates ← route_candidates table model required runtime;
  match candidates with
  | [] => Ok (None, ps)
  | _ =>
      let key := route_key model required runtime in
      let position := default 0 (ps !! key) in
      Ok (candidates !! Z.to_nat (position mod zlen candidates), <[key := position + 1]> ps)
  end.
End Routes.

(** ** Media *)

Definition multimodal {A} (message : string) : result A := Raise (MultimodalRequestError (str message)).

Section Media.
Context `{UnicodeData} `{CaseFolding}.

Definition media_of (normalized : pydict) (field : string) : result pydict :=
  match get field normalized with
  | PStr url => Ok [(str "url", PStr url)]
  | PDict d => Ok d
  | _ =>
      if truthy (get "file_id" normalized)
      then multimodal "file_id media inputs are not available on this gateway; use a URL or data URL"
      else Raise (MultimodalRequestError (str field ++ str " must be a URL string or an object containing url"))
  end.

Definition has_url (media : pydict) : bool :=
  match get "url" media with PStr s => match strip s with [] => false | _ => true end | _ => false end.

(** [_normalize_media_part]; the target type is the field *)
Definition normalize_media_part (part : pydict) (field : string) : result pydict :=
  media ← media_of part field;
  _ ← guard_exn (has_url media) (MultimodalRequestError (str field ++ str ".url must be a non-empty string"));
  let '(normalized, media) :=
    match dict_get (str "detail") part with
    | Some detail =>
        if String.eqb field "image_url" && negb (dict_mem (str "detail") media)
        then (dict_del (str "detail") part, dict_set (str "detail") detail media) else (part, media)
    | None => (part, media)
    end in
  let normalized := dict_del (str "file_id") normalized in
  let normalized := dict_set (str "type") (PStr (str field)) normalized in
  Ok (dict_set (str field) (PDict media) normalized).

Definition part_type (part : pydict) : pystr :=
  match map (fun c => if c =? 45 then 95 else c) (casefold (py_str (py_or (get "type" part) (PStr [])))) with
  | [] => if has "image_url" part then str "image_url" else if has "video_url" part then str "video_url" else []
  | t => t
  end.

(** One part, and the modality that it asks for *)
Definition normalize_part (part : pyval) : result (pyval * option pystr) :=
  match part with
  | PDict d =>
      let t := part_type d in
      if str_eqb t (str "input_text") then Ok (PDict (dict_set (str "type") (text "text") d), None)
      else if str_in t [str "image_url"; str "input_image"] then
        p ← normalize_media_part d "image_url"; Ok (PDict p, Some (str "image"))
      else if str_in t [str "video_url"; str "input_video"] then
        p ← normalize_media_part d "video_url"; Ok (PDict p, Some (str "video"))
      else Ok (part, None)
  | _ => Ok (part, None)
  end.

Definition normalize_message (message : pyval) : result (pyval * list pystr) :=
  match message with
  | PDict m =>
      match get "content" m with
      | PList parts =>
          l ← mapM_result normalize_part parts;
          Ok (PDict (dict_set (str "content") (PList (map fst l)) m), omap snd l)
      | _ => Ok (message, [])
      end
  | _ => Ok (message, [])
  end.

(** [normalize_multimodal_chat_body]: the body, and the set of modalities *)
Definition normalize_multimodal_chat_body (body : pydict) : result (pydict * list pystr) :=
  match get "messages" body with
  | PList messages =>
      l ← mapM_result normalize_message messages;
      Ok (dict_set (str "messages") (PList (map fst l)) body, set_union [] (flat_map snd l))
  | _ => Ok (body, [])
  end.
End Media.

(** [requested_multimodal_runtime] *)
Definition VLLM_MEDIA_KEYS : list pystr := texts ["mm_processor_kwargs"; "media_io_kwargs"]%string.
Definition SGLANG_MEDIA_KEYS : list pystr := texts ["images_config"; "use_audio_in_video"]%string.
Definition OBJECT_MEDIA_KEYS : list pystr := texts ["mm_processor_kwargs"; "media_io_kwargs"; "images_config"]%string.

Definition not_an_object (body : pydict) (key : pystr) : bool :=
  match dict_get key body with None | Some PNone | Some (PDict _) => false | Some _ => true end.

Definition requested_multimodal_runtime (body : pydict) : result (option pystr) :=
  let vllm := existsb (fun k => dict_mem k body) VLLM_MEDIA_KEYS in
  let sglang := existsb (fun k => dict_mem k body) SGLANG_MEDIA_KEYS in
  if vllm && sglang then multimodal "vLLM and SGLang multimodal request parameters cannot be mixed"
  else match find (not_an_object body) OBJECT_MEDIA_KEYS with
       | Some key => Raise (MultimodalRequestError (key ++ str " must be an object"))
       | None =>
           match dict_get (str "use_audio_in_video") body with
           | None | Some (PBool _) => Ok (if vllm then Some (str "vllm") else if sglang then Some (str "sglang") else None)
           | Some _ => multimodal "use_audio_in_video must be a boolean"
           end
       end.

(** ** Reasoning effort *)

Definition config_dict (d : Deployment) : pydict := match dp_config d with PDict c => c | _ => [] end.
Definition spec_dict (d : Deployment) : pydict := match get "spec" (config_dict d) with PDict s => s | _ => [] end.

(** [deployment_reasoning_levels] *)
Definition deployment_reasoning_levels (d : Deployment) : list pystr :=
  let architectures := match get "compatibility" (config_dict d) with
                       | PDict c => match dict_get (str "architectures") c with Some a => a | None => PList [] end
                       | _ => PList []
                       end in
  let template := get "chat_template" (spec_dict d) in
  if py_eqb template (PStr QWEN_FIXED_CHAT_TEMPLATE_PROFILE)
     || py_eqb template (text "model")
        && match architectures with PList l => existsb (fun a => py_eqb a (text "Qwen4ExpForConditionalGeneration")) l | _ => false end
  then texts ["low"; "medium"; "xhigh"]%string else [].

Definition LEVEL_ALIASES : list (pystr * pystr) :=
  [(str "high", str "xhigh"); (str "max", str "xhigh"); (str "ultracode", str "xhigh"); (str "extreme", str "xhigh");
   (str "minimal", str "low"); (str "off", str "none")].
Definition PLAIN_ALIASES : list (pystr * pystr) := [(str "high", str "medium")].

Section Reasoning.
Context `{UnicodeData}.

Definition canonical_effort (aliases : list (pystr * pystr)) (effort : pystr) : pystr :=
  let canonical := lower (strip effort) in default canonical (dict_get canonical aliases).

(** [normalize_reasoning_effort] *)
Definition normalize_reasoning_effort (body : pydict) (d : Deployment) : pydict :=
  let aliases := match deployment_reasoning_levels d with [] => PLAIN_ALIASES | _ => LEVEL_ALIASES end in
  let template_kwargs := match get "chat_template_kwargs" body with PDict k => k | _ => [] end in
  let '(normalized, template_kwargs) :=
    match get "reasoning_effort" body with
    | PStr effort =>
        let e := canonical_effort aliases effort in
        let kwargs := dict_set (str "reasoning_effort") (PStr e) template_kwargs in
        (dict_set (str "reasoning_effort") (PStr e) body,
         if str_eqb e (str "none") then dict_set (str "enable_thinking") (PBool false) kwargs else kwargs)
    | _ =>
        (body, match get "reasoning_effort" template_kwargs with
               | PStr effort => dict_set (str "reasoning_effort") (PStr (canonical_effort aliases effort)) template_kwargs
               | _ => template_kwargs
               end)
    end in
  match template_kwargs with [] => normalized | _ => dict_set (str "chat_template_kwargs") (PDict template_kwargs) normalized end.
End Reasoning.

(** ** Generation defaults *)

Definition GENERATION_KEYS : list pystr :=
  texts ["frequency_penalty"; "max_tokens"; "min_p"; "presence_penalty"; "repetition_penalty"; "stop"; "temperature"; "top_k";
         "top_p"]%string.
Definition SAMPLING_KEYS : list pystr :=
  List.filter (fun k => negb (str_in k (texts ["max_tokens"; "stop"]%string))) GENERATION_KEYS ++ texts ["seed"; "logit_bias"]%string.
Definition GENERATION_ENDPOINTS : list pystr := texts ["/v1/chat/completions"; "/v1/completions"]%string.

(** [GenerationDefaults.model_validate({key: value}, strict=True)] and its dump
    without the fields that are [None] *)
Class StrictGeneration := strict_generation : pystr -> pyval -> result pydict.

Section Generation.
Context `{StrictGeneration}.

(** [deployment_generation_settings] *)
Definition valid_default (defaults : pydict) (key : pystr) : result (option (pystr * pyval)) :=
  match dict_get key defaults with
  | None => Ok None
  | Some v =>
      match strict_generation key v with
      | Ok parsed => Ok ((fun x => (key, x)) <$> dict_get key parsed)
      | Raise e => if is_type_or_value_error e then Ok None else Raise e
      end
  end.

Definition present_items (l : list (option (pystr * pyval))) : pydict := omap (fun x => x) l.
Definition deployment_generation_settings (d : Deployment) : result (pydict * list pystr) :=
  match get "spec" (config_dict d), get "runtime_capabilities" (config_dict d) with
  | PDict spec, PDict snapshot =>
      match get "generation_defaults" spec, get "generation_defaults" snapshot with
      | PDict defaults, PList supported =>
          validated ← mapM_result (valid_default defaults) GENERATION_KEYS;
          Ok (present_items validated, omap as_str supported)
      | _, _ => Ok ([], [])
      end
  | _, _ => Ok ([], [])
  end.
End Generation.

(** [merge_generation_defaults] *)
Fixpoint apply_defaults (keys : list pystr) (defaults merged : pydict) : pydict * list pystr :=
  match keys with
  | [] => (merged, [])
  | key :: rest =>
      match dict_get key defaults with
      | Some v =>
          if dict_mem key merged || str_eqb key (str "max_tokens") && has "max_completion_tokens" merged
          then apply_defaults rest defaults merged
          else let '(m, applied) := apply_defaults rest defaults (dict_set key v merged) in (m, key :: applied)
      | None => apply_defaults rest defaults merged
      end
  end.

Definition without_sampling (d : pydict) : pydict := foldl (fun m k => dict_del k m) d SAMPLING_KEYS.

Definition merge_generation_defaults (endpoint : pystr) (body defaults : pydict) (supported : list pystr) : pydict * list pystr :=
  if negb (str_in endpoint GENERATION_ENDPOINTS) then (body, [])
  else
    let merged := without_sampling body in
    let merged := match get "extra_body" merged with
                  | PDict extra => dict_set (str "extra_body")
                                     (PDict (List.filter (fun p => negb (str_in (fst p) SAMPLING_KEYS)) extra)) merged
                  | _ => merged
                  end in
    apply_defaults (List.filter (fun k => str_in k supported) GENERATION_KEYS) defaults merged.

(** ** Context limits *)

Definition plain_int (v : pyval) : option Z := match v with PInt n => Some n | _ => None end.

Record ContextLimits := mkLimits {
  cl_context_length : option Z;
  cl_configured : option Z;
  cl_capacity : option Z;
  cl_max_input : option Z;
  cl_max_output : option Z;
}.

Definition opt_min (a b : option Z) : option Z :=
  match a, b with Some x, Some y => Some (Z.min x y) | Some x, None => Some x | None, y => y end.

(** [deployment_context_limits]; [payload]: what an SGLang server says of itself *)
Definition deployment_context_limits (d : Deployment) (payload : pyval) : ContextLimits :=
  let spec := spec_dict d in
  let configured := plain_int (py_or (get "context_length" spec) (get "context_length" (config_dict d))) in
  let capacity :=
    if str_eqb (dp_runtime d) (str "sglang") then
      match payload with
      | PDict p => match plain_int (get "max_total_num_tokens" p) with Some n => if 0 <? n then Some n else None | None => None end
      | _ => None
      end
    else None in
  let context := opt_min configured capacity in
  let defaults := match get "generation_defaults" spec with PDict g => g | _ => [] end in
  let output := if str_in (dp_runtime d) [str "laya"; str "viggle"] then Some 0 else plain_int (get "max_tokens" defaults) in
  let '(context, configured, capacity) :=
    if str_eqb (dp_runtime d) (str "viggle") then (None, None, None) else (context, configured, capacity) in
  let input := match context, output with Some c, Some o => Some (Z.max (c - o) 0) | _, _ => context end in
  mkLimits context configured capacity input output.

(** ** Adapters *)

(** [LocalOpenAIAdapter.adapt_request] *)
Definition adapt_message (message : pyval) : pyval :=
  match message with
  | PDict m => if py_eqb (get "role" m) (text "developer") then PDict (dict_set (str "role") (text "system") m) else message
  | _ => message
  end.
Definition adapt_request (endpoint : pystr) (body : pydict) : pydict :=
  if negb (str_eqb endpoint (str "/v1/chat/completions")) then body
  else match get "messages" body with
       | PList messages => dict_set (str "messages") (PList (map adapt_message messages)) body
       | _ => body
       end.

(** [GatewayAdapter.normalize_error] *)
Definition error_style : dump_style :=
  {| item_separator := str ", "; key_separator := str ": "; ensure_ascii := false; sort_keys := false; allow_nan := true |}.

Definition text_value (v : pyval) : pyval := match v with PStr s => PStr s | _ => PNone end.
Definition error_body (message : pystr) (status_code : Z) (param code : pyval) : pyval :=
  PDict [(str "error", PDict
    [(str "message", PStr message);
     (str "type", if status_code <? 500 then text "invalid_request_error" else text "server_error");
     (str "param", param); (str "code", code)])].

Definition normalize_error (content : bytes) (status_code : Z) : result bytes :=
  payload ← match loads_bytes content with
            | Ok v => Ok v
            | Raise e => match e with JSONDecodeError | UnicodeError _ => Ok PNone | _ => Raise e end
            end;
  let details := match payload with PDict d => d | _ => [] end in
  match get "error" details with
  | PDict _ => Ok content
  | _ =>
      let message := match get "message" details with
                     | PStr ((_ :: _) as s) => s
                     | _ => str "Upstream inference request failed with status " ++ dec status_code
                     end in
      written ← dumps error_style (error_body message status_code (text_value (get "param" details)) (text_value (get "code" details)));
      of_option (utf8_encode written) (UnicodeError [])
  end.

(** ** Sorting *)

Lemma insert_by_In {A} (leb : A -> A -> bool) x l y : In y (insert_by leb x l) <-> y = x \/ In y l.
Proof.
  induction l as [|z l IH]; cbn.
  - split; [intros [->|[]]; by left|intros [->|[]]; by left].
  - destruct (leb z x); cbn; rewrite ?IH; split; intros H; repeat destruct H as [H|H]; subst; auto.
Qed.
Lemma insert_by_perm {A} (leb : A -> A -> bool) x l : Permutation (insert_by leb x l) (x :: l).
Proof.
  induction l as [|y l IH]; [done|]. cbn. destruct (leb y x); [|done]. rewrite IH. by constructor.
Qed.
Lemma sorted_by_perm {A} (leb : A -> A -> bool) l : Permutation (sorted_by leb l) l.
Proof.
  unfold sorted_by. enough (forall acc, Permutation (foldl (fun acc x => insert_by leb x acc) acc l) (acc ++ l)) as H by apply H.
  induction l as [|x l IH]; intros acc; cbn; [by rewrite app_nil_r|]. rewrite IH, insert_by_perm. cbn.
  by rewrite Permutation_middle.
Qed.
(** ** The turns of a route *)

Lemma Ok_pair {A B} (a a' : A) (b b' : B) : Ok (a, b) = Ok (a', b') -> a = a' /\ b = b'.
Proof. by intros [= -> ->]. Qed.

Record RouteRequest := mkRequest { rr_model : pystr; rr_required : list pystr; rr_runtime : option pystr }.
#[global] Instance RouteRequest_eq_dec : EqDecision RouteRequest.
Proof. solve_decision. Defined.
Definition request_key (q : RouteRequest) : pystr := route_key (rr_model q) (rr_required q) (rr_runtime q).

Section Turns.
Context `{UnicodeData} (table : list GatewayRow).

(** A sequence of requests, while the table stays as it is *)
Fixpoint serve_all (requests : list RouteRequest) (ps : positions) : result (list (RouteRequest * option GatewayRow) * positions) :=
  match requests with
  | [] => Ok ([], ps)
  | q :: rest =>
      x ← select_routed_deployment table (rr_model q) (rr_required q) (rr_runtime q) ps;
      y ← serve_all rest (snd x);
      Ok ((q, fst x) :: fst y, snd y)
  end.

Definition candidates_of (q : RouteRequest) : result (list GatewayRow) :=
  route_candidates table (rr_model q) (rr_required q) (rr_runtime q).

(** The answers to one request, in order *)
Definition answers (q : RouteRequest) (out : list (RouteRequest * option GatewayRow)) : list (option GatewayRow) :=
  map snd (List.filter (fun p => bool_decide (fst p = q)) out).

Lemma filter_result_spec {A} (p : A -> result bool) l : forall out, filter_result p l = Ok out ->
  out = List.filter (fun x => match p x with Ok b => b | Raise _ => false end) l.
Proof.
  induction l as [|x l IH]; intros out; cbn; [by intros [= <-]|]. destruct (p x) as [b|] eqn:Hp; [|done]. cbn.
  destruct (filter_result p l) as [rest|]; [|done]. cbn. intros [= <-]. rewrite <- (IH rest) by done. by destruct b.
Qed.

(** A candidate is a healthy row that serves the model with what is required. *)
Lemma candidate_serves q cs c : candidates_of q = Ok cs -> In c cs ->
  In c table /\ is_healthy c = true /\ serves (rr_model q) (rr_required q) (rr_runtime q) c = Ok true.
Proof.
  unfold candidates_of, route_candidates. intros ->%filter_result_spec [Hin Hs]%filter_In.
  apply (Permutation_in _ (sorted_by_perm _ _)), filter_In in Hin as [Hin Hh]. split; [done|]. split; [done|].
  destruct (serves _ _ _ c) as [[]|]; done.
Qed.

Lemma candidate_ids q cs : List.NoDup (map gw_id table) -> candidates_of q = Ok cs -> List.NoDup (map gw_id cs).
Proof.
  assert (forall f l, List.NoDup (map gw_id l) -> List.NoDup (map gw_id (List.filter f l))) as Hf.
  { intros f. induction l as [|x l IH]; [done|]. cbn. rewrite NoDup_cons_iff. intros [Hx Hl]. destruct (f x); [|by apply IH].
    cbn. constructor; [|by apply IH]. intros (y & Hy & [Hin _]%filter_In)%in_map_iff. apply Hx. rewrite <- Hy. by apply in_map. }
  unfold candidates_of, route_candidates. intros Hd ->%filter_result_spec. apply Hf.
  eapply Permutation_NoDup; [symmetry; apply Permutation_map, sorted_by_perm|]. by apply Hf.
Qed.

(** The [i]-th turn after position [p] *)
Definition turn (cs : list GatewayRow) (p : Z) (i : nat) : option GatewayRow := cs !! Z.to_nat ((p + Z.of_nat i) mod zlen cs).

Lemma next_position (ps : positions) key n : <[key := n]> ps !! key = Some n.
Proof. apply lookup_insert_eq. Qed.
Lemma serve_all_turns q cs requests : forall ps out ps', candidates_of q = Ok cs -> cs <> [] ->
  Forall (fun r => r = q \/ request_key r <> request_key q) requests -> serve_all requests ps = Ok (out, ps') ->
  let k := length (answers q out) in
  answers q out = map (turn cs (default 0 (ps !! request_key q))) (seq 0 k).
Proof.
  induction requests as [|r requests IH]; intros ps out ps' Hc Hn Hr Hs; [by injection Hs as <- <-|].
  inversion Hr as [|? ? Hq Hr']; subst. cbn in Hs.
  destruct (select_routed_deployment _ _ _ _ ps) as [[x ps1]|] eqn:Hx; [|done]. cbn in Hs.
  destruct (serve_all requests ps1) as [[y ps2]|] eqn:Hy; [|done]. injection Hs as <- <-.
  unfold answers. cbn [List.filter fst snd]. unfold select_routed_deployment in Hx. destruct (decide (r = q)) as [->|Hne].
  - rewrite bool_decide_true by done. change (route_candidates table _ _ _) with (candidates_of q) in Hx. rewrite Hc in Hx.
    cbn [mbind result_bind] in Hx. destruct cs as [|c0 cs0]; [done|]. apply Ok_pair in Hx as [<- <-].
    specialize (IH _ _ _ Hc Hn Hr' Hy). cbn zeta in IH. cbn [map length seq snd]. f_equal.
    { unfold turn. by rewrite Z.add_0_r. }
    fold (answers q y). rewrite IH, length_map, length_seq, <- seq_shift, map_map. apply map_ext. intros i.
    unfold turn. fold (request_key q). rewrite next_position. cbn [default from_option id].
    do 3 f_equal. lia.
  - rewrite bool_decide_false by done. destruct Hq as [|Hk]; [done|]. specialize (IH _ _ _ Hc Hn Hr' Hy). cbn zeta in IH.
    fold (answers q y). rewrite IH at 1. assert (ps1 !! request_key q = ps !! request_key q) as ->; [|done].
    destruct (route_candidates _ _ _ _) as [[|c1 cs1]|]; [by injection Hx as _ <-| |done]. apply Ok_pair in Hx as [_ <-].
    by apply lookup_insert_ne.
Qed.

(** *** Counting the turns *)

Lemma div_next x n : 0 < n -> (x + 1) / n = x / n + (if (x + 1) mod n =? 0 then 1 else 0).
Proof.
  intros Hn. pose proof (Z.div_mod x n). pose proof (Z.mod_pos_bound x n Hn).
  pose proof (Z.div_mod (x + 1) n). pose proof (Z.mod_pos_bound (x + 1) n Hn).
  destruct (Z.eqb_spec ((x + 1) mod n) 0); nia.
Qed.
Lemma turn_residue p j n i : 0 <= j < n -> ((p + i) mod n =? j) = ((p - j + i) mod n =? 0).
Proof.
  intros Hj. apply Bool.eq_true_iff_eq. rewrite !Z.eqb_eq. split; intros He.
  - pose proof (Z.div_mod (p + i) n). replace (p - j + i) with ((p + i) / n * n) by lia. by apply Z.mod_mul; lia.
  - pose proof (Z.div_mod (p - j + i) n). replace (p + i) with (j + (p - j + i) / n * n) by lia.
    rewrite Z.mod_add by lia. by apply Z.mod_small.
Qed.
Lemma turns_of p j n k : 0 <= j < n ->
  Z.of_nat (length (List.filter (fun i => (p + Z.of_nat i) mod n =? j) (seq 0 k))) = (p - j - 1 + Z.of_nat k) / n - (p - j - 1) / n.
Proof.
  intros Hj. induction k as [|k IH]; [cbn; rewrite Z.add_0_r; lia|]. rewrite seq_S, List.filter_app, length_app, Nat2Z.inj_add, IH.
  cbn [List.filter plus]. rewrite turn_residue by done.
  replace (p - j - 1 + Z.of_nat (S k)) with (p - j - 1 + Z.of_nat k + 1) by lia. rewrite div_next by lia.
  replace (p - j - 1 + Z.of_nat k + 1) with (p - j + Z.of_nat k) by lia. destruct (_ =? 0); cbn [length]; lia.
Qed.
Lemma div_share x k n : 0 < n -> k / n <= (x + k) / n - x / n <= k / n + 1.
Proof.
  intros Hn. pose proof (Z.div_mod x n). pose proof (Z.mod_pos_bound x n Hn). pose proof (Z.div_mod k n).
  pose proof (Z.mod_pos_bound k n Hn). pose proof (Z.div_mod (x + k) n). pose proof (Z.mod_pos_bound (x + k) n Hn). nia.
Qed.

Definition is_row (c : GatewayRow) (o : option GatewayRow) : bool :=
  match o with Some r => str_eqb (gw_id r) (gw_id c) | None => false end.

Lemma turn_is_row cs p j c i : List.NoDup (map gw_id cs) -> cs !! j = Some c ->
  is_row c (turn cs p i) = ((p + Z.of_nat i) mod zlen cs =? Z.of_nat j).
Proof.
  intros Hd Hj. assert (0 < zlen cs) as Hn by (unfold zlen; apply lookup_lt_Some in Hj; lia). unfold turn.
  pose proof (Z.mod_pos_bound (p + Z.of_nat i) (zlen cs) Hn) as Hm. set (m := (p + Z.of_nat i) mod zlen cs) in *.
  destruct (lookup_lt_is_Some_2 cs (Z.to_nat m)) as [r Hr]; [unfold zlen in *; lia|]. rewrite Hr. cbn.
  apply Bool.eq_true_iff_eq. rewrite str_eqb_eq, Z.eqb_eq. split; [|intros Hmj; replace (Z.to_nat m) with j in Hr by lia; congruence].
  intros Hid. apply NoDup_ListNoDup in Hd. enough (Z.to_nat m = j) by lia. apply (NoDup_lookup (map gw_id cs) _ _ (gw_id c)); [done|..].
  - rewrite list_lookup_fmap, Hr. cbn. by rewrite Hid.
  - by rewrite list_lookup_fmap, Hj.
Qed.

(** C25.  The healthy deployments that can serve a request take turns: whatever other
    requests come between (with other keys: model, runtime and sorted
    capabilities), of [k] answers to it each one of [n] candidates gives at least
    [k / n] and at most one more, and no other row answers.  The rows and the
    candidates are the same for all of these requests, and ids are unique. *)
Theorem candidates_share_evenly q cs requests ps out ps' : List.NoDup (map gw_id table) ->
  candidates_of q = Ok cs -> cs <> [] ->
  Forall (fun r => r = q \/ request_key r <> request_key q) requests ->
  serve_all requests ps = Ok (out, ps') ->
  let given := answers q out in
  (forall o, In o given -> exists c, o = Some c /\ In c cs /\ is_healthy c = true /\ serves (rr_model q) (rr_required q) (rr_runtime q) c = Ok true) /\
  forall c, In c cs -> zlen given / zlen cs <= zlen (List.filter (is_row c) given) <= zlen given / zlen cs + 1.
Proof.
  intros Hd Hc Hn Hr Hs given. pose proof (serve_all_turns q cs requests ps out ps' Hc Hn Hr Hs) as Ht. cbn zeta in Ht.
  fold given in Ht. set (p := default 0 (ps !! request_key q)) in *. clearbody p given.
  assert (0 < zlen cs) as Hl by (unfold zlen; destruct cs; [done|cbn; lia]). split.
  - intros o Ho. rewrite Ht in Ho. apply in_map_iff in Ho as (i & <- & _). unfold turn.
    destruct (lookup_lt_is_Some_2 cs (Z.to_nat ((p + Z.of_nat i) mod zlen cs))) as [r Hi].
    { pose proof (Z.mod_pos_bound (p + Z.of_nat i) (zlen cs) Hl). unfold zlen in *. lia. }
    exists r. split; [done|]. apply list_elem_of_lookup_2, list_elem_of_In in Hi. split; [done|]. by eapply candidate_serves.
  - intros c Hin. apply list_elem_of_In, list_elem_of_lookup in Hin as [j Hj]. pose proof (candidate_ids _ _ Hd Hc) as Hids.
    assert (zlen (List.filter (is_row c) given) = (p - Z.of_nat j - 1 + zlen given) / zlen cs - (p - Z.of_nat j - 1) / zlen cs) as ->;
      [|by apply div_share].
    change (zlen given) with (Z.of_nat (length given)). remember (length given) as k eqn:Hk. rewrite Ht. clear Hk Ht.
    rewrite <- (turns_of p (Z.of_nat j) (zlen cs)) by (unfold zlen; apply lookup_lt_Some in Hj; lia). unfold zlen at 1.
    f_equal. rewrite (List.filter_ext _ (fun i => is_row c (turn cs p i))) by (intros i; by rewrite (turn_is_row cs p j c i)).
    induction (seq 0 k) as [|i l IH]; [done|]. cbn. destruct (is_row c (turn cs p i)); cbn; by rewrite IH.
Qed.
End Turns.

Definition demo_deployment (api_model_name : string) (capabilities : list string) : Deployment :=
  mkDeployment (str "demo") None (str "vllm") None None (str "http://127.0.0.1:8000") (str api_model_name) (str "running") (str "healthy")
    true None (Some 8000) (mkBenchmark None None None None None None) (PDict []) (texts capabilities) (utc 0).
Definition demo_table : list GatewayRow :=
  [mkGatewayRow (str "b") 2 (demo_deployment "qwen" ["chat"; "vision"]%string);
   mkGatewayRow (str "a") 1 (demo_deployment "qwen" ["chat"]%string);
   mkGatewayRow (str "c") 3 (demo_deployment "gemma" ["chat"]%string)].
Definition chat_request (model : string) : RouteRequest := mkRequest (str model) [str "chat"] None.
Definition demo_requests : list RouteRequest :=
  [chat_request "qwen"; chat_request "gemma"; chat_request "qwen"; chat_request "llama"; chat_request "qwen"].

Lemma candidates_share_evenly_witness : exists out ps',
  serve_all (H := ascii_data) demo_table demo_requests ∅ = Ok (out, ps') /\
  map (fmap gw_id) (answers (chat_request "qwen") out) = [Some (str "a"); Some (str "b"); Some (str "a")] /\
  forall c, In c (take 2 demo_table) -> 1 <= zlen (List.filter (is_row c) (answers (chat_request "qwen") out)) <= 2.
Proof.
  destruct (serve_all (H := ascii_data) demo_table demo_requests ∅) as [[out ps']|] eqn:Hs; [|exfalso; vm_compute in Hs; discriminate].
  exists out, ps'. split; [done|].
  assert (Ha : match serve_all (H := ascii_data) demo_table demo_requests ∅ with
               | Ok (out, _) => map (fmap gw_id) (answers (chat_request "qwen") out) = [Some (str "a"); Some (str "b"); Some (str "a")]
               | _ => True end) by (vm_compute; reflexivity).
  rewrite Hs in Ha. split; [exact Ha|]. intros c Hc.
  assert (candidates_of (H := ascii_data) demo_table (chat_request "qwen") =
          Ok [mkGatewayRow (str "a") 1 (demo_deployment "qwen" ["chat"]%string);
              mkGatewayRow (str "b") 2 (demo_deployment "qwen" ["chat"; "vision"]%string)]) as Hcs by (vm_compute; reflexivity).
  assert (zlen (answers (chat_request "qwen") out) = 3) as Hl by (apply (f_equal length) in Ha; rewrite length_map in Ha; unfold zlen; by rewrite Ha).
  set (cs := [_; _]) in Hcs.
  destruct (candidates_share_evenly (H := ascii_data) demo_table (chat_request "qwen") cs demo_requests ∅ out ps') as [_ Hshare];
    [|exact Hcs|discriminate| |exact Hs|].
  - repeat constructor; vm_compute; intuition discriminate.
  - unfold demo_requests. rewrite !Forall_cons. split_and!; try (by left); try (by constructor); right; vm_compute; discriminate.
  - rewrite Hl in Hshare. apply Hshare. destruct Hc as [<-|[<-|[]]]; [right; by left|by left].
Defined.

(** ** Who decides how to sample *)

Lemma without_keys_get (ks : list pystr) (d : pydict) key :
  dict_get key (foldl (fun m k => dict_del k m) d ks) = if str_in key ks then None else dict_get key d.
Proof.
  revert d. induction ks as [|k ks IH]; intros d; cbn [foldl str_in existsb]; [done|]. rewrite IH. destruct (str_eqb_spec key k) as [->|Hk].
  - cbn. rewrite dict_get_del_eq. by destruct (str_in k ks).
  - cbn. by rewrite dict_get_del_ne.
Qed.

Lemma apply_defaults_spec ks defaults : forall merged m applied, apply_defaults ks defaults merged = (m, applied) -> List.NoDup ks ->
  (forall key, In key applied -> In key ks /\ dict_mem key merged = false /\ dict_mem key defaults = true) /\
  (forall key, dict_get key m = if str_in key applied then dict_get key defaults else dict_get key merged) /\
  (forall key, In key ks -> dict_mem key defaults = true -> str_eqb key (str "max_tokens") = false -> dict_mem key m = true) /\
  (has "max_completion_tokens" merged = true -> ~ In (str "max_tokens") applied).
Proof.
  induction ks as [|k ks IH]; intros merged m applied; cbn [apply_defaults].
  - intros [= <- <-] _. split_and!; try done. by intros ? [].
  - intros Ha [Hk Hd]%NoDup_cons_iff. destruct (dict_get k defaults) as [v|] eqn:Hv.
    2:{ destruct (IH _ _ _ Ha Hd) as (H1 & H2 & H3 & H4). split_and!; [|done| |done].
        - intros key Hin. destruct (H1 key Hin) as (? & ? & ?). split_and!; auto. by right.
        - intros key [<-|Hin]; [unfold dict_mem; by rewrite Hv|by apply H3]. }
    destruct (dict_mem k merged || _) eqn:Hm.
    + destruct (IH _ _ _ Ha Hd) as (H1 & H2 & H3 & H4). split_and!; [|done| |done].
      * intros key Hin. destruct (H1 key Hin) as (? & ? & ?). split_and!; auto. by right.
      * intros key [<-|Hin] Hdef Hne; [|by apply H3]. rewrite Hne in Hm. cbn in Hm. rewrite orb_false_r in Hm.
        unfold dict_mem in *. rewrite H2. by destruct (str_in k applied).
    + destruct (apply_defaults ks defaults (dict_set k v merged)) as [m' a'] eqn:Ha'. injection Ha as <- <-.
      destruct (IH _ _ _ Ha' Hd) as (H1 & H2 & H3 & H4). apply orb_false_elim in Hm as [Hm1 Hm2]. split_and!.
      * intros key [<-|Hin]; [split_and!; [by left|done|unfold dict_mem; by rewrite Hv]|]. destruct (H1 key Hin) as (Hks & Hn & ?).
        split_and!; [by right| |done]. unfold dict_mem in *. rewrite dict_get_set_ne in Hn; [done|]. intros ->. done.
      * intros key. rewrite H2. cbn. destruct (str_eqb_spec key k) as [->|Hne]; cbn.
        -- rewrite dict_get_set_eq, Hv. by destruct (str_in k a').
        -- by rewrite dict_get_set_ne.
      * intros key [<-|Hin] Hdef Hne; [|by apply H3]. unfold dict_mem. rewrite H2, dict_get_set_eq, Hv. by destruct (str_in k a').
      * intros Hc [Heq|Hin]; [rewrite Heq, Hc in Hm2; by vm_compute in Hm2|]. apply H4; [|done]. unfold has, dict_mem in *.
        rewrite dict_get_set_ne; [done|]. intros <-. congruence.
Qed.

Lemma sampling_key_cases key : str_in key SAMPLING_KEYS = true ->
  str_eqb key (str "max_tokens") = false /\ key <> str "extra_body".
Proof.
  intros Hk. apply str_in_In in Hk. vm_compute in Hk. repeat (destruct Hk as [<-|Hk]; [split; [reflexivity|discriminate]|]). done.
Qed.

(** C24.  The deployment decides how to sample a (chat) completion: whatever a client
    writes, at the top or under [extra_body], a sampling option that is sent is a
    supported default of the deployment, and every such default is sent; a limit
    of tokens in the request, old style or new, is kept; every other option of
    the request but [extra_body] is sent as it was; and only supported defaults
    are reported as applied. *)
Theorem sampling_decided_by_deployment endpoint body defaults supported sent applied :
  str_in endpoint GENERATION_ENDPOINTS = true -> merge_generation_defaults endpoint body defaults supported = (sent, applied) ->
  (forall key, In key SAMPLING_KEYS ->
    dict_get key sent = if str_in key supported && str_in key GENERATION_KEYS then dict_get key defaults else None) /\
  (forall extra key, dict_get (str "extra_body") sent = Some (PDict extra) -> In key SAMPLING_KEYS -> ~ In key (keys extra)) /\
  (has "max_tokens" body || has "max_completion_tokens" body = true -> dict_get (str "max_tokens") sent = dict_get (str "max_tokens") body) /\
  (forall key, ~ In key SAMPLING_KEYS -> key <> str "extra_body" -> dict_mem key body = true -> dict_get key sent = dict_get key body) /\
  (forall key, In key applied -> In key supported).
Proof.
  intros He. unfold merge_generation_defaults. rewrite He. cbn [negb]. set (merged := without_sampling body).
  set (stripped := match get "extra_body" merged with PDict _ => _ | _ => merged end). intros Hm.
  assert (forall key, key <> str "extra_body" -> dict_get key stripped = if str_in key SAMPLING_KEYS then None else dict_get key body) as Hget.
  { intros key Hk. unfold stripped. rewrite <- (without_keys_get SAMPLING_KEYS body key). destruct (get "extra_body" merged); try done.
    by rewrite dict_get_set_ne. }
  apply apply_defaults_spec in Hm as (H1 & H2 & H3 & H4); [|apply List.NoDup_filter, NoDup_ListNoDup, distinct_NoDup; by vm_compute].
  assert (forall key, In key applied -> str_in key supported = true /\ In key GENERATION_KEYS) as Happ.
  { intros key Hin. destruct (H1 key Hin) as ([? ?]%filter_In & _). done. }
  assert (forall key, str_in key applied = true -> dict_mem key stripped = false) as Habs.
  { intros key Hin%str_in_In. by destruct (H1 key Hin) as (_ & ? & _). }
  split_and!.
  - intros key Hs%str_in_In. destruct (sampling_key_cases key Hs) as [Hne Hx]. rewrite H2, Hget by done. rewrite Hs.
    destruct (str_in key applied) eqn:Ha.
    + apply str_in_In in Ha as Ha'. destruct (Happ key Ha') as [-> Hg%str_in_In]. by rewrite Hg.
    + destruct (str_in key supported && str_in key GENERATION_KEYS) eqn:Hg; [|done]. apply andb_prop in Hg as [Hg1 Hg2%str_in_In].
      destruct (dict_get key defaults) eqn:Hd; [|done]. exfalso.
      assert (dict_mem key sent = true) as Hmem by (apply H3; [by apply filter_In|unfold dict_mem; by rewrite Hd|done]).
      unfold dict_mem in Hmem. rewrite H2, Ha, Hget, Hs in Hmem; done.
  - intros extra key Hx Hs Hin. rewrite H2 in Hx. destruct (str_in (str "extra_body") applied) eqn:Ha.
    { apply str_in_In, Happ in Ha as [_ Ha]. vm_compute in Ha. intuition discriminate. }
    unfold stripped, get, get_or_none in Hx. destruct (dict_get (str "extra_body") merged) as [v|] eqn:Hv; cbn match in Hx.
    + destruct v; rewrite ?Hv in Hx; try done. rewrite dict_get_set_eq in Hx. injection Hx as <-.
      unfold keys in Hin. apply in_map_iff in Hin as ([k v] & <- & [_ Hf]%filter_In). cbn [fst] in Hs. apply str_in_In in Hs. change (negb (str_in k SAMPLING_KEYS) = true) in Hf.
      rewrite Hs in Hf. done.
    + by rewrite Hv in Hx.
  - intros Hl. rewrite H2. destruct (str_in (str "max_tokens") applied) eqn:Ha; [|exact (Hget (str "max_tokens") ltac:(discriminate))].
    exfalso. apply orb_prop in Hl as [Hl|Hl].
    + apply Habs in Ha. unfold has, dict_mem in *.
      rewrite (Hget (str "max_tokens") ltac:(discriminate)) in Ha. change (str_in (str "max_tokens") SAMPLING_KEYS) with false in Ha.
      by rewrite Ha in Hl.
    + apply str_in_In in Ha. eapply H4; [|exact Ha]. unfold has, dict_mem in *.
      rewrite (Hget (str "max_completion_tokens") ltac:(discriminate)). exact Hl.
  - intros key Hs Hx Hb. assert (str_in key SAMPLING_KEYS = false) as Hsf by by apply str_in_false. rewrite H2.
    destruct (str_in key applied) eqn:Ha; [|by rewrite Hget, Hsf]. apply Habs in Ha. unfold dict_mem in *.
    rewrite Hget, Hsf in Ha by done. by rewrite Ha in Hb.
  - intros key Hin. apply str_in_In. by apply Happ.
Qed.

Lemma sampling_decided_by_deployment_witness :
  let body := [(str "model", text "qwen"); (str "temperature", PInt 2); (str "seed", PInt 7); (str "max_completion_tokens", PInt 9);
               (str "extra_body", PDict [(str "top_k", PInt 1); (str "user", text "u")])] in
  let defaults := [(str "top_k", PInt 20); (str "max_tokens", PInt 100); (str "min_p", PInt 0)] in
  let out := merge_generation_defaults (str "/v1/chat/completions") body defaults [str "top_k"; str "max_tokens"] in
  dict_get (str "temperature") (fst out) = None /\ dict_get (str "top_k") (fst out) = Some (PInt 20) /\
  dict_get (str "max_tokens") (fst out) = None /\ snd out = [str "top_k"].
Proof.
  intros body defaults out.
  destruct (sampling_decided_by_deployment (str "/v1/chat/completions") body defaults [str "top_k"; str "max_tokens"] (fst out) (snd out)
              eq_refl (surjective_pairing _)) as (Hs & _ & Hl & _).
  split_and!.
  - rewrite Hs; [reflexivity|]. apply str_in_In. by vm_compute.
  - rewrite Hs; [reflexivity|]. apply str_in_In. by vm_compute.
  - by rewrite Hl.
  - by vm_compute.
Defined.
