(* ===== verification/GatewayUpstream.v ===== *)
(** * The upstream gateway

    backend/app/services/upstream_gateway.py: where requests for models that this
    manager does not host are sent, which upstream models are offered, and the
    cache of the upstream's model list; with the two settings endpoints of
    backend/app/api/upstream.py.  The settings are rows of [secret_settings],
    encrypted.  Theorems: a base URL with and without its [/v1] give the same
    request URLs, and a stored selection is read back as it was given. *)
From Stdlib Require Import ZArith Lia Bool String SpecFloat Sorted.
From stdpp Require Import prelude gmap.
From S2P Require Import Prelude PyValue PyFloat Utf8 Json Protocol Launcher PyText RuntimeSpec DeployContract GatewayRouting.
Open Scope Z_scope.

(** ** Exposure *)

Record UpstreamExposure := mkExposure { expose_all : bool; selected_models : list pystr }.
Definition full_exposure : UpstreamExposure := mkExposure true [].
Definition allows (e : UpstreamExposure) (model_id : pystr) : bool := expose_all e || str_in model_id (selected_models e).

Inductive config_source := from_database | from_environment.
Record UpstreamGatewayConfig := mkUpstream {
  ug_base_url : pystr;
  ug_api_key : option pystr;
  ug_source : config_source;
  ug_exposure : UpstreamExposure;
}.
Definition cache_key (c : UpstreamGatewayConfig) : pystr :=
  ug_base_url c ++ str "|" ++ dec (zlen (default [] (ug_api_key c))).
Definition allows_model (c : UpstreamGatewayConfig) (model_id : pystr) : bool := allows (ug_exposure c) model_id.

(** ** URLs *)

Definition slash (c : Z) : bool := c =? 47.
Definition V1_SUFFIX : pystr := str "/v1".

Definition upstream_api_root (base_url : pystr) : pystr :=
  let root := rstrip_with slash (strip base_url) in
  if endswith V1_SUFFIX root then rstrip_with slash (take (length root - 3) root) else root.

Definition upstream_request_url (base_url endpoint : pystr) : pystr :=
  upstream_api_root base_url ++ (if startswith (str "/") endpoint then endpoint else str "/" ++ endpoint).

(** [urllib.parse.urlsplit]: the parts that are looked at *)
Record SplitUrl := mkSplit {
  url_scheme : pystr;
  url_hostname : option pystr;
  url_username : option pystr;
  url_password : option pystr;
  url_fragment : pystr;
}.
Class UrlSplit := urlsplit : pystr -> result SplitUrl.

Definition MAX_BASE_URL_LENGTH : Z := 500.
Definition MAX_SELECTED_MODELS : Z := 500.
Definition MAX_MODEL_ID_LENGTH : Z := 255.

(** The messages are Chinese; the model numbers them. *)
Definition refusal (n : Z) : exn := ValueError [n].
Definition given (o : option pystr) : bool := match o with Some (_ :: _) => true | _ => false end.

Definition validate_upstream_base_url `{UrlSplit} (value : pystr) : result pystr :=
  let candidate := rstrip_with slash (strip value) in
  if str_eqb candidate [] then Raise (refusal 1)
  else if MAX_BASE_URL_LENGTH <? zlen candidate then Raise (refusal 2)
  else
    parts ← urlsplit candidate;
    if negb (str_in (url_scheme parts) [str "http"; str "https"]) then Raise (refusal 3)
    else if negb (given (url_hostname parts)) then Raise (refusal 4)
    else if given (url_username parts) || given (url_password parts) then Raise (refusal 5)
    else if negb (str_eqb (url_fragment parts) []) then Raise (refusal 6)
    else Ok candidate.

(** ** Selected models *)

Definition id_char (c : Z) : bool := is_alnum c || existsb (Z.eqb c) [46; 95; 58; 47; 45].
(** [MODEL_ID_PATTERN] *)
Definition model_id_ok (name : pystr) : bool :=
  match name with c :: rest => is_alnum c && forallb id_char rest | [] => false end && (zlen name <=? MAX_MODEL_ID_LENGTH).

Fixpoint collect_models (values : list pyval) (normalized : list pystr) : result (list pystr) :=
  match values with
  | [] => Ok normalized
  | PStr s :: rest =>
      let name := strip s in
      if model_id_ok name then collect_models rest (if str_in name normalized then normalized else normalized ++ [name])
      else Raise (refusal 7)
  | _ :: _ => Raise (refusal 8)
  end.

Definition validate_selected_models (values : pyval) : result (list pystr) :=
  match values with
  | PNone => Ok []
  | PList l =>
      normalized ← collect_models l [];
      if MAX_SELECTED_MODELS <? zlen normalized then Raise (refusal 9) else Ok (sorted_by str_leb normalized)
  | _ => Raise (refusal 10)
  end.

(** ** Stored settings *)

(** [SecretBox]: [encrypt] draws a nonce *)
Class SecretBox := {
  encrypt : Z -> pystr -> pystr;
  decrypt : pystr -> result pystr;
}.
Class SecretBoxSpec `{SecretBox} : Prop := decrypt_encrypt : forall nonce value,
  is_ascii value = true -> decrypt (encrypt nonce value) = Ok value.

Definition secrets := gmap pystr pystr.
Definition BASE_URL_KEY : pystr := str "upstream_base_url".
Definition API_KEY_KEY : pystr := str "upstream_api_key".
Definition EXPOSURE_KEY : pystr := str "upstream_model_exposure".

Section Stored.
Context `{SecretBox}.

(** [except (ValueError, json.JSONDecodeError)] *)
Definition read_upstream_exposure (db : secrets) : result UpstreamExposure :=
  match db !! EXPOSURE_KEY with
  | None => Ok full_exposure
  | Some stored =>
      match (value ← decrypt stored; of_option (loads default_hooks value) JSONDecodeError) with
      | Ok (PDict payload) =>
          selected ← match validate_selected_models (get "selected_models" payload) with
                     | Ok l => Ok l
                     | Raise e => if is_ValueError e then Ok [] else Raise e
                     end;
          Ok (mkExposure (match get "expose_all" payload with PBool b => b | _ => true end) selected)
      | Ok _ => Ok full_exposure
      | Raise e => if is_ValueError e then Ok full_exposure else Raise e
      end
  end.

Definition write_secret (nonce : Z) (key value : pystr) (db : secrets) : secrets := <[key := encrypt nonce value]> db.

Definition exposure_payload (e : UpstreamExposure) : pyval :=
  PDict [(str "expose_all", PBool (expose_all e)); (str "selected_models", PList (map PStr (selected_models e)))].

Definition write_upstream_exposure (nonce : Z) (expose_all : bool) (selected : pyval) (db : secrets)
    : result (UpstreamExposure * secrets) :=
  models ← validate_selected_models selected;
  let exposure := mkExposure expose_all models in
  payload ← dumps flag_style (exposure_payload exposure);
  Ok (exposure, write_secret nonce EXPOSURE_KEY payload db).

Definition read_secret (row : option pystr) : result (option pystr) :=
  match row with
  | None => Ok None
  | Some encrypted => value ← decrypt encrypted; Ok (match value with [] => None | _ => Some value end)
  end.

(** [resolve_upstream_gateway]; the environment's URL and key are arguments *)
Definition resolve_upstream_gateway (db : secrets) (fallback_base_url fallback_api_key : pystr)
    : result (option UpstreamGatewayConfig) :=
  exposure ← read_upstream_exposure db;
  match db !! BASE_URL_KEY with
  | Some stored_url =>
      url ← decrypt stored_url;
      api_key ← read_secret (db !! API_KEY_KEY);
      Ok (Some (mkUpstream (rstrip_with slash url) api_key from_database exposure))
  | None =>
      match strip fallback_base_url with
      | [] => Ok None
      | env_url =>
          Ok (Some (mkUpstream (rstrip_with slash env_url)
                      (match strip fallback_api_key with [] => None | k => Some k end) from_environment exposure))
      end
  end.

(** [set_upstream_base_url], [clear_upstream_gateway], [set_upstream_api_key] and
    [clear_upstream_api_key] *)
Definition set_upstream_base_url `{UrlSplit} (nonce : Z) (base_url : pystr) (api_key : option pystr) (db : secrets) : result secrets :=
  url ← validate_upstream_base_url base_url;
  let db := write_secret nonce BASE_URL_KEY url db in
  Ok (match api_key with Some k => write_secret (nonce + 1) API_KEY_KEY k db | None => db end).
Definition clear_upstream_gateway (db : secrets) : secrets := delete API_KEY_KEY (delete BASE_URL_KEY db).
Definition set_upstream_api_key (nonce : Z) (api_key : pystr) (db : secrets) : secrets := write_secret nonce API_KEY_KEY api_key db.
Definition clear_upstream_api_key (db : secrets) : secrets := delete API_KEY_KEY db.

(** [put_upstream]: the fields that the request gives *)
Definition put_upstream `{UrlSplit} (nonce : Z) (base_url : option (option pystr)) (api_key : option (option pystr)) (db : secrets)
    : result secrets :=
  match base_url with
  | Some url =>
      match url with
      | Some u =>
          if str_eqb (strip u) [] then Ok (clear_upstream_gateway db)
          else valid ← validate_upstream_base_url u; set_upstream_base_url nonce valid (default None api_key) db
      | None => Ok (clear_upstream_gateway db)
      end
  | None =>
      match api_key with
      | Some (Some ((_ :: _) as k)) => Ok (set_upstream_api_key nonce k db)
      | Some _ => Ok (clear_upstream_api_key db)
      | None => Ok db
      end
  end.
End Stored.

(** ** Model lists *)

(** What [fetch_upstream_models] keeps of the answer *)
Definition upstream_models (payload : pyval) : result (list pydict) :=
  match (match payload with PDict d => get "data" d | _ => PNone end) with
  | PList data =>
      Ok (omap (fun item => match item with
                            | PDict d => match get "id" d with PStr (_ :: _) => Some d | _ => None end
                            | _ => None
                            end) data)
  | _ => Raise (refusal 11)
  end.

Definition upstream_model_entry (raw : pydict) : pydict :=
  [(str "id", get "id" raw); (str "object", text "model");
   (str "created", match get "created" raw with PInt n => PInt n | _ => PInt 0 end);
   (str "owned_by", text "upstream"); (str "dgx_source", text "upstream"); (str "capabilities", PList []);
   (str "input_modalities", PList []); (str "context_window", PNone); (str "configured_context_length", PNone);
   (str "runtime_token_capacity", PNone); (str "max_model_len", PNone); (str "max_input_tokens", PNone);
   (str "max_output_tokens", PNone); (str "max_concurrency", PNone); (str "runtime", PNone);
   (str "performance", PDict [(str "status", text "unknown"); (str "tokens_per_second", PNone)])].

(** [UpstreamModelCache]: at most one entry; the clock is an argument *)
Record ModelCache := mkCache { mc_ttl : spec_float; mc_entry : option (pystr * (spec_float * list pydict)) }.

Definition cache_get (key : pystr) (now : spec_float) (c : ModelCache) : option (list pydict) * ModelCache :=
  match mc_entry c with
  | Some (k, (stored_at, models)) =>
      if str_eqb k key then
        if SFltb (mc_ttl c) (SFsub float_prec float_emax now stored_at) then (None, mkCache (mc_ttl c) None)
        else (Some models, c)
      else (None, c)
  | None => (None, c)
  end.
Definition cache_set (key : pystr) (models : list pydict) (now : spec_float) (c : ModelCache) : ModelCache :=
  mkCache (mc_ttl c) (Some (key, (now, models))).
Definition cache_invalidate (c : ModelCache) : ModelCache := mkCache (mc_ttl c) None.

(** [_merge_upstream_models]: what the upstream adds to the local routes *)
Definition MAGPIE_URLS : list pystr := [str "http://127.0.0.1:3425"; str "http://127.0.0.1:3425/v1"].
Definition merge_upstream_models (c : UpstreamGatewayConfig) (magpie_enabled : bool) (models : list pydict)
    (routes : list (pystr * pydict)) : list (pystr * pydict) :=
  let aliases := if magpie_enabled && str_in (rstrip_with slash (ug_base_url c)) MAGPIE_URLS
                 then map (fun r => str "dgx-local/" ++ fst r) routes else [] in
  foldl (fun routes raw =>
    let name := match get "id" raw with PStr s => s | _ => [] end in
    if dict_mem name routes || str_in name aliases || negb (allows_model c name) then routes
    else dict_set name (upstream_model_entry raw) routes) routes models.

(** ** Base URLs *)

Lemma rstrip_run (p : Z -> bool) s t : forallb p t = true -> rstrip_with p (s ++ t) = rstrip_with p s.
Proof.
  intros Ht. unfold rstrip_with. rewrite rev_app_distr. f_equal.
  assert (forall l, forallb p l = true -> lstrip_with p (l ++ rev s) = lstrip_with p (rev s)) as Hl.
  { induction l as [|c l IH]; [done|]. cbn. intros [-> Hl]%andb_prop. by apply IH. }
  apply Hl. apply forallb_forall. intros c Hc. rewrite forallb_forall in Ht. apply Ht. by apply in_rev.
Qed.
Lemma rstrip_keeps (p : Z -> bool) s c : p c = false -> rstrip_with p (s ++ [c]) = s ++ [c].
Proof. intros Hc. unfold rstrip_with. rewrite rev_app_distr. cbn. rewrite Hc. cbn. by rewrite rev_involutive. Qed.
Lemma lstrip_short p s : (length (lstrip_with p s) <= length s)%nat.
Proof. induction s as [|c s IH]; cbn; [lia|]. destruct (p c); cbn; lia. Qed.

(** A text without space at its ends keeps none when a text that does not end
    in space is added. *)
Lemma strip_app s t c : s <> [] -> strip s = s -> is_space c = false -> strip (s ++ t ++ [c]) = s ++ t ++ [c].
Proof.
  intros Hn Hs Hc. destruct s as [|d s]; [done|]. unfold strip, strip_with in *.
  destruct (is_space d) eqn:Hd.
  - exfalso. apply (f_equal length) in Hs. cbn in Hs. rewrite Hd in Hs. unfold rstrip_with in Hs. rewrite length_rev in Hs.
    pose proof (lstrip_short is_space (rev (lstrip_with is_space s))) as H1. rewrite length_rev in H1.
    pose proof (lstrip_short is_space s). lia.
  - cbn [app lstrip_with]. rewrite Hd. rewrite app_comm_cons, app_assoc. by apply rstrip_keeps.
Qed.

Lemma repeat_last (c : Z) k : repeat c (S k) = repeat c k ++ [c].
Proof. induction k as [|k IH]; [done|]. cbn in *. by f_equal. Qed.

(** A base URL to which nothing needs to be done *)
Definition plain_root (root : pystr) : Prop :=
  root <> [] /\ strip root = root /\ rstrip_with slash root = root /\ endswith V1_SUFFIX root = false.

Lemma slashes k : forallb slash (repeat 47 k) = true.
Proof. induction k; done. Qed.

Lemma root_plain root k : plain_root root -> upstream_api_root (root ++ repeat 47 k) = root.
Proof.
  intros (Hn & Hs & Hr & Hv). unfold upstream_api_root.
  assert (strip (root ++ repeat 47 k) = root ++ repeat 47 k) as ->.
  { destruct k; [by rewrite app_nil_r|]. rewrite repeat_last. by apply strip_app. }
  rewrite rstrip_run by apply slashes. by rewrite Hr, Hv.
Qed.
Lemma root_v1 root k : plain_root root -> upstream_api_root (root ++ V1_SUFFIX ++ repeat 47 k) = root.
Proof.
  intros (Hn & Hs & Hr & Hv). unfold upstream_api_root.
  assert (strip (root ++ V1_SUFFIX ++ repeat 47 k) = root ++ V1_SUFFIX ++ repeat 47 k) as ->.
  { destruct k; [rewrite app_nil_r; by apply (strip_app root (str "/v") 49)|].
    rewrite repeat_last, (app_assoc V1_SUFFIX). by apply strip_app. }
  rewrite app_assoc, rstrip_run by apply slashes.
  change (root ++ V1_SUFFIX) with (root ++ str "/v" ++ [49]). rewrite app_assoc, rstrip_keeps by done.
  rewrite <- app_assoc. change (str "/v" ++ [49]) with V1_SUFFIX.
  assert (endswith V1_SUFFIX (root ++ V1_SUFFIX) = true) as ->.
  { unfold endswith. rewrite rev_app_distr. vm_compute; by destruct (rev root). }
  rewrite length_app. change (length V1_SUFFIX) with 3%nat. replace (length root + 3 - 3)%nat with (length root) by lia.
  by rewrite take_app_length.
Qed.

(** A base URL may carry its [/v1], and slashes at its end: the URL of a request
    is the same, and has the prefix of the endpoint only. *)
Theorem request_url_one_v1 root k endpoint : plain_root root -> startswith (str "/") endpoint = true ->
  upstream_request_url (root ++ repeat 47 k) endpoint = root ++ endpoint /\
  upstream_request_url (root ++ V1_SUFFIX ++ repeat 47 k) endpoint = root ++ endpoint.
Proof. intros Hr He. unfold upstream_request_url. by rewrite He, root_plain, root_v1. Qed.

Lemma request_url_one_v1_witness :
  plain_root (str "http://spark:3000") /\
  upstream_request_url (str "http://spark:3000/v1/") (str "/v1/models") = str "http://spark:3000/v1/models".
Proof.
  assert (plain_root (str "http://spark:3000")) as Hr by (split_and!; [discriminate|vm_compute; reflexivity..]).
  split; [exact Hr|]. exact (proj2 (request_url_one_v1 (str "http://spark:3000") 1 (str "/v1/models") Hr eq_refl)).
Defined.

(** ** A stored selection is read back *)

Notation ordered := (StronglySorted (fun a b => str_leb a b = true)).

Lemma insert_ordered x l : ordered l -> ordered (insert_by str_leb x l).
Proof.
  induction 1 as [|y l Hl IH Hy]; cbn; [by repeat constructor|]. destruct (str_leb y x) eqn:Hyx.
  - constructor; [done|]. apply List.Forall_forall. intros z [->|Hz]%insert_by_In; [done|].
    rewrite List.Forall_forall in Hy. by apply Hy.
  - assert (str_leb x y = true) as Hxy by (destruct (str_leb_total y x); congruence).
    constructor; [by constructor|]. constructor; [done|]. eapply List.Forall_impl; [|exact Hy]. intros z Hz.
    by eapply str_leb_trans.
Qed.
Lemma sorted_ordered l : ordered (sorted_by str_leb l).
Proof.
  unfold sorted_by. enough (forall acc, ordered acc -> ordered (foldl (fun acc x => insert_by str_leb x acc) acc l)) as H
    by (apply H; constructor).
  induction l as [|x l IH]; intros acc Ha; cbn; [done|]. apply IH. by apply insert_ordered.
Qed.

(** Sorting an ordered list changes nothing. *)
Lemma insert_last x l : Forall (fun y => str_leb y x = true) l -> insert_by str_leb x l = l ++ [x].
Proof. induction 1 as [|y l Hy _ IH]; [done|]. cbn. by rewrite Hy, IH. Qed.
Lemma sorted_again l : ordered l -> sorted_by str_leb l = l.
Proof.
  unfold sorted_by. intros Hl.
  enough (forall acc, ordered (acc ++ l) -> foldl (fun acc x => insert_by str_leb x acc) acc l = acc ++ l) as H by by apply (H []).
  clear Hl. induction l as [|x l IH]; intros acc Ha; cbn; [by rewrite app_nil_r|].
  rewrite insert_last; [rewrite IH; [by rewrite <- app_assoc|by rewrite <- app_assoc]|].
  clear IH. induction acc as [|y acc IH]; [constructor|]. inversion Ha as [|? ? Ha' Hy]; subst. constructor; [|by apply IH].
  rewrite List.Forall_forall in Hy. apply Hy. apply in_app_iff. right. by left.
Qed.

(** *** Model ids *)

Lemma id_char_ascii c : id_char c = true -> (0 <= c < 128) /\ is_space c = false.
Proof.
  unfold id_char. intros [Ha|Hs]%orb_prop.
  - assert (48 <= c <= 122) as Hc.
    { unfold is_alnum, is_alpha, is_upper, is_lower, is_digit in Ha. rewrite !orb_true_iff, !andb_true_iff, !Z.leb_le in Ha. lia. }
    split; [lia|]. destruct (is_space c) eqn:He; [|done]. unfold is_space in He.
    rewrite !orb_true_iff, !andb_true_iff, !Z.leb_le, !Z.eqb_eq in He. lia.
  - apply existsb_exists in Hs as (d & Hd & ->%Z.eqb_eq). by repeat destruct Hd as [<-|Hd].
Qed.

Lemma model_id_chars name c : model_id_ok name = true -> In c name -> id_char c = true.
Proof.
  unfold model_id_ok. intros [Hn _]%andb_prop. destruct name as [|d name]; [done|]. apply andb_prop in Hn as [Hd Hn].
  intros [<-|Hc]; [unfold id_char; by rewrite Hd|]. rewrite forallb_forall in Hn. by apply Hn.
Qed.
Lemma lstrip_none (p : Z -> bool) s : (forall c, In c s -> p c = false) -> lstrip_with p s = s.
Proof. destruct s as [|c s]; [done|]. intros Hs. cbn. by rewrite (Hs c (or_introl eq_refl)). Qed.
Lemma strip_none s : (forall c, In c s -> is_space c = false) -> strip s = s.
Proof.
  intros Hs. unfold strip, strip_with, rstrip_with. rewrite (lstrip_none _ s) by done.
  rewrite lstrip_none by (intros c Hc; apply Hs; by apply in_rev). apply rev_involutive.
Qed.
Lemma model_id_strip name : model_id_ok name = true -> strip name = name.
Proof. intros Hn. apply strip_none. intros c Hc. by apply id_char_ascii, (model_id_chars name). Qed.
Lemma model_id_text name : model_id_ok name = true -> text_ok name = true.
Proof.
  intros Hn. apply scalar_text_ok, forallb_forall. intros c Hc. apply is_scalar_spec. left.
  pose proof (proj1 (id_char_ascii c (model_id_chars _ _ Hn Hc))). lia.
Qed.

Definition valid_selection (l : list pystr) : Prop :=
  Forall (fun name => model_id_ok name = true) l /\ List.NoDup l /\ ordered l /\ zlen l <= MAX_SELECTED_MODELS.

Lemma collect_models_spec values : forall acc out, collect_models values acc = Ok out ->
  Forall (fun name => model_id_ok name = true) acc -> List.NoDup acc ->
  Forall (fun name => model_id_ok name = true) out /\ List.NoDup out.
Proof.
  induction values as [|v values IH]; intros acc out; cbn; [by intros [= <-]|].
  destruct v; try done. destruct (model_id_ok (strip s)) eqn:Hn; [|done]. intros Hout Ha Hd.
  destruct (str_in (strip s) acc) eqn:Hin; (eapply IH; [exact Hout|..]); try done.
  - apply Forall_app. split; [done|]. by constructor.
  - eapply Permutation_NoDup; [apply Permutation_cons_append|]. constructor; [|done]. intros Hs. apply str_in_In in Hs. congruence.
Qed.
Lemma collect_models_valid l : forall acc, Forall (fun name => model_id_ok name = true) l -> List.NoDup (acc ++ l) ->
  collect_models (map PStr l) acc = Ok (acc ++ l).
Proof.
  induction l as [|name l IH]; intros acc Hl Hd; cbn; [by rewrite app_nil_r|]. inversion Hl as [|? ? Hn Hl']; subst.
  rewrite model_id_strip by done. rewrite Hn. assert (str_in name acc = false) as ->.
  { apply str_in_false. intros Hin. apply NoDup_remove_2 in Hd. apply Hd. apply in_app_iff. by left. }
  rewrite IH; [by rewrite <- app_assoc|done|by rewrite <- app_assoc].
Qed.

Lemma validate_selection values l : validate_selected_models values = Ok l -> valid_selection l.
Proof.
  unfold validate_selected_models. destruct values; try done.
  - intros [= <-]. split_and!; [constructor|constructor|constructor|by vm_compute].
  - destruct (collect_models _ []) as [out|] eqn:Hc; [|done]. cbn. destruct (_ <? _) eqn:Hm; [done|]. intros [= <-].
    apply collect_models_spec in Hc as [Hok Hd]; [|constructor|constructor]. pose proof (sorted_by_perm str_leb out) as Hp.
    split_and!; [by rewrite Hp|by eapply Permutation_NoDup; [symmetry|]|apply sorted_ordered|].
    unfold zlen in *. rewrite Hp. lia.
Qed.
Lemma validate_selection_again l : valid_selection l -> validate_selected_models (PList (map PStr l)) = Ok l.
Proof.
  intros (Hok & Hd & Ho & Hl). unfold validate_selected_models. rewrite (collect_models_valid l []) by done. cbn [app mbind result_bind].
  rewrite (proj2 (Z.ltb_ge _ _)) by done. by rewrite sorted_again.
Qed.

Lemma value_text_flag v : value_text flag_style v = value_text (compact true) v.
Proof. by destruct v. Qed.

Lemma write_secret_read `{SecretBox} nonce key value db : write_secret nonce key value db !! key = Some (encrypt nonce value).
Proof. apply lookup_insert_eq. Qed.

(** A selection that was accepted is what the gateway reads back: sorted,
    without repetitions, at most 500 well-formed names; the other settings stay. *)
Theorem exposure_roundtrip `{SecretBoxSpec} nonce all selected db e db' :
  write_upstream_exposure nonce all selected db = Ok (e, db') ->
  read_upstream_exposure db' = Ok e /\ expose_all e = all /\ valid_selection (selected_models e) /\
  forall key, key <> EXPOSURE_KEY -> db' !! key = db !! key.
Proof.
  unfold write_upstream_exposure. destruct (validate_selected_models selected) as [models|] eqn:Hv; [|done].
  apply validate_selection in Hv. cbn [mbind result_bind]. set (exposure := mkExposure all models).
  assert (json_value_ok (exposure_payload exposure) = true) as Hok.
  { cbn. rewrite !andb_true_r. apply forallb_forall. intros v (name & <- & Hin)%in_map_iff. cbn.
    destruct Hv as [Hv _]. rewrite List.Forall_forall in Hv. by apply model_id_text, Hv. }
  assert (sort_value (exposure_payload exposure) = exposure_payload exposure) as Hsort.
  { assert (map sort_value (map PStr models) = map PStr models) as Hm by (rewrite map_map; by apply map_ext).
    unfold exposure_payload, exposure. cbn [selected_models expose_all]. cbn [sort_value map fst snd]. rewrite Hm. reflexivity. }
  unfold dumps. rewrite json_value_encodable by done. cbn [sort_keys flag_style mbind result_bind]. rewrite Hsort.
  intros [<- <-]%Ok_pair. split_and!; [|done|done|intros key Hk; apply lookup_insert_ne; congruence].
  unfold read_upstream_exposure. rewrite write_secret_read.
  rewrite decrypt_encrypt by (rewrite value_text_flag; apply is_ascii_value). cbn [mbind result_bind].
  rewrite (loads_value_text flag_style [] [] flag_style_plain default_hooks default_rebuilding) by done.
  cbn [of_option exposure_payload]. change (get "selected_models" _) with (PList (map PStr models)).
  by rewrite validate_selection_again.
Qed.

Lemma exposure_roundtrip_witness :
  let box := {| encrypt := fun _ s => s; decrypt := Ok |} in
  exists e db', write_upstream_exposure 7 false (PList (map PStr [str " m/b "; str "a"; str "a"])) ∅ = Ok (e, db') /\
    read_upstream_exposure db' = Ok e /\ selected_models e = [str "a"; str "m/b"].
Proof.
  intros box. assert (SecretBoxSpec) as Hbox by done.
  destruct (write_upstream_exposure 7 false (PList (map PStr [str " m/b "; str "a"; str "a"])) ∅) as [[e db']|] eqn:Hw;
    [|exfalso; vm_compute in Hw; discriminate].
  exists e, db'. split; [done|]. destruct (exposure_roundtrip 7 false _ ∅ e db' Hw) as [Hr _]. split; [exact Hr|].
  assert (match write_upstream_exposure 7 false (PList (map PStr [str " m/b "; str "a"; str "a"])) ∅ with
          | Ok (e, _) => selected_models e = [str "a"; str "m/b"] | _ => True end) as Hs by (vm_compute; reflexivity).
  by rewrite Hw in Hs.
Defined.
