(* ===== verification/PlanExecutor.v ===== *)
(** * Execution of operation plans

    [backend/app/operations/executor.py]: the handler of the task that executes
    an approved plan.  It claims the plan, checks the digest of its steps before
    every step, runs shell steps through the host agent (start, poll, redact,
    publish, cancel) and deployment steps through the deployment service, and
    records what happened in the plan and in the audit log.

    The program is traced (Traced): its state is the database and the output
    collected for the current step, its environment (class [Backend]) answers
    for the host agent, the services and the other sessions, which may commit
    whatever they like whenever this program opens or commits a session. *)
From Stdlib Require Import ZArith Lia Bool String SpecFloat.
From stdpp Require Import prelude gmap.
From S2P Require Import Prelude PyValue PosixPath Utf8 Sha256 Policy PyTime Redaction Secrets Traced TaskEngine PyText Plans.
Open Scope Z_scope.

(** ** The environment *)

Class Backend (E : Type) := {
  (** opening or committing a session: the tables as other sessions have left
      them, or the failure of the database *)
  be_session : tables -> E -> result tables * E;
  (** the rows that [load_known_secrets] reads *)
  be_secrets : E -> result secret_rows * E;
  (** [agent_client.call(action, parameters, approval=...)] *)
  be_call : pystr -> pydict -> option pydict -> E -> result pyval * E;
  (** [discovery_service.scan_all(db)] and [deployment_service.action_handler(context, payload)],
      with the tables they leave *)
  be_scan : tables -> E -> (result pyval * tables) * E;
  be_action : pydict -> tables -> E -> (result pyval * tables) * E;
}.

(** ** Data *)

(** [dict(step)] of a JSON value: the items with string keys, and whether there
    is a key of another type *)
Record step := mkStep { fields : pydict; other_keys : bool }.

Definition is_hashable (v : pyval) : bool := match v with PList _ | PDict _ => false | _ => true end.

Definition pair_of (v : pyval) : result (pyval * pyval) :=
  let wrong := Raise (ValueError (str "dictionary update sequence element has the wrong length; 2 is required")) in
  match v with
  | PList [k; x] => Ok (k, x)
  | PStr [a; b] => Ok (PStr [a], PStr [b])
  | PDict [(a, _); (b, _)] => Ok (PStr a, PStr b)
  | PList _ | PStr _ | PDict _ => wrong
  | _ => Raise (TypeError (str "cannot convert dictionary update sequence element to a sequence"))
  end.

Fixpoint dict_of_elements (l : list pyval) (acc : step) : result step :=
  match l with
  | [] => Ok acc
  | v :: rest =>
      '(k, x) ← pair_of v;
      if negb (is_hashable k) then Raise (TypeError (str "unhashable type"))
      else match k with
           | PStr s => dict_of_elements rest (mkStep (dict_set s x (fields acc)) (other_keys acc))
           | _ => dict_of_elements rest (mkStep (fields acc) true)
           end
  end.

Definition dict_of (v : pyval) : result step :=
  match v with
  | PDict d => Ok (mkStep d false)
  | PList l => dict_of_elements l (mkStep [] false)
  | PStr s => dict_of_elements (map (fun c => PStr [c]) s) (mkStep [] false)
  | _ => Raise (TypeError (str "object is not iterable"))
  end.

Definition step_get (key : string) (s : step) : pyval := get key (fields s).

(** The database and the list [output_parts] *)
Record execution := mkExecution { ex_tables : tables; ex_parts : list pystr }.

(** What the program does, in order *)
Inductive event :=
  | EClaimed (plan : OperationPlan)
  | EVerified (steps : pyval)
  | ECall (action : pystr) (parameters : pydict) (approval : option pydict) (answer : result pyval)
  | EMessage (text : pystr)
  | EScan
  | EAction (payload : pydict)
  | ESaved (status : pystr) (results : list pydict).

Definition TERMINAL_JOB_STATUSES : list pystr := [str "succeeded"; str "failed"; str "timed_out"; str "cancelled"].
Definition ACTIVE_PLAN_STATUSES : list pystr := [str "approved"; str "executing"].
Definition MAX_STEP_OUTPUT_CHARS : Z := 100000.

Definition is_stop (e : exn) : bool := match e with TaskCancelled | TaskPaused => true | _ => false end.
Definition is_Exception (e : exn) : bool := true.

(** What a model of the polling loop raises when it stops looking: no
    exception of the program. *)
Definition still_polling : exn := OtherException (str "still polling").

Definition not_approved : exn := ValueError (str "Operation plan is not approved").
Definition approval_changed : exn := ValueError (str "Operation plan changed after approval").
Definition metadata_invalid : exn := ValueError (str "Operation plan approval metadata is invalid").
Definition shell_failed : exn := RuntimeError (str "Shell step failed").
Definition bad_step : exn := ValueError (str "Approved Shell step is invalid").
Definition bad_response : exn := RuntimeError (str "Agent job response is invalid").

(** ** Checks of data *)

Definition SHELL_FIELDS : list pystr :=
  [str "id"; str "operation"; str "command"; str "cwd"; str "timeout"; str "reason"; str "impact"; str "rollback";
   str "executable"].

Definition has_nul (s : pystr) : bool := existsb (Z.eqb 0) s.

Definition explained (v : pyval) : bool :=
  match v with PStr s => negb (str_eqb (strip s) []) && (zlen s <=? 2000) | _ => false end.

(** [_shell_parameters] *)
Definition shell_parameters (s : step) : result (pystr * pydict) :=
  if other_keys s || negb (keys_equal (fields s) SHELL_FIELDS) then Raise bad_step else
  if negb (match step_get "operation" s with PStr o => str_eqb o (str "shell") | _ => false end) then Raise bad_step else
  match step_get "id" s, step_get "command" s, step_get "cwd" s, step_get "timeout" s with
  | PStr step_id, PStr command, PStr cwd, PInt timeout =>
      if negb (APPROVAL_IDENTIFIER_PATTERN step_id)
         || str_eqb (strip command) [] || (8000 <? zlen command) || has_nul command
         || (1000 <? zlen cwd) || negb (startswith (str "/") cwd) || startswith (str "//") cwd || has_nul cwd
         || negb (str_eqb (normpath cwd) cwd)
         || negb ((1 <=? timeout) && (timeout <=? 600))
         || negb (match step_get "executable" s with PBool true => true | _ => false end)
         || negb (explained (step_get "reason" s) && explained (step_get "impact" s) && explained (step_get "rollback" s))
      then Raise bad_step
      else Ok (step_id, [(str "command", PStr command); (str "cwd", PStr cwd); (str "timeout", PInt timeout)])
  | _, _, _, _ => Raise bad_step
  end.

Definition SNAPSHOT_FIELDS : list pystr :=
  [str "job_id"; str "status"; str "output"; str "output_offset"; str "truncated_before"; str "exit_code";
   str "started"; str "finished"; str "error"].
Definition JOB_STATUSES : list pystr := [str "queued"; str "running"] ++ TERMINAL_JOB_STATUSES.

Definition opt_int (v : pyval) : bool := match v with PNone | PInt _ => true | _ => false end.

(** The checked fields of a snapshot *)
Record snapshot := mkJobSnapshot {
  sn_job_id : pystr;
  sn_status : pystr;
  sn_output : pystr;
  sn_output_offset : Z;
  sn_truncated_before : Z;
  sn_exit_code : option Z;
}.

(** [_validate_job_snapshot]; the dictionary is kept by its checked fields *)
Definition validate_job_snapshot (value : pyval) : result snapshot :=
  match value with
  | PDict d =>
      if negb (keys_equal d SNAPSHOT_FIELDS) then Raise bad_response else
      match get "job_id" d with
      | PStr job_id =>
          if str_eqb job_id [] || (128 <? zlen job_id) then Raise bad_response else
          match get "status" d with
          | PList _ | PDict _ => Raise (TypeError (str "unhashable type"))
          | PStr status =>
              if negb (str_in status JOB_STATUSES) then Raise bad_response else
              match get "output" d, get "output_offset" d, get "truncated_before" d with
              | PStr output, PInt output_offset, PInt truncated_before =>
                  if truncated_before <? 0 then Raise bad_response else
                  encoded ← of_option (utf8_encode output) (UnicodeError []);
                  if negb (output_offset =? truncated_before + zlen encoded) then Raise bad_response else
                  match get "exit_code" d with
                  | PNone => Ok (mkJobSnapshot job_id status output output_offset truncated_before None)
                  | PInt c => Ok (mkJobSnapshot job_id status output output_offset truncated_before (Some c))
                  | _ => Raise bad_response
                  end
              | _, _, _ => Raise bad_response
              end
          | _ => Raise bad_response
          end
      | _ => Raise bad_response
      end
  | _ => Raise bad_response
  end.

Definition is_terminal_job (s : snapshot) : bool := str_in (sn_status s) TERMINAL_JOB_STATUSES.

(** [(index + 1) / max(len(steps), 1) * 100] *)
Definition progress_of (index total : nat) : num :=
  NFloat (SFmul float_prec float_emax
            (SFdiv float_prec float_emax (float_of_Z (Z.of_nat index + 1)) (float_of_Z (Z.max (Z.of_nat total) 1)))
            (float_of_Z 100)).

(** ** The handler *)

Section Executor.
Context {E : Type} `{Backend E} `{CaseFolding} `{UnicodeData}.
(** The fuel of the polling loop, the task, whether there is an agent client,
    and [secret_box.decrypt] *)
Context (fuel : nat) (task_id : pystr) (has_agent : bool) (decrypt : option (pystr -> result pystr)).
Notation prog := (tprogram execution event E).

(** *** Sessions *)

Definition set_tables (d : tables) : prog unit := update (fun s => mkExecution d (ex_parts s)).

(** [with self.session_factory() as db:], up to the first query *)
Definition view : prog tables :=
  s ← get_state; d ← ask_result (be_session (ex_tables s)); set_tables d;; mret d.

(** [db.commit()] *)
Definition commit (writes : tables -> result tables) : prog unit :=
  d ← view; d' ← lift (writes d); set_tables d'.

(** *** The task context *)

Definition context_check : prog unit := d ← view; lift (check_control task_id (tb_tasks d)).

Definition context_report (progress : option num) (message : option pystr) : prog unit :=
  d ← view; set_tables (put_tasks (context_update task_id progress None None message (tb_tasks d)) d).

Definition publish (text : pystr) : prog unit := context_report None (Some text);; log (EMessage text).

(** *** Plan records *)

(** [_save_plan_result] *)
Fixpoint write_sessions (seen : list (pystr * pystr)) (status : pystr) (d : tables) : result tables :=
  match seen with
  | [] => Ok d
  | (id, s) :: rest => d' ← update_session id s status d; write_sessions rest status d'
  end.

Definition sessions_seen (ids : list pystr) (d : tables) : list (pystr * pystr) :=
  omap (fun id => (fun s => (id, s)) <$> tb_sessions d !! id) ids.

Definition save_plan_result (plan_id status : pystr) (results : list pydict) : prog unit :=
  d ← view;
  match tb_plans d !! plan_id with
  | None => mret tt : prog unit
  | Some plan =>
      let changes p :=
        write_result (result_with [(str "steps", PList (map PDict results))] plan)
          (write_status (pl_status plan) status p) in
      let seen := if str_in status [str "completed"; str "failed"]
                  then sessions_seen (plan_sessions plan_id d) d else [] in
      let session_status := if str_eqb status (str "completed") then str "active" else str "failed" in
      commit (fun d => d' ← update_plan plan_id changes d; write_sessions seen session_status d');;
      log (ESaved status results)
  end.

(** [_audit_shell] *)
Definition audit_shell (plan_id : pystr) (s : step) (actor action outcome summary : pystr) (index : nat)
    (job_id agent_status : option pystr) (exit_code : option Z) : prog unit :=
  digest ← match step_get "command" s with
           | PStr c => b ← lift (of_option (utf8_encode c) (UnicodeError [])); mret (PStr (hex (sha256 b)))
           | _ => mret PNone : prog pyval
           end;
  let details :=
    [(str "step_id", step_get "id" s); (str "step_index", PInt (Z.of_nat index)); (str "command_digest", digest);
     (str "summary", PStr (take 128 summary))]
    ++ match job_id with Some j => [(str "agent_job_id", PStr j)] | None => [] end
    ++ match agent_status with Some a => [(str "agent_status", PStr a)] | None => [] end
    ++ match exit_code with Some c => [(str "exit_code", PInt c)] | None => [] end in
  commit (fun d => Ok (record_audit (mkAudit actor action (str "operation_plan") (Some plan_id) outcome details) d)).

(** [_claim_plan] *)
Definition claim_plan (plan_id : pystr) : prog (list step * pystr * pystr * pystr) :=
  d ← view;
  match tb_plans d !! plan_id with
  | None => raise not_approved
  | Some plan =>
      if negb (str_in (pl_status plan) ACTIVE_PLAN_STATUSES) then raise not_approved else
      let recorded := get "approval_digest" (default [] (pl_result_json plan)) in
      same ← match recorded with
             | PStr digest =>
                 current ← lift (operation_plan_digest (pl_steps plan));
                 mret (if str_eqb current digest then Some digest else None)
             | _ => mret None : prog (option pystr)
             end;
      match same : option pystr with
      | None =>
          commit (update_plan plan_id (fun p =>
            write_result (result_with [(str "failure", PStr (str "approval_changed"))] plan)
              (write_status (pl_status plan) (str "failed") p)));;
          raise approval_changed
      | Some digest =>
          match pl_approved_by plan, pl_approved_at plan with
          | Some (c :: approved_by), Some approved_at =>
              steps ← lift (mapM_result dict_of (default [] (as_list (pl_steps plan))));
              commit (update_plan plan_id (write_status (pl_status plan) (str "executing")));;
              moment ← lift (astimezone_utc (assume_utc approved_at));
              log (EClaimed plan);;
              mret (steps, digest, c :: approved_by, stamp moment)
          | _, _ =>
              commit (update_plan plan_id (write_status (pl_status plan) (str "failed")));;
              raise metadata_invalid
          end
      end
  end.

(** [_verify_approval_digest] *)
Definition verify_approval_digest (plan_id expected : pystr) : prog unit :=
  d ← view;
  match tb_plans d !! plan_id with
  | None => raise approval_changed
  | Some plan =>
      current ← lift (operation_plan_digest (pl_steps plan));
      if str_eqb current expected then log (EVerified (pl_steps plan))
      else
        commit (update_plan plan_id (fun p =>
          write_result (result_with [(str "failure", PStr (str "approval_changed"))] plan)
            (write_status (pl_status plan) (str "failed") p)));;
        raise approval_changed
  end.

(** *** Deployment steps: [_execute_structured] *)

Definition DEPLOYMENT_ACTIONS : list (pystr * pystr) :=
  [(str "start_deployment", str "start"); (str "stop_deployment", str "stop"); (str "restart_deployment", str "restart")].

Definition opt_str (o : option pystr) : pyval := match o with Some s => PStr s | None => PNone end.

Definition execute_structured (s : step) : prog pydict :=
  let operation := step_get "operation" s in
  if match operation with PStr o => str_eqb o (str "rescan_inventory") | _ => false end then
    d ← view; log EScan;;
    '(r, d') ← ask (be_scan d); set_tables d';;
    r ← lift r; mret [(str "result", r)]
  else if negb (is_hashable operation) then raise (TypeError (str "unhashable type"))
  else
    match (match operation with PStr o => dict_get o DEPLOYMENT_ACTIONS | _ => None end) with
    | None => mret [(str "status", PStr (str "skipped")); (str "reason", PStr (str "Not allowed"))]
    | Some action =>
        target ← lift (of_option (dict_get (str "deployment_id") (fields s)) (KeyError (str "deployment_id")));
        let deployment_id := py_str target in
        d ← view;
        match tb_deployments d !! deployment_id with
        | None => raise (ValueError (str "Deployment was not found; retry the operation"))
        | Some deployment =>
            let payload :=
              [(str "deployment_id", PStr deployment_id); (str "action", PStr action);
               (str "expected_container_id", opt_str (dp_container_id deployment));
               (str "expected_container_name", opt_str (dp_container_name deployment))] in
            log (EAction payload);;
            s ← get_state;
            '(r, d') ← ask (be_action payload (ex_tables s)); set_tables d';;
            r ← lift r; mret [(str "result", r)]
        end
    end.

(** *** Output of a shell step *)

Definition add_part (text : pystr) : prog unit := update (fun s => mkExecution (ex_tables s) (ex_parts s ++ [text])).
Definition clear_parts : prog unit := update (fun s => mkExecution (ex_tables s) []).
Definition collected : prog pystr := s ← get_state; mret (concat (ex_parts s)).

(** [_append_output] *)
Definition append_output (chunk : pystr) (output_chars : Z) : prog Z :=
  if str_eqb chunk [] || (MAX_STEP_OUTPUT_CHARS <=? output_chars) then mret output_chars
  else
    let bounded := take (Z.to_nat (MAX_STEP_OUTPUT_CHARS - output_chars)) chunk in
    add_part bounded;; publish bounded;; mret (output_chars + zlen bounded).

Definition decoded (b : result bytes) : result pystr := b ← b; of_option (utf8_decode b) (UnicodeError []).

Definition TRUNCATION_MARKER : pystr := str "[Earlier Agent output was truncated]" ++ [10].

(** [_consume_output] *)
Definition consume_output (secrets : list pystr) (s : snapshot) (previous_offset output_chars : Z) (r : redactor)
    : prog (Z * Z * redactor) :=
  if (sn_truncated_before s <? previous_offset) || (sn_output_offset s <? previous_offset)
  then raise (RuntimeError (str "Agent output offset is invalid"))
  else
    '(output_chars, r) ←
      (if (previous_offset <? sn_truncated_before s) && (output_chars <? MAX_STEP_OUTPUT_CHARS) then
         rest ← lift (decoded (fst (Redaction.finish r)));
         output_chars ← append_output rest output_chars;
         let bounded := take (Z.to_nat (MAX_STEP_OUTPUT_CHARS - output_chars)) TRUNCATION_MARKER in
         add_part bounded;; publish bounded;;
         mret (output_chars + zlen bounded, new_redactor secrets)
       else mret (output_chars, r) : prog (Z * redactor));
    encoded ← lift (of_option (utf8_encode (sn_output s)) (UnicodeError []));
    let '(fed, r) := feed encoded r in
    chunk ← lift (decoded fed);
    '(chunk, r) ←
      (if is_terminal_job s then
         let '(last, r) := Redaction.finish r in
         rest ← lift (decoded last); mret ((chunk : pystr) ++ rest, r)
       else mret (chunk : pystr, r) : prog (pystr * redactor));
    output_chars ← append_output chunk output_chars;
    mret (sn_output_offset s, output_chars, r).

(** *** Shell steps *)

Definition call_agent (action : pystr) (parameters : pydict) (approval : option pydict) : prog snapshot :=
  answer ← ask (be_call action parameters approval);
  log (ECall action parameters approval answer);;
  value ← lift answer; lift (validate_job_snapshot value).

(** A call about the job [job_id], whose answer must name it *)
Definition call_job (action : pystr) (job_id : pystr) (parameters : pydict) : prog snapshot :=
  s ← call_agent action ((str "job_id", PStr job_id) :: parameters) None;
  if str_eqb (sn_job_id s) job_id then mret s else raise bad_response.

Definition nat_value (n : nat) : pyval := PInt (Z.of_nat n).
Definition failed_entry (index : nat) (reason : string) : pydict :=
  [(str "index", nat_value index); (str "status", PStr (str "failed")); (str "reason", PStr (str reason))].

(** The step that is executed: what [_execute_shell] is passed *)
Record shell_task := mkShellTask {
  sh_plan_id : pystr;
  sh_index : nat;
  sh_step : step;
  sh_approved_by : pystr;
  sh_approved_at : pystr;
  sh_secrets : list pystr;
  sh_prior : list pydict;
}.

Definition audit_task (t : shell_task) (action outcome summary : string) :=
  audit_shell (sh_plan_id t) (sh_step t) (sh_approved_by t) (str action) (str outcome) (str summary) (sh_index t).
Definition fail_task (t : shell_task) (entry : pydict) : prog unit :=
  save_plan_result (sh_plan_id t) (str "failed") (sh_prior t ++ [entry]).

(** The task was paused or cancelled while the job ran. *)
Definition stop_shell (t : shell_task) (step_id job_id : pystr) (output_chars : Z) (r : redactor) : prog unit :=
  cancelled ← attempt (call_job (str "job.cancel") job_id []) is_Exception;
  let agent_status := match cancelled with inl s => sn_status s | inr _ => str "unknown" end in
  rest ← lift (decoded (fst (Redaction.finish r)));
  append_output rest output_chars;;
  output ← collected;
  fail_task t
    [(str "index", nat_value (sh_index t)); (str "step_id", PStr step_id); (str "status", PStr (str "cancelled"));
     (str "agent_status", PStr agent_status); (str "output", PStr output)];;
  audit_task t "ops.shell.cancel" "failure" "task_stopped" (Some job_id) (Some agent_status) None.

(** Polling failed. *)
Definition poll_failed (t : shell_task) (step_id job_id : pystr) : prog unit :=
  output ← collected;
  fail_task t
    [(str "index", nat_value (sh_index t)); (str "step_id", PStr step_id); (str "status", PStr (str "failed"));
     (str "agent_status", PStr (str "unknown")); (str "agent_job_id", PStr job_id); (str "output", PStr output)];;
  audit_task t "ops.shell.fail" "failure" "agent_poll_failed" (Some job_id) None None.

(** [while snapshot["status"] not in _TERMINAL_JOB_STATUSES:] *)
Fixpoint poll (k : nat) (t : shell_task) (step_id job_id : pystr) (s : snapshot) (offset output_chars : Z)
    (r : redactor) : prog snapshot :=
  if is_terminal_job s then mret s
  else
    match k with
    | O => raise still_polling
    | S k =>
        control ← attempt context_check is_stop;
        match control : unit + exn with
        | inr e => stop_shell t step_id job_id output_chars r;; raise e
        | inl _ =>
            polled ← attempt
              (s ← call_job (str "job.get") job_id [(str "offset", PInt offset)];
               x ← consume_output (sh_secrets t) s offset output_chars r; mret (s, x)) is_Exception;
            match polled : (snapshot * (Z * Z * redactor)) + exn with
            | inl (s, (offset, output_chars, r)) => poll k t step_id job_id s offset output_chars r
            | inr _ => poll_failed t step_id job_id;; raise shell_failed
            end
        end
    end.

(** The end of a job *)
Definition conclude (t : shell_task) (step_id job_id : pystr) (s : snapshot) : prog pydict :=
  output ← collected;
  if str_eqb (sn_status s) (str "succeeded") && bool_decide (sn_exit_code s = Some 0) then
    audit_task t "ops.shell.succeed" "success" "completed" (Some job_id) (Some (sn_status s)) (Some 0);;
    mret [(str "step_id", PStr step_id); (str "agent_job_id", PStr job_id); (str "output", PStr output);
          (str "exit_code", PInt 0)]
  else
    fail_task t
      [(str "index", nat_value (sh_index t)); (str "step_id", PStr step_id); (str "status", PStr (str "failed"));
       (str "agent_status", PStr (sn_status s)); (str "agent_job_id", PStr job_id); (str "output", PStr output);
       (str "exit_code", match sn_exit_code s with Some c => PInt c | None => PNone end)];;
    audit_task t "ops.shell.fail" "failure" "agent_job_failed" (Some job_id) (Some (sn_status s)) (sn_exit_code s);;
    raise shell_failed.

Definition approval_of (t : shell_task) (step_id : pystr) : pydict :=
  [(str "plan_id", PStr (sh_plan_id t)); (str "step_id", PStr step_id); (str "approved_by", PStr (sh_approved_by t));
   (str "approved_at", PStr (sh_approved_at t))].

(** [_execute_shell] *)
Definition execute_shell (t : shell_task) : prog pydict :=
  if negb has_agent then
    audit_task t "ops.shell.fail" "failure" "agent_unavailable" None None None;;
    fail_task t (failed_entry (sh_index t) "Agent unavailable");;
    raise shell_failed
  else
    match shell_parameters (sh_step t) with
    | Raise e =>
        audit_task t "ops.shell.fail" "failure" "invalid_approved_step" None None None;;
        fail_task t (failed_entry (sh_index t) "Invalid approved step");;
        raise e
    | Ok (step_id, parameters) =>
        started ← attempt (call_agent SHELL parameters (Some (approval_of t step_id))) is_Exception;
        match started : snapshot + exn with
        | inr _ =>
            audit_task t "ops.shell.fail" "failure" "agent_start_failed" None None None;;
            fail_task t (failed_entry (sh_index t) "Agent start failed");;
            raise shell_failed
        | inl s =>
            let job_id := sn_job_id s in
            audit_task t "ops.shell.start" "success" "started" (Some job_id) None None;;
            clear_parts;;
            '(offset, output_chars, r) ← consume_output (sh_secrets t) s 0 0 (new_redactor (sh_secrets t));
            s ← poll fuel t step_id job_id s offset output_chars r;
            conclude t step_id job_id s
        end
    end.

(** *** The steps of a plan *)

Definition is_shell (s : step) : bool :=
  match step_get "operation" s with PStr o => str_eqb o (str "shell") | _ => false end.

Section Steps.
Context (plan_id digest approved_by approved_at : pystr) (secrets : list pystr) (total : nat).

(** One step that is executable: the entry of the results it adds *)
Definition execute_step (s : step) (index : nat) (results : list pydict) : prog pydict :=
  outcome ← attempt
    (if is_shell s then execute_shell (mkShellTask plan_id index s approved_by approved_at secrets results)
     else execute_structured s) is_Exception;
  match outcome : pydict + exn with
  | inl result =>
      mret (dict_update [(str "index", nat_value index); (str "status", PStr (str "succeeded"))] result)
  | inr e =>
      (if is_shell s then mret tt : prog unit
       else if is_stop e then save_plan_result plan_id (str "failed") results
       else save_plan_result plan_id (str "failed") (results ++ [failed_entry index "Operation step failed"]));;
      raise e
  end.

Definition skipped_entry (index : nat) : pydict :=
  [(str "index", nat_value index); (str "status", PStr (str "skipped")); (str "reason", PStr (str "Not executable"))].

(** [for index, step in enumerate(steps):] *)
Fixpoint run_steps (steps : list step) (index : nat) (results : list pydict) : prog (list pydict) :=
  match steps with
  | [] => mret results
  | s :: rest =>
      control ← attempt context_check is_stop;
      match control : unit + exn with
      | inr e => save_plan_result plan_id (str "failed") results;; raise e
      | inl _ =>
          verify_approval_digest plan_id digest;;
          entry ← (if truthy (step_get "executable" s) then execute_step s index results
                   else mret (skipped_entry index) : prog pydict);
          let results := results ++ [entry] in
          save_plan_result plan_id (str "executing") results;;
          context_report (Some (progress_of index total)) None;;
          run_steps rest (S index) results
      end
  end.
End Steps.

(** [handler] *)
Definition handler (payload : pydict) : prog pydict :=
  given ← lift (of_option (dict_get (str "plan_id") payload) (KeyError (str "plan_id")));
  let plan_id := py_str given in
  '(steps, digest, approved_by, approved_at) ← claim_plan plan_id;
  loaded ← attempt (rows ← ask be_secrets; lift (load_known_secrets rows decrypt)) is_Exception;
  match loaded : list pystr + exn with
  | inr _ =>
      save_plan_result plan_id (str "failed") [];;
      raise (RuntimeError (str "Operation plan could not load redaction material"))
  | inl secrets =>
      results ← run_steps plan_id digest approved_by approved_at secrets (length steps) steps 0 [];
      save_plan_result plan_id (str "completed") results;;
      mret [(str "plan_id", PStr plan_id); (str "steps", PList (map PDict results))]
  end.
End Executor.

(** ** An environment to try the handler on: no other session interferes, the
    calls of the agent are answered from a list, then with an error *)
Definition scripted : Backend (list (result pyval)) := {|
  be_session d e := (Ok d, e);
  be_secrets e := (Ok {| provider_rows := []; setting_rows := [] |}, e);
  be_call _ _ _ e := match e with a :: rest => (a, rest) | [] => (Raise OpsAgentUnavailable, []) end;
  be_scan d e := ((Ok (PDict []), d), e);
  be_action _ d e := ((Ok (PDict []), d), e);
|}.

Definition demo_snapshot (status : string) (output : string) (before : Z) (exit_code : pyval) : result pyval :=
  Ok (PDict [(str "job_id", PStr (str "j-1")); (str "status", PStr (str status)); (str "output", PStr (str output));
    (str "output_offset", PInt (before + zlen (str output))); (str "truncated_before", PInt before);
    (str "exit_code", exit_code); (str "started", PNone); (str "finished", PNone); (str "error", PNone)]).

Definition demo_step : pydict :=
  [(str "id", PStr (str "step-1")); (str "operation", PStr (str "shell")); (str "command", PStr (str "df -h"));
   (str "cwd", PStr (str "/")); (str "timeout", PInt 60); (str "reason", PStr (str "look"));
   (str "impact", PStr (str "none")); (str "rollback", PStr (str "none")); (str "executable", PBool true)].
