(* ===== verification/PlanSafety.v ===== *)
(** * What the execution of a plan may do

    The theorems about PlanExecutor: which commands reach the host agent, how a
    run ends, what is published, and how the executor's checks fit those of the
    host agent. *)
From Stdlib Require Import ZArith Lia Bool String SpecFloat.
From stdpp Require Import prelude gmap.
From S2P Require Import Prelude PyValue PosixPath Utf8 Sha256 Json Protocol Policy PyTime Redaction JobStore Secrets Traced TaskEngine PyText Plans PlanExecutor.
Open Scope Z_scope.

(** ** Which commands are executed *)

(** The plan as [_claim_plan] read it: active, with a recorded digest that is
    the digest of its steps, and with the metadata of an approval *)
Record claimable (plan : OperationPlan) (steps : list step) (digest approved_by approved_at : pystr) : Prop := {
  cl_active : In (pl_status plan) ACTIVE_PLAN_STATUSES;
  cl_recorded : get "approval_digest" (default [] (pl_result_json plan)) = PStr digest;
  cl_digest : operation_plan_digest (pl_steps plan) = Ok digest;
  cl_by : pl_approved_by plan = Some approved_by /\ approved_by <> [];
  cl_at : exists t m, pl_approved_at plan = Some t /\ astimezone_utc (assume_utc t) = Ok m /\ approved_at = stamp m;
  cl_steps : exists l, pl_steps plan = PList l /\ mapM_result dict_of l = Ok steps;
}.

(** The call of the agent that a step stands for *)
Definition approved_call (plan_id approved_by approved_at : pystr) (s : step) : option (pydict * option pydict) :=
  if truthy (step_get "executable" s) && is_shell s then
    match shell_parameters s with
    | Ok (step_id, parameters) =>
        Some (parameters, Some [(str "plan_id", PStr plan_id); (str "step_id", PStr step_id);
                                (str "approved_by", PStr approved_by); (str "approved_at", PStr approved_at)])
    | Raise _ => None
    end
  else None.

(** The shell commands that a run sent to the agent *)
Definition shell_calls (l : list event) : list (pydict * option pydict) :=
  omap (fun e => match e with
                 | ECall action parameters approval _ => if str_eqb action SHELL then Some (parameters, approval) else None
                 | _ => None
                 end) l.

(** Events that start nothing on the host *)
Definition quiet (e : event) : Prop :=
  match e with
  | ECall action _ _ _ => action <> SHELL
  | EVerified _ | EClaimed _ => False
  | _ => True
  end.

(** What one step adds to the record: at most one command, its own *)
Definition step_record (plan_id approved_by approved_at : pystr) (s : step) (l : list event) : Prop :=
  Forall quiet l \/
  exists p approval answer a k, approved_call plan_id approved_by approved_at s = Some (p, approval) /\
    l = a ++ ECall SHELL p approval answer :: k /\ Forall quiet a /\ Forall quiet k.

(** What the steps add: before each of them the digest of the stored steps was
    compared with the approved one. *)
Inductive steps_record (plan_id digest approved_by approved_at : pystr) : list step -> list event -> Prop :=
  | record_end steps q : Forall quiet q -> steps_record plan_id digest approved_by approved_at steps q
  | record_step s rest q stored body k :
      Forall quiet q -> operation_plan_digest stored = Ok digest ->
      step_record plan_id approved_by approved_at s body ->
      steps_record plan_id digest approved_by approved_at rest k ->
      steps_record plan_id digest approved_by approved_at (s :: rest) (q ++ EVerified stored :: body ++ k).

Lemma shell_calls_app l k : shell_calls (l ++ k) = shell_calls l ++ shell_calls k.
Proof. apply omap_app. Qed.

Lemma shell_calls_quiet l : Forall quiet l -> shell_calls l = [].
Proof.
  induction 1 as [|e l He _ IH]; [done|]. unfold shell_calls in *. cbn. rewrite IH.
  destruct e; try done. cbn in He. by apply str_eqb_neq in He as ->.
Qed.

Lemma steps_record_calls plan_id digest by_ at_ steps l : steps_record plan_id digest by_ at_ steps l ->
  sublist (shell_calls l) (omap (approved_call plan_id by_ at_) steps).
Proof.
  induction 1 as [steps q Hq|s rest q stored body k Hq _ Hb _ IH].
  { rewrite shell_calls_quiet by done. apply sublist_nil_l. }
  rewrite shell_calls_app, (shell_calls_quiet q) by done. cbn [app].
  change (shell_calls (EVerified stored :: body ++ k)) with (shell_calls (body ++ k)). rewrite shell_calls_app.
  destruct Hb as [Hb|(p & ap & ans & a & c & Hc & -> & Ha & Hk)].
  - rewrite shell_calls_quiet by done. cbn. destruct (approved_call _ _ _ s); [by apply sublist_cons|done].
  - rewrite shell_calls_app, (shell_calls_quiet a) by done. cbn [app omap list_omap]. rewrite Hc.
    change (shell_calls (ECall SHELL p ap ans :: c)) with ((p, ap) :: shell_calls c).
    rewrite (shell_calls_quiet c) by done. by apply sublist_skip.
Qed.

Definition any_execution : execution -> execution -> Prop := fun _ _ => True.
#[export] Instance any_execution_preorder : PreOrder any_execution.
Proof. by split. Qed.

(** Records that hold at least what every bookkeeping program adds: messages
    and saved results *)
Class Harmless (G : list event -> Prop) := {
  harmless_set :: TraceSet G;
  harmless_message t : G [EMessage t];
  harmless_saved st l : G [ESaved st l];
}.
#[export] Instance quiet_harmless : Harmless (Forall quiet).
Proof. split; [apply _|by repeat constructor..]. Qed.

(** [calm] takes a program apart and closes the goals that the lemmas about its
    parts (database [calm]) cover. *)
Create HintDb calm discriminated.
#[export] Hint Resolve emits_ret emits_raise emits_lift emits_get emits_ask emits_ask_result : calm.
#[export] Hint Extern 1 (TraceSet _) => typeclasses eauto : calm.
#[export] Hint Extern 1 (Harmless _) => typeclasses eauto : calm.
#[export] Hint Extern 1 (PreOrder _) => typeclasses eauto : calm.
#[export] Hint Extern 1 (emits any_execution _ (update _)) => (apply emits_update; done) : calm.
#[export] Hint Extern 1 (emits any_execution _ (log _)) =>
  (apply emits_log; first [apply harmless_message|apply harmless_saved|repeat constructor; done]) : calm.
Ltac calm := repeat first
  [ solve [eauto with calm]
  | apply emits_bind; [|intros ?]
  | apply emits_attempt
  | case_match ].

Section Bookkeeping.
Context {E : Type} `{Backend E} `{CaseFolding} `{UnicodeData}.
Context (task_id : pystr).
Context {G : list event -> Prop} `{Harmless G}.
Notation adds m := (emits any_execution G m) (only parsing).

Lemma view_calm : adds (view (E := E)).
Proof. unfold view, set_tables. calm. Qed.
Lemma commit_calm f : adds (commit (E := E) f).
Proof. unfold commit, set_tables. pose proof view_calm. calm. Qed.
Hint Resolve view_calm commit_calm : calm.
Lemma context_check_calm : adds (context_check (E := E) task_id).
Proof. unfold context_check. calm. Qed.
Lemma context_report_calm p m : adds (context_report (E := E) task_id p m).
Proof. unfold context_report, set_tables. calm. Qed.
Hint Resolve context_check_calm context_report_calm : calm.
Lemma publish_calm t : adds (publish (E := E) task_id t).
Proof. unfold publish. calm. Qed.
Lemma save_calm id status l : adds (save_plan_result (E := E) id status l).
Proof. unfold save_plan_result. calm. Qed.
Lemma audit_calm id s actor action outcome summary i j a c :
  adds (audit_shell (E := E) id s actor action outcome summary i j a c).
Proof. unfold audit_shell. calm. Qed.
Hint Resolve publish_calm save_calm audit_calm : calm.
Lemma append_calm c n : adds (append_output (E := E) task_id c n).
Proof. unfold append_output, add_part. calm. Qed.
Lemma collected_calm : adds (collected (E := E)).
Proof. unfold collected. calm. Qed.
Hint Resolve append_calm collected_calm : calm.
Lemma consume_calm secrets s o n r : adds (consume_output (E := E) task_id secrets s o n r).
Proof. unfold consume_output, add_part. calm. Qed.
Lemma poll_failed_calm t i j : adds (poll_failed (E := E) t i j).
Proof. unfold poll_failed, fail_task, audit_task. calm. Qed.
Lemma conclude_calm t i j s : adds (conclude (E := E) t i j s).
Proof. unfold conclude, fail_task, audit_task. calm. Qed.
End Bookkeeping.
#[export] Hint Resolve view_calm commit_calm context_check_calm context_report_calm publish_calm save_calm audit_calm
  append_calm collected_calm consume_calm poll_failed_calm conclude_calm : calm.

Section Calls.
Context {E : Type} `{Backend E} `{CaseFolding} `{UnicodeData}.
Context (fuel : nat) (task_id : pystr) (has_agent : bool) (decrypt : option (pystr -> result pystr)).
Notation still m := (emits any_execution (Forall quiet) m) (only parsing).

Lemma call_job_calm action j p : action <> SHELL -> still (call_job (E := E) action j p).
Proof. intros Ha. unfold call_job, call_agent. calm. Qed.
Lemma structured_calm s : still (execute_structured (E := E) s).
Proof. unfold execute_structured, set_tables. calm. Qed.
Hint Resolve call_job_calm structured_calm : calm.
Lemma stop_calm t i j n r : still (stop_shell (E := E) task_id t i j n r).
Proof. unfold stop_shell, fail_task, audit_task. calm. Qed.
Hint Resolve stop_calm : calm.
Lemma poll_calm k t i j : forall s o n r, still (poll (E := E) task_id k t i j s o n r).
Proof.
  induction k as [|k IH]; intros s o n r; cbn [poll]; (destruct (is_terminal_job s); [calm|]); [calm|].
  apply emits_bind; [calm|]. intros [[]|e]; [|calm]. apply emits_bind; [calm|].
  intros [[s' [[o' n'] r']]|e]; [apply IH|calm].
Qed.
Hint Resolve poll_calm : calm.

(** A shell step sends at most one command, its own. *)
Definition shell_record (t : shell_task) (l : list event) : Prop :=
  Forall quiet l \/ exists step_id p answer a k, shell_parameters (sh_step t) = Ok (step_id, p) /\
    l = a ++ ECall SHELL p (Some (approval_of t step_id)) answer :: k /\ Forall quiet a /\ Forall quiet k.

Lemma still_shell {A} t (m : tprogram execution event E A) : still m -> emits any_execution (shell_record t) m.
Proof. apply emits_weaken; [done|]. by left. Qed.

Lemma execute_shell_record t : emits any_execution (shell_record t) (execute_shell (E := E) fuel task_id has_agent t).
Proof.
  unfold execute_shell. destruct has_agent; cbn [negb]; [|apply still_shell; unfold fail_task, audit_task; calm].
  destruct (shell_parameters (sh_step t)) as [[step_id p]|e] eqn:Hp; [|apply still_shell; unfold fail_task, audit_task; calm].
  intros w. unfold call_agent. apply wp_bind, wp_attempt, wp_bind, wp_ask. intros answer e _.
  apply wp_bind. unfold wp at 1, log. cbn [fst snd trace state env].
  set (w1 := mkWorld _ _ _).
  assert (rest : forall m : tprogram execution event E pydict, still m ->
    wp m (fun _ w' => any_execution (state w) (state w') /\ exists l, trace w' = trace w ++ l /\ shell_record t l) w1).
  { intros m Hm. eapply wp_mono; [|apply Hm]. cbn. intros r w' (_ & l & Ht & Hl). split; [done|].
    exists (ECall SHELL p (Some (approval_of t step_id)) answer :: l). rewrite Ht. subst w1. cbn [trace].
    rewrite <- app_assoc. split; [done|]. right. exists step_id, p, answer, [], l. by repeat split. }
  destruct answer as [v|x]; [apply wp_bind; unfold wp at 1, lift; cbn [fst snd]; destruct (validate_job_snapshot v)|].
  all: unfold wp at 1, lift; cbn [fst snd is_Exception]; apply rest; unfold fail_task, audit_task, clear_parts; calm.
Qed.

Section Steps.
Context (plan_id digest approved_by approved_at : pystr) (secrets : list pystr) (total : nat).

Lemma execute_step_record s index results : truthy (step_get "executable" s) = true ->
  emits any_execution (step_record plan_id approved_by approved_at s)
    (execute_step (E := E) fuel task_id has_agent plan_id approved_by approved_at secrets s index results).
Proof.
  intros Hx. unfold execute_step. destruct (is_shell s) eqn:Hs.
  2:{ apply emits_weaken with (R := any_execution) (G := Forall quiet); [done|by left|]. calm. }
  intros w. apply wp_bind, wp_attempt. eapply wp_mono; [|apply execute_shell_record]. cbn beta.
  intros r w1 (_ & l & Ht & Hl).
  assert (Hrec : step_record plan_id approved_by approved_at s l).
  { destruct Hl as [Hl|(i & p & answer & a & k & Hp & -> & Ha & Hk)]; [by left|right].
    eexists p, _, answer, a, k. split; [|done]. unfold approved_call. rewrite Hx, Hs. cbn [andb].
    cbn [sh_step] in Hp. by rewrite Hp. }
  destruct r as [d|e]; cbn [is_Exception]; (split; [done|exists l; done]).
Qed.

Lemma verify_record w :
  wp (verify_approval_digest (E := E) plan_id digest)
    (fun r w' => exists q, Forall quiet q /\
       match r with
       | Ok _ => exists stored, trace w' = trace w ++ q ++ [EVerified stored] /\ operation_plan_digest stored = Ok digest
       | Raise _ => trace w' = trace w ++ q
       end) w.
Proof.
  unfold verify_approval_digest. apply wp_emits_step with (R := any_execution) (G := Forall quiet); [calm| |eauto].
  intros d w1 q Ht Hq _.
  assert (rest : forall m : tprogram execution event E unit, still m -> (forall w r w', m w = (r, w') -> exists e, r = Raise e) ->
    wp m (fun r w' => exists q, Forall quiet q /\
       match r with
       | Ok _ => exists stored, trace w' = trace w ++ q ++ [EVerified stored] /\ operation_plan_digest stored = Ok digest
       | Raise _ => trace w' = trace w ++ q
       end) w1).
  { intros m Hm Hr. specialize (Hm w1). unfold wp in *. destruct (m w1) as [r w2] eqn:Em. apply Hr in Em as [e ->].
    destruct Hm as (_ & l & Hl & Hk). cbn in *. exists (q ++ l). split; [by apply Forall_app|]. by rewrite Hl, Ht, app_assoc. }
  assert (raises_always : forall (m : tprogram execution event E unit) e w r w', (m;; raise (A := unit) e) w = (r, w') ->
    exists x, r = Raise x).
  { intros m e w0 r w' Hm. unfold mbind, program_bind in Hm. destruct (m w0) as [[u|x] w2]; injection Hm as <- <-; eauto. }
  destruct (tb_plans d !! plan_id) as [plan|]; [|apply rest; [calm|intros ? ? ? [= <- <-]; eauto]].
  apply wp_bind, wp_lift. destruct (operation_plan_digest (pl_steps plan)) as [current|e] eqn:Hd; [|by exists q].
  destruct (str_eqb_spec current digest) as [->|_]; [|apply rest; [calm|apply raises_always]].
  exists q. split; [done|]. exists (pl_steps plan). cbn. by rewrite Ht, app_assoc.
Qed.

Lemma steps_record_quiet steps q l : Forall quiet q ->
  steps_record plan_id digest approved_by approved_at steps l ->
  steps_record plan_id digest approved_by approved_at steps (q ++ l).
Proof.
  intros Hq Hl. destruct Hl; [constructor; by apply Forall_app|]. rewrite app_assoc. constructor; [by apply Forall_app|done..].
Qed.

Lemma steps_record_then steps q l : Forall quiet q ->
  steps_record plan_id digest approved_by approved_at steps l ->
  steps_record plan_id digest approved_by approved_at steps (l ++ q).
Proof.
  intros Hq Hl. induction Hl; [constructor; by apply Forall_app|].
  rewrite <- app_assoc. cbn [app]. rewrite <- app_assoc. by constructor.
Qed.

Lemma still_after {A B} steps (m : tprogram execution event E A) (f : A -> tprogram execution event E B) :
  emits any_execution (steps_record plan_id digest approved_by approved_at steps) m -> (forall a, still (f a)) ->
  emits any_execution (steps_record plan_id digest approved_by approved_at steps) (m ≫= f).
Proof.
  intros Hm Hf w. eapply wp_emits_step; [exact Hm| |].
  - intros a w1 l Ht Hl _. eapply wp_mono; [|apply Hf]. cbn. intros r w' (_ & q & Hk & Hq). split; [done|].
    exists (l ++ q). rewrite Hk, Ht, app_assoc. split; [done|by apply steps_record_then].
  - intros e w1 l Ht Hl. split; [done|]. by exists l.
Qed.

Lemma still_before {A B} steps (m : tprogram execution event E A) (f : A -> tprogram execution event E B) : still m ->
  (forall a, emits any_execution (steps_record plan_id digest approved_by approved_at steps) (f a)) ->
  emits any_execution (steps_record plan_id digest approved_by approved_at steps) (m ≫= f).
Proof.
  intros Hm Hf w. apply wp_emits_step with (R := any_execution) (G := Forall quiet); [done| |].
  - intros a w1 q Ht Hq _. eapply wp_mono; [|apply Hf]. cbn. intros r w' (_ & l & Hl & Hr). split; [done|].
    exists (q ++ l). rewrite Hl, Ht, app_assoc. split; [done|by apply steps_record_quiet].
  - intros e w1 q Ht Hq. split; [done|]. exists q. split; [done|by constructor].
Qed.

Lemma run_steps_record steps : forall index results,
  emits any_execution (steps_record plan_id digest approved_by approved_at steps)
    (run_steps (E := E) fuel task_id has_agent plan_id digest approved_by approved_at secrets total steps index results).
Proof.
  induction steps as [|s rest IH]; intros index results; cbn [run_steps].
  { apply emits_weaken with (R := any_execution) (G := Forall quiet); [done|by constructor|]. calm. }
  intros w. apply wp_emits_step with (R := any_execution) (G := Forall quiet); [calm| |].
  2:{ intros e w' l Ht Hl. split; [done|]. exists l. split; [done|by constructor]. }
  intros [[]|e] w1 q Ht1 Hq _.
  2:{ eapply wp_mono; [|eapply (emits_bind (R := any_execution) (G := Forall quiet)); [apply save_calm|calm]].
      cbn. intros r w2 (_ & l & Ht2 & Hl). split; [done|]. exists (q ++ l). rewrite Ht2, Ht1, app_assoc.
      split; [done|]. constructor. by apply Forall_app. }
  apply wp_bind. eapply wp_mono; [|apply verify_record]. intros [[]|e] w2 (q2 & Hq2 & Hv).
  2:{ split; [done|]. exists (q ++ q2). rewrite Hv, Ht1, app_assoc. split; [done|]. constructor. by apply Forall_app. }
  destruct Hv as (stored & Ht2 & Hd).
  assert (close : forall A (m : tprogram execution event E A) body w3,
    step_record plan_id approved_by approved_at s body -> trace w3 = trace w2 ++ body ->
    emits any_execution (steps_record plan_id digest approved_by approved_at rest) m ->
    wp m (fun _ w' => any_execution (state w) (state w') /\
      exists l, trace w' = trace w ++ l /\ steps_record plan_id digest approved_by approved_at (s :: rest) l) w3).
  { intros A m body w3 Hb Ht3 Hm. eapply wp_mono; [|apply Hm]. cbn. intros r w' (_ & l & Ht & Hl). split; [done|].
    exists ((q ++ q2) ++ EVerified stored :: body ++ l). split.
    - by rewrite Ht, Ht3, Ht2, Ht1, <- !app_assoc.
    - constructor; [by apply Forall_app|done..]. }
  assert (more : forall A (m : tprogram execution event E A), still m ->
    emits any_execution (steps_record plan_id digest approved_by approved_at rest) m).
  { intros A m. apply emits_weaken; [done|]. by constructor. }
  apply wp_bind. destruct (truthy (step_get "executable" s)) eqn:Hx.
  - eapply wp_mono; [|by apply execute_step_record]. intros r w3 (_ & body & Ht3 & Hb).
    destruct r as [entry|e]; [apply (close _ _ body); [done..|]|exact (close _ (raise (A := list pydict) e) body _ Hb Ht3 (more _ _ (emits_raise e)))].
    apply still_before; [calm|]. intros _. apply still_before; [calm|]. intros _. apply IH.
  - unfold wp at 1, mret, program_ret. cbn [fst snd]. apply (close _ _ []); [left; constructor|by rewrite app_nil_r|].
    apply still_before; [calm|]. intros _. apply still_before; [calm|]. intros _. apply IH.
Qed.
End Steps.

Lemma claim_record plan_id w :
  wp (claim_plan (E := E) plan_id)
    (fun r w' => exists q, Forall quiet q /\
       match r with
       | Ok (steps, digest, approved_by, approved_at) =>
           exists plan, trace w' = trace w ++ q ++ [EClaimed plan] /\ claimable plan steps digest approved_by approved_at
       | Raise _ => trace w' = trace w ++ q
       end) w.
Proof.
  unfold claim_plan. apply wp_emits_step with (R := any_execution) (G := Forall quiet); [calm| |eauto].
  intros d w1 q Ht Hq _.
  set (Q := fun (r : result (list step * pystr * pystr * pystr)) (w' : tworld execution event E) =>
    exists q, Forall quiet q /\ match r with
       | Ok (steps, digest, approved_by, approved_at) =>
           exists plan, trace w' = trace w ++ q ++ [EClaimed plan] /\ claimable plan steps digest approved_by approved_at
       | Raise _ => trace w' = trace w ++ q
       end).
  assert (fails : forall e w2 k, trace w2 = trace w1 ++ k -> Forall quiet k -> Q (Raise e) w2).
  { intros e w2 k Hk Hkq. exists (q ++ k). split; [by apply Forall_app|]. by rewrite Hk, Ht, app_assoc. }
  assert (now : forall e, Q (Raise e) w1) by (intros e; apply (fails _ _ []); [by rewrite app_nil_r|constructor]).
  assert (gives_up : forall f e, wp (commit (E := E) f;; raise e) Q w1).
  { intros f e. apply wp_emits_step with (R := any_execution) (G := Forall quiet); [calm| |].
    - intros [] w2 k Hk Hkq _. by eapply fails.
    - intros x w2 k Hk Hkq. by eapply fails. }
  destruct (tb_plans d !! plan_id) as [plan|]; [|apply now].
  destruct (str_in (pl_status plan) ACTIVE_PLAN_STATUSES) eqn:Hs; cbn [negb]; [|apply now]. apply str_in_In in Hs.
  destruct (get "approval_digest" _) as [| | | |digest| |] eqn:Hr; try (apply wp_bind, wp_ret; apply gives_up).
  apply wp_bind, wp_bind, wp_lift. destruct (operation_plan_digest (pl_steps plan)) as [current|e] eqn:Hd; [|apply now].
  unfold wp at 1, mret, program_ret. cbn [fst snd]. destruct (str_eqb_spec current digest) as [->|_]; [|apply gives_up].
  destruct (pl_approved_by plan) as [[|c by_]|] eqn:Hby; [apply gives_up| |apply gives_up].
  destruct (pl_approved_at plan) as [at_|] eqn:Hat; [|apply gives_up].
  apply wp_bind, wp_lift. destruct (mapM_result dict_of _) as [steps|e] eqn:Hm; [|apply now].
  apply wp_emits_step with (R := any_execution) (G := Forall quiet); [calm| |intros e w2 k Hk Hkq; by eapply fails].
  intros [] w2 k Hk Hkq _. apply wp_bind, wp_lift. destruct (astimezone_utc _) as [m|e] eqn:Hz; [|by eapply fails].
  apply wp_bind. unfold wp at 1. cbn [log fst snd]. unfold wp, mret, program_ret. cbn [fst snd].
  exists (q ++ k). split; [by apply Forall_app|]. exists plan. cbn [trace]. split.
  { by rewrite Hk, Ht, <- !app_assoc. }
  constructor; try done; [by eauto|].
  unfold operation_plan_digest, canonical_steps in Hd. destruct (pl_steps plan) as [| | | | |l|] eqn:Hl; try done.
  by exists l.
Qed.

(** C1.  Only approved commands reach the host agent.  Whatever other sessions
    commit meanwhile and whatever fails, a run of the handler sends no command,
    or it claimed a plan that was active, whose recorded approval digest is the
    SHA-256 of its steps at that moment and which names who approved it and
    when; then the commands it sends are, in order and each at most once, those
    of the executable shell steps of that plan, each with the parameters that
    the step passed the checks with and with this approval, and before each of
    them the stored steps were found to have the approved digest still. *)
Theorem only_approved_commands payload w : exists l,
  trace (snd (handler (E := E) fuel task_id has_agent decrypt payload w)) = trace w ++ l /\
  (Forall quiet l \/
   exists q plan steps digest approved_by approved_at k, let plan_id := py_str (get "plan_id" payload) in
     l = q ++ EClaimed plan :: k /\ Forall quiet q /\
     claimable plan steps digest approved_by approved_at /\
     steps_record plan_id digest approved_by approved_at steps k /\
     sublist (shell_calls l) (omap (approved_call plan_id approved_by approved_at) steps)).
Proof.
  set (Q := fun (_ : result pydict) (w' : tworld execution event E) => exists l, trace w' = trace w ++ l /\
    (Forall quiet l \/ exists q plan steps digest approved_by approved_at k, let plan_id := py_str (get "plan_id" payload) in
     l = q ++ EClaimed plan :: k /\ Forall quiet q /\ claimable plan steps digest approved_by approved_at /\
     steps_record plan_id digest approved_by approved_at steps k /\
     sublist (shell_calls l) (omap (approved_call plan_id approved_by approved_at) steps))).
  change (wp (handler (E := E) fuel task_id has_agent decrypt payload) Q w). unfold handler. apply wp_bind, wp_lift.
  destruct (dict_get (str "plan_id") payload) as [given|] eqn:Hg; cbn [of_option].
  2:{ exists []. rewrite app_nil_r. split; [done|left; constructor]. }
  assert (Hget : get "plan_id" payload = given) by (unfold get, get_or_none; by rewrite Hg).
  apply wp_bind. eapply wp_mono; [|apply claim_record]. intros r w1 (q & Hq & Hr).
  destruct r as [[[[steps digest] by_] at_]|e]; [|exists q; eauto]. destruct Hr as (plan & Ht1 & Hc).
  assert (close : forall A (m : tprogram execution event E A) (f : A -> tprogram execution event E pydict), still m ->
    (forall a, emits any_execution (steps_record (py_str given) digest by_ at_ steps) (f a)) -> wp (m ≫= f) Q w1).
  { intros A m f Hm Hf. eapply wp_mono; [|by apply still_before]. intros r w2 (_ & k & Hk & Hrec).
    exists (q ++ EClaimed plan :: k). split; [by rewrite Hk, Ht1, <- !app_assoc|]. right.
    exists q, plan, steps, digest, by_, at_, k. rewrite Hget. split_and!; try done.
    rewrite shell_calls_app, (shell_calls_quiet q) by done. exact (steps_record_calls _ _ _ _ _ _ Hrec). }
  assert (more : forall A (m : tprogram execution event E A), still m ->
    emits any_execution (steps_record (py_str given) digest by_ at_ steps) m).
  { intros A m. apply emits_weaken; [done|]. by constructor. }
  apply close; [calm|]. intros [values|x]; [|apply more; calm].
  apply still_after; [apply run_steps_record|]. intros results. calm.
Qed.
End Calls.
#[export] Hint Resolve call_job_calm structured_calm stop_calm poll_calm : calm.

(** ** The checks of the executor and those of the host agent *)

Lemma shell_parameters_Ok s step_id params : shell_parameters s = Ok (step_id, params) ->
  exists command cwd timeout,
    params = [(str "command", PStr command); (str "cwd", PStr cwd); (str "timeout", PInt timeout)] /\
    step_get "command" s = PStr command /\ step_get "cwd" s = PStr cwd /\ step_get "timeout" s = PInt timeout /\
    step_get "id" s = PStr step_id /\ APPROVAL_IDENTIFIER_PATTERN step_id = true /\
    strip command <> [] /\ zlen command <= 8000 /\ existsb (Z.eqb 0) command = false /\
    zlen cwd <= 1000 /\ startswith (str "/") cwd = true /\ startswith (str "//") cwd = false /\
    existsb (Z.eqb 0) cwd = false /\ normpath cwd = cwd /\ 1 <= timeout <= 600.
Proof.
  unfold shell_parameters. destruct (_ || _); [done|]. destruct (negb _); [done|].
  destruct (step_get "id" s) as [| | | |i| |]; try done. destruct (step_get "command" s) as [| | | |command| |]; try done.
  destruct (step_get "cwd" s) as [| | | |cwd| |]; try done. destruct (step_get "timeout" s) as [| |timeout| | | |]; try done.
  match goal with |- (if ?b then _ else _) = _ -> _ => destruct b eqn:Hb; [done|] end.
  intros [= <- <-]. rewrite !orb_false_iff, !negb_false_iff, andb_true_iff, !Z.ltb_ge, !Z.leb_le in Hb.
  destruct Hb as [[[[[[[[[[[Hi Hc] Hl] Hn] Hw] Hs] Hss] Hwn] Hnp] Ht] _] _].
  exists command, cwd, timeout. apply str_eqb_eq in Hnp. apply str_eqb_neq in Hc. split_and!; done || lia.
Qed.

(** C20.  What the executor lets through, the host agent lets through: the call for a
    checked shell step is permitted by the agent's policy exactly when the
    plan's id and the approver's name are identifiers and the approval is not
    more than five minutes ahead of the agent's clock (or of the request's time). *)
Theorem agent_accepts_approved_step now ts reference s step_id params plan_id approved_by moment :
  shell_parameters s = Ok (step_id, params) -> MIN_WALL <= moment <= MAX_WALL ->
  approval_reference_time now ts = Ok reference ->
  is_ok (validate_action now (PStr SHELL) (PDict params)
           (PDict [(str "plan_id", PStr plan_id); (str "step_id", PStr step_id);
                   (str "approved_by", PStr approved_by); (str "approved_at", PStr (stamp moment))]) ts)
  = APPROVAL_IDENTIFIER_PATTERN plan_id && APPROVAL_IDENTIFIER_PATTERN approved_by
    && (moment / MICROSECONDS * MICROSECONDS - reference <=? APPROVAL_FUTURE_SKEW_SECONDS * 1000000).
Proof.
  intros Hs Hm Href. destruct (shell_parameters_Ok _ _ _ Hs)
    as (command & cwd & timeout & -> & _ & _ & _ & _ & Hi & Hc & Hcl & Hcn & Hwl & Hws & Hwss & Hwn & Hnp & Ht).
  destruct (stamp_ok _ Hm) as [Hpat Hread].
  unfold validate_action. change (dict_get SHELL READ_ONLY_TOOLS) with (@None ToolSpec). cbn match.
  change (str_eqb SHELL SHELL) with true. cbn [negb].
  assert (Hv : validate_shell_parameters [(str "command", PStr command); (str "cwd", PStr cwd); (str "timeout", PInt timeout)]
    = Ok (command, cwd, timeout, [])).
  { unfold validate_shell_parameters.
    change (keys_superset _ _ && keys_subset _ _) with true. cbn [negb].
    change (validate_environment _) with (@Ok (list (pystr * pystr)) []). cbn [mbind result_bind].
    change (Policy.item _ "command") with (PStr command). change (Policy.item _ "cwd") with (PStr cwd).
    change (default _ _) with (PInt timeout). cbn match. unfold command_ok, cwd_ok, timeout_ok.
    rewrite (proj2 (str_eqb_neq _ _) Hc), Hcn, Hwn, Hws, Hwss, Hnp, str_eqb_refl.
    destruct (str_eqb_spec cwd []) as [->|_]; [done|].
    rewrite !(proj2 (Z.leb_le _ _)); [done|unfold MAX_TIMEOUT, MIN_TIMEOUT, MAX_COMMAND_LENGTH, MAX_CWD_LENGTH; lia..]. }
  rewrite Hv. cbn [mbind result_bind]. rewrite Href. cbn [mbind result_bind].
  unfold validate_approval. change (keys_equal _ APPROVAL_FIELDS) with true. cbn [negb].
  change (Policy.item _ "plan_id") with (PStr plan_id). change (Policy.item _ "step_id") with (PStr step_id).
  change (Policy.item _ "approved_by") with (PStr approved_by). change (Policy.item _ "approved_at") with (PStr (stamp moment)).
  unfold validate_approval_identifier. rewrite Hi.
  destruct (APPROVAL_IDENTIFIER_PATTERN plan_id); [|done]. cbn [mbind result_bind].
  destruct (APPROVAL_IDENTIFIER_PATTERN approved_by); [|done]. cbn [mbind result_bind andb].
  rewrite Hpat, Hread. cbn [negb of_option mbind result_bind].
  destruct (Z.ltb_spec (APPROVAL_FUTURE_SKEW_SECONDS * 1000000) (moment / MICROSECONDS * MICROSECONDS - reference)) as [Hlt|Hle].
  - symmetry. by apply Z.leb_gt.
  - symmetry. by apply Z.leb_le.
Qed.

(** C21.  The host agent's answers pass the executor's checks: for a job whose
    retained output is the end of what it printed, reading from any offset
    within it gives a snapshot that is accepted, and that holds everything
    printed after the place where it starts; the start is the requested offset
    (or the oldest byte kept), moved past the rest of a character. *)
Theorem agent_snapshots_accepted limit h s offset : window limit h s -> 0 <= offset <= output_offset s ->
  In (status s) JobStore.STATUSES -> 0 < zlen (id s) <= 128 ->
  exists j before text, get_output (Some (PInt offset)) s = Ok j /\ h = before ++ text /\
    validate_job_snapshot (PDict (job_as_dict j))
      = Ok (mkJobSnapshot (id s) (status s) text (output_offset s) (zlen (encode_text before)) (exit_code s)) /\
    Z.max offset (truncated_before s) <= zlen (encode_text before) <= Z.max offset (truncated_before s) + 3.
Proof.
  intros Hw Ho Hst Hid. destruct (get_output_window _ _ _ _ Hw Ho) as (before & text & Hh & Hget & Hb).
  eexists _, before, text. split; [exact Hget|]. split; [done|]. split; [|done].
  destruct Hw as [Hsc _ Hoff _ _]. rewrite Hh, forallb_app in Hsc. apply andb_true_iff in Hsc as [_ Hsc].
  set (j := snapshot_with _ _ s). unfold validate_job_snapshot.
  change (keys_equal (job_as_dict j) SNAPSHOT_FIELDS) with true. cbn [negb].
  change (get "job_id" (job_as_dict j)) with (PStr (id s)). change (get "status" (job_as_dict j)) with (PStr (status s)).
  change (get "output" (job_as_dict j)) with (PStr text). change (get "output_offset" (job_as_dict j)) with (PInt (output_offset s)).
  change (get "truncated_before" (job_as_dict j)) with (PInt (zlen (encode_text before))).
  change (get "exit_code" (job_as_dict j)) with (opt_value PInt (exit_code s)). cbn iota beta.
  destruct (str_eqb_spec (id s) []) as [E|_]; [rewrite E in Hid; change (zlen (@nil Z)) with 0 in Hid; lia|].
  rewrite (proj2 (Z.ltb_ge 128 _)) by lia. cbn [orb].
  assert (Hin : str_in (status s) JOB_STATUSES = true).
  { assert (Hall : forallb (fun x => str_in x JOB_STATUSES) JobStore.STATUSES = true) by reflexivity.
    rewrite forallb_forall in Hall. by apply Hall. }
  rewrite Hin. cbn [negb]. pose proof (zlen_nonneg (encode_text before)). rewrite (proj2 (Z.ltb_ge _ 0)) by lia.
  rewrite utf8_encode_text by done. cbn [of_option mbind result_bind].
  rewrite Hoff, Hh, encode_text_app, zlen_app, Z.eqb_refl. cbn [negb].
  by destruct (exit_code s).
Qed.

(** ** Witnesses *)

Lemma agent_accepts_approved_step_witness :
  is_ok (validate_action 0 (PStr SHELL)
           (PDict [(str "command", PStr (str "df -h")); (str "cwd", PStr (str "/")); (str "timeout", PInt 60)])
           (PDict [(str "plan_id", PStr (str "p-1")); (str "step_id", PStr (str "step-1"));
                   (str "approved_by", PStr (str "admin")); (str "approved_at", PStr (stamp 1719835200000000))])
           (PInt 1719835300)) = true.
Proof.
  pose proof (agent_accepts_approved_step 0 (PInt 1719835300) 1719835300000000 (mkStep demo_step false) (str "step-1")
    [(str "command", PStr (str "df -h")); (str "cwd", PStr (str "/")); (str "timeout", PInt 60)]
    (str "p-1") (str "admin") 1719835200000000) as Hw.
  rewrite Hw; [reflexivity|reflexivity|unfold MIN_WALL, MAX_WALL, MAX_DATETIME_SECONDS, MICROSECONDS; lia|reflexivity].
Defined.

Lemma agent_snapshots_accepted_witness :
  let s := set_output (str "hi") 2 0 (new_job (str "j-1")) in
  exists j before text, get_output (Some (PInt 0)) s = Ok j /\ str "hi" = before ++ text /\
    validate_job_snapshot (PDict (job_as_dict j))
      = Ok (mkJobSnapshot (str "j-1") (str "queued") text 2 (zlen (encode_text before)) None).
Proof.
  destruct (agent_snapshots_accepted 100 (str "hi") (set_output (str "hi") 2 0 (new_job (str "j-1"))) 0)
    as (j & before & text & Hj & Hh & Hv & _); [|done|by left|done|by exists j, before, text].
  constructor; try done; [by exists [], (str "hi")|by left].
Defined.
