(* ===== verification/PlanOutput.v ===== *)
(** * What a shell step publishes

    The output that the executor collects, publishes and stores for a shell
    step (PlanExecutor: consume_output, append_output) is the redaction of the
    whole output that the host agent reported, cut at the limit. *)
From Stdlib Require Import ZArith Lia Bool String SpecFloat.
From stdpp Require Import prelude gmap.
From S2P Require Import Prelude PyValue Utf8 Policy Redaction JobStore Secrets Traced TaskEngine PyText Plans PlanExecutor PlanSafety.
Open Scope Z_scope.

(** The snapshots of a job that a record shows, in order *)
Definition reported (l : list event) : list snapshot :=
  omap (fun e => match e with
                 | ECall action _ _ (Ok v) =>
                     if str_eqb action (str "job.cancel") then None
                     else match validate_job_snapshot v with Ok s => Some s | Raise _ => None end
                 | _ => None
                 end) l.

(** Each snapshot goes on where the one before ended: nothing was dropped. *)
Fixpoint contiguous (offset : Z) (l : list snapshot) : bool :=
  match l with
  | [] => true
  | s :: rest => (sn_truncated_before s =? offset) && contiguous (sn_output_offset s) rest
  end.

Definition chunks (l : list snapshot) : list bytes := map (fun s => encode_text (sn_output s)) l.

Definition silent (e : event) : Prop := match e with ECall _ _ _ _ => False | _ => True end.
#[export] Instance silent_harmless : Harmless (Forall silent).
Proof. split; [apply _|by repeat constructor..]. Qed.

Lemma reported_silent l : Forall silent l -> reported l = [].
Proof. induction 1 as [|e l He _ IH]; [done|]. unfold reported in *. cbn. rewrite IH. by destruct e. Qed.
Lemma reported_app l k : reported (l ++ k) = reported l ++ reported k.
Proof. apply omap_app. Qed.

(** ** The redactor, chunk by chunk *)

Fixpoint feed_all (l : list bytes) (r : redactor) : result bytes * redactor :=
  match l with
  | [] => (Ok [], r)
  | c :: rest =>
      let '(out, r) := feed c r in
      let '(more, r) := feed_all rest r in
      (a ← out; b ← more; Ok (a ++ b), r)
  end.

Lemma feed_all_snoc l c r : forall out r1, feed_all l r = (Ok out, r1) ->
  feed_all (l ++ [c]) r = (let '(o, r2) := feed c r1 in (b ← o; Ok (out ++ b), r2)).
Proof.
  revert r. induction l as [|x l IH]; intros r out r1; cbn [feed_all app].
  - intros [= <- <-]. destruct (feed c r) as [[b|e] r2]; cbn; by rewrite ?app_nil_r.
  - destruct (feed x r) as [o r2]. destruct (feed_all l r2) as [m r3] eqn:El.
    destruct o as [a|e]; [|done]. destruct m as [b|e]; [|done]. cbn [mbind result_bind]. intros [= <- <-].
    rewrite (IH _ _ _ El). destruct (feed c r3) as [[d|e] r4]; cbn [mbind result_bind]; [by rewrite app_assoc|done].
Qed.

Lemma redact_chunks_feed_all l r : redact_chunks l r =
  let '(out, r1) := feed_all l r in a ← out; b ← fst (Redaction.finish r1); Ok (a ++ b).
Proof.
  revert r. induction l as [|c l IH]; intros r; cbn [redact_chunks feed_all].
  - cbn [mbind result_bind]. by destruct (fst (Redaction.finish r)).
  - destruct (feed c r) as [o r1]. rewrite IH. destruct (feed_all l r1) as [m r2].
    destruct o as [a|e]; [|done]. destruct m as [b|e]; [|done]. cbn [mbind result_bind].
    destruct (fst (Redaction.finish r2)); [|done]. cbn. by rewrite app_assoc.
Qed.

Lemma feed_text chunk r : redactor_ok r -> Redaction.finished r = false -> exists text r',
  feed chunk r = (Ok (encode_text text), r') /\ forallb is_scalar text = true /\ redactor_ok r' /\
  Redaction.finished r' = false.
Proof. intros Hr Hf. apply (feed_ok chunk r Hr Hf). Qed.

Lemma decoded_text text : forallb is_scalar text = true -> decoded (Ok (encode_text text)) = Ok text.
Proof. intros Ht. unfold decoded. cbn [mbind result_bind]. by rewrite decode_encode_text. Qed.

(** ** What has been collected *)

Definition LIMIT : nat := Z.to_nat MAX_STEP_OUTPUT_CHARS.

(** The parts are the beginning of the text so far, and the count is their length. *)
Definition collects (text : pystr) (parts : list pystr) (n : Z) : Prop :=
  concat parts = take LIMIT text /\ n = zlen (concat parts).

Lemma collects_more text chunk parts n : collects text parts n ->
  collects (text ++ chunk) (if str_eqb chunk [] || (MAX_STEP_OUTPUT_CHARS <=? n) then parts
                            else parts ++ [take (Z.to_nat (MAX_STEP_OUTPUT_CHARS - n)) chunk])
    (if str_eqb chunk [] || (MAX_STEP_OUTPUT_CHARS <=? n) then n
     else n + zlen (take (Z.to_nat (MAX_STEP_OUTPUT_CHARS - n)) chunk)).
Proof.
  intros [Hc Hn]. destruct (str_eqb_spec chunk []) as [->|_]; cbn [orb]; [by rewrite app_nil_r|].
  assert (Hlen : n = Z.min MAX_STEP_OUTPUT_CHARS (zlen text)).
  { rewrite Hn, Hc. unfold zlen, LIMIT. rewrite length_take. unfold MAX_STEP_OUTPUT_CHARS. lia. }
  destruct (Z.leb_spec MAX_STEP_OUTPUT_CHARS n) as [Hle|Hlt].
  - split; [|done]. rewrite Hc, take_app_le; [done|]. unfold LIMIT, zlen in *. lia.
  - assert (Ht : take LIMIT text = text) by (apply take_ge; unfold LIMIT, zlen in *; lia).
    assert (Ha : concat (parts ++ [take (Z.to_nat (MAX_STEP_OUTPUT_CHARS - n)) chunk])
      = concat parts ++ take (Z.to_nat (MAX_STEP_OUTPUT_CHARS - n)) chunk).
    { rewrite concat_app. cbn [concat]. by rewrite app_nil_r. }
    split; rewrite Ha; [|by rewrite zlen_app, Hn].
    rewrite Hc, Ht, take_app_ge by (unfold LIMIT, zlen in *; lia). do 2 f_equal.
    unfold LIMIT, zlen in *. lia.
Qed.

Definition same_parts (s s' : execution) : Prop := ex_parts s = ex_parts s'.
#[export] Instance same_parts_preorder : PreOrder same_parts.
Proof. split; [done|]. intros a b c Hab Hbc. unfold same_parts in *. by rewrite Hab. Qed.

Section Output.
Context {E : Type} `{Backend E} `{CaseFolding} `{UnicodeData}.
Context (fuel : nat) (task_id : pystr) (has_agent : bool).

Lemma set_tables_parts d : emits same_parts (Forall silent) (set_tables (E := E) d).
Proof. by apply emits_update. Qed.
Hint Resolve set_tables_parts : emits.
Lemma view_parts : emits same_parts (Forall silent) (view (E := E)).
Proof. unfold view. eauto 10 with emits. Qed.
Hint Resolve view_parts : emits.
Lemma publish_parts t : emits same_parts (Forall silent) (publish (E := E) task_id t).
Proof.
  unfold publish, context_report. apply emits_bind; [eauto 10 with emits|]. intros _. apply emits_log. by constructor.
Qed.

Lemma context_check_parts : emits same_parts (Forall silent) (context_check (E := E) task_id).
Proof. unfold context_check. eauto 10 with emits. Qed.

(** What a program leaves collected, and the silence of its record *)
Definition leaves {A} (Q : A -> list pystr -> Prop) (m : tprogram execution event E A) (w : tworld execution event E) : Prop :=
  wp m (fun r w' => (forall a, r = Ok a -> Q a (ex_parts (state w'))) /\
    exists l, trace w' = trace w ++ l /\ Forall silent l) w.

Lemma leaves_bind {A B} (P : A -> list pystr -> Prop) (Q : B -> list pystr -> Prop)
    (m : tprogram execution event E A) (f : A -> tprogram execution event E B) w :
  leaves P m w -> (forall a w', P a (ex_parts (state w')) -> leaves Q (f a) w') -> leaves Q (m ≫= f) w.
Proof.
  unfold leaves. intros Hm Hf. apply wp_bind. eapply wp_mono; [|exact Hm]. intros [a|e] w' (HP & l & Ht & Hl).
  - eapply wp_mono; [|apply Hf, HP; done]. intros r w2 (HQ & k & Hk & Hks). split; [done|].
    exists (l ++ k). rewrite Hk, Ht, app_assoc. split; [done|]. by apply Forall_app.
  - split; [done|]. by exists l.
Qed.

Lemma leaves_lift {A} (Q : A -> list pystr -> Prop) (r : result A) w :
  (forall a, r = Ok a -> Q a (ex_parts (state w))) -> leaves Q (lift r) w.
Proof. intros HQ. split; [done|]. exists []. by rewrite app_nil_r. Qed.
Lemma leaves_ret {A} (Q : A -> list pystr -> Prop) a w : Q a (ex_parts (state w)) -> leaves Q (mret a) w.
Proof. intros HQ. split; [by intros ? [= <-]|]. exists []. by rewrite app_nil_r. Qed.
Lemma leaves_raise {A} (Q : A -> list pystr -> Prop) e w : leaves Q (raise e) w.
Proof. split; [done|]. exists []. by rewrite app_nil_r. Qed.

Lemma append_leaves text c n w : collects text (ex_parts (state w)) n ->
  leaves (fun n' parts => collects (text ++ c) parts n') (append_output task_id c n) w.
Proof.
  intros Hc. pose proof (collects_more text c _ _ Hc) as Hmore. unfold append_output.
  destruct (_ || _); [by apply leaves_ret|].
  set (bounded := take _ c) in *.
  eapply (leaves_bind (fun _ parts => parts = ex_parts (state w) ++ [bounded])).
  { split; [done|]. exists []. by rewrite app_nil_r. }
  intros _ w1 Hw1. eapply (leaves_bind (fun _ parts => parts = ex_parts (state w) ++ [bounded])).
  - destruct (publish_parts bounded w1) as (Hp & l & Ht & Hl). split; [|by exists l].
    intros _ _. by rewrite <- Hp, Hw1.
  - intros _ w2 Hw2. apply leaves_ret. by rewrite Hw2.
Qed.

(** How far the redaction of the reported snapshots has come: still open, or
    finished *)
Definition reached (secrets : list pystr) (shown : list snapshot) (r : redactor) (text : pystr) : Prop :=
  feed_all (chunks shown) (new_redactor secrets) = (Ok (encode_text text), r) /\ redactor_ok r /\
  Redaction.finished r = false.
Definition ended (secrets : list pystr) (shown : list snapshot) (text : pystr) : Prop :=
  redact_chunks (chunks shown) (new_redactor secrets) = Ok (encode_text text).

Lemma reached_start secrets : reached secrets [] (new_redactor secrets) [].
Proof. split; [done|]. split; [apply new_redactor_ok|done]. Qed.

Lemma consume_leaves secrets shown text s n r w :
  reached secrets shown r text -> collects text (ex_parts (state w)) n ->
  leaves (fun '(o, n', r') parts => o = sn_output_offset s /\ exists text', collects text' parts n' /\
      (if is_terminal_job s then ended secrets (shown ++ [s]) text' else reached secrets (shown ++ [s]) r' text'))
    (consume_output task_id secrets s (sn_truncated_before s) n r) w.
Proof.
  intros (Hfed & Hr & Hf) Hc. unfold consume_output.
  destruct ((sn_truncated_before s <? sn_truncated_before s) || _); [apply leaves_raise|].
  rewrite Z.ltb_irrefl. cbn [andb].
  eapply (leaves_bind (fun a parts => a = (n, r) /\ parts = ex_parts (state w))); [by apply leaves_ret|].
  intros a w1 [-> Hw1]. rewrite <- Hw1 in Hc. clear Hw1 w.
  eapply (leaves_bind (fun b parts => parts = ex_parts (state w1) /\ b = encode_text (sn_output s))).
  { apply leaves_lift. intros b Hb. split; [done|]. by apply of_option_Ok, utf8_encode_Some in Hb as [_ ->]. }
  intros b w2 [Hw2 ->]. rewrite <- Hw2 in Hc. clear Hw2 w1.
  destruct (feed_text (encode_text (sn_output s)) r Hr Hf) as (out & r' & Hfeed & Hsc & Hr' & Hf'). rewrite Hfeed.
  rewrite (decoded_text _ Hsc).
  assert (Hall : feed_all (chunks (shown ++ [s])) (new_redactor secrets) = (Ok (encode_text (text ++ out)), r')).
  { unfold chunks. rewrite map_app. cbn [map]. rewrite (feed_all_snoc _ _ _ _ _ Hfed), Hfeed. cbn [mbind result_bind].
    by rewrite encode_text_app. }
  eapply (leaves_bind (fun a parts => parts = ex_parts (state w2) /\ a = out)); [apply leaves_lift; by intros a [= <-]|].
  intros a w3 [Hw3 ->]. rewrite <- Hw3 in Hc. clear Hw3 w2.
  eapply (leaves_bind (fun '(c, r2) parts => parts = ex_parts (state w3) /\
    if is_terminal_job s then ended secrets (shown ++ [s]) (text ++ c) else c = out /\ r2 = r')).
  - destruct (is_terminal_job s); [|by apply leaves_ret].
    destruct (finish_ok r' Hr') as (rest & Hfin & Hrest). destruct (Redaction.finish r') as [last r2] eqn:Hl. cbn [fst] in Hfin.
    subst last. change (concat (map encode_char rest)) with (encode_text rest). rewrite (decoded_text _ Hrest).
    eapply (leaves_bind (fun a parts => parts = ex_parts (state w3) /\ a = rest)); [apply leaves_lift; by intros a [= <-]|].
    intros a w4 [Hw4 ->]. apply leaves_ret. split; [done|]. unfold ended. rewrite redact_chunks_feed_all, Hall, Hl.
    cbn [fst mbind result_bind]. change (concat (map encode_char rest)) with (encode_text rest).
    by rewrite app_assoc, (encode_text_app (text ++ out)).
  - intros [c r2] w4 [Hw4 Hcase]. rewrite <- Hw4 in Hc. clear Hw4 w3.
    eapply leaves_bind; [by apply append_leaves|]. cbn beta. intros n' w5 Hn'. apply leaves_ret. split; [done|].
    exists (text ++ c). split; [done|]. destruct (is_terminal_job s); [done|]. by destruct Hcase as [-> ->].
Qed.
Lemma call_shows action p ap w :
  wp (call_agent (E := E) action p ap) (fun r w' => ex_parts (state w') = ex_parts (state w) /\
    exists answer, trace w' = trace w ++ [ECall action p ap answer] /\ r = (v ← answer; validate_job_snapshot v)) w.
Proof.
  unfold call_agent. apply wp_bind, wp_ask. intros answer e _. apply wp_bind. unfold wp at 1. cbn [log fst snd].
  apply wp_bind, wp_lift. destruct answer as [v|x]; (split; [done|eexists; split; [done|reflexivity]]).
Qed.

Definition end_offset (offset : Z) (l : list snapshot) : Z := foldl (fun _ s => sn_output_offset s) offset l.

Lemma contiguous_snoc l s : forall offset, contiguous offset (l ++ [s])
  = contiguous offset l && (sn_truncated_before s =? end_offset offset l).
Proof. induction l as [|x l IH]; intros offset; cbn; [by rewrite andb_true_r|]. by rewrite IH, andb_assoc. Qed.

Section Run.
Context (t : shell_task) (w0 : tworld execution event E).

(** Where the step is: its record so far, and if nothing was dropped what it has collected *)
Definition so_far (k : list event) (s : snapshot) (offset n : Z) (r : redactor) (w : tworld execution event E) : Prop :=
  trace w = trace w0 ++ k /\
  (contiguous 0 (reported k) = true -> exists text, collects text (ex_parts (state w)) n /\ offset = end_offset 0 (reported k) /\
     if is_terminal_job s then ended (sh_secrets t) (reported k) text else reached (sh_secrets t) (reported k) r text).

(** What the step is to establish in the end *)
Definition faithful {A} (Q : A -> list pystr -> pystr -> Prop) (res : result A) (w' : tworld execution event E) : Prop :=
  exists l, trace w' = trace w0 ++ l /\ forall a, res = Ok a -> contiguous 0 (reported l) = true ->
    exists text, ended (sh_secrets t) (reported l) text /\ Q a (ex_parts (state w')) (take LIMIT text).

Lemma faithful_gives_up {A B} (Q : A -> list pystr -> pystr -> Prop) (m : tprogram execution event E B) e k w :
  emits any_execution (Forall quiet) m -> trace w = trace w0 ++ k -> wp (m;; raise e) (faithful Q) w.
Proof.
  intros Hm Ht. apply wp_emits_step with (R := any_execution) (G := Forall quiet); [done| |].
  - intros b w1 l Ht1 _ _. unfold wp, raise. cbn [fst snd]. exists (k ++ l).
    split; [by rewrite Ht1, Ht, app_assoc|]. discriminate.
  - intros x w1 l Ht1 _. exists (k ++ l). split; [by rewrite Ht1, Ht, app_assoc|]. discriminate.
Qed.

(** One reported snapshot is consumed. *)
Lemma consume_so_far before k offset n r s w :
  trace w = trace w0 ++ k -> reported k = before ++ [s] ->
  (contiguous 0 before = true -> exists text, collects text (ex_parts (state w)) n /\ offset = end_offset 0 before /\
     reached (sh_secrets t) before r text) ->
  wp (consume_output (E := E) task_id (sh_secrets t) s offset n r) (fun res w' => exists k',
    match res with Ok (offset', n', r') => so_far k' s offset' n' r' w' | Raise _ => trace w' = trace w0 ++ k' end) w.
Proof.
  intros Ht Hrep Hk.
  assert (Hend : end_offset 0 (before ++ [s]) = sn_output_offset s) by (unfold end_offset; by rewrite foldl_app).
  assert (Hext : forall l (w' : tworld execution event E), trace w' = trace w ++ l -> trace w' = trace w0 ++ k ++ l).
  { intros l w' Hl. by rewrite Hl, Ht, <- app_assoc. }
  destruct (contiguous 0 (before ++ [s])) eqn:Hc.
  - pose proof Hc as Hc2. rewrite contiguous_snoc in Hc2. apply andb_true_iff in Hc2 as [Hck Hoff].
    apply Z.eqb_eq in Hoff. destruct (Hk Hck) as (text & Hcol & Ho & Hre). rewrite Ho, <- Hoff.
    eapply wp_mono; [|by eapply consume_leaves]. intros res w' (HQ & l & Hl & Hsil).
    exists (k ++ l). destruct res as [[[o n'] r']|e]; [|by apply Hext]. split; [by apply Hext|].
    rewrite reported_app, (reported_silent l), app_nil_r, Hrep by done. intros _.
    destruct (HQ _ eq_refl) as (-> & text' & Hcol' & Hcase). exists text'. by rewrite Hend.
  - pose proof (consume_calm (E := E) (G := Forall silent) task_id (sh_secrets t) s offset n r w) as Hm.
    eapply wp_mono; [|exact Hm]. intros res w' (_ & l & Hl & Hsil). exists (k ++ l).
    destruct res as [[[o n'] r']|e]; [|by apply Hext]. split; [by apply Hext|].
    rewrite reported_app, (reported_silent l), app_nil_r, Hrep by done. by rewrite Hc.
Qed.

Lemma reported_call k action p ap v s : validate_job_snapshot v = Ok s -> action <> str "job.cancel" ->
  reported (k ++ [ECall action p ap (Ok v)]) = reported k ++ [s].
Proof.
  intros Hv Ha. rewrite reported_app. unfold reported at 2. cbn. apply str_eqb_neq in Ha as ->. by rewrite Hv.
Qed.

(** The loop ends at a terminal snapshot, of which everything was consumed. *)
Definition polled_to_end (res : result snapshot) (w' : tworld execution event E) : Prop :=
  exists k, match res with
            | Ok s => is_terminal_job s = true /\ exists offset n r, so_far k s offset n r w'
            | Raise _ => trace w' = trace w0 ++ k
            end.

Lemma polled_gives_up {B} (m : tprogram execution event E B) e k w :
  emits any_execution (Forall quiet) m -> trace w = trace w0 ++ k -> wp (m;; raise e) polled_to_end w.
Proof.
  intros Hm Ht. apply wp_emits_step with (R := any_execution) (G := Forall quiet); [done| |].
  - intros b w1 l Ht1 _ _. exists (k ++ l). unfold raise. cbn. by rewrite Ht1, Ht, app_assoc.
  - intros x w1 l Ht1 _. exists (k ++ l). by rewrite Ht1, Ht, app_assoc.
Qed.

Lemma poll_faithful step_id job_id j : forall k s offset n r w, so_far k s offset n r w ->
  wp (poll (E := E) task_id j t step_id job_id s offset n r) polled_to_end w.
Proof.
  induction j as [|j IH]; intros k s offset n r w Hso; cbn [poll]; destruct (is_terminal_job s) eqn:Hs.
  1,3: apply wp_ret; exists k; split; [done|]; by exists offset, n, r.
  { exists k. apply Hso. }
  apply wp_bind, wp_attempt. destruct (context_check_parts w) as (Hp & l & Hl & Hsil). unfold wp at 1.
  destruct (context_check task_id w) as [c w1] eqn:Ec. cbn [fst snd] in *.
  assert (Hso1 : so_far (k ++ l) s offset n r w1).
  { destruct Hso as [Ht Hk]. split; [by rewrite Hl, Ht, app_assoc|].
    by rewrite reported_app, (reported_silent l), app_nil_r, <- Hp by done. }
  assert (Hgo : wp (polled ← attempt
     (s' ← call_job (str "job.get") job_id [(str "offset", PInt offset)];
      x ← consume_output task_id (sh_secrets t) s' offset n r; mret (s', x)) is_Exception;
     match polled : (snapshot * (Z * Z * redactor)) + exn with
     | inl (s, (offset, output_chars, r)) => poll task_id j t step_id job_id s offset output_chars r
     | inr _ => poll_failed t step_id job_id;; raise shell_failed
     end) polled_to_end w1).
  { assert (lost : forall k' w', trace w' = trace w0 ++ k' ->
      wp (poll_failed (E := E) t step_id job_id;; raise (A := snapshot) shell_failed)
        polled_to_end w').
    { intros k' w' Hk'. eapply polled_gives_up; [|exact Hk']. apply poll_failed_calm. }
    apply wp_bind, wp_attempt, wp_bind. unfold call_job. apply wp_bind.
    eapply wp_mono; [|apply call_shows]. intros res w2 (Hp2 & answer & Ht2 & ->).
    assert (Hext : exists k', trace w2 = trace w0 ++ k').
    { eexists. rewrite Ht2, (proj1 Hso1), <- app_assoc. reflexivity. }
    destruct Hext as [k2 Hk2]. destruct answer as [v|x]; [|cbn [mbind result_bind is_Exception]; by eapply lost].
    cbn [mbind result_bind]. destruct (validate_job_snapshot v) as [s'|x] eqn:Hv; [|by eapply lost].
    destruct (str_eqb (sn_job_id s') job_id); [|by eapply lost].
    unfold wp at 1, mret, program_ret. cbn [fst snd]. apply wp_bind.
    destruct Hso1 as [Htr1 Hk1]. rewrite Hs in Hk1. rewrite <- Hp2 in Hk1.
    eapply wp_mono; [|eapply (consume_so_far (reported (k ++ l)) ((k ++ l) ++ [ECall _ _ _ (Ok v)])); [| |exact Hk1]].
    2:{ rewrite Ht2, Htr1. symmetry. apply app_assoc. }
    2:{ apply reported_call; [done|]. by apply str_eqb_neq. }
    intros [[[o n'] r']|x] w3 (k3 & Hk3); [by eapply IH|by eapply lost]. }
  destruct c as [[]|e]; [exact Hgo|]. destruct (is_stop e).
  - eapply polled_gives_up; [apply stop_calm|apply Hso1].
  - exists (k ++ l). apply Hso1.
Qed.

Lemma conclude_faithful k step_id job_id s n offset r w : so_far k s offset n r w -> is_terminal_job s = true ->
  wp (conclude (E := E) t step_id job_id s)
    (faithful (fun entry parts shown => get "output" entry = PStr shown)) w.
Proof.
  intros [Ht Hk] Hs. rewrite Hs in Hk. unfold conclude. apply wp_bind. unfold wp at 1.
  change (collected w) with (@Ok pystr (concat (ex_parts (state w))), w). cbn [fst snd].
  destruct (_ && _).
  - apply wp_emits_step with (R := any_execution) (G := Forall silent); [unfold audit_task; calm| |].
    + intros [] w1 l Hl Hsil _. apply wp_ret. exists (k ++ l). split; [by rewrite Hl, Ht, app_assoc|].
      rewrite reported_app, (reported_silent l), app_nil_r by done. intros a [= <-] Hc.
      destruct (Hk Hc) as (text & [Hcol _] & _ & He). exists text. split; [done|]. by rewrite <- Hcol.
    + intros e w1 l Hl Hsil. exists (k ++ l). split; [by rewrite Hl, Ht, app_assoc|discriminate].
  - apply wp_emits_step with (R := any_execution) (G := Forall silent); [unfold fail_task; calm| |].
    + intros [] w1 l Hl Hsil _. eapply (faithful_gives_up _ _ _ (k ++ l)); [unfold audit_task; calm|].
      by rewrite Hl, Ht, app_assoc.
    + intros e w1 l Hl Hsil. exists (k ++ l). split; [by rewrite Hl, Ht, app_assoc|discriminate].
Qed.
End Run.

(** C22.  What is stored for a shell step that ran to its end is the redaction of
    everything the job printed, cut at 100000 characters: if every snapshot the
    agent gave starts where the one before ended, so nothing was dropped in
    between, the "output" of the step's entry is the beginning of the text that
    the redactor makes of the outputs of these snapshots in order. *)
Theorem output_is_redacted t w entry w' :
  execute_shell (E := E) fuel task_id has_agent t w = (Ok entry, w') ->
  exists l, trace w' = trace w ++ l /\
    (contiguous 0 (reported l) = true -> exists text,
       redact_chunks (chunks (reported l)) (new_redactor (sh_secrets t)) = Ok (encode_text text) /\
       get "output" entry = PStr (take LIMIT text)).
Proof.
  intros Hrun. enough (Hf : wp (execute_shell (E := E) fuel task_id has_agent t)
    (faithful t w (fun entry _ shown => get "output" entry = PStr shown)) w).
  { unfold wp in Hf. rewrite Hrun in Hf. destruct Hf as (l & Ht & Hl). exists l. split; [done|].
    intros Hc. destruct (Hl _ eq_refl Hc) as (text & He & Ho). by exists text. }
  assert (lost : forall (m : tprogram execution event E unit) e k w1, emits any_execution (Forall quiet) m ->
    trace w1 = trace w ++ k -> wp (m;; raise e) (faithful t w (fun (entry : pydict) _ shown => get "output" entry = PStr shown)) w1).
  { intros m e k w1 Hm Ht. by eapply faithful_gives_up. }
  assert (lost2 : forall (m1 m2 : tprogram execution event E unit) e k w1, emits any_execution (Forall quiet) m1 ->
    emits any_execution (Forall quiet) m2 -> trace w1 = trace w ++ k ->
    wp (m1;; m2;; raise e) (faithful t w (fun (entry : pydict) _ shown => get "output" entry = PStr shown)) w1).
  { intros m1 m2 e k w1 Hm1 Hm2 Ht. apply wp_emits_step with (R := any_execution) (G := Forall quiet); [done| |].
    - intros [] w2 l Hl _ _. eapply (lost _ _ (k ++ l)); [done|by rewrite Hl, Ht, app_assoc].
    - intros x w2 l Hl _. exists (k ++ l). split; [by rewrite Hl, Ht, app_assoc|discriminate]. }
  assert (here : trace w = trace w ++ []) by (by rewrite app_nil_r).
  unfold execute_shell, fail_task, audit_task. destruct has_agent; cbn [negb]; [|by eapply lost2; [calm|calm|exact here]].
  destruct (shell_parameters (sh_step t)) as [[step_id p]|e]; [|by eapply lost2; [calm|calm|exact here]].
  apply wp_bind, wp_attempt. eapply wp_mono; [|apply call_shows]. intros res w1 (_ & answer & Ht1 & ->).
  destruct answer as [v|x]; cbn [mbind result_bind]; [|by eapply lost2; [calm|calm|exact Ht1]].
  destruct (validate_job_snapshot v) as [s|x] eqn:Hv; [|by eapply lost2; [calm|calm|exact Ht1]].
  apply wp_emits_step with (R := any_execution) (G := Forall silent); [calm| |].
  2:{ intros e w2 l Hl _. eexists. split; [by rewrite Hl, Ht1, <- app_assoc|discriminate]. }
  intros [] w2 l Hl Hsil _. apply wp_bind. unfold wp at 1, clear_parts, update. cbn [fst snd].
  set (w3 := mkWorld _ _ _). apply wp_bind. eapply wp_mono; [|eapply (consume_so_far t w [] ([ECall _ _ _ (Ok v)] ++ l))].
  2:{ subst w3. cbn [trace]. by rewrite Hl, Ht1, <- app_assoc. }
  2:{ rewrite reported_app, (reported_silent l), app_nil_r by done. apply (reported_call []); [exact Hv|by apply str_eqb_neq]. }
  2:{ intros _. exists []. split; [done|]. split; [done|apply reached_start]. }
  intros [[[o n] r]|x] w4 (k & Hk); [|by exists k].
  apply wp_bind. eapply wp_mono; [|by eapply poll_faithful]. intros [s'|x] w5 (k5 & Hk5).
  - destruct Hk5 as (Hs' & o' & n' & r' & Hso). by eapply conclude_faithful.
  - exists k5. split; [done|discriminate].
Qed.
End Output.

(** ** Witness *)

Definition demo_task : shell_task :=
  mkShellTask (str "p-1") 0 (mkStep demo_step false) (str "admin") (str "2024-07-01T12:00:00Z") [] [].
Definition demo_world : tworld execution event (list (result pyval)) :=
  mkWorld (mkExecution (put_tasks [new_task (str "t-1") (str "operation.execute") [] [] None 0] demo_tables) [])
    [demo_snapshot "running" "ok " 0 PNone; demo_snapshot "succeeded" "token=abc " 3 (PInt 0)] [].
Notation demo_run := (execute_shell (H := scripted) 5 (str "t-1") true demo_task demo_world).

Lemma output_is_redacted_witness : exists entry w' text, demo_run = (Ok entry, w') /\
  redact_chunks (chunks (reported (trace w'))) (new_redactor []) = Ok (encode_text text) /\
  get "output" entry = PStr (take LIMIT text).
Proof.
  pose proof (output_is_redacted (H := scripted) 5 (str "t-1") true demo_task demo_world) as Hw.
  assert (Hok : is_ok (fst demo_run) = true) by (vm_compute; reflexivity).
  assert (Hc : contiguous 0 (reported (trace (snd demo_run))) = true) by (vm_compute; reflexivity).
  destruct demo_run as [[entry|e] w'] eqn:Hr; [|discriminate Hok]. cbn [snd] in Hc.
  destruct (Hw entry w' eq_refl) as (l & Ht & Hl). cbn [trace demo_world app] in Ht. subst l.
  destruct (Hl Hc) as (text & Htext & Ho). exists entry, w', text. exact (conj eq_refl (conj Htext Ho)).
Defined.
