(* ===== verification/PlanPolling.v ===== *)
(** * The handler of a plan ends

    The only loop of the executor without a bound of its own polls the host
    agent for a job.  It goes round again only after the agent answered that
    the job is not finished yet. *)
From Stdlib Require Import ZArith Lia Bool String SpecFloat.
From stdpp Require Import prelude gmap.
From S2P Require Import Prelude PyValue Utf8 Json Policy PyTime Redaction Secrets Traced TaskEngine PyText Plans PlanExecutor PlanSafety PlanOutput.
Open Scope Z_scope.

(** An environment whose failures are exceptions of the program *)
Class SaneBackend (E : Type) `{Backend E} : Prop := {
  sane_session d e : fst (be_session d e) <> Raise still_polling;
  sane_scan d e : fst (fst (be_scan d e)) <> Raise still_polling;
  sane_action p d e : fst (fst (be_action p d e)) <> Raise still_polling;
}.

#[local] Instance exn_eq_dec : EqDecision exn.
Proof. solve_decision. Defined.

Definition settled (e : exn) : Prop := e <> still_polling.

(** The jobs that were polled and not finished *)
Definition unfinished (l : list event) : nat := length (List.filter (fun s => negb (is_terminal_job s)) (reported l)).

Lemma unfinished_app l k : unfinished (l ++ k) = (unfinished l + unfinished k)%nat.
Proof. unfold unfinished. by rewrite reported_app, List.filter_app, length_app. Qed.

(** ** Results that are no sign of an unfinished loop *)

Lemma settled_bind {A B} (m : result A) (f : A -> result B) e : (forall x, m = Raise x -> settled x) ->
  (forall a x, f a = Raise x -> settled x) -> m ≫= f = Raise e -> settled e.
Proof. intros Hm Hf [H|(a & _ & H)]%bind_Raise; eauto. Qed.

Lemma settled_option {A} (o : option A) x e : settled x -> of_option o x = Raise e -> settled e.
Proof. intros Hx. destruct o; [done|]. by intros [= <-]. Qed.

Lemma settled_digest steps e : operation_plan_digest steps = Raise e -> settled e.
Proof.
  apply settled_bind; [|done]. intros x. unfold canonical_steps. destruct steps; try (by intros [= <-]).
  unfold dumps. destruct (encodable _ _); [done|]. cbn. by intros [= <-].
Qed.

Lemma settled_dict_of v e : dict_of v = Raise e -> settled e.
Proof.
  assert (Hel : forall l acc x, dict_of_elements l acc = Raise x -> settled x).
  { induction l as [|a l IH]; intros acc x; cbn [dict_of_elements]; [done|].
    apply settled_bind; [|intros [k y] z; repeat case_match; try (by intros [= <-]); apply IH].
    intros z. unfold pair_of. repeat case_match; by intros [= <-]. }
  unfold dict_of. destruct v; try (by intros [= <-]); apply Hel.
Qed.

Lemma settled_mapM {A B} (f : A -> result B) l e : (forall a x, f a = Raise x -> settled x) ->
  mapM_result f l = Raise e -> settled e.
Proof.
  intros Hf. induction l as [|a l IH]; cbn; [done|]. destruct (f a) as [b|x] eqn:Ea; [|intros [= <-]; by eapply Hf].
  destruct (mapM_result f l); [done|]. intros [= <-]. by apply IH.
Qed.

Lemma settled_decoded b e : (forall x, b = Raise x -> settled x) -> decoded b = Raise e -> settled e.
Proof. intros Hb. apply settled_bind; [done|]. intros a x. by apply settled_option. Qed.

Lemma settled_feed chunk r e : fst (feed chunk r) = Raise e -> settled e.
Proof.
  unfold feed. destruct (Redaction.finished r); [by intros [= <-]|]. destruct (scan _ _ _). cbn. by apply settled_option.
Qed.
Lemma settled_finish r e : fst (Redaction.finish r) = Raise e -> settled e.
Proof.
  unfold Redaction.finish. destruct (Redaction.finished r); [done|]. destruct (scan _ _ _). cbn. by apply settled_option.
Qed.

Lemma settled_control id db e : check_control id db = Raise e -> settled e.
Proof. unfold check_control. repeat case_match; by intros [= <-]. Qed.

Lemma settled_write_sessions seen status : forall d e, write_sessions seen status d = Raise e -> settled e.
Proof.
  induction seen as [|[id s] seen IH]; intros d e; cbn; [done|]. apply settled_bind; [|done].
  intros x. unfold update_session. case_match; [done|by intros [= <-]].
Qed.

Lemma settled_update_plan id f d e : update_plan id f d = Raise e -> settled e.
Proof. unfold update_plan. case_match; [done|by intros [= <-]]. Qed.

Create HintDb settled discriminated.
#[export] Hint Resolve raises_ret raises_get raises_update raises_log raises_ask raises_bind raises_finally : settled.
#[export] Hint Extern 1 (raises settled (raise _)) => (apply raises_raise; discriminate) : settled.
#[export] Hint Extern 1 (raises settled (lift _)) =>
  (apply raises_lift; intros ? ?; first [by eapply settled_digest|by eapply settled_control|by eapply settled_update_plan
    |by (eapply settled_option; [|eassumption]; discriminate)]) : settled.
Ltac settle := repeat first
  [ solve [eauto with settled]
  | apply raises_bind; [|intros ?]
  | apply raises_if
  | case_match ].

Section Polling.
Context {E : Type} `{Backend E} `{!SaneBackend E} `{CaseFolding} `{UnicodeData}.
Context (fuel : nat) (task_id : pystr) (has_agent : bool) (decrypt : option (pystr -> result pystr)).
Notation ends m := (raises settled m) (only parsing).

(** An attempt that catches everything *)
Lemma attempt_all {A} (m : tprogram execution event E A) : ends (attempt m is_Exception).
Proof. eapply raises_attempt with (Q := fun _ => True); [|done]. intros w. by destruct (fst (m w)). Qed.
Hint Resolve attempt_all : settled.

Lemma view_ends : ends (view (E := E)).
Proof. unfold view, set_tables. settle. apply raises_ask_result. intros e x Hx ->. by eapply sane_session. Qed.
Hint Resolve view_ends : settled.
Lemma commit_ends f : (forall d e, f d = Raise e -> settled e) -> ends (commit (E := E) f).
Proof. intros Hf. unfold commit, set_tables. settle. apply raises_lift. intros x Hx. by eapply Hf. Qed.
Lemma context_check_ends : ends (context_check (E := E) task_id).
Proof. unfold context_check. settle. Qed.
Lemma context_report_ends p m : ends (context_report (E := E) task_id p m).
Proof. unfold context_report, set_tables. settle. Qed.
Hint Resolve commit_ends context_check_ends context_report_ends : settled.
Lemma publish_ends t : ends (publish (E := E) task_id t).
Proof. unfold publish. settle. Qed.
Lemma save_ends id status l : ends (save_plan_result (E := E) id status l).
Proof.
  unfold save_plan_result. apply raises_bind; [settle|]. intros d. destruct (tb_plans d !! id) as [plan|]; [|settle].
  apply raises_bind; [|settle]. apply commit_ends. intros d0 e.
  apply settled_bind; [apply settled_update_plan|intros ? ?; apply settled_write_sessions].
Qed.
Lemma audit_ends id s actor action outcome summary i j a c :
  ends (audit_shell (E := E) id s actor action outcome summary i j a c).
Proof. unfold audit_shell. settle; by apply commit_ends. Qed.
Hint Resolve publish_ends save_ends audit_ends : settled.
Lemma append_ends c n : ends (append_output (E := E) task_id c n).
Proof. unfold append_output, add_part. settle. Qed.
Lemma collected_ends : ends (collected (E := E)).
Proof. unfold collected. settle. Qed.
Hint Resolve append_ends collected_ends : settled.
Lemma decoded_ends b : (forall x, b = Raise x -> settled x) -> ends (lift (S := execution) (Ev := event) (E := E) (decoded b)).
Proof. intros Hb. apply raises_lift. intros e. by apply settled_decoded. Qed.
Lemma consume_ends secrets s o n r : ends (consume_output (E := E) task_id secrets s o n r).
Proof.
  unfold consume_output, add_part. apply raises_if; [settle|]. apply raises_bind.
  { apply raises_if; [|settle]. apply raises_bind; [apply decoded_ends, settled_finish|]. intros ?. settle. }
  intros [n1 r1]. apply raises_bind; [settle|]. intros encoded. destruct (feed encoded r1) as [fed r2] eqn:Ef.
  apply raises_bind; [apply decoded_ends; intros x ->; apply (settled_feed encoded r1); by rewrite Ef|]. intros chunk.
  apply raises_bind; [|intros [c r3]; settle]. apply raises_if; [|settle].
  destruct (Redaction.finish r2) as [last r3] eqn:El.
  apply raises_bind; [apply decoded_ends; intros x ->; apply (settled_finish r2); by rewrite El|]. settle.
Qed.
Lemma stop_ends t i j n r : ends (stop_shell (E := E) task_id t i j n r).
Proof.
  unfold stop_shell, fail_task, audit_task. apply raises_bind; [settle|]. intros c.
  apply raises_bind; [apply decoded_ends, settled_finish|]. intros ?. settle.
Qed.
Lemma poll_failed_ends t i j : ends (poll_failed (E := E) t i j).
Proof. unfold poll_failed, fail_task, audit_task. settle. Qed.
Lemma conclude_ends t i j s : ends (conclude (E := E) t i j s).
Proof. unfold conclude, fail_task, audit_task. settle. Qed.
Lemma raises_ask_bind {A B} (P : A -> Prop) (q : E -> A * E) (f : A -> tprogram execution event E B) :
  (forall e, P (fst (q e))) -> (forall a, P a -> ends (f a)) -> ends (ask q ≫= f).
Proof.
  intros Hq Hf w. unfold mbind, program_bind, ask. specialize (Hq (env w)). destruct (q (env w)) as [a e]. by apply Hf.
Qed.

Lemma structured_ends s : ends (execute_structured (E := E) s).
Proof.
  unfold execute_structured, set_tables. apply raises_if.
  - apply raises_bind; [settle|]. intros d. apply raises_bind; [settle|]. intros _.
    eapply raises_ask_bind with (P := fun x => fst x <> Raise still_polling); [intros e; apply sane_scan|].
    intros [r d'] Hr. apply raises_bind; [settle|]. intros _. apply raises_bind; [|settle].
    apply raises_lift. by intros e -> ->.
  - apply raises_if; [settle|]. destruct (match step_get "operation" s with PStr o => _ | _ => _ end); [|settle].
    apply raises_bind; [settle|]. intros target. apply raises_bind; [settle|]. intros d.
    destruct (tb_deployments d !! _); [|settle]. apply raises_bind; [settle|]. intros _.
    apply raises_bind; [settle|]. intros st.
    eapply raises_ask_bind with (P := fun x => fst x <> Raise still_polling); [intros e; apply sane_action|].
    intros [r d'] Hr. apply raises_bind; [settle|]. intros _. apply raises_bind; [|settle].
    apply raises_lift. by intros e -> ->.
Qed.

(** If the program runs out of the fuel of the loop, that many polls found the
    job unfinished. *)
Definition counts {A} (k : nat) (m : tprogram execution event E A) (w : tworld execution event E) : Prop :=
  wp m (fun r w' => exists l, trace w' = trace w ++ l /\ (r = Raise still_polling -> (k <= unfinished l)%nat)) w.

Lemma counts_ends {A} k (m : tprogram execution event E A) w : emits any_execution (Forall quiet) m -> ends m -> counts k m w.
Proof.
  intros Hm He. specialize (He w). pose proof (Hm w) as Hw. unfold counts, wp in *. destruct (m w) as [r w']. cbn in *.
  destruct Hw as (_ & l & Hl & _). exists l. split; [done|]. by intros ->.
Qed.

(** The same, after a part of the record is known *)
Lemma counts_after {A} k k0 (m : tprogram execution event E A) (w1 w2 : tworld execution event E) l0 : trace w2 = trace w1 ++ l0 ->
  (k <= unfinished l0 + k0)%nat -> counts k0 m w2 ->
  wp m (fun r w' => exists l, trace w' = trace w1 ++ l /\ (r = Raise still_polling -> (k <= unfinished l)%nat)) w2.
Proof.
  intros Ht Hk Hm. unfold counts in Hm. eapply wp_mono; [|exact Hm]. intros r w' (l & Hl & Hr).
  exists (l0 ++ l). split; [by rewrite Hl, Ht, app_assoc|]. intros Hx. rewrite unfinished_app. specialize (Hr Hx). lia.
Qed.

Lemma counts_bind {A B} k (m : tprogram execution event E A) (f : A -> tprogram execution event E B) w :
  emits any_execution (Forall quiet) m -> ends m -> (forall a w', counts k (f a) w') -> counts k (m ≫= f) w.
Proof.
  intros Hm He Hf. specialize (He w). pose proof (Hm w) as Hw. apply wp_bind. unfold wp in *. destruct (m w) as [[a|e] w']; cbn in *.
  - destruct Hw as (_ & l & Hl & _). eapply counts_after; [exact Hl| |apply Hf]. lia.
  - destruct Hw as (_ & l & Hl & _). exists l. split; [done|]. intros [= ->]. done.
Qed.

Lemma counts_then {A B} k (m : tprogram execution event E A) (f : A -> tprogram execution event E B) w :
  counts k m w -> (forall a w', counts k (f a) w') -> counts k (m ≫= f) w.
Proof.
  intros Hm Hf. unfold counts in Hm. apply wp_bind. eapply wp_mono; [|exact Hm]. intros [a|e] w' (l & Hl & Hr).
  - eapply counts_after; [exact Hl| |apply Hf]. lia.
  - exists l. split; [done|]. intros [= ->]. by apply Hr.
Qed.

(** [try: m except Exception as e: ...] *)
Lemma counts_attempt {A B} k (m : tprogram execution event E A) (f : A + exn -> tprogram execution event E B) w :
  counts k m w -> (forall a w', counts k (f (inl a)) w') ->
  (forall e, emits any_execution (Forall quiet) (f (inr e))) ->
  (forall e, settled e -> ends (f (inr e))) -> counts k (attempt m is_Exception ≫= f) w.
Proof.
  intros Hm Ha Hq He. unfold counts in Hm. apply wp_bind, wp_attempt. eapply wp_mono; [|exact Hm].
  intros [a|e] w' (l & Hl & Hr); cbn [is_Exception].
  - eapply counts_after; [exact Hl| |apply Ha]. lia.
  - destruct (decide (e = still_polling)) as [->|Hne].
    + eapply wp_mono; [|apply Hq]. intros r w2 (_ & l2 & Hl2 & _). exists (l ++ l2).
      split; [by rewrite Hl2, Hl, app_assoc|]. intros _. rewrite unfinished_app. specialize (Hr eq_refl). lia.
    + eapply (counts_after _ k); [exact Hl|lia|]. apply counts_ends; [apply Hq|by apply He].
Qed.

(** A check of the task's control, and what follows *)
Lemma counts_control {B} k (stop : exn -> tprogram execution event E B) (go : tprogram execution event E B) w :
  (forall e w', e <> still_polling -> counts k (stop e) w') -> (forall w', counts k go w') ->
  counts k (c ← attempt (context_check (E := E) task_id) is_stop;
            match c : unit + exn with inr e => stop e | inl _ => go end) w.
Proof.
  intros Hstop Hgo. pose proof (context_check_calm (E := E) (G := Forall quiet) task_id w) as Hw.
  pose proof (context_check_ends w) as He. apply wp_bind, wp_attempt. unfold wp in *.
  destruct (context_check task_id w) as [[[]|e] w']; cbn in *; destruct Hw as (_ & l & Hl & _).
  - eapply counts_after; [exact Hl| |apply Hgo]. lia.
  - destruct (is_stop e); [eapply counts_after; [exact Hl| |by apply Hstop]; lia|].
    exists l. split; [done|]. intros [= ->]. done.
Qed.

Lemma poll_counts t i j k : forall s o n r w, counts k (poll (E := E) task_id k t i j s o n r) w.
Proof.
  induction k as [|k IH]; intros s o n r w; cbn [poll]; destruct (is_terminal_job s).
  1,3: apply counts_ends; [calm|settle].
  { exists []. rewrite app_nil_r. split; [done|]. cbn. lia. }
  apply counts_control.
  { intros e w1 He. apply counts_ends; [apply emits_bind; [apply stop_calm|calm]|].
    apply raises_bind; [apply stop_ends|]. intros _. by apply raises_raise. }
  intros w1. apply wp_bind, wp_attempt, wp_bind. unfold call_job. apply wp_bind.
  eapply wp_mono; [|apply call_shows]. intros res w2 (_ & answer & Ht2 & ->).
  assert (lost : forall w3 l, trace w3 = trace w1 ++ l -> wp (poll_failed (E := E) t i j;; raise (A := snapshot) shell_failed)
    (fun r w' => exists l, trace w' = trace w1 ++ l /\ (r = Raise still_polling -> (S k <= unfinished l)%nat)) w3).
  { intros w3 l Hl.
    assert (Hc : forall n, counts n (poll_failed (E := E) t i j;; raise (A := snapshot) shell_failed) w3).
    { intros m. apply counts_ends; [calm|]. apply raises_bind; [apply poll_failed_ends|]. settle. }
    eapply (counts_after _ (S k)); [exact Hl|lia|apply Hc]. }
  destruct answer as [v|x]; cbn [mbind result_bind is_Exception]; [|by eapply lost].
  destruct (validate_job_snapshot v) as [s'|x] eqn:Hv; [|by eapply lost].
  destruct (str_eqb (sn_job_id s') j); [|by eapply lost].
  unfold wp at 1, mret, program_ret. cbn [fst snd]. apply wp_bind.
  pose proof (consume_calm (E := E) (G := Forall silent) task_id (sh_secrets t) s' o n r w2) as Hc.
  eapply wp_mono; [|exact Hc]. intros [[[o' n'] r']|x] w3 (_ & l & Hl & Hsil).
  - apply wp_ret. destruct (is_terminal_job s') eqn:Hs'.
    + assert (Hd : poll (E := E) task_id k t i j s' o' n' r' = mret s') by (destruct k; cbn [poll]; by rewrite Hs').
      rewrite Hd. apply wp_ret. eexists. split; [by rewrite Hl, Ht2, <- app_assoc|discriminate].
    + eapply counts_after; [by rewrite Hl, Ht2, <- app_assoc| |apply IH].
      rewrite unfinished_app. unfold unfinished at 1.
      pose proof (reported_call [] (str "job.get") [(str "job_id", PStr j); (str "offset", PInt o)] None v s' Hv) as Hrep.
      cbn [app] in Hrep. rewrite Hrep by (by apply str_eqb_neq).
      change (reported [] ++ [s']) with [s']. cbn [List.filter]. rewrite Hs'. cbn [negb length]. lia.
  - eapply lost. by rewrite Hl, Ht2, <- app_assoc.
Qed.

Lemma shell_counts t w : counts fuel (execute_shell (E := E) fuel task_id has_agent t) w.
Proof.
  unfold execute_shell, fail_task, audit_task. destruct has_agent; cbn [negb]; [|apply counts_ends; [calm|settle]].
  destruct (shell_parameters (sh_step t)) as [[i p]|e] eqn:Hp.
  2:{ apply counts_ends; [calm|]. apply raises_bind; [settle|]. intros _. apply raises_bind; [settle|]. intros _.
      apply raises_raise. intros ->. revert Hp. unfold shell_parameters. repeat case_match; discriminate. }
  apply wp_bind, wp_attempt. eapply wp_mono; [|apply call_shows]. intros res w1 (_ & answer & Ht1 & ->).
  assert (go : forall m : tprogram execution event E pydict, counts fuel m w1 ->
    wp m (fun r w' => exists l, trace w' = trace w ++ l /\ (r = Raise still_polling -> (fuel <= unfinished l)%nat)) w1).
  { intros m Hm. eapply counts_after; [exact Ht1| |exact Hm]. lia. }
  destruct answer as [v|x]; cbn [mbind result_bind is_Exception]; [|apply go, counts_ends; [calm|settle]].
  destruct (validate_job_snapshot v) as [s|x]; [|apply go, counts_ends; [calm|settle]].
  apply go, counts_bind; [calm|settle|]. intros _ w2. apply counts_bind; [unfold clear_parts; calm|unfold clear_parts; settle|].
  intros _ w3. apply counts_bind; [calm|apply consume_ends|]. intros [[o n] r] w4.
  apply counts_then; [apply poll_counts|]. intros s' w5. apply counts_ends; [calm|apply conclude_ends].
Qed.

Section Steps.
Context (plan_id digest approved_by approved_at : pystr) (secrets : list pystr) (total : nat).

Lemma verify_ends : ends (verify_approval_digest (E := E) plan_id digest).
Proof. unfold verify_approval_digest. settle; by apply commit_ends, settled_update_plan. Qed.

(** Verification adds to the record what the counting does not see. *)
Lemma verify_silent : emits any_execution (Forall silent) (verify_approval_digest (E := E) plan_id digest).
Proof. unfold verify_approval_digest. calm. Qed.

Lemma execute_step_counts s index results w :
  counts fuel (execute_step (E := E) fuel task_id has_agent plan_id approved_by approved_at secrets s index results) w.
Proof.
  unfold execute_step. apply counts_attempt.
  - destruct (is_shell s); [apply shell_counts|apply counts_ends; [calm|apply structured_ends]].
  - intros d w'. apply counts_ends; [calm|settle].
  - intros e. calm.
  - intros e He. apply raises_bind; [settle|]. intros _. by apply raises_raise.
Qed.

Lemma run_steps_counts steps : forall index results w,
  counts fuel (run_steps (E := E) fuel task_id has_agent plan_id digest approved_by approved_at secrets total steps index results) w.
Proof.
  induction steps as [|s rest IH]; intros index results w; cbn [run_steps]; [apply counts_ends; [calm|settle]|].
  apply counts_control.
  { intros e w' He. apply counts_ends; [calm|]. apply raises_bind; [settle|]. intros _. by apply raises_raise. }
  intros w1. pose proof (verify_silent w1) as Hv. pose proof (verify_ends w1) as He. apply wp_bind. unfold wp in Hv |- * at 1.
  destruct (verify_approval_digest plan_id digest w1) as [[[]|e] w2]; cbn in *; destruct Hv as (_ & l & Hl & _).
  2:{ exists l. split; [done|]. intros [= ->]. done. }
  eapply (counts_after _ fuel); [exact Hl|lia|]. apply counts_then.
  - destruct (truthy _); [apply execute_step_counts|apply counts_ends; [calm|settle]].
  - intros entry w3. apply counts_bind; [calm|settle|]. intros _ w4. apply counts_bind; [calm|settle|]. intros _ w5. apply IH.
Qed.
End Steps.

Lemma claim_ends id : ends (claim_plan (E := E) id).
Proof.
  unfold claim_plan. settle; try by apply commit_ends, settled_update_plan.
  all: apply raises_lift; intros e; try (apply settled_mapM, settled_dict_of).
  unfold astimezone_utc. case_match; [done|by intros [= <-]].
Qed.

Lemma claim_silent id : emits any_execution (Forall silent) (claim_plan (E := E) id).
Proof. unfold claim_plan. calm. Qed.

(** C23.  The handler goes on polling only while the agent answers that the job is
    not finished: given [fuel] turns of the polling loop it is still in the loop
    only if, in this very run, that many answers of the agent were valid
    snapshots of a job that is queued or running.  Everything else it does ends
    by itself. *)
Theorem handler_ends payload w w' :
  handler (E := E) fuel task_id has_agent decrypt payload w = (Raise still_polling, w') ->
  exists l, trace w' = trace w ++ l /\ (fuel <= unfinished l)%nat.
Proof.
  intros Hrun. enough (Hc : counts fuel (handler (E := E) fuel task_id has_agent decrypt payload) w).
  { unfold counts, wp in Hc. rewrite Hrun in Hc. destruct Hc as (l & Hl & Hr). exists l. split; [done|by apply Hr]. }
  unfold handler. apply counts_bind; [calm|settle|]. intros given w1.
  pose proof (claim_silent (py_str given) w1) as Hv. pose proof (claim_ends (py_str given) w1) as He.
  apply wp_bind. unfold wp in Hv |- * at 1.
  destruct (claim_plan (py_str given) w1) as [[[[[steps digest] by_] at_]|e] w2]; cbn in *; destruct Hv as (_ & l & Hl & _).
  2:{ exists l. split; [done|]. intros [= ->]. done. }
  eapply (counts_after _ fuel); [exact Hl|lia|]. apply counts_bind; [calm|settle|]. intros [values|e] w3.
  - apply counts_then; [apply run_steps_counts|]. intros results w4. apply counts_ends; [calm|settle].
  - apply counts_ends; [calm|settle].
Qed.
End Polling.

(** ** Witness *)

#[local] Instance scripted_sane : SaneBackend (H := scripted) (list (result pyval)).
Proof. by split. Qed.

Definition waiting_plan : OperationPlan :=
  mkPlan [] (PList [PDict demo_step]) (str "approved") (Some (str "admin")) (Some (utc 1719835200000000))
    (Some [(str "approval_digest", match operation_plan_digest (PList [PDict demo_step]) with Ok h => PStr h | Raise _ => PNone end)]).
Definition waiting_world : tworld execution event (list (result pyval)) :=
  mkWorld (mkExecution (mkTables {[ str "p-1" := waiting_plan ]} ∅ [] ∅
    [new_task (str "t-1") (str "operation.execute") [] [] None 0] []) [])
    [demo_snapshot "running" "" 0 PNone; demo_snapshot "running" "" 0 PNone] [].
Notation waiting_run := (handler (H := scripted) (H0 := ascii_fold) (H1 := ascii_data) 1 (str "t-1") true None
  [(str "plan_id", PStr (str "p-1"))] waiting_world).

Lemma handler_ends_witness : exists w' l, waiting_run = (Raise still_polling, w') /\ trace w' = l /\ (1 <= unfinished l)%nat.
Proof.
  pose proof (handler_ends (H := scripted) (H0 := ascii_fold) (H1 := ascii_data) 1 (str "t-1") true None
    [(str "plan_id", PStr (str "p-1"))] waiting_world) as Hw.
  assert (Hr : fst waiting_run = Raise still_polling) by (vm_compute; reflexivity).
  destruct waiting_run as [r w']. cbn [fst] in Hr. subst r. destruct (Hw w' eq_refl) as (l & Ht & Hl).
  cbn [trace waiting_world app] in Ht. exists w', l. exact (conj eq_refl (conj Ht Hl)).
Defined.
