(* ===== verification/PlanFindings.v ===== *)
(** * Interrupted and paused plans

    Runs of the whole handler (PlanExecutor: handler) on small databases, which
    show what happens to a plan whose task is interrupted and taken up again.
    The agent answers from a list and no other session interferes. *)
From Stdlib Require Import ZArith Lia Bool String.
From stdpp Require Import prelude gmap.
From S2P Require Import Prelude PyValue Sha256 Policy PyTime Secrets Traced TaskEngine PyText Plans PlanExecutor PlanSafety.
Open Scope Z_scope.

(** A plan of one shell step that was approved, in a given status and with the
    results saved so far *)
Definition one_step : pyval := PList [PDict demo_step].
Definition approved_plan (status : string) (results : list pydict) : OperationPlan :=
  mkPlan (str "Check the disk") one_step (str status) (Some (str "admin")) (Some (utc 1719835200000000))
    (Some [(str "approval_digest", match operation_plan_digest one_step with Ok h => PStr h | Raise _ => PNone end);
           (str "steps", PList (map PDict results))]).

Definition running_task (control : pydict) : TaskRecord :=
  set_result control (set_status (str "running")
    (new_task (str "t-1") (str "operation.execute") [] [(str "plan_id", PStr (str "p-1"))] None 0)).

Definition database_with (plan : OperationPlan) (control : pydict) : tables :=
  mkTables {[ str "p-1" := plan ]} {[ str "s-1" := str "approval_required" ]} [(str "s-1", Some (str "p-1"))] ∅
    [running_task control] [].

Notation run_handler d answers :=
  (handler (H := scripted) (H0 := ascii_fold) (H1 := ascii_data) 5 (str "t-1") true None
     [(str "plan_id", PStr (str "p-1"))] (mkWorld (mkExecution d []) answers [])).

Definition plan_status (d : tables) : option pystr := pl_status <$> tb_plans d !! str "p-1".

(** A run that goes well: the command is sent once, the plan is completed and
    its session active again. *)
Example completed_run :
  let '(r, w) := run_handler (database_with (approved_plan "approved" []) []) [demo_snapshot "succeeded" "ok" 0 (PInt 0)] in
  is_ok r = true /\ length (shell_calls (trace w)) = 1%nat /\
  plan_status (ex_tables (state w)) = Some (str "completed") /\
  tb_sessions (ex_tables (state w)) !! str "s-1" = Some (str "active").
Proof. vm_compute. repeat split. Qed.

(** A plan that is still "executing", with the saved result of a step that
    succeeded (what a restart of the manager leaves), is claimed again, and the
    command of that step is sent once more. *)
Example executing_plan_is_claimed_again :
  let finished := [(str "index", PInt 0); (str "status", PStr (str "succeeded")); (str "step_id", PStr (str "step-1"));
                   (str "exit_code", PInt 0)] in
  let '(r, w) := run_handler (database_with (approved_plan "executing" [finished]) [])
                   [demo_snapshot "succeeded" "ok" 0 (PInt 0)] in
  is_ok r = true /\
  shell_calls (trace w) =
    [([(str "command", PStr (str "df -h")); (str "cwd", PStr (str "/")); (str "timeout", PInt 60)],
      Some [(str "plan_id", PStr (str "p-1")); (str "step_id", PStr (str "step-1")); (str "approved_by", PStr (str "admin"));
            (str "approved_at", PStr (str "2024-07-01T12:00:00Z"))])].
Proof. vm_compute. repeat split. Qed.

(** A task that is paused before a step cannot go on: the handler fails the
    plan when it sees the request, so the engine's resumed task finds the plan
    not approved any more. *)
Theorem paused_plan_cannot_resume :
  let '(r, w) := run_handler (database_with (approved_plan "approved" []) [(str "control", PStr (str "pause"))]) [] in
  let d := ex_tables (state w) in
  r = Raise TaskPaused /\ plan_status d = Some (str "failed") /\
  match finish_outcome [str "operation.execute"] (str "t-1") (str "operation.execute") RaisedPaused 1 (tb_tasks d) ≫= resume 2 (str "t-1") with
  | Raise _ => False
  | Ok tasks => exists w2, run_handler (put_tasks tasks d) [] = (Raise not_approved, w2)
  end.
Proof. vm_compute. split; [done|]. split; [done|]. eexists. reflexivity. Qed.
