(* ===== verification/Responses.v ===== *)
(** * The Responses bridge

    [gateway/responses.py]: a Responses request becomes a chat/completions
    request ([responses_to_chat_request]) and a buffered chat response becomes
    a Responses object ([ResponsesTurnTranslator]).  [uuid.uuid4().hex] is a
    function from the number of the call to its text, and the time is an
    argument. *)
From Stdlib Require Import ZArith Lia Bool String.
From stdpp Require Import prelude.
From S2P Require Import Prelude PyValue PyFloat Json Sse PyText.
Open Scope Z_scope.
Open Scope dict_scope.

Definition RESPONSES_ENDPOINT : pystr := str "/v1/responses".
Definition CODE_INPUT_TYPES : list pystr := [str "input_text"; str "text"].
Definition CODE_IMAGE_TYPES : list pystr := [str "input_image"; str "image_url"].
Definition CODE_VIDEO_TYPES : list pystr := [str "input_video"; str "video_url"].

(** ** Reasoning effort *)

Definition TOGGLE_TEMPLATE_KEYS : list pystr := [str "enable_thinking"].
Definition QWEN_SUPPORTED_EFFORTS : list pystr := [str "low"; str "medium"; str "xhigh"].
Definition QWEN_EFFORT_ALIASES : list (pystr * pystr) :=
  ["none" :-> str "none"; "off" :-> str "none"; "false" :-> str "none"; "disabled" :-> str "none";
   "minimal" :-> str "low"; "low" :-> str "low"; "medium" :-> str "medium"; "high" :-> str "xhigh";
   "xhigh" :-> str "xhigh"; "max" :-> str "xhigh"; "ultra" :-> str "xhigh"; "ultracode" :-> str "xhigh";
   "extreme" :-> str "xhigh"].

Definition uses_thinking_toggle (template_kwargs : pyval) : bool :=
  match template_kwargs with
  | PDict d => existsb (fun k => dict_mem k d) TOGGLE_TEMPLATE_KEYS
  | _ => false
  end.

(** [s.split("__", 1)[1] if "__" in s else s] *)
Definition chat_tool_name_to_client_name (chat_name : pystr) : pystr :=
  match find_sub (str "__") chat_name with
  | Some i => drop (i + 2) chat_name
  | None => chat_name
  end.

Definition is_gateway_key (k : pystr) : bool := startswith (str "x-dgx-") k.

Definition strip_gateway_tool_extensions (tools : list pydict) : list pydict :=
  map (List.filter (fun p => negb (is_gateway_key (fst p)))) tools.

Definition reasoning_summary_part (t : pystr) : pyval := PDict ["type" :-> text "summary_text"; "text" :-> PStr t].
Definition text_part (t : pystr) : pyval := PDict ["type" :-> text "text"; "text" :-> PStr t].
Definition url_part (field : string) (url : pystr) : pyval :=
  PDict ["type" :-> text field; field :-> PDict ["url" :-> PStr url]].

(** What is known of a part that the code built: its type and its text *)
Definition part_type (part : pyval) : pyval := match part with PDict d => get "type" d | _ => PNone end.
Definition part_text (part : pyval) : pystr :=
  match part with PDict d => match get "text" d with PStr t => t | _ => [] end | _ => [] end.

Section Bridge.
Context `{UnicodeData}.

Definition resolve_reasoning (effort : pyval) (thinking_toggle : bool) : option pystr * option bool :=
  match (match effort with PStr s => Some (lower (strip s)) | _ => None end) with
  | None => (None, None)
  | Some canonical =>
      if str_in canonical [[]; str "default"] then (None, None)
      else if thinking_toggle then
        (None, Some (negb (str_in canonical [str "none"; str "off"; str "false"; str "disabled"])))
      else match dict_get canonical QWEN_EFFORT_ALIASES with
           | None => (Some canonical, None)
           | Some resolved =>
               if str_eqb resolved (str "none") then (Some (str "none"), Some false)
               else (Some (if str_in resolved QWEN_SUPPORTED_EFFORTS then resolved else str "medium"), None)
           end
  end.

(** ** Tools *)

Definition empty_parameters : pyval := PDict ["type" :-> text "object"; "properties" :-> PDict []].

Definition chat_function (name : pystr) (entry : pydict) : pyval :=
  PDict ["name" :-> PStr name;
         "description" :-> py_or (get "description" entry) (PStr []);
         "parameters" :-> py_or (get "parameters" entry) empty_parameters].

Definition namespace_tool (prefix : pystr) (entry : pyval) : option pydict :=
  match entry with
  | PDict d =>
      if negb (str_eqb (str_or_empty (get "type" d)) (str "function")) then None
      else let name := strip (str_or_empty (get "name" d)) in
           match name with
           | [] => None
           | _ => Some ["type" :-> text "function";
                        "function" :-> chat_function (prefix ++ str "__" ++ name) d;
                        "x-dgx-namespace" :-> PStr prefix; "x-dgx-name" :-> PStr name]
           end
  | _ => None
  end.

Definition flatten_namespace_tools (namespace : pydict) : list pydict :=
  let prefix := strip (str_or_empty (get "name" namespace)) in
  match prefix, get "tools" namespace with
  | _ :: _, PList nested => omap (namespace_tool prefix) nested
  | _, _ => []
  end.

Definition SERVER_TOOLS : list pystr := [str "web_search"; str "file_search"; str "computer_use_preview"].

Definition tool_to_chat (tool : pyval) : list pydict :=
  match tool with
  | PDict d =>
      let tool_type := str_or_empty (get "type" d) in
      if str_eqb tool_type (str "function") then
        let name := strip (str_or_empty (get "name" d)) in
        match name with
        | [] => []
        | _ => [["type" :-> text "function"; "function" :-> chat_function name d; "x-dgx-name" :-> PStr name]]
        end
      else if str_eqb tool_type (str "namespace") then flatten_namespace_tools d
      else if str_in tool_type SERVER_TOOLS then
        [["type" :-> text "function";
          "function" :-> PDict ["name" :-> PStr tool_type;
            "description" :-> PStr (str "Server-side '" ++ tool_type ++ str "' is unavailable on the DGX Spark gateway; no results can be returned.");
            "parameters" :-> empty_parameters];
          "x-dgx-name" :-> PStr tool_type]]
      else []
  | _ => []
  end.

Definition responses_tools_to_chat (tools : pyval) : list pydict :=
  match tools with PList l => concat (map tool_to_chat l) | _ => [] end.

(** [None] is the absence of a choice; a dictionary or list cannot be a member
    of a set of strings *)
Definition responses_tool_choice_to_chat (tool_choice : pyval) : result (option pyval) :=
  let named := match tool_choice with
               | PDict d =>
                   if str_eqb (str_or_empty (get "type" d)) (str "function") then
                     match get "name" d with
                     | PStr (c :: name) => Some (c :: name)
                     | _ => None
                     end
                   else None
               | _ => None
               end in
  match named, tool_choice with
  | Some name, _ => Ok (Some (PDict ["type" :-> text "function"; "function" :-> PDict ["name" :-> PStr name]]))
  | None, PDict _ | None, PList _ => Raise (TypeError (str "unhashable type"))
  | None, PStr s => Ok (if str_in s [str "auto"; str "none"; str "required"] then Some (PStr s) else None)
  | None, _ => Ok None
  end.

(** ** Input *)

(** The URL of a media part: a string, or an object that holds it *)
Definition media_url (url : pyval) : option pystr :=
  match (match url with PDict d => get "url" d | v => v end) with
  | PStr (c :: s) => Some (c :: s)
  | _ => None
  end.

(** The chat part of a content item, and the modality it needs *)
Definition content_part (item : pyval) : option pyval * list pystr :=
  match item with
  | PStr s => (Some (text_part s), [])
  | PDict d =>
      let item_type := str_or_empty (get "type" d) in
      if str_in item_type CODE_INPUT_TYPES then
        (match get "text" d with PStr (c :: s) => Some (text_part (c :: s)) | _ => None end, [])
      else if str_in item_type CODE_IMAGE_TYPES then
        match media_url (get "image_url" d) with
        | Some url => (Some (url_part "image_url" url), [str "image"])
        | None => (None, [])
        end
      else if str_in item_type CODE_VIDEO_TYPES then
        match media_url (get "video_url" d) with
        | Some url => (Some (url_part "video_url" url), [str "video"])
        | None => (None, [])
        end
      else (None, [])
  | _ => (None, [])
  end.

Definition is_text_part (part : pyval) : bool :=
  match part_type part with PStr t => str_eqb t (str "text") | _ => false end.

Definition content_to_chat_parts (content : pyval) : pyval * list pystr :=
  match content with
  | PStr s => (PStr s, [])
  | PList items =>
      let parts := omap (fun i => fst (content_part i)) items in
      let modalities := fold_left (fun acc i => set_union acc (snd (content_part i))) items [] in
      (if forallb is_text_part parts then PStr (join [10] (map part_text parts)) else PList parts, modalities)
  | _ => (PStr [], [])
  end.

Definition output_chunk (entry : pyval) : option pystr :=
  match entry with
  | PDict d => as_str (get "text" d)
  | PStr s => Some s
  | _ => None
  end.

Definition flatten_function_output (output : pyval) : result pystr :=
  match output with
  | PStr s => Ok s
  | PList l => Ok (join [10] (omap output_chunk l))
  | PNone => Ok []
  | v => dumps (default_style false) v
  end.

Definition nonempty (s : pystr) : bool := match s with [] => false | _ => true end.
Definition join_system_text (chunks : list pystr) : pystr := join [10; 10] (List.filter nonempty chunks).

Definition tool_arguments_payload (value : pyval) : result pystr :=
  match value with
  | PStr s =>
      match loads default_hooks s with
      | None => dumps (default_style false) (PDict ["input" :-> PStr s])
      | Some _ => Ok s
      end
  | PNone => dumps (default_style false) (PDict [])
  | v => dumps (default_style false) v
  end.

Definition prepend_system (system_chunks : list pystr) (conversation : list pydict) : list pydict :=
  match join_system_text system_chunks with
  | [] => conversation
  | t => ["role" :-> text "system"; "content" :-> PStr t] :: conversation
  end.

(** [str(item.get("call_id") or item.get("id") or "call_0")] *)
Definition item_call_id (item : pydict) : pystr := str_or (py_or (get "call_id" item) (get "id" item)) (str "call_0").

(** The text of the parts of a system message that holds media *)
Definition joined_text (parts : list pyval) : pystr :=
  concat (map (fun part => match part with PDict d => str_or_empty (get "text" d) | _ => [] end) parts).

(** What one item of the input adds: messages, system text and modalities *)
Record addition := mkAddition { ad_messages : list pydict; ad_system : list pystr; ad_modalities : list pystr }.

Definition nothing_added : addition := mkAddition [] [] [].

Definition item_addition (item : pyval) : result addition :=
  match item with
  | PStr s => Ok (mkAddition [["role" :-> text "user"; "content" :-> PStr s]] [] [])
  | PDict d =>
      let item_type := str_or (get "type" d) (str "message") in
      if str_in item_type [str "function_call"; str "custom_tool_call"] then
        arguments ← tool_arguments_payload (match get "arguments" d with PNone => get "input" d | a => a end);
        Ok (mkAddition [["role" :-> text "assistant"; "content" :-> PNone;
                         "tool_calls" :-> PList [PDict ["id" :-> PStr (item_call_id d); "type" :-> text "function";
                           "function" :-> PDict ["name" :-> PStr (str_or_empty (get "name" d));
                                                 "arguments" :-> PStr arguments]]]]] [] [])
      else if str_in item_type [str "function_call_output"; str "custom_tool_call_output"] then
        content ← flatten_function_output (get "output" d);
        Ok (mkAddition [["role" :-> text "tool"; "tool_call_id" :-> PStr (item_call_id d);
                         "content" :-> PStr content]] [] [])
      else if str_in item_type [str "reasoning"; str "reasoning_summary"] then Ok nothing_added
      else
        let role := str_or (get "role" d) (str "user") in
        let '(content, modalities) := content_to_chat_parts (get "content" d) in
        match content, modalities with
        | PStr [], [] | PList [], [] => Ok nothing_added
        | _, _ =>
            if str_in role [str "developer"; str "system"] then
              Ok (mkAddition [] [match content with PStr s => s | PList parts => joined_text parts | _ => [] end] modalities)
            else Ok (mkAddition [["role" :-> PStr role; "content" :-> content]] [] modalities)
        end
  | _ => Ok nothing_added
  end.

(** The loop over the items *)
Fixpoint add_items (acc : addition) (items : list pyval) : result addition :=
  match items with
  | [] => Ok acc
  | item :: rest =>
      a ← item_addition item;
      add_items (mkAddition (ad_messages acc ++ ad_messages a) (ad_system acc ++ ad_system a)
                   (set_union (ad_modalities acc) (ad_modalities a))) rest
  end.

Definition instruction_chunks (instructions : pyval) : list pystr :=
  match instructions with
  | PStr s => if nonempty (strip s) then [s] else []
  | _ => []
  end.

Definition responses_input_to_chat_messages (input_value instructions : pyval) : result (list pydict * list pystr) :=
  let system_chunks := instruction_chunks instructions in
  match input_value with
  | PStr s => Ok (prepend_system system_chunks [["role" :-> text "user"; "content" :-> PStr s]], [])
  | PList items =>
      a ← add_items (mkAddition [] system_chunks []) items;
      Ok (prepend_system (ad_system a) (ad_messages a), ad_modalities a)
  | _ => Ok (prepend_system system_chunks [], [])
  end.

(** ** The request *)

(** The second component of what [responses_to_chat_request] returns *)
Record reply_context := mkContext {
  cx_model : pystr;
  cx_requested_model : pyval;
  cx_modalities : list pystr;
  cx_tools : list pydict;
  cx_stream : bool;
  cx_effort : option pystr;
  cx_thinking : option bool;
}.

Definition optional_item (k : string) (v : option pyval) : pydict :=
  match v with Some x => [k :-> x] | None => [] end.

Definition tool_fields (body : pydict) (tools : list pydict) : result pydict :=
  match tools with
  | [] => Ok []
  | _ =>
      choice ← responses_tool_choice_to_chat (get "tool_choice" body);
      Ok (["tools" :-> PList (map PDict (strip_gateway_tool_extensions tools))]
            ++ optional_item "tool_choice" choice
            ++ match get "parallel_tool_calls" body with
               | PBool b => ["parallel_tool_calls" :-> PBool b]
               | _ => []
               end)
  end.

Definition reasoning_fields (resolved_effort : option pystr) (enable_thinking : option bool) : pydict :=
  let template_kwargs := optional_item "reasoning_effort" (PStr <$> resolved_effort)
                           ++ optional_item "enable_thinking" (PBool <$> enable_thinking) in
  optional_item "reasoning_effort" (PStr <$> resolved_effort)
    ++ match template_kwargs with [] => [] | _ => ["chat_template_kwargs" :-> PDict template_kwargs] end.

Definition responses_to_chat_request (body : pydict) (model : pystr) (thinking_toggle : bool)
    : result (pydict * reply_context) :=
  '(messages, modalities) ← responses_input_to_chat_messages (get "input" body) (get "instructions" body);
  _ ← guard_exn (match messages with [] => false | _ => true end)
        (ResponsesTranslationError (str "The input field must contain at least one message"));
  let tools := responses_tools_to_chat (get "tools" body) in
  from_tools ← tool_fields body tools;
  let effort := match get "reasoning" body with PDict r => get "effort" r | _ => PNone end in
  let '(resolved_effort, enable_thinking) := resolve_reasoning effort thinking_toggle in
  let max_tokens := match get "max_output_tokens" body with
                    | PInt n => if 0 <? n then ["max_tokens" :-> PInt n] else []
                    | _ => []
                    end in
  let stream := truthy (get "stream" body) in
  Ok (["model" :-> PStr model; "messages" :-> PList (map PDict messages)]
        ++ from_tools ++ reasoning_fields resolved_effort enable_thinking ++ max_tokens
        ++ ["stream" :-> PBool stream]
        ++ (if stream then ["stream_options" :-> PDict ["include_usage" :-> PBool true]] else []),
      mkContext model (get "model" body) modalities tools stream resolved_effort enable_thinking).

(** ** The response *)

(** [candidate if isinstance(candidate, int) and not isinstance(candidate, bool)] *)
Definition plain_int (v : pyval) : option Z := as_int v.

Definition numeric (v : pyval) : bool := match v with PInt _ | PBool _ | PFloat _ => true | _ => false end.

Definition token_count (v : pyval) : result Z := if numeric v then py_int v else Ok 0.

Definition usage_dict (usage : pyval) : pydict := match usage with PDict d => d | _ => [] end.

Definition prompt_tokens (usage : pydict) : pyval :=
  py_or (py_or (get "prompt_tokens" usage) (get "input_tokens" usage)) (PInt 0).
Definition completion_tokens (usage : pydict) : pyval :=
  py_or (py_or (get "completion_tokens" usage) (get "output_tokens" usage)) (PInt 0).

Definition output_details (details : pyval) : pydict :=
  match details with
  | PDict d =>
      ["reasoning_tokens" :-> PInt (default 0 (plain_int (get "reasoning_tokens" d)))]
        ++ match get "accepted_prediction_tokens" d with
           | PInt n => ["accepted_prediction_tokens" :-> PInt n]
           | PBool b => ["accepted_prediction_tokens" :-> PBool b]
           | _ => []
           end
  | _ => ["reasoning_tokens" :-> PInt 0]
  end.

Definition cached_tokens (usage : pydict) : Z :=
  match py_or (get "prompt_tokens_details" usage) (get "input_tokens_details" usage) with
  | PDict d => match plain_int (get "cached_tokens" d) with Some n => Z.max 0 n | None => 0 end
  | _ => 0
  end.

Definition normalize_usage (usage : pyval) : result pydict :=
  let usage := usage_dict usage in
  input ← token_count (prompt_tokens usage);
  output ← token_count (completion_tokens usage);
  p ← py_int (py_or (prompt_tokens usage) (PInt 0));
  c ← py_int (py_or (completion_tokens usage) (PInt 0));
  Ok ["input_tokens" :-> PInt input;
      "input_tokens_details" :-> PDict ["cached_tokens" :-> PInt (cached_tokens usage)];
      "output_tokens" :-> PInt output;
      "output_tokens_details" :-> PDict (output_details (get "completion_tokens_details" usage));
      "total_tokens" :-> PInt (p + c)].

Definition REASONING_KEYS : list pystr := [str "reasoning_content"; str "reasoning"; str "reasoning_text"].

Fixpoint reasoning_under (ks : list pystr) (message : pydict) : pystr :=
  match ks with
  | [] => []
  | k :: rest =>
      match get_or_none k message with
      | PStr (c :: s) => c :: s
      | PList parts => match joined_text parts with [] => reasoning_under rest message | t => t end
      | _ => reasoning_under rest message
      end
  end.

Definition extract_reasoning_text (message : pydict) : pystr := reasoning_under REASONING_KEYS message.

(** [content] of a message or of a delta: a string, or the text of its parts *)
Definition content_text (content : pyval) : pystr :=
  match content with
  | PStr s => s
  | PList parts => joined_text parts
  | _ => []
  end.

Record tool_call := mkCall { tc_id : pystr; tc_name : pystr; tc_arguments : pystr }.

Definition resolved_call (index : Z) (call : pyval) : result (option tool_call) :=
  match call with
  | PDict d =>
      match get "function" d with
      | PDict function =>
          match str_or_empty (get "name" function) with
          | [] => Ok None
          | name =>
              arguments ← match get "arguments" function with
                          | PStr s => Ok s
                          | v => dumps (default_style false) (py_or v (PDict []))
                          end;
              Ok (Some (mkCall (str_or (get "id" d) (str "call_" ++ dec index))
                          (chat_tool_name_to_client_name name) arguments))
          end
      | _ => Ok None
      end
  | _ => Ok None
  end.

Fixpoint resolved_calls (index : Z) (calls : list pyval) : result (list tool_call) :=
  match calls with
  | [] => Ok []
  | call :: rest =>
      c ← resolved_call index call;
      more ← resolved_calls (index + 1) rest;
      Ok (match c with Some x => x :: more | None => more end)
  end.

Definition iter_tool_calls (message : pydict) : result (list tool_call) :=
  match get "tool_calls" message with PList calls => resolved_calls 0 calls | _ => Ok [] end.

Definition output_text_part (t : pystr) : pyval :=
  PDict ["type" :-> text "output_text"; "text" :-> PStr t; "annotations" :-> PList []].

Definition reasoning_item (id t : pystr) : pyval :=
  PDict ["type" :-> text "reasoning"; "id" :-> PStr id; "summary" :-> PList [reasoning_summary_part t];
         "content" :-> PList []].

Definition message_item (id t : pystr) : pyval :=
  PDict ["type" :-> text "message"; "id" :-> PStr id; "role" :-> text "assistant"; "status" :-> text "completed";
         "content" :-> PList [output_text_part t]].

Definition function_call_item (id : pystr) (call : tool_call) : pyval :=
  PDict ["type" :-> text "function_call"; "id" :-> PStr id; "call_id" :-> PStr (tc_id call);
         "name" :-> PStr (tc_name call); "arguments" :-> PStr (tc_arguments call); "status" :-> text "completed"].

Section Turn.
Variable uuid_hex : nat -> pystr.
Variable now : Z.

Definition new_id (prefix : string) (n : nat) : pystr := str prefix ++ str "_" ++ uuid_hex n.

Definition envelope (n : nat) (model : pystr) (status : string) (output : list pyval) (usage : pyval) : result pydict :=
  u ← normalize_usage usage;
  Ok ["id" :-> PStr (new_id "resp" n); "object" :-> text "response"; "created_at" :-> PInt now;
      "status" :-> text status; "model" :-> PStr model; "output" :-> PList output;
      "parallel_tool_calls" :-> PBool true; "tool_choice" :-> text "auto"; "tools" :-> PList []; "usage" :-> PDict u].

(** The first choice of a chat response *)
Definition first_choice (payload : pydict) : pydict :=
  match get "choices" payload with PList (PDict first :: _) => first | _ => [] end.

Definition choice_message (choice : pydict) : pydict := match get "message" choice with PDict m => m | _ => [] end.

(** The output items of a message; the ids are drawn in the order of the items *)
Definition output_items (n : nat) (reasoning content : pystr) (calls : list tool_call) : list pyval :=
  let r := if nonempty reasoning then [reasoning_item (new_id "rs" n) reasoning] else [] in
  let n := (n + length r)%nat in
  let m := if nonempty content then [message_item (new_id "msg" n) content] else [] in
  let n := (n + length m)%nat in
  r ++ m ++ imap (fun i c => function_call_item (new_id "fc" (n + i)) c) calls.

(** [ResponsesTurnTranslator.from_chat_response] *)
Definition from_chat_response (model : pystr) (payload : pydict) : result pydict :=
  let choice := first_choice payload in
  let message := choice_message choice in
  calls ← iter_tool_calls message;
  let output := output_items 0 (extract_reasoning_text message) (content_text (get "content" message)) calls in
  let status := if str_eqb (str_or_empty (get "finish_reason" choice)) (str "length") then "incomplete"%string
                else "completed"%string in
  envelope (length output) model status output (get "usage" payload).
End Turn.
End Bridge.

(** ** Reading dictionary displays *)

Lemma get_cons k k' v (d : pydict) : get k ((str k', v) :: d) = if String.eqb k k' then v else get k d.
Proof.
  unfold get, get_or_none. cbn [dict_get]. destruct (String.eqb_spec k k') as [->|Hn]; [by rewrite str_eqb_refl|].
  destruct (str_eqb_spec (str k) (str k')) as [E%str_inj|_]; [done|done].
Qed.

Lemma get_app k (d e : pydict) : get k (d ++ e) = match dict_get (str k) d with Some v => v | None => get k e end.
Proof.
  unfold get, get_or_none. induction d as [|[k' v] d IH]; cbn [dict_get app]; [done|]. by destruct (str_eqb (str k) k').
Qed.

(** ** Names of tools *)

Lemma find_joined prefix name :
  find_sub (str "__") (prefix ++ str "_") = None <-> find_sub (str "__") (prefix ++ str "__" ++ name) = Some (length prefix).
Proof.
  induction prefix as [|c prefix IH]; [done|]. cbn [app length].
  assert (Hh : hd_error (prefix ++ str "_") = hd_error (prefix ++ str "__" ++ name)) by (by destruct prefix).
  assert (Hs : startswith (str "__") (c :: prefix ++ str "_") = startswith (str "__") (c :: prefix ++ str "__" ++ name)).
  { destruct (prefix ++ str "_") as [|x l], (prefix ++ str "__" ++ name) as [|y k]; cbn in Hh; try done. by injection Hh as <-. }
  cbn [find_sub]. rewrite Hs. destruct (startswith (str "__") (c :: prefix ++ str "__" ++ name)); [done|].
  destruct (find_sub (str "__") (prefix ++ str "_")), (find_sub (str "__") (prefix ++ str "__" ++ name)) as [j|]; cbn in *;
    (split; [intros; try done|intros; try done]).
  - injection H as H. subst j. destruct IH as [_ IH]. by discriminate IH.
  - destruct IH as [IH _]. specialize (IH eq_refl). by injection IH as ->.
  - destruct IH as [IH _]. by discriminate IH.
Qed.

Lemma find_joined_bound prefix name : exists i, find_sub (str "__") (prefix ++ str "__" ++ name) = Some i /\ (i <= length prefix)%nat.
Proof.
  induction prefix as [|c prefix (i & E & Hi)]; [by exists 0%nat|]. cbn [app find_sub length].
  destruct (startswith (str "__") (c :: prefix ++ str "__" ++ name)); [exists 0%nat; split; [done|lia]|].
  rewrite E. exists (S i). split; [done|lia].
Qed.

Lemma client_name_joined prefix name :
  chat_tool_name_to_client_name (prefix ++ str "__" ++ name) = name <-> find_sub (str "__") (prefix ++ str "_") = None.
Proof.
  rewrite (find_joined _ name). unfold chat_tool_name_to_client_name.
  destruct (find_joined_bound prefix name) as (i & -> & Hi). split.
  - intros E. apply (f_equal length) in E. rewrite length_drop, !length_app in E. change (length (str "__")) with 2%nat in E. f_equal. lia.
  - intros [= ->]. rewrite app_assoc, drop_app_length'; [done|]. rewrite length_app. reflexivity.
Qed.

Lemma client_name_plain name : chat_tool_name_to_client_name name = name <-> find_sub (str "__") name = None.
Proof.
  unfold chat_tool_name_to_client_name. destruct (find_sub (str "__") name) as [i|] eqn:E; [|done]. split; [|done].
  intros Hd. exfalso. apply (f_equal length) in Hd. rewrite length_drop in Hd.
  assert ((2 <= length name)%nat); [|lia]. clear Hd. revert i E. induction name as [|c name IH]; intros i; cbn [find_sub].
  { done. }
  destruct (startswith (str "__") (c :: name)) eqn:Hs.
  { apply startswith_app in Hs as (r & ->). intros _. rewrite length_app. change (length (str "__")) with 2%nat. lia. }
  destruct (find_sub (str "__") name) as [j|]; [|done]. intros _. specialize (IH j eq_refl). cbn. lia.
Qed.

(** The name in the function of a chat tool, and the client's own name of it *)
Definition function_name (tool : pydict) : pyval :=
  match get "function" tool with PDict f => get "name" f | _ => PNone end.

(** The part of a tool's name that must not hold two underscores *)
Definition name_stem (tool : pydict) : pystr :=
  match get "x-dgx-namespace" tool, function_name tool with
  | PStr prefix, _ => prefix ++ str "_"
  | _, PStr name => name
  | _, _ => []
  end.

(** ** What a chat request must be *)

(** A message for the system part of the template *)
Definition system_role (m : pydict) : bool :=
  match get "role" m with PStr r => str_in r [str "developer"; str "system"] | _ => false end.

Definition chat_tool_ok (tool : pyval) : bool :=
  match tool with
  | PDict d =>
      forallb (fun k => negb (is_gateway_key k)) (keys d) &&
      match function_name d with PStr (_ :: _) => true | _ => false end
  | _ => false
  end.

Definition CHAT_KEYS : list pystr :=
  map str ["model"; "messages"; "tools"; "tool_choice"; "parallel_tool_calls"; "reasoning_effort"; "chat_template_kwargs";
           "max_tokens"; "stream"; "stream_options"]%string.

Definition chat_request_ok (model : pystr) (chat : pydict) : bool :=
  match get "model" chat with PStr m => str_eqb m model | _ => false end &&
  match get "messages" chat with
  | PList (_ :: rest) => forallb (fun m => match m with PDict d => negb (system_role d) | _ => false end) rest
  | _ => false
  end &&
  match get "tools" chat with
  | PNone => negb (has "tool_choice" chat) && negb (has "parallel_tool_calls" chat)
  | PList (t :: ts) => forallb chat_tool_ok (t :: ts)
  | _ => false
  end &&
  match get "max_tokens" chat with PNone => true | PInt n => 0 <? n | _ => false end &&
  match get "stream" chat with PBool b => Bool.eqb b (has "stream_options" chat) | _ => false end &&
  keys_subset chat CHAT_KEYS.

Section Properties.
Context `{UnicodeData}.

(** A tool that the conversion makes: what it is called on both sides *)
Inductive made_tool : pydict -> Prop :=
  | MadePlain name function : name <> [] -> get "name" function = PStr name ->
      made_tool ["type" :-> text "function"; "function" :-> PDict function; "x-dgx-name" :-> PStr name]
  | MadeNested prefix name function : prefix <> [] -> name <> [] ->
      get "name" function = PStr (prefix ++ str "__" ++ name) ->
      made_tool ["type" :-> text "function"; "function" :-> PDict function; "x-dgx-namespace" :-> PStr prefix;
                 "x-dgx-name" :-> PStr name].

Lemma made_tools tools : Forall made_tool (responses_tools_to_chat tools).
Proof.
  destruct tools as [| | | | |l|]; try constructor. cbn [responses_tools_to_chat]. apply Forall_concat, Forall_map, Forall_true.
  intros [| | | | | |d]; try constructor. unfold tool_to_chat.
  destruct (str_eqb _ (str "function")).
  { destruct (strip (str_or_empty (get "name" d))) as [|c name]; [constructor|]. by apply Forall_singleton, MadePlain. }
  destruct (str_eqb _ (str "namespace")).
  { unfold flatten_namespace_tools. destruct (strip _) as [|c prefix] eqn:Ep; [constructor|].
    destruct (get "tools" d) as [| | | | |nested|]; try constructor.
    induction nested as [|entry nested IH]; [constructor|]. cbn [omap list_omap].
    destruct (namespace_tool (c :: prefix) entry) as [tool|] eqn:Et; [|done]. constructor; [|done].
    destruct entry as [| | | | | |e]; try done. cbn [namespace_tool] in Et.
    destruct (negb _); [done|]. destruct (strip (str_or_empty (get "name" e))) as [|x name]; [done|].
    injection Et as <-. by constructor. }
  destruct (str_in _ SERVER_TOOLS) eqn:Es; [|constructor]. apply Forall_singleton, MadePlain; [|reflexivity].
  intros E. rewrite E in Es. done.
Qed.

(** Which tools keep their name.  The name that the client calls a tool by
    comes back from the name sent upstream exactly when the tool's name (for a
    tool of a namespace, the namespace followed by an underscore) holds no two
    underscores in a row. *)
Theorem tool_names_exact tools : Forall (fun tool =>
    exists called name, function_name tool = PStr called /\ get "x-dgx-name" tool = PStr name /\
      (chat_tool_name_to_client_name called = name <-> find_sub (str "__") (name_stem tool) = None))
  (responses_tools_to_chat tools).
Proof.
  eapply Forall_impl; [apply made_tools|]. intros tool [name function _ Hf|prefix name function _ _ Hf];
    eexists _, name; unfold function_name, name_stem, function_name; rewrite !get_cons; cbn [String.eqb Ascii.eqb Bool.eqb].
  - rewrite Hf. split; [done|]. split; [done|]. apply client_name_plain.
  - rewrite Hf. split; [done|]. split; [done|]. apply client_name_joined.
Qed.

(** The arguments of a tool call are always one JSON document: it is the
    client's string if that is JSON, an object with the string under "input" if
    it is not, and the text of the value otherwise; the template's decoder reads
    exactly that back. *)
Theorem arguments_are_json value : json_value_ok value = true ->
  exists t, tool_arguments_payload value = Ok t /\
    loads default_hooks t = Some match value with
                                 | PStr s => default (PDict ["input" :-> PStr s]) (loads default_hooks s)
                                 | PNone => PDict []
                                 | v => v
                                 end.
Proof.
  assert (Hd : forall v, json_value_ok v = true ->
    exists t, dumps (default_style false) v = Ok t /\ loads default_hooks t = Some v).
  { intros v Hv. apply loads_dumps; [|done]. by right; right; left. }
  intros Hv. destruct value as [|b|n|f|s|l|d]; try by apply Hd. cbn [tool_arguments_payload].
  destruct (loads default_hooks s) as [v|] eqn:E; [by exists s|]. apply Hd. cbn in Hv |- *. by rewrite Hv.
Qed.

(** ** Messages *)

Lemma added_roles item a : item_addition item = Ok a -> Forall (fun m => system_role m = false) (ad_messages a).
Proof.
  destruct item as [| | | |s| |d]; try (intros [= <-]; by repeat constructor). cbn [item_addition].
  destruct (str_in _ _). { intros (args & _ & [= <-])%bind_Ok. by repeat constructor. }
  destruct (str_in _ _). { intros (content & _ & [= <-])%bind_Ok. by repeat constructor. }
  destruct (str_in _ _); [intros [= <-]; constructor|].
  destruct (content_to_chat_parts (get "content" d)) as [content modalities].
  assert (Hrest : forall role, (if str_in role [str "developer"; str "system"]
      then Ok (mkAddition [] [match content with PStr s => s | PList parts => joined_text parts | _ => [] end] modalities)
      else Ok (mkAddition [["role" :-> PStr role; "content" :-> content]] [] modalities)) = Ok a ->
      Forall (fun m => system_role m = false) (ad_messages a)).
  { intros role. destruct (str_in role _) eqn:Er; intros [= <-]; [constructor|].
    apply Forall_singleton. unfold system_role. rewrite get_cons. exact Er. }
  destruct content as [| | | |[|c s]|[|x l]|], modalities as [|m ms]; try (intros [= <-]; constructor); apply Hrest.
Qed.

Lemma add_items_Ok items : forall acc r, add_items acc items = Ok r <->
  exists added, Forall2 (fun item a => item_addition item = Ok a) items added /\
    r = fold_left (fun acc a => mkAddition (ad_messages acc ++ ad_messages a) (ad_system acc ++ ad_system a)
                                  (set_union (ad_modalities acc) (ad_modalities a))) added acc.
Proof.
  induction items as [|item items IH]; intros acc r; cbn [add_items].
  { split; [intros [= <-]; by exists []|]. intros (added & Hnil%Forall2_nil_inv_l & ->). by subst. }
  rewrite bind_Ok. split.
  - intros (a & Ha & (added & Hadd & ->)%IH). exists (a :: added). split; [by constructor|done].
  - intros (added & (a & added' & Ha & Hadd & ->)%Forall2_cons_inv_l & ->). exists a. split; [done|].
    apply IH. by exists added'.
Qed.

Lemma fold_added added : forall acc,
  let r := fold_left (fun acc a => mkAddition (ad_messages acc ++ ad_messages a) (ad_system acc ++ ad_system a)
                                  (set_union (ad_modalities acc) (ad_modalities a))) added acc in
  ad_messages r = ad_messages acc ++ concat (map ad_messages added) /\
  ad_system r = ad_system acc ++ concat (map ad_system added).
Proof.
  induction added as [|a added IH]; intros acc; cbn; [by rewrite !app_nil_r|].
  destruct (IH (mkAddition (ad_messages acc ++ ad_messages a) (ad_system acc ++ ad_system a)
                  (set_union (ad_modalities acc) (ad_modalities a)))) as [-> ->]. cbn. by rewrite <- !app_assoc.
Qed.

(** The messages of a request: what the items add, in the order of the
    items; in front of them one message that holds every instruction (the
    request's own and the developer and system messages), in order, if there is
    any, and no other message for the system part of the template. *)
Theorem one_leading_system_message items instructions messages modalities :
  responses_input_to_chat_messages (PList items) instructions = Ok (messages, modalities) ->
  exists added, Forall2 (fun item a => item_addition item = Ok a) items added /\
    let system_text := join_system_text (instruction_chunks instructions ++ concat (map ad_system added)) in
    let conversation := concat (map ad_messages added) in
    Forall (fun m => system_role m = false) conversation /\
    messages = (if nonempty system_text then [["role" :-> text "system"; "content" :-> PStr system_text]] else [])
                 ++ conversation.
Proof.
  unfold responses_input_to_chat_messages. intros (r & (added & Hadd & ->)%add_items_Ok & [= <- <-])%bind_Ok.
  exists added. split; [done|]. cbn zeta.
  destruct (fold_added added (mkAddition [] (instruction_chunks instructions) [])) as [-> ->]. cbn [ad_messages ad_system app].
  split.
  - apply Forall_concat, Forall_map. clear -Hadd. induction Hadd as [|item a items added Ha _ IH]; constructor; [|done].
    by eapply added_roles.
  - unfold prepend_system. by destruct (join_system_text _).
Qed.

(** ** The whole request *)

Lemma get_json_ok k d : json_value_ok (PDict d) = true -> json_value_ok (get k d) = true.
Proof.
  intros Hd. unfold get, get_or_none. destruct (dict_get (str k) d) as [v|] eqn:E; [|done].
  apply dict_get_In in E. cbn in Hd. apply andb_true_iff in Hd as [Hd _]. rewrite forallb_forall in Hd.
  specialize (Hd _ E). by apply andb_true_iff in Hd as [_ Hd].
Qed.

Lemma dumps_json_ok v : json_value_ok v = true -> exists t, dumps (default_style false) v = Ok t.
Proof. intros Hv. destruct (loads_dumps (default_style false) v) as (t & Ht & _); [by right; right; left|done|by exists t]. Qed.

Lemma item_addition_total item : json_value_ok item = true -> exists a, item_addition item = Ok a.
Proof.
  intros Hi. destruct item as [| | | |s| |d]; try by eexists. cbn [item_addition].
  pose proof (fun k => get_json_ok k d Hi) as Hg. clear Hi.
  destruct (str_in _ _).
  { destruct (arguments_are_json (match get "arguments" d with PNone => get "input" d | a => a end)) as (t & -> & _).
    - pose proof (Hg "arguments"%string) as Ha. by destruct (get "arguments" d).
    - by eexists. }
  destruct (str_in _ _).
  { assert (exists t, flatten_function_output (get "output" d) = Ok t) as (t & ->); [|by eexists].
    pose proof (Hg "output"%string) as Ho. destruct (get "output" d); try (by eexists); by apply dumps_json_ok. }
  destruct (str_in _ _); [by eexists|].
  destruct (content_to_chat_parts (get "content" d)) as [content modalities].
  destruct (str_in (str_or (get "role" d) (str "user")) [str "developer"; str "system"]);
    destruct content as [| | | |[|]|[|]|], modalities; by eexists.
Qed.

Lemma messages_total input instructions : json_value_ok input = true ->
  exists r, responses_input_to_chat_messages input instructions = Ok r.
Proof.
  intros Hi. destruct input as [| | | |s|items|d]; try by eexists. cbn [responses_input_to_chat_messages].
  assert (exists a, add_items (mkAddition [] (instruction_chunks instructions) []) items = Ok a) as (a & ->); [|by eexists].
  generalize (mkAddition [] (instruction_chunks instructions) []). cbn in Hi.
  induction items as [|item items IH]; intros acc; cbn [add_items]; [by eexists|]. cbn in Hi.
  apply andb_true_iff in Hi as [Hitem Hi]. destruct (item_addition_total item Hitem) as (a & ->). cbn. by apply IH.
Qed.

(** The messages of a request, whatever its input *)
Lemma messages_ok input instructions messages modalities :
  responses_input_to_chat_messages input instructions = Ok (messages, modalities) ->
  match messages with [] => True | _ :: rest => Forall (fun m => system_role m = false) rest end.
Proof.
  destruct input as [| | | |s|items|d].
  6: { intros (r & (added & Hadd & ->)%add_items_Ok & [= <- <-])%bind_Ok.
    destruct (fold_added added (mkAddition [] (instruction_chunks instructions) [])) as [-> ->]. cbn [ad_messages ad_system app].
    assert (Hc : Forall (fun m => system_role m = false) (concat (map ad_messages added))).
    { apply Forall_concat, Forall_map. clear -Hadd. induction Hadd as [|item a items added Ha _ IH]; constructor; [|done].
      by eapply added_roles. }
    unfold prepend_system. destruct (join_system_text _); [|done]. by destruct Hc. }
  all: cbn [responses_input_to_chat_messages]; intros [= <- <-]; unfold prepend_system; destruct (join_system_text _); try done;
    by repeat constructor.
Qed.

(** ** Requests that are refused *)

(** Content from which no text and no media part is made *)
Definition no_content (content : pyval) : Prop :=
  (fst (content_to_chat_parts content) = PStr [] \/ fst (content_to_chat_parts content) = PList []) /\
  snd (content_to_chat_parts content) = [].

(** The system text of an item *)
Definition system_text (content : pyval) : pystr :=
  match fst (content_to_chat_parts content) with PStr s => s | PList parts => joined_text parts | _ => [] end.

(** An item of the input that says nothing: prior reasoning, a message without
    content, a system message without text, or no string and no object *)
Definition silent_item (item : pyval) : Prop :=
  match item with
  | PStr _ => False
  | PDict d =>
      let item_type := str_or (get "type" d) (str "message") in
      ~ In item_type [str "function_call"; str "custom_tool_call"; str "function_call_output"; str "custom_tool_call_output"] /\
      (In item_type [str "reasoning"; str "reasoning_summary"] \/ no_content (get "content" d) \/
       In (str_or (get "role" d) (str "user")) [str "developer"; str "system"] /\ system_text (get "content" d) = [])
  | _ => True
  end.

(** A request that has nothing to send: no instructions but white space, and an
    input that is neither a string nor a list with an item that says something *)
Definition says_nothing (body : pydict) : Prop :=
  match get "instructions" body with PStr s => strip s = [] | _ => True end /\
  match get "input" body with PStr _ => False | PList items => Forall silent_item items | _ => True end.

(** A choice of a tool that is an object or a list, and names no function *)
Definition names_no_function (choice : pyval) : Prop :=
  match choice with
  | PList _ => True
  | PDict d => str_or_empty (get "type" d) <> str "function" \/ match get "name" d with PStr (_ :: _) => False | _ => True end
  | _ => False
  end.

Definition adds_nothing (a : addition) : Prop := ad_messages a = [] /\ Forall (fun s => s = []) (ad_system a).

Lemma silent_addition item a : item_addition item = Ok a -> silent_item item <-> adds_nothing a.
Proof.
  unfold adds_nothing. destruct item as [|b|n|f|s|l|d]; cbn [item_addition silent_item]; try by intros [= <-].
  { intros [= <-]. split; [done|]. by intros [? _]. }
  set (t := str_or (get "type" d) (str "message")). destruct (str_in t [str "function_call"; str "custom_tool_call"]) eqn:H1.
  { intros (x & _ & [= <-])%bind_Ok. split; [|by intros [? _]]. intros [Hn _]. destruct Hn. apply str_in_In in H1 as [<-|[<-|[]]]; cbn; auto. }
  destruct (str_in t [str "function_call_output"; str "custom_tool_call_output"]) eqn:H2.
  { intros (x & _ & [= <-])%bind_Ok. split; [|by intros [? _]]. intros [Hn _]. destruct Hn. apply str_in_In in H2 as [<-|[<-|[]]]; cbn; auto. }
  assert (~ In t [str "function_call"; str "custom_tool_call"; str "function_call_output"; str "custom_tool_call_output"]) as Hn.
  { apply str_in_false in H1, H2. intros [?|[?|Hin]]; [apply H1; by left|apply H1; right; by left|by apply H2]. }
  destruct (str_in t [str "reasoning"; str "reasoning_summary"]) eqn:H3.
  { intros [= <-]. split; [done|]. intros _. split; [done|]. left. by apply str_in_In. }
  apply str_in_false in H3. unfold no_content, system_text. destruct (content_to_chat_parts (get "content" d)) as [content modalities].
  cbn [fst snd].
  assert (speaks : forall r : result addition, ~ ((content = PStr [] \/ content = PList []) /\ modalities = []) ->
    r = (if str_in (str_or (get "role" d) (str "user")) [str "developer"; str "system"] then
           Ok (mkAddition [] [match content with PStr s => s | PList parts => joined_text parts | _ => [] end] modalities)
         else Ok (mkAddition [["role" :-> PStr (str_or (get "role" d) (str "user")); "content" :-> content]] [] modalities)) ->
    r = Ok a ->
    (~ In t [str "function_call"; str "custom_tool_call"; str "function_call_output"; str "custom_tool_call_output"] /\
      (In t [str "reasoning"; str "reasoning_summary"] \/ ((content = PStr [] \/ content = PList []) /\ modalities = []) \/
       In (str_or (get "role" d) (str "user")) [str "developer"; str "system"] /\
       match content with PStr s => s | PList parts => joined_text parts | _ => [] end = [])) <->
    ad_messages a = [] /\ Forall (fun s => s = []) (ad_system a)).
  { intros r Hc ->. destruct (str_in (str_or (get "role" d) (str "user")) [str "developer"; str "system"]) eqn:Hr; intros [= <-]; cbn [ad_messages ad_system].
    - apply str_in_In in Hr. split.
      + intros [_ [?|[?|[_ Htext]]]]; [done|done|]. split; [done|]. by constructor.
      + intros [_ Htext]. split; [done|]. right. right. split; [done|]. by inversion Htext.
    - apply str_in_false in Hr. split; [by intros [_ [?|[?|[? _]]]]|by intros [? _]]. }
  destruct content as [| | | |[|c0 s0]|[|p0 l0]|], modalities as [|m0 ms];
    try (intros [= <-]; split; [done|]; intros _; split; [done|]; right; left; by auto);
    intros Ha; (eapply speaks; [|reflexivity|exact Ha]); naive_solver.
Qed.

Lemma join_system_silent chunks : join_system_text chunks = [] <-> Forall (fun s => s = []) chunks.
Proof.
  unfold join_system_text. induction chunks as [|c chunks IH]; [done|]. rewrite Forall_cons, <- IH. cbn [List.filter].
  destruct c as [|x c]; cbn [nonempty]; [by split; [|intros [_ ?]]|]. split; [|by intros [? _]].
  destruct (List.filter nonempty chunks); cbn; done.
Qed.

Lemma prepend_system_nil chunks conversation :
  prepend_system chunks conversation = [] <-> Forall (fun s => s = []) chunks /\ conversation = [].
Proof.
  rewrite <- join_system_silent. unfold prepend_system. destruct (join_system_text chunks); [by split; [|intros [_ ?]]|].
  by split; [|intros [? _]].
Qed.

Lemma instruction_silent instructions :
  Forall (fun s => s = []) (instruction_chunks instructions) <-> match instructions with PStr s => strip s = [] | _ => True end.
Proof.
  destruct instructions as [| | | |s| |]; try by split. cbn. destruct (strip s) eqn:Es; cbn; [by split|].
  split; [|done]. intros Hs. inversion Hs; subst. by cbn in Es.
Qed.

(** There is no message exactly when the request says nothing. *)
Lemma no_messages body messages modalities :
  responses_input_to_chat_messages (get "input" body) (get "instructions" body) = Ok (messages, modalities) ->
  messages = [] <-> says_nothing body.
Proof.
  unfold says_nothing. rewrite <- instruction_silent.
  destruct (get "input" body) as [| | | |s|items|d]; cbn [responses_input_to_chat_messages];
    try (intros [= <- _]; rewrite prepend_system_nil; by split; [intros [? _]|intros [? _]]);
    [intros [= <- _]; rewrite prepend_system_nil; by split; [intros [_ ?]|intros [_ ?]]|].
  intros (r & (added & Hadd & ->)%add_items_Ok & [= <- <-])%bind_Ok.
  destruct (fold_added added (mkAddition [] (instruction_chunks (get "instructions" body)) [])) as [-> ->]. cbn [ad_messages ad_system app].
  rewrite prepend_system_nil, Forall_app. enough (Forall (fun s => s = []) (concat (map ad_system added)) /\ concat (map ad_messages added) = []
    <-> Forall silent_item items) as <- by tauto.
  induction Hadd as [|item a items added Ha _ IH]; [by split|]. rewrite Forall_cons, (silent_addition item a Ha), <- IH. unfold adds_nothing.
  cbn [map concat]. rewrite Forall_app. split; [intros [[? ?] [? ?]%app_eq_nil]; done|]. intros [[-> ?] [? ->]]. done.
Qed.

Lemma tool_choice_refused choice :
  match responses_tool_choice_to_chat choice with
  | Ok _ => ~ names_no_function choice
  | Raise e => names_no_function choice /\ e = TypeError (str "unhashable type")
  end.
Proof.
  unfold responses_tool_choice_to_chat, names_no_function. destruct choice as [| | | |s|l|d]; try (intros ?; done); try done.
  destruct (str_eqb_spec (str_or_empty (get "type" d)) (str "function")) as [Ht|Ht]; [|split; [by left|done]].
  destruct (get "name" d) as [| | | |[|c name]| |]; try (split; [by right|done]). by intros [?|?].
Qed.

Lemma stripped_tools_ok tools : forallb chat_tool_ok (map PDict (strip_gateway_tool_extensions (responses_tools_to_chat tools))) = true.
Proof.
  apply forallb_Forall. unfold strip_gateway_tool_extensions. rewrite !Forall_map.
  eapply Forall_impl; [apply made_tools|]. intros tool [[|c name] function Hn Hf|[|c prefix] name function Hp _ Hf]; try done;
    change (match get "name" function with PStr (_ :: _) => true | _ => false end = true); by rewrite Hf.
Qed.

Lemma tool_fields_cases body tools :
  match tool_fields body tools with
  | Ok fields => (fields = [] /\ tools = [] \/ tools <> [] /\ exists choice parallel,
      fields = ["tools" :-> PList (map PDict (strip_gateway_tool_extensions tools))]
                 ++ optional_item "tool_choice" choice
                 ++ optional_item "parallel_tool_calls" (PBool <$> parallel)) /\
      ~ (tools <> [] /\ names_no_function (get "tool_choice" body))
  | Raise e => (tools <> [] /\ names_no_function (get "tool_choice" body)) /\ e = TypeError (str "unhashable type")
  end.
Proof.
  destruct tools as [|t ts]; [split; [by left|by intros [? _]]|]. cbn [tool_fields]. set (stripped := map PDict _).
  pose proof (tool_choice_refused (get "tool_choice" body)) as Hr.
  destruct (responses_tool_choice_to_chat (get "tool_choice" body)) as [choice|e].
  - cbn. split; [|by intros [_ ?]]. right. split; [done|]. exists choice, (match get "parallel_tool_calls" body with PBool b => Some b | _ => None end).
    by destruct (get "parallel_tool_calls" body).
  - cbn. by destruct Hr as [? ->].
Qed.


(** The parts of a request put together *)
Lemma chat_request_parts model messages tools choice parallel effort thinking maximum (stream : bool) :
  forallb (fun m => match m with PDict d => negb (system_role d) | _ => false end) (drop 1 messages) = true ->
  messages <> [] -> forallb chat_tool_ok tools = true -> (forall n, maximum = Some n -> (0 <? n) = true) ->
  let chat := ["model" :-> PStr model; "messages" :-> PList messages]
        ++ (match tools with
            | [] => []
            | t :: ts => ["tools" :-> PList (t :: ts)] ++ optional_item "tool_choice" choice
                     ++ optional_item "parallel_tool_calls" (PBool <$> parallel)
            end)
        ++ reasoning_fields effort thinking ++ optional_item "max_tokens" (PInt <$> maximum)
        ++ ["stream" :-> PBool stream]
        ++ (if stream then ["stream_options" :-> PDict ["include_usage" :-> PBool true]] else []) in
  chat_request_ok model chat = true /\ get "stream" chat = PBool stream /\ (get "tools" chat = PNone <-> tools = []).
Proof.
  intros Hms Hm Ht Hn chat. destruct messages as [|m messages]; [done|]. change (drop 1 (m :: messages)) with messages in Hms.
  assert (E : chat_request_ok model chat = (str_eqb model model &&
    forallb (fun m => match m with PDict d => negb (system_role d) | _ => false end) messages &&
    forallb chat_tool_ok tools && match maximum with Some n => 0 <? n | None => true end && true && true) /\
    get "stream" chat = PBool stream /\ get "tools" chat = match tools with [] => PNone | _ => PList tools end).
  { subst chat. clear. destruct tools as [|t ts]; [|destruct choice, parallel]; destruct effort, thinking, maximum, stream;
      (split; [reflexivity|split; reflexivity]). }
  destruct E as (-> & -> & ->). rewrite str_eqb_refl, Hms, Ht. split; [|split; [done|by destruct tools]].
  destruct maximum as [n|]; [by rewrite (Hn n eq_refl)|done].
Qed.

(** C39.  Every request body that is JSON is translated into a well-formed chat
    request (its messages start with the only system message, its tools have
    names and none of the gateway's own keys, the options that depend on others
    come with them, a token limit is positive), or refused for one of two
    reasons: it says nothing (no instructions, and an input without a message, a
    call or a result that has content), or it has tools and its tool_choice is a
    list, or an object that names no function.  It is refused whenever one of
    the two holds. *)
Theorem request_translated body model thinking_toggle : json_value_ok (PDict body) = true ->
  let unusable := responses_tools_to_chat (get "tools" body) <> [] /\ names_no_function (get "tool_choice" body) in
  match responses_to_chat_request body model thinking_toggle with
  | Ok (chat, context) =>
      chat_request_ok model chat = true /\ get "stream" chat = PBool (cx_stream context) /\
      (get "tools" chat = PNone <-> cx_tools context = []) /\ ~ says_nothing body /\ ~ unusable
  | Raise e =>
      says_nothing body /\ e = ResponsesTranslationError (str "The input field must contain at least one message") \/
      ~ says_nothing body /\ unusable /\ e = TypeError (str "unhashable type")
  end.
Proof.
  intros Hb unusable. unfold responses_to_chat_request.
  destruct (messages_total (get "input" body) (get "instructions" body)) as ([messages modalities] & E);
    [by apply get_json_ok|]. rewrite E. cbn [mbind result_bind].
  apply no_messages in E as Hsay. destruct messages as [|m messages]; [left; split; [by apply Hsay|done]|].
  assert (~ says_nothing body) as Hsays by (intros Hn%Hsay; done). clear Hsay. apply messages_ok in E. cbn [guard_exn].
  pose proof (stripped_tools_ok (get "tools" body)) as Ht.
  pose proof (tool_fields_cases body (responses_tools_to_chat (get "tools" body))) as Hf.
  destruct (tool_fields body _) as [fields|e]; cbn [mbind result_bind]; [|by right].
  destruct (resolve_reasoning _ thinking_toggle) as [effort thinking]. cbn [cx_stream cx_tools].
  assert (Hms : forallb (fun m => match m with PDict d => negb (system_role d) | _ => false end) (map PDict messages) = true).
  { apply forallb_Forall, Forall_map. eapply Forall_impl; [exact E|]. intros x Hx. by rewrite Hx. }
  set (maximum := match get "max_output_tokens" body with PInt n => if 0 <? n then Some n else None | _ => None end).
  assert (Hn : forall n, maximum = Some n -> (0 <? n) = true).
  { subst maximum. intros n. destruct (get "max_output_tokens" body) as [| |x| | | |]; try done.
    destruct (0 <? x) eqn:Ex; [by intros [= <-]|done]. }
  replace (match get "max_output_tokens" body with PInt n => if 0 <? n then _ else _ | _ => _ end)
    with (optional_item "max_tokens" (PInt <$> maximum))
    by (subst maximum; destruct (get "max_output_tokens" body) as [| |x| | | |]; try done; by destruct (0 <? x)).
  set (tools := responses_tools_to_chat (get "tools" body)) in *.
  assert (exists choice parallel, fields = match map PDict (strip_gateway_tool_extensions tools) with
            | [] => []
            | t :: ts => ["tools" :-> PList (t :: ts)] ++ optional_item "tool_choice" choice
                     ++ optional_item "parallel_tool_calls" (PBool <$> parallel)
            end) as (choice & parallel & ->).
  { destruct Hf as [[[-> ->]|(Htools & choice & parallel & ->)] _]; [by exists None, None|].
    exists choice, parallel. by destruct tools. }
  destruct (chat_request_parts model (map PDict (m :: messages)) _ choice parallel effort thinking maximum
              (truthy (get "stream" body)) Hms ltac:(done) Ht Hn) as (Hok & Hs & Hi).
  split_and!; [exact Hok|exact Hs|rewrite Hi; by destruct tools|exact Hsays|by apply Hf].
Qed.

(** ** Usage *)

(** The usage of a reply: every count is an integer, and when the
    runtime's counts are numbers the total is the sum of the parts; the
    conversion raises exactly when int() refuses one of the two counts. *)
Theorem usage_normalized usage :
  let prompt := prompt_tokens (usage_dict usage) in
  let completion := completion_tokens (usage_dict usage) in
  match normalize_usage usage with
  | Ok u => exists input output total cached details,
      u = ["input_tokens" :-> PInt input; "input_tokens_details" :-> PDict ["cached_tokens" :-> PInt cached];
           "output_tokens" :-> PInt output; "output_tokens_details" :-> PDict details; "total_tokens" :-> PInt total] /\
      0 <= cached /\ (numeric prompt = true -> numeric completion = true -> total = input + output)
  | Raise e => py_int (py_or prompt (PInt 0)) = Raise e \/ py_int (py_or completion (PInt 0)) = Raise e
  end.
Proof.
  cbn zeta. unfold normalize_usage. set (d := usage_dict usage).
  assert (Hc : 0 <= cached_tokens d).
  { unfold cached_tokens. destruct (py_or _ _) as [| | | | | |e]; try done. destruct (plain_int _); lia. }
  assert (Hz : forall v, numeric v = true -> token_count v = py_int (py_or v (PInt 0))).
  { intros v Hv. unfold token_count. rewrite Hv. unfold py_or.
    destruct v as [|[]|n|[[]|[]| |]| | |]; try done. cbn. by destruct (Z.eqb_spec n 0) as [->|]. }
  assert (Ht : forall v, numeric v = false -> token_count v = Ok 0) by (intros v Hv; unfold token_count; by rewrite Hv).
  destruct (numeric (prompt_tokens d)) eqn:Hp, (numeric (completion_tokens d)) eqn:Hq;
    rewrite ?(Hz (prompt_tokens d) Hp), ?(Hz (completion_tokens d) Hq), ?(Ht (prompt_tokens d) Hp), ?(Ht (completion_tokens d) Hq);
    destruct (py_int (py_or (prompt_tokens d) (PInt 0))) as [p|e]; cbn [mbind result_bind]; auto;
    destruct (py_int (py_or (completion_tokens d) (PInt 0))) as [c|e']; cbn [mbind result_bind]; auto;
    eexists _, _, _, _, _; (split; [reflexivity|split; [done|done]]).
Qed.
End Properties.

(** ** A request *)

Definition demo_body : pydict :=
  ["model" :-> text "local"; "instructions" :-> text "Be brief."; "stream" :-> PBool true;
   "input" :-> PList [PDict ["role" :-> text "developer"; "content" :-> text "Use tools."];
                      PDict ["role" :-> text "user"; "content" :-> PList [PDict ["type" :-> text "input_text"; "text" :-> text "Hi"]]];
                      PDict ["type" :-> text "custom_tool_call"; "call_id" :-> text "c1"; "name" :-> text "run"; "input" :-> text "ls -l"];
                      PDict ["type" :-> text "custom_tool_call_output"; "call_id" :-> text "c1"; "output" :-> text "x"]];
   "tools" :-> PList [PDict ["type" :-> text "function"; "name" :-> text "run"];
                      PDict ["type" :-> text "namespace"; "name" :-> text "fs_";
                             "tools" :-> PList [PDict ["type" :-> text "function"; "name" :-> text "read"]]]];
   "reasoning" :-> PDict ["effort" :-> text "High"]; "max_output_tokens" :-> PInt 64].

Lemma request_translated_witness :
  json_value_ok (PDict demo_body) = true /\
  match responses_to_chat_request (H := ascii_data) demo_body (str "m") false with
  | Ok (chat, _) => chat_request_ok (str "m") chat = true /\ get "reasoning_effort" chat = text "xhigh"
  | Raise _ => False
  end.
Proof.
  assert (Hb : json_value_ok (PDict demo_body) = true) by (by vm_compute).
  pose proof (request_translated (H := ascii_data) demo_body (str "m") false Hb) as Ht.
  assert (E : match responses_to_chat_request (H := ascii_data) demo_body (str "m") false with
              | Ok (chat, _) => get "reasoning_effort" chat = text "xhigh" | Raise _ => False end) by (by vm_compute).
  split; [exact Hb|]. destruct (responses_to_chat_request (H := ascii_data) demo_body (str "m") false) as [[chat context]|e].
  - destruct Ht as [Ht _]. split; [exact Ht|exact E].
  - exact E.
Defined.

Lemma one_leading_system_message_witness :
  exists messages modalities, responses_input_to_chat_messages (H := ascii_data) (get "input" demo_body)
      (get "instructions" demo_body) = Ok (messages, modalities) /\
    map system_role messages = [true; false; false; false] /\
    exists added, messages =
      (if nonempty (join_system_text (instruction_chunks (get "instructions" demo_body) ++ concat (map ad_system added)))
       then [["role" :-> text "system"; "content" :-> PStr (join_system_text
               (instruction_chunks (get "instructions" demo_body) ++ concat (map ad_system added)))]] else [])
      ++ concat (map ad_messages added).
Proof.
  destruct (responses_input_to_chat_messages (H := ascii_data) (get "input" demo_body) (get "instructions" demo_body))
    as [[messages modalities]|e] eqn:E; [|by vm_compute in E].
  exists messages, modalities. split; [reflexivity|].
  destruct (one_leading_system_message (H := ascii_data) _ _ _ _ E) as (added & _ & _ & Hm). split.
  - clear Hm. vm_compute in E. injection E as <- <-. by vm_compute.
  - exists added. exact Hm.
Defined.

Lemma arguments_are_json_witness :
  json_value_ok (text "ls -l") = true /\
  exists t, tool_arguments_payload (text "ls -l") = Ok t /\
    loads default_hooks t = Some (PDict ["input" :-> text "ls -l"]).
Proof.
  assert (Hv : json_value_ok (text "ls -l") = true) by reflexivity. split; [exact Hv|].
  destruct (arguments_are_json (text "ls -l") Hv) as (t & Ht & Hl). exists t. split; [exact Ht|].
  rewrite Hl. by vm_compute.
Defined.

(** The names of a namespace that ends in an underscore are not restored *)
Example nested_name_mangled :
  map (fun tool => match function_name tool with PStr n => chat_tool_name_to_client_name n | _ => [] end)
    (responses_tools_to_chat (H := ascii_data) (get "tools" demo_body)) = [str "run"; str "_read"].
Proof. by vm_compute. Qed.
