(* ===== verification/ResponsesStream.v ===== *)
(** * Streaming the Responses protocol

    [gateway/responses_stream.py] ([ResponsesStreamTranslator]) and the
    generator of [api/gateway.py] that drives it
    ([_translate_responses_stream]).  The translator is an object whose methods
    are programs that record the events they encode; [uuid4().hex] is a function
    of the number of the call, and [json.loads] of bytes is a parameter. *)
From Stdlib Require Import ZArith Lia Bool String.
From stdpp Require Import prelude gmap.
From S2P Require Import Prelude PyValue PyFloat Utf8 Json Sse PyText Responses Traced.
Open Scope Z_scope.
Open Scope dict_scope.

(** ** The object *)

Inductive item_kind := Reasoning | Message | Function.

(** [_ItemState] *)
Record item_state := mkItem {
  it_index : nat;
  it_id : pystr;
  it_kind : item_kind;
  it_text : pystr;
  it_call_id : pystr;
  it_name : pystr;
  it_arguments : pystr;
}.

Definition new_item (index : nat) (id : pystr) (kind : item_kind) : item_state := mkItem index id kind [] [] [] [].

(** [ResponsesStreamTranslator]; the fields that never change are parameters *)
Record translator := mkTranslator {
  tr_sequence : nat;
  tr_next_index : nat;
  tr_reasoning : option item_state;
  tr_message : option item_state;
  tr_tool_calls : gmap Z item_state;
  tr_tool_order : list Z;
  tr_usage : pydict;
  tr_finish_reason : pystr;
  tr_completed : bool;
}.

Definition new_translator : translator := mkTranslator 0 0 None None ∅ [] [] [] false.

Definition set_sequence n s := mkTranslator n (tr_next_index s) (tr_reasoning s) (tr_message s) (tr_tool_calls s)
  (tr_tool_order s) (tr_usage s) (tr_finish_reason s) (tr_completed s).
Definition set_next_index n s := mkTranslator (tr_sequence s) n (tr_reasoning s) (tr_message s) (tr_tool_calls s)
  (tr_tool_order s) (tr_usage s) (tr_finish_reason s) (tr_completed s).
Definition set_reasoning it s := mkTranslator (tr_sequence s) (tr_next_index s) (Some it) (tr_message s) (tr_tool_calls s)
  (tr_tool_order s) (tr_usage s) (tr_finish_reason s) (tr_completed s).
Definition set_message it s := mkTranslator (tr_sequence s) (tr_next_index s) (tr_reasoning s) (Some it) (tr_tool_calls s)
  (tr_tool_order s) (tr_usage s) (tr_finish_reason s) (tr_completed s).
Definition set_tools calls order s := mkTranslator (tr_sequence s) (tr_next_index s) (tr_reasoning s) (tr_message s) calls
  order (tr_usage s) (tr_finish_reason s) (tr_completed s).
Definition set_usage u s := mkTranslator (tr_sequence s) (tr_next_index s) (tr_reasoning s) (tr_message s) (tr_tool_calls s)
  (tr_tool_order s) u (tr_finish_reason s) (tr_completed s).
Definition set_finish_reason r s := mkTranslator (tr_sequence s) (tr_next_index s) (tr_reasoning s) (tr_message s)
  (tr_tool_calls s) (tr_tool_order s) (tr_usage s) r (tr_completed s).
Definition set_completed s := mkTranslator (tr_sequence s) (tr_next_index s) (tr_reasoning s) (tr_message s)
  (tr_tool_calls s) (tr_tool_order s) (tr_usage s) (tr_finish_reason s) true.

Definition add_text t it := mkItem (it_index it) (it_id it) (it_kind it) (it_text it ++ t) (it_call_id it) (it_name it)
  (it_arguments it).
Definition set_call_id c it := mkItem (it_index it) (it_id it) (it_kind it) (it_text it) c (it_name it) (it_arguments it).
Definition set_name n it := mkItem (it_index it) (it_id it) (it_kind it) (it_text it) (it_call_id it) n (it_arguments it).
Definition add_arguments t it := mkItem (it_index it) (it_id it) (it_kind it) (it_text it) (it_call_id it) (it_name it)
  (it_arguments it ++ t).

(** ** Events *)

Inductive event_type :=
  | Created | InProgress | ItemAdded | SummaryPartAdded | ContentPartAdded
  | SummaryDelta | TextDelta | ArgumentsDelta
  | SummaryDone | SummaryPartDone | TextDone | ContentPartDone | ArgumentsDone | ItemDone
  | Completed.

Definition event_name (t : event_type) : pystr :=
  str match t with
      | Created => "response.created"
      | InProgress => "response.in_progress"
      | ItemAdded => "response.output_item.added"
      | SummaryPartAdded => "response.reasoning_summary_part.added"
      | ContentPartAdded => "response.content_part.added"
      | SummaryDelta => "response.reasoning_summary_text.delta"
      | TextDelta => "response.output_text.delta"
      | ArgumentsDelta => "response.function_call_arguments.delta"
      | SummaryDone => "response.reasoning_summary_text.done"
      | SummaryPartDone => "response.reasoning_summary_part.done"
      | TextDone => "response.output_text.done"
      | ContentPartDone => "response.content_part.done"
      | ArgumentsDone => "response.function_call_arguments.done"
      | ItemDone => "response.output_item.done"
      | Completed => "response.completed"
      end.

Definition event := (event_type * pydict)%type.

(** The frame of an event *)
Definition encode (e : event) : result bytes := sse_event (event_name (fst e), snd e).

(** What a program records: the events it encodes and the frames that the
    generator yields *)
Inductive record := Emitted (e : event) | Yielded (frame : bytes).

Definition prog := tprogram translator record nat.
Definition no_frames : prog (list bytes) := mret [].

Section Translator.
Context `{UnicodeData}.
Variable uuid_hex : nat -> pystr.
Variable model response_id : pystr.
Variable created_at : Z.

(** [_new_id] *)
Definition draw_id (prefix : string) : prog pystr := ask (fun n => (new_id uuid_hex prefix n, S n)).

Definition base_response (status : string) (output : list pyval) (s : translator) : result pydict :=
  usage ← (if String.eqb status "completed" then PDict <$> normalize_usage (PDict (tr_usage s)) else Ok PNone);
  Ok ["id" :-> PStr response_id; "object" :-> text "response"; "created_at" :-> PInt created_at; "status" :-> text status;
      "model" :-> PStr model; "output" :-> PList output; "parallel_tool_calls" :-> PBool true; "tool_choice" :-> text "auto";
      "tools" :-> PList []; "usage" :-> usage].

(** [payload.setdefault("sequence_number", self.sequence)] *)
Definition numbered (n : nat) (payload : pydict) : pydict :=
  if has "sequence_number" payload then payload else payload ++ ["sequence_number" :-> PInt (Z.of_nat n)].

Definition emit (t : event_type) (payload : pydict) : prog bytes :=
  s ← get_state;
  update (set_sequence (S (tr_sequence s)));;
  frame ← lift (encode (t, numbered (tr_sequence s) payload));
  log (Emitted (t, numbered (tr_sequence s) payload));;
  mret frame.

(** A list display of frames: each is emitted in turn *)
Fixpoint emit_all (l : list (event_type * pydict)) : prog (list bytes) :=
  match l with
  | [] => no_frames
  | (t, payload) :: rest => frame ← emit t payload; more ← emit_all rest; mret (frame :: more)
  end.

Definition start : prog (list bytes) :=
  s ← get_state;
  created ← lift (base_response "in_progress" [] s);
  a ← emit Created ["response" :-> PDict created];
  s ← get_state;
  in_progress ← lift (base_response "in_progress" [] s);
  b ← emit InProgress ["response" :-> PDict in_progress];
  mret [a; b].

Definition index_value (it : item_state) : pyval := PInt (Z.of_nat (it_index it)).

Definition ensure_reasoning : prog (list bytes) :=
  s ← get_state;
  match tr_reasoning s with
  | Some _ => no_frames
  | None =>
      id ← draw_id "rs";
      let it := new_item (tr_next_index s) id Reasoning in
      update (fun s => set_reasoning it (set_next_index (S (tr_next_index s)) s));;
      emit_all [(ItemAdded, ["output_index" :-> index_value it;
                   "item" :-> PDict ["type" :-> text "reasoning"; "id" :-> PStr id; "summary" :-> PList []; "content" :-> PList []]]);
                (SummaryPartAdded, ["item_id" :-> PStr id; "output_index" :-> index_value it; "summary_index" :-> PInt 0;
                   "part" :-> reasoning_summary_part []])]
  end.

Definition ensure_message : prog (list bytes) :=
  s ← get_state;
  match tr_message s with
  | Some _ => no_frames
  | None =>
      id ← draw_id "msg";
      let it := new_item (tr_next_index s) id Message in
      update (fun s => set_message it (set_next_index (S (tr_next_index s)) s));;
      emit_all [(ItemAdded, ["output_index" :-> index_value it;
                   "item" :-> PDict ["type" :-> text "message"; "id" :-> PStr id; "role" :-> text "assistant";
                                     "status" :-> text "in_progress"; "content" :-> PList []]]);
                (ContentPartAdded, ["item_id" :-> PStr id; "output_index" :-> index_value it; "content_index" :-> PInt 0;
                   "part" :-> output_text_part []])]
  end.

Definition ensure_tool_call (key : Z) (call_id name : pystr) : prog (list bytes) :=
  s ← get_state;
  match tr_tool_calls s !! key with
  | Some _ => no_frames
  | None =>
      id ← draw_id "fc";
      call_id ← (match call_id with [] => draw_id "call" | _ => mret call_id end : prog pystr);
      let it := set_name (chat_tool_name_to_client_name name) (set_call_id call_id (new_item (tr_next_index s) id Function)) in
      update (fun s => set_tools (<[key := it]> (tr_tool_calls s)) (tr_tool_order s ++ [key])
                         (set_next_index (S (tr_next_index s)) s));;
      emit_all [(ItemAdded, ["output_index" :-> index_value it;
                   "item" :-> PDict ["type" :-> text "function_call"; "id" :-> PStr id; "call_id" :-> PStr (it_call_id it);
                                     "name" :-> PStr (it_name it); "arguments" :-> PStr []; "status" :-> text "in_progress"]])]
  end.

(** ** A chunk *)

Definition assertion_failed {A} : prog A := raise (OtherException (str "assertion failed")).

Definition feed_reasoning (reasoning : pystr) : prog (list bytes) :=
  match reasoning with
  | [] => no_frames
  | _ =>
      opened ← ensure_reasoning;
      s ← get_state;
      match tr_reasoning s with
      | None => assertion_failed
      | Some it =>
          update (set_reasoning (add_text reasoning it));;
          delta ← emit_all [(SummaryDelta, ["item_id" :-> PStr (it_id it); "output_index" :-> index_value it;
                               "summary_index" :-> PInt 0; "delta" :-> PStr reasoning])];
          mret (opened ++ delta)
      end
  end.

Definition feed_content (content : pystr) : prog (list bytes) :=
  match content with
  | [] => no_frames
  | _ =>
      opened ← ensure_message;
      s ← get_state;
      match tr_message s with
      | None => assertion_failed
      | Some it =>
          update (set_message (add_text content it));;
          delta ← emit_all [(TextDelta, ["item_id" :-> PStr (it_id it); "output_index" :-> index_value it;
                               "content_index" :-> PInt 0; "delta" :-> PStr content])];
          mret (opened ++ delta)
      end
  end.

(** The key of a tool call: its index, or the number of calls so far *)
Definition call_key (call : pydict) (s : translator) : Z :=
  match isinstance_int (get "index" call) with Some k => k | None => zlen (tr_tool_order s) end.

Definition call_function (call : pydict) : pydict := match get "function" call with PDict f => f | _ => [] end.

(** The late updates of an item from a further piece of its call *)
Definition update_call (call : pydict) (it : item_state) : item_state :=
  let it := if truthy (get "id" call) && negb (nonempty (it_call_id it)) then set_call_id (py_str (get "id" call)) it else it in
  match get "name" (call_function call) with
  | PStr (c :: name) => if negb (nonempty (it_name it)) then set_name (chat_tool_name_to_client_name (c :: name)) it else it
  | _ => it
  end.

Definition feed_call (call : pydict) : prog (list bytes) :=
  s ← get_state;
  let key := call_key call s in
  let function := call_function call in
  opened ← ensure_tool_call key (str_or_empty (get "id" call)) (str_or_empty (get "name" function));
  s ← get_state;
  match tr_tool_calls s !! key with
  | None => raise (KeyError (dec key))
  | Some it =>
      let it := update_call call it in
      match get "arguments" function with
      | PStr (c :: arguments) =>
          update (fun s => set_tools (<[key := add_arguments (c :: arguments) it]> (tr_tool_calls s)) (tr_tool_order s) s);;
          delta ← emit_all [(ArgumentsDelta, ["item_id" :-> PStr (it_id it); "output_index" :-> index_value it;
                               "delta" :-> PStr (c :: arguments)])];
          mret (opened ++ delta)
      | _ =>
          update (fun s => set_tools (<[key := it]> (tr_tool_calls s)) (tr_tool_order s) s);;
          mret opened
      end
  end.

Fixpoint feed_calls (calls : list pyval) : prog (list bytes) :=
  match calls with
  | [] => no_frames
  | PDict call :: rest => frames ← feed_call call; more ← feed_calls rest; mret (frames ++ more)
  | _ :: rest => feed_calls rest
  end.

(** The first choice of a chunk *)
Definition chunk_choice (chunk : pydict) : option pydict :=
  match get "choices" chunk with PList (PDict choice :: _) => Some choice | _ => None end.

Definition feed_delta (delta : pyval) : prog (list bytes) :=
  match delta with
  | PDict d =>
      a ← feed_reasoning (extract_reasoning_text d);
      b ← feed_content (content_text (get "content" d));
      c ← (match get "tool_calls" d with PList calls => feed_calls calls | _ => no_frames end);
      mret (a ++ b ++ c)
  | _ => no_frames
  end.

Definition feed (chunk : pydict) : prog (list bytes) :=
  update (match get "usage" chunk with PDict u => set_usage u | _ => id end);;
  match chunk_choice chunk with
  | None => no_frames
  | Some choice =>
      frames ← feed_delta (get "delta" choice);
      update (match get "finish_reason" choice with PStr (c :: r) => set_finish_reason (c :: r) | _ => id end);;
      mret frames
  end.

(** ** The end *)

Definition item_ref (it : item_state) : pydict := ["item_id" :-> PStr (it_id it); "output_index" :-> index_value it].

Definition item_done (it : item_state) (item : pyval) : event_type * pydict :=
  (ItemDone, ["output_index" :-> index_value it; "item" :-> item]).

(** The item of the finished response *)
Definition final_item (it : item_state) : pyval :=
  match it_kind it with
  | Reasoning => reasoning_item (it_id it) (it_text it)
  | Message => message_item (it_id it) (it_text it)
  | Function => function_call_item (it_id it) (mkCall (it_call_id it) (it_name it) (it_arguments it))
  end.

Definition closing_events (it : item_state) : list (event_type * pydict) :=
  match it_kind it with
  | Reasoning =>
      [(SummaryDone, item_ref it ++ ["summary_index" :-> PInt 0; "text" :-> PStr (it_text it)]);
       (SummaryPartDone, item_ref it ++ ["summary_index" :-> PInt 0; "part" :-> reasoning_summary_part (it_text it)]);
       item_done it (final_item it)]
  | Message =>
      [(TextDone, item_ref it ++ ["content_index" :-> PInt 0; "text" :-> PStr (it_text it)]);
       (ContentPartDone, item_ref it ++ ["content_index" :-> PInt 0; "part" :-> output_text_part (it_text it)]);
       item_done it (final_item it)]
  | Function =>
      [(ArgumentsDone, item_ref it ++ ["arguments" :-> PStr (it_arguments it)]); item_done it (final_item it)]
  end.

(** Closing the items one after the other, with the output they make *)
Fixpoint close_items (items : list item_state) : prog (list bytes * list pyval) :=
  match items with
  | [] => mret ([], [])
  | it :: rest =>
      frames ← emit_all (closing_events it);
      '(more, output) ← close_items rest;
      mret (frames ++ more, final_item it :: output)
  end.

Fixpoint close_calls (order : list Z) : prog (list bytes * list pyval) :=
  match order with
  | [] => mret ([], [])
  | key :: rest =>
      s ← get_state;
      match tr_tool_calls s !! key with
      | None => raise (KeyError (dec key))
      | Some it =>
          '(frames, item) ← close_items [it];
          '(more, output) ← close_calls rest;
          mret (frames ++ more, item ++ output)
      end
  end.

Definition finish : prog (list bytes) :=
  s ← get_state;
  if tr_completed s then no_frames
  else
    update set_completed;;
    '(a, reasoning) ← close_items (option_list (tr_reasoning s));
    '(b, message) ← close_items (option_list (tr_message s));
    '(c, calls) ← close_calls (tr_tool_order s);
    s ← get_state;
    let status := if str_eqb (tr_finish_reason s) (str "length") then "incomplete"%string else "completed"%string in
    response ← lift (base_response status (reasoning ++ message ++ calls) s);
    d ← emit_all [(Completed, ["response" :-> PDict response])];
    mret (a ++ b ++ c ++ d).

(** ** The generator *)

(** The translator of a request and the scanner that meters its stream *)
Record stream := mkStream { st_translator : translator; st_scanner : scanner }.

Definition sprog := tprogram stream record nat.

Definition in_translator {A} (m : prog A) : sprog A := fun w =>
  let '(r, w') := m (mkWorld (st_translator (state w)) (env w) (trace w)) in
  (r, mkWorld (mkStream (state w') (st_scanner (state w))) (env w') (trace w')).

Definition yield_frames (frames : list bytes) : sprog unit := fun w =>
  (Ok tt, mkWorld (state w) (env w) (trace w ++ map Yielded frames)).

Section Reading.
Variable json_loads : bytes -> result pyval.

(** [on_raw_chunk], which is [scanner.feed] *)
Definition on_raw_chunk (chunk : bytes) : sprog unit := fun w =>
  let '(scanner, r) := scanner_feed json_loads (st_scanner (state w)) chunk in
  (r, mkWorld (mkStream (st_translator (state w)) scanner) (env w) (trace w)).

Fixpoint feed_events (events : list pydict) : sprog unit :=
  match events with
  | [] => mret tt
  | event :: rest => frames ← in_translator (feed event); yield_frames frames;; feed_events rest
  end.

(** The loop over the chunks; it returns the buffer *)
Fixpoint read_stream (buffer : bytes) (chunks : list bytes) : sprog bytes :=
  match chunks with
  | [] => mret buffer
  | chunk :: rest =>
      on_raw_chunk chunk;;
      '(events, buffer) ← lift (parse_chat_sse_frames json_loads (buffer ++ chunk));
      feed_events events;;
      read_stream buffer rest
  end.

Definition DONE_FRAME : bytes := str "data: [DONE]" ++ [10; 10].

(** The end of the upstream: an event without its blank line is completed *)
Definition flush (buffer : bytes) : sprog unit :=
  match strip_with ascii_space buffer with
  | [] => mret tt
  | _ =>
      '(events, _) ← lift (parse_chat_sse_frames json_loads (buffer ++ LF2));
      feed_events events
  end.

Definition translate_responses_stream (chunks : list bytes) : sprog unit :=
  frames ← in_translator start;
  yield_frames frames;;
  buffer ← read_stream [] chunks;
  flush buffer;;
  frames ← in_translator finish;
  yield_frames (frames ++ [DONE_FRAME]).
End Reading.
End Translator.
