(* ===== verification/ResponsesProtocol.v ===== *)
(** * The Responses protocol

    What a client of the event stream may rely on, as an abstract machine over
    events ([lifecycle]), and the proof that the translator and the generator of
    ResponsesStream implement it: a simulation between the translator's fields
    and the machine's slots ([related]), carried through every method by
    [runs]. *)
From Stdlib Require Import ZArith Lia Bool String.
From stdpp Require Import prelude gmap.
From S2P Require Import Prelude PyValue PyFloat Utf8 Json Sse PyText Responses Traced ResponsesStream.
Open Scope Z_scope.
Open Scope dict_scope.

(** ** The protocol: what a client may rely on

    An abstract machine that reads events and knows nothing of the translator:
    sequence numbers count up from 0; the response is announced, then items are
    added with increasing indices; text arrives in deltas of an open part; the
    text of a finished item is the concatenation of its deltas; the response is
    completed when every item is finished, lists each of them, and nothing
    comes after it. *)

Inductive action :=
  | Begin (first : bool)
  | Add (index : Z) (kind : item_kind) (id : pystr)
  | OpenPart (kind : item_kind) (index : Z) (id : pystr)
  | Delta (kind : item_kind) (index : Z) (id t : pystr)
  | EndText (kind : item_kind) (index : Z) (id t : pystr)
  | EndPart (kind : item_kind) (index : Z) (id t : pystr)
  | EndItem (index : Z) (item : item_kind * pystr * pystr)
  | End (output : list (item_kind * pystr * pystr)).

(** The text of a list of parts: none, or one with a text *)
Definition parts_text (v : pyval) : option pystr :=
  match v with
  | PList [] => Some []
  | PList [PDict p] => as_str (get "text" p)
  | _ => None
  end.

Definition read_item (v : pyval) : option (item_kind * pystr * pystr) :=
  d ← as_dict v;
  id ← as_str (get "id" d);
  ty ← as_str (get "type" d);
  if str_eqb ty (str "reasoning") then t ← parts_text (get "summary" d); Some (Reasoning, id, t)
  else if str_eqb ty (str "message") then t ← parts_text (get "content" d); Some (Message, id, t)
  else if str_eqb ty (str "function_call") then t ← as_str (get "arguments" d); Some (Function, id, t)
  else None.

Definition read_ref (f : item_kind -> Z -> pystr -> pystr -> action) (kind : item_kind) (t : option pystr) (p : pydict) :
    option action :=
  i ← as_int (get "output_index" p);
  id ← as_str (get "item_id" p);
  t ← t;
  Some (f kind i id t).

Definition read_part (p : pydict) : option pystr := d ← as_dict (get "part" p); as_str (get "text" d).

Definition read_action (t : event_type) (p : pydict) : option action :=
  match t with
  | Created => Some (Begin true)
  | InProgress => Some (Begin false)
  | ItemAdded =>
      i ← as_int (get "output_index" p);
      '(kind, id, t) ← read_item (get "item" p);
      match t with [] => Some (Add i kind id) | _ => None end
  | SummaryPartAdded => read_ref (fun k i id _ => OpenPart k i id) Reasoning (Some []) p
  | ContentPartAdded => read_ref (fun k i id _ => OpenPart k i id) Message (Some []) p
  | SummaryDelta => read_ref Delta Reasoning (as_str (get "delta" p)) p
  | TextDelta => read_ref Delta Message (as_str (get "delta" p)) p
  | ArgumentsDelta => read_ref Delta Function (as_str (get "delta" p)) p
  | SummaryDone => read_ref EndText Reasoning (as_str (get "text" p)) p
  | TextDone => read_ref EndText Message (as_str (get "text" p)) p
  | ArgumentsDone => read_ref EndText Function (as_str (get "arguments" p)) p
  | SummaryPartDone => read_ref EndPart Reasoning (read_part p) p
  | ContentPartDone => read_ref EndPart Message (read_part p) p
  | ItemDone => i ← as_int (get "output_index" p); item ← read_item (get "item" p); Some (EndItem i item)
  | Completed =>
      r ← as_dict (get "response" p);
      output ← as_list (get "output" r);
      End <$> mapM read_item output
  end.

Definition read_event (e : event) : option (Z * action) :=
  n ← as_int (get "sequence_number" (snd e));
  a ← read_action (fst e) (snd e);
  Some (n, a).

Inductive phase := Opened | Streaming | TextEnded | PartEnded | Closed.

#[export] Instance item_kind_eq : EqDecision item_kind.
Proof. solve_decision. Defined.
#[export] Instance phase_eq : EqDecision phase.
Proof. solve_decision. Defined.

Record slot := mkSlot { sl_kind : item_kind; sl_id : pystr; sl_text : pystr; sl_phase : phase }.

Record lifecycle := mkLifecycle { lc_sequence : nat; lc_slots : list slot; lc_completed : bool }.

Definition new_lifecycle : lifecycle := mkLifecycle 0 [] false.

(** A function call has no parts *)
Definition first_phase (kind : item_kind) : phase := match kind with Function => Streaming | _ => Opened end.
Definition last_phase (kind : item_kind) : phase := match kind with Function => TextEnded | _ => PartEnded end.

(** A change of the item at an index, which must be the one the event names,
    in the phase that allows the event *)
Definition at_slot (slots : list slot) (kind : item_kind) (index : Z) (id : pystr) (ph : phase) (change : slot -> option slot) :
    option (list slot) :=
  sl ← slots !! Z.to_nat index;
  if (0 <=? index) && bool_decide (sl_kind sl = kind) && str_eqb (sl_id sl) id && bool_decide (sl_phase sl = ph)
  then sl' ← change sl; Some (<[Z.to_nat index := sl']> slots)
  else None.

Definition set_phase (ph : phase) (sl : slot) : slot := mkSlot (sl_kind sl) (sl_id sl) (sl_text sl) ph.

(** The end of a text must repeat it *)
Definition end_with (t : pystr) (ph : phase) (sl : slot) : option slot :=
  if str_eqb (sl_text sl) t then Some (set_phase ph sl) else None.

Definition listed (output : list (item_kind * pystr * pystr)) (sl : slot) : bool :=
  bool_decide (sl_phase sl = Closed) && bool_decide ((sl_kind sl, sl_id sl, sl_text sl) ∈ output).

Definition slots_step (sequence : nat) (slots : list slot) (a : action) : option (list slot) :=
  match a with
  | Begin first => if (sequence =? (if first then 0 else 1))%nat then Some slots else None
  | _ =>
      if (sequence <? 2)%nat then None else
      match a with
      | Begin _ => None
      | Add i kind id => if i =? zlen slots then Some (slots ++ [mkSlot kind id [] (first_phase kind)]) else None
      | OpenPart kind i id => at_slot slots kind i id Opened (fun sl => Some (set_phase Streaming sl))
      | Delta kind i id t =>
          at_slot slots kind i id Streaming
            (fun sl => match t with [] => None | _ => Some (mkSlot (sl_kind sl) (sl_id sl) (sl_text sl ++ t) Streaming) end)
      | EndText kind i id t => at_slot slots kind i id Streaming (end_with t TextEnded)
      | EndPart kind i id t => at_slot slots kind i id TextEnded (end_with t PartEnded)
      | EndItem i (kind, id, t) => at_slot slots kind i id (last_phase kind) (end_with t Closed)
      | End output => if (length output =? length slots)%nat && forallb (listed output) slots then Some slots else None
      end
  end.

Definition is_end (a : action) : bool := match a with End _ => true | _ => false end.

Definition lifecycle_step (sp : lifecycle) (e : event) : option lifecycle :=
  '(n, a) ← read_event e;
  if lc_completed sp || negb (n =? Z.of_nat (lc_sequence sp)) then None
  else slots ← slots_step (lc_sequence sp) (lc_slots sp) a; Some (mkLifecycle (S (lc_sequence sp)) slots (is_end a)).

Fixpoint lifecycle_run (sp : lifecycle) (events : list event) : option lifecycle :=
  match events with
  | [] => Some sp
  | e :: rest => sp' ← lifecycle_step sp e; lifecycle_run sp' rest
  end.

Lemma lifecycle_run_app sp a b : lifecycle_run sp (a ++ b) = lifecycle_run sp a ≫= fun sp' => lifecycle_run sp' b.
Proof. revert sp. induction a as [|e a IH]; intros sp; cbn; [done|]. destruct (lifecycle_step sp e); cbn; [apply IH|done]. Qed.

(** ** The translator against the protocol *)

Definition item_body (it : item_state) : pystr := match it_kind it with Function => it_arguments it | _ => it_text it end.
Definition slot_of (ph : phase) (it : item_state) : slot := mkSlot (it_kind it) (it_id it) (item_body it) ph.

(** Where the translator keeps an item *)
Inductive place := ReasoningPlace | MessagePlace | CallPlace (key : Z).

#[export] Instance place_eq : EqDecision place.
Proof. solve_decision. Defined.

Definition place_kind (o : place) : item_kind :=
  match o with ReasoningPlace => Reasoning | MessagePlace => Message | CallPlace _ => Function end.

Definition item_at (s : translator) (o : place) : option item_state :=
  match o with
  | ReasoningPlace => tr_reasoning s
  | MessagePlace => tr_message s
  | CallPlace key => tr_tool_calls s !! key
  end.

Definition put_item (o : place) (it : item_state) (s : translator) : translator :=
  match o with
  | ReasoningPlace => set_reasoning it s
  | MessagePlace => set_message it s
  | CallPlace key =>
      set_tools (<[key := it]> (tr_tool_calls s))
        (match tr_tool_calls s !! key with Some _ => tr_tool_order s | None => tr_tool_order s ++ [key] end) s
  end.

Definition holds (slots : list slot) (kind : item_kind) (ph : phase) (it : item_state) : Prop :=
  it_kind it = kind /\ slots !! it_index it = Some (slot_of ph it).

(** The items of the translator are the slots, each open *)
Record related (s : translator) (slots : list slot) : Prop := {
  rel_next : tr_next_index s = length slots;
  rel_holds : forall o it, item_at s o = Some it -> holds slots (place_kind o) Streaming it;
  rel_owned : forall i sl, slots !! i = Some sl -> exists o it, item_at s o = Some it /\ it_index it = i;
  rel_injective : forall o o' it it', item_at s o = Some it -> item_at s o' = Some it' -> it_index it = it_index it' -> o = o';
  rel_order : NoDup (tr_tool_order s) /\ forall k, k ∈ tr_tool_order s <-> is_Some (tr_tool_calls s !! k);
  rel_open : tr_completed s = false;
}.

Definition tracks (s : translator) (sp : lifecycle) : Prop :=
  tr_sequence s = lc_sequence sp /\ lc_completed sp = false /\ (2 <= lc_sequence sp)%nat /\ related s (lc_slots sp).

(** [runs acc fr m Pre Post]: from related states, [m] records events that the
    protocol allows; when it returns, what it returns ends in their frames *)
Section Runs.
Context {A : Type}.
Definition runs (acc : list bytes) (fr : A -> list bytes) (m : prog A) (Pre : translator -> lifecycle -> Prop)
    (Post : A -> translator -> lifecycle -> Prop) : Prop :=
  forall w sp, Pre (state w) sp ->
    wp m (fun r w' => exists evs sp', trace w' = trace w ++ map Emitted evs /\ lifecycle_run sp evs = Some sp' /\
      match r with
      | Ok a => exists frames, mapM_result encode evs = Ok frames /\ fr a = acc ++ frames /\ Post a (state w') sp'
      | Raise _ => True
      end) w.
End Runs.

Lemma mapM_result_app {A B} (f : A -> result B) l k x y :
  mapM_result f l = Ok x -> mapM_result f k = Ok y -> mapM_result f (l ++ k) = Ok (x ++ y).
Proof.
  revert x. induction l as [|a l IH]; intros x; cbn; [by intros [= <-]|].
  destruct (f a); [|done]. destruct (mapM_result f l) as [z|]; [|done]. intros [= <-] Hk. by rewrite (IH z eq_refl Hk).
Qed.

Lemma runs_bind {A B} acc fr fr' (m : prog A) (f : A -> prog B) Pre Mid Post :
  runs [] fr m Pre Mid -> (forall a, runs (acc ++ fr a) fr' (f a) (Mid a) Post) -> runs acc fr' (m ≫= f) Pre Post.
Proof.
  intros Hm Hf w sp Hp. apply wp_bind. eapply wp_mono; [|apply (Hm w sp Hp)]. intros [a|e] w' (evs & sp' & Ht & Hr & HQ).
  - destruct HQ as (frames & Hfr & Ea & Hq). eapply wp_mono; [|apply (Hf a w' sp' Hq)].
    intros r w2 (evs2 & sp2 & Ht2 & Hr2 & HQ2). exists (evs ++ evs2), sp2. split; [by rewrite Ht2, Ht, map_app, app_assoc|].
    split; [by rewrite lifecycle_run_app, Hr|]. destruct r as [b|e]; [|done]. destruct HQ2 as (frames2 & Hfr2 & Eb & Hq2).
    exists (frames ++ frames2). split; [by eapply mapM_result_app|]. split; [|done]. by rewrite Eb, Ea, <- app_assoc.
  - by exists evs, sp'.
Qed.

Lemma runs_ret {A} acc fr (a : A) (Pre : translator -> lifecycle -> Prop) Post :
  fr a = acc -> (forall s sp, Pre s sp -> Post a s sp) -> runs acc fr (mret a) Pre Post.
Proof.
  intros Hfr HP w sp Hp. apply wp_ret. exists [], sp. cbn. rewrite app_nil_r. split; [done|]. split; [done|].
  exists []. rewrite app_nil_r. auto.
Qed.

Lemma runs_get {B} acc fr' (f : translator -> prog B) Pre Post :
  (forall s0, runs acc fr' (f s0) (fun s sp => s = s0 /\ Pre s sp) Post) -> runs acc fr' (get_state ≫= f) Pre Post.
Proof. intros Hf w sp Hp. apply wp_bind. apply (Hf (state w) w sp). done. Qed.

Lemma runs_update {B} acc fr' g (f : unit -> prog B) (Pre Mid : translator -> lifecycle -> Prop) Post :
  (forall s sp, Pre s sp -> Mid (g s) sp) -> runs acc fr' (f tt) Mid Post -> runs acc fr' (update g ≫= f) Pre Post.
Proof. intros Hg Hf w sp Hp. apply wp_bind. apply (Hf (mkWorld (g (state w)) (env w) (trace w)) sp). by apply Hg. Qed.

Lemma runs_ask {A B} acc fr' q (f : A -> prog B) Pre Post :
  (forall a, runs acc fr' (f a) Pre Post) -> runs acc fr' (ask q ≫= f) Pre Post.
Proof.
  intros Hf w sp Hp. apply wp_bind. apply wp_ask. intros a e _. apply (Hf a (mkWorld (state w) e (trace w)) sp). exact Hp.
Qed.

Lemma runs_lift {A B} acc fr' (r : result A) (f : A -> prog B) Pre Post :
  (forall a, r = Ok a -> runs acc fr' (f a) Pre Post) -> runs acc fr' (lift r ≫= f) Pre Post.
Proof.
  intros Hf w sp Hp. apply wp_bind, wp_lift. destruct r as [a|e]; [by apply Hf|]. exists [], sp. cbn. by rewrite app_nil_r.
Qed.

Lemma runs_raise {A} acc fr e (Pre : translator -> lifecycle -> Prop) (Post : A -> translator -> lifecycle -> Prop) :
  runs acc fr (raise e) Pre Post.
Proof. intros w sp Hp. exists [], sp. cbn. by rewrite app_nil_r. Qed.

Lemma runs_pre {A} acc fr (m : prog A) (Pre Pre' : translator -> lifecycle -> Prop) Post :
  (forall s sp, Pre s sp -> Pre' s sp) -> runs acc fr m Pre' Post -> runs acc fr m Pre Post.
Proof. intros HP Hm w sp Hp. by apply Hm, HP. Qed.

(** A fact that the precondition gives *)
Lemma runs_fact {A} (P : Prop) acc fr (m : prog A) (Pre : translator -> lifecycle -> Prop) Post :
  (forall s sp, Pre s sp -> P) -> (P -> runs acc fr m Pre Post) -> runs acc fr m Pre Post.
Proof. intros HP Hm w sp Hp. exact (Hm (HP _ _ Hp) w sp Hp). Qed.

Lemma runs_emit t payload (Pre : translator -> lifecycle -> Prop) Post :
  (forall s sp, Pre s sp -> exists sp', lifecycle_step sp (t, numbered (tr_sequence s) payload) = Some sp' /\
     forall frame, Post frame (set_sequence (S (tr_sequence s)) s) sp') ->
  runs [] (fun frame => [frame]) (emit t payload) Pre Post.
Proof.
  intros HP w sp Hp. destruct (HP _ _ Hp) as (sp' & Hs & HQ). unfold emit, wp, get_state, update, lift, log, mbind, program_bind, mret, program_ret.
  cbn [fst snd state env trace]. destruct (encode _) as [frame|e] eqn:E; cbn [fst snd state env trace].
  - exists [(t, numbered (tr_sequence (state w)) payload)], sp'. split; [done|]. cbn [lifecycle_run]. rewrite Hs. split; [done|].
    exists [frame]. cbn [mapM_result]. rewrite E. auto.
  - exists [], sp. cbn. by rewrite app_nil_r.
Qed.

(** Several events in turn, with the numbers they get *)
Fixpoint number_all (n : nat) (l : list (event_type * pydict)) : list event :=
  match l with
  | [] => []
  | (t, payload) :: rest => (t, numbered n payload) :: number_all (S n) rest
  end.

Lemma runs_emit_all l : forall (Pre : translator -> lifecycle -> Prop) Post,
  (forall s sp, Pre s sp -> exists sp', lifecycle_run sp (number_all (tr_sequence s) l) = Some sp' /\
     forall frames, Post frames (set_sequence (tr_sequence s + length l) s) sp') ->
  runs [] id (emit_all l) Pre Post.
Proof.
  induction l as [|[t payload] l IH]; intros Pre Post HP; cbn [emit_all].
  - apply runs_ret; [done|]. intros s sp (sp' & [= <-] & HQ)%HP. cbn in HQ. specialize (HQ []).
    rewrite Nat.add_0_r in HQ. by destruct s.
  - eapply (runs_bind _ _ _ _ _ _ (fun frame s sp => exists sp',
      lifecycle_run sp (number_all (tr_sequence s) l) = Some sp' /\
      forall frames, Post frames (set_sequence (tr_sequence s + length l) s) sp')).
    + apply runs_emit. intros s sp (sp' & Hr & HQ)%HP. cbn [number_all lifecycle_run] in Hr.
      destruct (lifecycle_step sp (t, numbered (tr_sequence s) payload)) as [sp1|]; [|done]. exists sp1. split; [done|].
      intros _. exists sp'. split; [exact Hr|].
      intros frames. specialize (HQ frames). cbn [length] in HQ. rewrite Nat.add_succ_r in HQ. exact HQ.
    + intros frame. eapply (runs_bind _ id _ _ _ _ (fun more s sp => forall frames, Post frames s sp)).
      * apply IH. intros s sp (sp' & Hr & HQ). exists sp'. split; [done|]. intros _. exact HQ.
      * intros more. apply runs_ret; [done|]. auto.
Qed.

(** ** Single events *)

Lemma step_eq sp e n a : read_event e = Some (Z.of_nat n, a) -> n = lc_sequence sp -> lc_completed sp = false ->
  lifecycle_step sp e =
    slots ← slots_step (lc_sequence sp) (lc_slots sp) a; Some (mkLifecycle (S (lc_sequence sp)) slots (is_end a)).
Proof. intros E -> Hc. unfold lifecycle_step. rewrite E. cbn. by rewrite Hc, Z.eqb_refl. Qed.

Lemma at_slot_holds slots kind ph it change : holds slots kind ph it ->
  at_slot slots kind (Z.of_nat (it_index it)) (it_id it) ph change =
    sl' ← change (slot_of ph it); Some (<[it_index it := sl']> slots).
Proof.
  intros [<- Hl]. unfold at_slot. rewrite Nat2Z.id, Hl. cbn [mbind option_bind slot_of sl_kind sl_id sl_phase].
  rewrite (proj2 (Z.leb_le _ _)) by lia. by rewrite !bool_decide_eq_true_2, str_eqb_refl.
Qed.

Lemma slots_step_late n slots a : (2 <= n)%nat -> match a with Begin _ => False | _ => True end ->
  slots_step n slots a = slots_step 2 slots a.
Proof. intros Hn Ha. destruct (Nat.ltb_spec n 2); [lia|]. destruct a; try done; cbn -[Nat.ltb]; destruct (Nat.ltb_spec n 2); try lia; done. Qed.

Lemma related_same s s' slots :
  tr_next_index s' = tr_next_index s -> (forall o, item_at s' o = item_at s o) -> tr_tool_order s' = tr_tool_order s ->
  tr_completed s' = tr_completed s ->
  related s slots -> related s' slots.
Proof.
  intros E1 E2 E3 E4 []. split; rewrite ?E1, ?E3, ?E4; try done.
  - intros o it. rewrite E2. auto.
  - intros i sl Hi. destruct (rel_owned0 i sl Hi) as (o & it & Ho & Hx). exists o, it. by rewrite E2.
  - intros o o' it it'. rewrite !E2. eauto.
  - split; [apply rel_order0|]. intros k. pose proof (E2 (CallPlace k)) as E. cbn in E. rewrite E. apply rel_order0.
Qed.

Lemma related_sequence n s slots : related s slots -> related (set_sequence n s) slots.
Proof. by apply related_same. Qed.

Lemma holds_app slots l kind ph it : holds slots kind ph it -> holds (slots ++ l) kind ph it.
Proof. intros [Hk Hl]. split; [done|]. by apply lookup_app_l_Some. Qed.

Lemma holds_kind slots kind kind' ph ph' it it' : holds slots kind ph it -> holds slots kind' ph' it' ->
  it_index it = it_index it' -> kind = kind'.
Proof. intros [<- H1] [<- H2] E. rewrite E, H2 in H1. by injection H1 as ->. Qed.

Lemma holds_bound slots kind ph it : holds slots kind ph it -> (it_index it < length slots)%nat.
Proof. intros [_ H]. by apply lookup_lt_Some in H. Qed.

Lemma holds_insert_ne slots kind ph it i sl : holds slots kind ph it -> i <> it_index it -> holds (<[i := sl]> slots) kind ph it.
Proof. intros [Hk Hl] Hi. split; [done|]. by rewrite list_lookup_insert_ne. Qed.

Lemma holds_insert_eq slots kind ph ph' it it' : holds slots kind ph it -> it_kind it' = kind -> it_index it' = it_index it ->
  holds (<[it_index it := slot_of ph' it']> slots) kind ph' it'.
Proof. intros Hh Hk Hi. split; [done|]. rewrite Hi. apply list_lookup_insert_eq, (holds_bound _ _ _ _ Hh). Qed.

Lemma holds_new slots ph it : it_index it = length slots -> holds (slots ++ [slot_of ph it]) (it_kind it) ph it.
Proof. intros Hi. split; [done|]. rewrite Hi. by apply list_lookup_middle. Qed.

Lemma owned_app (slots : list slot) sl i x : (slots ++ [sl]) !! i = Some x -> slots !! i = Some x \/ i = length slots.
Proof. intros [H|[H1 H2]]%lookup_app_Some; [by left|]. right. destruct (i - length slots)%nat eqn:E; [lia|done]. Qed.

Lemma item_at_put o o' it s : item_at (put_item o it s) o' = if decide (o = o') then Some it else item_at s o'.
Proof.
  destruct (decide (o = o')) as [<-|Hn]; destruct o as [| |key]; try destruct o' as [| |key']; cbn; try done.
  - by rewrite lookup_insert_eq.
  - rewrite lookup_insert_ne; [done|congruence].
Qed.

Lemma put_order o it s :
  NoDup (tr_tool_order s) /\ (forall k, k ∈ tr_tool_order s <-> is_Some (tr_tool_calls s !! k)) ->
  NoDup (tr_tool_order (put_item o it s)) /\
  forall k, k ∈ tr_tool_order (put_item o it s) <-> is_Some (tr_tool_calls (put_item o it s) !! k).
Proof.
  intros [Hd Ho]. destruct o as [| |key]; [done..|]. cbn [put_item set_tools tr_tool_order tr_tool_calls].
  destruct (tr_tool_calls s !! key) as [x|] eqn:E.
  - split; [done|]. intros k. rewrite Ho. destruct (decide (key = k)) as [<-|Hk].
    + rewrite lookup_insert_eq, E. split; by eexists.
    + by rewrite lookup_insert_ne.
  - split.
    + apply NoDup_app. split; [done|]. split; [|apply NoDup_singleton].
      intros k Hk ->%list_elem_of_singleton. apply Ho in Hk as [y Hk]. congruence.
    + intros k. rewrite elem_of_app, list_elem_of_singleton, Ho. destruct (decide (key = k)) as [<-|Hk].
      * rewrite lookup_insert_eq. split; [by eexists|by right].
      * rewrite lookup_insert_ne by done. naive_solver.
Qed.

Lemma set_next_item n o s : item_at (set_next_index n s) o = item_at s o.
Proof. by destruct o. Qed.

(** A new item *)
Lemma related_new o it s slots : related s slots -> item_at s o = None -> it_kind it = place_kind o ->
  it_index it = tr_next_index s -> related (put_item o it (set_next_index (S (tr_next_index s)) s)) (slots ++ [slot_of Streaming it]).
Proof.
  intros Hr H0 Hk Hi. pose proof (rel_next _ _ Hr) as Hn. rewrite Hn in Hi.
  assert (Hb : forall o' it', item_at s o' = Some it' -> it_index it' <> it_index it).
  { intros o' it' H'%(rel_holds _ _ Hr)%holds_bound. lia. }
  split; [destruct o; cbn; rewrite length_app; cbn; lia|..].
  - intros o' it'. rewrite item_at_put, set_next_item. destruct (decide (o = o')) as [<-|Ho].
    + intros [= <-]. rewrite <- Hk. by apply holds_new.
    + intros H'. by apply holds_app, (rel_holds _ _ Hr).
  - intros i sl [Hx| ->]%owned_app.
    + destruct (rel_owned _ _ Hr i sl Hx) as (o' & it' & H' & Hx'). exists o', it'.
      rewrite item_at_put, set_next_item, decide_False; [done|]. intros <-. congruence.
    + exists o, it. by rewrite item_at_put, decide_True.
  - intros o1 o2 it1 it2. rewrite !item_at_put, !set_next_item.
    destruct (decide (o = o1)) as [<-|], (decide (o = o2)) as [<-|]; try done.
    + intros [= <-] H2 E. by destruct (Hb _ _ H2).
    + intros H1 [= <-] E. by destruct (Hb _ _ H1).
    + apply (rel_injective _ _ Hr).
  - apply put_order, Hr.
  - pose proof (rel_open _ _ Hr). by destruct o.
Qed.

(** A change of an item, and of its slot *)
Lemma related_change o it it' s slots : related s slots -> item_at s o = Some it -> it_kind it' = it_kind it ->
  it_index it' = it_index it -> related (put_item o it' s) (<[it_index it := slot_of Streaming it']> slots).
Proof.
  intros Hr H0 Hk Hi. pose proof (rel_holds _ _ Hr _ _ H0) as Hh.
  assert (Hb : forall o' x, item_at s o' = Some x -> o <> o' -> it_index x <> it_index it).
  { intros o' x H' Ho E. by apply Ho, (rel_injective _ _ Hr _ _ _ _ H0 H'). }
  split; [destruct o; cbn; rewrite length_insert; apply Hr|..].
  - intros o' x. rewrite item_at_put. destruct (decide (o = o')) as [<-|Ho].
    + intros [= <-]. eapply holds_insert_eq; [done| |done]. by destruct Hh as [<- _].
    + intros H'. apply holds_insert_ne; [by apply Hr|]. by apply not_eq_sym, (Hb o').
  - intros i sl [(<- & _ & _)|[_ Hx]]%list_lookup_insert_Some.
    + exists o, it'. by rewrite item_at_put, decide_True.
    + destruct (rel_owned _ _ Hr i sl Hx) as (o' & x & H' & Hx'). destruct (decide (o = o')) as [<-|Ho].
      * exists o, it'. rewrite item_at_put, decide_True by done. split; [done|]. congruence.
      * exists o', x. by rewrite item_at_put, decide_False.
  - intros o1 o2 it1 it2. rewrite !item_at_put. destruct (decide (o = o1)) as [<-|Ho1], (decide (o = o2)) as [<-|Ho2]; try done.
    + intros [= <-] H2 E. rewrite Hi in E. by destruct (Hb _ _ H2 Ho2).
    + intros H1 [= <-] E. rewrite Hi in E. by destruct (Hb _ _ H1 Ho1).
    + apply (rel_injective _ _ Hr).
  - apply put_order, Hr.
  - pose proof (rel_open _ _ Hr). by destruct o.
Qed.

(** ** Opening an item and adding to it *)

Lemma step_add sp e n i kind id : read_event e = Some (Z.of_nat n, Add (Z.of_nat i) kind id) ->
  n = lc_sequence sp -> lc_completed sp = false -> (2 <= n)%nat -> i = length (lc_slots sp) ->
  lifecycle_step sp e =
    Some (mkLifecycle (S (lc_sequence sp)) (lc_slots sp ++ [mkSlot kind id [] (first_phase kind)]) false).
Proof.
  intros E Hn Hc H2 Hi. rewrite (step_eq _ _ _ _ E Hn Hc), slots_step_late by (lia || done).
  cbn -[Nat.ltb]. unfold zlen. rewrite Hi, Z.eqb_refl. done.
Qed.

Lemma run_open_parts sp e1 e2 i kind id : lc_completed sp = false -> (2 <= lc_sequence sp)%nat -> kind <> Function ->
  i = length (lc_slots sp) ->
  read_event e1 = Some (Z.of_nat (lc_sequence sp), Add (Z.of_nat i) kind id) ->
  read_event e2 = Some (Z.of_nat (S (lc_sequence sp)), OpenPart kind (Z.of_nat i) id) ->
  lifecycle_run sp [e1; e2] =
    Some (mkLifecycle (S (S (lc_sequence sp))) (lc_slots sp ++ [mkSlot kind id [] Streaming]) false).
Proof.
  intros Hc H2 Hk -> E1 E2. cbn [lifecycle_run]. rewrite (step_add _ _ _ _ _ _ E1) by done. cbn [mbind option_bind].
  rewrite (step_eq _ _ _ _ E2) by done. rewrite slots_step_late by (cbn; lia || done). cbn [lc_slots lc_sequence slots_step].
  change (2 <? 2)%nat with false. cbn iota. unfold at_slot.
  rewrite Nat2Z.id, lookup_app_r, Nat.sub_diag by lia. cbn [lookup list_lookup mbind option_bind sl_kind sl_id sl_phase].
  rewrite (proj2 (Z.leb_le _ _)), str_eqb_refl by lia. rewrite bool_decide_eq_true_2 by done. cbn [andb].
  rewrite bool_decide_eq_true_2 by (by destruct kind). cbn [mbind option_bind is_end].
  by rewrite insert_app_r_alt, Nat.sub_diag by lia.
Qed.

Lemma step_delta sp e it t : lc_completed sp = false -> (2 <= lc_sequence sp)%nat -> t <> [] ->
  holds (lc_slots sp) (it_kind it) Streaming it ->
  read_event e = Some (Z.of_nat (lc_sequence sp), Delta (it_kind it) (Z.of_nat (it_index it)) (it_id it) t) ->
  lifecycle_step sp e = Some (mkLifecycle (S (lc_sequence sp))
    (<[it_index it := mkSlot (it_kind it) (it_id it) (item_body it ++ t) Streaming]> (lc_slots sp)) false).
Proof.
  intros Hc H2 Ht Hh E. rewrite (step_eq _ _ _ _ E) by done. rewrite slots_step_late by (lia || done).
  cbn [slots_step]. change (2 <? 2)%nat with false. cbn iota. rewrite (at_slot_holds _ _ _ _ _ Hh). by destruct t.
Qed.

Lemma tracks_sequence s sp slots : tracks s sp -> forall n s', tr_sequence s' = (lc_sequence sp + n)%nat -> related s' slots ->
  tracks s' (mkLifecycle (lc_sequence sp + n) slots false).
Proof. intros (Hs & Hc & H2 & Hr) n s' Hn Hr'. split; [done|]. split; [done|]. split; [cbn; lia|done]. Qed.

Section Translation.
Context `{UnicodeData}.
Variable uuid_hex : nat -> pystr.

Definition opened (o : place) : list bytes -> translator -> lifecycle -> Prop :=
  fun _ s sp => tracks s sp /\ is_Some (item_at s o).

(** The two methods that open an item with a part *)
Lemma open_parts_runs o id e1 e2 s0 : place_kind o <> Function -> item_at s0 o = None ->
  let it := new_item (tr_next_index s0) id (place_kind o) in
  (forall n, read_event (fst e1, numbered n (snd e1)) = Some (Z.of_nat n, Add (Z.of_nat (tr_next_index s0)) (place_kind o) id)) ->
  (forall n, read_event (fst e2, numbered n (snd e2)) = Some (Z.of_nat n, OpenPart (place_kind o) (Z.of_nat (tr_next_index s0)) id)) ->
  runs [] (@Datatypes.id (list bytes)) (update (fun s => put_item o it (set_next_index (S (tr_next_index s)) s));; emit_all [e1; e2])
    (fun s sp => s = s0 /\ tracks s sp) (opened o).
Proof.
  intros Hk H0 it E1 E2.
  apply (runs_update _ _ _ _ _ (fun s sp => s = put_item o it (set_next_index (S (tr_next_index s0)) s0) /\ tracks s0 sp)).
  { by intros s sp [-> Ht]. }
  apply runs_emit_all. intros s sp [-> Ht]. pose proof Ht as (Hs & Hc & H2 & Hr).
  assert (Hseq : tr_sequence (put_item o it (set_next_index (S (tr_next_index s0)) s0)) = lc_sequence sp) by (by destruct o).
  eexists. split.
  - rewrite Hseq. destruct e1 as [t1 p1], e2 as [t2 p2]. cbn [number_all].
    apply (run_open_parts sp _ _ (tr_next_index s0) (place_kind o) id); try done. apply Hr.
  - intros frames. split; [|exists it; destruct o; cbn; try done; by rewrite lookup_insert_eq].
    replace (S (S (lc_sequence sp))) with (lc_sequence sp + 2)%nat by lia. eapply tracks_sequence; [exact Ht| |].
    + cbn [set_sequence tr_sequence length]. by rewrite Hseq.
    + apply related_sequence. replace (mkSlot (place_kind o) id [] Streaming) with (slot_of Streaming it) by (by destruct o).
      by apply (related_new o it s0 _ Hr H0).
Qed.

Lemma ensure_reasoning_runs : runs [] id (ensure_reasoning uuid_hex) tracks (opened ReasoningPlace).
Proof.
  apply runs_get. intros s0. destruct (tr_reasoning s0) as [it|] eqn:E.
  - apply runs_ret; [done|]. intros s sp [-> Ht]. split; [done|]. by exists it.
  - apply runs_ask. intros id. by apply (open_parts_runs ReasoningPlace).
Qed.

Lemma ensure_message_runs : runs [] id (ensure_message uuid_hex) tracks (opened MessagePlace).
Proof.
  apply runs_get. intros s0. destruct (tr_message s0) as [it|] eqn:E.
  - apply runs_ret; [done|]. intros s sp [-> Ht]. split; [done|]. by exists it.
  - apply runs_ask. intros id. by apply (open_parts_runs MessagePlace).
Qed.

Lemma ensure_tool_call_runs key call_id name :
  runs [] id (ensure_tool_call uuid_hex key call_id name) tracks (opened (CallPlace key)).
Proof.
  apply runs_get. intros s0. destruct (tr_tool_calls s0 !! key) as [it|] eqn:E.
  { apply runs_ret; [done|]. intros s sp [-> Ht]. split; [done|]. by exists it. }
  apply runs_ask. intros id.
  assert (Hrest : forall c, runs [] Datatypes.id
    (let it := set_name (chat_tool_name_to_client_name name) (set_call_id c (new_item (tr_next_index s0) id Function)) in
     update (fun s => set_tools (<[key := it]> (tr_tool_calls s)) (tr_tool_order s ++ [key])
                        (set_next_index (S (tr_next_index s)) s));;
     emit_all [(ItemAdded, ["output_index" :-> index_value it;
                   "item" :-> PDict ["type" :-> text "function_call"; "id" :-> PStr id; "call_id" :-> PStr (it_call_id it);
                                     "name" :-> PStr (it_name it); "arguments" :-> PStr []; "status" :-> text "in_progress"]])])
    (fun s sp => s = s0 /\ tracks s sp) (opened (CallPlace key))).
  { intros c. cbn zeta. set (it := set_name _ _).
    apply (runs_update _ _ _ _ _ (fun s sp => s = put_item (CallPlace key) it (set_next_index (S (tr_next_index s0)) s0) /\ tracks s0 sp)).
    { intros s sp [-> Ht]. split; [|done]. cbn. by rewrite E. }
    apply runs_emit_all. intros s sp [-> Ht]. pose proof Ht as (Hs & Hc & H2 & Hr). eexists. split.
    - cbn [number_all lifecycle_run]. rewrite (step_add sp _ (tr_sequence s0) (tr_next_index s0) Function id); try done; [lia|apply Hr].
    - intros frames. split; [|exists it; cbn; by rewrite lookup_insert_eq].
      rewrite <- (Nat.add_1_r (lc_sequence sp)). eapply tracks_sequence; [exact Ht| |].
      + cbn. by rewrite Hs.
      + apply related_sequence. by apply (related_new (CallPlace key) it s0 _ Hr E). }
  destruct call_id as [|c call_id]; [apply runs_ask; intros c; exact (Hrest c)|exact (Hrest (c :: call_id))].
Qed.

(** A delta after the item was changed *)
Lemma emit_delta_runs o it it' t e s0 : item_at s0 o = Some it -> it_kind it' = it_kind it -> it_index it' = it_index it ->
  it_id it' = it_id it -> item_body it' = item_body it ++ t -> t <> [] ->
  (forall n, read_event (fst e, numbered n (snd e)) =
     Some (Z.of_nat n, Delta (place_kind o) (Z.of_nat (it_index it)) (it_id it) t)) ->
  runs [] Datatypes.id (emit_all [e]) (fun s sp => s = put_item o it' s0 /\ tracks s0 sp) (fun _ s sp => tracks s sp).
Proof.
  intros H0 Hk Hi Hid Hb Ht E. apply runs_emit_all. intros s sp [-> Htr]. pose proof Htr as (Hs & Hc & H2 & Hr).
  pose proof (rel_holds _ _ Hr _ _ H0) as Hh. pose proof Hh as [Hkind _].
  assert (Hseq : tr_sequence (put_item o it' s0) = lc_sequence sp) by (by destruct o).
  destruct e as [ty p]. cbn [fst snd] in E. eexists. split.
  - rewrite Hseq. cbn [number_all lifecycle_run].
    rewrite (step_delta sp _ it t); [reflexivity|done..| |]; rewrite Hkind; [exact Hh|apply E].
  - intros frames. replace (S (lc_sequence sp)) with (lc_sequence sp + 1)%nat by lia. eapply tracks_sequence; [exact Htr| |].
    + cbn. by rewrite Hseq.
    + apply related_sequence.
      replace (mkSlot (it_kind it) (it_id it) (item_body it ++ t) Streaming) with (slot_of Streaming it')
        by (unfold slot_of; by rewrite Hk, Hid, Hb).
      by apply (related_change o it it').
Qed.

Lemma change_and_emit_runs frames o it it' t e s0 g :
  item_at s0 o = Some it ->
  (it_kind it = place_kind o -> item_body it' = item_body it ++ t) ->
  it_kind it' = it_kind it -> it_index it' = it_index it -> it_id it' = it_id it -> t <> [] ->
  g s0 = put_item o it' s0 ->
  (forall n, read_event (fst e, numbered n (snd e)) =
     Some (Z.of_nat n, Delta (place_kind o) (Z.of_nat (it_index it)) (it_id it) t)) ->
  runs frames id (update g;; delta ← emit_all [e]; mret (frames ++ delta)) (fun s sp => s = s0 /\ opened o frames s sp)
    (fun _ => tracks).
Proof.
  intros H0 Hb Hk Hi Hid Ht Hg E. apply (runs_fact (it_kind it = place_kind o)).
  { intros s sp [-> [(_ & _ & _ & Hr) _]]. by apply (rel_holds _ _ Hr o). }
  intros Hkind. apply (runs_update _ _ _ _ _ (fun s sp => s = put_item o it' s0 /\ tracks s0 sp)).
  { intros s sp (-> & Htr & _). by rewrite Hg. }
  eapply runs_bind; [eapply (emit_delta_runs o it it' t); eauto|]. intros delta. apply runs_ret; auto.
Qed.

Lemma feed_reasoning_runs reasoning : runs [] id (feed_reasoning uuid_hex reasoning) tracks (fun _ => tracks).
Proof.
  destruct reasoning as [|c reasoning]; [apply runs_ret; auto|]. cbn [feed_reasoning].
  eapply runs_bind; [apply ensure_reasoning_runs|]. intros frames. apply runs_get. intros s0.
  destruct (tr_reasoning s0) as [it|] eqn:E; [|apply runs_raise].
  eapply (change_and_emit_runs frames ReasoningPlace it (add_text (c :: reasoning) it) (c :: reasoning)); try done.
  unfold item_body. cbn. by intros ->.
Qed.

Lemma feed_content_runs content : runs [] id (feed_content uuid_hex content) tracks (fun _ => tracks).
Proof.
  destruct content as [|c content]; [apply runs_ret; auto|]. cbn [feed_content].
  eapply runs_bind; [apply ensure_message_runs|]. intros frames. apply runs_get. intros s0.
  destruct (tr_message s0) as [it|] eqn:E; [|apply runs_raise].
  eapply (change_and_emit_runs frames MessagePlace it (add_text (c :: content) it) (c :: content)); try done.
  unfold item_body. cbn. by intros ->.
Qed.

Lemma update_call_same call it : it_kind (update_call call it) = it_kind it /\ it_index (update_call call it) = it_index it /\
  it_id (update_call call it) = it_id it /\ it_arguments (update_call call it) = it_arguments it /\
  it_text (update_call call it) = it_text it.
Proof.
  unfold update_call. destruct (truthy _ && _), (get "name" (call_function call)) as [| | | |[|]| |]; try done;
    match goal with |- context [if ?b then _ else _] => destruct b end; done.
Qed.

Lemma feed_call_runs call : runs [] id (feed_call uuid_hex call) tracks (fun _ => tracks).
Proof.
  apply runs_get. intros s1. cbn zeta. set (key := call_key call s1).
  eapply runs_bind; [eapply runs_pre; [|apply ensure_tool_call_runs]; by intros s sp [_ Ht]|]. intros frames. apply runs_get.
  intros s0. destruct (tr_tool_calls s0 !! key) as [it|] eqn:E; [|apply runs_raise].
  destruct (update_call_same call it) as (Hk & Hi & Hid & Ha & Htx).
  assert (Hrest : runs ([] ++ id frames) id
    (update (fun s => set_tools (<[key := update_call call it]> (tr_tool_calls s)) (tr_tool_order s) s);; mret frames)
    (fun s sp => s = s0 /\ opened (CallPlace key) frames s sp) (fun _ => tracks)).
  { apply (runs_update _ _ _ _ _ tracks); [|by apply runs_ret].
    intros s sp (-> & (Hs & Hc & H2 & Hr) & _). split; [done|]. split; [done|]. split; [done|].
    replace (lc_slots sp) with (<[it_index it := slot_of Streaming (update_call call it)]> (lc_slots sp)).
    - pose proof (related_change (CallPlace key) it (update_call call it) s0 _ Hr E Hk Hi) as Hch.
      cbn [put_item] in Hch. by rewrite E in Hch.
    - apply list_insert_id. destruct (rel_holds _ _ Hr (CallPlace key) it E) as [_ ->].
      unfold slot_of, item_body. by rewrite Hk, Hid, Ha, Htx. }
  destruct (get "arguments" (call_function call)) as [| | | |[|c arguments]| |]; try exact Hrest.
  eapply (change_and_emit_runs frames (CallPlace key) it (add_arguments (c :: arguments) (update_call call it)) (c :: arguments));
    try done.
  - unfold item_body. cbn. rewrite Hk, Ha. by intros ->.
  - cbn. by rewrite E.
  - intros n. unfold index_value. rewrite Hi, Hid. reflexivity.
Qed.

Lemma feed_calls_runs calls : runs [] id (feed_calls uuid_hex calls) tracks (fun _ => tracks).
Proof.
  induction calls as [|call calls IH]; [by apply runs_ret|]. destruct call; try exact IH. cbn [feed_calls].
  eapply runs_bind; [apply feed_call_runs|]. intros frames. eapply (runs_bind _ id); [exact IH|]. intros more. by apply runs_ret.
Qed.

Lemma feed_delta_runs delta : runs [] id (feed_delta uuid_hex delta) tracks (fun _ => tracks).
Proof.
  destruct delta as [| | | | | |d]; try (by apply runs_ret). cbn [feed_delta].
  eapply runs_bind; [apply feed_reasoning_runs|]. intros a. eapply (runs_bind _ id); [apply feed_content_runs|]. intros b.
  eapply (runs_bind _ id _ _ _ _ (fun _ => tracks)).
  - destruct (get "tool_calls" d); try (by apply runs_ret). apply feed_calls_runs.
  - intros c. apply runs_ret; [|done]. cbn. by rewrite app_assoc.
Qed.

Lemma tracks_same s s' sp : tr_sequence s' = tr_sequence s ->
  tr_next_index s' = tr_next_index s -> (forall o, item_at s' o = item_at s o) -> tr_tool_order s' = tr_tool_order s ->
  tr_completed s' = tr_completed s ->
  tracks s sp -> tracks s' sp.
Proof. intros E E1 E2 E3 E4 (Hs & Hc & H2 & Hr). split; [congruence|]. split; [done|]. split; [done|]. by eapply related_same. Qed.

Lemma feed_runs chunk : runs [] id (feed uuid_hex chunk) tracks (fun _ => tracks).
Proof.
  unfold feed. apply (runs_update _ _ _ _ _ tracks).
  { intros s sp. destruct (get "usage" chunk); try done; apply tracks_same; try done; by intros []. }
  destruct (chunk_choice chunk) as [choice|]; [|by apply runs_ret].
  eapply runs_bind; [apply feed_delta_runs|]. intros frames. apply (runs_update _ _ _ _ _ tracks); [|by apply runs_ret].
  intros s sp. destruct (get "finish_reason" choice) as [| | | |[|c r]| |]; try done; apply tracks_same; try done; by intros [].
Qed.

(** ** Closing the items *)

(** The items of some places are closed, the others are open *)
Record closing (s0 : translator) (closed : list (place * item_state)) (s : translator) (sp : lifecycle) : Prop := {
  cl_state : s = set_sequence (lc_sequence sp) (set_completed s0);
  cl_running : lc_completed sp = false /\ (2 <= lc_sequence sp)%nat;
  cl_length : length (lc_slots sp) = tr_next_index s0;
  cl_places : NoDup closed.*1 /\ forall o it, (o, it) ∈ closed -> item_at s0 o = Some it;
  cl_holds : forall o it, item_at s0 o = Some it ->
    holds (lc_slots sp) (place_kind o) (if decide (o ∈ closed.*1) then Closed else Streaming) it;
}.

Lemma step_end sp e a it ph ph' kind : lc_completed sp = false -> (2 <= lc_sequence sp)%nat ->
  holds (lc_slots sp) kind ph it ->
  read_event e = Some (Z.of_nat (lc_sequence sp), a) ->
  slots_step 2 (lc_slots sp) a =
    at_slot (lc_slots sp) kind (Z.of_nat (it_index it)) (it_id it) ph (end_with (item_body it) ph') ->
  is_end a = false -> match a with Begin _ => False | _ => True end ->
  lifecycle_step sp e = Some (mkLifecycle (S (lc_sequence sp)) (<[it_index it := slot_of ph' it]> (lc_slots sp)) false).
Proof.
  intros Hc H2 Hh E Ha He Hb. rewrite (step_eq _ _ _ _ E) by done. rewrite slots_step_late, Ha, He by done.
  rewrite (at_slot_holds _ _ _ _ _ Hh). unfold end_with. cbn [slot_of sl_text]. by rewrite str_eqb_refl.
Qed.

(** One event of the end of an item *)
Ltac end_step it a kind ph ph' :=
  rewrite (step_end _ _ (a kind (Z.of_nat (it_index it)) (it_id it) (item_body it)) it ph ph' kind);
  [cbn [mbind option_bind lc_sequence lc_slots]|done|cbn; lia|by eauto|reflexivity|done..].

Lemma run_closing sp it kind : lc_completed sp = false -> (2 <= lc_sequence sp)%nat -> holds (lc_slots sp) kind Streaming it ->
  lifecycle_run sp (number_all (lc_sequence sp) (closing_events it)) =
    Some (mkLifecycle (lc_sequence sp + length (closing_events it)) (<[it_index it := slot_of Closed it]> (lc_slots sp)) false).
Proof.
  intros Hc H2 Hh. pose proof Hh as [Hk _].
  assert (Hnext : forall slots ph ph', holds slots kind ph it -> holds (<[it_index it := slot_of ph' it]> slots) kind ph' it).
  { intros slots ph ph' Hx. eapply holds_insert_eq; done. }
  pose (end_item := fun kind i id t => EndItem i (kind, id, t)).
  destruct it as [index id k t c n args]. cbn [it_kind] in Hk. subst kind. destruct k; cbn [number_all lifecycle_run closing_events it_kind item_done].
  - end_step (mkItem index id Reasoning t c n args) EndText Reasoning Streaming TextEnded.
    end_step (mkItem index id Reasoning t c n args) EndPart Reasoning TextEnded PartEnded.
    end_step (mkItem index id Reasoning t c n args) end_item Reasoning PartEnded Closed.
    rewrite !list_insert_insert_eq. f_equal. f_equal. cbn. lia.
  - end_step (mkItem index id Message t c n args) EndText Message Streaming TextEnded.
    end_step (mkItem index id Message t c n args) EndPart Message TextEnded PartEnded.
    end_step (mkItem index id Message t c n args) end_item Message PartEnded Closed.
    rewrite !list_insert_insert_eq. f_equal. f_equal. cbn. lia.
  - end_step (mkItem index id Function t c n args) EndText Function Streaming TextEnded.
    end_step (mkItem index id Function t c n args) end_item Function TextEnded Closed.
    rewrite !list_insert_insert_eq. f_equal. f_equal. cbn. lia.
Qed.

Lemma close_place_runs s0 slots0 closed o it : related s0 slots0 -> item_at s0 o = Some it -> o ∉ closed.*1 ->
  runs [] fst (close_items [it]) (closing s0 closed) (fun a s sp => a.2 = [final_item it] /\ closing s0 (closed ++ [(o, it)]) s sp).
Proof.
  intros Hr H0 Ho. cbn [close_items].
  eapply (runs_bind _ id _ _ _ _ (fun _ s sp => closing s0 (closed ++ [(o, it)]) s sp)).
  - apply runs_emit_all. intros s sp Hcl. pose proof (cl_running _ _ _ _ Hcl) as [Hc H2].
    pose proof (cl_holds _ _ _ _ Hcl o it H0) as Hh. rewrite decide_False in Hh by done. eexists. split.
    { rewrite (cl_state _ _ _ _ Hcl). cbn [set_sequence tr_sequence]. by apply (run_closing sp it (place_kind o)). }
    intros frames. destruct Hcl as [Hs _ Hl [Hnd Hin] Hhs]. split; cbn [lc_sequence lc_slots lc_completed].
    + by rewrite Hs.
    + split; [done|lia].
    + by rewrite length_insert.
    + rewrite fmap_app. split.
      * apply NoDup_app. split; [done|]. split; [|apply NoDup_singleton].
        intros o' Ho' ->%list_elem_of_singleton. done.
      * intros o' it' [Hx|Hx]%elem_of_app; [by apply Hin|]. apply list_elem_of_singleton in Hx. by injection Hx as -> ->.
    + intros o' it' H'. rewrite fmap_app. destruct (decide (o' = o)) as [->|Hne].
      * rewrite decide_True by (apply elem_of_app; right; by apply list_elem_of_singleton). rewrite H0 in H'. injection H' as <-.
        eapply holds_insert_eq; [exact Hh| |done]. by destruct Hh.
      * assert (Hi : it_index it <> it_index it') by (intros E; by apply Hne, (rel_injective _ _ Hr _ _ _ _ H' H0)).
        apply holds_insert_ne; [|done]. specialize (Hhs o' it' H'). destruct (decide (o' ∈ closed.*1)) as [Hin'|Hnin].
        -- rewrite decide_True by (apply elem_of_app; by left). done.
        -- rewrite decide_False; [done|]. intros [Hx|Hx%list_elem_of_singleton]%elem_of_app; done.
  - intros frames. intros w sp Hcl. cbn. exists [], sp. cbn. rewrite app_nil_r. split; [done|]. split; [done|].
    exists []. rewrite !app_nil_r. done.
Qed.

(** A part of the end: more places are closed, and the output lists their items *)
Definition closes s0 closed (more : list (place * item_state)) : list bytes * list pyval -> translator -> lifecycle -> Prop :=
  fun a s sp => a.2 = map (fun p => final_item p.2) more /\ closing s0 (closed ++ more) s sp.

Lemma close_option_runs s0 slots0 closed o : related s0 slots0 -> o ∉ closed.*1 ->
  runs [] fst (close_items (option_list (item_at s0 o))) (closing s0 closed)
    (closes s0 closed (option_list ((fun it => (o, it)) <$> item_at s0 o))).
Proof.
  intros Hr Ho. destruct (item_at s0 o) as [it|] eqn:E; cbn [option_list fmap option_fmap option_map].
  - by eapply close_place_runs.
  - apply runs_ret; [done|]. intros s sp Hc. split; [done|]. by rewrite app_nil_r.
Qed.

Lemma close_calls_runs s0 slots0 order : forall closed calls, related s0 slots0 ->
  Forall2 (fun key p => p.1 = CallPlace key /\ item_at s0 p.1 = Some p.2) order calls ->
  NoDup order -> (forall key, key ∈ order -> CallPlace key ∉ closed.*1) ->
  runs [] fst (close_calls order) (closing s0 closed) (closes s0 closed calls).
Proof.
  induction order as [|key order IH]; intros closed calls Hr Hcalls Hnd Hout; cbn [close_calls].
  { apply Forall2_nil_inv_l in Hcalls as ->. apply runs_ret; [done|]. intros s sp Hc. split; [done|]. by rewrite app_nil_r. }
  apply Forall2_cons_inv_l in Hcalls as ([o it] & calls' & [Ho Hit] & Hcalls & ->). cbn [fst snd] in *. subst o.
  apply NoDup_cons in Hnd as [Hk Hnd]. apply runs_get. intros s1.
  apply (runs_fact (tr_tool_calls s1 !! key = Some it)).
  { intros s sp [-> Hc]. rewrite (cl_state _ _ _ _ Hc). exact Hit. }
  intros ->. eapply (runs_bind _ fst).
  { eapply runs_pre; [|eapply close_place_runs; [exact Hr|exact Hit|apply Hout; by left]]. by intros s sp [_ Hc]. }
  intros [frames item]. apply (runs_fact (item = [final_item it])); [intros s sp [E _]; exact E|]. intros ->.
  eapply (runs_bind _ fst).
  { eapply runs_pre; [|eapply (IH (closed ++ [(CallPlace key, it)]) calls'); [exact Hr|exact Hcalls|exact Hnd|]].
    - by intros s sp [_ Hc].
    - intros k Hin. rewrite fmap_app. intros [Hx|Hx%list_elem_of_singleton]%elem_of_app.
      + by apply (Hout k); [right|].
      + injection Hx as ->. done. }
  intros [more output]. apply runs_ret; [done|]. intros s sp [E Hc]. cbn in E. subst output. split; [done|].
  by rewrite <- app_assoc in Hc.
Qed.

(** Everything the translator holds, in the order of the output *)
Definition contents (s : translator) : list (place * item_state) :=
  option_list ((fun it => (ReasoningPlace, it)) <$> tr_reasoning s)
    ++ option_list ((fun it => (MessagePlace, it)) <$> tr_message s)
    ++ omap (fun key => (fun it => (CallPlace key, it)) <$> tr_tool_calls s !! key) (tr_tool_order s).

Lemma calls_in_order s slots : related s slots ->
  Forall2 (fun key p => p.1 = CallPlace key /\ item_at s p.1 = Some p.2) (tr_tool_order s)
    (omap (fun key => (fun it => (CallPlace key, it)) <$> tr_tool_calls s !! key) (tr_tool_order s)).
Proof.
  intros Hr. destruct (rel_order _ _ Hr) as [_ Ho]. assert (Hall : forall key, key ∈ tr_tool_order s -> is_Some (tr_tool_calls s !! key))
    by (intros key; apply Ho). clear Ho Hr. induction (tr_tool_order s) as [|key order IH]; [constructor|]. cbn [omap list_omap].
  destruct (Hall key) as [it Hit]; [by left|]. rewrite Hit. cbn. constructor; [done|]. apply IH. intros k Hk. apply Hall. by right.
Qed.

Lemma contents_spec s slots o it : related s slots -> (o, it) ∈ contents s <-> item_at s o = Some it.
Proof.
  intros Hr. unfold contents. rewrite !elem_of_app, list_elem_of_omap. destruct (rel_order _ _ Hr) as [_ Ho]. split.
  - intros [Hx|[Hx|(key & Hk & Hx)]].
    + destruct (tr_reasoning s) as [r|] eqn:E; cbn in Hx; [|by apply not_elem_of_nil in Hx].
      apply list_elem_of_singleton in Hx. by injection Hx as -> ->.
    + destruct (tr_message s) as [r|] eqn:E; cbn in Hx; [|by apply not_elem_of_nil in Hx].
      apply list_elem_of_singleton in Hx. by injection Hx as -> ->.
    + destruct (tr_tool_calls s !! key) as [x|] eqn:E; [|done]. cbn in Hx. by injection Hx as <- <-.
  - destruct o as [| |key]; cbn; intros H0.
    + left. rewrite H0. by left.
    + right. left. rewrite H0. by left.
    + right. right. exists key. rewrite H0. split; [|done]. apply Ho. by eexists.
Qed.

(** As many as the slots *)
Lemma contents_length s slots : related s slots -> length (contents s) = length slots.
Proof.
  intros Hr. transitivity (length ((fun p => it_index p.2) <$> contents s)); [by rewrite length_fmap|].
  transitivity (length (seq 0 (length slots))); [|apply length_seq]. apply Permutation_length, NoDup_Permutation.
  - apply NoDup_fmap_2_strong.
    + intros [o it] [o' it'] H1 H2 E. apply (contents_spec _ _ _ _ Hr) in H1, H2. cbn in E.
      assert (o = o') as -> by (by eapply rel_injective). congruence.
    + unfold contents. apply NoDup_app. split; [destruct (tr_reasoning s); repeat constructor; apply not_elem_of_nil|].
      split; [|apply NoDup_app; split; [destruct (tr_message s); repeat constructor; apply not_elem_of_nil|split]].
      * intros [o it] Hx. destruct (tr_reasoning s); [|by apply not_elem_of_nil in Hx]. apply list_elem_of_singleton in Hx.
        injection Hx as -> _. rewrite elem_of_app, list_elem_of_omap. intros [Hx|(key & _ & Hx)].
        -- destruct (tr_message s); [|by apply not_elem_of_nil in Hx]. by apply list_elem_of_singleton in Hx.
        -- by destruct (tr_tool_calls s !! key).
      * intros [o it] Hx. destruct (tr_message s); [|by apply not_elem_of_nil in Hx]. apply list_elem_of_singleton in Hx.
        injection Hx as -> _. rewrite list_elem_of_omap. intros (key & _ & Hx). by destruct (tr_tool_calls s !! key).
      * destruct (rel_order _ _ Hr) as [Hd _]. induction Hd as [|key order Hk Hd IH]; [constructor|]. cbn [omap list_omap].
        destruct (tr_tool_calls s !! key) as [it|]; [|done]. cbn. constructor; [|done].
        rewrite list_elem_of_omap. intros (k & Hin & Hx). destruct (tr_tool_calls s !! k); [|done]. cbn in Hx.
        injection Hx as -> _. done.
  - apply NoDup_seq.
  - intros i. rewrite elem_of_seq, list_elem_of_fmap. split.
    + intros ([o it] & -> & Hx%(contents_spec _ _ _ _ Hr)). cbn. apply (rel_holds _ _ Hr), holds_bound in Hx. lia.
    + intros [_ Hi]. destruct (slots !! i) as [sl|] eqn:E; [|apply lookup_ge_None in E; lia].
      destruct (rel_owned _ _ Hr i sl E) as (o & it & Ho & <-). exists (o, it). split; [done|]. by apply (contents_spec _ _ _ _ Hr).
Qed.

Lemma read_final it : read_item (final_item it) = Some (it_kind it, it_id it, item_body it).
Proof. by destruct it as [? ? []]. Qed.

Lemma read_output (l : list (place * item_state)) :
  mapM read_item (map (fun p => final_item p.2) l) = Some (map (fun p => (it_kind p.2, it_id p.2, item_body p.2)) l).
Proof. induction l as [|p l IH]; [done|]. cbn [map mapM]. rewrite read_final. cbn [mbind option_bind]. by rewrite IH. Qed.

Variable model response_id : pystr.
Variable created_at : Z.

Lemma base_response_output status output s r : base_response model response_id created_at status output s = Ok r ->
  get "output" r = PList output.
Proof. unfold base_response. intros (usage & _ & [= <-])%bind_Ok. reflexivity. Qed.

(** When every place is closed, the response may be completed *)
Lemma step_completed s0 slots0 s sp r : related s0 slots0 -> closing s0 (contents s0) s sp ->
  get "output" r = PList (map (fun p => final_item p.2) (contents s0)) ->
  lifecycle_step sp (Completed, numbered (lc_sequence sp) ["response" :-> PDict r]) =
    Some (mkLifecycle (S (lc_sequence sp)) (lc_slots sp) true).
Proof.
  intros Hr Hcl Ho. destruct (cl_running _ _ _ _ Hcl) as [Hc H2].
  set (output := map (fun p => (it_kind p.2, it_id p.2, item_body p.2)) (contents s0)).
  assert (E : read_event (Completed, numbered (lc_sequence sp) ["response" :-> PDict r]) = Some (Z.of_nat (lc_sequence sp), End output)).
  { change (read_event (Completed, numbered (lc_sequence sp) ["response" :-> PDict r])) with
      (a ← (l ← as_list (get "output" r); End <$> mapM read_item l); Some (Z.of_nat (lc_sequence sp), a)).
    rewrite Ho. cbn [as_list mbind option_bind]. by rewrite read_output. }
  rewrite (step_eq _ _ _ _ E) by done. rewrite slots_step_late by done. cbn [slots_step]. change (2 <? 2)%nat with false. cbn iota.
  assert (Hlen : length output = length (lc_slots sp)).
  { unfold output. rewrite length_map, (cl_length _ _ _ _ Hcl), (rel_next _ _ Hr). by apply contents_length. }
  rewrite Hlen, Nat.eqb_refl. replace (forallb (listed output) (lc_slots sp)) with true; [done|]. symmetry.
  apply forallb_Forall, Forall_lookup. intros i sl Hi. unfold listed.
  assert (Hi' : (i < length slots0)%nat).
  { apply lookup_lt_Some in Hi. by rewrite (cl_length _ _ _ _ Hcl), (rel_next _ _ Hr) in Hi. }
  destruct (lookup_lt_is_Some_2 slots0 i Hi') as [sl0 Hi0]. destruct (rel_owned _ _ Hr _ _ Hi0) as (o & it & Hit & <-).
  pose proof (cl_holds _ _ _ _ Hcl o it Hit) as [_ Hsl].
  pose proof (proj2 (contents_spec _ _ o it Hr) Hit) as Hin.
  rewrite decide_True in Hsl by (apply list_elem_of_fmap; by exists (o, it)).
  rewrite Hsl in Hi. injection Hi as <-. cbn [slot_of sl_phase sl_kind sl_id sl_text].
  rewrite bool_decide_eq_true_2 by done. rewrite bool_decide_eq_true_2; [done|].
  apply list_elem_of_In, in_map_iff. exists (o, it). split; [done|]. by apply list_elem_of_In.
Qed.

Lemma finish_runs : runs [] id (finish model response_id created_at) tracks (fun _ _ sp => lc_completed sp = true).
Proof.
  apply runs_get. intros s0.
  apply (runs_fact (exists sp, tracks s0 sp)); [intros s sp [-> Ht]; by exists sp|]. intros (sp0 & _ & _ & _ & Hr).
  rewrite (rel_open _ _ Hr).
  apply (runs_update _ _ _ _ _ (fun s sp => closing s0 [] s sp)).
  { intros s sp [-> (Hs & Hc & H2 & Hr')]. split; [rewrite <- Hs; by destruct s0|done|symmetry; by apply Hr'| |].
    - split; [constructor|]. intros o it Hx. by apply not_elem_of_nil in Hx.
    - intros o it H0. rewrite decide_False by apply not_elem_of_nil. by apply Hr'. }
  set (pr := option_list ((fun it => (ReasoningPlace, it)) <$> item_at s0 ReasoningPlace)).
  set (pm := option_list ((fun it => (MessagePlace, it)) <$> item_at s0 MessagePlace)).
  assert (Hpr : forall o, o ∈ pr.*1 -> o = ReasoningPlace).
  { intros o. subst pr. destruct (item_at s0 ReasoningPlace); cbn; [by intros ->%list_elem_of_singleton|by intros ?%not_elem_of_nil]. }
  assert (Hpm : forall o, o ∈ pm.*1 -> o = MessagePlace).
  { intros o. subst pm. destruct (item_at s0 MessagePlace); cbn; [by intros ->%list_elem_of_singleton|by intros ?%not_elem_of_nil]. }
  eapply (runs_bind _ fst); [apply (close_option_runs s0 _ [] ReasoningPlace Hr), not_elem_of_nil|]. intros [a reasoning].
  apply (runs_fact (reasoning = map (fun p => final_item p.2) pr)); [intros s sp [E _]; exact E|]. intros ->.
  eapply (runs_bind _ fst).
  { eapply runs_pre; [|apply (close_option_runs s0 _ pr MessagePlace Hr); by intros ?%Hpr]. by intros s sp [_ Hc]. }
  intros [b message].
  apply (runs_fact (message = map (fun p => final_item p.2) pm)); [intros s sp [E _]; exact E|]. intros ->.
  eapply (runs_bind _ fst).
  { eapply runs_pre; [|apply (close_calls_runs s0 _ _ (pr ++ pm) _ Hr (calls_in_order _ _ Hr)); [apply Hr|]].
    - by intros s sp [_ Hc].
    - intros key _. rewrite fmap_app. by intros [?%Hpr|?%Hpm]%elem_of_app. }
  intros [c calls]. set (pc := omap _ (tr_tool_order s0)).
  apply (runs_fact (calls = map (fun p => final_item p.2) pc)); [intros s sp [E _]; exact E|]. intros ->.
  apply runs_get. intros s1. apply runs_lift. intros response Hresponse. apply base_response_output in Hresponse.
  rewrite <- !map_app in Hresponse. change (pr ++ pm ++ pc) with (contents s0) in Hresponse.
  eapply (runs_bind _ id _ _ _ _ (fun _ _ sp => lc_completed sp = true)).
  - apply runs_emit_all. intros s sp [_ [_ Hcl]]. rewrite <- app_assoc in Hcl. change (pr ++ pm ++ pc) with (contents s0) in Hcl.
    exists (mkLifecycle (S (lc_sequence sp)) (lc_slots sp) true). split; [|done]. cbn [number_all lifecycle_run].
    replace (tr_sequence s) with (lc_sequence sp) by (by rewrite (cl_state _ _ _ _ Hcl)).
    by rewrite (step_completed s0 _ s sp response Hr Hcl Hresponse).
  - intros d. apply runs_ret; [|done]. cbn. by rewrite !app_assoc.
Qed.

Lemma start_runs : runs [] id (start model response_id created_at)
  (fun s sp => s = new_translator /\ sp = new_lifecycle) (fun _ => tracks).
Proof.
  apply runs_get. intros s0. apply runs_lift. intros created _.
  eapply (runs_bind _ (fun f => [f]) _ _ _ _ (fun _ s sp => s = set_sequence 1 new_translator /\ sp = mkLifecycle 1 [] false)).
  { apply runs_emit. intros s sp (_ & -> & ->). eexists. split; [reflexivity|]. done. }
  intros a. apply runs_get. intros s1. apply runs_lift. intros in_progress _.
  eapply (runs_bind _ (fun f => [f]) _ _ _ _ (fun _ => tracks)).
  { apply runs_emit. intros s sp (_ & -> & ->). eexists. split; [reflexivity|]. intros _. split; [done|]. split; [done|]. split; [cbn; lia|].
    split; try done.
    - by intros [].
    - by intros [].
    - split; [constructor|]. intros k. split; [by intros ?%not_elem_of_nil|]. cbn. rewrite lookup_empty. by intros [].
  }
  intros b. by apply runs_ret.
Qed.

(** ** The generator against the protocol *)

Definition emitted (tr : list record) : list event := omap (fun r => match r with Emitted e => Some e | _ => None end) tr.
Definition yielded (tr : list record) : list bytes := omap (fun r => match r with Yielded f => Some f | _ => None end) tr.

Lemma emitted_events tr evs : emitted (tr ++ map Emitted evs) = emitted tr ++ evs /\ yielded (tr ++ map Emitted evs) = yielded tr.
Proof.
  unfold emitted, yielded. rewrite !omap_app. split; [f_equal|rewrite <- (app_nil_r (omap _ tr)) at 2; f_equal];
    by induction evs; cbn; f_equal.
Qed.

Lemma yielded_frames tr frames : emitted (tr ++ map Yielded frames) = emitted tr /\ yielded (tr ++ map Yielded frames) = yielded tr ++ frames.
Proof.
  unfold emitted, yielded. rewrite !omap_app. split; [rewrite <- (app_nil_r (omap _ tr)) at 2; f_equal|f_equal];
    by induction frames; cbn; f_equal.
Qed.

(** The events so far are allowed, and all of them were forwarded; or some *)
Definition forwarded (P : translator -> lifecycle -> Prop) (w : tworld stream record nat) : Prop := exists sp,
  lifecycle_run new_lifecycle (emitted (trace w)) = Some sp /\ P (st_translator (state w)) sp /\
  mapM_result encode (emitted (trace w)) = Ok (yielded (trace w)).

Definition cut_off (w : tworld stream record nat) : Prop := exists sp seen,
  lifecycle_run new_lifecycle (emitted (trace w)) = Some sp /\ seen `prefix_of` emitted (trace w) /\
  mapM_result encode seen = Ok (yielded (trace w)).

Definition streams {A} (m : sprog A) (P Q : translator -> lifecycle -> Prop) : Prop := forall w,
  forwarded P w -> wp m (fun r w' => match r with Ok _ => forwarded Q w' | Raise _ => cut_off w' end) w.

Lemma forwarded_cut P w : forwarded P w -> cut_off w.
Proof. intros (sp & Hr & _ & Hm). exists sp, (emitted (trace w)). done. Qed.

Lemma streams_bind {A B} (m : sprog A) (f : A -> sprog B) P Q R :
  streams m P Q -> (forall a, streams (f a) Q R) -> streams (m ≫= f) P R.
Proof.
  intros Hm Hf w Hw. apply wp_bind. eapply wp_mono; [|apply (Hm w Hw)]. intros [a|e] w' Hw'; [by apply Hf|done].
Qed.

Lemma streams_lift {A} (r : result A) P : streams (lift r) P P.
Proof. intros w Hw. apply wp_lift. destruct r; [done|by eapply forwarded_cut]. Qed.

Lemma streams_ret {A} (a : A) P : streams (mret a) P P.
Proof. by intros w Hw. Qed.

(** A method of the translator, and its frames yielded *)
Lemma in_translator_forwarded m P Q w : runs [] id m P (fun _ => Q) -> forwarded P w ->
  wp (in_translator m) (fun r w' => match r with
    | Ok frames => exists sp, lifecycle_run new_lifecycle (emitted (trace w')) = Some sp /\ Q (st_translator (state w')) sp /\
        mapM_result encode (emitted (trace w')) = Ok (yielded (trace w') ++ frames)
    | Raise _ => cut_off w'
    end) w.
Proof.
  intros Hm (sp & Hr & Hp & Hf).
  pose proof (Hm (mkWorld (st_translator (state w)) (env w) (trace w)) sp Hp) as Hw. unfold wp, in_translator in *.
  destruct (m _) as [r w']. cbn [fst snd state env trace] in *. destruct Hw as (evs & sp' & Ht & Hrun & HQ).
  destruct (emitted_events (trace w) evs) as [E1 E2]. rewrite Ht.
  assert (Hall : lifecycle_run new_lifecycle (emitted (trace w ++ map Emitted evs)) = Some sp') by (by rewrite E1, lifecycle_run_app, Hr).
  destruct r as [frames|e]; cbn [fst snd state env trace].
  - destruct HQ as (fs & Hfs & Efs & Hq). cbn in Efs. subst frames. exists sp'. split; [done|]. split; [done|]. rewrite E1, E2. by eapply mapM_result_app.
  - exists sp', (emitted (trace w)). cbn [trace]. split; [done|]. rewrite E1, E2. split; [by apply prefix_app_r|done].
Qed.

Lemma wp_yield frames (Q : result unit -> tworld stream record nat -> Prop) w :
  Q (Ok tt) (mkWorld (state w) (env w) (trace w ++ map Yielded frames)) -> wp (yield_frames frames) Q w.
Proof. done. Qed.

Lemma streams_frames m P Q : runs [] id m P (fun _ => Q) -> streams (frames ← in_translator m; yield_frames frames) P Q.
Proof.
  intros Hm w Hw. apply wp_bind. eapply wp_mono; [|by apply (in_translator_forwarded m P Q)]. intros [frames|e] w'; [|done].
  intros (sp & Hr & Hq & Hf). apply wp_yield. exists sp. cbn [trace state]. destruct (yielded_frames (trace w') frames) as [-> ->]. done.
Qed.

Variable json_loads : bytes -> result pyval.

Lemma streams_chunk chunk P : streams (on_raw_chunk json_loads chunk) P P.
Proof.
  intros w Hw. unfold wp, on_raw_chunk. destruct (scanner_feed _ _ _) as [sc r]. cbn [fst snd].
  destruct r; [exact Hw|]. eapply (forwarded_cut P). exact Hw.
Qed.

Lemma streams_assoc {A B C} (m : sprog A) (f : A -> sprog B) (g : B -> sprog C) P Q :
  streams ((m ≫= f) ≫= g) P Q -> streams (m ≫= fun a => f a ≫= g) P Q.
Proof.
  intros Hs w Hw. specialize (Hs w Hw). unfold wp, mbind, program_bind in *. by destruct (m w) as [[a|e] w'].
Qed.

Lemma feed_events_streams events : streams (feed_events uuid_hex events) tracks tracks.
Proof.
  induction events as [|e events IH]; [apply streams_ret|]. cbn [feed_events].
  apply streams_assoc. eapply streams_bind; [apply streams_frames, feed_runs|]. intros _. exact IH.
Qed.

Lemma read_stream_streams chunks : forall buffer, streams (read_stream uuid_hex json_loads buffer chunks) tracks tracks.
Proof.
  induction chunks as [|chunk chunks IH]; intros buffer; [apply streams_ret|]. cbn [read_stream].
  eapply streams_bind; [apply streams_chunk|]. intros _. eapply streams_bind; [apply streams_lift|]. intros [events rest].
  eapply streams_bind; [apply feed_events_streams|]. intros _. apply IH.
Qed.

(** What is known at the end *)
Definition stream_ended (r : result unit) (w : tworld stream record nat) : Prop := exists sp,
  lifecycle_run new_lifecycle (emitted (trace w)) = Some sp /\
  match r with
  | Ok _ => lc_completed sp = true /\ exists frames, mapM_result encode (emitted (trace w)) = Ok frames /\
      yielded (trace w) = frames ++ [DONE_FRAME]
  | Raise _ => exists seen, seen `prefix_of` emitted (trace w) /\ mapM_result encode seen = Ok (yielded (trace w))
  end.

Lemma ended_bind {A} (m : sprog A) (f : A -> sprog unit) P Q : streams m P Q ->
  (forall a w, forwarded Q w -> wp (f a) stream_ended w) -> forall w, forwarded P w -> wp (m ≫= f) stream_ended w.
Proof.
  intros Hm Hf w Hw. apply wp_bind. eapply wp_mono; [|by apply Hm]. intros [a|e] w' Hw'; [by apply Hf|].
  destruct Hw' as (sp & seen & H1 & H2 & H3). exists sp. eauto.
Qed.

Lemma translate_streams chunks w : forwarded (fun s sp => s = new_translator /\ sp = new_lifecycle) w ->
  wp (translate_responses_stream uuid_hex model response_id created_at json_loads chunks) stream_ended w.
Proof.
  intros Hw. unfold translate_responses_stream.
  change (wp (frames ← in_translator (start model response_id created_at); yield_frames frames;;
    (buffer ← read_stream uuid_hex json_loads [] chunks; flush uuid_hex json_loads buffer;;
     frames ← in_translator (finish model response_id created_at); yield_frames (frames ++ [DONE_FRAME]))) stream_ended w).
  assert (Hrest : forall w, forwarded tracks w ->
    wp (buffer ← read_stream uuid_hex json_loads [] chunks; flush uuid_hex json_loads buffer;;
        frames ← in_translator (finish model response_id created_at); yield_frames (frames ++ [DONE_FRAME])) stream_ended w).
  { apply (ended_bind _ _ _ tracks); [apply read_stream_streams|]. intros buffer. apply (ended_bind _ _ _ tracks).
    { unfold flush. destruct (strip_with _ _); [apply streams_ret|]. eapply streams_bind; [apply streams_lift|].
      intros [events rest]. apply feed_events_streams. }
    intros _ w1 Hw1. apply wp_bind. eapply wp_mono; [|by apply (in_translator_forwarded _ _ _ _ finish_runs)].
    intros [frames|e] w2; [|intros (sp & seen & H1 & H2 & H3); exists sp; eauto].
    intros (sp & Hr & Hc & Hf). apply wp_yield. exists sp. cbn [trace]. destruct (yielded_frames (trace w2) (frames ++ [DONE_FRAME])) as [-> ->].
    split; [done|]. split; [done|]. exists (yielded (trace w2) ++ frames). split; [done|]. by rewrite app_assoc. }
  apply wp_bind. eapply wp_mono; [|by apply (in_translator_forwarded _ _ _ _ start_runs)].
  intros [frames|e] w1; [|intros (sp & seen & H1 & H2 & H3); exists sp; eauto].
  intros (sp & Hr & Ht & Hf). apply wp_bind, wp_yield, Hrest. exists sp. cbn [trace state].
  by destruct (yielded_frames (trace w1) frames) as [-> ->].
Qed.

(** C37.  The generator keeps the protocol, whatever the upstream sends and
    however it is cut into chunks: the events of a stream are a run of the
    protocol's machine, they are forwarded in order, each once, and a stream
    that ends normally is a completed run (every item was closed with the text
    of its deltas and listed in the response) followed by the end marker. *)
Theorem stream_keeps_protocol chunks n :
  let '(r, w) := translate_responses_stream uuid_hex model response_id created_at json_loads chunks
                   (mkWorld (mkStream new_translator new_scanner) n []) in
  let events := emitted (trace w) in
  exists sp, lifecycle_run new_lifecycle events = Some sp /\
    match r with
    | Ok _ => lc_completed sp = true /\ exists frames, mapM_result encode events = Ok frames /\
        yielded (trace w) = frames ++ [DONE_FRAME]
    | Raise _ => exists seen, seen `prefix_of` events /\ mapM_result encode seen = Ok (yielded (trace w))
    end.
Proof.
  set (w0 := mkWorld _ _ _).
  assert (H0 : forwarded (fun s sp => s = new_translator /\ sp = new_lifecycle) w0) by (by exists new_lifecycle).
  pose proof (translate_streams chunks w0 H0) as Hw. unfold wp in Hw.
  destruct (translate_responses_stream _ _ _ _ _ _ _) as [r w]. exact Hw.
Qed.
End Translation.
