(* ===== verification/ResponsesContent.v ===== *)
(** * What a Responses stream says

    Two equivalences about the generator of ResponsesStream: the way the
    upstream's bytes are cut into chunks does not matter ([alike]), and the
    response that ends a stream lists what the buffered translation of the same
    message lists ([gained] says what each method adds to the texts). *)
From Stdlib Require Import ZArith Lia Bool String.
From stdpp Require Import prelude gmap.
From S2P Require Import Prelude PyValue PyFloat Utf8 Json Sse PyText Responses Traced ResponsesStream ResponsesProtocol.
Open Scope Z_scope.
Open Scope dict_scope.

Section Chunking.
Context `{UnicodeData}.
Variable uuid_hex : nat -> pystr.
Variable model response_id : pystr.
Variable created_at : Z.
Variable json_loads : bytes -> result pyval.

(** ** Chunks do not matter *)

(** Up to the scanner, which sees the chunks *)
Definition same (w1 w2 : tworld stream record nat) : Prop :=
  st_translator (state w1) = st_translator (state w2) /\ env w1 = env w2 /\ trace w1 = trace w2.

#[export] Instance same_equivalence : Equivalence same.
Proof.
  unfold same. split; [by split|by intros w1 w2 (E1 & E2 & E3)|].
  intros w1 w2 w3 (E1 & E2 & E3) (F1 & F2 & F3). split; [congruence|split; congruence].
Qed.

(** Two programs that do the same *)
Definition alike {A} (m k : sprog A) : Prop := forall w1 w2, same w1 w2 ->
  fst (m w1) = fst (k w2) /\ same (snd (m w1)) (snd (k w2)).

Lemma alike_trans {A} (m k l : sprog A) : alike m k -> alike k l -> alike m l.
Proof.
  intros H1 H2 w1 w2 Hw. destruct (H1 w1 w2 Hw) as [E1 S1]. destruct (H2 w2 w2) as [E2 S2]; [done|].
  split; [congruence|]. by etransitivity.
Qed.

Lemma alike_bind {A B} (m k : sprog A) (f g : A -> sprog B) : alike m k -> (forall a, alike (f a) (g a)) -> alike (m ≫= f) (k ≫= g).
Proof.
  intros Hm Hf w1 w2 Hw. destruct (Hm w1 w2 Hw) as [E S]. unfold mbind, program_bind.
  destruct (m w1) as [r1 v1], (k w2) as [r2 v2]. cbn in E, S. subst r2. destruct r1; [by apply Hf|by split].
Qed.

Lemma alike_assoc {A B C} (m : sprog A) (f : A -> sprog B) (g : B -> sprog C) k :
  alike (m ≫= fun a => f a ≫= g) k -> alike ((m ≫= f) ≫= g) k.
Proof. intros Hk w1 w2 Hw. specialize (Hk w1 w2 Hw). unfold mbind, program_bind in *. by destruct (m w1) as [[a|e] v]. Qed.

Lemma alike_refl_in_translator {A} (m : prog A) : alike (in_translator m) (in_translator m).
Proof.
  intros [[t1 s1] e1 l1] [[t2 s2] e2 l2] (E1 & E2 & E3). cbn in E1, E2, E3. subst. unfold in_translator. cbn.
  by destruct (m _) as [r w'].
Qed.

Lemma alike_refl_yield frames : alike (yield_frames frames) (yield_frames frames).
Proof. intros w1 w2 (E1 & E2 & E3). split; [done|]. unfold yield_frames, same. cbn. by rewrite E3. Qed.

Lemma alike_ret {A} (a : A) : alike (mret a) (mret a).
Proof. by intros w1 w2 Hw. Qed.

Lemma alike_feed_events events : alike (feed_events uuid_hex events) (feed_events uuid_hex events).
Proof.
  induction events as [|e events IH]; [apply alike_ret|]. cbn [feed_events]. apply alike_bind; [apply alike_refl_in_translator|].
  intros frames. by apply alike_bind; [apply alike_refl_yield|].
Qed.

Lemma alike_ret_bind {A B} (a : A) (f : A -> sprog B) k : alike (f a) k -> alike (mret a ≫= f) k.
Proof. intros Hk w1 w2 Hw. exact (Hk w1 w2 Hw). Qed.

Lemma alike_lift_bind {A B} (a : A) (f : A -> sprog B) k : alike (f a) k -> alike (lift (Ok a) ≫= f) k.
Proof. intros Hk w1 w2 Hw. exact (Hk w1 w2 Hw). Qed.

Lemma alike_sym {A} (m k : sprog A) : alike m k -> alike k m.
Proof. intros Hm w1 w2 Hw. destruct (Hm w2 w1 (symmetry Hw)) as [E S]. by split. Qed.

Lemma feed_events_app a b {B} (f : unit -> sprog B) :
  (forall u, alike (f u) (f u)) ->
  alike (feed_events uuid_hex a ≫= fun _ => feed_events uuid_hex b ≫= f) (feed_events uuid_hex (a ++ b) ≫= f).
Proof.
  intros Hf. induction a as [|e a IH]; cbn [feed_events app].
  - apply alike_ret_bind. by apply alike_bind; [apply alike_feed_events|].
  - apply alike_assoc, alike_sym, alike_assoc. apply alike_bind; [apply alike_refl_in_translator|]. intros frames.
    apply alike_assoc, alike_sym, alike_assoc. apply alike_bind; [apply alike_refl_yield|]. intros _. exact IH.
Qed.

(** [json.loads] fails only as its documentation says *)
Hypothesis loads_fails : forall b e, json_loads b = Raise e -> decode_failure e = true.

Definition all_ok {A} (l : list (result A)) : Prop := Forall (fun r => is_ok r = true) l.

Lemma frame_items_ok frame : all_ok (frame_items json_loads frame).
Proof.
  unfold frame_items. induction (split_on 10 (crlf_to_lf frame)) as [|l ls IH]; [constructor|]. cbn [omap list_omap].
  unfold line_item. destruct (startswith DATA l); [|done]. cbn zeta. destruct (str_eqb _ DONE); [by constructor|].
  destruct (json_loads _) as [v|e] eqn:E; [by constructor|]. by rewrite (loads_fails _ _ E).
Qed.

Lemma collect_ok items : all_ok items -> exists events, collect items = Ok events.
Proof.
  induction 1 as [|[item|e] items Hi _ [events IH]]; [by eexists| |done]. cbn [collect]. rewrite IH. cbn. by eexists.
Qed.

Lemma parse_ok buffer : exists r, parse_chat_sse_frames json_loads buffer = Ok r.
Proof.
  unfold parse_chat_sse_frames. destruct (split_frames buffer) as [frames rest].
  destruct (collect_ok (all_items json_loads frames)) as [events ->]; [|by eexists].
  unfold all_items. apply Forall_concat, Forall_map, Forall_true. intros f. apply frame_items_ok.
Qed.

Lemma scan_usage_ok items : all_ok items -> forall usage, exists u, scan_usage usage items = (u, Ok tt).
Proof.
  induction 1 as [|[item|e] items Hi _ IH]; intros usage; [by eexists| |done]. cbn [scan_usage]. apply IH.
Qed.

Lemma scanner_ok s chunk : exists s', scanner_feed json_loads s chunk = (s', Ok tt).
Proof.
  unfold scanner_feed. destruct (split_frames _) as [frames rest].
  assert (Hscan : forall usage, exists s', scan_frames json_loads usage frames rest = (s', Ok tt)).
  { induction frames as [|f frames IH]; intros usage; cbn [scan_frames]; [by eexists|].
    destruct (scan_usage_ok (frame_items json_loads (fst f)) (frame_items_ok _) usage) as [u ->]. apply IH. }
  destruct (Hscan (sc_usage s)) as [s' ->]. by eexists.
Qed.

Lemma on_raw_chunk_alike chunk {B} (f : unit -> sprog B) k : alike (f tt) k -> alike (on_raw_chunk json_loads chunk ≫= f) k.
Proof.
  intros Hf w1 w2 Hw. unfold mbind, program_bind, on_raw_chunk.
  destruct (scanner_ok (st_scanner (state w1)) chunk) as [s' ->]. cbn [fst snd]. apply Hf.
  destruct Hw as (S1 & S2 & S3). by split.
Qed.

(** The loop reads the events of its chunks and feeds them, in order *)
Lemma read_stream_alike chunks : forall buffer {B} (f : bytes -> sprog B), (forall b, alike (f b) (f b)) ->
  exists events rest, read_chunks json_loads buffer chunks = Ok (events, rest) /\
    alike (read_stream uuid_hex json_loads buffer chunks ≫= f) (feed_events uuid_hex events ≫= fun _ => f rest).
Proof.
  induction chunks as [|chunk chunks IH]; intros buffer B f Hf; cbn [read_chunks read_stream].
  { exists [], buffer. split; [done|]. apply Hf. }
  destruct (parse_ok (buffer ++ chunk)) as [[ev rest] E]. rewrite E. cbn [mbind result_bind].
  destruct (IH rest B f Hf) as (ev' & rest' & E' & Ha). rewrite E'. exists (ev ++ ev'), rest'. split; [done|].
  apply alike_assoc, on_raw_chunk_alike, alike_assoc.
  apply alike_lift_bind, alike_assoc.
  apply (alike_trans _ (feed_events uuid_hex ev ≫= fun _ => feed_events uuid_hex ev' ≫= fun _ => f rest')).
  - apply alike_bind; [apply alike_feed_events|]. intros _. exact Ha.
  - apply feed_events_app. intros _. apply Hf.
Qed.

Lemma flush_alike buffer {B} (f : unit -> sprog B) : (forall u, alike (f u) (f u)) ->
  alike (flush uuid_hex json_loads buffer ≫= f) (flush uuid_hex json_loads buffer ≫= f).
Proof.
  intros Hf. apply alike_bind; [|done]. unfold flush. destruct (strip_with _ _); [apply alike_ret|].
  destruct (parse_ok (buffer ++ LF2)) as [[events rest] ->]. apply alike_lift_bind, alike_sym, alike_lift_bind, alike_feed_events.
Qed.

(** How the upstream's bytes are cut into chunks is not observable: the
    client receives the same frames, the translator ends in the same state, and
    the stream ends the same way as if everything had come in one chunk. *)
Theorem stream_chunking_irrelevant chunks n :
  let run chunks := translate_responses_stream uuid_hex model response_id created_at json_loads chunks
                      (mkWorld (mkStream new_translator new_scanner) n []) in
  fst (run chunks) = fst (run [concat chunks]) /\
  yielded (trace (snd (run chunks))) = yielded (trace (snd (run [concat chunks]))) /\
  st_translator (state (snd (run chunks))) = st_translator (state (snd (run [concat chunks]))).
Proof.
  cbn zeta. set (w := mkWorld _ _ _).
  enough (Ha : alike (translate_responses_stream uuid_hex model response_id created_at json_loads chunks)
                 (translate_responses_stream uuid_hex model response_id created_at json_loads [concat chunks])).
  { destruct (Ha w w) as [E (S1 & S2 & S3)]; [done|]. split; [exact E|]. split; [by rewrite S3|exact S1]. }
  unfold translate_responses_stream. apply alike_bind; [apply alike_refl_in_translator|]. intros frames.
  apply alike_bind; [apply alike_refl_yield|]. intros _.
  set (rest := fun buffer => flush uuid_hex json_loads buffer ≫= _).
  assert (Hrest : forall b, alike (rest b) (rest b)).
  { intros b. apply flush_alike. intros _. apply alike_bind; [apply alike_refl_in_translator|]. intros fs. apply alike_refl_yield. }
  destruct (read_stream_alike chunks [] rest Hrest) as (ev1 & rest1 & E1 & H1).
  destruct (read_stream_alike [concat chunks] [] rest Hrest) as (ev2 & rest2 & E2 & H2).
  rewrite (proj1 (chunking_irrelevant json_loads chunks)) in E1.
  rewrite (proj1 (chunking_irrelevant json_loads [concat chunks])) in E2. cbn [concat] in E2. rewrite app_nil_r, E1 in E2.
  injection E2 as <- <-. apply (alike_trans _ _ _ H1), alike_sym. exact H2.
Qed.
End Chunking.

(** ** What a stream adds up to *)

(** The delta of a chunk, and the pieces of tool calls in it *)
Definition chunk_delta (chunk : pydict) : pydict :=
  match chunk_choice chunk with
  | Some choice => match get "delta" choice with PDict d => d | _ => [] end
  | None => []
  end.

Definition call_pieces (calls : pyval) : list pydict := match calls with PList l => omap as_dict l | _ => [] end.
Definition piece_text (call : pydict) : pystr := match get "arguments" (call_function call) with PStr s => s | _ => [] end.
Definition piece_key (call : pydict) : option Z := isinstance_int (get "index" call).

(** The pieces of a call, put together *)
Definition pieces_text (key : Z) (pieces : list pydict) : pystr :=
  concat (map (fun c => if decide (piece_key c = Some key) then piece_text c else []) pieces).

(** The keys, in the order in which they come first *)
Definition add_key (order : list Z) (call : pydict) : list Z :=
  match piece_key call with Some k => if decide (k ∈ order) then order else order ++ [k] | None => order end.
Definition first_keys (order : list Z) (pieces : list pydict) : list Z := fold_left add_key pieces order.

Definition text_of (it : option item_state) : pystr := match it with Some it => it_text it | None => [] end.
Definition arguments_at (s : translator) (key : Z) : pystr :=
  match tr_tool_calls s !! key with Some it => it_arguments it | None => [] end.

(** The id and the name of a call: the id of its first piece, or [None] when
    that piece has none and an id is drawn, and the first name that is not empty *)
Definition call_label := (option pystr * pystr)%type.
Definition labels := Z -> option call_label.

Definition piece_id `{UnicodeData} (call : pydict) : option pystr := match str_or_empty (get "id" call) with [] => None | id => Some id end.
Definition first_label `{UnicodeData} (call : pydict) : call_label :=
  (piece_id call, chat_tool_name_to_client_name (str_or_empty (get "name" (call_function call)))).
Definition add_name `{UnicodeData} (call : pydict) (l : call_label) : call_label :=
  (fst l, match get "name" (call_function call), snd l with
          | PStr (c :: name), [] => chat_tool_name_to_client_name (c :: name)
          | _, n => n
          end).
Definition add_label `{UnicodeData} (ls : labels) (call : pydict) : labels :=
  match piece_key call with
  | Some key => fun k => if decide (k = key) then Some (add_name call (default (first_label call) (ls key))) else ls k
  | None => ls
  end.
Definition call_labels `{UnicodeData} (pieces : list pydict) (ls : labels) : labels := fold_left add_label pieces ls.
Definition no_labels : labels := fun _ => None.

(** The calls of a translator carry the labels. *)
Definition carries (l : call_label) (it : item_state) : Prop :=
  it_call_id it <> [] /\ match fst l with Some id => it_call_id it = id | None => True end /\ it_name it = snd l.
Definition labelled (ls : labels) (s : translator) : Prop := forall k,
  match ls k, tr_tool_calls s !! k with Some l, Some it => carries l it | None, None => True | _, _ => False end.

(** What became of the fields that hold text *)
Record gained `{UnicodeData} (reasoning content : pystr) (pieces : list pydict) (s s' : translator) : Prop := {
  gn_reasoning : text_of (tr_reasoning s') = text_of (tr_reasoning s) ++ reasoning;
  gn_opened_reasoning : is_Some (tr_reasoning s') <-> is_Some (tr_reasoning s) \/ reasoning <> [];
  gn_message : text_of (tr_message s') = text_of (tr_message s) ++ content;
  gn_opened_message : is_Some (tr_message s') <-> is_Some (tr_message s) \/ content <> [];
  gn_order : tr_tool_order s' = first_keys (tr_tool_order s) pieces;
  gn_arguments : forall key, arguments_at s' key = arguments_at s key ++ pieces_text key pieces;
  gn_keys : forall key, is_Some (tr_tool_calls s' !! key) <-> is_Some (tr_tool_calls s !! key) \/
    Exists (fun c => piece_key c = Some key) pieces;
  gn_labels : forall ls, labelled ls s -> labelled (call_labels pieces ls) s';
}.

Lemma or_false (P : Prop) : P <-> P \/ False.
Proof. tauto. Qed.

Lemma gained_none `{UnicodeData} s s' : (forall o, item_at s' o = item_at s o) -> tr_tool_order s' = tr_tool_order s -> gained [] [] [] s s'.
Proof.
  intros Hi Ho. pose proof (Hi ReasoningPlace) as E1. pose proof (Hi MessagePlace) as E2. cbn in E1, E2.
  split; rewrite ?E1, ?E2, ?app_nil_r; try done; try tauto.
  - intros key. unfold arguments_at. pose proof (Hi (CallPlace key)) as E3. cbn in E3. by rewrite E3, app_nil_r.
  - intros key. pose proof (Hi (CallPlace key)) as E3. cbn in E3. rewrite E3, Exists_nil. apply or_false.
  - intros ls Hl k. pose proof (Hi (CallPlace k)) as E3. cbn in E3 |- *. rewrite E3. apply Hl.
Qed.

Lemma gained_trans `{UnicodeData} r1 c1 p1 r2 c2 p2 s1 s2 s3 : gained r1 c1 p1 s1 s2 -> gained r2 c2 p2 s2 s3 ->
  gained (r1 ++ r2) (c1 ++ c2) (p1 ++ p2) s1 s3.
Proof.
  intros [A1 A2 A3 A4 A5 A6 A7 A8] [B1 B2 B3 B4 B5 B6 B7 B8].
  assert (Hne : forall a b : pystr, a ++ b <> [] <-> a <> [] \/ b <> []).
  { intros a b. destruct a; cbn; [naive_solver|]. split; [by left|done]. }
  split.
  - by rewrite B1, A1, app_assoc.
  - rewrite B2, A2, Hne. apply Logic.or_assoc.
  - by rewrite B3, A3, app_assoc.
  - rewrite B4, A4, Hne. apply Logic.or_assoc.
  - rewrite B5, A5. unfold first_keys. by rewrite fold_left_app.
  - intros key. rewrite B6, A6. unfold pieces_text. by rewrite map_app, concat_app, app_assoc.
  - intros key. rewrite B7, A7, Exists_app. apply Logic.or_assoc.
  - intros ls Hl. unfold call_labels. rewrite fold_left_app. by apply B8, A8.
Qed.

Definition leads {A} (m : prog A) (F : translator -> translator -> Prop) : Prop := forall w,
  wp m (fun r w' => match r with Ok _ => F (state w) (state w') | Raise _ => True end) w.

Lemma leads_bind {A B} (m : prog A) (f : A -> prog B) F G (R : translator -> translator -> Prop) :
  leads m F -> (forall a, leads (f a) G) -> (forall s1 s2 s3, F s1 s2 -> G s2 s3 -> R s1 s3) -> leads (m ≫= f) R.
Proof.
  intros Hm Hf HR w. apply wp_bind. eapply wp_mono; [|apply Hm]. intros [a|e] w' H1; [|done].
  eapply wp_mono; [|apply Hf]. intros [b|e] w2 H2; [|done]. by eapply HR.
Qed.

Lemma leads_ret {A} (a : A) (F : translator -> translator -> Prop) : (forall s, F s s) -> leads (mret a) F.
Proof. intros HF w. apply HF. Qed.

Lemma leads_mono {A} (m : prog A) (F G : translator -> translator -> Prop) : (forall s s', F s s' -> G s s') -> leads m F -> leads m G.
Proof. intros HFG Hm w. eapply wp_mono; [|apply Hm]. intros [a|e] w'; auto. Qed.

(** Reading the state first *)
Lemma leads_get {B} (f : translator -> prog B) (F : translator -> translator -> Prop) :
  (forall s0, leads (f s0) (fun s s' => s = s0 -> F s s')) -> leads (get_state ≫= f) F.
Proof.
  intros Hf w. pose proof (Hf (state w) w) as Hw. unfold wp, mbind, program_bind, get_state in *.
  destruct (f (state w) w) as [[b|e] w']; cbn in *; auto.
Qed.

Lemma leads_update {B} g (f : unit -> prog B) (G F : translator -> translator -> Prop) :
  leads (f tt) G -> (forall s s', G (g s) s' -> F s s') -> leads (update g ≫= f) F.
Proof.
  intros Hf HF w. pose proof (Hf (mkWorld (g (state w)) (env w) (trace w))) as Hw.
  unfold wp, mbind, program_bind, update in *. destruct (f tt _) as [[b|e] w']; cbn in *; auto.
Qed.

Lemma leads_ask {A B} q (f : A -> prog B) F : (forall a, leads (f a) F) -> leads (ask q ≫= f) F.
Proof.
  intros Hf w. apply wp_bind, wp_ask. intros a e _.
  exact (Hf a (mkWorld (state w) e (trace w))).
Qed.

Lemma leads_emit_all l : leads (emit_all l) (fun s s' => exists n, s' = set_sequence n s).
Proof.
  induction l as [|[t payload] l IH]; [apply leads_ret; intros s; exists (tr_sequence s); by destruct s|].
  cbn [emit_all]. apply (leads_bind _ _ (fun s s' => exists n, s' = set_sequence n s) (fun s s' => exists n, s' = set_sequence n s)).
  - intros w. unfold emit, wp, get_state, update, lift, log, mbind, program_bind, mret, program_ret. cbn.
    destruct (encode _); cbn; [by eexists|done].
  - intros frame. apply (leads_bind _ _ _ (fun s s' => s' = s) _ IH); [intros more; by apply leads_ret|].
    intros s1 s2 s3 (n & ->) ->. by eexists.
  - intros s1 s2 s3 (n & ->) (m & ->). by exists m.
Qed.

Section Gains.
Context `{UnicodeData}.
Variable uuid_hex : nat -> pystr.

Lemma gained_sequence n s s' r c p : gained r c p s s' -> gained r c p s (set_sequence n s').
Proof.
  intros Hg. rewrite <- (app_nil_r r), <- (app_nil_r c), <- (app_nil_r p). eapply gained_trans; [exact Hg|].
  apply gained_none; [by intros []|done].
Qed.

Lemma leads_skip {A} (a : A) : leads (mret a : prog A) (gained [] [] []).
Proof. apply leads_ret. intros s. by apply gained_none. Qed.

(** Opening an item and adding a text to it, for the two items with a text *)
Lemma ensure_reasoning_leads : leads (ensure_reasoning uuid_hex) (fun s s' =>
  is_Some (tr_reasoning s') /\ text_of (tr_reasoning s') = text_of (tr_reasoning s) /\
  tr_message s' = tr_message s /\ tr_tool_calls s' = tr_tool_calls s /\ tr_tool_order s' = tr_tool_order s).
Proof.
  apply leads_get. intros s0. destruct (tr_reasoning s0) as [it|] eqn:E.
  - apply leads_ret. intros s ->. rewrite E. by split.
  - apply leads_ask. intros id. cbn zeta. eapply leads_update; [apply leads_emit_all|].
    intros s s' (n & ->) ->. cbn. rewrite E. split; [by eexists|done].
Qed.

Lemma ensure_message_leads : leads (ensure_message uuid_hex) (fun s s' =>
  is_Some (tr_message s') /\ text_of (tr_message s') = text_of (tr_message s) /\
  tr_reasoning s' = tr_reasoning s /\ tr_tool_calls s' = tr_tool_calls s /\ tr_tool_order s' = tr_tool_order s).
Proof.
  apply leads_get. intros s0. destruct (tr_message s0) as [it|] eqn:E.
  - apply leads_ret. intros s ->. rewrite E. by split.
  - apply leads_ask. intros id. cbn zeta. eapply leads_update; [apply leads_emit_all|].
    intros s s' (n & ->) ->. cbn. rewrite E. split; [by eexists|done].
Qed.

Lemma leads_raise {A} e (F : translator -> translator -> Prop) : leads (raise e : prog A) F.
Proof. by intros w. Qed.

Lemma feed_reasoning_leads reasoning : leads (feed_reasoning uuid_hex reasoning) (gained reasoning [] []).
Proof.
  destruct reasoning as [|c reasoning]; [apply leads_skip|]. cbn [feed_reasoning].
  eapply (leads_bind _ _ _ (fun s s' => forall it, tr_reasoning s = Some it ->
    exists n, s' = set_sequence n (set_reasoning (add_text (c :: reasoning) it) s))); [apply ensure_reasoning_leads| |].
  - intros frames. apply leads_get. intros s0. destruct (tr_reasoning s0) as [it|] eqn:E; [|apply leads_raise].
    eapply leads_update; [eapply (leads_bind _ _ _ (fun s s' => s' = s)); [apply leads_emit_all|intros x; by apply leads_ret|]|].
    + intros s1 s2 s3 H12 ->. exact H12.
    + cbn beta. intros s s' (n & ->) -> it'. rewrite E. intros [= <-]. by eexists.
  - intros s1 s2 s3 ([it Hit] & Ht & Hm & Hc & Ho) Hs. destruct (Hs it Hit) as (n & ->). apply gained_sequence.
    split; cbn; rewrite ?Hm, ?Ho, ?app_nil_r; try tauto.
    + rewrite <- Ht, Hit. done.
    + split; [by right|by eexists].
    + intros key. unfold arguments_at. cbn. by rewrite Hc, app_nil_r.
    + intros key. cbn. rewrite Hc, Exists_nil. apply or_false.
    + intros ls Hl k. cbn. rewrite Hc. apply Hl.
Qed.

Lemma feed_content_leads content : leads (feed_content uuid_hex content) (gained [] content []).
Proof.
  destruct content as [|c content]; [apply leads_skip|]. cbn [feed_content].
  eapply (leads_bind _ _ _ (fun s s' => forall it, tr_message s = Some it ->
    exists n, s' = set_sequence n (set_message (add_text (c :: content) it) s))); [apply ensure_message_leads| |].
  - intros frames. apply leads_get. intros s0. destruct (tr_message s0) as [it|] eqn:E; [|apply leads_raise].
    eapply leads_update; [eapply (leads_bind _ _ _ (fun s s' => s' = s)); [apply leads_emit_all|intros x; by apply leads_ret|]|].
    + intros s1 s2 s3 H12 ->. exact H12.
    + cbn beta. intros s s' (n & ->) -> it'. rewrite E. intros [= <-]. by eexists.
  - intros s1 s2 s3 ([it Hit] & Ht & Hm & Hc & Ho) Hs. destruct (Hs it Hit) as (n & ->). apply gained_sequence.
    split; cbn; rewrite ?Hm, ?Ho, ?app_nil_r; try tauto.
    + rewrite <- Ht, Hit. done.
    + split; [by right|by eexists].
    + intros key. unfold arguments_at. cbn. by rewrite Hc, app_nil_r.
    + intros key. cbn. rewrite Hc, Exists_nil. apply or_false.
    + intros ls Hl k. cbn. rewrite Hc. apply Hl.
Qed.

(** A call is in the order when it is in the table *)
Definition ordered (s : translator) : Prop := forall k, k ∈ tr_tool_order s <-> is_Some (tr_tool_calls s !! k).

Lemma first_keys_In pieces : forall order k, k ∈ first_keys order pieces <-> k ∈ order \/ Exists (fun c => piece_key c = Some k) pieces.
Proof.
  induction pieces as [|c pieces IH]; intros order k; cbn [first_keys fold_left]; [rewrite Exists_nil; apply or_false|].
  unfold first_keys in IH. rewrite IH, Exists_cons. unfold add_key. destruct (piece_key c) as [x|]; [|naive_solver].
  destruct (decide (x ∈ order)); [|rewrite elem_of_app, list_elem_of_singleton]; naive_solver.
Qed.

Lemma gained_ordered r c p s s' : gained r c p s s' -> ordered s -> ordered s'.
Proof. intros Hg Ho k. rewrite (gn_order _ _ _ _ _ Hg), first_keys_In, (gn_keys _ _ _ _ _ Hg). by rewrite (Ho k). Qed.

(** What a part of a chunk adds, when the calls are in order *)
Definition gains r c p (s s' : translator) : Prop := ordered s -> gained r c p s s'.

Lemma gains_trans r1 c1 p1 r2 c2 p2 s1 s2 s3 : gains r1 c1 p1 s1 s2 -> gains r2 c2 p2 s2 s3 ->
  gains (r1 ++ r2) (c1 ++ c2) (p1 ++ p2) s1 s3.
Proof.
  intros H1 H2 Ho. specialize (H1 Ho). specialize (H2 (gained_ordered _ _ _ _ _ H1 Ho)). by eapply gained_trans.
Qed.

Lemma leads_seq {A B} (m : prog A) (f : A -> prog B) r1 c1 p1 r2 c2 p2 : leads m (gains r1 c1 p1) ->
  (forall a, leads (f a) (gains r2 c2 p2)) -> leads (m ≫= f) (gains (r1 ++ r2) (c1 ++ c2) (p1 ++ p2)).
Proof. intros Hm Hf. eapply leads_bind; [exact Hm|exact Hf|]. intros s1 s2 s3. apply gains_trans. Qed.

Lemma leads_end {A} (m : prog A) {B} (f : A -> B) r c p : leads m (gains r c p) -> leads (a ← m; mret (f a)) (gains r c p).
Proof. intros Hm. eapply leads_bind; [exact Hm|intros a; by apply (leads_ret _ (fun s s' => s' = s))|]. by intros s1 s2 s3 H12 ->. Qed.

(** The call under a key, once it is open *)
Definition opened_call key (call_id name : pystr) (s s' : translator) : Prop := exists it, tr_tool_calls s' !! key = Some it /\
  (forall k, k <> key -> tr_tool_calls s' !! k = tr_tool_calls s !! k) /\
  match tr_tool_calls s !! key with
  | Some it0 => it = it0
  | None => carries (match call_id with [] => None | id => Some id end, chat_tool_name_to_client_name name) it
  end.

Lemma ensure_tool_call_leads key call_id name : leads (ensure_tool_call uuid_hex key call_id name) (fun s s' =>
  tr_reasoning s' = tr_reasoning s /\ tr_message s' = tr_message s /\ opened_call key call_id name s s' /\
  (forall k, arguments_at s' k = arguments_at s k) /\
  (forall k, is_Some (tr_tool_calls s' !! k) <-> is_Some (tr_tool_calls s !! k) \/ key = k) /\
  tr_tool_order s' = match tr_tool_calls s !! key with Some _ => tr_tool_order s | None => tr_tool_order s ++ [key] end).
Proof.
  apply leads_get. intros s0. destruct (tr_tool_calls s0 !! key) as [it|] eqn:E.
  { apply leads_ret. intros s ->. rewrite E. split; [done|]. split; [done|].
    split; [exists it; rewrite E; by split|]. split; [done|]. split; [|done].
    intros k. split; [by left|]. intros [Hk| <-]; [done|by eexists]. }
  apply leads_ask. intros id.
  assert (Hrest : forall c, c <> [] -> match call_id with [] => True | id => c = id end -> leads
    (let it := set_name (chat_tool_name_to_client_name name) (set_call_id c (new_item (tr_next_index s0) id Function)) in
     update (fun s => set_tools (<[key := it]> (tr_tool_calls s)) (tr_tool_order s ++ [key])
                        (set_next_index (S (tr_next_index s)) s));;
     emit_all [(ItemAdded, ["output_index" :-> index_value it;
                   "item" :-> PDict ["type" :-> text "function_call"; "id" :-> PStr id; "call_id" :-> PStr (it_call_id it);
                                     "name" :-> PStr (it_name it); "arguments" :-> PStr []; "status" :-> text "in_progress"]])])
    (fun s s' => s = s0 -> tr_reasoning s' = tr_reasoning s /\ tr_message s' = tr_message s /\ opened_call key call_id name s s' /\
      (forall k, arguments_at s' k = arguments_at s k) /\
      (forall k, is_Some (tr_tool_calls s' !! k) <-> is_Some (tr_tool_calls s !! k) \/ key = k) /\
      tr_tool_order s' = match tr_tool_calls s !! key with Some _ => tr_tool_order s | None => tr_tool_order s ++ [key] end)).
  { intros c Hc Hid. cbn zeta. eapply leads_update; [apply leads_emit_all|]. intros s s' (n & ->) ->. cbn.
    split; [done|]. split; [done|]. split.
    { eexists. cbn. rewrite lookup_insert_eq, E. split; [done|]. split; [intros k Hk; by rewrite lookup_insert_ne|].
      split; [exact Hc|]. split; [by destruct call_id|done]. }
    rewrite E. split; [|split; [|done]].
    - intros k. unfold arguments_at. cbn. destruct (decide (key = k)) as [<-|Hk]; [by rewrite lookup_insert_eq, E|].
      by rewrite lookup_insert_ne.
    - intros k. destruct (decide (key = k)) as [<-|Hk]; [rewrite lookup_insert_eq; split; [by right|by eexists]|].
      rewrite lookup_insert_ne by done. naive_solver. }
  destruct call_id as [|c call_id]; [|by apply (Hrest (c :: call_id))].
  intros w. apply wp_bind, wp_ask. intros c e Hce.
  assert (c <> []) as Hne by (injection Hce as <- _; discriminate). exact (Hrest c Hne I (mkWorld (state w) e (trace w))).
Qed.

(** Later pieces do not change the id, and add a name where there is none. *)
Lemma update_call_carries call it l : carries l it -> carries (add_name call l) (update_call call it).
Proof.
  intros (Hne & Hid & Hn). unfold update_call, add_name, carries.
  assert (nonempty (it_call_id it) = true) as -> by by destruct (it_call_id it). rewrite andb_false_r. cbn [fst snd]. rewrite <- Hn.
  destruct (get "name" (call_function call)) as [| | | |[|c name]| |]; try done.
  destruct (it_name it) eqn:En; (split; [exact Hne|split; [exact Hid|]]); [reflexivity|exact En].
Qed.

(** A piece of a call that says which call it belongs to *)
Lemma feed_call_leads call : is_Some (piece_key call) -> leads (feed_call uuid_hex call) (gains [] [] [call]).
Proof.
  intros [key Hkey]. apply leads_get. intros s0. cbn zeta.
  assert (Ek : call_key call s0 = key) by (unfold call_key, piece_key in *; by rewrite Hkey). rewrite Ek.
  eapply (leads_bind _ _ _ (fun s s' => forall it, tr_tool_calls s !! key = Some it -> exists n it',
    s' = set_sequence n (set_tools (<[key := it']> (tr_tool_calls s)) (tr_tool_order s) s) /\
    it_arguments it' = it_arguments it ++ piece_text call /\ forall l, carries l it -> carries (add_name call l) it'));
    [apply ensure_tool_call_leads| |].
  - intros frames. apply leads_get. intros s1. destruct (tr_tool_calls s1 !! key) as [it|] eqn:E; [|apply leads_raise].
    destruct (update_call_same call it) as (_ & _ & _ & Ha & _). pose proof (update_call_carries call it) as Hcar.
    assert (Hquiet : piece_text call = [] -> leads
      (update (fun s => set_tools (<[key := update_call call it]> (tr_tool_calls s)) (tr_tool_order s) s);; mret frames)
      (fun s s' => s = s1 -> forall it0, tr_tool_calls s !! key = Some it0 -> exists n it',
        s' = set_sequence n (set_tools (<[key := it']> (tr_tool_calls s)) (tr_tool_order s) s) /\
        it_arguments it' = it_arguments it0 ++ piece_text call /\ forall l, carries l it0 -> carries (add_name call l) it')).
    { intros Hp. eapply leads_update; [by apply (leads_ret _ (fun s s' => s' = s))|]. intros s s' -> -> it0. rewrite E.
      intros [= <-]. exists (tr_sequence s1), (update_call call it). split; [by destruct s1|]. split; [by rewrite Ha, Hp, app_nil_r|done]. }
    unfold piece_text in *. destruct (get "arguments" (call_function call)) as [| | | |[|c arguments]| |]; try by apply Hquiet.
    eapply leads_update; [eapply (leads_bind _ _ _ (fun s s' => s' = s)); [apply leads_emit_all|intros x; by apply leads_ret|]|].
    + intros s2 s3 s4 H12 ->. exact H12.
    + cbn beta. intros s s' (n & ->) -> it0. rewrite E. intros [= <-]. exists n, (add_arguments (c :: arguments) (update_call call it)).
      split; [done|]. cbn. rewrite Ha. split; [done|]. intros l Hl. by apply Hcar.
  - intros s1 s2 s3 (Hr & Hm & (it & Hit & Hother & Hopen) & Ha & Hk & Ho) Hs _ Hord. destruct (Hs it Hit) as (n & it' & -> & Hargs & Hcar).
    apply gained_sequence. split; cbn; rewrite ?Hr, ?Hm, ?app_nil_r; try done.
    + naive_solver.
    + naive_solver.
    + unfold add_key. rewrite Hkey, Ho. specialize (Hord key). destruct (tr_tool_calls s1 !! key).
      * rewrite decide_True; [done|]. apply Hord. by eexists.
      * rewrite decide_False; [done|]. intros Hx. apply Hord in Hx as [? ?]. done.
    + intros k. rewrite <- Ha. unfold arguments_at, pieces_text. cbn. rewrite Hkey, app_nil_r.
      destruct (decide (key = k)) as [<-|Hne].
      * rewrite lookup_insert_eq, decide_True, Hit by done. done.
      * rewrite lookup_insert_ne, decide_False, app_nil_r by congruence. done.
    + intros k. rewrite Exists_cons, Exists_nil, Hkey. destruct (decide (key = k)) as [<-|Hne].
      * rewrite lookup_insert_eq. split; [intros _; right; by left|by eexists].
      * rewrite lookup_insert_ne, Hk by done. naive_solver.
    + intros ls Hl k. cbn. unfold add_label. rewrite Hkey. destruct (decide (k = key)) as [->|Hne].
      * rewrite lookup_insert_eq. apply Hcar. specialize (Hl key). destruct (tr_tool_calls s1 !! key) as [it0|], (ls key) as [l|];
          try done; cbn; [by subst it0|]. unfold first_label, piece_id. by destruct (str_or_empty (get "id" call)).
      * rewrite lookup_insert_ne, Hother by done. apply Hl.
Qed.

Lemma feed_calls_leads calls : Forall (fun c => is_Some (piece_key c)) (omap as_dict calls) ->
  leads (feed_calls uuid_hex calls) (gains [] [] (omap as_dict calls)).
Proof.
  induction calls as [|call calls IH]; intros Hk; [intros w _; by apply gained_none|].
  destruct call as [| | | | | |c]; cbn [feed_calls omap list_omap as_dict] in *; try by apply IH.
  apply Forall_cons in Hk as [Hc Hk].
  apply (leads_seq _ _ [] [] [c] [] [] (omap as_dict calls)); [by apply feed_call_leads|]. intros frames. by apply leads_end, IH.
Qed.

Definition chunk_reasoning (chunk : pydict) : pystr := extract_reasoning_text (chunk_delta chunk).
Definition chunk_content (chunk : pydict) : pystr := content_text (get "content" (chunk_delta chunk)).
Definition chunk_pieces (chunk : pydict) : list pydict := call_pieces (get "tool_calls" (chunk_delta chunk)).

Lemma leads_gained {A} (m : prog A) r c p : leads m (gained r c p) -> leads m (gains r c p).
Proof. apply leads_mono. by intros s s' Hg _. Qed.

Lemma feed_delta_leads d : Forall (fun c => is_Some (piece_key c)) (call_pieces (get "tool_calls" d)) ->
  leads (feed_delta uuid_hex (PDict d))
    (gains (extract_reasoning_text d) (content_text (get "content" d)) (call_pieces (get "tool_calls" d))).
Proof.
  intros Hk. cbn [feed_delta].
  assert (Hc : leads (match get "tool_calls" d with PList calls => feed_calls uuid_hex calls | _ => no_frames end)
                 (gains [] [] (call_pieces (get "tool_calls" d)))).
  { destruct (get "tool_calls" d); try (apply leads_gained, leads_skip). by apply feed_calls_leads. }
  eapply leads_bind; [apply leads_gained, feed_reasoning_leads| |].
  - intros a. eapply (leads_bind _ _ _ _ (gains [] (content_text (get "content" d)) (call_pieces (get "tool_calls" d))));
      [apply leads_gained, feed_content_leads|intros b; apply leads_end, Hc|].
    intros s1 s2 s3 H1 H2. pose proof (gains_trans _ _ _ _ _ _ _ _ _ H1 H2) as H3. by rewrite !app_nil_r in H3.
  - intros s1 s2 s3 H1 H2. pose proof (gains_trans _ _ _ _ _ _ _ _ _ H1 H2) as H3. by rewrite app_nil_r in H3.
Qed.

Lemma gains_from s0 s s' r c p : (forall o, item_at s0 o = item_at s o) -> tr_tool_order s0 = tr_tool_order s ->
  gains r c p s0 s' -> gains r c p s s'.
Proof.
  intros Hi Ho Hg Hord. rewrite <- (app_nil_l r), <- (app_nil_l c), <- (app_nil_l p).
  pose proof (gained_none s s0 Hi Ho) as H0. eapply gained_trans; [exact H0|]. apply Hg. by eapply gained_ordered.
Qed.

Lemma feed_leads chunk : Forall (fun c => is_Some (piece_key c)) (chunk_pieces chunk) ->
  leads (feed uuid_hex chunk) (gains (chunk_reasoning chunk) (chunk_content chunk) (chunk_pieces chunk)).
Proof.
  intros Hk. unfold feed. eapply (leads_update _ _ (gains (chunk_reasoning chunk) (chunk_content chunk) (chunk_pieces chunk))).
  2: { intros s s'. apply gains_from; destruct (get "usage" chunk); try done; by intros []. }
  unfold chunk_reasoning, chunk_content, chunk_pieces, chunk_delta in *.
  destruct (chunk_choice chunk) as [choice|]; [|apply leads_gained, leads_skip].
  set (d0 := match get "delta" choice with PDict d => d | _ => [] end) in *.
  apply (leads_bind _ _ (gains (extract_reasoning_text d0) (content_text (get "content" d0)) (call_pieces (get "tool_calls" d0)))
           (fun s s' => exists r, s' = set_finish_reason r s)).
  - subst d0. destruct (get "delta" choice) as [| | | | | |d]; try (apply leads_gained, leads_skip). by apply feed_delta_leads.
  - intros frames. eapply leads_update; [by apply (leads_ret _ (fun s s' => s' = s))|]. intros s s' ->.
    destruct (get "finish_reason" choice) as [| | | |[|c r]| |]; try (by exists (tr_finish_reason s); destruct s). by eexists.
  - intros s1 s2 s3 Hg (r & ->) Ho. specialize (Hg Ho).
    rewrite <- (app_nil_r (extract_reasoning_text _)), <- (app_nil_r (content_text _)), <- (app_nil_r (call_pieces _)).
    eapply gained_trans; [exact Hg|]. apply gained_none; [by intros []|done].
Qed.

(** All the chunks of a stream *)
Fixpoint feed_all (events : list pydict) : prog (list bytes) :=
  match events with
  | [] => no_frames
  | e :: rest => frames ← feed uuid_hex e; more ← feed_all rest; mret (frames ++ more)
  end.

Lemma feed_all_leads events : Forall (fun c => is_Some (piece_key c)) (concat (map chunk_pieces events)) ->
  leads (feed_all events)
    (gains (concat (map chunk_reasoning events)) (concat (map chunk_content events)) (concat (map chunk_pieces events))).
Proof.
  induction events as [|e events IH]; intros Hk; cbn [feed_all map concat] in *; [apply leads_gained, leads_skip|].
  apply Forall_app in Hk as [He Hk]. apply leads_seq; [by apply feed_leads|]. intros frames. by apply leads_end, IH.
Qed.

Lemma feed_all_runs events : runs [] id (feed_all events) tracks (fun _ => tracks).
Proof.
  induction events as [|e events IH]; [by apply runs_ret|]. cbn [feed_all].
  eapply runs_bind; [apply feed_runs|]. intros frames. eapply (runs_bind _ id); [exact IH|]. intros more. by apply runs_ret.
Qed.

(** ** The finished response *)

Variable model response_id : pystr.
Variable created_at now : Z.

Lemma close_items_leads items : leads (close_items items) (fun s s' => exists n, s' = set_sequence n s).
Proof.
  induction items as [|it items IH]; [apply leads_ret; intros s; exists (tr_sequence s); by destruct s|]. cbn [close_items].
  eapply leads_bind; [apply leads_emit_all| |].
  - intros frames. apply (leads_bind _ _ _ (fun s s' => s' = s) _ IH); [intros [more output]; by apply leads_ret|].
    intros s1 s2 s3 H12 ->. exact H12.
  - intros s1 s2 s3 (n & ->) (m & ->). by exists m.
Qed.

Lemma close_items_output items w a w' : close_items items w = (Ok a, w') -> a.2 = map final_item items.
Proof.
  revert w a w'. induction items as [|it items IH]; intros w a w'; cbn [close_items]; [by intros [= <- _]|].
  unfold mbind, program_bind. destruct (emit_all _ w) as [[frames|e] w1]; [|done].
  destruct (close_items items w1) as [[[more output]|e] w2] eqn:E; [|done]. intros [= <- _]. apply IH in E. cbn in E |- *. by rewrite E.
Qed.

Definition calls_of (s : translator) (order : list Z) : list item_state := omap (fun key => tr_tool_calls s !! key) order.

Lemma close_calls_output order : forall w a w', close_calls order w = (Ok a, w') ->
  a.2 = map final_item (calls_of (state w) order) /\ exists n, state w' = set_sequence n (state w).
Proof.
  induction order as [|key order IH]; intros w a w'; cbn [close_calls].
  { intros [= <- <-]. split; [done|]. exists (tr_sequence (state w)). by destruct (state w). }
  unfold mbind, program_bind, get_state. unfold calls_of. cbn [omap list_omap].
  destruct (tr_tool_calls (state w) !! key) as [it|] eqn:Ek; [|done].
  pose proof (close_items_leads [it] w) as Hl. unfold wp in Hl.
  destruct (close_items [it] w) as [[[frames item]|e] w1] eqn:E1; [|done]. destruct Hl as (n & Hn). cbn in Hn.
  pose proof (close_items_output _ _ _ _ E1) as Hi. cbn in Hi. subst item.
  destruct (close_calls order w1) as [[[more output]|e] w2] eqn:E2; [|done]. intros [= <- <-].
  destruct (IH _ _ _ E2) as [Ho (m & Hm)]. cbn in Ho |- *. rewrite Ho, Hm, Hn. split; [done|]. by exists m.
Qed.

(** The items in the order of the response *)
Definition listed_items (s : translator) : list item_state :=
  option_list (tr_reasoning s) ++ option_list (tr_message s) ++ calls_of s (tr_tool_order s).

Lemma finish_output w frames w' : tr_completed (state w) = false ->
  finish model response_id created_at w = (Ok frames, w') -> exists p r,
    last (trace w') = Some (Emitted (Completed, p)) /\ get "response" p = PDict r /\
    get "output" r = PList (map final_item (listed_items (state w))).
Proof.
  intros Hc. unfold finish, mbind, program_bind, get_state, update. rewrite Hc. set (w1 := mkWorld _ _ _).
  pose proof (close_items_leads (option_list (tr_reasoning (state w))) w1) as H1. unfold wp in H1.
  destruct (close_items _ w1) as [[[a reasoning]|e] w2] eqn:E1; [|done]. destruct H1 as (n1 & H1). cbn in H1.
  pose proof (close_items_leads (option_list (tr_message (state w))) w2) as H2. unfold wp in H2.
  destruct (close_items _ w2) as [[[b message]|e] w3] eqn:E2; [|done]. destruct H2 as (n2 & H2). cbn in H2.
  destruct (close_calls _ w3) as [[[c calls]|e] w4] eqn:E3; [|done].
  apply close_items_output in E1, E2. apply close_calls_output in E3 as [E3 _]. cbn in E1, E2, E3. subst reasoning message calls.
  unfold lift. destruct (base_response _ _ _ _ _ (state w4)) as [r|e] eqn:Er; [|done].
  apply base_response_output in Er. cbn [emit_all].
  unfold emit, mbind, program_bind, get_state, update, lift, log, mret, program_ret. destruct (encode _) as [frame|e]; [|done].
  cbn. intros [= _ <-]. eexists _, r. cbn [trace]. rewrite last_snoc. split; [done|]. split; [done|].
  rewrite Er. unfold listed_items. rewrite !map_app. by rewrite H2, H1.
Qed.

(** An item of an output apart from its own id *)
Definition without_id (item : pyval) : pyval := match item with PDict d => PDict (dict_del (str "id") d) | v => v end.

Definition content_shape (reasoning content : pystr) (calls : list tool_call) : list pyval :=
  (if nonempty reasoning then [without_id (reasoning_item [] reasoning)] else [])
    ++ (if nonempty content then [without_id (message_item [] content)] else [])
    ++ map (fun c => without_id (function_call_item [] c)) calls.

Lemma without_ids calls : forall ids : nat -> pystr,
  map without_id (imap (fun i c => function_call_item (ids i) c) calls) = map (fun c => without_id (function_call_item [] c)) calls.
Proof.
  induction calls as [|c calls IH]; intros ids; [done|]. cbn [imap map]. f_equal. exact (IH (fun i => ids (S i))).
Qed.

(** The output of a buffered response *)
Lemma output_items_shape uuid n reasoning content calls :
  map without_id (output_items uuid n reasoning content calls) = content_shape reasoning content calls.
Proof.
  unfold output_items, content_shape. rewrite !map_app. f_equal; [by destruct (nonempty reasoning)|].
  f_equal; [by destruct (nonempty content)|]. by rewrite <- (without_ids calls (fun i => new_id uuid "fc"
    (n + length (if nonempty reasoning then [reasoning_item (new_id uuid "rs" n) reasoning] else [])
       + length (if nonempty content then [message_item (new_id uuid "msg" (n + length (if nonempty reasoning then [reasoning_item (new_id uuid "rs" n) reasoning] else []))) content] else []) + i)%nat)).
Qed.

(** The methods in the order in which the generator calls them *)
Definition conversation (events : list pydict) : prog (list bytes) :=
  a ← start model response_id created_at;
  b ← feed_all events;
  c ← finish model response_id created_at;
  mret (a ++ b ++ c).

Lemma start_leads : leads (start model response_id created_at) (fun s s' => exists n, s' = set_sequence n s).
Proof.
  intros w. unfold wp, start, emit, mbind, program_bind, get_state, update, lift, log, mret, program_ret. cbn.
  destruct (encode _); cbn; [|done]. destruct (encode _); cbn; [by eexists|done].
Qed.

(** The calls of a message are the calls that the pieces make. *)
Definition calls_agree (pieces : list pydict) (calls : list tool_call) : Prop :=
  Forall2 (fun call key => call_labels pieces no_labels key = Some (Some (tc_id call), tc_name call) /\
                           tc_arguments call = pieces_text key pieces) calls (first_keys [] pieces).

Lemma listed_shape s slots reasoning content pieces n calls : related s slots ->
  gained reasoning content pieces (set_sequence n new_translator) s -> calls_agree pieces calls ->
  map (fun it => without_id (final_item it)) (listed_items s) = content_shape reasoning content calls.
Proof.
  intros Hr Hg Hcalls. unfold listed_items, content_shape. rewrite !map_app. f_equal; [|f_equal].
  - pose proof (gn_reasoning _ _ _ _ _ Hg) as Ht. pose proof (gn_opened_reasoning _ _ _ _ _ Hg) as Ho. cbn in Ht, Ho.
    destruct (tr_reasoning s) as [it|] eqn:E; cbn in Ht |- *; [|by rewrite <- Ht].
    destruct (rel_holds _ _ Hr ReasoningPlace it E) as [Hk _]. cbn in Hk. unfold final_item. rewrite Hk, Ht.
    destruct Ho as [Ho _]. destruct Ho as [Hx|Hx]; [by eexists|by destruct Hx|]. by destruct reasoning.
  - pose proof (gn_message _ _ _ _ _ Hg) as Ht. pose proof (gn_opened_message _ _ _ _ _ Hg) as Ho. cbn in Ht, Ho.
    destruct (tr_message s) as [it|] eqn:E; cbn in Ht |- *; [|by rewrite <- Ht].
    destruct (rel_holds _ _ Hr MessagePlace it E) as [Hk _]. cbn in Hk. unfold final_item. rewrite Hk, Ht.
    destruct Ho as [Ho _]. destruct Ho as [Hx|Hx]; [by eexists|by destruct Hx|]. by destruct content.
  - pose proof (gn_order _ _ _ _ _ Hg) as Ho. cbn in Ho. unfold calls_agree in Hcalls. rewrite <- Ho in Hcalls. clear Ho.
    assert (labelled (call_labels pieces no_labels) s) as Hl by (apply (gn_labels _ _ _ _ _ Hg); intros k; done).
    unfold calls_of. induction Hcalls as [|call key calls order [Hlab Hargs] _ IH]; [done|].
    cbn [omap list_omap map]. specialize (Hl key). rewrite Hlab in Hl. destruct (tr_tool_calls s !! key) as [it|] eqn:E; [|done].
    cbn [map]. rewrite IH. f_equal. destruct (rel_holds _ _ Hr (CallPlace key) it E) as [Hk _]. cbn in Hk. unfold final_item. rewrite Hk.
    pose proof (gn_arguments _ _ _ _ _ Hg key) as Ha. unfold arguments_at in Ha. rewrite E in Ha. cbn in Ha.
    destruct Hl as (_ & Hid & Hn). cbn in Hid, Hn. rewrite Hid, Hn, Ha. destruct call as [cid cname cargs]. cbn in *. by subst cargs.
Qed.

(** C38.  Streaming and buffering agree: when every piece of a call names the index
    of its call, and the deltas of a stream add up to a message (the texts are
    the concatenations of the deltas; the calls are those of the indexes in the
    order in which they come first, with the id of the first piece, the first
    name that is not empty and the concatenated arguments), the response that
    ends the stream lists exactly the items of the response that is made of the
    message, in the same order, apart from the fresh ids of the items. *)
Theorem stream_agrees_with_buffered events frames w n payload response calls :
  let pieces := concat (map chunk_pieces events) in
  let message := choice_message (first_choice payload) in
  Forall (fun c => is_Some (piece_key c)) pieces ->
  conversation events (mkWorld new_translator n []) = (Ok frames, w) ->
  from_chat_response uuid_hex now model payload = Ok response ->
  extract_reasoning_text message = concat (map chunk_reasoning events) ->
  content_text (get "content" message) = concat (map chunk_content events) ->
  iter_tool_calls message = Ok calls -> calls_agree pieces calls ->
  exists p r streamed buffered, last (trace w) = Some (Emitted (Completed, p)) /\ get "response" p = PDict r /\
    get "output" r = PList streamed /\ get "output" response = PList buffered /\
    map without_id streamed = map without_id buffered.
Proof.
  cbn zeta. intros Hk Hrun Hresp Hreasoning Hcontent Hcalls Harguments. set (w0 := mkWorld _ _ _) in Hrun.
  unfold conversation, mbind, program_bind in Hrun.
  pose proof (start_runs model response_id created_at w0 new_lifecycle (conj eq_refl eq_refl)) as H1. unfold wp in H1.
  pose proof (start_leads w0) as L1. unfold wp in L1.
  destruct (start _ _ _ w0) as [[a|e] w1] eqn:E1; [|done].
  destruct H1 as (_ & sp1 & _ & _ & _ & _ & _ & H1). destruct L1 as (n1 & L1). cbn in H1, L1.
  pose proof (feed_all_runs events w1 sp1 H1) as H2. unfold wp in H2.
  pose proof (feed_all_leads events Hk w1) as L2. unfold wp in L2.
  destruct (feed_all events w1) as [[b|e] w2] eqn:E2; [|done].
  destruct H2 as (_ & sp2 & _ & _ & _ & _ & _ & H2). cbn in H2, L2. rewrite L1 in L2.
  destruct H2 as (_ & _ & _ & Hr).
  assert (Hord : ordered (set_sequence n1 new_translator)).
  { intros k. cbn. rewrite lookup_empty. split; [by intros ?%not_elem_of_nil|by intros []]. }
  pose proof (L2 Hord) as Hg.
  destruct (finish _ _ _ w2) as [[c|e] w3] eqn:E3; [|done]. injection Hrun as _ <-.
  destruct (finish_output w2 c w3 (rel_open _ _ Hr) E3) as (p & r & Hlast & Hp & Ho).
  unfold from_chat_response in Hresp. rewrite Hcalls in Hresp. cbn [mbind result_bind] in Hresp.
  unfold envelope in Hresp. apply bind_Ok in Hresp as (u & _ & [= <-]).
  eexists p, r, _, _. split; [exact Hlast|]. split; [exact Hp|]. split; [exact Ho|]. split; [reflexivity|].
  rewrite output_items_shape, Hreasoning, Hcontent, map_map. by eapply listed_shape.
Qed.
End Gains.

(** ** A stream *)

Definition demo_hex (n : nat) : pystr := dec (Z.of_nat n).

(** A chunk of a chat stream *)
Definition delta_chunk (delta : pydict) : pydict := ["choices" :-> PList [PDict ["delta" :-> PDict delta]]].
Definition call_piece (fields : pydict) (function : pydict) : pyval := PDict (fields ++ ["function" :-> PDict function]).

Definition demo_stream : list pydict :=
  [delta_chunk ["reasoning_content" :-> text "Think"]; delta_chunk ["content" :-> text "Hel"];
   delta_chunk ["content" :-> text "lo"; "tool_calls" :-> PList [call_piece ["index" :-> PInt 0; "id" :-> text "c1"]
                   ["name" :-> text "run"; "arguments" :-> text "{"]]];
   delta_chunk ["tool_calls" :-> PList [call_piece ["index" :-> PInt 0] ["arguments" :-> text "}"]]];
   ["usage" :-> PDict ["prompt_tokens" :-> PInt 7; "completion_tokens" :-> PInt 5];
    "choices" :-> PList [PDict ["delta" :-> PDict []; "finish_reason" :-> text "stop"]]]].

Definition demo_payload : pydict :=
  ["choices" :-> PList [PDict ["message" :-> PDict ["reasoning" :-> text "Think"; "content" :-> text "Hello";
     "tool_calls" :-> PList [call_piece ["id" :-> text "c1"] ["name" :-> text "run"; "arguments" :-> text "{}"]]]]];
   "usage" :-> PDict ["prompt_tokens" :-> PInt 7]].

(** A runtime whose events are all the same *)
Definition demo_loads (b : bytes) : result pyval := Ok (PDict (delta_chunk ["content" :-> text "Hi"])).

Lemma stream_chunking_irrelevant_witness :
  let run chunks := translate_responses_stream (H := ascii_data) demo_hex (str "m") (str "r") 0 demo_loads chunks
                      (mkWorld (mkStream new_translator new_scanner) 0%nat []) in
  fst (run [str "data: 1" ++ [10]; [10] ++ str "data: 2"]) = fst (run [str "data: 1" ++ LF2 ++ str "data: 2"]) /\
  option_map it_text (tr_message (st_translator (state (snd (run [str "data: 1" ++ LF2 ++ str "data: 2"]))))) = Some (str "HiHi").
Proof.
  cbv zeta. assert (Hf : forall b e, demo_loads b = Raise e -> decode_failure e = true) by done.
  destruct (stream_chunking_irrelevant (H := ascii_data) demo_hex (str "m") (str "r") 0 demo_loads Hf
    [str "data: 1" ++ [10]; [10] ++ str "data: 2"] 0%nat) as (E & _).
  cbn [concat] in E. rewrite app_nil_r, <- app_assoc in E. split; [exact E|by vm_compute].
Defined.

Lemma stream_agrees_with_buffered_witness :
  exists frames w response, conversation (H := ascii_data) demo_hex (str "m") (str "r") 0 demo_stream
      (mkWorld new_translator 0%nat []) = (Ok frames, w) /\
    from_chat_response (H := ascii_data) demo_hex 0 (str "m") demo_payload = Ok response /\
    exists p r streamed buffered, last (trace w) = Some (Emitted (Completed, p)) /\ get "response" p = PDict r /\
      get "output" r = PList streamed /\ get "output" response = PList buffered /\
      map without_id streamed = map without_id buffered.
Proof.
  destruct (conversation (H := ascii_data) demo_hex (str "m") (str "r") 0 demo_stream (mkWorld new_translator 0%nat []))
    as [[frames|e] w] eqn:Erun; [|by vm_compute in Erun].
  destruct (from_chat_response (H := ascii_data) demo_hex 0 (str "m") demo_payload) as [response|e] eqn:Eresp; [|by vm_compute in Eresp].
  exists frames, w, response. split; [reflexivity|]. split; [reflexivity|].
  eapply (stream_agrees_with_buffered (H := ascii_data) demo_hex (str "m") (str "r") 0 0 demo_stream frames w 0%nat demo_payload response
            [mkCall (str "c1") (str "run") (str "{}")]);
    [|exact Erun|exact Eresp|by vm_compute|by vm_compute|by vm_compute|].
  - repeat constructor; by eexists.
  - constructor; [split; vm_compute; reflexivity|constructor].
Defined.

(** ** Pieces without an index *)

(** Two complete calls, the second without an index *)
Definition unindexed_stream : list pydict :=
  [delta_chunk ["tool_calls" :-> PList [call_piece ["index" :-> PInt 1; "id" :-> text "c1"]
      ["name" :-> text "read"; "arguments" :-> text "{}"]]];
   delta_chunk ["tool_calls" :-> PList [call_piece ["id" :-> text "c2"] ["name" :-> text "delete"; "arguments" :-> text "[]"]]]].

(** A piece of a tool call without an index gets the number of calls so far
    as its key, which may be the index of another call: the second of two calls
    is lost, and its arguments are appended to those of the first. *)
Theorem unindexed_calls_merge :
  let '(r, w) := conversation (H := ascii_data) demo_hex (str "m") (str "r") 0 unindexed_stream
                   (mkWorld new_translator 0%nat []) in
  is_ok r = true /\
  map item_body (listed_items (state w)) = [str "{}[]"] /\
  map it_name (listed_items (state w)) = [str "read"].
Proof. by vm_compute. Qed.
